(* ===== verification/_CoqProject ===== *)
-Q . S2P
Prelude.v
Config.v
Simulation.v
History.v
ListC.v
ListSpec.v
ListRefine.v
ListObs.v
ListProps.v
Heap4.v
Heap4Spec.v
Heap4Props.v
Kernel.v
Tasks.v
TaskApi.v
TaskEvents.v
TaskInfo.v
Queue.v
EventGroups.v
Bytes.v
StreamBuffers.v
Timers.v
Riscv.v
Port.v
PortSpec.v
PortProps.v
PortTraps.v
PortStart.v
Blocks.v
HeapCalls.v
Heap3.v
Heap1.v
Heap1Props.v
Heap2.v
Heap2Spec.v
Heap2Props.v
Heap5.v
Heap5Spec.v
Heap5Props.v
KernelRefine.v
DriversRefine.v
KernelInv.v
Frames.v
KernelSteps.v
SchedProps.v
ResumeProps.v
KernelDemo.v
PortDemo.v
SchedTheorems.v
PortTheorems.v
SuspendProps.v
Interrupts.v
HeapCallTheorems.v
PriorityProps.v
PriorityTheorems.v
TimeoutTheorems.v
EventProps.v
QueueData.v
QueueTheorems.v
SemaphoreTheorems.v
BlockProps.v
WaitTheorems.v
NotifyProps.v
ControlProps.v
EventGroupProps.v
EventGroupTheorems.v
TimerProps.v
TimerTheorems.v
StreamData.v
StreamTheorems.v
System.v
SystemTasks.v
SystemTheorems.v
SleepProps.v
HandoverTheorems.v
WindowTheorems.v
NotifyTheorems.v
MutexTheorems.v
TaskInfoTheorems.v
