(* ===== verification/Prelude.v ===== *)
(** * A verification of the FreeRTOS kernel (V10.4.4)

    The repository holds four real-time operating systems side by side.  This
    development models the kernel of the first, in
    src/freeRTOS/FreeRTOS/FreeRTOS/Source: list.c, tasks.c, queue.c, timers.c,
    event_groups.c, stream_buffer.c and portable/MemMang/heap_4.c, their
    headers, and the RISC-V port with its assembly
    (portable/GCC/RISC-V), built as the demo RISC-V-Qemu-virt_GCC builds them
    ([Config]); and heap_1.c, heap_2.c, heap_3.c and heap_5.c, which can take
    the place of heap_4.c.  File names below are relative to that directory.

    ** How the program hangs together

    Every object the kernel schedules or waits on is linked into lists by the
    items of list.c: a task by its state item into a ready list, a delayed
    list or the list of suspended tasks, and by its event item into the list of
    the queue or event group it waits for; an active timer into one of two
    timer lists.  tasks.c moves tasks between these lists and keeps a bitmap
    of the ready priorities.  queue.c, event_groups.c and stream_buffer.c hold
    data and use tasks.c to block and to wake tasks; semaphores and mutexes
    are queues; timers.c is a task that reads commands from a queue.  heap_4.c
    gives all of them their memory.  The port's trap handler (portASM.S) calls
    the scheduler at every tick and yield and switches the processor to the
    task that tasks.c has selected.

    ** How it is modelled

    A function is a computation [M S A] of the state-and-fault monad below: it
    returns a value and a new state, or faults where the C program would follow
    a bad pointer, copy outside a buffer, or fail to leave a loop within the
    bound the model gives it.  A function that gives up the processor or
    re-enables interrupts half-way is a [prog]: a sequence of blocks, each of
    which runs uninterrupted.  Blocking functions loop; [*_iter] is one round
    and [iterate n] allows [n] rounds: a theorem about a call that does not
    wait shows that its first round returns, for every [n] from 1.  Integers
    are in [Z] with the wrap-around of their width written out.

    - [Prelude], [Simulation], [History]: the monad and its rules, simulation
      between two runs of one program, histories of calls against a
      specification.
    - [ListC] is list.c and the macros of list.h on a heap of doubly linked
      items.  [ListSpec] gives the lists as sequences, the interface [ListOps]
      with one instance for each view, and the relation between them;
      [ListRefine] proves that list.c refines the sequences, [ListObs] and
      [ListProps] what that means for clients.
    - [Heap4] is heap_4.c on block headers in memory; [Heap4Spec] the heap as
      a tiling of free and allocated ranges, and the refinement; [Heap4Props]
      what clients see.
    - [Kernel] is the state of the kernel: [Vars] holds the file-scope
      variables of all modules and the objects by address.  [Tasks],
      [TaskApi], [TaskEvents] and [TaskInfo] are tasks.c, [Queue] is queue.c (and the
      macros of semphr.h), [EventGroups] event_groups.c, [Bytes] and
      [StreamBuffers] stream_buffer.c, [Timers] timers.c and timers.h.  They are
      written against [ListOps]; [KernelRefine] and [DriversRefine] prove
      that each of them does the same on the pointers of list.c as on
      sequences.  The theorems are proved on sequences and stated of the
      pointers ([on_code] in [SchedTheorems]).
    - [KernelInv] is the invariant of the scheduler's data, [Frames] what the
      operations leave alone, [KernelSteps] the rules for the elementary
      steps; [SchedProps], [ResumeProps], [SuspendProps], [BlockProps],
      [PriorityProps], [EventProps], [EventGroupProps] and [TimerProps] say what
      the operations do, [QueueData] and [StreamData] the data of queues and
      stream buffers; the [*Theorems] files state the results.
      [WaitTheorems], [HandoverTheorems] and [MutexTheorems] are about calls
      that wait, [WindowTheorems] about interrupts between their blocks
      ([Interrupts]), [NotifyProps], [ControlProps] and [NotifyTheorems] about
      notifications, suspension and resumption, and [TaskInfoTheorems] is about
      what the kernel reports of itself.  [System] puts ticks, interrupt
      handlers and the calls of the tasks together to a transition system,
      [SystemTasks] has its part on the control of tasks, [SystemTheorems] and
      [SleepProps] what holds of all its runs.  [KernelDemo] boots concrete kernels with the kernel's own functions; the
      instances of the theorems are at those states.
    - [HeapCalls] has the calls about the scheduler that pvPortMalloc makes
      around its work, [HeapCallTheorems] what they are good for when ticks come
      in between.  [Blocks] is what the specifications of the allocators share.
      [Heap1] and [Heap1Props] are heap_1.c and its results; [Heap2] and [Heap5]
      are heap_2.c and heap_5.c, [Heap2Spec] and [Heap5Spec] their
      specifications, [Heap2Props] and [Heap5Props] their results.  [Heap3] is
      heap_3.c.
    - [Riscv] is the processor: one RV32 hart in machine mode, its registers,
      memory and clock.  [Port] is portASM.S instruction by instruction, and
      port.c, on that processor beside the kernel.  [PortSpec] says what the
      port is for, a processor for each task; [PortProps], [PortTraps] and
      [PortStart] prove it of the context switch, of the whole handler and of
      the start, [PortTheorems] states the results, with instances on the board
      of [PortDemo].

    ** What is shown

    - list.c refines sequences: order of vListInsert, round trips, fair turns
      of the cursor.
    - The port: a simulation by a machine in which each task has its own
      processor; an interrupted task goes on with the registers it had and
      where it was; a new task starts at its entry; the start of the scheduler
      enters the first task; the tick comes at exact times; and, with the
      scheduler, every tick and yield leaves the processor to a most urgent
      ready task.
    - heap_1.c, heap_2.c and heap_5.c: disjoint, aligned memory of the size
      asked for, and an exact account of what is free, for every sequence of
      calls; heap_2.c takes the best fit and never joins blocks;
      heap_5.c makes one heap of its regions, takes the first fit, keeps each
      block within a region and joins free blocks, but counts the ends of
      regions among them.
    - pvPortMalloc, whichever allocator works in it: ticks that come meanwhile
      are made up for, and a most urgent task runs when it returns.
    - heap_4.c: first fit, alignment and disjointness of live blocks,
      coalescing, the round trip of malloc and free, safety of every sequence
      of calls, the reported statistics, and the fault of
      vPortGetHeapStats when no block is free.
    - Scheduling: the selected task is a most urgent one, in turn; a tick wakes
      exactly the tasks that are due, across the wrap of the tick count; a
      delay of [d] ticks ends after exactly [d]; xTaskResumeAll makes up for
      what happened while the scheduler was suspended; priorities can be set,
      inherited and given back.  After a time-out on a mutex the bitmap can
      keep a stale bit, with which the kernel goes on to read the owner of an
      empty list.
    - Time: time-outs and periodic wake times agree with time that does not
      wrap.
    - Queues are bounded FIFOs, semaphores bounded counters, stream buffers
      FIFOs of bytes and message buffers FIFOs of messages, for every
      sequence of calls that do not wait; a send and a receive wake the first
      waiting task and give way to it if it is more urgent.
    - Waiting: a receive from an empty queue blocks the caller and lets the
      next task run, the task that sends hands its item over to it, and
      without a sender the receive comes back empty-handed when its time is
      over.  An item that an interrupt adds at any moment while a receiver is
      about to sleep, its queue locked or not, still reaches it.  A mutex goes from its holder to the task that waits for it, whose
      priority the holder has in the meantime.
    - Notifications: a task that waits for one runs at once when it is sent and
      receives its value, and without one after exactly the ticks it asked
      for.  A suspended task does not run until it is resumed; vTaskResume also
      ends the wait of a task that only waits for a notification without a
      time-out.
    - The system: in every state that ticks, interrupt handlers, delays,
      priority changes, notifications, suspension, resumption and waiting
      rounds can reach from a checked one, the data are well formed, a
      most urgent ready task runs and no call faults.
    - uxTaskGetSystemState lists every task exactly once, with the right
      state, except that it disagrees with eTaskGetState on a task that waits
      for a notification without a time-out.
    - Event groups wake exactly the tasks whose condition, any or all of the
      bits they named, holds, and clear exactly the bits these asked to clear.
    - Timers are armed by true time although counts wrap, catch up one call
      per missed period, all expire in order when the count wraps, and a start
      command travels through the timer queue.

    ** Bounds

    A loop over a list has the length of the list as its bound
    ([wake_loop], [set_bits_loop], [release_loop], [expire_all_loop]): each
    round takes one item out or steps over one, and the theorems show that the
    loop reaches its exit.  [prvReloadTimer] is given more rounds than the
    timer has missed periods.  vListInsert walks at most the whole list; the
    walks of the allocators at most the number of headers.

    ** Hypotheses

    Theorems about a call assume a state in which it can be made: the
    invariant ([kinv], [kpend]), the scheduler running, a task to run.  The
    invariant is decidable on concrete states ([kinv_check]), holds of the
    booted kernels, and is a conclusion of every theorem that changes the state.
    The code behind timer callbacks is a parameter ([application]); theorems
    that let it run assume that it does the same on both kinds of lists and
    leaves the timers alone, and their instances use a callback that satisfies
    this.  The regions for heap_5.c are in order and apart, each with room for
    a block and the header at its end; malloc and free of the C library, which
    heap_3.c calls, are parameters.  The contents of stack memory and the hooks
    of tasks are parameters of [TaskInfo].

    The results on the port assume a layout of the memory ([layout]: stacks,
    TCBs, the port's variables and the devices do not overlap), tasks that keep
    to their own stack and leave room on it for a frame ([own_work]), the
    calling convention for compiled C functions ([abi]), which leave in the
    other registers what they like, and kernel functions that do not fault;
    for ticks and yields the last is proved ([scheduling_traps_run_most_urgent]).
    The clock is read through a function of the number of reads; the loop that
    reads its two halves is given one round more than the high half changes.
    At the start of the scheduler no interrupt is taken between the write of
    mstatus and the ret that enters the first task.

    ** Not modelled

    The functions that format text, co-routines, queue sets, static allocation,
    tickless idle, the yield of the idle task and the assertions (configured
    out), the check for stack overflow, which reads the bytes of stacks, the
    other ports, and the demos with their start-up code.  On the port: user mode, the
    deletion of tasks (their stacks are not used again) and the loops that are
    never left (is_exception, as_yet_unhandled), which fault.  RT-Thread,
    uC/OS-III and Zephyr are independent systems, FreeRTOS-old and FreeRTOS-Plus
    copies and add-ons; none of them is part of this kernel.

    ** Still to be proved

    The definitions cover more than the theorems.  The transition system of
    [System] has no mutexes, whose time-out can break the ready lists (see
    above), and no deletion of tasks, and runs a call without preemption between
    its blocks.  Of the interrupts that come between the blocks of a call that
    waits, one that sends to the queue of a receiver is treated
    ([WindowTheorems]); that the other calls keep their wake-ups too is not
    proved.  xTaskAbortDelay is one block up to the resumption of the scheduler,
    although its critical section on the event list is nested in it.  The
    deletion of tasks has definitions and refinement lemmas but no functional
    theorem. *)

From Stdlib Require Export ZArith Lia.
From stdpp Require Export base numbers option gmap list.

#[global] Open Scope Z_scope.

(** ** Fixed-width integers

    [TickType_t], [UBaseType_t], [size_t] and pointers are 32 bits wide in the
    RV32 port.  They are kept as integers in [0, 2^32) and every operation of
    the source that can wrap is written with [u32]. *)

Definition u32_modulus : Z := 4294967296.
Definition u32 (z : Z) : Z := z mod u32_modulus.
Definition u32_range (z : Z) : Prop := 0 <= z < u32_modulus.

Declare Scope u32_scope.
Delimit Scope u32_scope with u32.
Notation "x +u y" := (u32 (x + y)) (at level 50, left associativity) : u32_scope.
Notation "x -u y" := (u32 (x - y)) (at level 50, left associativity) : u32_scope.
#[global] Open Scope u32_scope.

(** A signed 8-bit value, as [int8_t] stores it. *)
Definition i8 (z : Z) : Z := (z + 128) mod 256 - 128.

Lemma u32_spec z : u32_range (u32 z).
Proof. apply Z.mod_pos_bound. done. Qed.

Lemma u32_small z : u32_range z -> u32 z = z.
Proof. apply Z.mod_small. Qed.

Lemma u32_wrap_once z : u32_modulus <= z < 2 * u32_modulus -> u32 z = z - u32_modulus.
Proof.
  unfold u32, u32_modulus. intros.
  rewrite <- (Z_mod_plus_full z (-1)). apply Z.mod_small. lia.
Qed.

Lemma u32_wrap_neg z : - u32_modulus <= z < 0 -> u32 z = z + u32_modulus.
Proof.
  unfold u32, u32_modulus. intros.
  rewrite <- (Z_mod_plus_full z 1). apply Z.mod_small. lia.
Qed.

Lemma u32_add_add x a b : x +u a +u b = x +u (a + b).
Proof. unfold u32. rewrite Zplus_mod_idemp_l. f_equal. lia. Qed.

Lemma u32_add_inj x a b : u32_range x -> u32_range a -> u32_range b -> x +u a = x +u b -> a = b.
Proof.
  unfold u32_range. intros Hx Ha Hb. destruct (decide (x + a < u32_modulus)), (decide (x + b < u32_modulus));
    rewrite ?(u32_small (x + a)), ?(u32_small (x + b)), ?(u32_wrap_once (x + a)), ?(u32_wrap_once (x + b))
      by (unfold u32_range; lia); lia.
Qed.

Lemma i8_small z : -128 <= z < 128 -> i8 z = z.
Proof. intros. unfold i8. rewrite Z.mod_small; lia. Qed.

Lemma below_pow2 b n : 0 <= n -> 0 <= b -> (forall q, n <= q -> Z.testbit b q = false) -> b < 2 ^ n.
Proof.
  intros Hn Hb H. destruct (decide (b = 0)) as [->|Hne]; [apply Z.pow_pos_nonneg; lia|].
  apply Z.log2_lt_pow2; [lia|]. destruct (Z_lt_le_dec (Z.log2 b) n) as [|Hge]; [done|].
  pose proof (H _ Hge) as Hf. rewrite Z.bit_log2 in Hf; [done|lia].
Qed.

Lemma testbit_high b n q : 0 <= b < 2 ^ n -> n <= q -> Z.testbit b q = false.
Proof.
  intros Hb Hq. destruct (decide (b = 0)) as [->|Hne]; [apply Z.bits_0|].
  apply Z.bits_above_log2; [lia|]. assert (Z.log2 b < n) by (apply Z.log2_lt_pow2; lia). lia.
Qed.

Lemma lor_range a b : u32_range a -> u32_range b -> u32_range (Z.lor a b).
Proof.
  intros Ha Hb. split; [apply Z.lor_nonneg; split; [apply Ha|apply Hb]|].
  apply (below_pow2 _ 32); [done|apply Z.lor_nonneg; split; [apply Ha|apply Hb]|]. intros n Hn.
  rewrite Z.lor_spec. by rewrite (testbit_high a 32), (testbit_high b 32) by (done || apply Ha || apply Hb).
Qed.

Lemma land_range a b : u32_range a -> u32_range (Z.land a b).
Proof.
  intros Ha. assert (0 <= Z.land a b) by (apply Z.land_nonneg; left; apply Ha). split; [done|].
  apply (below_pow2 _ 32); [done|done|]. intros n Hn. rewrite Z.land_spec. by rewrite (testbit_high a 32) by (done || apply Ha).
Qed.

Lemma ldiff_range a b : u32_range a -> u32_range (Z.ldiff a b).
Proof.
  intros Ha. assert (Hn : 0 <= Z.ldiff a b) by (apply Z.ldiff_nonneg; left; apply Ha). split; [done|].
  apply (below_pow2 _ 32); [done|done|]. intros n Hn'. rewrite Z.ldiff_spec. by rewrite (testbit_high a 32) by (done || apply Ha).
Qed.

(** Linear arithmetic with the ranges spelled out. *)
Ltac u32_lia := unfold u32_range, u32_modulus in *; lia.

(** ** The state and fault monad

    [M S A] is a computation over a state [S] that returns an [A], or faults.
    A fault ([None]) stands for undefined behaviour of the C program: a null
    or dangling pointer is followed, a copy leaves its buffer, or a loop does
    not reach its exit within the bound the model gives it. *)

Definition M (S A : Type) : Type := S -> option (A * S).

#[export] Instance M_ret S : MRet (M S) := fun A a s => Some (a, s).
#[export] Instance M_bind S : MBind (M S) := fun A B f m s =>
  match m s with
  | Some (a, s') => f a s'
  | None => None
  end.

Section Monad.
Context {S : Type}.

Definition fault {A} : M S A := fun _ => None.
Definition get : M S S := fun s => Some (s, s).
Definition gets {A} (f : S -> A) : M S A := fun s => Some (f s, s).
Definition modify (f : S -> S) : M S unit := fun s => Some (tt, f s).
Definition lift_opt {A} (o : option A) : M S A := fun s =>
  match o with Some a => Some (a, s) | None => None end.
Definition when (b : bool) (m : M S unit) : M S unit := if b then m else mret tt.

(** [wp m Q s]: started in [s], [m] does not fault and ends with a result and
    a state that satisfy [Q]. *)
Definition wp {A} (m : M S A) (Q : A -> S -> Prop) (s : S) : Prop :=
  exists a s', m s = Some (a, s') /\ Q a s'.

Lemma wp_intro {A} (m : M S A) Q s a s' : m s = Some (a, s') -> Q a s' -> wp m Q s.
Proof. intros ??. by exists a, s'. Qed.

Lemma wp_mono {A} (m : M S A) (P Q : A -> S -> Prop) s :
  wp m P s -> (forall a s', P a s' -> Q a s') -> wp m Q s.
Proof. intros (a & s' & Hm & HP) HPQ. exists a, s'. eauto. Qed.

Lemma wp_ret {A} (a : A) Q s : Q a s -> wp (mret a) Q s.
Proof. intros. by exists a, s. Qed.

Lemma wp_bind {A B} (m : M S A) (f : A -> M S B) Q s :
  wp m (fun a s' => wp (f a) Q s') s -> wp (m ≫= f) Q s.
Proof.
  intros (a & s' & Hm & b & s'' & Hf & HQ). exists b, s''. split; [|done].
  unfold mbind, M_bind. by rewrite Hm.
Qed.

Lemma wp_bind_inv {A B} (m : M S A) (f : A -> M S B) Q s :
  wp (m ≫= f) Q s -> wp m (fun a s' => wp (f a) Q s') s.
Proof.
  intros (b & s2 & E & HQ). unfold mbind, M_bind in E. destruct (m s) as [[a s1]|] eqn:Em; [|done].
  exists a, s1. split; [done|]. by exists b, s2.
Qed.

(** The first two steps of a sequence, taken together. *)
Lemma wp_bind2 {A B C} (m : M S A) (f : A -> M S B) (g : B -> M S C) Q s :
  wp (a ← m; f a) (fun b s' => wp (g b) Q s') s -> wp (a ← m; b ← f a; g b) Q s.
Proof.
  intros (b & s' & E & Hg). unfold mbind, M_bind in *. destruct (m s) as [[a s1]|] eqn:Em; [|done].
  destruct Hg as (c & s2 & Eg & HQ). exists c, s2. split; [|done]. unfold mbind, M_bind. by rewrite Em, E.
Qed.

Lemma wp_get Q s : Q s s -> wp get Q s.
Proof. intros. by exists s, s. Qed.

Lemma wp_gets {A} (f : S -> A) Q s : Q (f s) s -> wp (gets f) Q s.
Proof. intros. by exists (f s), s. Qed.

Lemma wp_modify f (Q : unit -> S -> Prop) s : Q tt (f s) -> wp (modify f) Q s.
Proof. intros. by exists tt, (f s). Qed.

Lemma wp_lift_opt {A} (o : option A) a Q s : o = Some a -> Q a s -> wp (lift_opt o) Q s.
Proof. intros -> ?. by exists a, s. Qed.

Lemma wp_when (b : bool) m (Q : unit -> S -> Prop) s :
  (b = true -> wp m Q s) -> (b = false -> Q tt s) -> wp (when b m) Q s.
Proof. destruct b; intros H1 H2; simpl; [by apply H1|]. by apply wp_ret, H2. Qed.

Lemma wp_conj {A} (m : M S A) P Q s : wp m P s -> wp m Q s -> wp m (fun a s' => P a s' /\ Q a s') s.
Proof. intros (a & s1 & E & HP) (b & s2 & E2 & HQ). rewrite E in E2. simplify_eq. by exists b, s2. Qed.

Lemma wp_det {A} (m : M S A) Q s a s' : wp m Q s -> m s = Some (a, s') -> Q a s'.
Proof. intros (a0 & s0 & Hm & HQ) H. by simplify_eq. Qed.

(** Running the first part of a computation. *)
Lemma bind_run {A B} (m : M S A) (f : A -> M S B) s a s' :
  m s = Some (a, s') -> (m ≫= f) s = f a s'.
Proof. intros H. unfold mbind, M_bind. by rewrite H. Qed.

Lemma bind_fault {A B} (m : M S A) (f : A -> M S B) s : m s = None -> (m ≫= f) s = None.
Proof. intros H. unfold mbind, M_bind. by rewrite H. Qed.

Lemma bind_inv {A B} (m : M S A) (f : A -> M S B) s b s'' :
  (m ≫= f) s = Some (b, s'') -> exists a s', m s = Some (a, s') /\ f a s' = Some (b, s'').
Proof. unfold mbind, M_bind. destruct (m s) as [[a s']|]; [eauto|done]. Qed.

End Monad.

(** Computations on one of two components of the state. *)
Definition on_fst {S1 S2 A} (m : M S1 A) : M (S1 * S2) A := fun s =>
  match m s.1 with Some (a, s1) => Some (a, (s1, s.2)) | None => None end.
Definition on_snd {S1 S2 A} (m : M S2 A) : M (S1 * S2) A := fun s =>
  match m s.2 with Some (a, s2) => Some (a, (s.1, s2)) | None => None end.

Lemma wp_on_fst {S1 S2 A} (m : M S1 A) (Q : A -> S1 * S2 -> Prop) s :
  wp m (fun a s1 => Q a (s1, s.2)) s.1 -> wp (on_fst m) Q s.
Proof. intros (a & s1 & E & HQ). exists a, (s1, s.2). split; [|done]. unfold on_fst. by rewrite E. Qed.
Lemma wp_on_snd {S1 S2 A} (m : M S2 A) (Q : A -> S1 * S2 -> Prop) s :
  wp m (fun a s2 => Q a (s.1, s2)) s.2 -> wp (on_snd m) Q s.
Proof. intros (a & s2 & E & HQ). exists a, (s.1, s2). split; [|done]. unfold on_snd. by rewrite E. Qed.

(** ** Programs that can be preempted

    An API function whose body is not one critical section is a sequence of
    blocks, each of which runs without being interrupted; between two blocks
    interrupts and other tasks may run.  [prog S A] is such a sequence: the
    block [m] is followed by [k] applied to what [m] returned. *)

Inductive prog (S A : Type) : Type :=
  | Done (a : A)
  | Atomic (X : Type) (m : M S X) (k : X -> prog S A).
Arguments Done {S A}.
Arguments Atomic {S A X}.

Definition atomic {S A} (m : M S A) : prog S A := Atomic m Done.

Fixpoint prog_bind {S A B} (f : A -> prog S B) (p : prog S A) : prog S B :=
  match p with
  | Done a => f a
  | Atomic m k => Atomic m (fun x => prog_bind f (k x))
  end.

#[export] Instance prog_ret S : MRet (prog S) := fun A => Done.
#[export] Instance prog_mbind S : MBind (prog S) := fun A B => prog_bind.

(** The blocks run one after the other, with nothing in between. *)
Fixpoint run {S A} (p : prog S A) : M S A :=
  match p with
  | Done a => mret a
  | Atomic m k => x ← m; run (k x)
  end.

Lemma run_bind {S A B} (p : prog S A) (f : A -> prog S B) s :
  run (p ≫= f) s = (x ← run p; run (f x)) s.
Proof.
  revert s. induction p as [a|X m k IH]; intros s; [done|].
  unfold mbind, prog_mbind, M_bind in *. simpl. unfold mbind, M_bind.
  destruct (m s) as [[x s']|]; [|done]. apply IH.
Qed.

(** Rules for programs run without interruption. *)
Lemma wp_run_bind {S A B} (p : prog S A) (f : A -> prog S B) (Q : B -> S -> Prop) s :
  wp (run p) (fun a s' => wp (run (f a)) Q s') s -> wp (run (p ≫= f)) Q s.
Proof.
  intros (a & s1 & E & b & s2 & E2 & HQ). exists b, s2. split; [|done]. rewrite run_bind. unfold mbind, M_bind. by rewrite E.
Qed.
Lemma wp_run_atomic {S A} (m : M S A) (Q : A -> S -> Prop) s : wp m Q s -> wp (run (atomic m)) Q s.
Proof. intros (a & s1 & E & HQ). exists a, s1. split; [|done]. simpl. unfold mbind, M_bind. by rewrite E. Qed.
Lemma wp_run_ret {S A} (a : A) (Q : A -> S -> Prop) s : Q a s -> wp (run (mret a)) Q s.
Proof. intros HQ. by exists a, s. Qed.

(** [n] rounds at most of a loop whose body either goes round again with new
    locals or returns. *)
Fixpoint iterate {S L R} (n : nat) (body : L -> prog S (L + R)) (l : L) : prog S (L + R) :=
  match n with
  | O => mret (inl l)
  | S n' => r ← body l;
            match r with inl l' => iterate n' body l' | inr x => mret (inr x) end
  end.

Create HintDb kernel.
#[export] Hint Resolve u32_spec : kernel.
