(* ===== verification/Config.v ===== *)
(** * Build configuration and shared constants

    The kernel is modelled as the repository builds it for the demo named in
    freeRTOS/readme: Demo/RISC-V-Qemu-virt_GCC, a 32-bit RISC-V target.  This
    file holds the constants of its FreeRTOSConfig.h, of the port's
    portmacro.h, and the defaults that include/FreeRTOS.h and
    include/projdefs.h give to what the configuration leaves open. *)

From S2P Require Import Prelude.

(** FreeRTOSConfig.h *)
Definition configMAX_PRIORITIES : Z := 7.
Definition configTOTAL_HEAP_SIZE : Z := 1935000.
Definition configMAX_TASK_NAME_LEN : Z := 16.
Definition configTIMER_TASK_PRIORITY : Z := configMAX_PRIORITIES - 1.
Definition configTIMER_QUEUE_LENGTH : Z := 6.

(** portmacro.h, with __riscv_xlen = 32 *)
Definition portMAX_DELAY : Z := 4294967295.
Definition portBYTE_ALIGNMENT : Z := 16.
Definition portBYTE_ALIGNMENT_MASK : Z := 15.

(** projdefs.h *)
Definition pdFALSE : Z := 0.
Definition pdTRUE : Z := 1.
Definition pdPASS : Z := pdTRUE.
Definition pdFAIL : Z := pdFALSE.
Definition errQUEUE_EMPTY : Z := 0.
Definition errQUEUE_FULL : Z := 0.
Definition errCOULD_NOT_ALLOCATE_REQUIRED_MEMORY : Z := -1.

(** task.h and tasks.c *)
Definition tskIDLE_PRIORITY : Z := 0.
Definition taskEVENT_LIST_ITEM_VALUE_IN_USE : Z := 2147483648.
Definition taskNOT_WAITING_NOTIFICATION : Z := 0.
Definition taskWAITING_NOTIFICATION : Z := 1.
Definition taskNOTIFICATION_RECEIVED : Z := 2.
Definition taskSCHEDULER_SUSPENDED : Z := 0.
Definition taskSCHEDULER_NOT_STARTED : Z := 1.
Definition taskSCHEDULER_RUNNING : Z := 2.

(** The null pointer.  Kernel objects (TCBs, queues, timers, ...) are named by
    their non-null addresses. *)
Definition NULL : Z := 0.

Lemma portMAX_DELAY_range : u32_range portMAX_DELAY.
Proof. done. Qed.

Lemma u32_range_le_max z : u32_range z <-> 0 <= z <= portMAX_DELAY.
Proof. unfold u32_range, u32_modulus, portMAX_DELAY. lia. Qed.

#[export] Hint Resolve portMAX_DELAY_range : kernel.
