(* ===== verification/Simulation.v ===== *)
(** * Simulation

    [sim R m1 m2]: whatever [m2] does, [m1] does with the same result, and
    states related by [R] stay related.  [psim] is the same, block by block,
    for programs that can be preempted.  [solve_sim] walks through two
    instances of one definition. *)

From S2P Require Import Prelude.

(** [m1] simulates [m2] along [R]. *)
Definition sim {S1 S2 A} (R : S1 -> S2 -> Prop) (m1 : M S1 A) (m2 : M S2 A) : Prop :=
  forall s1 s2 a s2', R s1 s2 -> m2 s2 = Some (a, s2') ->
    exists s1', m1 s1 = Some (a, s1') /\ R s1' s2'.

Section Sim.
Context {S1 S2 : Type} (R : S1 -> S2 -> Prop).

Lemma sim_ret {A} (a : A) : sim R (mret a) (mret a).
Proof. intros s1 s2 b s2' HR [= <- <-]. by exists s1. Qed.

Lemma sim_bind {A B} (m1 : M S1 A) (m2 : M S2 A) (f1 : A -> M S1 B) (f2 : A -> M S2 B) :
  sim R m1 m2 -> (forall a, sim R (f1 a) (f2 a)) -> sim R (m1 ≫= f1) (m2 ≫= f2).
Proof.
  intros Hm Hf s1 s2 b s2' HR (a & s2'' & H2 & Hf2)%bind_inv.
  destruct (Hm _ _ _ _ HR H2) as (s1' & H1 & HR').
  destruct (Hf a _ _ _ _ HR' Hf2) as (s1'' & Hf1 & HR''). exists s1''. split; [|done].
  by rewrite (bind_run _ _ _ _ _ H1).
Qed.

Lemma sim_fault {A} (m1 : M S1 A) : sim R m1 fault.
Proof. intros s1 s2 a s2' _ [=]. Qed.

Lemma sim_lift_opt {A} (o : option A) : sim R (lift_opt o) (lift_opt o).
Proof. intros s1 s2 a s2' HR. destruct o; [|done]. intros [= <- <-]. by exists s1. Qed.

Lemma sim_when (b : bool) (m1 : M S1 unit) (m2 : M S2 unit) :
  sim R m1 m2 -> sim R (when b m1) (when b m2).
Proof. destruct b; [done|]. intros _. apply sim_ret. Qed.

Lemma sim_if {A} (b : bool) (m1 n1 : M S1 A) (m2 n2 : M S2 A) :
  sim R m1 m2 -> sim R n1 n2 -> sim R (if b then m1 else n1) (if b then m2 else n2).
Proof. by destruct b. Qed.

(** What holds of the abstract run holds of a run that simulates it. *)
Lemma wp_transfer {A} (m1 : M S1 A) (m2 : M S2 A) Q s1 s2 :
  sim R m1 m2 -> R s1 s2 -> wp m2 Q s2 -> wp m1 (fun a s1' => exists s2', R s1' s2' /\ Q a s2') s1.
Proof.
  intros Hsim HR (a & s2' & H2 & HQ). destruct (Hsim _ _ _ _ HR H2) as (s1' & H1 & HR').
  exists a, s1'. eauto.
Qed.

(** Programs simulate block by block. *)
Fixpoint psim {A} (p1 : prog S1 A) (p2 : prog S2 A) {struct p2} : Prop :=
  match p2 with
  | Done a => p1 = Done a
  | @Atomic _ _ X m2 k2 => exists m1 k1, p1 = @Atomic _ _ X m1 k1 /\ sim R m1 m2 /\
      forall x, psim (k1 x) (k2 x)
  end.

Lemma psim_ret {A} (a : A) : psim (mret a) (mret a).
Proof. done. Qed.

Lemma psim_atomic {A} (m1 : M S1 A) (m2 : M S2 A) : sim R m1 m2 -> psim (atomic m1) (atomic m2).
Proof. intros. exists m1, Done. done. Qed.

Lemma psim_bind {A B} (p1 : prog S1 A) (p2 : prog S2 A) (f1 : A -> prog S1 B) (f2 : A -> prog S2 B) :
  psim p1 p2 -> (forall a, psim (f1 a) (f2 a)) -> psim (p1 ≫= f1) (p2 ≫= f2).
Proof.
  revert p1. induction p2 as [a|X m2 k2 IH]; intros p1 Hp Hf.
  - simpl in Hp. subst p1. apply Hf.
  - destruct Hp as (m1 & k1 & -> & Hm & Hk). eexists m1, _. split; [done|]. split; [done|].
    intros x. by apply IH.
Qed.

Lemma psim_if {A} (b : bool) (m1 n1 : prog S1 A) (m2 n2 : prog S2 A) :
  psim m1 m2 -> psim n1 n2 -> psim (if b then m1 else n1) (if b then m2 else n2).
Proof. by destruct b. Qed.

Lemma psim_iterate {L X} n (b1 : L -> prog S1 (L + X)) (b2 : L -> prog S2 (L + X)) l :
  (forall l, psim (b1 l) (b2 l)) -> psim (iterate n b1 l) (iterate n b2 l).
Proof.
  intros Hb. revert l. induction n as [|n IH]; intros l; [apply psim_ret|].
  simpl. apply psim_bind; [apply Hb|]. intros [l'|x]; [apply IH|apply psim_ret].
Qed.

(** Run without interference, related programs end in related states. *)
Lemma psim_run {A} (p1 : prog S1 A) (p2 : prog S2 A) : psim p1 p2 -> sim R (run p1) (run p2).
Proof.
  revert p1. induction p2 as [a|X m2 k2 IH]; intros p1 Hp; simpl in Hp.
  - subst p1. apply sim_ret.
  - destruct Hp as (m1 & k1 & -> & Hm & Hk). simpl. apply sim_bind; [done|]. eauto.
Qed.

End Sim.

Create HintDb sim discriminated.
#[export] Hint Constants Opaque : sim.

(** Walk through the body of two instances of the same definition. *)
Ltac sim_step :=
  match goal with
  | |- sim _ (mbind _ _) _ => apply sim_bind; [|intros ?]
  | |- sim _ (mret _) _ => apply sim_ret
  | |- sim _ (lift_opt _) _ => apply sim_lift_opt
  | |- sim _ _ fault => apply sim_fault
  | |- sim _ (when _ _) _ => apply sim_when
  | |- psim _ (mbind _ _) _ => apply psim_bind; [|intros ?]
  | |- psim _ (mret _) _ => apply psim_ret
  | |- psim _ (atomic _) _ => apply psim_atomic
  | |- psim _ (iterate _ _ _) _ => apply psim_iterate; intros ?
  | |- sim _ ((if ?b then _ else _) _) _ => destruct b
  | |- sim _ (if ?b then _ else _) _ => destruct b
  | |- psim _ (if ?b then _ else _) _ => destruct b
  | |- sim _ (match ?b with _ => _ end) _ => destruct b
  | |- psim _ (match ?b with _ => _ end) _ => destruct b
  end.
Ltac solve_sim := repeat (sim_step || (progress cbv zeta) || solve [eauto with sim]); eauto with sim.
