(* ===== verification/History.v ===== *)
(** * Histories of calls

    A component promises an abstract behaviour if every finite sequence of
    calls returns what the specification returns and ends in a state that
    represents the specification's.  One step per operation is enough. *)

From S2P Require Import Prelude Simulation.

Section History.
Context {K S Op Res : Type}.
Variable call : Op -> M K Res.
Variable spec : S -> Op -> S * Res.

Fixpoint calls (ops : list Op) : M K (list Res) :=
  match ops with
  | [] => mret []
  | op :: ops' => r ← call op; rs ← calls ops'; mret (r :: rs)
  end.

Fixpoint spec_calls (s : S) (ops : list Op) : S * list Res :=
  match ops with
  | [] => (s, [])
  | op :: ops' => let '(s1, r) := spec s op in
                  let '(s2, rs) := spec_calls s1 ops' in (s2, r :: rs)
  end.

(** [I k s]: the state [k] represents [s]; [P]: what callers must respect. *)
Lemma calls_refine (I : K -> S -> Prop) (P : Op -> Prop) :
  (forall k s op, I k s -> P op -> wp (call op) (fun r k' => r = (spec s op).2 /\ I k' (spec s op).1) k) ->
  forall ops k s, I k s -> Forall P ops ->
    wp (calls ops) (fun rs k' => rs = (spec_calls s ops).2 /\ I k' (spec_calls s ops).1) k.
Proof.
  intros Hstep ops. induction ops as [|op ops IH]; intros k s HI HP; [by apply wp_ret|].
  apply Forall_cons in HP as [Hop Hops]. apply wp_bind. eapply wp_mono; [by apply Hstep|].
  intros r k' [-> HI']. apply wp_bind. eapply wp_mono; [by apply IH|]. intros rs k'' [-> HI''].
  apply wp_ret. simpl. destruct (spec s op) as [s1 r1]. simpl in *. by destruct (spec_calls s1 ops).
Qed.

End History.

(** Calls that simulate one another do so in sequence. *)
Lemma sim_calls {K1 K2 Op Res} (R : K1 -> K2 -> Prop) (c1 : Op -> M K1 Res) (c2 : Op -> M K2 Res) ops :
  (forall op, sim R (c1 op) (c2 op)) -> sim R (calls c1 ops) (calls c2 ops).
Proof.
  intros Hc. induction ops as [|op ops IH]; simpl; [apply sim_ret|].
  apply sim_bind; [apply Hc|]. intros r. apply sim_bind; [done|]. intros rs. apply sim_ret.
Qed.
