(* ===== verification/ListC.v ===== *)
(** * list.c and list.h: the kernel's linked lists, at pointer level

    A list is a ring of doubly linked items closed by the end marker
    [xListEnd] embedded in the list object.  The memory that holds list items
    and list objects is a pair of finite maps; a pointer to an item or to an
    end marker is a [node].  Every read or write through a pointer that is
    not in memory faults.  The operations below follow list.c assignment by
    assignment; the macros of list.h that the kernel uses are here too. *)

From S2P Require Import Prelude Config.

Section ListC.
Context {item list_id : Type}.
Context `{!EqDecision item, !Countable item, !EqDecision list_id, !Countable list_id}.

(** A pointer to a list item: either a real item, or the address of the end
    marker of a list (cast to [ListItem_t *] by the source). *)
Inductive node := NItem (i : item) | NEnd (l : list_id).

#[export] Instance node_eq_dec : EqDecision node.
Proof. solve_decision. Defined.

Record ListItem_t := mkListItem {
  xItemValue : Z;
  pxNext : node;
  pxPrevious : node;
  pvOwner : Z;
  pxContainer : option list_id
}.

Record MiniListItem_t := mkMiniListItem {
  xEndItemValue : Z;
  pxEndNext : node;
  pxEndPrevious : node
}.

Record List_t := mkList {
  uxNumberOfItems : Z;
  pxIndex : node;
  xListEnd : MiniListItem_t
}.

(** The memory that holds the items and the lists. *)
Record lheap := mkLheap {
  h_items : gmap item ListItem_t;
  h_lists : gmap list_id List_t
}.

Definition upd_item (f : ListItem_t -> ListItem_t) (i : item) (h : lheap) : lheap :=
  mkLheap (alter f i (h_items h)) (h_lists h).
Definition upd_list (f : List_t -> List_t) (l : list_id) (h : lheap) : lheap :=
  mkLheap (h_items h) (alter f l (h_lists h)).

Definition upd_next (n m : node) : lheap -> lheap :=
  match n with
  | NItem i => upd_item (fun x =>
      mkListItem (xItemValue x) m (pxPrevious x) (pvOwner x) (pxContainer x)) i
  | NEnd l => upd_list (fun x => mkList (uxNumberOfItems x) (pxIndex x)
      (mkMiniListItem (xEndItemValue (xListEnd x)) m (pxEndPrevious (xListEnd x)))) l
  end.
Definition upd_prev (n m : node) : lheap -> lheap :=
  match n with
  | NItem i => upd_item (fun x =>
      mkListItem (xItemValue x) (pxNext x) m (pvOwner x) (pxContainer x)) i
  | NEnd l => upd_list (fun x => mkList (uxNumberOfItems x) (pxIndex x)
      (mkMiniListItem (xEndItemValue (xListEnd x)) (pxEndNext (xListEnd x)) m)) l
  end.
Definition upd_container (i : item) (c : option list_id) : lheap -> lheap :=
  upd_item (fun x => mkListItem (xItemValue x) (pxNext x) (pxPrevious x) (pvOwner x) c) i.
Definition upd_value (i : item) (v : Z) : lheap -> lheap :=
  upd_item (fun x => mkListItem v (pxNext x) (pxPrevious x) (pvOwner x) (pxContainer x)) i.
Definition upd_owner (i : item) (o : Z) : lheap -> lheap :=
  upd_item (fun x => mkListItem (xItemValue x) (pxNext x) (pxPrevious x) o (pxContainer x)) i.
Definition upd_count (l : list_id) (c : Z) : lheap -> lheap :=
  upd_list (fun x => mkList c (pxIndex x) (xListEnd x)) l.
Definition upd_index (l : list_id) (n : node) : lheap -> lheap :=
  upd_list (fun x => mkList (uxNumberOfItems x) n (xListEnd x)) l.

(** Reads through a pointer. *)
Definition rd_next (h : lheap) (n : node) : option node :=
  match n with
  | NItem i => pxNext <$> h_items h !! i
  | NEnd l => (fun x => pxEndNext (xListEnd x)) <$> h_lists h !! l
  end.
Definition rd_prev (h : lheap) (n : node) : option node :=
  match n with
  | NItem i => pxPrevious <$> h_items h !! i
  | NEnd l => (fun x => pxEndPrevious (xListEnd x)) <$> h_lists h !! l
  end.
Definition rd_value (h : lheap) (n : node) : option Z :=
  match n with
  | NItem i => xItemValue <$> h_items h !! i
  | NEnd l => (fun x => xEndItemValue (xListEnd x)) <$> h_lists h !! l
  end.
Definition rd_item (h : lheap) (i : item) : option (Z * Z * option list_id) :=
  (fun x => (xItemValue x, pvOwner x, pxContainer x)) <$> h_items h !! i.
Definition rd_list (h : lheap) (l : list_id) : option (Z * node) :=
  (fun x => (uxNumberOfItems x, pxIndex x)) <$> h_lists h !! l.

Definition read {A} (f : lheap -> option A) : M lheap A := fun h =>
  match f h with Some a => Some (a, h) | None => None end.

Definition get_next (n : node) : M lheap node := read (fun h => rd_next h n).
Definition get_prev (n : node) : M lheap node := read (fun h => rd_prev h n).
Definition get_value (n : node) : M lheap Z := read (fun h => rd_value h n).
Definition set_next (n m : node) : M lheap unit :=
  (_ ← get_next n; modify (upd_next n m)).
Definition set_prev (n m : node) : M lheap unit :=
  (_ ← get_prev n; modify (upd_prev n m)).
Definition get_container (i : item) : M lheap (option list_id) :=
  read (fun h => snd <$> rd_item h i).
Definition get_count (l : list_id) : M lheap Z := read (fun h => fst <$> rd_list h l).
Definition get_index (l : list_id) : M lheap node := read (fun h => snd <$> rd_list h l).
Definition set_container (i : item) (c : option list_id) : M lheap unit :=
  (_ ← get_container i; modify (upd_container i c)).
Definition set_count (l : list_id) (c : Z) : M lheap unit :=
  (_ ← get_count l; modify (upd_count l c)).
Definition set_index (l : list_id) (n : node) : M lheap unit :=
  (_ ← get_index l; modify (upd_index l n)).

(** ** The operations of list.c *)

Definition vListInitialise (l : list_id) : M lheap unit :=
  modify (fun h => mkLheap (h_items h)
    (<[l := mkList 0 (NEnd l) (mkMiniListItem portMAX_DELAY (NEnd l) (NEnd l))]> (h_lists h))).

Definition vListInitialiseItem (i : item) : M lheap unit := set_container i None.

Definition vListInsertEnd (l : list_id) (pxNewListItem : item) : M lheap unit :=
  pxIndex ← get_index l;
  set_next (NItem pxNewListItem) pxIndex;;
  p ← get_prev pxIndex;
  set_prev (NItem pxNewListItem) p;;
  p ← get_prev pxIndex;
  set_next p (NItem pxNewListItem);;
  set_prev pxIndex (NItem pxNewListItem);;
  set_container pxNewListItem (Some l);;
  c ← get_count l;
  set_count l (c +u 1).

(** The [for] loop of vListInsert: advance [pxIterator] while the next item's
    value is not above the value to insert.  [fuel] bounds the iterations. *)
Fixpoint vListInsert_loop (fuel : nat) (xValueOfInsertion : Z) (pxIterator : node)
  : M lheap node :=
  n ← get_next pxIterator;
  v ← get_value n;
  if v <=? xValueOfInsertion then
    match fuel with
    | O => fault
    | S fuel' => vListInsert_loop fuel' xValueOfInsertion n
    end
  else mret pxIterator.

Definition vListInsert (l : list_id) (pxNewListItem : item) : M lheap unit :=
  xValueOfInsertion ← get_value (NItem pxNewListItem);
  pxIterator ←
    (if xValueOfInsertion =? portMAX_DELAY then get_prev (NEnd l)
     else fuel ← gets (fun h => size (h_items h));
          vListInsert_loop fuel xValueOfInsertion (NEnd l));
  n ← get_next pxIterator;
  set_next (NItem pxNewListItem) n;;
  n ← get_next (NItem pxNewListItem);
  set_prev n (NItem pxNewListItem);;
  set_prev (NItem pxNewListItem) pxIterator;;
  set_next pxIterator (NItem pxNewListItem);;
  set_container pxNewListItem (Some l);;
  c ← get_count l;
  set_count l (c +u 1).

Definition uxListRemove (pxItemToRemove : item) : M lheap Z :=
  c ← get_container pxItemToRemove;
  pxList ← lift_opt c;
  n ← get_next (NItem pxItemToRemove);
  p ← get_prev (NItem pxItemToRemove);
  set_prev n p;;
  p ← get_prev (NItem pxItemToRemove);
  n ← get_next (NItem pxItemToRemove);
  set_next p n;;
  pxIndex ← get_index pxList;
  (if decide (pxIndex = NItem pxItemToRemove) then
     p ← get_prev (NItem pxItemToRemove); set_index pxList p
   else mret tt);;
  set_container pxItemToRemove None;;
  c ← get_count pxList;
  set_count pxList (c -u 1);;
  get_count pxList.

(** ** The access macros of list.h *)

Definition listSET_LIST_ITEM_OWNER (i : item) (o : Z) : M lheap unit :=
  _ ← get_value (NItem i); modify (upd_owner i o).
Definition listGET_LIST_ITEM_OWNER (i : item) : M lheap Z :=
  read (fun h => (fun x => snd (fst x)) <$> rd_item h i).
Definition listSET_LIST_ITEM_VALUE (i : item) (v : Z) : M lheap unit :=
  _ ← get_value (NItem i); modify (upd_value i v).
Definition listGET_LIST_ITEM_VALUE (i : item) : M lheap Z := get_value (NItem i).
Definition listGET_ITEM_VALUE_OF_HEAD_ENTRY (l : list_id) : M lheap Z :=
  n ← get_next (NEnd l); get_value n.
Definition listGET_HEAD_ENTRY (l : list_id) : M lheap node := get_next (NEnd l).
Definition listGET_NEXT (n : node) : M lheap node := get_next n.
Definition listCURRENT_LIST_LENGTH (l : list_id) : M lheap Z := get_count l.
Definition listLIST_ITEM_CONTAINER (i : item) : M lheap (option list_id) := get_container i.

(** An end marker is a [MiniListItem_t]: it has no owner field, so reading the
    owner through a pointer to one is undefined. *)
Definition node_owner (n : node) : M lheap Z :=
  match n with
  | NItem i => listGET_LIST_ITEM_OWNER i
  | NEnd _ => fault
  end.

Definition listGET_OWNER_OF_HEAD_ENTRY (l : list_id) : M lheap Z :=
  n ← get_next (NEnd l); node_owner n.

Definition listGET_OWNER_OF_NEXT_ENTRY (l : list_id) : M lheap Z :=
  i ← get_index l;
  n ← get_next i;
  set_index l n;;
  i ← get_index l;
  (if decide (i = NEnd l) then
     n ← get_next i; set_index l n
   else mret tt);;
  i ← get_index l;
  node_owner i.

(** [listREMOVE_ITEM] and [listINSERT_END] are the bodies of [uxListRemove] and
    [vListInsertEnd] as macros; the first one yields no value. *)
Definition listREMOVE_ITEM (pxItemToRemove : item) : M lheap unit :=
  c ← get_container pxItemToRemove;
  pxList ← lift_opt c;
  n ← get_next (NItem pxItemToRemove);
  p ← get_prev (NItem pxItemToRemove);
  set_prev n p;;
  p ← get_prev (NItem pxItemToRemove);
  n ← get_next (NItem pxItemToRemove);
  set_next p n;;
  pxIndex ← get_index pxList;
  (if decide (pxIndex = NItem pxItemToRemove) then
     p ← get_prev (NItem pxItemToRemove); set_index pxList p
   else mret tt);;
  set_container pxItemToRemove None;;
  c ← get_count pxList;
  set_count pxList (c -u 1).

Definition listINSERT_END (l : list_id) (pxNewListItem : item) : M lheap unit :=
  pxIndex ← get_index l;
  set_next (NItem pxNewListItem) pxIndex;;
  p ← get_prev pxIndex;
  set_prev (NItem pxNewListItem) p;;
  p ← get_prev pxIndex;
  set_next p (NItem pxNewListItem);;
  set_prev pxIndex (NItem pxNewListItem);;
  set_container pxNewListItem (Some l);;
  c ← get_count l;
  set_count l (c +u 1).

(** Memory for the list items embedded in a kernel object that the allocator
    has just handed out, and its return.  Fresh memory holds no list item
    yet, so its contents are never relied on before [vListInitialiseItem]. *)
Definition alloc_item (i : item) : M lheap unit :=
  modify (fun h => mkLheap (<[i := mkListItem 0 (NItem i) (NItem i) 0 None]> (h_items h))
                           (h_lists h)).
Definition free_item (i : item) : M lheap unit :=
  modify (fun h => mkLheap (delete i (h_items h)) (h_lists h)).
Definition free_list (l : list_id) : M lheap unit :=
  modify (fun h => mkLheap (h_items h) (delete l (h_lists h))).

(** ** The macros against the functions *)

Lemma listINSERT_END_eq l i : listINSERT_END l i = vListInsertEnd l i.
Proof. done. Qed.

Lemma get_count_after_set l c h h' : set_count l c h = Some (tt, h') -> exists n, get_count l h' = Some (n, h').
Proof.
  unfold set_count, get_count, read, rd_list, mbind, M_bind, modify, upd_count, upd_list.
  destruct (h_lists h !! l) as [x|] eqn:E; simpl; [|done]. intros [= <-]. simpl.
  rewrite lookup_alter_eq, E. simpl. eauto.
Qed.

Lemma listREMOVE_ITEM_eq i h : listREMOVE_ITEM i h = (_ ← uxListRemove i; mret tt) h.
Proof.
  unfold listREMOVE_ITEM, uxListRemove, mbind, M_bind.
  repeat (match goal with
    | |- context [match ?m ?s with Some _ => _ | None => _ end] =>
        lazymatch m with
        | set_count _ _ => fail
        | _ => destruct (m s) as [[? ?]|] eqn:?; [|done]
        end
    end).
  destruct (set_count _ _ _) as [[[] h']|] eqn:E; [|done].
  destruct (get_count_after_set _ _ _ _ E) as [cnt ->]. done.
Qed.

End ListC.

Arguments node : clear implicits.
Arguments ListItem_t : clear implicits.
Arguments MiniListItem_t : clear implicits.
Arguments List_t : clear implicits.
Arguments lheap item list_id {_ _ _ _}.
