(* ===== verification/ListSpec.v ===== *)
(** * Abstract lists, and the refinement of list.c to them

    What the rest of the kernel relies on: a list is a finite sequence of
    items with a cursor, an item carries a value, an owner and the list that
    contains it.  [aheap] is that view; its operations fault outside the
    contract of list.c (inserting an item that is already in a list, asking
    an empty list for its next owner, ...).  [rep] relates the pointer heap of
    [ListC] to it, and [ListOps] is the interface the kernel is written
    against, with one instance per level. *)

From S2P Require Import Prelude Simulation Config ListC.

(** ** Positions in a sequence *)

Section Positions.
Context {A : Type} `{!EqDecision A}.
Implicit Types (x y : A) (xs : list A).

(** Put [x] in front of [y]. *)
Fixpoint insert_before (y x : A) (xs : list A) : list A :=
  match xs with
  | [] => [x]
  | z :: zs => if decide (z = y) then x :: z :: zs else z :: insert_before y x zs
  end.

(** Put [x] after the longest prefix whose values do not exceed [v]. *)
Fixpoint insert_sorted (val : A -> Z) (v : Z) (x : A) (xs : list A) : list A :=
  match xs with
  | [] => [x]
  | z :: zs => if val z <=? v then z :: insert_sorted val v x zs else x :: z :: zs
  end.

(** The element in front of [x], [p] being in front of the whole sequence. *)
Fixpoint pred_of (p : option A) (x : A) (xs : list A) : option A :=
  match xs with
  | [] => None
  | z :: zs => if decide (z = x) then p else pred_of (Some z) x zs
  end.

(** The element after [x]. *)
Fixpoint succ_of (x : A) (xs : list A) : option A :=
  match xs with
  | [] => None
  | z :: zs => if decide (z = x) then head zs else succ_of x zs
  end.

(** The next position of a cursor that walks the ring and skips the end
    marker ([None]). *)
Definition cursor_next (c : option A) (xs : list A) : option A :=
  match c with
  | None => head xs
  | Some x => match succ_of x xs with Some y => Some y | None => head xs end
  end.

Definition drop_elem (x : A) (xs : list A) : list A := filter (fun z => z <> x) xs.

Lemma insert_before_split y x xs1 xs2 :
  y ∉ xs1 -> insert_before y x (xs1 ++ y :: xs2) = xs1 ++ x :: y :: xs2.
Proof.
  induction xs1 as [|z zs IH]; simpl; intros Hy.
  - by rewrite decide_True.
  - rewrite decide_False by set_solver. f_equal. apply IH. set_solver.
Qed.

Lemma insert_sorted_split val v x xs :
  exists xs1 xs2, xs = xs1 ++ xs2 /\ insert_sorted val v x xs = xs1 ++ x :: xs2 /\
    Forall (fun z => val z <= v) xs1 /\
    match xs2 with [] => True | z :: _ => v < val z end.
Proof.
  induction xs as [|z zs IH]; simpl.
  - exists [], []. by repeat constructor.
  - destruct (Z.leb_spec (val z) v).
    + destruct IH as (xs1 & xs2 & -> & -> & ? & ?).
      exists (z :: xs1), xs2. eauto.
    + exists [], (z :: zs). repeat split; auto.
Qed.

Lemma pred_of_split p x xs1 xs2 :
  x ∉ xs1 -> pred_of p x (xs1 ++ x :: xs2) = from_option Some p (last xs1).
Proof.
  revert p; induction xs1 as [|z zs IH]; simpl; intros p Hx.
  - by rewrite decide_True.
  - rewrite decide_False by set_solver. rewrite IH by set_solver.
    destruct zs as [|z' zs']; simpl; [done|].
    destruct (last (z' :: zs')) eqn:E; [done|]. by apply last_None in E.
Qed.

Lemma succ_of_split x xs1 xs2 : x ∉ xs1 -> succ_of x (xs1 ++ x :: xs2) = head xs2.
Proof.
  induction xs1 as [|z zs IH]; simpl; intros Hx.
  - by rewrite decide_True.
  - rewrite decide_False by set_solver. apply IH. set_solver.
Qed.

Lemma drop_elem_notin x xs : x ∉ xs -> drop_elem x xs = xs.
Proof.
  unfold drop_elem. induction xs as [|z zs IH]; intros Hx; [done|].
  rewrite filter_cons_True by set_solver. f_equal. apply IH. set_solver.
Qed.

Lemma drop_elem_split x xs1 xs2 :
  NoDup (xs1 ++ x :: xs2) -> drop_elem x (xs1 ++ x :: xs2) = xs1 ++ xs2.
Proof.
  intros (?&Hd&?%NoDup_cons)%NoDup_app. unfold drop_elem. rewrite filter_app.
  rewrite filter_cons_False by tauto.
  f_equal; apply drop_elem_notin; [|tauto]. intros Hx. apply (Hd x Hx). set_solver.
Qed.

Lemma elem_of_drop_elem x y xs : y ∈ drop_elem x xs <-> y ∈ xs /\ y <> x.
Proof. unfold drop_elem. rewrite list_elem_of_filter. tauto. Qed.

Lemma elem_of_insert_before y x z xs : z ∈ insert_before y x xs <-> z = x \/ z ∈ xs.
Proof.
  induction xs as [|w ws IH]; simpl; [set_solver|].
  case_decide; set_solver.
Qed.

Lemma elem_of_insert_sorted val v x z xs :
  z ∈ insert_sorted val v x xs <-> z = x \/ z ∈ xs.
Proof.
  destruct (insert_sorted_split val v x xs) as (xs1 & xs2 & -> & -> & _).
  set_solver.
Qed.

Lemma succ_of_elem x y xs : succ_of x xs = Some y -> y ∈ xs.
Proof.
  induction xs as [|z zs IH]; simpl; [done|]. case_decide.
  - destruct zs; intros; simplify_eq/=. set_solver.
  - intros ?%IH. set_solver.
Qed.

Lemma elem_of_cursor_next c y xs : cursor_next c xs = Some y -> y ∈ xs.
Proof.
  assert (head xs = Some y -> y ∈ xs) by (destruct xs; intros; simplify_eq/=; set_solver).
  destruct c as [x|]; simpl; [|done]. destruct (succ_of x xs) eqn:E; [|done].
  intros [= <-]. by eapply succ_of_elem.
Qed.

(** ** Successor and predecessor around a position

    The end marker is the position [None]: it comes before the first item and
    after the last one. *)

Definition ring_succ (o : option A) (xs : list A) : option A :=
  match o with None => head xs | Some x => succ_of x xs end.
Definition ring_pred (o : option A) (xs : list A) : option A :=
  match o with None => last xs | Some x => pred_of None x xs end.
Definition in_ring (o : option A) (xs : list A) : Prop :=
  match o with None => True | Some x => x ∈ xs end.

Lemma pred_of_at x xs1 xs2 : x ∉ xs1 -> pred_of None x (xs1 ++ x :: xs2) = last xs1.
Proof. intros. rewrite pred_of_split by done. by destruct (last xs1). Qed.

Lemma NoDup_notin_app x xs1 xs2 : NoDup (xs1 ++ x :: xs2) -> x ∉ xs1 /\ x ∉ xs2.
Proof.
  intros (?&Hd&?%NoDup_cons)%NoDup_app. split; [|tauto].
  intros Hx. apply (Hd x Hx). set_solver.
Qed.

Lemma ring_succ_last xs1 xs2 : NoDup (xs1 ++ xs2) -> ring_succ (last xs1) (xs1 ++ xs2) = head xs2.
Proof.
  intros Hnd. destruct xs1 as [|x xs1 _] using rev_ind; [done|].
  rewrite last_snoc. simpl. rewrite <- (assoc_L (++)) in *. simpl in *.
  apply succ_of_split. by apply NoDup_notin_app in Hnd as [??].
Qed.

Lemma ring_pred_head xs1 xs2 : NoDup (xs1 ++ xs2) -> ring_pred (head xs2) (xs1 ++ xs2) = last xs1.
Proof.
  intros Hnd. destruct xs2 as [|x xs2]; simpl; [by rewrite app_nil_r|].
  apply pred_of_at. by apply NoDup_notin_app in Hnd as [??].
Qed.

Lemma ring_succ_insert o x xs1 xs2 :
  NoDup (xs1 ++ x :: xs2) -> in_ring o (xs1 ++ xs2) ->
  ring_succ o (xs1 ++ x :: xs2) =
    if decide (o = last xs1) then Some x else ring_succ o (xs1 ++ xs2).
Proof.
  intros Hnd Ho. case_decide as E.
  { subst. by apply (ring_succ_last xs1 (x :: xs2)). }
  destruct o as [y|]; simpl in *.
  2:{ destruct xs1; [done|]. done. }
  apply elem_of_app in Ho as [(u & v & ->)%list_elem_of_split|(u & v & ->)%list_elem_of_split].
  - rewrite <- !(assoc_L (++)) in *. simpl in *. apply NoDup_notin_app in Hnd as [??].
    rewrite !succ_of_split by done. destruct v; [|done].
    by rewrite last_snoc in E.
  - rewrite app_comm_cons, !(assoc_L (++)) in *.
    apply NoDup_notin_app in Hnd as [Hy _].
    rewrite !succ_of_split; [done| |done]. set_solver.
Qed.

Lemma ring_pred_insert o x xs1 xs2 :
  NoDup (xs1 ++ x :: xs2) -> in_ring o (xs1 ++ xs2) ->
  ring_pred o (xs1 ++ x :: xs2) =
    if decide (o = head xs2) then Some x else ring_pred o (xs1 ++ xs2).
Proof.
  intros Hnd Ho. case_decide as E.
  { subst. rewrite (assoc_L (++) xs1 [x] xs2 : xs1 ++ x :: xs2 = _) in *.
    rewrite ring_pred_head by done. apply last_snoc. }
  destruct o as [y|]; simpl in *.
  2:{ destruct xs2 as [|z zs]; [done|]. rewrite !last_app_cons. by rewrite last_cons_cons. }
  apply elem_of_app in Ho as [(u & v & ->)%list_elem_of_split|(u & v & ->)%list_elem_of_split].
  - rewrite <- !(assoc_L (++)) in *. simpl in *. apply NoDup_notin_app in Hnd as [??].
    by rewrite !pred_of_at by done.
  - rewrite app_comm_cons, !(assoc_L (++)) in *.
    apply NoDup_notin_app in Hnd as [Hy _].
    rewrite !pred_of_at by set_solver.
    destruct u as [|z zs]; [done|]. rewrite !last_app_cons. by rewrite last_cons_cons.
Qed.

End Positions.

(** ** The abstract heap and its operations *)

Section AbstractLists.
Context {item list_id : Type}.
Context `{!EqDecision item, !Countable item, !EqDecision list_id, !Countable list_id}.

Record aitem := mkAitem {
  ai_value : Z;
  ai_owner : Z;
  ai_container : option list_id
}.

Record alist := mkAlist {
  al_items : list item;
  al_index : option item
}.

Record aheap := mkAheap {
  a_items : gmap item aitem;
  a_lists : gmap list_id alist
}.

Definition a_rd_item (i : item) : M aheap aitem := fun a =>
  match a_items a !! i with Some x => Some (x, a) | None => None end.
Definition a_rd_list (l : list_id) : M aheap alist := fun a =>
  match a_lists a !! l with Some x => Some (x, a) | None => None end.
Definition a_put_item (i : item) (x : aitem) : M aheap unit :=
  modify (fun a => mkAheap (<[i := x]> (a_items a)) (a_lists a)).
Definition a_put_list (l : list_id) (x : alist) : M aheap unit :=
  modify (fun a => mkAheap (a_items a) (<[l := x]> (a_lists a))).

(** What can be observed of the heap. *)
Definition items_of (a : aheap) (l : list_id) : list item :=
  from_option al_items [] (a_lists a !! l).
Definition index_of (a : aheap) (l : list_id) : option item :=
  a_lists a !! l ≫= al_index.
Definition cont_of (a : aheap) (i : item) : option list_id :=
  a_items a !! i ≫= ai_container.
Definition val_of (a : aheap) (i : item) : Z :=
  from_option ai_value 0 (a_items a !! i).
Definition owner_of (a : aheap) (i : item) : Z :=
  from_option ai_owner 0 (a_items a !! i).

Definition aInitialise (l : list_id) : M aheap unit := fun a =>
  if decide (items_of a l = []) then a_put_list l (mkAlist [] None) a else None.

Definition aInitialiseItem (i : item) : M aheap unit :=
  x ← a_rd_item i;
  if decide (ai_container x = None) then mret tt else fault.

Definition aLink (l : list_id) (i : item) (f : aheap -> alist -> list item) : M aheap unit :=
  x ← a_rd_item i;
  al ← a_rd_list l;
  if decide (ai_container x = None) then
    a ← get;
    a_put_item i (mkAitem (ai_value x) (ai_owner x) (Some l));;
    a_put_list l (mkAlist (f a al) (al_index al))
  else fault.

(** Insert as the last item the cursor will reach. *)
Definition aInsertEnd (l : list_id) (i : item) : M aheap unit :=
  aLink l i (fun _ al =>
    match al_index al with
    | None => al_items al ++ [i]
    | Some j => insert_before j i (al_items al)
    end).

(** Insert in value order, after the items of the same value. *)
Definition aInsert (l : list_id) (i : item) : M aheap unit :=
  x ← a_rd_item i;
  if decide (ai_value x <= portMAX_DELAY) then
    aLink l i (fun a al =>
      if ai_value x =? portMAX_DELAY then al_items al ++ [i]
      else insert_sorted (val_of a) (ai_value x) i (al_items al))
  else fault.

Definition aRemove (i : item) : M aheap Z :=
  x ← a_rd_item i;
  l ← lift_opt (ai_container x);
  al ← a_rd_list l;
  a_put_item i (mkAitem (ai_value x) (ai_owner x) None);;
  a_put_list l (mkAlist (drop_elem i (al_items al))
    (if decide (al_index al = Some i) then pred_of None i (al_items al) else al_index al));;
  mret (Z.of_nat (length (drop_elem i (al_items al)))).

Definition aSetOwner (i : item) (o : Z) : M aheap unit :=
  x ← a_rd_item i; a_put_item i (mkAitem (ai_value x) o (ai_container x)).
Definition aGetOwner (i : item) : M aheap Z := x ← a_rd_item i; mret (ai_owner x).
Definition aSetValue (i : item) (v : Z) : M aheap unit :=
  x ← a_rd_item i; a_put_item i (mkAitem v (ai_owner x) (ai_container x)).
Definition aGetValue (i : item) : M aheap Z := x ← a_rd_item i; mret (ai_value x).
Definition aContainer (i : item) : M aheap (option list_id) :=
  x ← a_rd_item i; mret (ai_container x).
Definition aLength (l : list_id) : M aheap Z :=
  al ← a_rd_list l; mret (Z.of_nat (length (al_items al))).
Definition aHeadValue (l : list_id) : M aheap Z :=
  al ← a_rd_list l;
  match al_items al with [] => mret portMAX_DELAY | i :: _ => aGetValue i end.
Definition aHeadOwner (l : list_id) : M aheap Z :=
  al ← a_rd_list l;
  match al_items al with [] => fault | i :: _ => aGetOwner i end.
Definition node_of (l : list_id) (o : option item) : node item list_id :=
  match o with Some i => NItem i | None => NEnd l end.
Definition aHeadEntry (l : list_id) : M aheap (node item list_id) :=
  al ← a_rd_list l; mret (node_of l (head (al_items al))).
Definition aNext (n : node item list_id) : M aheap (node item list_id) :=
  match n with
  | NEnd l => aHeadEntry l
  | NItem i => x ← a_rd_item i;
               l ← lift_opt (ai_container x);
               al ← a_rd_list l;
               mret (node_of l (succ_of i (al_items al)))
  end.
Definition aNextOwner (l : list_id) : M aheap Z :=
  al ← a_rd_list l;
  i ← lift_opt (cursor_next (al_index al) (al_items al));
  a_put_list l (mkAlist (al_items al) (Some i));;
  aGetOwner i.

(** The number of list items that fit in a 32-bit address space is below 2^32. *)
Definition aAllocItem (i : item) : M aheap unit := fun a =>
  if decide (cont_of a i = None /\ Z.of_nat (size (a_items a)) + 1 < u32_modulus)
  then a_put_item i (mkAitem 0 0 None) a else None.
Definition aFreeItem (i : item) : M aheap unit := fun a =>
  if decide (cont_of a i = None)
  then Some (tt, mkAheap (delete i (a_items a)) (a_lists a)) else None.
Definition aFreeList (l : list_id) : M aheap unit := fun a =>
  if decide (items_of a l = [])
  then Some (tt, mkAheap (a_items a) (delete l (a_lists a))) else None.

(** Well-formedness: an item's container says exactly which list holds it, a
    list holds an item once, and a cursor points into its own list. *)
Record awf (a : aheap) : Prop := {
  awf_mem : forall i l, i ∈ items_of a l <-> cont_of a i = Some l;
  awf_nodup : forall l, NoDup (items_of a l);
  awf_index : forall l i, index_of a l = Some i -> i ∈ items_of a l;
  awf_size : Z.of_nat (size (a_items a)) < u32_modulus
}.

End AbstractLists.

Arguments aitem : clear implicits.
Arguments alist : clear implicits.
Arguments aheap item list_id {_ _ _ _}.

(** ** The interface

    The kernel is written against [ListOps]; [ListRefines] says that one
    implementation simulates another: whatever the second one does, the first
    does with the same result, and related heaps stay related. *)

Class ListOps (item list_id : Type) (H : Type) := {
  loInitialise : list_id -> M H unit;
  loInitialiseItem : item -> M H unit;
  loInsertEnd : list_id -> item -> M H unit;
  loInsert : list_id -> item -> M H unit;
  loRemove : item -> M H Z;
  loSetOwner : item -> Z -> M H unit;
  loGetOwner : item -> M H Z;
  loSetValue : item -> Z -> M H unit;
  loGetValue : item -> M H Z;
  loContainer : item -> M H (option list_id);
  loLength : list_id -> M H Z;
  loHeadValue : list_id -> M H Z;
  loHeadOwner : list_id -> M H Z;
  loHeadEntry : list_id -> M H (node item list_id);
  loNext : node item list_id -> M H (node item list_id);
  loNextOwner : list_id -> M H Z;
  loAllocItem : item -> M H unit;
  loFreeItem : item -> M H unit;
  loFreeList : list_id -> M H unit
}.

#[export] Instance pointer_lists item list_id `{!EqDecision item, !Countable item,
  !EqDecision list_id, !Countable list_id} : ListOps item list_id (lheap item list_id) := {
  loInitialise := vListInitialise;
  loInitialiseItem := vListInitialiseItem;
  loInsertEnd := vListInsertEnd;
  loInsert := vListInsert;
  loRemove := uxListRemove;
  loSetOwner := listSET_LIST_ITEM_OWNER;
  loGetOwner := listGET_LIST_ITEM_OWNER;
  loSetValue := listSET_LIST_ITEM_VALUE;
  loGetValue := listGET_LIST_ITEM_VALUE;
  loContainer := listLIST_ITEM_CONTAINER;
  loLength := listCURRENT_LIST_LENGTH;
  loHeadValue := listGET_ITEM_VALUE_OF_HEAD_ENTRY;
  loHeadOwner := listGET_OWNER_OF_HEAD_ENTRY;
  loHeadEntry := listGET_HEAD_ENTRY;
  loNext := listGET_NEXT;
  loNextOwner := listGET_OWNER_OF_NEXT_ENTRY;
  loAllocItem := alloc_item;
  loFreeItem := free_item;
  loFreeList := free_list
}.

#[export] Instance abstract_lists item list_id `{!EqDecision item, !Countable item,
  !EqDecision list_id, !Countable list_id} : ListOps item list_id (aheap item list_id) := {
  loInitialise := aInitialise;
  loInitialiseItem := aInitialiseItem;
  loInsertEnd := aInsertEnd;
  loInsert := aInsert;
  loRemove := aRemove;
  loSetOwner := aSetOwner;
  loGetOwner := aGetOwner;
  loSetValue := aSetValue;
  loGetValue := aGetValue;
  loContainer := aContainer;
  loLength := aLength;
  loHeadValue := aHeadValue;
  loHeadOwner := aHeadOwner;
  loHeadEntry := aHeadEntry;
  loNext := aNext;
  loNextOwner := aNextOwner;
  loAllocItem := aAllocItem;
  loFreeItem := aFreeItem;
  loFreeList := aFreeList
}.

Class ListRefines {item list_id H1 H2 : Type} `{!ListOps item list_id H1}
  `{!ListOps item list_id H2} (R : H1 -> H2 -> Prop) : Prop := {
  lr_initialise l : sim R (loInitialise l) (loInitialise l);
  lr_initialise_item i : sim R (loInitialiseItem i) (loInitialiseItem i);
  lr_insert_end l i : sim R (loInsertEnd l i) (loInsertEnd l i);
  lr_insert l i : sim R (loInsert l i) (loInsert l i);
  lr_remove i : sim R (loRemove i) (loRemove i);
  lr_set_owner i o : sim R (loSetOwner i o) (loSetOwner i o);
  lr_get_owner i : sim R (loGetOwner i) (loGetOwner i);
  lr_set_value i v : sim R (loSetValue i v) (loSetValue i v);
  lr_get_value i : sim R (loGetValue i) (loGetValue i);
  lr_container i : sim R (loContainer i) (loContainer i);
  lr_length l : sim R (loLength l) (loLength l);
  lr_head_value l : sim R (loHeadValue l) (loHeadValue l);
  lr_head_owner l : sim R (loHeadOwner l) (loHeadOwner l);
  lr_head_entry l : sim R (loHeadEntry l) (loHeadEntry l);
  lr_next n : sim R (loNext n) (loNext n);
  lr_next_owner l : sim R (loNextOwner l) (loNextOwner l);
  lr_alloc_item i : sim R (loAllocItem i) (loAllocItem i);
  lr_free_item i : sim R (loFreeItem i) (loFreeItem i);
  lr_free_list l : sim R (loFreeList l) (loFreeList l)
}.
