(* ===== verification/ListRefine.v ===== *)
(** * list.c implements the abstract lists

    [rep h a]: the pointer heap [h] represents the abstract heap [a].  Each
    operation of list.c is shown to simulate the abstract one, which makes
    [lheap] a refinement of [aheap] ([list_c_refines]). *)

From S2P Require Import Prelude Simulation Config ListC ListSpec.

Section Refinement.
Context {item list_id : Type}.
Context `{!EqDecision item, !Countable item, !EqDecision list_id, !Countable list_id}.
Notation node := (node item list_id).
Notation lheap := (lheap item list_id).
Notation aheap := (aheap item list_id).
Implicit Types (h : lheap) (a : aheap) (n m p q : node) (i j : item) (l : list_id)
  (xs : list item) (al : alist item).

(** ** Observations after a write *)

Ltac observe :=
  intros; unfold rd_next, rd_prev, rd_value, rd_item, rd_list, upd_next, upd_prev,
    upd_container, upd_value, upd_owner, upd_count, upd_index, upd_item, upd_list;
  repeat (match goal with n : node |- _ => destruct n end); simpl;
  rewrite ?lookup_alter; repeat case_decide; simplify_eq; try done;
  match goal with |- context [?mm !! ?k] => by destruct (mm !! k) end.

Lemma rd_next_upd_next h n m n' : rd_next (upd_next n m h) n' =
  if decide (n = n') then (fun _ => m) <$> rd_next h n' else rd_next h n'.
Proof. observe. Qed.
Lemma rd_prev_upd_next h n m n' : rd_prev (upd_next n m h) n' = rd_prev h n'.
Proof. observe. Qed.
Lemma rd_value_upd_next h n m n' : rd_value (upd_next n m h) n' = rd_value h n'.
Proof. observe. Qed.
Lemma rd_item_upd_next h n m j' : rd_item (upd_next n m h) j' = rd_item h j'.
Proof. observe. Qed.
Lemma rd_list_upd_next h n m l' : rd_list (upd_next n m h) l' = rd_list h l'.
Proof. observe. Qed.
Lemma rd_next_upd_prev h n m n' : rd_next (upd_prev n m h) n' = rd_next h n'.
Proof. observe. Qed.
Lemma rd_prev_upd_prev h n m n' : rd_prev (upd_prev n m h) n' =
  if decide (n = n') then (fun _ => m) <$> rd_prev h n' else rd_prev h n'.
Proof. observe. Qed.
Lemma rd_value_upd_prev h n m n' : rd_value (upd_prev n m h) n' = rd_value h n'.
Proof. observe. Qed.
Lemma rd_item_upd_prev h n m j' : rd_item (upd_prev n m h) j' = rd_item h j'.
Proof. observe. Qed.
Lemma rd_list_upd_prev h n m l' : rd_list (upd_prev n m h) l' = rd_list h l'.
Proof. observe. Qed.
Lemma rd_next_upd_container h i (c : option list_id) n' : rd_next (upd_container i c h) n' = rd_next h n'.
Proof. observe. Qed.
Lemma rd_prev_upd_container h i (c : option list_id) n' : rd_prev (upd_container i c h) n' = rd_prev h n'.
Proof. observe. Qed.
Lemma rd_value_upd_container h i (c : option list_id) n' : rd_value (upd_container i c h) n' = rd_value h n'.
Proof. observe. Qed.
Lemma rd_item_upd_container h i (c : option list_id) j' : rd_item (upd_container i c h) j' =
  if decide (i = j') then (fun x => (x.1, c)) <$> rd_item h j' else rd_item h j'.
Proof. observe. Qed.
Lemma rd_list_upd_container h i (c : option list_id) l' : rd_list (upd_container i c h) l' = rd_list h l'.
Proof. observe. Qed.
Lemma rd_next_upd_value h i v n' : rd_next (upd_value i v h) n' = rd_next h n'.
Proof. observe. Qed.
Lemma rd_prev_upd_value h i v n' : rd_prev (upd_value i v h) n' = rd_prev h n'.
Proof. observe. Qed.
Lemma rd_value_upd_value h i v n' : rd_value (upd_value i v h) n' =
  if decide (NItem i = n') then (fun _ => v) <$> rd_value h n' else rd_value h n'.
Proof. observe. Qed.
Lemma rd_item_upd_value h i v j' : rd_item (upd_value i v h) j' =
  if decide (i = j') then (fun x => (v, x.1.2, x.2)) <$> rd_item h j' else rd_item h j'.
Proof. observe. Qed.
Lemma rd_list_upd_value h i v l' : rd_list (upd_value i v h) l' = rd_list h l'.
Proof. observe. Qed.
Lemma rd_next_upd_owner h i o n' : rd_next (upd_owner i o h) n' = rd_next h n'.
Proof. observe. Qed.
Lemma rd_prev_upd_owner h i o n' : rd_prev (upd_owner i o h) n' = rd_prev h n'.
Proof. observe. Qed.
Lemma rd_value_upd_owner h i o n' : rd_value (upd_owner i o h) n' = rd_value h n'.
Proof. observe. Qed.
Lemma rd_item_upd_owner h i o j' : rd_item (upd_owner i o h) j' =
  if decide (i = j') then (fun x => (x.1.1, o, x.2)) <$> rd_item h j' else rd_item h j'.
Proof. observe. Qed.
Lemma rd_list_upd_owner h i o l' : rd_list (upd_owner i o h) l' = rd_list h l'.
Proof. observe. Qed.
Lemma rd_next_upd_count h l c n' : rd_next (upd_count l c h) n' = rd_next h n'.
Proof. observe. Qed.
Lemma rd_prev_upd_count h l c n' : rd_prev (upd_count l c h) n' = rd_prev h n'.
Proof. observe. Qed.
Lemma rd_value_upd_count h l c n' : rd_value (upd_count l c h) n' = rd_value h n'.
Proof. observe. Qed.
Lemma rd_item_upd_count h l c j' : rd_item (upd_count l c h) j' = rd_item h j'.
Proof. observe. Qed.
Lemma rd_list_upd_count h l c l' : rd_list (upd_count l c h) l' =
  if decide (l = l') then (fun x => (c, x.2)) <$> rd_list h l' else rd_list h l'.
Proof. observe. Qed.
Lemma rd_next_upd_index h l n n' : rd_next (upd_index l n h) n' = rd_next h n'.
Proof. observe. Qed.
Lemma rd_prev_upd_index h l n n' : rd_prev (upd_index l n h) n' = rd_prev h n'.
Proof. observe. Qed.
Lemma rd_value_upd_index h l n n' : rd_value (upd_index l n h) n' = rd_value h n'.
Proof. observe. Qed.
Lemma rd_item_upd_index h l n j' : rd_item (upd_index l n h) j' = rd_item h j'.
Proof. observe. Qed.
Lemma rd_list_upd_index h l n l' : rd_list (upd_index l n h) l' =
  if decide (l = l') then (fun x => (x.1, n)) <$> rd_list h l' else rd_list h l'.
Proof. observe. Qed.

#[local] Hint Rewrite rd_next_upd_next rd_prev_upd_next rd_value_upd_next rd_item_upd_next
  rd_list_upd_next rd_next_upd_prev rd_prev_upd_prev rd_value_upd_prev
  rd_item_upd_prev rd_list_upd_prev rd_next_upd_container rd_prev_upd_container
  rd_value_upd_container rd_item_upd_container rd_list_upd_container rd_next_upd_value
  rd_prev_upd_value rd_value_upd_value rd_item_upd_value rd_list_upd_value
  rd_next_upd_owner rd_prev_upd_owner rd_value_upd_owner rd_item_upd_owner
  rd_list_upd_owner rd_next_upd_count rd_prev_upd_count rd_value_upd_count
  rd_item_upd_count rd_list_upd_count rd_next_upd_index rd_prev_upd_index
  rd_value_upd_index rd_item_upd_index rd_list_upd_index : lh.

(** ** The representation *)

(** In a ring, the pointers of each node lead to its neighbours. *)
Definition ring (h : lheap) (l : list_id) (xs : list item) : Prop :=
  forall o, in_ring o xs ->
    rd_next h (node_of l o) = Some (node_of l (ring_succ o xs)) /\
    rd_prev h (node_of l o) = Some (node_of l (ring_pred o xs)).

Definition rep_list (h : lheap) (l : list_id) (al : alist item) : Prop :=
  rd_list h l = Some (Z.of_nat (length (al_items al)), node_of l (al_index al)) /\
  rd_value h (NEnd l) = Some portMAX_DELAY /\
  ring h l (al_items al).

Definition view (x : aitem list_id) : Z * Z * option list_id :=
  (ai_value x, ai_owner x, ai_container x).

Record rep (h : lheap) (a : aheap) : Prop := {
  rep_wf : awf a;
  rep_items : forall i, rd_item h i = view <$> a_items a !! i;
  rep_lists : forall l al, a_lists a !! l = Some al -> rep_list h l al
}.

Lemma node_of_inj l (o o' : option item) : node_of l o = node_of l o' -> o = o'.
Proof. destruct o, o'; simpl; congruence. Qed.

Lemma node_of_other l l' (o o' : option item) a :
  awf a -> l <> l' -> in_ring o (items_of a l) -> in_ring o' (items_of a l') ->
  node_of l o <> node_of l' o'.
Proof.
  intros Hwf Hne Ho Ho'. destruct o, o'; simpl in *; try congruence.
  apply (awf_mem _ Hwf) in Ho, Ho'. congruence.
Qed.

Lemma rd_value_item h i : rd_value h (NItem i) = (fun x => x.1.1) <$> rd_item h i.
Proof. unfold rd_value, rd_item. by destruct (h_items h !! i). Qed.

Lemma rd_next_some h n : is_Some (rd_prev h n) -> is_Some (rd_next h n).
Proof. destruct n; simpl; by rewrite !fmap_is_Some. Qed.

Lemma rd_item_some h i : is_Some (rd_item h i) ->
  is_Some (rd_next h (NItem i)) /\ is_Some (rd_prev h (NItem i)).
Proof. unfold rd_item. simpl. by rewrite !fmap_is_Some. Qed.

Lemma items_of_some a l al : a_lists a !! l = Some al -> items_of a l = al_items al.
Proof. unfold items_of. by intros ->. Qed.

Lemma list_length_bound a l : awf a -> Z.of_nat (length (items_of a l)) <= Z.of_nat (size (a_items a)).
Proof.
  intros Hwf. apply Nat2Z.inj_le.
  rewrite <- (size_dom (a_items a)), <- (size_list_to_set (C := gset item)) by apply Hwf.
  apply subseteq_size. intros i. rewrite elem_of_list_to_set, elem_of_dom.
  intros Hi%(awf_mem _ Hwf). unfold cont_of in Hi. by destruct (a_items a !! i).
Qed.

(** ** Steps of the pointer program *)

Lemma wp_read {A} (f : lheap -> option A) x (Q : A -> lheap -> Prop) h :
  f h = Some x -> Q x h -> wp (read f) Q h.
Proof. intros E HQ. exists x, h. unfold read. by rewrite E. Qed.

Lemma wp_set_next n m (Q : unit -> lheap -> Prop) h :
  is_Some (rd_next h n) -> Q tt (upd_next n m h) -> wp (set_next n m) Q h.
Proof. intros [x E] HQ. apply wp_bind. eapply wp_read; [done|]. by apply wp_modify. Qed.
Lemma wp_set_prev n m (Q : unit -> lheap -> Prop) h :
  is_Some (rd_prev h n) -> Q tt (upd_prev n m h) -> wp (set_prev n m) Q h.
Proof. intros [x E] HQ. apply wp_bind. eapply wp_read; [done|]. by apply wp_modify. Qed.
Lemma wp_set_container i c (Q : unit -> lheap -> Prop) h :
  is_Some (rd_item h i) -> Q tt (upd_container i c h) -> wp (set_container i c) Q h.
Proof.
  intros [x E] HQ. apply wp_bind. eapply wp_read; [by rewrite E|]. by apply wp_modify.
Qed.
Lemma wp_set_count l c (Q : unit -> lheap -> Prop) h :
  is_Some (rd_list h l) -> Q tt (upd_count l c h) -> wp (set_count l c) Q h.
Proof.
  intros [x E] HQ. apply wp_bind. eapply wp_read; [by rewrite E|]. by apply wp_modify.
Qed.
Lemma wp_set_index l n (Q : unit -> lheap -> Prop) h :
  is_Some (rd_list h l) -> Q tt (upd_index l n h) -> wp (set_index l n) Q h.
Proof.
  intros [x E] HQ. apply wp_bind. eapply wp_read; [by rewrite E|]. by apply wp_modify.
Qed.

(** ** Linking a new item between two neighbours *)

(** [h'] is [h] with [i] put between [p] and [q] and recorded in list [l]. *)
Record linked (h h' : lheap) (l : list_id) (p : node) (i : item) (q : node) : Prop := {
  lk_next n : rd_next h' n = if decide (n = NItem i) then Some q
                             else if decide (n = p) then Some (NItem i) else rd_next h n;
  lk_prev n : rd_prev h' n = if decide (n = NItem i) then Some p
                             else if decide (n = q) then Some (NItem i) else rd_prev h n;
  lk_value n : rd_value h' n = rd_value h n;
  lk_item j : rd_item h' j = if decide (i = j) then (fun x => (x.1, Some l)) <$> rd_item h j
                             else rd_item h j;
  lk_list l' : rd_list h' l' = if decide (l = l') then (fun x => (x.1 +u 1, x.2)) <$> rd_list h l'
                               else rd_list h l'
}.

Definition put_in (a : aheap) (l : list_id) (i : item) (x : aitem list_id) (al : alist item)
  (xs : list item) : aheap :=
  mkAheap (<[i := mkAitem (ai_value x) (ai_owner x) (Some l)]> (a_items a))
          (<[l := mkAlist xs (al_index al)]> (a_lists a)).

Lemma put_in_wf a l i x al xs1 xs2 :
  awf a -> a_lists a !! l = Some al -> a_items a !! i = Some x -> ai_container x = None ->
  al_items al = xs1 ++ xs2 -> awf (put_in a l i x al (xs1 ++ i :: xs2)).
Proof.
  intros Hwf Hal Hx Hc Hxs.
  assert (Hi : forall l', i ∉ items_of a l').
  { intros l' Hl'%(awf_mem _ Hwf). unfold cont_of in Hl'. by rewrite Hx in Hl'; simpl in Hl'; congruence. }
  assert (Hit : forall l', items_of (put_in a l i x al (xs1 ++ i :: xs2)) l' =
            if decide (l = l') then xs1 ++ i :: xs2 else items_of a l').
  { intros l'. unfold items_of, put_in. simpl. rewrite lookup_insert. by case_decide. }
  assert (Hl : items_of a l = xs1 ++ xs2) by (by rewrite (items_of_some _ _ _ Hal)).
  split.
  - intros j l'. rewrite Hit. unfold cont_of, put_in. simpl. rewrite lookup_insert.
    pose proof (awf_mem _ Hwf j l') as Hm. pose proof (Hi l'). unfold cont_of in Hm.
    repeat case_decide; simplify_eq; simpl; rewrite ?Hl in *; try set_solver.
  - intros l'. rewrite Hit. case_decide; [|apply Hwf].
    rewrite <- Permutation_middle. apply NoDup_cons. rewrite <- Hl. split; [apply Hi|apply Hwf].
  - intros l' j. rewrite Hit. unfold index_of, put_in. simpl. rewrite lookup_insert.
    case_decide; simplify_eq; simpl; intros Hj; [|by apply (awf_index _ Hwf)].
    assert (j ∈ items_of a l') by (apply (awf_index _ Hwf); unfold index_of; by rewrite Hal).
    rewrite Hl in *. set_solver.
  - unfold put_in. simpl. rewrite map_size_insert_Some by eauto. apply Hwf.
Qed.

Lemma in_ring_last (xs1 xs2 : list item) : in_ring (last xs1) (xs1 ++ xs2).
Proof.
  destruct (last xs1) eqn:E; [|done]. apply last_Some_elem_of in E. simpl. set_solver.
Qed.
Lemma in_ring_head (xs1 xs2 : list item) : in_ring (head xs2) (xs1 ++ xs2).
Proof. destruct xs2; simpl; [done|]. set_solver. Qed.

(** The ring of the list the item is linked into ... *)
Lemma linked_ring h h' l i xs1 xs2 :
  NoDup (xs1 ++ i :: xs2) -> ring h l (xs1 ++ xs2) ->
  linked h h' l (node_of l (last xs1)) i (node_of l (head xs2)) ->
  ring h' l (xs1 ++ i :: xs2).
Proof.
  intros Hnd Hring Hlk o Ho.
  rewrite (lk_next _ _ _ _ _ _ Hlk), (lk_prev _ _ _ _ _ _ Hlk).
  destruct (decide (node_of l o = NItem i)) as [E|E].
  { destruct o as [j|]; simplify_eq/=. apply NoDup_notin_app in Hnd as [??].
    by rewrite succ_of_split, pred_of_at by done. }
  assert (Ho' : in_ring o (xs1 ++ xs2)).
  { destruct o as [j|]; simpl in *; [|done]. set_solver. }
  rewrite ring_succ_insert, ring_pred_insert by done.
  destruct (Hring o Ho') as [-> ->].
  split; repeat case_decide; simplify_eq; try done;
    by match goal with H : node_of _ _ = node_of _ _ |- _ => apply node_of_inj in H end.
Qed.

(** ... and the rings of the other lists, which share no node with it. *)
Lemma linked_ring_other h h' a l l' i p q (o1 o2 : option item) :
  awf a -> l <> l' -> cont_of a i = None -> p = node_of l o1 -> q = node_of l o2 ->
  in_ring o1 (items_of a l) -> in_ring o2 (items_of a l) ->
  (forall n, n <> NItem i -> n <> p -> rd_next h' n = rd_next h n) ->
  (forall n, n <> NItem i -> n <> q -> rd_prev h' n = rd_prev h n) ->
  ring h l' (items_of a l') -> ring h' l' (items_of a l').
Proof.
  intros Hwf Hne Hi -> -> Ho1 Ho2 Hn Hp Hring o Ho.
  assert (node_of l' o <> NItem i).
  { destruct o as [j|]; simpl in *; [|done]. intros [= ->].
    apply (awf_mem _ Hwf) in Ho. congruence. }
  rewrite Hn, Hp; [by apply Hring|done| |done|]; by apply not_eq_sym, (node_of_other _ _ _ _ a).
Qed.

Lemma linked_rep h h' a l i x al xs1 xs2 :
  rep h a -> a_lists a !! l = Some al -> a_items a !! i = Some x -> ai_container x = None ->
  al_items al = xs1 ++ xs2 ->
  linked h h' l (node_of l (last xs1)) i (node_of l (head xs2)) ->
  rep h' (put_in a l i x al (xs1 ++ i :: xs2)).
Proof.
  intros Hrep Hal Hx Hc Hxs Hlk.
  pose proof (rep_wf _ _ Hrep) as Hwf.
  assert (Hwf' : awf (put_in a l i x al (xs1 ++ i :: xs2))) by by apply put_in_wf.
  pose proof (awf_nodup _ Hwf' l) as Hnd. pose proof (list_length_bound _ l Hwf') as Hlen.
  rewrite (items_of_some _ _ (mkAlist (xs1 ++ i :: xs2) (al_index al))) in Hnd, Hlen
    by apply lookup_insert_eq.
  split; [done| |].
  - intros j. rewrite (lk_item _ _ _ _ _ _ Hlk), (rep_items _ _ Hrep). unfold put_in. simpl.
    rewrite lookup_insert. case_decide; [|done]. subst. by rewrite Hx.
  - intros l' al'. unfold put_in. simpl. rewrite lookup_insert. case_decide; intros; simplify_eq.
    + destruct (rep_lists _ _ Hrep _ _ Hal) as (Hrl & Hrv & Hring). split_and!.
      * rewrite (lk_list _ _ _ _ _ _ Hlk), decide_True, Hrl by done. simpl.
        pose proof (awf_size _ Hwf'). simpl in Hlen. rewrite Hxs, !length_app in *. simpl in *.
        do 2 f_equal. rewrite u32_small; [lia|]. unfold u32_range. lia.
      * by rewrite (lk_value _ _ _ _ _ _ Hlk).
      * rewrite Hxs in Hring. by eapply linked_ring.
    + destruct (rep_lists _ _ Hrep l' al') as (Hrl & Hrv & Hring); [done|]. split_and!.
      * by rewrite (lk_list _ _ _ _ _ _ Hlk), decide_False.
      * by rewrite (lk_value _ _ _ _ _ _ Hlk).
      * erewrite <- items_of_some in Hring |- * by done.
        eapply (linked_ring_other h h' a l l' i); try done.
        { unfold cont_of. by rewrite Hx. }
        { erewrite items_of_some, Hxs by done. by apply in_ring_last. }
        { erewrite items_of_some, Hxs by done. by apply in_ring_head. }
        { intros. by rewrite (lk_next _ _ _ _ _ _ Hlk), !decide_False. }
        { intros. by rewrite (lk_prev _ _ _ _ _ _ Hlk), !decide_False. }
Qed.

(** ** Unlinking an item *)

(** [h'] is [h] with [i], which sits between [p] and [q], taken out of list [l]. *)
Record unlinked (h h' : lheap) (l : list_id) (p : node) (i : item) (q : node) : Prop := {
  ul_next n : rd_next h' n = if decide (n = p) then Some q else rd_next h n;
  ul_prev n : rd_prev h' n = if decide (n = q) then Some p else rd_prev h n;
  ul_value n : rd_value h' n = rd_value h n;
  ul_item j : rd_item h' j = if decide (i = j) then (fun x => (x.1, None)) <$> rd_item h j
                             else rd_item h j;
  ul_list l' : rd_list h' l' =
    if decide (l = l')
    then (fun x => (x.1 -u 1, if decide (x.2 = NItem i) then p else x.2)) <$> rd_list h l'
    else rd_list h l'
}.

Definition take_out (a : aheap) (l : list_id) (i : item) (x : aitem list_id) (al : alist item)
  : aheap :=
  mkAheap (<[i := mkAitem (ai_value x) (ai_owner x) None]> (a_items a))
          (<[l := mkAlist (drop_elem i (al_items al))
               (if decide (al_index al = Some i) then pred_of None i (al_items al)
                else al_index al)]> (a_lists a)).

Lemma take_out_index a l i al xs1 xs2 o :
  al_items al = xs1 ++ i :: xs2 -> NoDup (al_items al) -> in_ring (al_index al) (al_items al) ->
  o = (if decide (al_index al = Some i) then pred_of None i (al_items al) else al_index al) ->
  in_ring o (xs1 ++ xs2).
Proof.
  intros Hxs Hnd Hin ->. rewrite Hxs in *. case_decide as E.
  - apply NoDup_notin_app in Hnd as [??]. rewrite pred_of_at by done. apply in_ring_last.
  - destruct (al_index al) as [j|]; simpl in *; [|done]. set_solver.
Qed.

Lemma take_out_wf a l i x al xs1 xs2 :
  awf a -> a_lists a !! l = Some al -> a_items a !! i = Some x -> ai_container x = Some l ->
  al_items al = xs1 ++ i :: xs2 -> awf (take_out a l i x al).
Proof.
  intros Hwf Hal Hx Hc Hxs.
  pose proof (awf_nodup _ Hwf l) as Hnd. rewrite (items_of_some _ _ _ Hal) in Hnd.
  assert (Hit : forall l', items_of (take_out a l i x al) l' =
            if decide (l = l') then drop_elem i (al_items al) else items_of a l').
  { intros l'. unfold items_of, take_out. simpl. rewrite lookup_insert. by case_decide. }
  assert (Hic : cont_of a i = Some l) by (unfold cont_of; by rewrite Hx).
  split.
  - intros j l'. rewrite Hit. unfold cont_of at 1, take_out. simpl. rewrite lookup_insert.
    pose proof (awf_mem _ Hwf j l') as Hm.
    case_decide; [rewrite elem_of_drop_elem; erewrite <- items_of_some by eassumption|];
      case_decide; simplify_eq/=; rewrite ?Hm; naive_solver congruence.
  - intros l'. rewrite Hit. case_decide; [|apply Hwf]. by apply NoDup_filter.
  - intros l' j. rewrite Hit. unfold index_of, take_out. simpl. rewrite lookup_insert.
    case_decide; intros Hj; [|by apply (awf_index _ Hwf)]. simplify_eq/=.
    rewrite Hxs, drop_elem_split by (by rewrite <- Hxs).
    apply (take_out_index a l' i al xs1 xs2 (Some j)); [done|done| |by rewrite <- Hj].
    destruct (al_index al) as [k|] eqn:E; simpl; [|done].
    erewrite <- items_of_some by done. apply (awf_index _ Hwf). unfold index_of. by rewrite Hal.
  - unfold take_out. simpl. rewrite map_size_insert_Some by eauto. apply Hwf.
Qed.

Lemma unlinked_ring h h' l i xs1 xs2 :
  NoDup (xs1 ++ i :: xs2) -> ring h l (xs1 ++ i :: xs2) ->
  unlinked h h' l (node_of l (last xs1)) i (node_of l (head xs2)) ->
  ring h' l (xs1 ++ xs2).
Proof.
  intros Hnd Hring Hul o Ho.
  assert (NoDup (xs1 ++ xs2)).
  { rewrite <- Permutation_middle in Hnd. by apply NoDup_cons in Hnd as [??]. }
  rewrite (ul_next _ _ _ _ _ _ Hul), (ul_prev _ _ _ _ _ _ Hul).
  assert (Ho' : in_ring o (xs1 ++ i :: xs2)).
  { destruct o as [j|]; simpl in *; [|done]. set_solver. }
  destruct (Hring o Ho') as [-> ->]. rewrite ring_succ_insert, ring_pred_insert by done.
  split.
  - destruct (decide (o = last xs1)) as [->|].
    + by rewrite decide_True, ring_succ_last.
    + rewrite decide_False; [done|]. by intros ?%node_of_inj.
  - destruct (decide (o = head xs2)) as [->|].
    + by rewrite decide_True, ring_pred_head.
    + rewrite decide_False; [done|]. by intros ?%node_of_inj.
Qed.

Lemma unlinked_rep h h' a l i x al xs1 xs2 :
  rep h a -> a_lists a !! l = Some al -> a_items a !! i = Some x -> ai_container x = Some l ->
  al_items al = xs1 ++ i :: xs2 ->
  unlinked h h' l (node_of l (last xs1)) i (node_of l (head xs2)) ->
  rep h' (take_out a l i x al).
Proof.
  intros Hrep Hal Hx Hc Hxs Hul.
  pose proof (rep_wf _ _ Hrep) as Hwf.
  pose proof (awf_nodup _ Hwf l) as Hnd. pose proof (list_length_bound _ l Hwf) as Hlen.
  rewrite (items_of_some _ _ _ Hal), Hxs in Hnd, Hlen.
  split; [by eapply take_out_wf| |].
  - intros j. rewrite (ul_item _ _ _ _ _ _ Hul), (rep_items _ _ Hrep). unfold take_out. simpl.
    rewrite lookup_insert. case_decide; [|done]. subst. by rewrite Hx.
  - intros l' al'. unfold take_out. simpl. rewrite lookup_insert. case_decide; intros; simplify_eq.
    + destruct (rep_lists _ _ Hrep _ _ Hal) as (Hrl & Hrv & Hring). rewrite Hxs in *. split_and!; cbn [al_items al_index].
      * rewrite (ul_list _ _ _ _ _ _ Hul), decide_True, Hrl by done. simpl.
        rewrite drop_elem_split by done. apply NoDup_notin_app in Hnd as [??].
        rewrite pred_of_at by done. pose proof (awf_size _ Hwf). rewrite !length_app in *. simpl in *.
        f_equal; f_equal; [rewrite u32_small; [lia|unfold u32_range; lia]|].
        destruct (al_index al); simpl; repeat case_decide; naive_solver.
      * by rewrite (ul_value _ _ _ _ _ _ Hul).
      * rewrite drop_elem_split by done. by eapply unlinked_ring.
    + destruct (rep_lists _ _ Hrep l' al') as (Hrl & Hrv & Hring); [done|]. split_and!.
      * by rewrite (ul_list _ _ _ _ _ _ Hul), decide_False.
      * by rewrite (ul_value _ _ _ _ _ _ Hul).
      * intros o Ho. rewrite (ul_next _ _ _ _ _ _ Hul), (ul_prev _ _ _ _ _ _ Hul).
        rewrite !decide_False; [by apply Hring| |];
          apply (node_of_other _ _ _ _ a); try done; erewrite items_of_some by done; try done;
          rewrite Hxs, (assoc_L (++) xs1 [i] xs2 : xs1 ++ i :: xs2 = _);
          [apply in_ring_head|rewrite <- (assoc_L (++)); apply in_ring_last].
Qed.

(** ** The operations simulate the abstract ones *)

Lemma sim_by_wp {A} (m1 : M lheap A) (m2 : M aheap A) :
  (forall h a r a', rep h a -> m2 a = Some (r, a') -> wp m1 (fun r' h' => r' = r /\ rep h' a') h) ->
  sim rep m1 m2.
Proof.
  intros Hwp h a r a' Hrep Hm. destruct (Hwp h a r a' Hrep Hm) as (r' & h' & ? & -> & ?). eauto.
Qed.

Ltac inv_abs H :=
  unfold aInitialise, aInitialiseItem, aInsertEnd, aInsert, aLink, aRemove, aSetOwner, aGetOwner,
    aSetValue, aGetValue, aContainer, aLength, aHeadValue, aHeadOwner, aHeadEntry, aNext,
    aNextOwner, aAllocItem, aFreeItem, aFreeList, a_rd_item, a_rd_list, a_put_item, a_put_list,
    get, modify, lift_opt, fault, mbind, M_bind, mret, M_ret in H;
  repeat (case_match; simplify_eq/=).

(** Evaluate reads of a heap that has been written to. *)
Ltac rd := cbv beta; autorewrite with lh;
  repeat first [rewrite decide_True by done | rewrite decide_False by congruence];
  repeat match goal with H : rd_item _ _ = _ |- _ => rewrite H | H : rd_list _ _ = _ |- _ => rewrite H
    | H : rd_next _ _ = _ |- _ => rewrite H | H : rd_prev _ _ = _ |- _ => rewrite H end;
  simpl; try (by eauto).

Lemma get_container_item h i c : snd <$> rd_item h i = Some c -> is_Some (rd_item h i).
Proof. destruct (rd_item h i); naive_solver. Qed.

Lemma rep_item_some h a i x : rep h a -> a_items a !! i = Some x -> rd_item h i = Some (view x).
Proof. intros Hrep Hx. by rewrite (rep_items _ _ Hrep), Hx. Qed.

(** Where an item that is in no list stands with respect to a ring. *)
Lemma free_item_not_ring a l i o : awf a -> cont_of a i = None -> in_ring o (items_of a l) ->
  node_of l o <> NItem i.
Proof.
  intros Hwf Hi Ho. destruct o as [j|]; simpl in *; [|done]. intros [= ->].
  apply (awf_mem _ Hwf) in Ho. congruence.
Qed.

(** The two neighbours at a position of a represented list. *)
Lemma rep_neighbours h a l al xs1 xs2 :
  rep h a -> a_lists a !! l = Some al -> al_items al = xs1 ++ xs2 ->
  rd_next h (node_of l (last xs1)) = Some (node_of l (head xs2)) /\
  rd_prev h (node_of l (head xs2)) = Some (node_of l (last xs1)).
Proof.
  intros Hrep Hal Hxs. destruct (rep_lists _ _ Hrep _ _ Hal) as (_ & _ & Hring).
  pose proof (awf_nodup _ (rep_wf _ _ Hrep) l) as Hnd. rewrite (items_of_some _ _ _ Hal), Hxs in Hnd.
  rewrite Hxs in Hring.
  destruct (Hring _ (in_ring_last xs1 xs2)) as [-> _].
  destruct (Hring _ (in_ring_head xs1 xs2)) as [_ ->].
  by rewrite ring_succ_last, ring_pred_head.
Qed.

(** The writes of vListInsertEnd, and those of vListInsert, link the item. *)
Lemma link_end_linked h l p i q c :
  rd_next h p = Some q -> rd_prev h q = Some p -> is_Some (rd_item h i) -> p <> NItem i ->
  q <> NItem i -> rd_list h l = Some c ->
  linked h (upd_count l (c.1 +u 1) (upd_container i (Some l) (upd_prev q (NItem i)
    (upd_next p (NItem i) (upd_prev (NItem i) p (upd_next (NItem i) q h)))))) l p i q.
Proof.
  intros Hn Hp Hi Hpi Hqi Hc. pose proof (rd_item_some _ _ Hi) as [[? Hin] [? Hip]].
  split; intros; autorewrite with lh; repeat case_decide; simplify_eq; try done;
    rewrite ?Hin, ?Hip, ?Hn, ?Hp; try done. by rewrite Hc.
Qed.

Lemma link_sorted_linked h l p i q c :
  rd_next h p = Some q -> rd_prev h q = Some p -> is_Some (rd_item h i) -> p <> NItem i ->
  q <> NItem i -> rd_list h l = Some c ->
  linked h (upd_count l (c.1 +u 1) (upd_container i (Some l) (upd_next p (NItem i)
    (upd_prev (NItem i) p (upd_prev q (NItem i) (upd_next (NItem i) q h)))))) l p i q.
Proof.
  intros Hn Hp Hi Hpi Hqi Hc. pose proof (rd_item_some _ _ Hi) as [[? Hin] [? Hip]].
  split; intros; autorewrite with lh; repeat case_decide; simplify_eq; try done;
    rewrite ?Hin, ?Hip, ?Hn, ?Hp; try done. by rewrite Hc.
Qed.

(** The insertion position of vListInsertEnd. *)
Lemma insert_end_position a l al i :
  awf a -> a_lists a !! l = Some al ->
  exists xs1 xs2, al_items al = xs1 ++ xs2 /\ al_index al = head xs2 /\
    match al_index al with
    | None => al_items al ++ [i]
    | Some j => insert_before j i (al_items al)
    end = xs1 ++ i :: xs2.
Proof.
  intros Hwf Hal. destruct (al_index al) as [j|] eqn:E.
  - assert (Hj : j ∈ al_items al).
    { erewrite <- items_of_some by done. apply (awf_index _ Hwf). unfold index_of. by rewrite Hal. }
    pose proof (awf_nodup _ Hwf l) as Hnd. rewrite (items_of_some _ _ _ Hal) in Hnd.
    apply list_elem_of_split in Hj as (xs1 & xs2 & Hxs). exists xs1, (j :: xs2).
    rewrite Hxs in *. apply NoDup_notin_app in Hnd as [??].
    split_and!; [done|done|by apply insert_before_split].
  - exists (al_items al), []. by rewrite app_nil_r.
Qed.

Lemma aLink_inv l i f a r a' :
  aLink l i f a = Some (r, a') ->
  exists x al, a_items a !! i = Some x /\ a_lists a !! l = Some al /\ ai_container x = None /\
    a' = put_in a l i x al (f a al).
Proof.
  intros Hm. inv_abs Hm. eexists _, _. split_and!; try done.
Qed.

#[local] Arguments rd_next : simpl never.
#[local] Arguments rd_prev : simpl never.
#[local] Arguments rd_value : simpl never.

(** One step of a pointer program: follow a read or perform a write. *)
Ltac wstep := first
  [ apply wp_bind
  | eapply wp_read; [by rd|]
  | eapply wp_set_next; [by rd|] | eapply wp_set_prev; [by rd|]
  | eapply wp_set_container; [by rd|] | eapply wp_set_count; [by rd|]
  | eapply wp_set_index; [by rd|] | eapply wp_lift_opt; [done|]
  | eapply wp_gets | eapply wp_modify | eapply wp_ret ].

(** What a free item and an insertion position of a represented list give. *)
Lemma insertion_context h a l al i x xs1 xs2 :
  rep h a -> a_items a !! i = Some x -> a_lists a !! l = Some al -> ai_container x = None ->
  al_items al = xs1 ++ xs2 ->
  is_Some (rd_next h (NItem i)) /\ is_Some (rd_prev h (NItem i)) /\
  rd_item h i = Some (view x) /\
  node_of l (last xs1) <> NItem i /\ node_of l (head xs2) <> NItem i.
Proof.
  intros Hrep Hx Hal Hc Hxs. pose proof (rep_wf _ _ Hrep) as Hwf.
  pose proof (rep_item_some _ _ _ _ Hrep Hx) as Hi.
  assert (Hci : cont_of a i = None) by (unfold cont_of; by rewrite Hx).
  destruct (rd_item_some h i ltac:(eauto)) as [??].
  split_and!; try done; apply (free_item_not_ring a); try done; erewrite items_of_some, Hxs by done.
  - apply in_ring_last.
  - apply in_ring_head.
Qed.

Lemma vListInsertEnd_sim l i : sim rep (vListInsertEnd l i) (aInsertEnd l i).
Proof.
  apply sim_by_wp. intros h a [] a' Hrep (x & al & Hx & Hal & Hc & ->)%aLink_inv.
  destruct (insert_end_position a l al i (rep_wf _ _ Hrep) Hal) as (xs1 & xs2 & Hxs & Hidx & ->).
  destruct (rep_neighbours _ _ _ _ _ _ Hrep Hal Hxs) as [Hn Hp].
  destruct (insertion_context _ _ _ _ _ _ _ _ Hrep Hx Hal Hc Hxs) as ([? Hin]&[? Hip]&Hi&Hpi&Hqi).
  destruct (rep_lists _ _ Hrep _ _ Hal) as (Hl & _ & _). rewrite Hidx in Hl.
  unfold vListInsertEnd. apply wp_bind. eapply wp_read; [by rewrite Hl|]. simpl.
  repeat wstep. split; [done|]. eapply linked_rep; try done.
  by eapply (link_end_linked h l _ i _ (_, _)).
Qed.

Lemma rep_value h a i x : rep h a -> a_items a !! i = Some x -> rd_value h (NItem i) = Some (val_of a i).
Proof.
  intros Hrep Hx. rewrite rd_value_item. erewrite rep_item_some by done.
  unfold val_of. by rewrite Hx.
Qed.

Lemma rep_elem h a l al i : rep h a -> a_lists a !! l = Some al -> i ∈ al_items al ->
  exists x, a_items a !! i = Some x /\ ai_container x = Some l.
Proof.
  intros Hrep Hal Hi. erewrite <- items_of_some in Hi by done.
  apply (awf_mem _ (rep_wf _ _ Hrep)) in Hi. unfold cont_of in Hi.
  destruct (a_items a !! i) eqn:E; simplify_eq/=. eauto.
Qed.

Lemma rep_size h a : rep h a -> size (a_items a) = size (h_items h).
Proof.
  intros Hrep. rewrite <- !(size_dom (D := gset item)). f_equal. apply set_eq. intros i.
  rewrite !elem_of_dom. pose proof (rep_items _ _ Hrep i) as E. unfold rd_item in E.
  destruct (a_items a !! i), (h_items h !! i); simplify_eq/=; naive_solver.
Qed.

(** The loop of vListInsert stops at the insertion position. *)
Lemma vListInsert_loop_spec h a l al v i rest : forall pre fuel,
  rep h a -> a_lists a !! l = Some al -> al_items al = pre ++ rest -> v < portMAX_DELAY ->
  (length rest <= fuel)%nat ->
  wp (vListInsert_loop fuel v (node_of l (last pre))) (fun n h' => h' = h /\
    exists xs1 xs2, al_items al = xs1 ++ xs2 /\ n = node_of l (last xs1) /\
      pre ++ insert_sorted (val_of a) v i rest = xs1 ++ i :: xs2) h.
Proof.
  induction rest as [|y rest IH]; intros pre fuel Hrep Hal Hxs Hv Hfuel;
    destruct (rep_neighbours _ _ _ _ _ _ Hrep Hal Hxs) as [Hn _];
    destruct (rep_lists _ _ Hrep _ _ Hal) as (_ & Hmax & _).
  - assert (Hend : wp (vListInsert_loop fuel v (node_of l (last pre)))
                     (fun n h' => n = node_of l (last pre) /\ h' = h) h).
    { destruct fuel; simpl; do 4 wstep; destruct (Z.leb_spec portMAX_DELAY v); [lia|by apply wp_ret|
        lia|by apply wp_ret]. }
    eapply wp_mono; [exact Hend|]. intros ?? [-> ->]. split; [done|].
    exists pre, []. by rewrite Hxs.
  - destruct (rep_elem _ _ _ _ y Hrep Hal) as (x & Hx & _); [rewrite Hxs; set_solver|].
    pose proof (rep_value _ _ _ _ Hrep Hx) as Hval.
    destruct fuel as [|fuel]; simpl in Hfuel; [lia|]. simpl. do 4 wstep. simpl.
    destruct (Z.leb_spec (val_of a y) v).
    + specialize (IH (pre ++ [y]) fuel). rewrite last_snoc in IH.
      eapply wp_mono; [apply IH; try done; [by rewrite <- (assoc_L (++))|lia]|].
      intros ?? [-> (xs1 & xs2 & ? & ? & E)]. rewrite <- (assoc_L (++)) in E. eauto 10.
    + apply wp_ret. split; [done|]. exists pre, (y :: rest). by rewrite Hxs.
Qed.

Lemma vListInsert_sim l i : sim rep (vListInsert l i) (aInsert l i).
Proof.
  apply sim_by_wp. intros h a [] a' Hrep Hm. unfold aInsert in Hm.
  unfold mbind at 1, M_bind at 1, a_rd_item at 1 in Hm. destruct (a_items a !! i) as [x'|] eqn:Hx'; [|done].
  case_decide as Hle; [|done]. apply aLink_inv in Hm as (x & al & Hx & Hal & Hc & ->).
  rewrite Hx in Hx'. injection Hx' as <-. pose proof (rep_value _ _ _ _ Hrep Hx) as Hv.
  assert (val_of a i = ai_value x) as Hval by (unfold val_of; by rewrite Hx). rewrite Hval in Hv.
  destruct (rep_lists _ _ Hrep _ _ Hal) as (Hl & _ & Hring).
  assert (Hpos : wp (if ai_value x =? portMAX_DELAY then get_prev (NEnd l)
     else fuel ← gets (fun h => size (h_items h)); vListInsert_loop fuel (ai_value x) (NEnd l))
     (fun n h' => h' = h /\ exists xs1 xs2, al_items al = xs1 ++ xs2 /\ n = node_of l (last xs1) /\
       (if ai_value x =? portMAX_DELAY then al_items al ++ [i]
        else insert_sorted (val_of a) (ai_value x) i (al_items al)) = xs1 ++ i :: xs2) h).
  { destruct (Z.eqb_spec (ai_value x) portMAX_DELAY).
    - destruct (Hring None I) as [_ Hp]. simpl in Hp. wstep. split; [done|].
      exists (al_items al), []. by rewrite app_nil_r.
    - do 2 wstep. eapply (vListInsert_loop_spec h a l al _ i (al_items al) []); try done; [lia|].
      pose proof (list_length_bound a l (rep_wf _ _ Hrep)) as Hb. rewrite (items_of_some _ _ _ Hal) in Hb.
      replace (size (h_items h)) with (size (a_items a)) by (by apply rep_size). lia. }
  unfold vListInsert. do 2 wstep. apply wp_bind. eapply wp_mono; [exact Hpos|].
  intros n ? [-> (xs1 & xs2 & Hxs & -> & Hins)]. 
  destruct (rep_neighbours _ _ _ _ _ _ Hrep Hal Hxs) as [Hn Hp].
  destruct (insertion_context _ _ _ _ _ _ _ _ Hrep Hx Hal Hc Hxs) as ([? Hin]&[? Hip]&Hi&Hpi&Hqi).
  repeat wstep. split; [done|]. rewrite Hins.
  eapply linked_rep; try done. by eapply (link_sorted_linked h l _ i _ (_, _)).
Qed.
(** The writes of uxListRemove unlink the item. *)
Lemma unlink_unlinked h l p i q c :
  rd_next h p = Some (NItem i) -> rd_prev h q = Some (NItem i) ->
  rd_next h (NItem i) = Some q -> rd_prev h (NItem i) = Some p -> p <> NItem i -> q <> NItem i ->
  rd_list h l = Some c ->
  unlinked h (upd_count l (c.1 -u 1) (upd_container i None
    ((if decide (c.2 = NItem i) then upd_index l p else fun h => h)
      (upd_next p q (upd_prev q p h))))) l p i q.
Proof.
  intros Hn Hp Hin Hip Hpi Hqi Hc.
  split; intros; destruct (decide (c.2 = NItem i)) as [Ec|Ec]; autorewrite with lh;
    repeat case_decide; simplify_eq; try done; rewrite ?Hn, ?Hp, ?Hc; try done; simpl;
    by repeat case_decide.
Qed.

Lemma aRemove_inv i a r a' :
  awf a -> aRemove i a = Some (r, a') ->
  exists x l al xs1 xs2, a_items a !! i = Some x /\ a_lists a !! l = Some al /\
    ai_container x = Some l /\ al_items al = xs1 ++ i :: xs2 /\ NoDup (xs1 ++ i :: xs2) /\
    r = Z.of_nat (length (xs1 ++ xs2)) /\ a' = take_out a l i x al.
Proof.
  intros Hwf Hm. unfold aRemove, mbind, M_bind, a_rd_item, a_rd_list, lift_opt, a_put_item, a_put_list,
    modify, mret, M_ret in Hm.
  destruct (a_items a !! i) as [x|] eqn:Hx; [|done].
  destruct (ai_container x) as [l|] eqn:Hc; [|done].
  destruct (a_lists a !! l) as [al|] eqn:Hal; [|done].
  assert (Hi : i ∈ items_of a l) by (apply (awf_mem _ Hwf); unfold cont_of; by rewrite Hx).
  pose proof (awf_nodup _ Hwf l) as Hnd. rewrite (items_of_some _ _ _ Hal) in Hi, Hnd.
  apply list_elem_of_split in Hi as (xs1 & xs2 & Hxs). exists x, l, al, xs1, xs2.
  rewrite Hxs in *. simpl in Hm. rewrite drop_elem_split in Hm by done. simplify_eq/=.
  split_and!; try done. unfold take_out. by rewrite Hxs, drop_elem_split.
Qed.

(** The neighbours of an item of a represented list. *)
Lemma removal_context h a l al i xs1 xs2 :
  rep h a -> a_lists a !! l = Some al -> al_items al = xs1 ++ i :: xs2 ->
  NoDup (xs1 ++ i :: xs2) ->
  rd_next h (node_of l (last xs1)) = Some (NItem i) /\
  rd_prev h (node_of l (head xs2)) = Some (NItem i) /\
  rd_next h (NItem i) = Some (node_of l (head xs2)) /\
  rd_prev h (NItem i) = Some (node_of l (last xs1)) /\
  node_of l (last xs1) <> NItem i /\ node_of l (head xs2) <> NItem i.
Proof.
  intros Hrep Hal Hxs [Hi1 Hi2]%NoDup_notin_app.
  pose proof (rep_neighbours _ _ _ _ _ _ Hrep Hal Hxs) as [Hn Hip].
  rewrite (assoc_L (++) xs1 [i] xs2 : xs1 ++ i :: xs2 = _) in Hxs.
  pose proof (rep_neighbours _ _ _ _ _ _ Hrep Hal Hxs) as [Hin Hp]. rewrite last_snoc in Hin, Hp.
  split_and!; try done.
  - destruct (last xs1) eqn:E; simpl; [|done]. apply last_Some_elem_of in E. congruence.
  - destruct xs2; simpl; [done|]. intros [= ->]. set_solver.
Qed.

Lemma uxListRemove_sim i : sim rep (uxListRemove i) (aRemove i).
Proof.
  apply sim_by_wp. intros h a r a' Hrep Hm.
  apply aRemove_inv in Hm as (x & l & al & xs1 & xs2 & Hx & Hal & Hc & Hxs & Hnd & -> & ->);
    [|apply Hrep].
  destruct (removal_context _ _ _ _ _ _ _ Hrep Hal Hxs Hnd) as (Hn & Hp & Hin & Hip & Hpi & Hqi).
  pose proof (rep_item_some _ _ _ _ Hrep Hx) as Hi.
  destruct (rep_lists _ _ Hrep _ _ Hal) as (Hl & _ & _).
  pose proof (unlink_unlinked h l _ i _ _ Hn Hp Hin Hip Hpi Hqi Hl) as Hul. simpl in Hul.
  pose proof (unlinked_rep _ _ _ _ _ _ _ _ _ Hrep Hal Hx Hc Hxs Hul) as Hrep'. clear Hul.
  assert (Hlen : Z.of_nat (length (al_items al)) -u 1 = Z.of_nat (length (xs1 ++ xs2))).
  { destruct (rep_lists _ _ Hrep' l _ ltac:(apply lookup_insert_eq)) as (Hl' & _ & _).
    autorewrite with lh in Hl'. rewrite decide_True in Hl' by done. cbn [al_items] in Hl'.
    rewrite Hxs, drop_elem_split in * by done.
    destruct (rd_list _ l) in Hl'; simpl in Hl'; congruence. }
  unfold uxListRemove. do 2 wstep. wstep. eapply wp_lift_opt; [exact Hc|].
  destruct (decide (node_of l (al_index al) = NItem i)) as [E|E]; do 16 wstep; do 2 wstep; simpl.
  - rewrite decide_True by done. repeat wstep. done.
  - rewrite decide_False by done. repeat wstep. done.
Qed.

(** Reads and field updates. *)
Lemma rep_set_item h h' a i x x' :
  rep h a -> a_items a !! i = Some x -> ai_container x' = ai_container x ->
  (forall n, rd_next h' n = rd_next h n) -> (forall n, rd_prev h' n = rd_prev h n) ->
  (forall l, rd_value h' (NEnd l) = rd_value h (NEnd l)) -> (forall l, rd_list h' l = rd_list h l) ->
  (forall j, rd_item h' j = if decide (i = j) then Some (view x') else rd_item h j) ->
  rep h' (mkAheap (<[i := x']> (a_items a)) (a_lists a)).
Proof.
  intros Hrep Hx Hc Hn Hp Hv Hl Hi. pose proof (rep_wf _ _ Hrep) as Hwf. split.
  - assert (Hco : forall j, cont_of (mkAheap (<[i := x']> (a_items a)) (a_lists a)) j = cont_of a j).
    { intros j. unfold cont_of. simpl. rewrite lookup_insert. case_decide; [|done]. subst.
      by rewrite Hx. }
    split; intros.
    + rewrite Hco. apply (awf_mem _ Hwf).
    + apply (awf_nodup _ Hwf).
    + by apply (awf_index _ Hwf).
    + simpl. rewrite map_size_insert_Some by eauto. apply Hwf.
  - intros j. rewrite Hi. simpl. rewrite lookup_insert. case_decide; [done|]. apply Hrep.
  - intros l al Hal. destruct (rep_lists _ _ Hrep _ _ Hal) as (? & ? & Hring).
    split_and!; [by rewrite Hl|by rewrite Hv|]. intros o Ho. rewrite Hn, Hp. by apply Hring.
Qed.

(** [inv_abs] names what it finds by shape. *)
Ltac start_sim :=
  apply sim_by_wp; let Hm := fresh "Hm" in intros h a r a' Hrep Hm; inv_abs Hm;
  try match goal with H : a_items _ !! _ = Some _ |- _ =>
    pose proof (rep_item_some _ _ _ _ Hrep H); pose proof (rep_value _ _ _ _ Hrep H) end;
  try match goal with H : a_lists _ !! _ = Some _ |- _ =>
    destruct (rep_lists _ _ Hrep _ _ H) as (Hl & Hmax & Hring) end.

Lemma listSET_LIST_ITEM_VALUE_sim i v : sim rep (listSET_LIST_ITEM_VALUE i v) (aSetValue i v).
Proof.
  start_sim. repeat wstep. split; [done|].
  eapply rep_set_item; try done; intros; autorewrite with lh; try done.
  case_decide; [|done]. subst. by erewrite rep_item_some by done.
Qed.

Lemma listSET_LIST_ITEM_OWNER_sim i v : sim rep (listSET_LIST_ITEM_OWNER i v) (aSetOwner i v).
Proof.
  start_sim. repeat wstep. split; [done|].
  eapply rep_set_item; try done; intros; autorewrite with lh; try done.
  case_decide; [|done]. subst. by erewrite rep_item_some by done.
Qed.

Lemma vListInitialiseItem_sim i : sim rep (vListInitialiseItem i) (aInitialiseItem i).
Proof.
  start_sim. unfold vListInitialiseItem. repeat wstep. split; [done|].
  match goal with H : a_items ?a !! i = Some ?x |- _ =>
    replace a with (mkAheap (<[i := x]> (a_items a)) (a_lists a)) by
      (rewrite insert_id by done; by destruct a) end.
  eapply rep_set_item; try done; intros; autorewrite with lh; try done.
  destruct (decide (i = j)) as [<-|]; [|done].
  match goal with H : rd_item _ _ = _, Hc : ai_container _ = None |- _ =>
    rewrite H; unfold view; simpl; by rewrite Hc end.
Qed.

Lemma vListInitialise_sim l : sim rep (vListInitialise l) (aInitialise l).
Proof.
  start_sim. wstep. split; [done|]. pose proof (rep_wf _ _ Hrep) as Hwf.
  match goal with H : items_of ?a l = [] |- _ => rename a into aa; rename H into Hnil end.
  assert (Hit : forall l', items_of (mkAheap (a_items aa) (<[l := mkAlist [] None]> (a_lists aa))) l'
                  = items_of aa l').
  { intros l'. unfold items_of in *. simpl. destruct (decide (l = l')) as [<-|].
    - rewrite lookup_insert_eq. by rewrite Hnil.
    - by rewrite lookup_insert_ne. }
  split.
  - split; intros; rewrite ?Hit in *; try apply (awf_mem _ Hwf); try apply Hwf.
    unfold index_of in *. simpl in *. apply (awf_index _ Hwf).
    destruct (decide (l = l0)) as [<-|]; [by rewrite lookup_insert_eq in *|].
    by rewrite lookup_insert_ne in *.
  - intros j. unfold rd_item. simpl. apply (rep_items _ _ Hrep).
  - intros l' al'. simpl. destruct (decide (l = l')) as [<-|];
      [rewrite lookup_insert_eq|rewrite lookup_insert_ne by done]; intros; simplify_eq.
    + unfold rep_list, rd_list, rd_value. cbn [h_lists al_items al_index]. rewrite lookup_insert_eq. split_and!; [done|done|].
      intros [o|] Ho; simpl in Ho; [set_solver|]. unfold rd_next, rd_prev. simpl.
      by rewrite lookup_insert_eq.
    + destruct (rep_lists _ _ Hrep l' al') as (Hl & Hv & Hring); [done|].
      unfold rep_list, ring, rd_list, rd_value, rd_next, rd_prev in *. simpl.
      rewrite lookup_insert_ne by done. split_and!; [done|done|].
      intros o Ho. specialize (Hring o Ho). destruct o; simpl in *; [done|].
      by rewrite lookup_insert_ne.
Qed.

Lemma listGET_LIST_ITEM_VALUE_sim i : sim rep (listGET_LIST_ITEM_VALUE i) (aGetValue i).
Proof.
  start_sim. wstep. split; [|done]. unfold val_of. by simplify_option_eq.
Qed.
Lemma listGET_LIST_ITEM_OWNER_sim i : sim rep (listGET_LIST_ITEM_OWNER i) (aGetOwner i).
Proof. start_sim. wstep. done. Qed.
Lemma listLIST_ITEM_CONTAINER_sim i : sim rep (listLIST_ITEM_CONTAINER i) (aContainer i).
Proof. start_sim. wstep. done. Qed.
Lemma listCURRENT_LIST_LENGTH_sim l : sim rep (listCURRENT_LIST_LENGTH l) (aLength l).
Proof. start_sim. wstep. done. Qed.
Lemma listGET_HEAD_ENTRY_sim l : sim rep (listGET_HEAD_ENTRY l) (aHeadEntry l).
Proof. start_sim. destruct (Hring None I) as [Hn _]. by wstep. Qed.

Lemma listGET_ITEM_VALUE_OF_HEAD_ENTRY_sim l :
  sim rep (listGET_ITEM_VALUE_OF_HEAD_ENTRY l) (aHeadValue l).
Proof.
  start_sim; destruct (Hring None I) as [Hn _]; simpl in Hn;
    match goal with H : al_items _ = _ |- _ => rewrite H in Hn; simpl in Hn end;
    do 2 wstep; [by wstep|].
  destruct (listGET_LIST_ITEM_VALUE_sim _ _ _ _ _ Hrep Hm) as (h' & ? & ?). by eexists r, h'.
Qed.

Lemma listGET_OWNER_OF_HEAD_ENTRY_sim l :
  sim rep (listGET_OWNER_OF_HEAD_ENTRY l) (aHeadOwner l).
Proof.
  start_sim; destruct (Hring None I) as [Hn _]; simpl in Hn;
    match goal with H : al_items _ = _ |- _ => rewrite H in Hn; simpl in Hn end.
  do 2 wstep. destruct (listGET_LIST_ITEM_OWNER_sim _ _ _ _ _ Hrep Hm) as (h' & ? & ?).
  by eexists r, h'.
Qed.

Lemma listGET_NEXT_sim n : sim rep (listGET_NEXT n) (aNext n).
Proof.
  destruct n as [i|l]; [|apply listGET_HEAD_ENTRY_sim].
  start_sim. match goal with H : a_items ?a !! i = Some ?x, H' : ai_container ?x = Some ?l |- _ =>
    assert (Hi : i ∈ items_of a l) by (apply (awf_mem _ (rep_wf _ _ Hrep)); unfold cont_of; by rewrite H) end.
  erewrite items_of_some in Hi by done. destruct (Hring (Some i) Hi) as [Hn _]. by wstep.
Qed.

(** Moving the cursor. *)
Lemma rep_set_index h h' a l al i :
  rep h a -> a_lists a !! l = Some al -> i ∈ al_items al ->
  (forall n, rd_next h' n = rd_next h n) -> (forall n, rd_prev h' n = rd_prev h n) ->
  (forall n, rd_value h' n = rd_value h n) -> (forall j, rd_item h' j = rd_item h j) ->
  (forall l', rd_list h' l' = if decide (l = l') then (fun x => (x.1, NItem i)) <$> rd_list h l'
                              else rd_list h l') ->
  rep h' (mkAheap (a_items a) (<[l := mkAlist (al_items al) (Some i)]> (a_lists a))).
Proof.
  intros Hrep Hal Hi Hn Hp Hv Hit Hl. pose proof (rep_wf _ _ Hrep) as Hwf. split.
  - assert (Hio : forall l', items_of (mkAheap (a_items a)
      (<[l := mkAlist (al_items al) (Some i)]> (a_lists a))) l' = items_of a l').
    { intros l'. unfold items_of. simpl. rewrite lookup_insert. case_decide; [|done].
      subst. by rewrite Hal. }
    split; intros; rewrite ?Hio in *.
    + apply (awf_mem _ Hwf).
    + apply (awf_nodup _ Hwf).
    + unfold index_of in *. simpl in *. rewrite lookup_insert in *. case_decide; simplify_eq/=.
      * by erewrite items_of_some.
      * by apply (awf_index _ Hwf).
    + apply (awf_size _ Hwf).
  - intros j. rewrite Hit. apply (rep_items _ _ Hrep).
  - intros l' al'. simpl. rewrite lookup_insert. case_decide; intros; simplify_eq.
    + destruct (rep_lists _ _ Hrep _ _ Hal) as (E & ? & Hring).
      split_and!; [by rewrite Hl, decide_True, E|by rewrite Hv|].
      intros o Ho. rewrite Hn, Hp. by apply Hring.
    + destruct (rep_lists _ _ Hrep l' al') as (? & ? & Hring); [done|].
      split_and!; [by rewrite Hl, decide_False|by rewrite Hv|].
      intros o Ho. rewrite Hn, Hp. by apply Hring.
Qed.

Lemma aNextOwner_inv l a r a' :
  awf a -> aNextOwner l a = Some (r, a') ->
  exists al i x, a_lists a !! l = Some al /\ cursor_next (al_index al) (al_items al) = Some i /\
    in_ring (al_index al) (al_items al) /\ i ∈ al_items al /\ a_items a !! i = Some x /\
    r = ai_owner x /\ a' = mkAheap (a_items a) (<[l := mkAlist (al_items al) (Some i)]> (a_lists a)).
Proof.
  intros Hwf Hm.
  unfold aNextOwner, aGetOwner, a_rd_list, a_rd_item, lift_opt, a_put_list, modify, mbind, M_bind,
    mret, M_ret in Hm.
  destruct (a_lists a !! l) as [al|] eqn:Hal; [|done].
  destruct (cursor_next (al_index al) (al_items al)) as [i|] eqn:Hi; [|done]. simpl in Hm.
  destruct (a_items a !! i) as [x|] eqn:Hx; [|done]. simplify_eq/=.
  exists al, i, x. split_and!; try done.
  - destruct (al_index al) as [j|] eqn:E; [|done]. simpl.
    erewrite <- items_of_some by done. apply (awf_index _ Hwf). unfold index_of. by rewrite Hal.
  - by eapply elem_of_cursor_next.
Qed.

Lemma listGET_OWNER_OF_NEXT_ENTRY_sim l : sim rep (listGET_OWNER_OF_NEXT_ENTRY l) (aNextOwner l).
Proof.
  apply sim_by_wp. intros h a r a' Hrep Hm.
  apply aNextOwner_inv in Hm as (al & i & x & Hal & Hcur & Hidx & Hi & Hx & -> & ->); [|apply Hrep].
  destruct (rep_lists _ _ Hrep _ _ Hal) as (Hl & _ & Hring).
  pose proof (rep_item_some _ _ _ _ Hrep Hx) as Hit.
  destruct (Hring _ Hidx) as [Hn _]. destruct (Hring None I) as [Hhd _]. simpl in Hhd.
  unfold listGET_OWNER_OF_NEXT_ENTRY. do 8 wstep.
  destruct (ring_succ (al_index al) (al_items al)) as [y|] eqn:Hs; simpl.
  - assert (y = i) as -> by (unfold cursor_next in Hcur; destruct (al_index al); simplify_option_eq; done).
    repeat wstep. split; [done|].
    eapply rep_set_index; try done; intros; by autorewrite with lh.
  - assert (head (al_items al) = Some i) as Hd
      by (unfold cursor_next in Hcur; destruct (al_index al); simplify_option_eq; done).
    rewrite Hd in Hhd. simpl in Hhd.
    do 2 wstep. simpl. rewrite decide_True by done. repeat wstep. split; [done|].
    eapply rep_set_index; try done; intros; autorewrite with lh; try done.
    case_decide; [|done]. subst. by rewrite Hl.
Qed.

(** Allocation and release of list items and lists. *)
Lemma alloc_item_sim i : sim rep (alloc_item i) (aAllocItem i).
Proof.
  apply sim_by_wp. intros h a r a' Hrep Hm. unfold aAllocItem in Hm.
  case_decide as Hd; [|done]. destruct Hd as [Hc Hs]. unfold a_put_item, modify in Hm. simplify_eq.
  apply wp_modify. split; [done|]. pose proof (rep_wf _ _ Hrep) as Hwf. split.
  - split; intros; simpl.
    + change (i0 ∈ items_of a l <-> cont_of (mkAheap (<[i := mkAitem 0 0 None]> (a_items a)) (a_lists a)) i0
        = Some l). rewrite (awf_mem _ Hwf). unfold cont_of in *. simpl.
      rewrite lookup_insert. case_decide; subst; [|done]. by rewrite Hc.
    + apply (awf_nodup _ Hwf).
    + by apply (awf_index _ Hwf).
    + destruct (a_items a !! i) eqn:E; [rewrite map_size_insert_Some by eauto; lia|].
      rewrite map_size_insert_None by done. lia.
  - intros j. unfold rd_item. simpl. rewrite !lookup_insert. case_decide; [done|]. apply Hrep.
  - intros l al Hal. simpl in Hal. destruct (rep_lists _ _ Hrep l al Hal) as (? & ? & Hring).
    split_and!; [done|done|]. intros o Ho. destruct (Hring o Ho) as [E1 E2].
    unfold rd_next, rd_prev in *. destruct o as [j|]; simpl in *; [|done].
    rewrite lookup_insert_ne; [done|]. intros ->. erewrite <- items_of_some in Ho by done.
    apply (awf_mem _ Hwf) in Ho. congruence.
Qed.

Lemma free_item_sim i : sim rep (free_item i) (aFreeItem i).
Proof.
  apply sim_by_wp. intros h a r a' Hrep Hm. unfold aFreeItem in Hm.
  case_decide as Hc; [|done]. simplify_eq.
  apply wp_modify. split; [done|]. pose proof (rep_wf _ _ Hrep) as Hwf. split.
  - split; intros; simpl.
    + change (i0 ∈ items_of a l <-> cont_of (mkAheap (delete i (a_items a)) (a_lists a)) i0 = Some l).
      rewrite (awf_mem _ Hwf). unfold cont_of in *. simpl.
      rewrite lookup_delete. case_decide; subst; [|done]. by rewrite Hc.
    + apply (awf_nodup _ Hwf).
    + by apply (awf_index _ Hwf).
    + pose proof (awf_size _ Hwf).
      pose proof (map_subseteq_size _ _ (delete_subseteq (a_items a) i)). lia.
  - intros j. unfold rd_item. simpl. rewrite !lookup_delete. case_decide; [done|]. apply Hrep.
  - intros l al Hal. simpl in Hal. destruct (rep_lists _ _ Hrep l al Hal) as (? & ? & Hring).
    split_and!; [done|done|]. intros o Ho. destruct (Hring o Ho) as [E1 E2].
    unfold rd_next, rd_prev in *. destruct o as [j|]; simpl in *; [|done].
    rewrite lookup_delete_ne; [done|]. intros ->. erewrite <- items_of_some in Ho by done.
    apply (awf_mem _ Hwf) in Ho. congruence.
Qed.

Lemma free_list_sim l : sim rep (free_list l) (aFreeList l).
Proof.
  apply sim_by_wp. intros h a r a' Hrep Hm. unfold aFreeList in Hm.
  case_decide as Hc; [|done]. simplify_eq.
  apply wp_modify. split; [done|]. pose proof (rep_wf _ _ Hrep) as Hwf.
  assert (Hio : forall l', items_of (mkAheap (a_items a) (delete l (a_lists a))) l' = items_of a l').
  { intros l'. unfold items_of in *. simpl. destruct (decide (l = l')) as [<-|].
    - rewrite lookup_delete_eq. by rewrite Hc.
    - by rewrite lookup_delete_ne. }
  split.
  - split; intros; rewrite ?Hio.
    + apply (awf_mem _ Hwf).
    + apply (awf_nodup _ Hwf).
    + apply (awf_index _ Hwf). unfold index_of in *. simpl in *.
      destruct (decide (l = l0)) as [<-|]; [by rewrite lookup_delete_eq in *|].
      by rewrite lookup_delete_ne in *.
    + apply Hwf.
  - intros j. unfold rd_item. simpl. apply Hrep.
  - intros l' al. simpl. rewrite lookup_delete_Some. intros [Hne Hal].
    destruct (rep_lists _ _ Hrep l' al Hal) as (E1 & E2 & Hring).
    unfold rep_list, rd_list, rd_value in *. simpl. rewrite lookup_delete_ne by done.
    split_and!; [done|done|]. intros o Ho. destruct (Hring o Ho) as [E3 E4].
    unfold rd_next, rd_prev in *. destruct o as [j|]; simpl in *; [done|].
    by rewrite lookup_delete_ne.
Qed.

(** list.c and list.h refine the abstract lists. *)
#[export] Instance list_c_refines : ListRefines (item := item) (list_id := list_id) rep.
Proof.
  split; intros; simpl.
  - apply vListInitialise_sim.
  - apply vListInitialiseItem_sim.
  - apply vListInsertEnd_sim.
  - apply vListInsert_sim.
  - apply uxListRemove_sim.
  - apply listSET_LIST_ITEM_OWNER_sim.
  - apply listGET_LIST_ITEM_OWNER_sim.
  - apply listSET_LIST_ITEM_VALUE_sim.
  - apply listGET_LIST_ITEM_VALUE_sim.
  - apply listLIST_ITEM_CONTAINER_sim.
  - apply listCURRENT_LIST_LENGTH_sim.
  - apply listGET_ITEM_VALUE_OF_HEAD_ENTRY_sim.
  - apply listGET_OWNER_OF_HEAD_ENTRY_sim.
  - apply listGET_HEAD_ENTRY_sim.
  - apply listGET_NEXT_sim.
  - apply listGET_OWNER_OF_NEXT_ENTRY_sim.
  - apply alloc_item_sim.
  - apply free_item_sim.
  - apply free_list_sim.
Qed.

End Refinement.
