(* ===== verification/ListObs.v ===== *)
(** * What the abstract list operations do, in terms of observations

    The clients of the lists reason with the contents of each list, the
    container, value and owner of each item, and the cursors.  For each
    operation: it succeeds under its contract, and this is what can be
    observed afterwards. *)

From S2P Require Import Prelude Config ListC ListSpec ListRefine.

Section Observations.
Context {item list_id : Type}.
Context `{!EqDecision item, !Countable item, !EqDecision list_id, !Countable list_id}.
Notation aheap := (aheap item list_id).
Implicit Types (a : aheap) (i j : item) (l : list_id) (xs : list item).

(** The item [i] is now in [c], the list [l] now holds [xs]; the rest is as
    before. *)
Record moved (a a' : aheap) (i : item) (l : list_id) (c : option list_id) (xs : list item) : Prop := {
  mv_wf : awf a';
  mv_items l' : items_of a' l' = if decide (l' = l) then xs else items_of a l';
  mv_cont j : cont_of a' j = if decide (j = i) then c else cont_of a j;
  mv_val j : val_of a' j = val_of a j;
  mv_owner j : owner_of a' j = owner_of a j;
  mv_dom j : is_Some (a_items a' !! j) <-> is_Some (a_items a !! j);
  mv_lists l' : is_Some (a_lists a' !! l') <-> is_Some (a_lists a !! l');
  mv_index l' : l' <> l -> index_of a' l' = index_of a l'
}.

Lemma is_Some_insert_same `{Countable K} {A} (m : gmap K A) (k : K) x (k2 : K) :
  is_Some (m !! k) -> is_Some (<[k := x]> m !! k2) <-> is_Some (m !! k2).
Proof. intros Hk. rewrite lookup_insert. case_decide; subst; [|done]. split; eauto. Qed.

Lemma put_moved a i x c l al xs idx :
  a_items a !! i = Some x -> a_lists a !! l = Some al ->
  let a' := mkAheap (<[i := mkAitem (ai_value x) (ai_owner x) c]> (a_items a))
                    (<[l := mkAlist xs idx]> (a_lists a)) in
  awf a' -> moved a a' i l c xs /\ index_of a' l = idx.
Proof.
  intros Hx Hal a' Hwf.
  assert (Hl : forall l', a_lists a' !! l' = if decide (l' = l) then Some (mkAlist xs idx) else a_lists a !! l').
  { intros l'. subst a'. simpl. rewrite lookup_insert. repeat case_decide; congruence. }
  assert (Hi : forall j, a_items a' !! j = if decide (j = i) then Some (mkAitem (ai_value x) (ai_owner x) c)
                                           else a_items a !! j).
  { intros j. subst a'. simpl. rewrite lookup_insert. repeat case_decide; congruence. }
  split; [split|]; try done.
  - intros l'. unfold items_of. rewrite Hl. by case_decide.
  - intros j. unfold cont_of. rewrite Hi. by case_decide.
  - intros j. unfold val_of. rewrite Hi. case_decide; subst; [|done]. by rewrite Hx.
  - intros j. unfold owner_of. rewrite Hi. case_decide; subst; [|done]. by rewrite Hx.
  - intros j. apply is_Some_insert_same; eauto.
  - intros l'. apply is_Some_insert_same; eauto.
  - intros l' Hne. unfold index_of. rewrite Hl. by rewrite decide_False.
  - unfold index_of. rewrite Hl. by rewrite decide_True.
Qed.

Lemma cont_of_some a i l : cont_of a i = Some l -> exists x, a_items a !! i = Some x /\ ai_container x = Some l.
Proof. unfold cont_of. destruct (a_items a !! i); simpl; [eauto|done]. Qed.

Lemma items_of_exists a i l : i ∈ items_of a l -> exists al, a_lists a !! l = Some al /\ items_of a l = al_items al.
Proof. unfold items_of. destruct (a_lists a !! l); simpl; [eauto|set_solver]. Qed.

Lemma aRemove_run a i l : awf a -> cont_of a i = Some l ->
  exists a', aRemove i a = Some (Z.of_nat (length (drop_elem i (items_of a l))), a') /\
    moved a a' i l None (drop_elem i (items_of a l)) /\
    index_of a' l = if decide (index_of a l = Some i) then pred_of None i (items_of a l) else index_of a l.
Proof.
  intros Hwf Hc. apply cont_of_some in Hc as Hx. destruct Hx as (x & Hx & Hcx).
  apply (awf_mem _ Hwf) in Hc. pose proof (items_of_exists _ _ _ Hc) as (al & Hal & E).
  exists (take_out a l i x al). rewrite E in *.
  assert (Hidx : index_of a l = al_index al) by (unfold index_of; by rewrite Hal). rewrite Hidx.
  split.
  - unfold aRemove, a_rd_item, a_rd_list, a_put_item, a_put_list, mbind, M_bind, lift_opt, modify.
    rewrite Hx, Hcx, Hal. done.
  - apply (put_moved _ _ _ _ _ al); [done|done|]. apply list_elem_of_split in Hc as (xs1 & xs2 & Hxs).
    by eapply take_out_wf.
Qed.

Lemma aLink_run a l i f xs1 xs2 al :
  awf a -> is_Some (a_items a !! i) -> cont_of a i = None -> a_lists a !! l = Some al ->
  al_items al = xs1 ++ xs2 -> f a al = xs1 ++ i :: xs2 ->
  exists a', aLink l i f a = Some (tt, a') /\ moved a a' i l (Some l) (xs1 ++ i :: xs2) /\
    index_of a' l = index_of a l.
Proof.
  intros Hwf [x Hx] Hc Hal Hxs Hf. unfold cont_of in Hc. rewrite Hx in Hc. simpl in Hc.
  exists (put_in a l i x al (xs1 ++ i :: xs2)). split.
  - unfold aLink, a_rd_item, a_rd_list, a_put_item, a_put_list, mbind, M_bind, modify, get.
    rewrite Hx, Hal, decide_True by done. simpl. by rewrite Hf.
  - replace (index_of a l) with (al_index al) by (unfold index_of; by rewrite Hal).
    apply (put_moved _ _ _ _ _ al); [done|done|]. by apply put_in_wf.
Qed.

Lemma aInsertEnd_run a i l :
  awf a -> is_Some (a_items a !! i) -> cont_of a i = None -> is_Some (a_lists a !! l) ->
  exists a' xs1 xs2, aInsertEnd l i a = Some (tt, a') /\ items_of a l = xs1 ++ xs2 /\
    index_of a l = head xs2 /\ moved a a' i l (Some l) (xs1 ++ i :: xs2) /\ index_of a' l = index_of a l.
Proof.
  intros Hwf Hi Hc [al Hal]. destruct (insert_end_position a l al i Hwf Hal) as (xs1 & xs2 & Hxs & Hidx & Hf).
  destruct (aLink_run a l i (fun _ al => match al_index al with
    | None => al_items al ++ [i] | Some j => insert_before j i (al_items al) end) xs1 xs2 al)
    as (a' & Hrun & Hmv & E); try done.
  exists a', xs1, xs2. rewrite (items_of_some _ _ _ Hal). split_and!; try done.
  unfold index_of. by rewrite Hal.
Qed.

Lemma insert_sorted_all (val : item -> Z) v i xs :
  Forall (fun z => val z <= v) xs -> insert_sorted val v i xs = xs ++ [i].
Proof.
  induction 1 as [|z zs Hz _ IH]; simpl; [done|]. rewrite (proj2 (Z.leb_le _ _)) by done. by f_equal.
Qed.

Lemma aInsert_run a i l :
  awf a -> is_Some (a_items a !! i) -> cont_of a i = None -> is_Some (a_lists a !! l) ->
  val_of a i <= portMAX_DELAY -> Forall (fun j => val_of a j <= portMAX_DELAY) (items_of a l) ->
  exists a', aInsert l i a = Some (tt, a') /\
    moved a a' i l (Some l) (insert_sorted (val_of a) (val_of a i) i (items_of a l)) /\
    index_of a' l = index_of a l.
Proof.
  intros Hwf Hi Hc [al Hal] Hv Hall. rewrite (items_of_some _ _ _ Hal) in *.
  assert (exists x, a_items a !! i = Some x) as [x Hx] by (destruct Hi; eauto).
  assert (Ev : val_of a i = ai_value x) by (unfold val_of; by rewrite Hx). rewrite Ev in *.
  destruct (insert_sorted_split (val_of a) (ai_value x) i (al_items al)) as (xs1 & xs2 & Hxs & E & _ & _).
  destruct (aLink_run a l i (fun a al =>
      if ai_value x =? portMAX_DELAY then al_items al ++ [i]
      else insert_sorted (val_of a) (ai_value x) i (al_items al)) xs1 xs2 al) as (a' & Hrun & Hmv & Hidx); try done.
  { rewrite <- E. destruct (Z.eqb_spec (ai_value x) portMAX_DELAY) as [E'|]; [|done].
    symmetry. apply insert_sorted_all. by rewrite E'. }
  exists a'. rewrite E. split_and!; try done.
  unfold aInsert, a_rd_item, mbind, M_bind. rewrite Hx, decide_True by done. exact Hrun.
Qed.

(** Only the value of [i] changes. *)
Lemma aSetValue_run a i v : awf a -> is_Some (a_items a !! i) ->
  exists a', aSetValue i v a = Some (tt, a') /\ awf a' /\
    (forall l, items_of a' l = items_of a l) /\ (forall j, cont_of a' j = cont_of a j) /\
    (forall j, val_of a' j = if decide (j = i) then v else val_of a j) /\
    (forall j, owner_of a' j = owner_of a j) /\
    (forall j, is_Some (a_items a' !! j) <-> is_Some (a_items a !! j)) /\ a_lists a' = a_lists a.
Proof.
  intros Hwf [x Hx].
  exists (mkAheap (<[i := mkAitem v (ai_owner x) (ai_container x)]> (a_items a)) (a_lists a)).
  assert (Hc : forall j, cont_of (mkAheap (<[i := mkAitem v (ai_owner x) (ai_container x)]> (a_items a))
      (a_lists a)) j = cont_of a j).
  { intros j. unfold cont_of. simpl. rewrite lookup_insert. case_decide; subst; [by rewrite Hx|done]. }
  split_and!; try done.
  - unfold aSetValue, a_rd_item, mbind, M_bind. by rewrite Hx.
  - destruct Hwf as [Hm Hn Hi Hs]. split; try done; simpl.
    + intros j l. rewrite Hc. apply Hm.
    + by rewrite map_size_insert_Some by eauto.
  - intros j. unfold val_of. simpl. rewrite lookup_insert. repeat case_decide; congruence || done.
  - intros j. unfold owner_of. simpl. rewrite lookup_insert. case_decide; subst; [by rewrite Hx|done].
  - intros j. simpl. apply is_Some_insert_same. eauto.
Qed.

(** The cursor advances, and the owner of the item it stops at is returned. *)
Lemma aNextOwner_run a l i : awf a -> cursor_next (index_of a l) (items_of a l) = Some i ->
  exists a', aNextOwner l a = Some (owner_of a i, a') /\ awf a' /\
    (forall l', items_of a' l' = items_of a l') /\ a_items a' = a_items a /\
    (forall l', is_Some (a_lists a' !! l') <-> is_Some (a_lists a !! l')) /\
    index_of a' l = Some i /\ (forall l', l' <> l -> index_of a' l' = index_of a l').
Proof.
  intros Hwf Hcur. pose proof (elem_of_cursor_next _ _ _ Hcur) as Hin.
  pose proof (items_of_exists _ _ _ Hin) as (al & Hal & E).
  assert (Hidx : index_of a l = al_index al) by (unfold index_of; by rewrite Hal).
  rewrite E, Hidx in Hcur.
  pose proof (proj1 (awf_mem _ Hwf _ _) Hin) as (x & Hx & _)%cont_of_some.
  set (a' := mkAheap (a_items a) (<[l := mkAlist (al_items al) (Some i)]> (a_lists a))).
  assert (Hl : forall l', a_lists a' !! l' = if decide (l' = l) then Some (mkAlist (al_items al) (Some i))
                                             else a_lists a !! l').
  { intros l'. subst a'. simpl. rewrite lookup_insert. repeat case_decide; congruence. }
  assert (Hit : forall l', items_of a' l' = items_of a l').
  { intros l'. unfold items_of. rewrite Hl. case_decide; subst; [by rewrite Hal|done]. }
  exists a'. split_and!; try done.
  - unfold aNextOwner, a_rd_list, aGetOwner, a_rd_item, a_put_list, lift_opt, modify, mbind, M_bind.
    rewrite Hal, Hcur. simpl. rewrite Hx. unfold owner_of. by rewrite Hx.
  - destruct Hwf as [Hm Hn Hi Hs]. split; try done.
    + intros j l'. rewrite Hit. apply Hm.
    + intros l'. rewrite Hit. apply Hn.
    + intros l' j. rewrite Hit. unfold index_of. rewrite Hl. case_decide; subst; simpl.
      * intros [= <-]. done.
      * apply Hi.
  - intros l'. apply is_Some_insert_same. eauto.
  - unfold index_of. rewrite Hl. by rewrite decide_True.
  - intros l' Hne. unfold index_of. rewrite Hl. by rewrite decide_False.
Qed.

End Observations.
