(* ===== verification/ListProps.v ===== *)
(** * Properties of list.c

    The order vListInsert keeps, the round trip of insertion and removal, and
    the turn-taking of listGET_OWNER_OF_NEXT_ENTRY, all on the pointer
    structures. *)

From S2P Require Import Prelude Simulation Config ListC ListSpec ListRefine ListObs.

Section ListProps.
Context {item list_id : Type}.
Context `{!EqDecision item, !Countable item, !EqDecision list_id, !Countable list_id}.
Notation lheap := (lheap item list_id).
Notation aheap := (aheap item list_id).
Implicit Types (h : lheap) (a : aheap) (i j : item) (l : list_id) (xs ys : list item).

(** Values in increasing order. *)
Fixpoint sorted_by (val : item -> Z) (xs : list item) : Prop :=
  match xs with
  | [] => True
  | x :: xs' => Forall (fun y => val x <= val y) xs' /\ sorted_by val xs'
  end.

Lemma sorted_by_app val xs ys : sorted_by val (xs ++ ys) <->
  sorted_by val xs /\ sorted_by val ys /\ Forall (fun x => Forall (fun y => val x <= val y) ys) xs.
Proof.
  induction xs as [|x xs IH]; simpl; [naive_solver|].
  rewrite IH, Forall_app, Forall_cons. naive_solver.
Qed.

Lemma sorted_by_ext val val' xs : (forall x, x ∈ xs -> val x = val' x) ->
  sorted_by val xs -> sorted_by val' xs.
Proof.
  induction xs as [|x xs IH]; simpl; [done|]. intros He [H1 H2]. split; [|apply IH; [set_solver|done]].
  rewrite Forall_forall in *. intros y Hy. rewrite <- !He by set_solver. by apply H1.
Qed.

(** In a sorted list the new item goes behind all that do not exceed it. *)
Lemma insert_sorted_spec val v i xs : sorted_by val xs ->
  exists xs1 xs2, xs = xs1 ++ xs2 /\ insert_sorted val v i xs = xs1 ++ i :: xs2 /\
    Forall (fun z => val z <= v) xs1 /\ Forall (fun z => v < val z) xs2.
Proof.
  intros Hs. destruct (insert_sorted_split val v i xs) as (xs1 & xs2 & -> & E & H1 & H2).
  exists xs1, xs2. split_and!; try done.
  destruct xs2 as [|z zs]; [done|]. apply sorted_by_app in Hs as (_ & [Hz _] & _).
  constructor; [done|]. eapply Forall_impl; [exact Hz|]. simpl. lia.
Qed.

Lemma insert_sorted_sorted val i xs : sorted_by val xs -> sorted_by val (insert_sorted val (val i) i xs).
Proof.
  intros Hs. destruct (insert_sorted_spec val (val i) i xs Hs) as (xs1 & xs2 & -> & -> & H1 & H2).
  apply sorted_by_app in Hs as (S1 & S2 & S3). apply sorted_by_app. simpl. split_and!; try done.
  - eapply Forall_impl; [exact H2|]. simpl. lia.
  - rewrite Forall_forall in *. intros x Hx. constructor; [by apply H1|by apply S3].
Qed.

Lemma sorted_by_filter val (P : item -> Prop) `{!forall x, Decision (P x)} xs :
  sorted_by val xs -> sorted_by val (filter P xs).
Proof.
  induction xs as [|x xs IH]; [done|]. intros [H1 H2]. destruct (decide (P x)).
  - rewrite filter_cons_True by done. simpl. split; [|by apply IH].
    rewrite Forall_forall in *. intros y [_ Hy]%list_elem_of_filter. by apply H1.
  - rewrite filter_cons_False by done. by apply IH.
Qed.

Lemma sorted_by_drop val i xs : sorted_by val xs -> sorted_by val (drop_elem i xs).
Proof. apply sorted_by_filter. Qed.

(** ** Taking turns *)

Fixpoint turns {H} `{!ListOps item list_id H} (n : nat) (l : list_id) : M H (list Z) :=
  match n with
  | O => mret []
  | S n' => o ← loNextOwner l; os ← turns n' l; mret (o :: os)
  end.

Lemma turns_sim n l : sim rep (turns (H := lheap) n l) (turns (H := aheap) n l).
Proof.
  induction n as [|n IH]; simpl; intros h a os a' Hrep Hm.
  - injection Hm as <- <-. by exists h.
  - apply bind_inv in Hm as (o & a1 & Hm1 & Hm). apply bind_inv in Hm as (os' & a2 & Hm2 & Hm).
    destruct (listGET_OWNER_OF_NEXT_ENTRY_sim l _ _ _ _ Hrep Hm1) as (h1 & E1 & Hrep1).
    destruct (IH _ _ _ _ Hrep1 Hm2) as (h2 & E2 & Hrep2). inversion Hm; subst.
    exists h2. split; [|done]. rewrite (bind_run _ _ _ _ _ E1), (bind_run _ _ _ _ _ E2). done.
Qed.

(** The same heap but for the cursor of [l]. *)
Record same_but_index (a a' : aheap) (l : list_id) : Prop := {
  sbi_wf : awf a';
  sbi_list l' : items_of a' l' = items_of a l';
  sbi_heap : a_items a' = a_items a;
  sbi_index l' : l' <> l -> index_of a' l' = index_of a l'
}.

Lemma turns_segment l ys : forall pre post a,
  awf a -> items_of a l = pre ++ ys ++ post ->
  (ys <> [] -> cursor_next (index_of a l) (items_of a l) = head ys) ->
  exists a', turns (length ys) l a = Some (owner_of a <$> ys, a') /\ same_but_index a a' l /\
    index_of a' l = if decide (ys = []) then index_of a l else last ys.
Proof.
  induction ys as [|y ys IH]; intros pre post a Hwf Hl Hcur.
  { exists a. split; [done|]. split; [by split|done]. }
  destruct (aNextOwner_run a l y Hwf) as (a1 & E1 & Hwf1 & Hit1 & Hi1 & _ & Hidx1 & Hoth1).
  { by rewrite Hcur by done. }
  destruct (IH (pre ++ [y]) post a1 Hwf1) as (a2 & E2 & Hs2 & Hidx2).
  { rewrite Hit1, Hl, <- (assoc_L (++)). done. }
  { intros Hne. rewrite Hit1, Hl, Hidx1. simpl. pose proof (awf_nodup _ Hwf l) as Hnd.
    rewrite Hl in Hnd. simpl in Hnd. apply NoDup_notin_app in Hnd as [Hy _].
    rewrite succ_of_split by done. destruct ys; [done|]. done. }
  exists a2. split; [|split].
  - simpl. rewrite (bind_run _ _ _ _ _ E1), (bind_run _ _ _ _ _ E2).
    unfold owner_of. rewrite Hi1. done.
  - destruct Hs2 as [? H2 H3 H4]. split; [done| | |].
    + intros l'. by rewrite H2.
    + by rewrite H3.
    + intros l' Hne. rewrite H4 by done. by apply Hoth1.
  - rewrite Hidx2. case_decide; subst; simpl; [done|].
    by destruct ys.
Qed.

Lemma turns_app n1 n2 l (a : aheap) :
  turns (n1 + n2) l a = (os1 ← turns n1 l; os2 ← turns n2 l; mret (os1 ++ os2)) a.
Proof.
  revert a. induction n1 as [|n1 IH]; intros a; simpl.
  - unfold mbind, M_bind. simpl. by destruct (turns n2 l a) as [[? ?]|].
  - unfold mbind, M_bind. destruct (aNextOwner l a) as [[o a1]|]; [|done]. rewrite IH.
    unfold mbind, M_bind. destruct (turns n1 l a1) as [[os1 a2]|]; [|done]. simpl.
    by destruct (turns n2 l a2) as [[os2 a3]|].
Qed.

(** One full turn visits every item once, starting behind the cursor. *)
Lemma turns_full a l xs1 xs2 :
  awf a -> items_of a l = xs1 ++ xs2 -> index_of a l = last xs1 -> xs1 ++ xs2 <> [] ->
  exists a', turns (length (xs1 ++ xs2)) l a = Some (owner_of a <$> (xs2 ++ xs1), a') /\
    same_but_index a a' l.
Proof.
  intros Hwf Hl Hidx Hne. rewrite length_app, Nat.add_comm, turns_app.
  pose proof (awf_nodup _ Hwf l) as Hnd. rewrite Hl in Hnd.
  assert (Hc2 : xs2 <> [] -> cursor_next (index_of a l) (items_of a l) = head xs2).
  { intros Hx2. rewrite Hl, Hidx. pose proof (ring_succ_last _ _ Hnd) as Hs. unfold cursor_next.
    destruct (last xs1) as [x|] eqn:El; simpl in Hs.
    - rewrite Hs. by destruct xs2.
    - apply last_None in El as ->. done. }
  destruct (turns_segment l xs2 xs1 [] a Hwf) as (a1 & E1 & Hs1 & Hidx1); [by rewrite app_nil_r|done|].
  destruct Hs1 as [Hwf1 Hit1 Hi1 Ho1].
  destruct (turns_segment l xs1 [] xs2 a1 Hwf1) as (a2 & E2 & Hs2 & _).
  { by rewrite Hit1. }
  { intros Hx1. rewrite Hit1, Hl.
    assert (Hlast : index_of a1 l = last (xs1 ++ xs2)).
    { rewrite Hidx1. case_decide; subst; [by rewrite app_nil_r|]. destruct xs2; [done|]. by rewrite last_app_cons. }
    rewrite Hlast. destruct (last (xs1 ++ xs2)) as [z|] eqn:Ez; [|by apply last_None in Ez].
    pose proof (ring_succ_last (xs1 ++ xs2) []) as Hs. rewrite app_nil_r, Ez in Hs. simpl in Hs.
    simpl. rewrite Hs by done. by destruct xs1. }
  exists a2. split.
  - rewrite (bind_run _ _ _ _ _ E1), (bind_run _ _ _ _ _ E2), fmap_app. unfold owner_of at 2. rewrite Hi1. done.
  - destruct Hs2 as [? H2 H3 H4]. split; [done| | |].
    + intros l'. by rewrite H2.
    + by rewrite H3.
    + intros l' Hne'. rewrite H4 by done. by apply Ho1.
Qed.

(** ** The properties *)

(** C35: list.c implements the abstract lists: on pointer structures that
    represent sequences with cursors, every function and macro of list.c and
    list.h returns what the abstract operation returns, without following a
    stray pointer, and leaves pointer structures that represent the result. *)
Theorem list_c_refinement : ListRefines (item := item) (list_id := list_id) rep.
Proof. apply list_c_refines. Qed.

(** VListInsert keeps a list in value order, stably: the new item is behind
    every item whose value does not exceed its own and in front of the
    others, and no other list changes.  The search loop terminates. *)
Theorem list_insert_sorted h a l i :
  rep h a -> is_Some (a_items a !! i) -> cont_of a i = None -> is_Some (a_lists a !! l) ->
  val_of a i <= portMAX_DELAY -> Forall (fun j => val_of a j <= portMAX_DELAY) (items_of a l) ->
  sorted_by (val_of a) (items_of a l) ->
  wp (vListInsert l i) (fun _ h' => exists a' xs1 xs2, rep h' a' /\
    items_of a l = xs1 ++ xs2 /\ items_of a' l = xs1 ++ i :: xs2 /\
    Forall (fun j => val_of a j <= val_of a i) xs1 /\ Forall (fun j => val_of a i < val_of a j) xs2 /\
    sorted_by (val_of a') (items_of a' l) /\
    forall l', l' <> l -> items_of a' l' = items_of a l') h.
Proof.
  intros Hrep Hi Hc Hl Hv Hall Hs.
  destruct (aInsert_run a i l (rep_wf _ _ Hrep) Hi Hc Hl Hv Hall) as (a' & E & Hmv & _).
  destruct (vListInsert_sim l i _ _ _ _ Hrep E) as (h' & E' & Hrep').
  destruct (insert_sorted_spec (val_of a) (val_of a i) i _ Hs) as (xs1 & xs2 & H1 & H2 & H3 & H4).
  exists tt, h'. split; [done|]. exists a', xs1, xs2. rewrite (mv_items _ _ _ _ _ _ Hmv), decide_True by done.
  split_and!; try done.
  - eapply sorted_by_ext; [intros; symmetry; apply (mv_val _ _ _ _ _ _ Hmv)|]. by apply insert_sorted_sorted.
  - intros l' Hne. by rewrite (mv_items _ _ _ _ _ _ Hmv), decide_False.
Qed.

(** VListInsertEnd followed by uxListRemove is a round trip: every list holds
    what it held, and the removal returns the number of items left. *)
Theorem list_insert_remove_roundtrip h a l i :
  rep h a -> is_Some (a_items a !! i) -> cont_of a i = None -> is_Some (a_lists a !! l) ->
  wp (vListInsertEnd l i;; uxListRemove i) (fun n h' => exists a', rep h' a' /\
    n = Z.of_nat (length (items_of a l)) /\ (forall l', items_of a' l' = items_of a l') /\
    forall j, cont_of a' j = cont_of a j) h.
Proof.
  intros Hrep Hi Hc Hl.
  destruct (aInsertEnd_run a i l (rep_wf _ _ Hrep) Hi Hc Hl) as (a1 & xs1 & xs2 & E1 & Hxs & _ & Hmv1 & _).
  assert (Hc1 : cont_of a1 i = Some l) by (rewrite (mv_cont _ _ _ _ _ _ Hmv1); by rewrite decide_True).
  destruct (aRemove_run a1 i l (mv_wf _ _ _ _ _ _ Hmv1) Hc1) as (a2 & E2 & Hmv2 & _).
  destruct (vListInsertEnd_sim l i _ _ _ _ Hrep E1) as (h1 & F1 & Hrep1).
  destruct (uxListRemove_sim i _ _ _ _ Hrep1 E2) as (h2 & F2 & Hrep2).
  assert (Hdrop : drop_elem i (items_of a1 l) = items_of a l).
  { rewrite (mv_items _ _ _ _ _ _ Hmv1), decide_True, Hxs by done. apply drop_elem_split.
    pose proof (awf_nodup _ (mv_wf _ _ _ _ _ _ Hmv1) l) as Hnd.
    by rewrite (mv_items _ _ _ _ _ _ Hmv1), decide_True in Hnd by done. }
  exists (Z.of_nat (length (items_of a l))), h2. split.
  - rewrite (bind_run _ _ _ _ _ F1), F2, Hdrop. done.
  - exists a2. split_and!; try done.
    + intros l'. rewrite (mv_items _ _ _ _ _ _ Hmv2). case_decide; [subst; done|].
      by rewrite (mv_items _ _ _ _ _ _ Hmv1), decide_False.
    + intros j. rewrite (mv_cont _ _ _ _ _ _ Hmv2), (mv_cont _ _ _ _ _ _ Hmv1).
      case_decide; subst; done.
Qed.

(** ListGET_OWNER_OF_NEXT_ENTRY takes turns: called as many times as the list
    has items, it returns the owner of every item exactly once, starting
    behind the cursor and wrapping at the end. *)
Theorem list_turns_visit_all h a l xs1 xs2 :
  rep h a -> items_of a l = xs1 ++ xs2 -> index_of a l = last xs1 -> xs1 ++ xs2 <> [] ->
  wp (turns (length (xs1 ++ xs2)) l) (fun os h' => os = owner_of a <$> (xs2 ++ xs1) /\
    exists a', rep h' a' /\ forall l', items_of a' l' = items_of a l') h.
Proof.
  intros Hrep Hl Hidx Hne. destruct (turns_full a l xs1 xs2 (rep_wf _ _ Hrep) Hl Hidx Hne) as (a' & E & Hs).
  destruct (turns_sim _ l _ _ _ _ Hrep E) as (h' & E' & Hrep'). exists (owner_of a <$> (xs2 ++ xs1)), h'.
  split; [done|]. split; [done|]. exists a'. split; [done|]. apply Hs.
Qed.

End ListProps.

(** ** Concrete instances

    Lists and items named by integers; list 1 holds the items 10, 20 and 30
    with values 1, 5 and 9, and item 40 is free. *)

Definition demo_script {H} `{!ListOps Z Z H} : M H unit :=
  loInitialise 1;;
  loAllocItem 10;; loAllocItem 20;; loAllocItem 30;; loAllocItem 40;;
  loSetValue 10 1;; loSetValue 20 5;; loSetValue 30 9;; loSetValue 40 5;;
  loSetOwner 10 100;; loSetOwner 20 200;; loSetOwner 30 300;;
  loInsert 1 30;; loInsert 1 10;; loInsert 1 20.

Definition demo_abs : aheap Z Z := from_option snd (mkAheap ∅ ∅) (demo_script (mkAheap ∅ ∅)).
Definition demo_ptr : lheap Z Z := from_option snd (mkLheap ∅ ∅) (demo_script (mkLheap ∅ ∅)).

Lemma empty_rep : rep (mkLheap (∅ : gmap Z (ListItem_t Z Z)) ∅) (mkAheap (∅ : gmap Z (aitem Z)) ∅).
Proof.
  split; simpl.
  - split; simpl; unfold items_of, cont_of, index_of; simpl.
    + intros i l. rewrite !lookup_empty. simpl. set_solver.
    + intros l. rewrite lookup_empty. constructor.
    + intros l i. rewrite lookup_empty. done.
    + rewrite map_size_empty. u32_lia.
  - intros i. done.
  - intros l al. rewrite lookup_empty. done.
Qed.

Lemma demo_rep_lists : rep demo_ptr demo_abs.
Proof.
  assert (Hsim : sim rep (demo_script (H := lheap Z Z)) (demo_script (H := aheap Z Z))).
  { unfold demo_script. repeat sim_step; try apply lr_initialise; try apply lr_alloc_item;
      try apply lr_set_value; try apply lr_set_owner; apply lr_insert. }
  assert (exists a, demo_script (mkAheap (∅ : gmap Z (aitem Z)) ∅) = Some (tt, a)) as [a Ha]
    by (eexists; vm_compute; reflexivity).
  destruct (Hsim _ _ _ _ empty_rep Ha) as (h & Hh & Hr). unfold demo_abs, demo_ptr. by rewrite Ha, Hh.
Qed.

Lemma list_insert_sorted_witness :
  exists h', vListInsert 1 40 demo_ptr = Some (tt, h') /\
    exists a' xs1 xs2, rep h' a' /\ items_of demo_abs 1 = xs1 ++ xs2 /\ items_of a' 1 = xs1 ++ 40 :: xs2.
Proof.
  destruct (list_insert_sorted demo_ptr demo_abs 1 40 demo_rep_lists) as ([] & h' & E & a' & xs1 & xs2 & H1 & H2 & H3 & _).
  - vm_compute. eauto.
  - vm_compute. reflexivity.
  - vm_compute. eauto.
  - vm_compute. done.
  - repeat constructor; vm_compute; done.
  - repeat constructor; vm_compute; done.
  - exists h'. split; [exact E|]. exists a', xs1, xs2. split; [exact H1|]. split; [exact H2|exact H3].
Defined.

Lemma list_insert_remove_roundtrip_witness :
  exists h', (vListInsertEnd 1 40;; uxListRemove 40) demo_ptr = Some (3, h').
Proof.
  destruct (list_insert_remove_roundtrip demo_ptr demo_abs 1 40 demo_rep_lists) as (n & h' & E & a' & _ & Hn & _).
  - vm_compute. eauto.
  - vm_compute. reflexivity.
  - vm_compute. eauto.
  - exists h'. rewrite Hn in E. exact E.
Defined.

Lemma list_turns_visit_all_witness :
  exists h', turns 3 1 demo_ptr = Some ([100; 200; 300], h').
Proof.
  destruct (list_turns_visit_all demo_ptr demo_abs 1 [] [10; 20; 30] demo_rep_lists) as (os & h' & E & Hos & _).
  - vm_compute. reflexivity.
  - vm_compute. reflexivity.
  - discriminate.
  - exists h'. rewrite Hos in E. exact E.
Defined.
