(* ===== verification/Heap4.v ===== *)
(** * portable/MemMang/heap_4.c: the allocator

    Block headers ([BlockLink_t]) are kept in a map from their addresses; the
    statics of the file are the other fields of [heap4].  [ucHeap] is the
    address the linker gives to the heap array and [xStart] the address of the
    static list head.  Everything here runs between vTaskSuspendAll() and
    xTaskResumeAll(); those two calls are added in [Tasks], where the
    scheduler is modelled. *)

From S2P Require Import Prelude Config.

Record BlockLink_t := mkBlock {
  pxNextFreeBlock : Z;
  xBlockSize : Z
}.

Record heap4 := mkHeap4 {
  blocks : gmap Z BlockLink_t;
  pxEnd : Z;
  xFreeBytesRemaining : Z;
  xMinimumEverFreeBytesRemaining : Z;
  xNumberOfSuccessfulAllocations : Z;
  xNumberOfSuccessfulFrees : Z;
  xBlockAllocatedBit : Z
}.

Record HeapStats_t := mkHeapStats {
  xAvailableHeapSpaceInBytes : Z;
  xSizeOfLargestFreeBlockInBytes : Z;
  xSizeOfSmallestFreeBlockInBytes : Z;
  xNumberOfFreeBlocks : Z;
  xMinimumEverFreeBytesRemainingStat : Z;
  xNumberOfSuccessfulAllocationsStat : Z;
  xNumberOfSuccessfulFreesStat : Z
}.

(** [sizeof( BlockLink_t )] is 8, rounded up to the port's alignment. *)
Definition sizeof_BlockLink_t : Z := 8.
Definition xHeapStructSize : Z :=
  Z.land (sizeof_BlockLink_t + (portBYTE_ALIGNMENT - 1)) (Z.lnot portBYTE_ALIGNMENT_MASK).
Definition heapMINIMUM_BLOCK_SIZE : Z := Z.shiftl xHeapStructSize 1.
Definition heapBITS_PER_BYTE : Z := 8.

Definition set_blocks (b : gmap Z BlockLink_t) (s : heap4) : heap4 :=
  mkHeap4 b (pxEnd s) (xFreeBytesRemaining s) (xMinimumEverFreeBytesRemaining s)
    (xNumberOfSuccessfulAllocations s) (xNumberOfSuccessfulFrees s) (xBlockAllocatedBit s).
Definition set_free_bytes (z : Z) (s : heap4) : heap4 :=
  mkHeap4 (blocks s) (pxEnd s) z (xMinimumEverFreeBytesRemaining s)
    (xNumberOfSuccessfulAllocations s) (xNumberOfSuccessfulFrees s) (xBlockAllocatedBit s).
Definition set_min_free (z : Z) (s : heap4) : heap4 :=
  mkHeap4 (blocks s) (pxEnd s) (xFreeBytesRemaining s) z
    (xNumberOfSuccessfulAllocations s) (xNumberOfSuccessfulFrees s) (xBlockAllocatedBit s).
Definition set_allocations (z : Z) (s : heap4) : heap4 :=
  mkHeap4 (blocks s) (pxEnd s) (xFreeBytesRemaining s) (xMinimumEverFreeBytesRemaining s)
    z (xNumberOfSuccessfulFrees s) (xBlockAllocatedBit s).
Definition set_frees (z : Z) (s : heap4) : heap4 :=
  mkHeap4 (blocks s) (pxEnd s) (xFreeBytesRemaining s) (xMinimumEverFreeBytesRemaining s)
    (xNumberOfSuccessfulAllocations s) z (xBlockAllocatedBit s).

(** Access to a header through its address. *)
Definition rd_block (p : Z) : M heap4 BlockLink_t := fun s =>
  match blocks s !! p with Some b => Some (b, s) | None => None end.
Definition block_next (p : Z) : M heap4 Z := b ← rd_block p; mret (pxNextFreeBlock b).
Definition block_size (p : Z) : M heap4 Z := b ← rd_block p; mret (xBlockSize b).
Definition set_block_next (p n : Z) : M heap4 unit :=
  b ← rd_block p; modify (fun s => set_blocks (<[p := mkBlock n (xBlockSize b)]> (blocks s)) s).
Definition set_block_size (p z : Z) : M heap4 unit :=
  b ← rd_block p; modify (fun s => set_blocks (<[p := mkBlock (pxNextFreeBlock b) z]> (blocks s)) s).
(** A header written into memory that held none: its link is whatever the
    memory contained. *)
Definition new_block (p z : Z) : M heap4 unit :=
  modify (fun s => set_blocks (<[p := mkBlock
    (from_option pxNextFreeBlock NULL (blocks s !! p)) z]> (blocks s)) s).

Section Heap4.
(** Link-time addresses of [ucHeap] and [xStart]. *)
Variables ucHeap xStart : Z.

Definition prvHeapInit : M heap4 unit :=
  let uxAddress := ucHeap in
  let unaligned := negb (Z.land uxAddress portBYTE_ALIGNMENT_MASK =? 0) in
  let uxAddress1 := if unaligned
    then Z.land (uxAddress +u (portBYTE_ALIGNMENT - 1)) (Z.lnot portBYTE_ALIGNMENT_MASK)
    else uxAddress in
  let xTotalHeapSize := if unaligned
    then configTOTAL_HEAP_SIZE -u (uxAddress1 -u ucHeap) else configTOTAL_HEAP_SIZE in
  let pucAlignedHeap := uxAddress1 in
  let uxAddress2 := Z.land ((pucAlignedHeap +u xTotalHeapSize) -u xHeapStructSize)
                           (Z.lnot portBYTE_ALIGNMENT_MASK) in
  let size := uxAddress2 -u pucAlignedHeap in
  modify (fun s => mkHeap4
    (<[pucAlignedHeap := mkBlock uxAddress2 size]>
      (<[uxAddress2 := mkBlock NULL 0]>
        (<[xStart := mkBlock pucAlignedHeap 0]> (blocks s))))
    uxAddress2 size size
    (xNumberOfSuccessfulAllocations s) (xNumberOfSuccessfulFrees s)
    (Z.shiftl 1 (4 * heapBITS_PER_BYTE - 1))).

(** The [for] loop of prvInsertBlockIntoFreeList. *)
Fixpoint insert_block_loop (fuel : nat) (pxIterator pxBlockToInsert : Z) : M heap4 Z :=
  n ← block_next pxIterator;
  if n <? pxBlockToInsert then
    match fuel with
    | O => fault
    | S fuel' => insert_block_loop fuel' n pxBlockToInsert
    end
  else mret pxIterator.

(** Does the block being inserted and the block before it make a contiguous
    block? *)
Definition merge_with_previous (pxIterator pxBlockToInsert : Z) : M heap4 Z :=
  it_size ← block_size pxIterator;
  if pxIterator +u it_size =? pxBlockToInsert then
    b_size ← block_size pxBlockToInsert;
    set_block_size pxIterator (it_size +u b_size);;
    mret pxIterator
  else mret pxBlockToInsert.

(** Does it and the block after it?  Then link it. *)
Definition merge_with_next (pxIterator pxBlockToInsert : Z) : M heap4 unit :=
  b_size ← block_size pxBlockToInsert;
  it_next ← block_next pxIterator;
  (if pxBlockToInsert +u b_size =? it_next then
     e ← gets pxEnd;
     if negb (it_next =? e) then
       n_size ← block_size it_next;
       set_block_size pxBlockToInsert (b_size +u n_size);;
       n_next ← block_next it_next;
       set_block_next pxBlockToInsert n_next
     else set_block_next pxBlockToInsert e
   else set_block_next pxBlockToInsert it_next);;
  if negb (pxIterator =? pxBlockToInsert) then set_block_next pxIterator pxBlockToInsert
  else mret tt.

Definition prvInsertBlockIntoFreeList (pxBlockToInsert : Z) : M heap4 unit :=
  fuel ← gets (fun s => size (blocks s));
  pxIterator ← insert_block_loop fuel xStart pxBlockToInsert;
  b ← merge_with_previous pxIterator pxBlockToInsert;
  merge_with_next pxIterator b.

(** The size a request needs: header added, rounded up to the alignment, or 0
    when that does not fit in 32 bits. *)
Definition wanted_size (xWantedSize : Z) : Z :=
  if (0 <? xWantedSize) && (xWantedSize <? xWantedSize +u xHeapStructSize) then
    let w := xWantedSize +u xHeapStructSize in
    if negb (Z.land w portBYTE_ALIGNMENT_MASK =? 0) then
      let w' := w +u (portBYTE_ALIGNMENT - Z.land w portBYTE_ALIGNMENT_MASK) in
      if w <? w' then w' else 0
    else w
  else 0.

(** The [while] loop of pvPortMalloc: first fit. *)
Fixpoint first_fit_loop (fuel : nat) (xWantedSize pxPreviousBlock pxBlock : Z) : M heap4 (Z * Z) :=
  sz ← block_size pxBlock;
  n ← block_next pxBlock;
  if (sz <? xWantedSize) && negb (n =? NULL) then
    match fuel with
    | O => fault
    | S fuel' => first_fit_loop fuel' xWantedSize pxBlock n
    end
  else mret (pxPreviousBlock, pxBlock).

(** Return the part of [pxBlock] that is not needed to the free list, when it
    is large enough to be a block. *)
Definition split_block (xWantedSize pxBlock : Z) : M heap4 unit :=
  sz ← block_size pxBlock;
  if heapMINIMUM_BLOCK_SIZE <? sz -u xWantedSize then
    let pxNewBlockLink := pxBlock +u xWantedSize in
    new_block pxNewBlockLink (sz -u xWantedSize);;
    set_block_size pxBlock xWantedSize;;
    prvInsertBlockIntoFreeList pxNewBlockLink
  else mret tt.

(** Count [pxBlock] as used and mark it as owned by the application. *)
Definition mark_allocated (pxBlock : Z) : M heap4 unit :=
  sz ← block_size pxBlock;
  modify (fun s => set_free_bytes (xFreeBytesRemaining s -u sz) s);;
  modify (fun s => if xFreeBytesRemaining s <? xMinimumEverFreeBytesRemaining s
                   then set_min_free (xFreeBytesRemaining s) s else s);;
  bit ← gets xBlockAllocatedBit;
  set_block_size pxBlock (Z.lor sz bit);;
  set_block_next pxBlock NULL;;
  modify (fun s => set_allocations (xNumberOfSuccessfulAllocations s +u 1) s).

(** Take [pxBlock], which follows [pxPreviousBlock] in the free list. *)
Definition take_block (xWantedSize pxPreviousBlock pxBlock : Z) : M heap4 Z :=
  prev_next ← block_next pxPreviousBlock;
  let pvReturn := prev_next +u xHeapStructSize in
  n ← block_next pxBlock;
  set_block_next pxPreviousBlock n;;
  split_block xWantedSize pxBlock;;
  mark_allocated pxBlock;;
  mret pvReturn.

(** pvPortMalloc, the part that runs with the scheduler suspended. *)
Definition pvPortMalloc_suspended (xWantedSize : Z) : M heap4 Z :=
  e ← gets pxEnd;
  (if e =? NULL then prvHeapInit else mret tt);;
  bit ← gets xBlockAllocatedBit;
  if Z.land xWantedSize bit =? 0 then
    let w := wanted_size xWantedSize in
    free ← gets xFreeBytesRemaining;
    if (0 <? w) && (w <=? free) then
      pxBlock ← block_next xStart;
      fuel ← gets (fun s => size (blocks s));
      '(pxPreviousBlock, pxBlock) ← first_fit_loop fuel w xStart pxBlock;
      e ← gets pxEnd;
      if negb (pxBlock =? e) then take_block w pxPreviousBlock pxBlock else mret NULL
    else mret NULL
  else mret NULL.

(** vPortFree, the tests: is [pv] the payload of a block that is allocated?
    The two configASSERT()s on the same conditions are compiled out. *)
Definition free_guard (pv : Z) : M heap4 bool :=
  if negb (pv =? NULL) then
    let pxLink := pv -u xHeapStructSize in
    sz ← block_size pxLink;
    bit ← gets xBlockAllocatedBit;
    if negb (Z.land sz bit =? 0) then
      n ← block_next pxLink;
      mret (n =? NULL)
    else mret false
  else mret false.

(** vPortFree, before the scheduler is suspended: the block is no longer
    allocated. *)
Definition free_clear (pv : Z) : M heap4 unit :=
  let pxLink := pv -u xHeapStructSize in
  sz ← block_size pxLink;
  bit ← gets xBlockAllocatedBit;
  set_block_size pxLink (Z.land sz (Z.lnot bit)).

(** vPortFree, the part that runs with the scheduler suspended. *)
Definition free_suspended (pv : Z) : M heap4 unit :=
  let pxLink := pv -u xHeapStructSize in
  sz ← block_size pxLink;
  modify (fun s => set_free_bytes (xFreeBytesRemaining s +u sz) s);;
  prvInsertBlockIntoFreeList pxLink;;
  modify (fun s => set_frees (xNumberOfSuccessfulFrees s +u 1) s).

Definition vPortFree_body (pv : Z) : M heap4 unit :=
  g ← free_guard pv;
  if g : bool then free_clear pv;; free_suspended pv else mret tt.

(** The do-while loop of vPortGetHeapStats: count, largest, smallest. *)
Fixpoint heap_stats_loop (fuel : nat) (pxBlock xBlocks xMaxSize xMinSize : Z) : M heap4 (Z * Z * Z) :=
  sz ← block_size pxBlock;
  let xBlocks := xBlocks +u 1 in
  let xMaxSize := if xMaxSize <? sz then sz else xMaxSize in
  let xMinSize := if sz <? xMinSize then sz else xMinSize in
  n ← block_next pxBlock;
  e ← gets pxEnd;
  if negb (n =? e) then
    match fuel with
    | O => fault
    | S fuel' => heap_stats_loop fuel' n xBlocks xMaxSize xMinSize
    end
  else mret (xBlocks, xMaxSize, xMinSize).

Definition vPortGetHeapStats : M heap4 HeapStats_t :=
  pxBlock ← block_next xStart;
  '(xBlocks, xMaxSize, xMinSize) ←
    (if negb (pxBlock =? NULL) then
       fuel ← gets (fun s => size (blocks s));
       heap_stats_loop fuel pxBlock 0 0 portMAX_DELAY
     else mret (0, 0, portMAX_DELAY));
  s ← get;
  mret (mkHeapStats (xFreeBytesRemaining s) xMaxSize xMinSize xBlocks
          (xMinimumEverFreeBytesRemaining s) (xNumberOfSuccessfulAllocations s)
          (xNumberOfSuccessfulFrees s)).

Definition xPortGetFreeHeapSize : M heap4 Z := gets xFreeBytesRemaining.
Definition xPortGetMinimumEverFreeHeapSize : M heap4 Z := gets xMinimumEverFreeBytesRemaining.

End Heap4.

(** The statics before the first call: [pxEnd] is null and no header has been
    written but that of [xStart], which is zeroed. *)
Definition heap4_boot (xStart : Z) : heap4 :=
  mkHeap4 {[ xStart := mkBlock NULL 0 ]} NULL 0 0 0 0 0.
