(* ===== verification/Heap4Spec.v ===== *)
(** * What heap_4.c promises, and that it keeps it

    The heap is a sequence of tiles, each free or allocated, that covers the
    managed range exactly; no two free tiles touch.  [rep_heap] says that the
    headers in memory are those of a tiling.  pvPortMalloc takes the first
    free tile that is large enough and splits it when the rest is worth
    keeping; vPortFree gives a tile back and merges it with its free
    neighbours. *)

From S2P Require Import Prelude Config ListSpec Heap4.

Lemma xHeapStructSize_16 : xHeapStructSize = 16.
Proof. done. Qed.
Lemma heapMINIMUM_BLOCK_SIZE_32 : heapMINIMUM_BLOCK_SIZE = 32.
Proof. done. Qed.

Record tile := mkTile { t_addr : Z; t_size : Z; t_free : bool }.

#[export] Instance tile_eq_dec : EqDecision tile.
Proof. solve_decision. Defined.

Fixpoint tiled (s : Z) (ts : list tile) (e : Z) : Prop :=
  match ts with
  | [] => s = e
  | t :: ts' => t_addr t = s /\ 0 < t_size t /\ (16 | t_size t) /\ tiled (s + t_size t) ts' e
  end.

(** No two neighbouring tiles are both free. *)
Fixpoint coalesced (ts : list tile) : Prop :=
  match ts with
  | t1 :: ((t2 :: _) as ts') => (t_free t1 && t_free t2 = false) /\ coalesced ts'
  | _ => True
  end.

Definition free_tiles (ts : list tile) : list tile := filter (fun t => t_free t = true) ts.
Definition free_addrs (ts : list tile) : list Z := t_addr <$> free_tiles ts.
Definition free_sum (ts : list tile) : Z := foldr (fun t z => t_size t + z) 0 (free_tiles ts).

(** ** The abstract operations *)

(** The first tile with a property, with what precedes and follows it. *)
Fixpoint find_tile (P : tile -> bool) (ts : list tile) : option (list tile * tile * list tile) :=
  match ts with
  | [] => None
  | t :: ts' => if P t then Some ([], t, ts')
      else match find_tile P ts' with
           | Some (pre, x, post) => Some (t :: pre, x, post)
           | None => None
           end
  end.

(** The tiles that a free tile becomes when [w] bytes of it are handed out. *)
Definition carve (w : Z) (t : tile) : list tile :=
  if heapMINIMUM_BLOCK_SIZE <? t_size t - w
  then [mkTile (t_addr t) w false; mkTile (t_addr t + w) (t_size t - w) true]
  else [mkTile (t_addr t) (t_size t) false].

(** First fit. *)
Definition spec_malloc (w : Z) (ts : list tile) : option (Z * list tile) :=
  match find_tile (fun t => t_free t && (w <=? t_size t)) ts with
  | Some (pre, t, post) => Some (t_addr t, pre ++ carve w t ++ post)
  | None => None
  end.

(** Make the tile [b] of [sz] bytes between [pre] and [post] free. *)
Definition absorb_next (b sz : Z) (post : list tile) : list tile :=
  match post with
  | n :: post' => if t_free n then mkTile b (sz + t_size n) true :: post'
                  else mkTile b sz true :: post
  | [] => [mkTile b sz true]
  end.
Definition release (pre : list tile) (b sz : Z) (post : list tile) : list tile :=
  match last pre with
  | Some p => if t_free p then removelast pre ++ absorb_next (t_addr p) (t_size p + sz) post
              else pre ++ absorb_next b sz post
  | None => absorb_next b sz post
  end.

Definition spec_free (b : Z) (ts : list tile) : option (list tile) :=
  match find_tile (fun t => (t_addr t =? b) && negb (t_free t)) ts with
  | Some (pre, t, post) => Some (release pre b (t_size t) post)
  | None => None
  end.

Lemma find_tile_Some P ts pre t post :
  find_tile P ts = Some (pre, t, post) ->
  ts = pre ++ t :: post /\ P t = true /\ Forall (fun x => P x = false) pre.
Proof.
  revert pre; induction ts as [|x ts IH]; intros pre; simpl; [done|].
  destruct (P x) eqn:E; [naive_solver|].
  destruct (find_tile P ts) as [[[pre' y] post']|] eqn:F; intros; simplify_eq.
  destruct (IH pre') as (-> & ? & ?); [done|]. naive_solver.
Qed.

Lemma find_tile_None P ts : find_tile P ts = None <-> Forall (fun x => P x = false) ts.
Proof.
  induction ts as [|x ts IH]; simpl; [done|]. rewrite Forall_cons.
  destruct (P x) eqn:E; [naive_solver|].
  destruct (find_tile P ts) as [[[pre' y] post']|]; naive_solver.
Qed.

(** ** Tilings *)

Lemma tiled_app s ts1 ts2 e : tiled s (ts1 ++ ts2) e <-> exists m, tiled s ts1 m /\ tiled m ts2 e.
Proof.
  revert s; induction ts1 as [|t ts1 IH]; intros s; simpl.
  - naive_solver.
  - rewrite IH. naive_solver.
Qed.

Lemma tiled_le s ts e : tiled s ts e -> s <= e.
Proof.
  revert s; induction ts as [|t ts IH]; intros s; simpl; [lia|].
  intros (? & ? & ? & ?%IH). lia.
Qed.

Lemma tiled_bounds s ts e t : tiled s ts e -> t ∈ ts -> s <= t_addr t /\ t_addr t + t_size t <= e /\
  0 < t_size t /\ (16 | t_size t).
Proof.
  revert s; induction ts as [|t' ts IH]; intros s; simpl; [set_solver|].
  intros (? & ? & ? & Ht) [->|Hin]%elem_of_cons.
  - pose proof (tiled_le _ _ _ Ht). repeat split; try done; lia.
  - pose proof (IH _ Ht Hin). repeat split; tauto || lia.
Qed.

(** A tile that reaches the end of the range is the last one. *)
Lemma tiled_last s ts e t : tiled s ts e -> t ∈ ts -> t_addr t + t_size t = e -> last ts = Some t.
Proof.
  intros Ht (ts1 & ts2 & ->)%list_elem_of_split He.
  apply tiled_app in Ht as (m & _ & Ht). simpl in Ht. destruct Ht as (? & ? & ? & Ht).
  destruct ts2 as [|t2 ts2]; [by rewrite last_snoc|].
  simpl in Ht. destruct Ht as (? & ? & ? & Ht%tiled_le). lia.
Qed.

Lemma free_addrs_app ts1 ts2 : free_addrs (ts1 ++ ts2) = free_addrs ts1 ++ free_addrs ts2.
Proof. unfold free_addrs, free_tiles. by rewrite filter_app, fmap_app. Qed.

Lemma free_addrs_cons t ts :
  free_addrs (t :: ts) = if t_free t then t_addr t :: free_addrs ts else free_addrs ts.
Proof.
  unfold free_addrs, free_tiles. destruct (t_free t) eqn:E.
  - by rewrite filter_cons_True.
  - rewrite filter_cons_False; [done|congruence].
Qed.

Lemma free_addrs_snoc ts t : free_addrs (ts ++ [t]) =
  free_addrs ts ++ (if t_free t then [t_addr t] else []).
Proof. rewrite free_addrs_app, free_addrs_cons. by destruct (t_free t). Qed.

Lemma free_sum_app ts1 ts2 : free_sum (ts1 ++ ts2) = free_sum ts1 + free_sum ts2.
Proof.
  unfold free_sum, free_tiles. rewrite filter_app.
  induction (filter _ ts1) as [|t ts IH]; simpl; lia.
Qed.

Lemma free_sum_nil : free_sum [] = 0.
Proof. done. Qed.

Lemma free_sum_cons t ts : free_sum (t :: ts) = (if t_free t then t_size t else 0) + free_sum ts.
Proof.
  unfold free_sum, free_tiles. destruct (t_free t) eqn:E.
  - by rewrite filter_cons_True.
  - rewrite filter_cons_False; [done|congruence].
Qed.

Lemma elem_of_free_addrs a ts : a ∈ free_addrs ts <-> exists t, t ∈ ts /\ t_free t = true /\ t_addr t = a.
Proof.
  unfold free_addrs, free_tiles. rewrite list_elem_of_fmap.
  setoid_rewrite list_elem_of_filter. naive_solver.
Qed.

Lemma free_addrs_bounds s ts e a : tiled s ts e -> a ∈ free_addrs ts -> s <= a < e.
Proof.
  intros Ht (t & Hin & _ & <-)%elem_of_free_addrs.
  pose proof (tiled_bounds _ _ _ _ Ht Hin). lia.
Qed.

Lemma free_addrs_nodup s ts e : tiled s ts e -> NoDup (free_addrs ts).
Proof.
  revert s; induction ts as [|t ts IH]; intros s; simpl; [constructor|].
  intros (Ha & Hs & _ & Ht). rewrite free_addrs_cons. destruct (t_free t); [|by eapply IH].
  constructor; [|by eapply IH]. intros Hin.
  pose proof (free_addrs_bounds _ _ _ _ Ht Hin). lia.
Qed.

Lemma free_sum_bounds s ts e : tiled s ts e -> 0 <= free_sum ts <= e - s.
Proof.
  revert s; induction ts as [|t ts IH]; intros s; simpl.
  - unfold free_sum. simpl. lia.
  - intros (? & ? & _ & ?%IH). rewrite free_sum_cons. destruct (t_free t); lia.
Qed.

(** ** Headers that represent a tiling *)

Section Rep.
Variables ucHeap xStart : Z.

(** The list head stands before the first free tile, [pxEnd] after the last. *)
Definition before (o : option Z) : Z := default xStart o.
Definition after (e : Z) (o : option Z) : Z := default e o.

Definition alloc_bit : Z := 2147483648.

(** The managed range, as the addresses of the program are laid out. *)
Record range_ok (base e : Z) : Prop := {
  ro_base : 0 < base;
  ro_align : (16 | base);
  ro_end : e + xHeapStructSize <= u32_modulus;
  ro_size : e - base < alloc_bit;
  ro_start : 0 < xStart < u32_modulus /\ ~ (base <= xStart <= e)
}.

(** The headers of a tiling [ts] of [base, e); those of the allocated tiles
    in [X] are left open. *)
Record rep_links (s : heap4) (base : Z) (ts : list tile) (X : Z -> Prop) : Prop := {
  rl_range : range_ok base (pxEnd s);
  rl_tiled : tiled base ts (pxEnd s);
  rl_start : blocks s !! xStart = Some (mkBlock (after (pxEnd s) (head (free_addrs ts))) 0);
  rl_end : blocks s !! pxEnd s = Some (mkBlock NULL 0);
  rl_free t : t ∈ ts -> t_free t = true ->
    blocks s !! t_addr t =
      Some (mkBlock (after (pxEnd s) (succ_of (t_addr t) (free_addrs ts))) (t_size t));
  rl_alloc t : t ∈ ts -> t_free t = false -> ~ X (t_addr t) ->
    blocks s !! t_addr t = Some (mkBlock NULL (Z.lor (t_size t) alloc_bit));
  rl_bit : xBlockAllocatedBit s = alloc_bit;
  rl_null : blocks s !! NULL = None
}.

Record rep_heap (s : heap4) (base : Z) (ts : list tile) : Prop := {
  rh_links : rep_links s base ts (fun _ => False);
  rh_coalesced : coalesced ts;
  rh_bytes : xFreeBytesRemaining s = free_sum ts;
  rh_min : 0 <= xMinimumEverFreeBytesRemaining s <= xFreeBytesRemaining s
}.

(** The header of a position of the free list: the list head or a free tile. *)
Lemma rl_position s base ts X o : rep_links s base ts X -> in_ring o (free_addrs ts) ->
  exists sz, blocks s !! before o = Some (mkBlock (after (pxEnd s) (ring_succ o (free_addrs ts))) sz) /\
    match o with
    | None => sz = 0
    | Some a => exists t, t ∈ ts /\ t_free t = true /\ t_addr t = a /\ t_size t = sz
    end.
Proof.
  intros Hr Ho. destruct o as [a|]; simpl in *.
  - apply elem_of_free_addrs in Ho as (t & Hin & Hf & <-). exists (t_size t).
    split; [by apply (rl_free _ _ _ _ Hr)|]. eauto.
  - exists 0. split; [apply Hr|done].
Qed.

(** Distinctness of the addresses in play. *)
Lemma rl_addr_range s base ts X t : rep_links s base ts X -> t ∈ ts ->
  base <= t_addr t < pxEnd s /\ t_addr t <> xStart /\ t_addr t <> pxEnd s /\ 0 < t_addr t /\
  t_addr t + t_size t <= pxEnd s /\ u32_range (t_addr t) /\ 0 < t_size t < alloc_bit.
Proof.
  intros Hr Hin. pose proof (tiled_bounds _ _ _ _ (rl_tiled _ _ _ _ Hr) Hin).
  destruct (rl_range _ _ _ _ Hr). rewrite xHeapStructSize_16 in *. unfold u32_range.
  repeat split; lia.
Qed.

Lemma tiled_addr_inj s ts e t1 t2 : tiled s ts e -> t1 ∈ ts -> t2 ∈ ts -> t_addr t1 = t_addr t2 -> t1 = t2.
Proof.
  revert s; induction ts as [|t ts IH]; intros s; simpl; [set_solver|].
  intros (Ha & Hs & _ & Ht) [->|H1]%elem_of_cons [->|H2]%elem_of_cons E; try done.
  - pose proof (tiled_bounds _ _ _ _ Ht H2). lia.
  - pose proof (tiled_bounds _ _ _ _ Ht H1). lia.
  - by eapply IH.
Qed.

Lemma succ_of_app_r (a : Z) xs ys : a ∉ xs -> succ_of a (xs ++ ys) = succ_of a ys.
Proof.
  induction xs as [|x xs IH]; simpl; intros Ha; [done|].
  rewrite decide_False by set_solver. apply IH. set_solver.
Qed.

Lemma succ_of_app_l (a : Z) xs ys zs : a ∈ xs -> NoDup xs -> last xs <> Some a ->
  succ_of a (xs ++ ys) = succ_of a (xs ++ zs).
Proof.
  intros (u & v & ->)%list_elem_of_split [Hu Hv]%NoDup_notin_app Hl.
  rewrite <- !(assoc_L (++)). simpl. rewrite !succ_of_split by done.
  destruct v; [|done]. by rewrite last_snoc in Hl.
Qed.

Lemma blocks_set_blocks m s : blocks (set_blocks m s) = m.
Proof. done. Qed.

Section ReplaceMid.
Variables (s : heap4) (base : Z) (pre mid mid' post : list tile) (X X' : Z -> Prop)
  (m' : gmap Z BlockLink_t).
Hypothesis Hr : rep_links s base (pre ++ mid ++ post) X.
Hypothesis Htile : forall m1 m2, tiled m1 mid m2 -> tiled m1 mid' m2.

Let bl := before (last (free_addrs pre)).

Hypothesis Hbl : exists n sz, blocks s !! bl = Some (mkBlock n sz) /\
  m' !! bl = Some (mkBlock (after (pxEnd s) (head (free_addrs mid' ++ free_addrs post))) sz).
Hypothesis Hfree : forall t, t ∈ mid' -> t_free t = true -> m' !! t_addr t =
  Some (mkBlock (after (pxEnd s) (succ_of (t_addr t) (free_addrs mid' ++ free_addrs post))) (t_size t)).
Hypothesis Halloc : forall t, t ∈ mid' -> t_free t = false -> ~ X' (t_addr t) ->
  m' !! t_addr t = Some (mkBlock NULL (Z.lor (t_size t) alloc_bit)).
Hypothesis Hother : forall a, a <> bl -> (forall t, t ∈ mid -> t_addr t <> a) ->
  (forall t, t ∈ mid' -> t_addr t <> a) -> m' !! a = blocks s !! a.
Hypothesis HX : forall t, t ∈ pre ++ post -> X (t_addr t) -> X' (t_addr t).

Lemma replace_mid_tiled : tiled base (pre ++ mid' ++ post) (pxEnd s).
Proof.
  pose proof (rl_tiled _ _ _ _ Hr) as Ht. rewrite !tiled_app in *.
  destruct Ht as (m1 & ? & Ht). exists m1. split; [done|]. rewrite !tiled_app in *.
  destruct Ht as (m2 & ? & ?). eauto.
Qed.

(** A tile of [pre] or [post] is away from the tiles in the middle. *)
Lemma replace_mid_other t : t ∈ pre ++ post -> t_addr t <> bl -> m' !! t_addr t = blocks s !! t_addr t.
Proof.
  intros Hin Hne. apply Hother; [done| |].
  - intros t' Hin' E. pose proof (rl_tiled _ _ _ _ Hr) as Ht. rewrite !tiled_app in Ht.
    destruct Ht as (m1 & Hp & Ht). rewrite !tiled_app in Ht. destruct Ht as (m2 & Hm & Hq).
    pose proof (tiled_bounds _ _ _ _ Hm Hin'). apply elem_of_app in Hin as [Hin|Hin].
    + pose proof (tiled_bounds _ _ _ _ Hp Hin). lia.
    + pose proof (tiled_bounds _ _ _ _ Hq Hin). lia.
  - intros t' Hin' E. pose proof replace_mid_tiled as Ht. rewrite !tiled_app in Ht.
    destruct Ht as (m1 & Hp & Ht). rewrite !tiled_app in Ht. destruct Ht as (m2 & Hm & Hq).
    pose proof (tiled_bounds _ _ _ _ Hm Hin'). apply elem_of_app in Hin as [Hin|Hin].
    + pose proof (tiled_bounds _ _ _ _ Hp Hin). lia.
    + pose proof (tiled_bounds _ _ _ _ Hq Hin). lia.
Qed.

(** Unless it is the last free tile of [pre], no tile of [pre] or [post] is
    the position before the middle. *)
Lemma replace_mid_bl t : t ∈ pre ++ mid' ++ post -> t_addr t = bl -> last (free_addrs pre) = Some (t_addr t).
Proof.
  intros Hin E. destruct (last (free_addrs pre)) as [a|] eqn:El; unfold bl, before in E; simpl in E.
  - by rewrite E.
  - pose proof (tiled_bounds _ _ _ _ replace_mid_tiled Hin).
    destruct (rl_range _ _ _ _ Hr) as [_ _ _ _ [_ Hs]]. lia.
Qed.

Lemma replace_mid_pre_free t : t ∈ pre -> t_free t = true ->
  m' !! t_addr t = Some (mkBlock (after (pxEnd s)
    (succ_of (t_addr t) (free_addrs (pre ++ mid' ++ post)))) (t_size t)).
Proof.
  intros Hin Hf. assert (Ha : t_addr t ∈ free_addrs pre) by (apply elem_of_free_addrs; eauto).
  pose proof (free_addrs_nodup _ _ _ replace_mid_tiled) as Hnd.
  rewrite !free_addrs_app in *.
  pose proof (rl_free _ _ _ _ Hr t ltac:(set_solver) Hf) as Hold. rewrite !free_addrs_app in Hold.
  destruct (decide (last (free_addrs pre) = Some (t_addr t))) as [El|El].
  - destruct Hbl as (n & sz & Hb & Hb'). unfold bl in *. rewrite El in Hb, Hb'. unfold before in *. simpl in *.
    pose proof (ring_succ_last _ _ Hnd) as Hs. rewrite El in Hs. simpl in Hs. rewrite Hs, Hb'.
    congruence.
  - rewrite replace_mid_other.
    + rewrite Hold. do 3 f_equal. apply succ_of_app_l; [done| |done]. by apply NoDup_app in Hnd as (?&?&?).
    + set_solver.
    + intros E. apply El. apply replace_mid_bl; [set_solver|done].
Qed.

Lemma replace_mid_not_pre t : t ∈ mid' ++ post -> t_addr t ∉ free_addrs pre.
Proof.
  intros Hin Ha. pose proof replace_mid_tiled as Ht. apply tiled_app in Ht as (m1 & Hp & Hq).
  pose proof (tiled_bounds _ _ _ _ Hq Hin). pose proof (free_addrs_bounds _ _ _ _ Hp Ha). lia.
Qed.

Lemma replace_mid_post_free t : t ∈ post -> t_free t = true ->
  m' !! t_addr t = Some (mkBlock (after (pxEnd s)
    (succ_of (t_addr t) (free_addrs (pre ++ mid' ++ post)))) (t_size t)).
Proof.
  intros Hin Hf. pose proof (rl_tiled _ _ _ _ Hr) as Ht. pose proof replace_mid_tiled as Ht'.
  assert (Hn : t_addr t ∉ free_addrs pre) by (apply replace_mid_not_pre; set_solver).
  rewrite replace_mid_other; [|set_solver|].
  - rewrite (rl_free _ _ _ _ Hr) by set_solver. do 3 f_equal.
    rewrite (assoc_L (++)) in Ht, Ht' |- *. rewrite (assoc_L (++)). rewrite !(free_addrs_app (_ ++ _)).
    apply tiled_app in Ht as (m2 & Hm & Hq). apply tiled_app in Ht' as (m3 & Hm' & Hq').
    pose proof (tiled_bounds _ _ _ _ Hq Hin). pose proof (tiled_bounds _ _ _ _ Hq' Hin).
    rewrite !succ_of_app_r; [done| |]; intros Ha;
      eapply free_addrs_bounds in Ha; [|done| |done]; lia.
  - intros E. apply Hn. apply last_Some_elem_of. apply replace_mid_bl; [set_solver|done].
Qed.

Lemma replace_mid : rep_links (set_blocks m' s) base (pre ++ mid' ++ post) X'.
Proof.
  pose proof (rl_range _ _ _ _ Hr) as Hro. destruct Hro as [? ? ? ? [? Hs]].
  pose proof (tiled_le _ _ _ (rl_tiled _ _ _ _ Hr)) as Hle.
  split; simpl; try apply Hr; [exact replace_mid_tiled| | | | |].
  - destruct (last (free_addrs pre)) as [a|] eqn:El.
    + rewrite Hother.
      * rewrite (rl_start _ _ _ _ Hr), !free_addrs_app. destruct (free_addrs pre); [done|]. done.
      * unfold bl. rewrite ?El. unfold before. simpl. apply last_Some_elem_of in El.
        pose proof (rl_tiled _ _ _ _ Hr) as (m1 & Hp & Hq)%tiled_app.
        pose proof (free_addrs_bounds _ _ _ _ Hp El). apply tiled_le in Hq. lia.
      * intros t Hin E. pose proof (tiled_bounds _ _ _ t (rl_tiled _ _ _ _ Hr) ltac:(set_solver)). lia.
      * intros t Hin E. pose proof (tiled_bounds _ _ _ t replace_mid_tiled ltac:(set_solver)). lia.
    + destruct Hbl as (n & sz & Hb & Hb'). unfold bl in *. rewrite ?El in Hb, Hb'. unfold before in *.
      simpl in *. rewrite (rl_start _ _ _ _ Hr) in Hb. rewrite Hb', !free_addrs_app.
      apply last_None in El. rewrite El. simpl. congruence.
  - rewrite Hother; [apply Hr| | |].
    + unfold bl. destruct (last (free_addrs pre)) as [a|] eqn:El; unfold before; simpl; [|lia].
      apply last_Some_elem_of in El. pose proof (rl_tiled _ _ _ _ Hr) as (m1 & Hp & Hq)%tiled_app.
      pose proof (free_addrs_bounds _ _ _ _ Hp El). apply tiled_le in Hq. lia.
    + intros t Hin E. pose proof (tiled_bounds _ _ _ t (rl_tiled _ _ _ _ Hr) ltac:(set_solver)). lia.
    + intros t Hin E. pose proof (tiled_bounds _ _ _ t replace_mid_tiled ltac:(set_solver)). lia.
  - intros t Hin Hf. apply elem_of_app in Hin as [Hin|Hin]; [by apply replace_mid_pre_free|].
    pose proof (replace_mid_not_pre t Hin). apply elem_of_app in Hin as [Hin|Hin]; [|by apply replace_mid_post_free].
    rewrite Hfree by done. by rewrite (free_addrs_app pre), (free_addrs_app mid'), (succ_of_app_r _ (free_addrs pre)).
  - intros t Hin Hf HnX. destruct (decide (t ∈ mid')) as [Hm|Hm]; [by apply Halloc|].
    assert (Hpp : t ∈ pre ++ post) by set_solver.
    rewrite replace_mid_other; [|done|].
    + apply (rl_alloc _ _ _ _ Hr); [set_solver|done|]. eauto.
    + intros E%replace_mid_bl; [|done]. apply last_Some_elem_of, elem_of_free_addrs in E as (t' & ? & ? & E).
      apply (tiled_addr_inj _ _ _ t' t replace_mid_tiled) in E; [congruence|set_solver|done].
  - rewrite Hother; [apply Hr| | |]; unfold NULL.
    + unfold bl. destruct (last (free_addrs pre)) as [a|] eqn:El; unfold before; simpl; [|lia].
      apply last_Some_elem_of in El. pose proof (rl_tiled _ _ _ _ Hr) as (m1 & Hp & Hq)%tiled_app.
      pose proof (free_addrs_bounds _ _ _ _ Hp El). lia.
    + intros t Hin E. pose proof (tiled_bounds _ _ _ t (rl_tiled _ _ _ _ Hr) ltac:(set_solver)). lia.
    + intros t Hin E. pose proof (tiled_bounds _ _ _ t replace_mid_tiled ltac:(set_solver)). lia.
Qed.

End ReplaceMid.

(** ** Steps of the program *)

Lemma wp_block_next p b (Q : Z -> heap4 -> Prop) s :
  blocks s !! p = Some b -> Q (pxNextFreeBlock b) s -> wp (block_next p) Q s.
Proof.
  intros Hb HQ. exists (pxNextFreeBlock b), s. unfold block_next, rd_block, mbind, M_bind. by rewrite Hb.
Qed.
Lemma wp_block_size p b (Q : Z -> heap4 -> Prop) s :
  blocks s !! p = Some b -> Q (xBlockSize b) s -> wp (block_size p) Q s.
Proof.
  intros Hb HQ. exists (xBlockSize b), s. unfold block_size, rd_block, mbind, M_bind. by rewrite Hb.
Qed.
Lemma block_next_run p b s : blocks s !! p = Some b -> block_next p s = Some (pxNextFreeBlock b, s).
Proof. intros H. unfold block_next, rd_block, mbind, M_bind. by rewrite H. Qed.
Lemma block_size_run p b s : blocks s !! p = Some b -> block_size p s = Some (xBlockSize b, s).
Proof. intros H. unfold block_size, rd_block, mbind, M_bind. by rewrite H. Qed.
Lemma block_size_fault p s : blocks s !! p = None -> block_size p s = None.
Proof. intros H. unfold block_size, rd_block, mbind, M_bind. by rewrite H. Qed.
Lemma wp_set_block_next p n b (Q : unit -> heap4 -> Prop) s :
  blocks s !! p = Some b ->
  Q tt (set_blocks (<[p := mkBlock n (xBlockSize b)]> (blocks s)) s) -> wp (set_block_next p n) Q s.
Proof.
  intros Hb HQ. eexists tt, _. unfold set_block_next, rd_block, mbind, M_bind. by rewrite Hb.
Qed.
Lemma wp_set_block_size p z b (Q : unit -> heap4 -> Prop) s :
  blocks s !! p = Some b ->
  Q tt (set_blocks (<[p := mkBlock (pxNextFreeBlock b) z]> (blocks s)) s) -> wp (set_block_size p z) Q s.
Proof.
  intros Hb HQ. eexists tt, _. unfold set_block_size, rd_block, mbind, M_bind. by rewrite Hb.
Qed.

Lemma set_blocks_twice m m' s : set_blocks m (set_blocks m' s) = set_blocks m s.
Proof. done. Qed.

(** The free list is no longer than the map of headers. *)
Lemma free_addrs_fuel s base ts X : rep_links s base ts X ->
  (length (free_addrs ts) < size (blocks s))%nat.
Proof.
  intros Hr. pose proof (free_addrs_nodup _ _ _ (rl_tiled _ _ _ _ Hr)) as Hnd.
  rewrite <- (size_dom (D := gset Z) (blocks s)).
  apply Nat.lt_le_trans with (length (pxEnd s :: free_addrs ts)); [simpl; lia|].
  rewrite <- (size_list_to_set (C := gset Z)).
  - apply subseteq_size. intros a. rewrite elem_of_list_to_set, elem_of_dom.
    intros [->|(t & Hin & Hf & <-)%elem_of_free_addrs]%elem_of_cons.
    + rewrite (rl_end _ _ _ _ Hr). eauto.
    + rewrite (rl_free _ _ _ _ Hr) by done. eauto.
  - constructor; [|done]. intros Hin.
    pose proof (free_addrs_bounds _ _ _ _ (rl_tiled _ _ _ _ Hr) Hin). lia.
Qed.

(** The search of prvInsertBlockIntoFreeList stops at the last free block
    below [b]. *)
Lemma insert_block_loop_spec s base ts X b fs2 : forall fs1 rest fuel,
  rep_links s base ts X -> free_addrs ts = fs1 ++ rest ++ fs2 ->
  Forall (fun a => a < b) rest -> Forall (fun a => b <= a) fs2 -> b <= pxEnd s ->
  (length rest <= fuel)%nat ->
  wp (insert_block_loop fuel (before (last fs1)) b)
     (fun p s' => s' = s /\ p = before (last (fs1 ++ rest))) s.
Proof.
  intros fs1 rest; revert fs1; induction rest as [|a rest IH];
    intros fs1 fuel Hr Hfs Hrest Hfs2 Hb Hfuel.
  - pose proof (free_addrs_nodup _ _ _ (rl_tiled _ _ _ _ Hr)) as Hnd. rewrite Hfs in Hnd.
    destruct (rl_position _ _ _ _ (last fs1) Hr) as (sz & Hblk & _).
    { rewrite Hfs. destruct (last fs1) eqn:E; [|done]. apply last_Some_elem_of in E. simpl. set_solver. }
    rewrite Hfs, ring_succ_last in Hblk by done. simpl in Hblk.
    assert (Hge : b <= after (pxEnd s) (head fs2)) by (destruct fs2; simpl; [done|by inversion Hfs2]).
    assert (forall f, wp (insert_block_loop f (before (last fs1)) b)
      (fun p s' => s' = s /\ p = before (last (fs1 ++ []))) s) as Hstop; [|apply Hstop].
    intros f. destruct f; simpl; apply wp_bind; (eapply wp_block_next; [done|]); simpl;
      (rewrite (proj2 (Z.ltb_ge _ _)) by done); apply wp_ret; by rewrite app_nil_r.
  - destruct fuel as [|fuel]; simpl in Hfuel; [lia|].
    pose proof (free_addrs_nodup _ _ _ (rl_tiled _ _ _ _ Hr)) as Hnd. rewrite Hfs in Hnd.
    destruct (rl_position _ _ _ _ (last fs1) Hr) as (sz & Hblk & _).
    { rewrite Hfs. destruct (last fs1) eqn:E; [|done]. apply last_Some_elem_of in E. simpl. set_solver. }
    rewrite Hfs, ring_succ_last in Hblk by done. simpl in Hblk. inversion_clear Hrest.
    simpl. apply wp_bind. eapply wp_block_next; [done|]. simpl.
    rewrite (proj2 (Z.ltb_lt _ _)) by done.
    specialize (IH (fs1 ++ [a]) fuel). rewrite last_snoc, <- (assoc_L (++)) in IH. simpl in IH.
    rewrite (assoc_L (++) fs1 [a] rest : fs1 ++ a :: rest = _).
    apply IH; try done; lia.
Qed.

(** ** prvInsertBlockIntoFreeList *)

Lemma absorb_next_shape b sz post : exists sz' post',
  absorb_next b sz post = mkTile b sz' true :: post' /\
  ((sz' = sz /\ post' = post /\ match post with n :: _ => t_free n = false | [] => True end) \/
   (exists n, post = n :: post' /\ t_free n = true /\ sz' = sz + t_size n)).
Proof.
  destruct post as [|n post]; simpl; [eauto 10|].
  destruct (t_free n) eqn:E; eauto 10.
Qed.

(** What merging upwards writes, given the tiles [post] that follow [b]. *)
Lemma merge_with_next_spec s it b nb bsz isz post sz' post' fs :
  blocks s !! b = Some (mkBlock nb bsz) ->
  blocks s !! it = Some (mkBlock (after (pxEnd s) (head (free_addrs post))) isz) ->
  tiled (b + bsz) post (pxEnd s) -> 0 <= b -> 0 < bsz -> pxEnd s + xHeapStructSize <= u32_modulus ->
  (forall n, head post = Some n -> t_free n = true ->
     blocks s !! t_addr n = Some (mkBlock (after (pxEnd s) (succ_of (t_addr n) fs)) (t_size n)) /\
     succ_of (t_addr n) fs = head (free_addrs (tail post))) ->
  absorb_next b bsz post = mkTile b sz' true :: post' ->
  wp (merge_with_next it b) (fun _ s' => s' = set_blocks
    (let m := <[b := mkBlock (after (pxEnd s) (head (free_addrs post'))) sz']> (blocks s) in
     if it =? b then m else <[it := mkBlock b isz]> m) s) s.
Proof.
  intros Hb Hit Ht Hb0 Hsz Hend Hn Habs. rewrite xHeapStructSize_16 in Hend.
  assert (Hlast : wp (if negb (it =? b) then set_block_next it b else mret tt)
      (fun _ s' => s' = set_blocks
        (let m := <[b := mkBlock (after (pxEnd s) (head (free_addrs post'))) sz']> (blocks s) in
         if it =? b then m else <[it := mkBlock b isz]> m) s)
      (set_blocks (<[b := mkBlock (after (pxEnd s) (head (free_addrs post'))) sz']> (blocks s)) s)).
  { destruct (Z.eqb_spec it b); simpl; [by apply wp_ret|].
    eapply wp_set_block_next; [simpl; by rewrite lookup_insert_ne by done|]. done. }
  unfold merge_with_next. apply wp_bind. eapply wp_block_size; [done|].
  apply wp_bind. eapply wp_block_next; [done|]. simpl. apply wp_bind.
  destruct post as [|n r]; simpl in *.
  - simplify_eq. change (free_addrs []) with (@nil Z) in *. simpl in *.
    rewrite u32_small by u32_lia.
    rewrite Ht, Z.eqb_refl. apply wp_bind, wp_gets. rewrite Z.eqb_refl. simpl.
    eapply wp_set_block_next; [done|]. exact Hlast.
  - destruct Ht as (Ha & Hs & _ & Ht). pose proof (tiled_le _ _ _ Ht) as Hle.
    rewrite u32_small by u32_lia.
    rewrite free_addrs_cons. destruct (t_free n) eqn:Hf; simplify_eq.
    + destruct (Hn n eq_refl Hf) as [Hbn Hsucc]. simpl. rewrite Ha, Z.eqb_refl.
      apply wp_bind, wp_gets. rewrite (proj2 (Z.eqb_neq _ _)) by lia. simpl.
      apply wp_bind. rewrite <- Ha. eapply wp_block_size; [done|]. simpl.
      apply wp_bind. eapply wp_set_block_size; [done|]. simpl.
      apply wp_bind. eapply wp_block_next; [simpl; by rewrite lookup_insert_ne by lia|]. simpl.
      eapply wp_set_block_next; [simpl; by rewrite lookup_insert_eq|]. simpl.
      rewrite insert_insert_eq, set_blocks_twice, Hsucc.
      rewrite u32_small by u32_lia. exact Hlast.
    + assert (Hne : b + sz' < after (pxEnd s) (head (free_addrs r))).
      { destruct (head (free_addrs r)) as [a|] eqn:E; simpl; [|lia].
        assert (a ∈ free_addrs r) by (destruct (free_addrs r); simplify_eq/=; set_solver).
        pose proof (free_addrs_bounds _ _ _ _ Ht ltac:(eassumption)). lia. }
      rewrite (proj2 (Z.eqb_neq _ _)) by lia.
      eapply wp_set_block_next; [done|]. simpl.
      assert (Hfr : free_addrs (n :: r) = free_addrs r) by (by rewrite free_addrs_cons, Hf).
      rewrite Hfr in *. exact Hlast.
Qed.

(** The tiles that [absorb_next] replaces. *)
Lemma absorb_next_tiled b sz post e sz' post' :
  absorb_next b sz post = mkTile b sz' true :: post' -> tiled (b + sz) post e ->
  0 < sz -> (16 | sz) ->
  exists taken, post = taken ++ post' /\ tiled (b + sz) taken (b + sz') /\ 0 < sz' /\ (16 | sz').
Proof.
  intros Habs Ht Hsz Hdiv. destruct post as [|n r]; simpl in *.
  - simplify_eq. exists []. by repeat split.
  - destruct Ht as (? & ? & ? & ?). destruct (t_free n); simplify_eq.
    + exists [n]. repeat split; simpl; try done; try lia. by apply Z.divide_add_r.
    + exists []. by repeat split.
Qed.

Lemma split_around s base pre b sz post X :
  rep_links s base (pre ++ mkTile b sz false :: post) X ->
  tiled base pre b /\ 0 < sz /\ (16 | sz) /\ tiled (b + sz) post (pxEnd s) /\ 0 < b /\
  b + sz <= pxEnd s /\ pxEnd s + xHeapStructSize <= u32_modulus /\ b <> xStart /\
  Forall (fun a => a < b) (free_addrs pre) /\ Forall (fun a => b < a) (free_addrs post).
Proof.
  intros Hr. pose proof (rl_tiled _ _ _ _ Hr) as Ht. destruct (rl_range _ _ _ _ Hr) as [? ? ? ? [? ?]].
  apply tiled_app in Ht as (m & Hp & Ht). simpl in Ht. destruct Ht as (<- & ? & ? & Ht).
  pose proof (tiled_le _ _ _ Hp). pose proof (tiled_le _ _ _ Ht).
  repeat split; try done; try lia; apply Forall_forall; intros a Ha.
  - pose proof (free_addrs_bounds _ _ _ _ Hp Ha). lia.
  - pose proof (free_addrs_bounds _ _ _ _ Ht Ha). lia.
Qed.

(** The headers of the tiles after the insertion point. *)
Lemma next_header s base pre b sz post X n :
  rep_links s base (pre ++ mkTile b sz false :: post) X -> head post = Some n -> t_free n = true ->
  blocks s !! t_addr n = Some (mkBlock (after (pxEnd s)
    (succ_of (t_addr n) (free_addrs (pre ++ mkTile b sz false :: post)))) (t_size n)) /\
  succ_of (t_addr n) (free_addrs (pre ++ mkTile b sz false :: post)) = head (free_addrs (tail post)).
Proof.
  intros Hr Hn Hf. destruct post as [|n' r]; simplify_eq/=. split.
  - apply (rl_free _ _ _ _ Hr); [set_solver|done].
  - pose proof (free_addrs_nodup _ _ _ (rl_tiled _ _ _ _ Hr)) as Hnd.
    rewrite free_addrs_app, !free_addrs_cons, Hf in *. simpl in *.
    apply succ_of_split. by apply NoDup_notin_app in Hnd as [??].
Qed.

(** The header before the insertion point. *)
Lemma previous_header s base pre b sz post X :
  rep_links s base (pre ++ mkTile b sz false :: post) X ->
  exists isz, blocks s !! before (last (free_addrs pre)) =
    Some (mkBlock (after (pxEnd s) (head (free_addrs post))) isz) /\
    match last (free_addrs pre) with
    | None => isz = 0
    | Some a => exists t, t ∈ pre /\ t_free t = true /\ t_addr t = a /\ t_size t = isz
    end.
Proof.
  intros Hr. pose proof (free_addrs_nodup _ _ _ (rl_tiled _ _ _ _ Hr)) as Hnd.
  destruct (rl_position _ _ _ _ (last (free_addrs pre)) Hr) as (isz & Hb & Hm).
  { rewrite free_addrs_app. destruct (last (free_addrs pre)) eqn:E; [|done].
    apply last_Some_elem_of in E. simpl. set_solver. }
  rewrite free_addrs_app, free_addrs_cons in Hb, Hnd. simpl in Hb, Hnd.
  rewrite ring_succ_last in Hb by done. exists isz. split; [done|].
  destruct (last (free_addrs pre)) as [a|] eqn:E; [|done].
  destruct Hm as (t & Hin & Hf & Ha & Hs). exists t. split_and!; try done.
  apply last_Some_elem_of, elem_of_free_addrs in E as (t' & Hin' & ? & ?).
  replace t with t'; [done|].
  eapply (tiled_addr_inj _ _ _ t' t (rl_tiled _ _ _ _ Hr)); [set_solver|done|congruence].
Qed.

(** Allocated tiles keep their headers. *)
Definition same_alloc (ts : list tile) (s s' : heap4) : Prop :=
  forall t, t ∈ ts -> t_free t = false -> blocks s' !! t_addr t = blocks s !! t_addr t.

Lemma insert_frame s base pre mid0 f fz post X m' :
  rep_links s base (pre ++ mid0 ++ post) X ->
  (forall m1 m2, tiled m1 mid0 m2 -> m1 = f /\ m2 = f + fz) -> 0 < fz ->
  (forall a, a <> f -> a <> before (last (free_addrs pre)) -> m' !! a = blocks s !! a) ->
  same_alloc (pre ++ post) s (set_blocks m' s).
Proof.
  intros Hr Hmid Hfz Hother t Hin Hf. simpl. apply Hother.
  - pose proof (rl_tiled _ _ _ _ Hr) as Ht. rewrite !tiled_app in Ht.
    destruct Ht as (m1 & Hp & Ht). rewrite tiled_app in Ht. destruct Ht as (m2 & Hm & Hq).
    destruct (Hmid _ _ Hm) as [-> ->]. apply elem_of_app in Hin as [Hin|Hin].
    + pose proof (tiled_bounds _ _ _ _ Hp Hin). lia.
    + pose proof (tiled_bounds _ _ _ _ Hq Hin). lia.
  - destruct (last (free_addrs pre)) as [a|] eqn:El; unfold before; simpl.
    + apply last_Some_elem_of, elem_of_free_addrs in El as (t' & ? & ? & <-). intros E.
      apply (tiled_addr_inj _ _ _ t t' (rl_tiled _ _ _ _ Hr)) in E; [congruence|set_solver|set_solver].
    + apply (rl_addr_range _ _ _ _ t Hr). set_solver.
Qed.

(** After merging upwards from a block [f] that covers the tiles [mid0], the
    headers are those of the tiling with the merged free tile. *)
Lemma insert_links s base pre mid0 f fz post X X' m' sz' post' :
  rep_links s base (pre ++ mid0 ++ post) X ->
  (forall m1 m2, tiled m1 mid0 m2 -> m1 = f /\ m2 = f + fz) ->
  0 < fz -> (16 | fz) -> mid0 <> [] ->
  absorb_next f fz post = mkTile f sz' true :: post' ->
  m' !! f = Some (mkBlock (after (pxEnd s) (head (free_addrs post'))) sz') ->
  (exists n isz, blocks s !! before (last (free_addrs pre)) = Some (mkBlock n isz) /\
     m' !! before (last (free_addrs pre)) = Some (mkBlock f isz)) ->
  (forall a, a <> f -> a <> before (last (free_addrs pre)) -> m' !! a = blocks s !! a) ->
  (forall t, t ∈ pre ++ post -> X (t_addr t) -> X' (t_addr t)) ->
  rep_links (set_blocks m' s) base (pre ++ mkTile f sz' true :: post') X'.
Proof.
  intros Hr Hmid Hfz Hdiv Hne Habs Hf Hbl Hother HX.
  pose proof (rl_tiled _ _ _ _ Hr) as Ht. rewrite !tiled_app in Ht.
  destruct Ht as (m1 & _ & Ht). rewrite tiled_app in Ht. destruct Ht as (m2 & Hm & Hq).
  destruct (Hmid _ _ Hm) as [-> ->].
  destruct (absorb_next_tiled _ _ _ _ _ _ Habs Hq Hfz Hdiv) as (taken & -> & Htk & ? & ?).
  rewrite (assoc_L (++) mid0) in Hr.
  apply (replace_mid s base pre (mid0 ++ taken) [mkTile f sz' true] post' X); try done.
  - intros k1 k2 (k & Hk & Hk')%tiled_app. destruct (Hmid _ _ Hk) as [-> ->].
    simpl. repeat split; try done.
    assert (forall ts a b c, tiled a ts b -> tiled a ts c -> b = c) as Hdet.
    { induction ts as [|t ts IH]; simpl; intros; [congruence|]. naive_solver. }
    by eapply Hdet.
  - intros t Ht _. apply list_elem_of_singleton in Ht as ->. simpl. rewrite Hf. do 3 f_equal.
    by rewrite decide_True.
  - intros t Ht. by apply list_elem_of_singleton in Ht as ->.
  - intros a Ha _ Hm'. apply Hother; [|done]. intros ->.
    by apply (Hm' (mkTile f sz' true)); [set_solver|].
  - intros t Hin. apply HX. set_solver.
Qed.

(** The position before an insertion point, and its header. *)
Lemma position_header s base pre rest X :
  rep_links s base (pre ++ rest) X ->
  exists isz, blocks s !! before (last (free_addrs pre)) =
    Some (mkBlock (after (pxEnd s) (head (free_addrs rest))) isz).
Proof.
  intros Hr. pose proof (free_addrs_nodup _ _ _ (rl_tiled _ _ _ _ Hr)) as Hnd.
  destruct (rl_position _ _ _ _ (last (free_addrs pre)) Hr) as (isz & Hbl & _).
  { rewrite free_addrs_app. destruct (last (free_addrs pre)) eqn:E; [|done].
    apply last_Some_elem_of in E. simpl. set_solver. }
  rewrite free_addrs_app in Hbl, Hnd. rewrite ring_succ_last in Hbl by done. eauto.
Qed.

Lemma insert_block_merge_prev s base pre p b sz post X nb :
  rep_links s base ((pre ++ [p]) ++ mkTile b sz false :: post) X -> t_free p = true ->
  blocks s !! b = Some (mkBlock nb sz) ->
  wp (b' ← merge_with_previous (t_addr p) b; merge_with_next (t_addr p) b')
    (fun _ s' => s' = set_blocks (blocks s') s /\
       rep_links s' base (pre ++ absorb_next (t_addr p) (t_size p + sz) post)
         (fun a => X a /\ a <> b) /\ same_alloc (pre ++ post) s s') s.
Proof.
  intros Hr Hp Hb. pose proof (split_around _ _ _ _ _ _ _ Hr) as
    (Hpre & Hsz & Hdiv & Hpost & Hb0 & Hbe & Hend & _).
  destruct (previous_header _ _ _ _ _ _ _ Hr) as (isz & Hit & Ht).
  rewrite free_addrs_snoc, Hp, last_snoc in Hit, Ht.
  destruct Ht as (t & Hin & Hf & Ha & <-). unfold before in Hit. simpl in Hit.
  apply (tiled_addr_inj _ _ _ t p Hpre) in Ha; [subst t|done|set_solver].
  apply tiled_app in Hpre as (m1 & Hpre & (Hm1 & Hps & Hpd & Hpb)). simpl in Hpb. subst m1.
  pose proof (tiled_le _ _ _ Hpre) as Hle. destruct (rl_range _ _ _ _ Hr) as [Hbase _ _ _ _].
  rewrite xHeapStructSize_16 in Hend.
  unfold merge_with_previous. apply wp_bind, wp_bind. eapply wp_block_size; [done|]. simpl.
  rewrite u32_small, Hpb, Z.eqb_refl by u32_lia.
  apply wp_bind. eapply wp_block_size; [done|]. apply wp_bind. eapply wp_set_block_size; [done|].
  apply wp_ret. simpl. rewrite u32_small by u32_lia.
  destruct (absorb_next_shape (t_addr p) (t_size p + sz) post) as (sz' & post' & Habs & _).
  eapply wp_mono; [eapply merge_with_next_spec; simpl|].
  - by rewrite lookup_insert_eq.
  - by rewrite lookup_insert_eq.
  - by rewrite Z.add_assoc, Hpb.
  - lia.
  - lia.
  - by rewrite xHeapStructSize_16.
  - intros n Hn Hnf. destruct (next_header _ _ _ _ _ _ _ _ Hr Hn Hnf) as [E1 E2].
    rewrite lookup_insert_ne; [by split; [exact E1|]|].
    destruct post; simplify_eq/=. destruct Hpost as (? & ? & _). lia.
  - exact Habs.
  - intros _ s' ->. rewrite Z.eqb_refl, blocks_set_blocks, set_blocks_twice.
    cbv zeta. rewrite insert_insert_eq. split; [done|].
    assert (Hmid : forall k1 k2, tiled k1 [p; mkTile b sz false] k2 ->
      k1 = t_addr p /\ k2 = t_addr p + (t_size p + sz)).
    { intros k1 k2. simpl. intros (? & _ & _ & ? & _ & _ & ?). lia. }
    split; [|apply (insert_frame s base pre [p; mkTile b sz false] (t_addr p) (t_size p + sz) post X);
      [by rewrite <- (assoc_L (++)) in Hr|done|lia|intros; by rewrite lookup_insert_ne]].
    rewrite Habs.
    apply (insert_links s base pre [p; mkTile b sz false] (t_addr p) (t_size p + sz) post X);
      try done.
    + by rewrite <- (assoc_L (++)) in Hr.
    + lia.
    + by apply Z.divide_add_r.
    + by rewrite lookup_insert_eq.
    + rewrite <- (assoc_L (++)) in Hr. 
      destruct (position_header _ _ _ _ _ Hr) as (isz & Hbl). simpl in Hbl.
      rewrite free_addrs_cons, Hp in Hbl. simpl in Hbl.
      eexists _, isz. split; [done|]. rewrite lookup_insert_ne; [done|].
      destruct (last (free_addrs pre)) eqn:E; unfold before; simpl.
      * apply last_Some_elem_of in E. pose proof (free_addrs_bounds _ _ _ _ Hpre E). lia.
      * pose proof (rl_addr_range _ _ _ _ p Hr ltac:(set_solver)). naive_solver.
    + intros a ? ?. by rewrite lookup_insert_ne.
    + intros t Hin' HXt. split; [done|]. intros E.
      apply elem_of_app in Hin' as [Hin'|Hin'].
      * pose proof (tiled_bounds _ _ _ _ Hpre Hin'). lia.
      * pose proof (tiled_bounds _ _ _ _ Hpost Hin'). lia.
Qed.

Lemma insert_block_no_merge s base pre b sz post X nb :
  rep_links s base (pre ++ mkTile b sz false :: post) X ->
  match last pre with Some p => t_free p = false | None => True end ->
  blocks s !! b = Some (mkBlock nb sz) ->
  let it := before (last (free_addrs pre)) in
  wp (b' ← merge_with_previous it b; merge_with_next it b')
    (fun _ s' => s' = set_blocks (blocks s') s /\
       rep_links s' base (pre ++ absorb_next b sz post) (fun a => X a /\ a <> b) /\
       same_alloc (pre ++ post) s s') s.
Proof.
  intros Hr Hlast Hb it. pose proof (split_around _ _ _ _ _ _ _ Hr) as
    (Hpre & Hsz & Hdiv & Hpost & Hb0 & Hbe & Hend & Hbs & _).
  destruct (previous_header _ _ _ _ _ _ _ Hr) as (isz & Hit & Ht).
  destruct (rl_range _ _ _ _ Hr) as [Hbase _ _ _ [? _]]. rewrite xHeapStructSize_16 in Hend.
  assert (it +u isz <> b /\ it <> b) as [Hne Hitb].
  { subst it. destruct (last (free_addrs pre)) as [a|]; unfold before; simpl.
    - destruct Ht as (t & Hin & Hf & <- & <-). pose proof (tiled_bounds _ _ _ _ Hpre Hin).
      rewrite u32_small by u32_lia. split; [|lia].
      intros E. rewrite (tiled_last _ _ _ _ Hpre Hin E) in Hlast. congruence.
    - subst isz. rewrite Z.add_0_r, u32_small by u32_lia. lia. }
  unfold merge_with_previous. apply wp_bind, wp_bind. eapply wp_block_size; [done|]. simpl.
  rewrite (proj2 (Z.eqb_neq _ _)) by done. apply wp_ret.
  destruct (absorb_next_shape b sz post) as (sz' & post' & Habs & _).
  eapply wp_mono; [eapply merge_with_next_spec; try done|].
  - lia.
  - intros n Hn Hnf. apply (next_header _ _ _ _ _ _ _ _ Hr Hn Hnf).
  - intros _ s' ->. rewrite (proj2 (Z.eqb_neq _ _)) by done. cbv zeta. split; [done|].
    assert (Hmid : forall k1 k2, tiled k1 [mkTile b sz false] k2 -> k1 = b /\ k2 = b + sz)
      by (intros k1 k2; simpl; lia).
    split; [|apply (insert_frame s base pre [mkTile b sz false] b sz post X);
      [done|done|lia|intros; by rewrite !lookup_insert_ne]].
    rewrite Habs. apply (insert_links s base pre [mkTile b sz false] b sz post X); try done.
    + by rewrite lookup_insert_ne, lookup_insert_eq.
    + eexists _, isz. split; [done|]. by rewrite lookup_insert_eq.
    + intros a ? ?. by rewrite !lookup_insert_ne.
    + intros t Hin' HXt. split; [done|]. intros E.
      apply elem_of_app in Hin' as [Hin'|Hin'].
      * pose proof (tiled_bounds _ _ _ _ Hpre Hin'). lia.
      * pose proof (tiled_bounds _ _ _ _ Hpost Hin'). lia.
Qed.

Lemma last_split {A} (xs : list A) x : last xs = Some x -> exists ys, xs = ys ++ [x] /\ removelast xs = ys.
Proof.
  intros H. destruct xs as [|y ys _] using rev_ind; [done|]. rewrite last_snoc in H. simplify_eq.
  exists ys. split; [done|]. apply removelast_last.
Qed.

(** prvInsertBlockIntoFreeList frees the tile [b]. *)
Lemma insert_block_spec s base pre b sz post X nb :
  rep_links s base (pre ++ mkTile b sz false :: post) X ->
  blocks s !! b = Some (mkBlock nb sz) ->
  wp (prvInsertBlockIntoFreeList xStart b)
    (fun _ s' => s' = set_blocks (blocks s') s /\
       rep_links s' base (release pre b sz post) (fun a => X a /\ a <> b) /\
       same_alloc (pre ++ post) s s') s.
Proof.
  intros Hr Hb. pose proof (split_around _ _ _ _ _ _ _ Hr) as
    (_ & Hsz & _ & _ & _ & Hbe & _ & _ & Hlo & Hhi).
  pose proof (free_addrs_fuel _ _ _ _ Hr) as Hfuel.
  assert (Hfs : free_addrs (pre ++ mkTile b sz false :: post) = [] ++ free_addrs pre ++ free_addrs post)
    by (by rewrite free_addrs_app, free_addrs_cons).
  unfold prvInsertBlockIntoFreeList. apply wp_bind, wp_gets, wp_bind. eapply wp_mono.
  { eapply (insert_block_loop_spec s base _ X b (free_addrs post) [] (free_addrs pre)); try done.
    - eapply Forall_impl; [exact Hhi|]. simpl. lia.
    - lia.
    - rewrite Hfs, length_app in Hfuel. simpl in Hfuel. rewrite length_app in Hfuel. lia. }
  intros p s' [-> ->]. simpl. unfold release. destruct (last pre) as [q|] eqn:Hl.
  - destruct (t_free q) eqn:Hq.
    + apply last_split in Hl as (pre' & -> & ->).
      rewrite free_addrs_snoc, Hq, last_snoc. unfold before. simpl.
      eapply wp_mono; [by eapply insert_block_merge_prev|]. intros _ s' (? & ? & Hsa).
      split_and!; try done. intros t Hin Hft. apply Hsa; [|done].
      rewrite <- (assoc_L (++)) in Hin. apply elem_of_app in Hin as [?|[Hin|?]%elem_of_app];
        [set_solver| |set_solver]. apply list_elem_of_singleton in Hin as ->. congruence.
    + eapply insert_block_no_merge; [done| |done]. by rewrite Hl.
  - apply last_None in Hl as ->. simpl in *. change (absorb_next b sz post) with ([] ++ absorb_next b sz post).
    by eapply (insert_block_no_merge _ _ []).
Qed.

(** ** Coalescing *)

Lemma coalesced_cons_inv t ts : coalesced (t :: ts) -> coalesced ts.
Proof. destruct ts; simpl; tauto. Qed.

Lemma coalesced_app ts1 ts2 : coalesced (ts1 ++ ts2) <-> coalesced ts1 /\ coalesced ts2 /\
  match last ts1, head ts2 with Some a, Some b => t_free a && t_free b = false | _, _ => True end.
Proof.
  induction ts1 as [|t ts1 IH]; simpl; [tauto|].
  destruct ts1 as [|t1 ts1]; simpl in *.
  - destruct ts2; simpl; tauto.
  - rewrite IH. tauto.
Qed.

Lemma absorb_next_coalesced b sz post : coalesced post -> coalesced (absorb_next b sz post).
Proof.
  destruct post as [|n r]; simpl; [done|]. destruct (t_free n) eqn:E.
  - intros H. destruct r as [|n' r]; simpl in *; [done|]. done.
  - simpl. rewrite E. naive_solver.
Qed.

Lemma release_coalesced pre b sz post t : coalesced (pre ++ t :: post) -> coalesced (release pre b sz post).
Proof.
  intros (Hp & Hq%coalesced_cons_inv & _)%coalesced_app.
  assert (Hhd : forall b z, exists t', head (absorb_next b z post) = Some t' /\ t_free t' = true).
  { intros b' z. destruct (absorb_next_shape b' z post) as (z' & r & -> & _). simpl. eauto. }
  unfold release. destruct (last pre) as [p|] eqn:Hl; [|by apply absorb_next_coalesced].
  destruct (t_free p) eqn:Hf.
  - apply last_split in Hl as (pre' & -> & ->). apply coalesced_app in Hp as (Hp & _ & Hj).
    apply coalesced_app. split_and!; [done|by apply absorb_next_coalesced|].
    destruct (Hhd (t_addr p) (t_size p + sz)) as (t' & -> & ->). simpl in Hj.
    rewrite Hf in Hj. by destruct (last pre').
  - apply coalesced_app. split_and!; [done|by apply absorb_next_coalesced|].
    rewrite Hl. destruct (Hhd b sz) as (t' & -> & ->). by rewrite Hf.
Qed.

Lemma absorb_next_sum b sz post : free_sum (absorb_next b sz post) = sz + free_sum post.
Proof.
  destruct post as [|n r]; simpl; [by rewrite free_sum_cons|].
  destruct (t_free n) eqn:E; rewrite !free_sum_cons; simpl; rewrite E; lia.
Qed.

Lemma release_sum pre b sz post : free_sum (release pre b sz post) = free_sum pre + sz + free_sum post.
Proof.
  unfold release. destruct (last pre) as [p|] eqn:Hl.
  - destruct (t_free p) eqn:Hf; rewrite ?free_sum_app, absorb_next_sum.
    + apply last_split in Hl as (pre' & -> & ->). rewrite free_sum_app, free_sum_cons, Hf.
      rewrite free_sum_nil. lia.
    + lia.
  - apply last_None in Hl as ->. rewrite absorb_next_sum, free_sum_nil. lia.
Qed.

(** ** vPortFree *)

Lemma rep_links_ext s s' base ts X X' :
  rep_links s base ts X -> blocks s' = blocks s -> pxEnd s' = pxEnd s ->
  xBlockAllocatedBit s' = xBlockAllocatedBit s -> (forall t, t ∈ ts -> X (t_addr t) -> X' (t_addr t)) ->
  rep_links s' base ts X'.
Proof. intros [] E1 E2 E3 HX. split; rewrite ?E1, ?E2, ?E3; eauto. Qed.

(** Overwriting the header of an allocated tile leaves only that one open. *)
Lemma rep_links_open s base pre b sz post X h :
  rep_links s base (pre ++ mkTile b sz false :: post) X ->
  rep_links (set_blocks (<[b := h]> (blocks s)) s) base (pre ++ mkTile b sz false :: post)
    (fun a => X a \/ a = b).
Proof.
  intros Hr. set (t0 := mkTile b sz false).
  pose proof (rl_addr_range _ _ _ _ t0 Hr ltac:(set_solver)) as (? & ? & ? & ? & _). simpl in *.
  split; simpl; try apply Hr.
  - rewrite lookup_insert_ne by done. apply Hr.
  - rewrite lookup_insert_ne by done. apply Hr.
  - intros t Hin Hf. rewrite lookup_insert_ne; [by apply (rl_free _ _ _ _ Hr)|].
    intros E. apply (tiled_addr_inj _ _ _ t0 t (rl_tiled _ _ _ _ Hr)) in E; [|set_solver|done].
    by subst t.
  - intros t Hin Hf Hn. rewrite lookup_insert_ne by (intros ->; tauto).
    apply (rl_alloc _ _ _ _ Hr); tauto.
  - rewrite lookup_insert_ne by (unfold NULL; lia). apply Hr.
Qed.

(** The allocated bit is above every block size. *)
Lemma land_alloc_bit sz : 0 <= sz < alloc_bit -> Z.land sz alloc_bit = 0.
Proof.
  intros. apply Z.bits_inj'. intros n Hn. rewrite Z.land_spec, Z.bits_0.
  change alloc_bit with (2 ^ 31) in *. rewrite Z.pow2_bits_eqb by lia.
  destruct (Z.eqb_spec 31 n) as [<-|]; [|apply andb_false_r].
  rewrite andb_true_r. apply Z.testbit_false; [lia|]. by rewrite Z.div_small.
Qed.

Lemma alloc_bit_set sz : 0 <= sz < alloc_bit -> Z.land (Z.lor sz alloc_bit) alloc_bit = alloc_bit.
Proof. intros. by rewrite Z.land_lor_distr_l, land_alloc_bit, Z.land_diag. Qed.

Lemma alloc_bit_clear sz : 0 <= sz < alloc_bit ->
  Z.land (Z.lor sz alloc_bit) (Z.lnot alloc_bit) = sz.
Proof.
  intros. rewrite Z.land_lor_distr_l, <- !Z.ldiff_land, Z.ldiff_diag, Z.lor_0_r.
  rewrite Z.ldiff_land. apply Z.bits_inj'. intros n Hn.
  rewrite Z.land_spec, Z.lnot_spec by done.
  pose proof (f_equal (fun z => Z.testbit z n) (land_alloc_bit sz ltac:(done))) as E.
  simpl in E. rewrite Z.land_spec, Z.bits_0 in E.
  by destruct (Z.testbit sz n), (Z.testbit alloc_bit n).
Qed.

(** vPortFree gives the tile whose payload starts at [pv] back. *)
Lemma vPortFree_spec s base ts b ts' :
  rep_heap s base ts -> spec_free b ts = Some ts' ->
  wp (vPortFree_body xStart (b + xHeapStructSize))
    (fun _ s' => rep_heap s' base ts' /\
       xNumberOfSuccessfulFrees s' = xNumberOfSuccessfulFrees s +u 1 /\
       pxEnd s' = pxEnd s /\ xMinimumEverFreeBytesRemaining s' = xMinimumEverFreeBytesRemaining s) s.
Proof.
  intros [Hr Hc Hfb Hmin] Hspec. unfold spec_free in Hspec.
  destruct (find_tile _ _) as [[[pre [b' sz fr]] post]|] eqn:Hfind; simplify_eq.
  apply find_tile_Some in Hfind as (-> & [Hb Hfr]%andb_true_iff & _). simpl in *.
  apply Z.eqb_eq in Hb as ->. destruct fr; [done|]. clear Hfr.
  set (t := mkTile b sz false) in *.
  pose proof (rl_addr_range _ _ _ _ t Hr ltac:(set_solver)) as (? & _ & _ & ? & ? & Hu & Hsz).
  pose proof (rl_alloc _ _ _ _ Hr t ltac:(set_solver) eq_refl ltac:(tauto)) as Hblk. simpl in *.
  pose proof (free_sum_bounds _ _ _ (rl_tiled _ _ _ _ Hr)) as Hsum.
  pose proof (rl_range _ _ _ _ Hr) as [Hbase _ Hend _ _].
  rewrite free_sum_app, free_sum_cons in Hsum, Hfb. simpl in Hsum, Hfb. rewrite xHeapStructSize_16 in *.
  unfold vPortFree_body, free_guard, free_clear, free_suspended.
  rewrite (proj2 (Z.eqb_neq _ _)) by (unfold NULL; lia). simpl negb. cbv iota zeta.
  rewrite xHeapStructSize_16, Z.add_simpl_r, (u32_small b) by done.
  apply wp_bind, wp_bind. eapply wp_block_size; [done|]. simpl. apply wp_bind, wp_gets.
  rewrite (rl_bit _ _ _ _ Hr), alloc_bit_set by lia. change (negb (alloc_bit =? 0)) with true. cbv iota.
  apply wp_bind. eapply wp_block_next; [done|]. apply wp_ret. simpl.
  apply wp_bind, wp_bind. eapply wp_block_size; [done|]. simpl. apply wp_bind, wp_gets.
  rewrite (rl_bit _ _ _ _ Hr). eapply wp_set_block_size; [done|]. simpl. rewrite alloc_bit_clear by lia.
  apply wp_bind. eapply wp_block_size; [simpl; by rewrite lookup_insert_eq|]. simpl.
  apply wp_bind, wp_modify, wp_bind. eapply wp_mono.
  { eapply (insert_block_spec _ base pre b sz post (fun a => False \/ a = b)).
    - eapply rep_links_ext; [eapply (rep_links_open _ _ _ _ _ _ _ (mkBlock NULL sz) Hr)|..]; done.
    - simpl. by rewrite lookup_insert_eq. }
  intros _ s' (-> & Hr' & _). apply wp_modify. split; [|done].
  pose proof (free_sum_bounds _ _ _ (rl_tiled _ _ _ _ Hr')) as Hsum'. rewrite release_sum in Hsum'.
  simpl in Hsum'. split; simpl.
  - eapply rep_links_ext; [exact Hr'|done..|]. simpl. tauto.
  - by eapply release_coalesced.
  - rewrite release_sum, u32_small by u32_lia. lia.
  - rewrite u32_small by u32_lia. lia.
Qed.

(** ** pvPortMalloc *)

(** The search stops at the first free block that is large enough, or at
    [pxEnd]. *)
Lemma first_fit_loop_spec s base ts X w r2 : forall fs1 r1 fuel,
  rep_links s base ts X -> 0 < w -> free_tiles ts = fs1 ++ r1 ++ r2 ->
  Forall (fun t => t_size t < w) r1 ->
  match head r2 with Some t => w <= t_size t | None => True end ->
  (length r1 <= fuel)%nat ->
  wp (first_fit_loop fuel w (before (last (t_addr <$> fs1))) (after (pxEnd s) (head (t_addr <$> r1 ++ r2))))
     (fun r s' => s' = s /\ r = (before (last (t_addr <$> fs1 ++ r1)),
                                 after (pxEnd s) (head (t_addr <$> r2)))) s.
Proof.
  intros fs1 r1; revert fs1; induction r1 as [|t r1 IH]; intros fs1 fuel Hr Hw Hfs Hr1 Hr2 Hfuel.
  - rewrite app_nil_r. simpl. destruct r2 as [|t r2]; simpl.
    + destruct fuel; simpl; apply wp_bind; (eapply wp_block_size; [apply Hr|]);
        apply wp_bind; (eapply wp_block_next; [apply Hr|]); simpl;
        rewrite andb_false_r; by apply wp_ret.
    + assert (Hin : t ∈ free_tiles ts) by (rewrite Hfs; set_solver).
      apply list_elem_of_filter in Hin as [Hf Hin]. pose proof (rl_free _ _ _ _ Hr t Hin Hf).
      simpl in Hr2.
      destruct fuel; simpl; apply wp_bind; (eapply wp_block_size; [done|]);
        apply wp_bind; (eapply wp_block_next; [done|]); simpl;
        (rewrite (proj2 (Z.ltb_ge _ _)) by done); by apply wp_ret.
  - destruct fuel as [|fuel]; simpl in Hfuel; [lia|].
    assert (Hin : t ∈ free_tiles ts) by (rewrite Hfs; set_solver).
    apply list_elem_of_filter in Hin as [Hf Hin]. pose proof (rl_free _ _ _ _ Hr t Hin Hf) as Hb.
    inversion_clear Hr1. simpl. apply wp_bind. eapply wp_block_size; [done|].
    apply wp_bind. eapply wp_block_next; [done|]. simpl.
    rewrite (proj2 (Z.ltb_lt _ _)) by done.
    assert (Hsucc : succ_of (t_addr t) (free_addrs ts) = head (t_addr <$> r1 ++ r2)).
    { pose proof (free_addrs_nodup _ _ _ (rl_tiled _ _ _ _ Hr)) as Hnd. unfold free_addrs in *.
      rewrite Hfs, fmap_app in *. simpl in *. apply succ_of_split. by apply NoDup_notin_app in Hnd as [??]. }
    rewrite Hsucc. set (n := head _).
    assert (Hnz : after (pxEnd s) n <> NULL).
    { destruct (rl_range _ _ _ _ Hr) as [? _ _ _ _]. pose proof (tiled_le _ _ _ (rl_tiled _ _ _ _ Hr)).
      subst n. destruct (r1 ++ r2) as [|t' r] eqn:E; simpl; unfold NULL; [lia|].
      assert (Hin' : t' ∈ free_tiles ts) by (rewrite Hfs; simpl; rewrite E; set_solver).
      apply list_elem_of_filter in Hin' as [_ Hin'].
      pose proof (rl_addr_range _ _ _ _ _ Hr Hin'). lia. }
    rewrite (proj2 (Z.eqb_neq _ _)) by done. simpl.
    specialize (IH (fs1 ++ [t]) fuel).
    assert (El : last (t_addr <$> fs1 ++ [t]) = Some (t_addr t)) by (rewrite fmap_app; apply last_snoc).
    rewrite El, <- !(assoc_L (++)) in IH.
    simpl in IH. unfold before in IH at 1. simpl in IH. apply IH; try done. lia.
Qed.

(** Writing the header of an allocated tile that was open. *)
Lemma rep_links_close s base pre b sz post X :
  rep_links s base (pre ++ mkTile b sz false :: post) X ->
  rep_links (set_blocks (<[b := mkBlock NULL (Z.lor sz alloc_bit)]> (blocks s)) s) base
    (pre ++ mkTile b sz false :: post) (fun a => X a /\ a <> b).
Proof.
  intros Hr. pose proof (rep_links_open _ _ _ _ _ _ _ (mkBlock NULL (Z.lor sz alloc_bit)) Hr) as Hr'.
  split; try apply Hr'. intros t Hin Hf Hn. simpl. destruct (decide (t_addr t = b)) as [E|E].
  - rewrite E, lookup_insert_eq.
    apply (tiled_addr_inj _ _ _ t (mkTile b sz false) (rl_tiled _ _ _ _ Hr)) in E; [by subst|done|set_solver].
  - apply (rl_alloc _ _ _ _ Hr' t); try done. tauto.
Qed.

Lemma mark_allocated_spec s base pre b sz post nb :
  rep_links s base (pre ++ mkTile b sz false :: post) (fun a => a = b) ->
  coalesced (pre ++ mkTile b sz false :: post) ->
  blocks s !! b = Some (mkBlock nb sz) ->
  xFreeBytesRemaining s = free_sum pre + sz + free_sum post ->
  0 <= xMinimumEverFreeBytesRemaining s ->
  wp (mark_allocated b) (fun _ s' =>
    rep_heap s' base (pre ++ mkTile b sz false :: post) /\ pxEnd s' = pxEnd s /\
    xMinimumEverFreeBytesRemaining s' =
      Z.min (xMinimumEverFreeBytesRemaining s) (xFreeBytesRemaining s') /\
    xNumberOfSuccessfulAllocations s' = xNumberOfSuccessfulAllocations s +u 1) s.
Proof.
  intros Hr Hc Hb Hfree Hmin.
  pose proof (free_sum_bounds _ _ _ (rl_tiled _ _ _ _ Hr)) as Hsum.
  pose proof (rl_addr_range _ _ _ _ (mkTile b sz false) Hr ltac:(set_solver)) as Hrange.
  destruct (rl_range _ _ _ _ Hr) as [? _ Hend Hsize _]. rewrite xHeapStructSize_16 in Hend.
  rewrite free_sum_app, free_sum_cons in Hsum. simpl in Hsum, Hrange.
  unfold mark_allocated. apply wp_bind. eapply wp_block_size; [done|]. simpl.
  do 2 apply wp_bind, wp_modify. apply wp_bind, wp_gets.
  set (s2 := if _ <? _ then _ else _).
  assert (blocks s2 = blocks s /\ pxEnd s2 = pxEnd s /\ xBlockAllocatedBit s2 = alloc_bit /\
    xFreeBytesRemaining s2 = free_sum pre + free_sum post /\
    xMinimumEverFreeBytesRemaining s2 =
      Z.min (xMinimumEverFreeBytesRemaining s) (free_sum pre + free_sum post) /\
    xNumberOfSuccessfulAllocations s2 = xNumberOfSuccessfulAllocations s) as (E1 & E2 & E3 & E4 & E5 & E6).
  { subst s2. simpl. rewrite (u32_small (xFreeBytesRemaining s - sz)) by (rewrite Hfree; u32_lia).
    destruct (Z.ltb_spec (xFreeBytesRemaining s - sz) (xMinimumEverFreeBytesRemaining s)); simpl;
      split_and!; try done; try apply Hr; lia. }
  apply wp_bind. eapply wp_set_block_size; [by rewrite E1|].
  apply wp_bind. eapply wp_set_block_next; [simpl; by rewrite lookup_insert_eq|]. apply wp_modify. simpl.
  rewrite insert_insert_eq, E1, E2, E3, E4, E5, E6. split_and!; try done.
  split; simpl; [|done| |].
  - eapply rep_links_ext; [eapply (rep_links_close _ _ _ _ _ _ _ Hr)|done|done| |]; simpl.
    + rewrite E3. symmetry. apply Hr.
    + tauto.
  - rewrite free_sum_app, free_sum_cons. simpl. lia.
  - lia.
Qed.

(** Taking a free tile out of the free list. *)
Lemma unlink_spec s base pre b z post isz n0 :
  rep_links s base (pre ++ mkTile b z true :: post) (fun _ => False) ->
  blocks s !! before (last (free_addrs pre)) = Some (mkBlock n0 isz) ->
  let m := <[before (last (free_addrs pre)) :=
             mkBlock (after (pxEnd s) (head (free_addrs post))) isz]> (blocks s) in
  rep_links (set_blocks m s) base (pre ++ mkTile b z false :: post) (fun a => a = b) /\
  m !! b = blocks s !! b.
Proof.
  intros Hr Hbl m.
  assert (Hne : before (last (free_addrs pre)) <> b).
  { pose proof (rl_tiled _ _ _ _ Hr) as Ht. apply tiled_app in Ht as (m1 & Hp & (<- & _)).
    destruct (last (free_addrs pre)) as [a|] eqn:El; unfold before; simpl.
    - apply last_Some_elem_of in El. pose proof (free_addrs_bounds _ _ _ _ Hp El) as Hb. simpl in Hb. lia.
    - intros E. symmetry in E. revert E.
      apply (rl_addr_range _ _ _ _ (mkTile b z true) Hr). set_solver. }
  split; [|subst m; by rewrite lookup_insert_ne].
  apply (replace_mid s base pre [mkTile b z true] [mkTile b z false] post (fun _ => False)); try done.
  - eexists _, isz. split; [done|]. subst m. rewrite lookup_insert_eq. done.
  - intros t Ht. apply list_elem_of_singleton in Ht as ->. done.
  - intros t Ht. apply list_elem_of_singleton in Ht as ->. done.
  - intros a Ha _ _. subst m. by rewrite lookup_insert_ne.
Qed.

Lemma split_block_spec s base pre b z post w n :
  rep_links s base (pre ++ mkTile b z false :: post) (fun a => a = b) ->
  match head post with Some t => t_free t = false | None => True end ->
  blocks s !! b = Some (mkBlock n z) -> 0 < w <= z -> (16 | w) ->
  wp (split_block xStart w b) (fun _ s' => s' = set_blocks (blocks s') s /\
    exists sz rest, carve w (mkTile b z true) ++ post = mkTile b sz false :: rest /\
      blocks s' !! b = Some (mkBlock n sz) /\
      rep_links s' base (pre ++ mkTile b sz false :: rest) (fun a => a = b)) s.
Proof.
  intros Hr Hhead Hb Hw Hdiv. unfold split_block, carve. simpl.
  pose proof (rl_addr_range _ _ _ _ (mkTile b z false) Hr ltac:(set_solver)) as Hrange. simpl in Hrange.
  destruct (rl_range _ _ _ _ Hr) as [Hbase _ Hend _ _]. rewrite xHeapStructSize_16 in Hend.
  pose proof (split_around _ _ _ _ _ _ _ Hr) as (Hp & _ & Hzd & Hq & _).
  apply wp_bind. eapply wp_block_size; [done|]. simpl.
  rewrite (u32_small (z - w)) by (unfold alloc_bit in *; u32_lia).
  destruct (Z.ltb_spec heapMINIMUM_BLOCK_SIZE (z - w)) as [Hbig|Hsmall].
  2:{ apply wp_ret. split; [by destruct s|]. eauto. }
  rewrite heapMINIMUM_BLOCK_SIZE_32 in Hbig. rewrite (u32_small (b + w)) by u32_lia.
  apply wp_bind. apply wp_modify. simpl. apply wp_bind.
  eapply wp_set_block_size; [simpl; by rewrite lookup_insert_ne by lia|]. simpl.
  set (nb := from_option _ _ _). rewrite set_blocks_twice.
  set (s2 := set_blocks _ s).
  assert (Hr2 : rep_links s2 base ((pre ++ [mkTile b w false]) ++ mkTile (b + w) (z - w) false :: post)
    (fun a => a = b \/ a = b + w)).
  { rewrite <- (assoc_L (++)). destruct (position_header s base pre _ _ Hr) as (isz & Hbl).
    assert (before (last (free_addrs pre)) <> b /\ before (last (free_addrs pre)) <> b + w) as [Hn1 Hn2].
    { destruct (last (free_addrs pre)) as [a|] eqn:El; unfold before; simpl.
      - apply last_Some_elem_of in El. pose proof (free_addrs_bounds _ _ _ _ Hp El). lia.
      - destruct (rl_range _ _ _ _ Hr) as [_ _ _ _ [_ ?]]. lia. }
    apply (replace_mid s base pre [mkTile b z false] [mkTile b w false; mkTile (b + w) (z - w) false] post
      (fun a => a = b)); try done.
    - intros m1 m2. simpl. intros (<- & ? & ? & <-). split_and!; try done; try lia.
      by apply Z.divide_sub_r.
    - eexists _, isz. split; [done|]. rewrite !lookup_insert_ne by done.
      rewrite Hbl, free_addrs_cons. done.
    - intros t Ht. by apply elem_of_cons in Ht as [->|Ht%list_elem_of_singleton]; [|subst].
    - intros t Ht _ Hn. exfalso. apply Hn.
      apply elem_of_cons in Ht as [->|Ht%list_elem_of_singleton]; [|subst]; simpl; auto.
    - intros a _ Ha1 Ha2. rewrite !lookup_insert_ne; [done| |].
      + apply (Ha2 (mkTile (b + w) (z - w) false)). set_solver.
      + apply (Ha1 (mkTile b z false)). set_solver.
    - simpl. auto. }
  eapply wp_mono; [eapply (insert_block_spec _ _ _ _ _ _ _ nb Hr2)|].
  { subst s2. simpl. by rewrite lookup_insert_ne, lookup_insert_eq by lia. }
  intros _ s' (-> & Hr' & Hsa). split; [done|].
  exists w, (mkTile (b + w) (z - w) true :: post). split_and!; [done| |].
  - etrans; [apply (Hsa (mkTile b w false)); [set_solver|done]|].
    subst s2. simpl. by rewrite lookup_insert_eq.
  - eapply rep_links_ext; [|done..|].
    + unfold release in Hr'. rewrite last_snoc in Hr'. simpl in Hr'.
      assert (Ha : absorb_next (b + w) (z - w) post = mkTile (b + w) (z - w) true :: post).
      { destruct post as [|t post]; simpl in *; [done|]. by rewrite Hhead. }
      rewrite Ha, <- (assoc_L (++)) in Hr'. exact Hr'.
    + simpl. intros t _. tauto.
Qed.

Lemma take_block_spec s base pre t post w :
  rep_heap s base (pre ++ t :: post) -> t_free t = true -> 0 < w <= t_size t -> (16 | w) ->
  wp (take_block xStart w (before (last (free_addrs pre))) (t_addr t)) (fun p s' =>
    p = t_addr t + xHeapStructSize /\ rep_heap s' base (pre ++ carve w t ++ post) /\ pxEnd s' = pxEnd s /\
    xMinimumEverFreeBytesRemaining s' =
      Z.min (xMinimumEverFreeBytesRemaining s) (xFreeBytesRemaining s') /\
    xNumberOfSuccessfulAllocations s' = xNumberOfSuccessfulAllocations s +u 1) s.
Proof.
  intros [Hr Hc Hfb Hmin] Hf Hw Hdiv. destruct t as [b z fr]; simpl in *. subst fr.
  pose proof (rl_addr_range _ _ _ _ (mkTile b z true) Hr ltac:(set_solver)) as Hrange. simpl in Hrange.
  destruct (rl_range _ _ _ _ Hr) as [Hbase _ Hend _ _].
  destruct (position_header _ _ _ _ _ Hr) as (isz & Hbl).
  pose proof (rl_free _ _ _ _ Hr (mkTile b z true) ltac:(set_solver) eq_refl) as Hb. simpl in Hb.
  pose proof (free_addrs_nodup _ _ _ (rl_tiled _ _ _ _ Hr)) as Hnd.
  rewrite free_addrs_cons in Hbl. simpl in Hbl.
  rewrite free_addrs_app, free_addrs_cons in Hb, Hnd. simpl in Hb, Hnd.
  rewrite succ_of_split in Hb by (by apply NoDup_notin_app in Hnd as [??]).
  destruct (unlink_spec _ _ _ _ _ _ _ _ Hr Hbl) as [Hr1 Hb1]. rewrite Hb in Hb1.
  apply coalesced_app in Hc as (Hc1 & Hc2 & Hc3). simpl in Hc3.
  assert (Hhead : match head post with Some t => t_free t = false | None => True end).
  { destruct post as [|t post]; [done|]. simpl in *. tauto. }
  unfold take_block. apply wp_bind. eapply wp_block_next; [done|]. simpl.
  apply wp_bind. eapply wp_block_next; [done|]. simpl.
  apply wp_bind. eapply wp_set_block_next; [done|]. simpl.
  apply wp_bind. eapply wp_mono; [by eapply split_block_spec|].
  intros _ s' (-> & sz & rest & Hcarve & Hb' & Hr').
  assert (Hsums : free_sum rest + sz = z + free_sum post /\ coalesced (mkTile b sz false :: rest)).
  { unfold carve in Hcarve. simpl in Hcarve. apply coalesced_cons_inv in Hc2.
    destruct (_ <? _); simplify_eq/=; rewrite ?free_sum_cons; simpl; (split; [lia|]).
    - destruct post; [done|]. split; [done|]. split; [done|exact Hc2].
    - by destruct rest. }
  destruct Hsums as [Hsum Hco]. rewrite free_sum_app, free_sum_cons in Hfb. simpl in Hfb.
  apply wp_bind. eapply wp_mono; [eapply mark_allocated_spec; [done| |done|simpl; lia|simpl; lia]|].
  { apply coalesced_app. split_and!; [done|done|]. destruct (last pre); [|done]. simpl. apply andb_false_r. }
  intros _ s'' (Hrep & He & Hm & Hn). apply wp_ret. rewrite Hcarve.
  split_and!; try done. rewrite xHeapStructSize_16 in *. rewrite u32_small by u32_lia. done.
Qed.

(** The size of the block that serves a request of [x] bytes. *)
Lemma wanted_size_spec x : u32_range x ->
  wanted_size x = if (0 <? x) && (x <=? u32_modulus - 32) then 16 * ((x + 31) / 16) else 0.
Proof.
  intros Hx. unfold wanted_size, portBYTE_ALIGNMENT_MASK, portBYTE_ALIGNMENT. rewrite xHeapStructSize_16.
  destruct (Z.ltb_spec 0 x); [|done]. simpl.
  destruct (decide (x + 16 < u32_modulus)).
  2:{ rewrite u32_wrap_once by u32_lia.
      rewrite (proj2 (Z.ltb_ge _ _)) by u32_lia. by rewrite (proj2 (Z.leb_gt _ _)) by lia. }
  rewrite u32_small by u32_lia. rewrite (proj2 (Z.ltb_lt _ _)) by lia.
  change 15 with (Z.ones 4). rewrite Z.land_ones by lia. change (2 ^ 4) with 16.
  pose proof (Z.div_mod (x + 16) 16 ltac:(lia)) as Hd. pose proof (Z.mod_pos_bound (x + 16) 16 ltac:(lia)).
  assert (Hq : (x + 31) / 16 = (x + 16) / 16 + if (x + 16) mod 16 =? 0 then 0 else 1).
  { symmetry. apply (Z.div_unique_pos _ _ _ (if (x + 16) mod 16 =? 0 then 15 else (x + 16) mod 16 - 1));
      destruct (Z.eqb_spec ((x + 16) mod 16) 0); lia. }
  rewrite Hq. destruct (Z.eqb_spec ((x + 16) mod 16) 0); simpl.
  - rewrite (proj2 (Z.leb_le _ _)) by u32_lia. lia.
  - destruct (Z.leb_spec x (u32_modulus - 32)).
    + rewrite u32_small by u32_lia. rewrite (proj2 (Z.ltb_lt _ _)) by lia. lia.
    + rewrite u32_wrap_once by u32_lia. rewrite (proj2 (Z.ltb_ge _ _)) by u32_lia. done.
Qed.

Lemma alloc_bit_test x : u32_range x -> (Z.land x alloc_bit =? 0) = (x <? alloc_bit).
Proof.
  intros Hx. destruct (Z.ltb_spec x alloc_bit) as [H|H].
  - by rewrite land_alloc_bit by (unfold u32_range in Hx; lia).
  - replace x with (Z.lor (x - alloc_bit) alloc_bit); [by rewrite alloc_bit_set by (unfold alloc_bit in *; u32_lia)|].
    pose proof (land_alloc_bit (x - alloc_bit) ltac:(unfold alloc_bit in *; u32_lia)) as E.
    rewrite <- Z.lxor_lor, <- Z.add_nocarry_lxor by done. lia.
Qed.

(** What a request for [x] bytes gets: a tile that holds the header and the
    payload, rounded up to the alignment. *)
Definition spec_request (x : Z) (ts : list tile) : option (Z * list tile) :=
  if (0 <? x) && (x <? alloc_bit) then spec_malloc (16 * ((x + 31) / 16)) ts else None.

Lemma free_sum_elem t ts : t ∈ ts -> t_free t = true -> Forall (fun t => 0 < t_size t) ts ->
  t_size t <= free_sum ts.
Proof.
  intros Hin Hf Hpos. induction ts as [|t' ts IH]; [set_solver|]. inversion_clear Hpos as [|?? Hp Hps].
  assert (0 <= free_sum ts).
  { clear - Hps. induction Hps as [|y ys ? ? IH']; [done|]. rewrite free_sum_cons. destruct (t_free y); lia. }
  rewrite free_sum_cons. apply elem_of_cons in Hin as [->|Hin]; [rewrite Hf; lia|].
  specialize (IH Hin Hps). destruct (t_free t'); lia.
Qed.

Lemma free_tiles_app ts1 ts2 : free_tiles (ts1 ++ ts2) = free_tiles ts1 ++ free_tiles ts2.
Proof. apply filter_app. Qed.

(** The search over a tiling: the block it stops at. *)
Lemma first_fit_spec s base ts w : rep_links s base ts (fun _ => False) -> 0 < w ->
  wp (pxBlock ← block_next xStart; fuel ← gets (fun s => size (blocks s));
      first_fit_loop fuel w xStart pxBlock)
    (fun r s' => s' = s /\
       match find_tile (fun t => t_free t && (w <=? t_size t)) ts with
       | Some (pre, t, post) => r = (before (last (free_addrs pre)), t_addr t)
       | None => snd r = pxEnd s
       end) s.
Proof.
  intros Hr Hw. apply wp_bind. eapply wp_block_next; [apply Hr|]. simpl. apply wp_bind, wp_gets.
  pose proof (free_addrs_fuel _ _ _ _ Hr) as Hfuel. unfold free_addrs in Hfuel. rewrite length_fmap in Hfuel.
  assert (Hsmall : forall l, Forall (fun x => t_free x && (w <=? t_size x) = false) l ->
    Forall (fun t => t_size t < w) (free_tiles l)).
  { intros l Hl. apply Forall_forall. intros t [Hf Hin]%list_elem_of_filter.
    rewrite Forall_forall in Hl. specialize (Hl t Hin). simpl in Hl. rewrite Hf in Hl. simpl in Hl.
    by apply Z.leb_gt in Hl. }
  destruct (find_tile _ ts) as [[[pre t] post]|] eqn:Hfind.
  - apply find_tile_Some in Hfind as (-> & [Hf Hsz%Z.leb_le]%andb_true_iff & Hpre%Hsmall).
    assert (Hfs : free_tiles (pre ++ t :: post) = [] ++ free_tiles pre ++ t :: free_tiles post).
    { rewrite free_tiles_app. simpl. f_equal. unfold free_tiles. by rewrite filter_cons_True. }
    unfold free_addrs at 1. rewrite Hfs. eapply wp_mono.
    + apply (first_fit_loop_spec s base _ _ w (t :: free_tiles post) [] (free_tiles pre) _ Hr); try done.
      rewrite Hfs, !length_app in Hfuel. simpl in Hfuel. lia.
    + intros r s' [-> ->]. done.
  - apply find_tile_None, Hsmall in Hfind. eapply wp_mono.
    + unfold free_addrs. rewrite <- (app_nil_r (free_tiles ts)).
      apply (first_fit_loop_spec s base ts _ w [] [] (free_tiles ts) _ Hr); try done; [by rewrite app_nil_r|lia].
    + intros r s' [-> ->]. done.
Qed.

Lemma assoc_first_fit w (k : Z * Z -> M heap4 Z) s Q :
  wp (pxBlock ← block_next xStart; fuel ← gets (fun s => size (blocks s));
      first_fit_loop fuel w xStart pxBlock) (fun r s' => wp (k r) Q s') s ->
  wp (pxBlock ← block_next xStart; fuel ← gets (fun s => size (blocks s));
      r ← first_fit_loop fuel w xStart pxBlock; k r) Q s.
Proof.
  intros (r & s' & Hm & Hk). destruct Hk as (a & s'' & Hk & HQ). exists a, s''. split; [|done].
  revert Hm. unfold mbind, M_bind. destruct (block_next xStart s) as [[? ?]|]; [|done]. simpl.
  destruct (first_fit_loop _ _ _ _ _) as [[? ?]|]; [|done]. intros [= -> ->]. done.
Qed.

Lemma pvPortMalloc_spec s base ts x :
  rep_heap s base ts -> u32_range x ->
  wp (pvPortMalloc_suspended ucHeap xStart x) (fun p s' =>
    match spec_request x ts with
    | Some (b, ts') => p = b + xHeapStructSize /\ rep_heap s' base ts' /\ pxEnd s' = pxEnd s /\
        xMinimumEverFreeBytesRemaining s' =
          Z.min (xMinimumEverFreeBytesRemaining s) (xFreeBytesRemaining s') /\
        xNumberOfSuccessfulAllocations s' = xNumberOfSuccessfulAllocations s +u 1
    | None => p = NULL /\ s' = s
    end) s.
Proof.
  intros Hrep Hx. pose proof Hrep as [Hr Hc Hfb Hmin].
  destruct (rl_range _ _ _ _ Hr) as [Hbase _ Hend _ _]. pose proof (tiled_le _ _ _ (rl_tiled _ _ _ _ Hr)).
  unfold pvPortMalloc_suspended, spec_request. apply wp_bind, wp_gets.
  rewrite (proj2 (Z.eqb_neq _ _)) by (unfold NULL; lia). apply wp_bind, wp_ret. apply wp_bind, wp_gets.
  rewrite (rl_bit _ _ _ _ Hr), alloc_bit_test, wanted_size_spec by done.
  destruct (Z.ltb_spec x alloc_bit) as [Hlt|]; [|rewrite andb_false_r; by apply wp_ret].
  rewrite andb_true_r. rewrite (proj2 (Z.leb_le x _)) by (unfold alloc_bit in *; u32_lia).
  rewrite andb_true_r. apply wp_bind, wp_gets. destruct (Z.ltb_spec 0 x) as [Hpos|]; [|by apply wp_ret].
  set (w := 16 * ((x + 31) / 16)).
  assert (Hw : 0 < w) by (subst w; pose proof (Z.div_le_lower_bound (x + 31) 16 1 ltac:(lia)); lia).
  assert (Hwd : (16 | w)) by (subst w; apply Z.divide_factor_l).
  rewrite (proj2 (Z.ltb_lt 0 w)) by done. simpl. unfold spec_malloc.
  pose proof (first_fit_spec s base ts w Hr Hw) as Hff.
  destruct (Z.leb_spec w (xFreeBytesRemaining s)) as [Hle|Hgt].
  - apply assoc_first_fit. eapply wp_mono; [exact Hff|]. clear Hff.
    intros [prev blk] s' [-> Hres]. apply wp_bind, wp_gets.
    destruct (find_tile _ ts) as [[[pre t] post]|] eqn:Hfind.
    + simplify_eq. apply find_tile_Some in Hfind as (-> & [Hf Hsz%Z.leb_le]%andb_true_iff & Hpre).
      pose proof (rl_addr_range _ _ _ _ t Hr ltac:(set_solver)) as (_ & _ & Hne & _).
      rewrite (proj2 (Z.eqb_neq _ _)) by done. simpl. by apply take_block_spec.
    + simpl in Hres. rewrite Hres, Z.eqb_refl. by apply wp_ret.
  - destruct (find_tile _ ts) as [[[pre t] post]|] eqn:Hfind; [|by apply wp_ret].
    apply find_tile_Some in Hfind as (-> & [Hf Hsz%Z.leb_le]%andb_true_iff & Hpre).
    pose proof (free_sum_elem t (pre ++ t :: post) ltac:(set_solver) Hf) as Hs.
    rewrite <- Hfb in Hs. exfalso. assert (t_size t <= xFreeBytesRemaining s); [|lia]. apply Hs.
    apply Forall_forall. intros t' Hin. apply (tiled_bounds _ _ _ _ (rl_tiled _ _ _ _ Hr) Hin).
Qed.

(** ** prvHeapInit *)

Definition heap_base : Z := 16 * ((ucHeap + 15) / 16).
Definition heap_end : Z := 16 * ((ucHeap + configTOTAL_HEAP_SIZE - 16) / 16).

(** The linker places [ucHeap] and [xStart] apart, inside the address space. *)
Definition layout_ok : Prop :=
  0 < ucHeap /\ ucHeap + configTOTAL_HEAP_SIZE < u32_modulus /\ 0 < xStart < u32_modulus /\
  ~ (ucHeap <= xStart < ucHeap + configTOTAL_HEAP_SIZE).

Lemma land_not_15 x : Z.land x (Z.lnot 15) = 16 * (x / 16).
Proof.
  rewrite <- Z.ldiff_land. change 15 with (Z.ones 4). rewrite Z.ldiff_ones_r by lia.
  rewrite Z.shiftr_div_pow2, Z.shiftl_mul_pow2 by lia. change (2 ^ 4) with 16. lia.
Qed.

Lemma heap_bounds : layout_ok ->
  ucHeap <= heap_base < ucHeap + 16 /\ (16 | heap_base) /\ (16 | heap_end) /\
  ucHeap + configTOTAL_HEAP_SIZE - 32 < heap_end <= ucHeap + configTOTAL_HEAP_SIZE - 16.
Proof.
  intros _. unfold heap_base, heap_end.
  pose proof (Z.div_mod (ucHeap + 15) 16 ltac:(lia)). pose proof (Z.mod_pos_bound (ucHeap + 15) 16 ltac:(lia)).
  pose proof (Z.div_mod (ucHeap + configTOTAL_HEAP_SIZE - 16) 16 ltac:(lia)).
  pose proof (Z.mod_pos_bound (ucHeap + configTOTAL_HEAP_SIZE - 16) 16 ltac:(lia)).
  split_and!; try apply Z.divide_factor_l; lia.
Qed.

Lemma prvHeapInit_spec s : layout_ok -> blocks s !! NULL = None ->
  wp (prvHeapInit ucHeap xStart)
    (fun _ s' => rep_heap s' heap_base [mkTile heap_base (heap_end - heap_base) true] /\ pxEnd s' = heap_end) s.
Proof.
  intros Hl Hnull. pose proof (heap_bounds Hl) as (Hb & Hbd & Hed & He). destruct Hl as (H0 & H1 & H2 & H3).
  unfold prvHeapInit, portBYTE_ALIGNMENT_MASK, portBYTE_ALIGNMENT. rewrite xHeapStructSize_16.
  set (u := negb _). set (a := if u then _ else ucHeap).
  assert (Ha : a = heap_base).
  { subst a u. change 15 with (Z.ones 4) at 1. rewrite Z.land_ones by lia. change (2 ^ 4) with 16.
    unfold configTOTAL_HEAP_SIZE in *. rewrite land_not_15.
    change (16 - 1) with 15. rewrite u32_small by u32_lia. unfold heap_base.
    destruct (Z.eqb_spec (ucHeap mod 16) 0) as [E|E]; simpl; [|done].
    pose proof (Z.div_mod ucHeap 16 ltac:(lia)).
    rewrite <- (Z.div_unique_pos (ucHeap + 15) 16 (ucHeap / 16) 15); lia. }
  set (n := if u then _ else configTOTAL_HEAP_SIZE).
  assert (Hn : n = configTOTAL_HEAP_SIZE - (heap_base - ucHeap)).
  { subst n. unfold configTOTAL_HEAP_SIZE in *. rewrite Ha, (u32_small (heap_base - ucHeap)) by u32_lia.
    rewrite u32_small by u32_lia. destruct u eqn:Eu; [done|].
    subst a. lia. }
  set (e := Z.land _ _).
  assert (Hee : e = heap_end).
  { subst e. rewrite land_not_15, Ha, Hn. unfold configTOTAL_HEAP_SIZE in *.
    rewrite (u32_small (heap_base + _)) by u32_lia. rewrite u32_small by u32_lia.
    unfold heap_end, configTOTAL_HEAP_SIZE. do 2 f_equal. lia. }
  rewrite Ha, Hee. unfold configTOTAL_HEAP_SIZE in *. rewrite u32_small by u32_lia.
  apply wp_modify. split; [|done]. split; simpl; [|done| |lia].
  2:{ rewrite free_sum_cons, free_sum_nil. simpl. lia. }
  split; simpl; try done.
  - split; rewrite ?xHeapStructSize_16; unfold alloc_bit; try done; try lia.
  - split_and!; try lia. by apply Z.divide_sub_r.
  - rewrite !lookup_insert_ne by lia. by rewrite lookup_insert_eq.
  - rewrite lookup_insert_ne by lia. by rewrite lookup_insert_eq.
  - intros t Ht _. apply list_elem_of_singleton in Ht as ->. simpl. rewrite lookup_insert_eq.
    by rewrite decide_True.
  - intros t Ht. by apply list_elem_of_singleton in Ht as ->.
  - by rewrite !lookup_insert_ne by (unfold NULL; lia).
Qed.

End Rep.
