(* ===== verification/Heap4Props.v ===== *)
(** * Properties of heap_4.c

    The allocator seen by its clients: what a request returns, that live
    blocks never overlap, that giving a block back undoes the request, that no
    sequence of requests and returns makes it fault, and what
    vPortGetHeapStats reports. *)

From S2P Require Import Prelude Config ListSpec Heap4 Heap4Spec.

Lemma find_tile_at P pre t post :
  Forall (fun x => P x = false) pre -> P t = true ->
  find_tile P (pre ++ t :: post) = Some (pre, t, post).
Proof.
  intros Hpre Ht. induction Hpre as [|x pre Hx _ IH]; simpl; [by rewrite Ht|]. by rewrite Hx, IH.
Qed.

(** The tile at an address is found. *)
Lemma find_tile_addr s pre b sz post e :
  tiled s (pre ++ mkTile b sz false :: post) e ->
  find_tile (fun t => (t_addr t =? b) && negb (t_free t)) (pre ++ mkTile b sz false :: post) =
    Some (pre, mkTile b sz false, post).
Proof.
  intros Ht. apply find_tile_at; [|simpl; by rewrite Z.eqb_refl].
  apply tiled_app in Ht as (m & Hp & (Hm & _)). simpl in Hm. subst m.
  apply Forall_forall. intros x Hin. pose proof (tiled_bounds _ _ _ _ Hp Hin).
  by rewrite (proj2 (Z.eqb_neq _ _)) by lia.
Qed.

Lemma carve_cases w t : exists sz rest, carve w t = mkTile (t_addr t) sz false :: rest /\
  ((sz = t_size t /\ rest = []) \/
   (sz = w /\ rest = [mkTile (t_addr t + w) (t_size t - w) true] /\ heapMINIMUM_BLOCK_SIZE < t_size t - w)).
Proof.
  unfold carve. destruct (Z.ltb_spec heapMINIMUM_BLOCK_SIZE (t_size t - w)); eauto 10.
Qed.

(** Giving a carved tile back restores the tiling. *)
Lemma release_carve pre t post w sz rest :
  coalesced (pre ++ t :: post) -> t_free t = true -> carve w t ++ post = mkTile (t_addr t) sz false :: rest ->
  release pre (t_addr t) sz rest = pre ++ t :: post.
Proof.
  intros (_ & Hc & Hj)%coalesced_app Hf Hcarve. simpl in Hj.
  assert (Hpost : match post with n :: _ => t_free n = false | [] => True end).
  { destruct post; [done|]. simpl in Hc. rewrite Hf in Hc. tauto. }
  assert (Habs : absorb_next (t_addr t) sz rest = t :: post).
  { destruct (carve_cases w t) as (sz' & rest' & E & [[-> ->]|(-> & -> & _)]);
      rewrite E in Hcarve; simplify_eq/=; destruct t as [b z fr]; simpl in *; subst fr.
    - destruct rest as [|n r]; simpl; [done|]. by rewrite Hpost.
    - do 2 f_equal. lia. }
  unfold release. destruct (last pre) as [p|] eqn:Hl.
  - rewrite Hf, andb_true_r in Hj. by rewrite Hj, Habs.
  - apply last_None in Hl as ->. exact Habs.
Qed.

(** ** Allocated addresses *)

Definition alloc_addrs (ts : list tile) : list Z :=
  t_addr <$> filter (fun t => t_free t = false) ts.

Lemma alloc_addrs_app ts1 ts2 : alloc_addrs (ts1 ++ ts2) = alloc_addrs ts1 ++ alloc_addrs ts2.
Proof. unfold alloc_addrs. by rewrite filter_app, fmap_app. Qed.

Lemma alloc_addrs_cons t ts :
  alloc_addrs (t :: ts) = if t_free t then alloc_addrs ts else t_addr t :: alloc_addrs ts.
Proof.
  unfold alloc_addrs. destruct (t_free t) eqn:E.
  - rewrite filter_cons_False; [done|congruence].
  - by rewrite filter_cons_True.
Qed.

Lemma elem_of_alloc_addrs a ts :
  a ∈ alloc_addrs ts <-> exists t, t ∈ ts /\ t_free t = false /\ t_addr t = a.
Proof.
  unfold alloc_addrs. rewrite list_elem_of_fmap. setoid_rewrite list_elem_of_filter. naive_solver.
Qed.

Lemma alloc_addrs_absorb b sz post : alloc_addrs (absorb_next b sz post) = alloc_addrs post.
Proof.
  destruct post as [|n r]; simpl; [done|].
  destruct (t_free n) eqn:E; rewrite !alloc_addrs_cons; simpl; by rewrite E.
Qed.

Lemma alloc_addrs_release pre b sz post :
  alloc_addrs (release pre b sz post) = alloc_addrs pre ++ alloc_addrs post.
Proof.
  unfold release. destruct (last pre) as [p|] eqn:Hl.
  - destruct (t_free p) eqn:Hf; rewrite ?alloc_addrs_app, alloc_addrs_absorb; [|done].
    apply last_split in Hl as (pre' & -> & ->). f_equal.
    rewrite alloc_addrs_app, alloc_addrs_cons, Hf. by rewrite app_nil_r.
  - apply last_None in Hl as ->. by rewrite alloc_addrs_absorb.
Qed.

Lemma alloc_addrs_carve w t : alloc_addrs (carve w t) = [t_addr t].
Proof. destruct (carve_cases w t) as (sz & rest & -> & [[_ ->]|(_ & -> & _)]); done. Qed.

Lemma alloc_addrs_nodup s ts e : tiled s ts e -> NoDup (alloc_addrs ts).
Proof.
  revert s; induction ts as [|t ts IH]; intros s; simpl; [constructor|].
  intros (Ha & Hs & _ & Ht). rewrite alloc_addrs_cons. destruct (t_free t); [by eapply IH|].
  constructor; [|by eapply IH]. intros (t' & Hin & _ & E)%elem_of_alloc_addrs.
  pose proof (tiled_bounds _ _ _ _ Ht Hin). lia.
Qed.

Lemma spec_request_alloc x ts b ts' : spec_request x ts = Some (b, ts') ->
  exists pre t post w, ts = pre ++ t :: post /\ ts' = pre ++ carve w t ++ post /\ b = t_addr t /\
    t_free t = true /\ w = 16 * ((x + 31) / 16) /\ 0 < x /\ w <= t_size t.
Proof.
  unfold spec_request, spec_malloc. destruct (_ && _) eqn:Hx; [|done].
  destruct (find_tile _ ts) as [[[pre t] post]|] eqn:Hfind; [|done]. intros [= <- <-].
  apply find_tile_Some in Hfind as (-> & [Hf Hsz%Z.leb_le]%andb_true_iff & _).
  apply andb_true_iff in Hx as [?%Z.ltb_lt _].
  exists pre, t, post, (16 * ((x + 31) / 16)). done.
Qed.

Lemma spec_free_alloc b ts base e : tiled base ts e -> b ∈ alloc_addrs ts ->
  exists pre sz post, ts = pre ++ mkTile b sz false :: post /\ spec_free b ts = Some (release pre b sz post).
Proof.
  intros Ht (t & (pre & post & ->)%list_elem_of_split & Hf & <-)%elem_of_alloc_addrs.
  destruct t as [b sz fr]; simpl in *; subst fr. exists pre, sz, post. split; [done|].
  unfold spec_free. by erewrite find_tile_addr.
Qed.

Section Properties.
Variables ucHeap xStart : Z.

(** ** Histories of requests and returns *)

(** The allocator with the pointers its clients hold. *)
Definition hstate : Type := heap4 * list Z.

Inductive hstep : hstate -> hstate -> Prop :=
  | hs_malloc s L x p s' : u32_range x ->
      pvPortMalloc_suspended ucHeap xStart x s = Some (p, s') ->
      hstep (s, L) (s', if p =? NULL then L else p :: L)
  | hs_free s L p s' : p ∈ L ->
      vPortFree_body xStart p s = Some (tt, s') ->
      hstep (s, L) (s', drop_elem p L).

Definition hreach : hstate -> Prop := rtc hstep (heap4_boot xStart, []).

(** Before the first request, or a tiling whose allocated tiles are exactly
    those behind the pointers in the clients' hands. *)
Definition hinv (st : hstate) : Prop :=
  st = (heap4_boot xStart, []) \/
  exists ts, rep_heap xStart st.1 (heap_base ucHeap) ts /\ NoDup st.2 /\
    forall p, p ∈ st.2 <-> p - xHeapStructSize ∈ alloc_addrs ts.

Hypothesis Hlayout : layout_ok ucHeap xStart.

(** The first request initialises the heap and then proceeds as any other. *)
Lemma malloc_boot x : exists s0 ts0, rep_heap xStart s0 (heap_base ucHeap) ts0 /\ alloc_addrs ts0 = [] /\
  pvPortMalloc_suspended ucHeap xStart x (heap4_boot xStart) = pvPortMalloc_suspended ucHeap xStart x s0.
Proof.
  destruct (prvHeapInit_spec ucHeap xStart (heap4_boot xStart) Hlayout) as ([] & s0 & Hi & Hr & He).
  { simpl. destruct Hlayout as (_ & _ & ? & _). apply lookup_singleton_ne. unfold NULL. lia. }
  eexists s0, _. split; [exact Hr|]. split; [done|].
  assert (Hne : pxEnd s0 <> NULL).
  { rewrite He. pose proof (heap_bounds ucHeap xStart Hlayout). destruct Hlayout.
    unfold NULL, configTOTAL_HEAP_SIZE in *. lia. }
  unfold pvPortMalloc_suspended, mbind, M_bind, gets. simpl (pxEnd (heap4_boot _)).
  rewrite Z.eqb_refl, Hi. by rewrite (proj2 (Z.eqb_neq _ _) Hne).
Qed.

Lemma malloc_inv s L x ts :
  rep_heap xStart s (heap_base ucHeap) ts -> NoDup L ->
  (forall p, p ∈ L <-> p - xHeapStructSize ∈ alloc_addrs ts) -> u32_range x ->
  wp (pvPortMalloc_suspended ucHeap xStart x) (fun p s' => hinv (s', if p =? NULL then L else p :: L)) s.
Proof.
  intros Hr Hnd HL Hx. eapply wp_mono; [by apply pvPortMalloc_spec|].
  intros p s'. destruct (spec_request x ts) as [[b ts']|] eqn:Hq.
  2:{ intros [-> ->]. rewrite Z.eqb_refl. right. eauto. }
  intros (-> & Hr' & _). right. exists ts'. split; [done|].
  apply spec_request_alloc in Hq as (pre & t & post & w & -> & -> & -> & Hf & _).
  pose proof (alloc_addrs_nodup _ _ _ (rl_tiled _ _ _ _ _ (rh_links _ _ _ _ Hr'))) as Hnd'.
  pose proof (rl_addr_range _ _ _ _ _ t (rh_links _ _ _ _ Hr) ltac:(set_solver)) as (_ & _ & _ & ? & _).
  rewrite !alloc_addrs_app, alloc_addrs_carve in Hnd'. rewrite alloc_addrs_app, alloc_addrs_cons, Hf in HL.
  apply NoDup_notin_app in Hnd' as [Hn1 Hn2]. rewrite xHeapStructSize_16 in *.
  rewrite (proj2 (Z.eqb_neq _ _)) by (unfold NULL; lia). simpl. split.
  - constructor; [|done]. rewrite HL, Z.add_simpl_r. set_solver.
  - intros q. rewrite elem_of_cons, HL, !alloc_addrs_app, alloc_addrs_carve, !elem_of_app, elem_of_cons.
    split; intros; [destruct_or?; subst; rewrite ?Z.add_simpl_r; tauto|].
    destruct_or?; try tauto; [|set_solver]. left. lia.
Qed.

Lemma free_inv s L p ts :
  rep_heap xStart s (heap_base ucHeap) ts -> NoDup L ->
  (forall p, p ∈ L <-> p - xHeapStructSize ∈ alloc_addrs ts) -> p ∈ L ->
  wp (vPortFree_body xStart p) (fun _ s' => hinv (s', drop_elem p L)) s.
Proof.
  intros Hr Hnd HL Hp. apply HL in Hp as Ha.
  destruct (spec_free_alloc _ _ _ _ (rl_tiled _ _ _ _ _ (rh_links _ _ _ _ Hr)) Ha)
    as (pre & sz & post & -> & Hspec).
  replace p with (p - xHeapStructSize + xHeapStructSize) at 1 by lia.
  eapply wp_mono; [by eapply vPortFree_spec|]. intros _ s' (Hr' & _). right.
  eexists. split; [exact Hr'|]. simpl.
  pose proof (alloc_addrs_nodup _ _ _ (rl_tiled _ _ _ _ _ (rh_links _ _ _ _ Hr))) as Hnd'.
  rewrite alloc_addrs_app, alloc_addrs_cons in Hnd', HL. simpl in Hnd', HL.
  apply NoDup_notin_app in Hnd' as [Hn1 Hn2]. split; [by apply NoDup_filter|].
  intros q. rewrite elem_of_drop_elem, HL, alloc_addrs_release, !elem_of_app, elem_of_cons.
  split; [intros [? ?]; destruct_or?; try tauto; lia|].
  intros Hq. split; [tauto|]. intros ->. tauto.
Qed.

Lemma hreach_inv st : hreach st -> hinv st.
Proof.
  intros H. unfold hreach in H. remember (heap4_boot xStart, @nil Z) as st0 eqn:E0.
  assert (Hi : hinv st0) by (subst; by left). clear E0.
  induction H as [|x y z Hs _ IH]; [done|]. apply IH. clear IH.
  destruct Hs as [s L x' p s' Hx Hm|s L p s' Hp Hm].
  - destruct Hi as [E|(ts & Hr & Hnd & HL)]; simpl in *.
    + simplify_eq. destruct (malloc_boot x') as (s0 & ts0 & Hr & Ha & E). rewrite E in Hm.
      eapply (wp_det _ (fun p s' => hinv (s', if p =? NULL then [] else [p]))); [|done].
      apply (malloc_inv s0 [] x' ts0); try done; [constructor|]. rewrite Ha. set_solver.
    + eapply (wp_det _ (fun p s' => hinv (s', if p =? NULL then L else p :: L))); [|done].
      by eapply malloc_inv.
  - destruct Hi as [E|(ts & Hr & Hnd & HL)]; simpl in *; [simplify_eq; set_solver|].
    eapply (wp_det _ (fun _ s' => hinv (s', drop_elem p L))); [|done]. by eapply free_inv.
Qed.

End Properties.

Section Stats.
Variable xStart : Z.

(** ** vPortGetHeapStats *)

Definition sizes_max (ts : list tile) (m : Z) : Z := foldl (fun m t => Z.max m (t_size t)) m ts.
Definition sizes_min (ts : list tile) (m : Z) : Z := foldl (fun m t => Z.min m (t_size t)) m ts.

Lemma heap_stats_loop_spec s base ts X : forall rest fs1 t fuel n mx mn,
  rep_links xStart s base ts X -> free_tiles ts = fs1 ++ t :: rest -> (length rest <= fuel)%nat ->
  0 <= n -> n + Z.of_nat (length rest) + 1 < u32_modulus ->
  wp (heap_stats_loop fuel (t_addr t) n mx mn)
    (fun r s' => s' = s /\ r = (n + Z.of_nat (length (t :: rest)),
                                sizes_max (t :: rest) mx, sizes_min (t :: rest) mn)) s.
Proof.
  induction rest as [|t' rest IH]; intros fs1 t fuel n mx mn Hr Hfs Hfuel Hn Hlen.
  all: assert (Hin : t ∈ free_tiles ts) by (rewrite Hfs; set_solver).
  all: apply list_elem_of_filter in Hin as [Hf Hin]; pose proof (rl_free _ _ _ _ _ Hr t Hin Hf) as Hb.
  all: pose proof (free_addrs_nodup _ _ _ (rl_tiled _ _ _ _ _ Hr)) as Hnd.
  all: unfold free_addrs in Hnd, Hb; rewrite Hfs, fmap_app in Hnd, Hb; simpl in Hnd, Hb.
  all: rewrite succ_of_split in Hb by (by apply NoDup_notin_app in Hnd as [??]); simpl in Hb.
  all: assert (Emx : (if mx <? t_size t then t_size t else mx) = Z.max mx (t_size t))
    by (destruct (Z.ltb_spec mx (t_size t)); lia).
  all: assert (Emn : (if t_size t <? mn then t_size t else mn) = Z.min mn (t_size t))
    by (destruct (Z.ltb_spec (t_size t) mn); lia).
  - destruct fuel; simpl; apply wp_bind; (eapply wp_block_size; [done|]); simpl; apply wp_bind;
      (eapply wp_block_next; [done|]); simpl; apply wp_bind, wp_gets; rewrite Z.eqb_refl; simpl;
      apply wp_ret; (split; [done|]); rewrite Emx, Emn, u32_small by u32_lia; done.
  - destruct fuel as [|fuel]; simpl in Hfuel; [lia|]. simpl in Hlen.
    assert (Hin' : t' ∈ free_tiles ts) by (rewrite Hfs; set_solver).
    apply list_elem_of_filter in Hin' as [_ Hin'].
    pose proof (rl_addr_range _ _ _ _ _ t' Hr Hin') as (_ & _ & Hne & _).
    simpl. apply wp_bind. eapply wp_block_size; [done|]. simpl. apply wp_bind.
    eapply wp_block_next; [done|]. simpl. apply wp_bind, wp_gets.
    rewrite (proj2 (Z.eqb_neq _ _)) by done. simpl. rewrite Emx, Emn, u32_small by u32_lia.
    eapply wp_mono.
    + eapply (IH (fs1 ++ [t]) t'); [done| |lia|lia|lia]. by rewrite <- (assoc_L (++)).
    + intros r s' [-> ->]. split; [done|]. simpl. do 2 f_equal. lia.
Qed.

Lemma length_tiles s ts e : tiled s ts e -> s + Z.of_nat (length ts) <= e.
Proof.
  revert s; induction ts as [|t ts IH]; intros s; simpl; [lia|].
  intros (_ & ? & _ & ?%IH). lia.
Qed.

Lemma length_free_tiles ts : (length (free_tiles ts) <= length ts)%nat.
Proof. apply length_filter. Qed.

Lemma heap_stats_spec s base ts t rest :
  rep_heap xStart s base ts -> free_tiles ts = t :: rest ->
  wp (vPortGetHeapStats xStart) (fun r s' => s' = s /\ r = mkHeapStats (free_sum ts)
      (sizes_max (free_tiles ts) 0) (sizes_min (free_tiles ts) portMAX_DELAY)
      (Z.of_nat (length (free_tiles ts))) (xMinimumEverFreeBytesRemaining s)
      (xNumberOfSuccessfulAllocations s) (xNumberOfSuccessfulFrees s)) s.
Proof.
  intros [Hr Hc Hfb _] Hfs. unfold vPortGetHeapStats.
  apply wp_bind. eapply wp_block_next; [apply Hr|]. simpl.
  assert (Hin : t ∈ free_tiles ts) by (rewrite Hfs; set_solver). apply list_elem_of_filter in Hin as [_ Hin].
  pose proof (rl_addr_range _ _ _ _ _ t Hr Hin) as (_ & _ & _ & Hpos & _).
  pose proof (length_tiles _ _ _ (rl_tiled _ _ _ _ _ Hr)). pose proof (length_free_tiles ts) as Hlen.
  pose proof (free_addrs_fuel _ _ _ _ _ Hr) as Hfuel. unfold free_addrs in Hfuel |- *.
  rewrite length_fmap in Hfuel. rewrite Hfs in *. simpl in *.
  rewrite (proj2 (Z.eqb_neq _ _)) by (unfold NULL; lia). simpl. apply wp_bind, wp_bind, wp_gets.
  destruct (rl_range _ _ _ _ _ Hr) as [? _ ? ? _]. rewrite xHeapStructSize_16 in *.
  eapply wp_mono.
  - eapply (heap_stats_loop_spec s base ts _ rest [] t); [done|done|lia|lia|u32_lia].
  - intros r s' [-> ->]. apply wp_bind, wp_get, wp_ret. split; [done|]. by rewrite Hfb.
Qed.

Lemma heap_stats_fault s base ts :
  rep_heap xStart s base ts -> free_tiles ts = [] -> vPortGetHeapStats xStart s = None.
Proof.
  intros [Hr _ _ _] Hfs. destruct (rl_range _ _ _ _ _ Hr) as [? _ _ _ _].
  pose proof (tiled_le _ _ _ (rl_tiled _ _ _ _ _ Hr)). pose proof (free_addrs_fuel _ _ _ _ _ Hr) as Hfuel.
  pose proof (rl_start _ _ _ _ _ Hr) as Hs. pose proof (rl_end _ _ _ _ _ Hr) as He.
  unfold free_addrs in Hs, Hfuel. rewrite Hfs in Hs, Hfuel. simpl in Hs, Hfuel.
  assert (Hne : (pxEnd s =? NULL) = false) by (apply Z.eqb_neq; unfold NULL; lia).
  unfold vPortGetHeapStats. erewrite bind_run by (by eapply block_next_run). cbn [pxNextFreeBlock after default].
  rewrite Hne. apply bind_fault. cbn [negb]. erewrite bind_run by done.
  destruct (size (blocks s)) as [|n]; [lia|]. cbn [heap_stats_loop].
  erewrite bind_run by (by eapply block_size_run). erewrite bind_run by (by eapply block_next_run).
  erewrite bind_run by done. cbn [pxNextFreeBlock]. rewrite Z.eqb_sym, Hne. cbn [negb].
  destruct n; cbn [heap_stats_loop]; apply bind_fault, block_size_fault, Hr.
Qed.

End Stats.

(** ** The properties *)

(** C27: pvPortMalloc is a first-fit allocator.  On a heap whose headers
    represent the tiling [ts], a request for [x] bytes of any 32-bit value
    does not fault; it returns the payload of the first free tile that can
    hold the header and [x] bytes rounded up to 16, splitting the tile when
    more than 32 bytes are left, and keeps the byte counters exact; and it
    returns NULL, changing nothing, exactly when [x] is 0, [x] has the
    allocated bit, or no free tile is large enough. *)
Theorem heap4_malloc_first_fit ucHeap xStart s base ts x :
  rep_heap xStart s base ts -> u32_range x ->
  wp (pvPortMalloc_suspended ucHeap xStart x) (fun p s' =>
    match spec_request x ts with
    | Some (b, ts') => p = b + xHeapStructSize /\ rep_heap xStart s' base ts' /\ pxEnd s' = pxEnd s /\
        xMinimumEverFreeBytesRemaining s' =
          Z.min (xMinimumEverFreeBytesRemaining s) (xFreeBytesRemaining s') /\
        xNumberOfSuccessfulAllocations s' = xNumberOfSuccessfulAllocations s +u 1
    | None => p = NULL /\ s' = s
    end) s.
Proof. apply pvPortMalloc_spec. Qed.

(** The payload pvPortMalloc returns is aligned to 16 bytes, lies inside the
    heap, has room for the [x] bytes asked for, and overlaps no block that was
    allocated before, all of which stay allocated at the same place. *)
Theorem heap4_malloc_payload ucHeap xStart s base ts x p s' :
  rep_heap xStart s base ts -> u32_range x ->
  pvPortMalloc_suspended ucHeap xStart x s = Some (p, s') -> p <> NULL ->
  exists ts' t, rep_heap xStart s' base ts' /\ t ∈ ts' /\ t_free t = false /\
    p = t_addr t + xHeapStructSize /\ (16 | p) /\ base <= t_addr t /\
    p + x <= t_addr t + t_size t <= pxEnd s' /\
    forall t', t' ∈ ts -> t_free t' = false ->
      t' ∈ ts' /\ (t_addr t' + t_size t' <= t_addr t \/ t_addr t + t_size t <= t_addr t').
Proof.
  intros Hr Hx Hm Hp. pose proof (pvPortMalloc_spec ucHeap xStart _ _ _ _ Hr Hx) as Hspec.
  eapply wp_det in Hspec; [|exact Hm]. simpl in Hspec.
  destruct (spec_request x ts) as [[b ts']|] eqn:Hq; [|tauto].
  destruct Hspec as (-> & Hr' & _ & _). exists ts'.
  apply spec_request_alloc in Hq as (pre & t & post & w & -> & -> & -> & Hf & Hw & Hpos & Hfit).
  destruct (carve_cases w t) as (sz & rest & E & Hc). rewrite E in Hr' |- *.
  set (t1 := mkTile (t_addr t) sz false). exists t1.
  pose proof (rl_tiled _ _ _ _ _ (rh_links _ _ _ _ Hr')) as Ht.
  destruct (rl_range _ _ _ _ _ (rh_links _ _ _ _ Hr')) as [_ Hal _ _ _].
  assert (Hin1 : t1 ∈ pre ++ (t1 :: rest) ++ post) by set_solver.
  assert (Hw2 : x + 16 <= w).
  { subst w. pose proof (Z.div_mod (x + 31) 16 ltac:(lia)). pose proof (Z.mod_pos_bound (x + 31) 16 ltac:(lia)). lia. }
  apply tiled_app in Ht as (m & Hp1 & Hp2). pose proof Hp2 as (<- & Hsz & _ & Hp3). simpl in Hsz, Hp3.
  pose proof (tiled_le _ _ _ Hp1). pose proof (tiled_le _ _ _ Hp3).
  split_and!; try done; simpl; try (rewrite xHeapStructSize_16; lia).
  - apply Z.divide_add_r; [|done].
    assert (Hdiv : forall ts s e, tiled s ts e -> (16 | s) -> (16 | e)).
    { induction ts as [|y ys IH]; simpl; intros ? ?; [by intros <-|].
      intros (? & ? & ? & ?) ?. eapply IH; [done|]. by apply Z.divide_add_r. }
    by eapply (Hdiv pre).
  - intros t' Hin' Hf'. apply elem_of_app in Hin' as [Hin'|[->|Hin']%elem_of_cons].
    + split; [set_solver|]. left. apply (tiled_bounds _ _ _ _ Hp1 Hin').
    + congruence.
    + split; [set_solver|]. right.
      apply (tiled_bounds _ _ _ t' Hp3). set_solver.
Qed.

(** C29: vPortFree returns the block behind a live pointer to the free list and
    merges it with the free blocks that touch it on either side, so that no
    two free blocks are ever adjacent; the byte counter stays exact. *)
Theorem heap4_free_coalesces xStart s base ts b ts' :
  rep_heap xStart s base ts -> spec_free b ts = Some ts' ->
  wp (vPortFree_body xStart (b + xHeapStructSize))
    (fun _ s' => rep_heap xStart s' base ts' /\
       xNumberOfSuccessfulFrees s' = xNumberOfSuccessfulFrees s +u 1 /\
       pxEnd s' = pxEnd s /\ xMinimumEverFreeBytesRemaining s' = xMinimumEverFreeBytesRemaining s) s.
Proof. apply vPortFree_spec. Qed.

(** A request followed by the return of what it got is a round trip: the
    heap is tiled as before and as many bytes are free. *)
Theorem heap4_malloc_free_roundtrip ucHeap xStart s base ts x p s1 :
  rep_heap xStart s base ts -> u32_range x ->
  pvPortMalloc_suspended ucHeap xStart x s = Some (p, s1) -> p <> NULL ->
  wp (vPortFree_body xStart p)
    (fun _ s2 => rep_heap xStart s2 base ts /\ xFreeBytesRemaining s2 = xFreeBytesRemaining s) s1.
Proof.
  intros Hr Hx Hm Hp. pose proof (pvPortMalloc_spec ucHeap xStart _ _ _ _ Hr Hx) as Hspec.
  eapply wp_det in Hspec; [|exact Hm]. simpl in Hspec.
  destruct (spec_request x ts) as [[b ts']|] eqn:Hq; [|tauto].
  destruct Hspec as (-> & Hr' & _ & _).
  apply spec_request_alloc in Hq as (pre & t & post & w & -> & -> & -> & Hf & _).
  destruct (carve_cases w t) as (sz & rest & E & _).
  assert (Hcp : carve w t ++ post = mkTile (t_addr t) sz false :: rest ++ post) by (by rewrite E).
  rewrite Hcp in Hr'. eapply wp_mono.
  - eapply vPortFree_spec; [exact Hr'|]. unfold spec_free.
    rewrite (find_tile_addr _ _ _ _ _ _ (rl_tiled _ _ _ _ _ (rh_links _ _ _ _ Hr'))).
    cbn [t_size]. by rewrite (release_carve pre t post w sz (rest ++ post) (rh_coalesced _ _ _ _ Hr) Hf Hcp).
  - intros _ s2 (Hr2 & _). split; [done|].
    by rewrite (rh_bytes _ _ _ _ Hr2), (rh_bytes _ _ _ _ Hr).
Qed.

(** C28: no history faults.  Starting from the zeroed statics, after any
    sequence of requests and of returns of pointers that are live (obtained
    and not yet returned), any further request and any return of a live
    pointer completes, and the live pointers are exactly the payloads of the
    allocated tiles of a coalesced tiling of the heap. *)
Theorem heap4_history_safe ucHeap xStart s L :
  layout_ok ucHeap xStart -> hreach ucHeap xStart (s, L) ->
  hinv ucHeap xStart (s, L) /\
  (forall x, u32_range x -> is_Some (pvPortMalloc_suspended ucHeap xStart x s)) /\
  (forall p, p ∈ L -> is_Some (vPortFree_body xStart p s)).
Proof.
  intros Hl Hreach. pose proof (hreach_inv _ _ Hl _ Hreach) as Hi. split; [done|].
  destruct Hi as [E|(ts & Hr & Hnd & HL)]; simpl in *.
  - simplify_eq. split; [|intros; set_solver]. intros x Hx.
    destruct (malloc_boot _ _ Hl x) as (s0 & ts0 & Hr & Ha & ->).
    destruct (pvPortMalloc_spec ucHeap xStart _ _ _ _ Hr Hx) as (p & s' & -> & _). eauto.
  - split.
    + intros x Hx. destruct (pvPortMalloc_spec ucHeap xStart _ _ _ _ Hr Hx) as (p & s' & -> & _). eauto.
    + intros p Hp. destruct (free_inv ucHeap xStart _ _ _ _ Hr Hnd HL Hp) as ([] & s' & -> & _). eauto.
Qed.

(** When a free block exists, vPortGetHeapStats reports the free bytes, the
    largest and the smallest free block and their number as they are, and
    changes nothing. *)
Theorem heap4_stats_exact xStart s base ts :
  rep_heap xStart s base ts -> free_tiles ts <> [] ->
  vPortGetHeapStats xStart s = Some (mkHeapStats (free_sum ts)
      (sizes_max (free_tiles ts) 0) (sizes_min (free_tiles ts) portMAX_DELAY)
      (Z.of_nat (length (free_tiles ts))) (xMinimumEverFreeBytesRemaining s)
      (xNumberOfSuccessfulAllocations s) (xNumberOfSuccessfulFrees s), s).
Proof.
  intros Hr Hne. destruct (free_tiles ts) as [|t rest] eqn:E; [done|]. rewrite <- E.
  destruct (heap_stats_spec _ _ _ _ _ _ Hr E) as (r & s' & H & -> & ->). done.
Qed.

(** C40: when every byte of the heap is allocated, vPortGetHeapStats follows the
    null link of the end marker: its do-while loop tests for the end marker
    only after stepping past it. *)
Theorem heap4_stats_full_heap_faults xStart s base ts :
  rep_heap xStart s base ts -> free_tiles ts = [] -> vPortGetHeapStats xStart s = None.
Proof. apply heap_stats_fault. Qed.

(** ** Concrete instances *)

Definition demo_ucHeap : Z := 2147549184.
Definition demo_xStart : Z := 2147483664.
Definition demo_boot : heap4 := heap4_boot demo_xStart.
Definition run_state {S A} (m : M S A) (s : S) : S := from_option snd s (m s).
Definition demo_heap : heap4 := run_state (prvHeapInit demo_ucHeap demo_xStart) demo_boot.
Definition demo_tiles : list tile :=
  [mkTile demo_ucHeap (heap_end demo_ucHeap - demo_ucHeap) true].

Lemma demo_layout : layout_ok demo_ucHeap demo_xStart.
Proof. unfold layout_ok, demo_ucHeap, demo_xStart, configTOTAL_HEAP_SIZE, u32_modulus. lia. Qed.

Lemma demo_rep : rep_heap demo_xStart demo_heap demo_ucHeap demo_tiles.
Proof.
  destruct (prvHeapInit_spec demo_ucHeap demo_xStart demo_boot demo_layout
    ltac:(vm_compute; reflexivity)) as ([] & s & E & H & _).
  unfold demo_heap, run_state. rewrite E. exact H.
Qed.

(** All of the heap handed out: one allocated tile. *)
Definition demo_full : heap4 :=
  run_state (pvPortMalloc_suspended demo_ucHeap demo_xStart 1934960) demo_heap.
Definition demo_full_tiles : list tile :=
  [mkTile demo_ucHeap (heap_end demo_ucHeap - demo_ucHeap) false].

Lemma demo_full_rep : rep_heap demo_xStart demo_full demo_ucHeap demo_full_tiles.
Proof.
  destruct (pvPortMalloc_spec demo_ucHeap demo_xStart _ _ _ 1934960 demo_rep ltac:(done)) as (p & s & E & H).
  unfold demo_full, run_state. rewrite E. simpl.
  assert (Hq : spec_request 1934960 demo_tiles = Some (demo_ucHeap, demo_full_tiles)) by done.
  rewrite Hq in H. apply H.
Qed.

Lemma heap4_malloc_first_fit_witness :
  exists p s', pvPortMalloc_suspended demo_ucHeap demo_xStart 100 demo_heap = Some (p, s') /\
    p = demo_ucHeap + 16.
Proof.
  destruct (heap4_malloc_first_fit demo_ucHeap demo_xStart demo_heap demo_ucHeap demo_tiles 100 demo_rep
    ltac:(done)) as (p & s' & E & H). exists p, s'. split; [exact E|].
  assert (Hq : spec_request 100 demo_tiles = Some (demo_ucHeap, [mkTile demo_ucHeap 128 false;
    mkTile (demo_ucHeap + 128) (heap_end demo_ucHeap - demo_ucHeap - 128) true]))
    by (vm_compute; reflexivity).
  rewrite Hq in H. exact (proj1 H).
Defined.

Lemma heap4_malloc_payload_witness : exists t, t_free t = false /\ demo_ucHeap + 16 = t_addr t + 16.
Proof.
  destruct (heap4_malloc_payload demo_ucHeap demo_xStart demo_heap demo_ucHeap demo_tiles 100
    (demo_ucHeap + 16) (run_state (pvPortMalloc_suspended demo_ucHeap demo_xStart 100) demo_heap) demo_rep
    ltac:(done) ltac:(vm_compute; reflexivity) ltac:(done)) as (ts' & t & _ & _ & Hf & E & _).
  exists t. split; [exact Hf|exact E].
Defined.

Lemma heap4_free_coalesces_witness :
  exists s', vPortFree_body demo_xStart (demo_ucHeap + xHeapStructSize) demo_full = Some (tt, s') /\
    rep_heap demo_xStart s' demo_ucHeap demo_tiles.
Proof.
  destruct (heap4_free_coalesces demo_xStart demo_full demo_ucHeap demo_full_tiles demo_ucHeap demo_tiles
    demo_full_rep ltac:(vm_compute; reflexivity)) as ([] & s' & E & H & _). exists s'. split; [exact E|exact H].
Defined.

Lemma heap4_malloc_free_roundtrip_witness :
  exists s', vPortFree_body demo_xStart (demo_ucHeap + 16)
      (run_state (pvPortMalloc_suspended demo_ucHeap demo_xStart 100) demo_heap) = Some (tt, s') /\
    xFreeBytesRemaining s' = xFreeBytesRemaining demo_heap.
Proof.
  destruct (heap4_malloc_free_roundtrip demo_ucHeap demo_xStart demo_heap demo_ucHeap demo_tiles 100
    (demo_ucHeap + 16) (run_state (pvPortMalloc_suspended demo_ucHeap demo_xStart 100) demo_heap) demo_rep
    ltac:(done) ltac:(vm_compute; reflexivity) ltac:(done)) as ([] & s' & E & _ & H).
  exists s'. split; [exact E|exact H].
Defined.

Lemma heap4_history_safe_witness :
  is_Some (vPortFree_body demo_xStart (demo_ucHeap + 16)
    (run_state (pvPortMalloc_suspended demo_ucHeap demo_xStart 100) demo_boot)).
Proof.
  apply (heap4_history_safe demo_ucHeap demo_xStart
    (run_state (pvPortMalloc_suspended demo_ucHeap demo_xStart 100) demo_boot) [demo_ucHeap + 16] demo_layout).
  - eapply rtc_once, (hs_malloc _ _ demo_boot [] 100 (demo_ucHeap + 16)); [done|]. vm_compute. reflexivity.
  - apply list_elem_of_singleton. reflexivity.
Defined.

Lemma heap4_stats_exact_witness :
  exists r, vPortGetHeapStats demo_xStart demo_heap = Some (r, demo_heap) /\ xNumberOfFreeBlocks r = 1.
Proof.
  eexists. split; [apply (heap4_stats_exact demo_xStart demo_heap demo_ucHeap demo_tiles demo_rep); done|].
  reflexivity.
Defined.

Lemma heap4_stats_full_heap_faults_witness : vPortGetHeapStats demo_xStart demo_full = None.
Proof.
  apply (heap4_stats_full_heap_faults demo_xStart demo_full demo_ucHeap demo_full_tiles demo_full_rep).
  reflexivity.
Defined.
