(* ===== verification/Kernel.v ===== *)
(** * The state of the kernel

    The modules of the kernel keep their state in file-scope variables, in the
    objects they allocate (task control blocks, queues, timers, event groups,
    stream buffers), and in the lists that link these objects.  [Vars] holds the variables and the objects (by address);
    the lists and list items live in a separate heap [H], reached only through
    the interface [ListOps], so that the same kernel runs on the pointer
    structures of list.c and on abstract sequences. *)

From S2P Require Import Prelude Config ListC ListSpec Heap4.

(** The list items embedded in a TCB and in a timer, named by the address of
    the object. *)
Inductive item := StateItem (t : Z) | EventItem (t : Z) | TimerItem (t : Z).

#[export] Instance item_eq_dec : EqDecision item.
Proof. solve_decision. Defined.
#[export] Instance item_countable : Countable item.
Proof.
  refine (inj_countable' (fun i => match i with
      StateItem t => (0, t) | EventItem t => (1, t) | TimerItem t => (2, t) end)
    (fun p => match p.1 with 0 => StateItem p.2 | 1 => EventItem p.2 | _ => TimerItem p.2 end) _).
  by intros [].
Defined.

(** The lists: the file-scope lists of tasks.c and timers.c, the two lists
    embedded in each queue and the list of each event group. *)
Inductive list_id :=
  | pxReadyTasksLists (uxPriority : Z)
  | xDelayedTaskList1
  | xDelayedTaskList2
  | xPendingReadyList
  | xTasksWaitingTermination
  | xSuspendedTaskList
  | xTasksWaitingToSend (q : Z)
  | xTasksWaitingToReceive (q : Z)
  | xTasksWaitingForBits (e : Z)
  | xActiveTimerList1
  | xActiveTimerList2.

#[export] Instance list_id_eq_dec : EqDecision list_id.
Proof. solve_decision. Defined.
#[export] Instance list_id_countable : Countable list_id.
Proof.
  refine (inj_countable' (fun l => match l with
      | pxReadyTasksLists p => (0, p) | xDelayedTaskList1 => (1, 0) | xDelayedTaskList2 => (2, 0)
      | xPendingReadyList => (3, 0) | xTasksWaitingTermination => (4, 0) | xSuspendedTaskList => (5, 0)
      | xTasksWaitingToSend q => (6, q) | xTasksWaitingToReceive q => (7, q)
      | xTasksWaitingForBits e => (8, e) | xActiveTimerList1 => (9, 0) | xActiveTimerList2 => (10, 0) end)
    (fun p => match p.1 with
      | 0 => pxReadyTasksLists p.2 | 1 => xDelayedTaskList1 | 2 => xDelayedTaskList2
      | 3 => xPendingReadyList | 4 => xTasksWaitingTermination | 5 => xSuspendedTaskList
      | 6 => xTasksWaitingToSend p.2 | 7 => xTasksWaitingToReceive p.2
      | 8 => xTasksWaitingForBits p.2 | 9 => xActiveTimerList1 | _ => xActiveTimerList2 end) _).
  by intros [].
Defined.

(** ** Task control blocks

    [struct tskTaskControlBlock] in the modelled configuration, without the
    saved stack pointer (the contents of stacks are not modelled).
    [pcTaskName] holds the bytes that have been written to the name array, in
    order, up to the terminating zero. *)

Record TCB_t := mkTCB {
  uxPriority : Z;
  pxStack : Z;
  pcTaskName : list Z;
  uxCriticalNesting : Z;
  uxTCBNumber : Z;
  uxTaskNumberTCB : Z;
  uxBasePriority : Z;
  uxMutexesHeld : Z;
  pxTaskTag : Z;
  ulNotifiedValue : Z;
  ucNotifyState : Z;
  ucDelayAborted : Z
}.

Definition set_uxPriority (z : Z) (r : TCB_t) : TCB_t :=
  mkTCB z (pxStack r) (pcTaskName r) (uxCriticalNesting r) (uxTCBNumber r) (uxTaskNumberTCB r)
    (uxBasePriority r) (uxMutexesHeld r) (pxTaskTag r) (ulNotifiedValue r) (ucNotifyState r)
    (ucDelayAborted r).
Definition set_pxStack (z : Z) (r : TCB_t) : TCB_t :=
  mkTCB (uxPriority r) z (pcTaskName r) (uxCriticalNesting r) (uxTCBNumber r) (uxTaskNumberTCB r)
    (uxBasePriority r) (uxMutexesHeld r) (pxTaskTag r) (ulNotifiedValue r) (ucNotifyState r)
    (ucDelayAborted r).
Definition set_pcTaskName (z : list Z) (r : TCB_t) : TCB_t :=
  mkTCB (uxPriority r) (pxStack r) z (uxCriticalNesting r) (uxTCBNumber r) (uxTaskNumberTCB r)
    (uxBasePriority r) (uxMutexesHeld r) (pxTaskTag r) (ulNotifiedValue r) (ucNotifyState r)
    (ucDelayAborted r).
Definition set_uxCriticalNesting (z : Z) (r : TCB_t) : TCB_t :=
  mkTCB (uxPriority r) (pxStack r) (pcTaskName r) z (uxTCBNumber r) (uxTaskNumberTCB r)
    (uxBasePriority r) (uxMutexesHeld r) (pxTaskTag r) (ulNotifiedValue r) (ucNotifyState r)
    (ucDelayAborted r).
Definition set_uxTCBNumber (z : Z) (r : TCB_t) : TCB_t :=
  mkTCB (uxPriority r) (pxStack r) (pcTaskName r) (uxCriticalNesting r) z (uxTaskNumberTCB r)
    (uxBasePriority r) (uxMutexesHeld r) (pxTaskTag r) (ulNotifiedValue r) (ucNotifyState r)
    (ucDelayAborted r).
Definition set_uxTaskNumberTCB (z : Z) (r : TCB_t) : TCB_t :=
  mkTCB (uxPriority r) (pxStack r) (pcTaskName r) (uxCriticalNesting r) (uxTCBNumber r) z
    (uxBasePriority r) (uxMutexesHeld r) (pxTaskTag r) (ulNotifiedValue r) (ucNotifyState r)
    (ucDelayAborted r).
Definition set_uxBasePriority (z : Z) (r : TCB_t) : TCB_t :=
  mkTCB (uxPriority r) (pxStack r) (pcTaskName r) (uxCriticalNesting r) (uxTCBNumber r)
    (uxTaskNumberTCB r) z (uxMutexesHeld r) (pxTaskTag r) (ulNotifiedValue r) (ucNotifyState
    r) (ucDelayAborted r).
Definition set_uxMutexesHeld (z : Z) (r : TCB_t) : TCB_t :=
  mkTCB (uxPriority r) (pxStack r) (pcTaskName r) (uxCriticalNesting r) (uxTCBNumber r)
    (uxTaskNumberTCB r) (uxBasePriority r) z (pxTaskTag r) (ulNotifiedValue r) (ucNotifyState
    r) (ucDelayAborted r).
Definition set_pxTaskTag (z : Z) (r : TCB_t) : TCB_t :=
  mkTCB (uxPriority r) (pxStack r) (pcTaskName r) (uxCriticalNesting r) (uxTCBNumber r)
    (uxTaskNumberTCB r) (uxBasePriority r) (uxMutexesHeld r) z (ulNotifiedValue r)
    (ucNotifyState r) (ucDelayAborted r).
Definition set_ulNotifiedValue (z : Z) (r : TCB_t) : TCB_t :=
  mkTCB (uxPriority r) (pxStack r) (pcTaskName r) (uxCriticalNesting r) (uxTCBNumber r)
    (uxTaskNumberTCB r) (uxBasePriority r) (uxMutexesHeld r) (pxTaskTag r) z (ucNotifyState r)
    (ucDelayAborted r).
Definition set_ucNotifyState (z : Z) (r : TCB_t) : TCB_t :=
  mkTCB (uxPriority r) (pxStack r) (pcTaskName r) (uxCriticalNesting r) (uxTCBNumber r)
    (uxTaskNumberTCB r) (uxBasePriority r) (uxMutexesHeld r) (pxTaskTag r) (ulNotifiedValue r)
    z (ucDelayAborted r).
Definition set_ucDelayAborted (z : Z) (r : TCB_t) : TCB_t :=
  mkTCB (uxPriority r) (pxStack r) (pcTaskName r) (uxCriticalNesting r) (uxTCBNumber r)
    (uxTaskNumberTCB r) (uxBasePriority r) (uxMutexesHeld r) (pxTaskTag r) (ulNotifiedValue r)
    (ucNotifyState r) z.

(** ** Queues

    [struct QueueDefinition].  The union [u] is two machine words: for a queue
    [pcTail] and [pcReadFrom], for a mutex [xMutexHolder] and
    [uxRecursiveCallCount].  [storage] holds the bytes of the storage area
    that follows the structure in memory. *)

Record Queue_t := mkQueue {
  pcHead : Z;
  pcWriteTo : Z;
  u_word0 : Z;
  u_word1 : Z;
  uxMessagesWaiting : Z;
  uxLength : Z;
  uxItemSize : Z;
  cRxLock : Z;
  cTxLock : Z;
  uxQueueNumber : Z;
  ucQueueType : Z;
  storage : list Z
}.

Definition set_pcHead (z : Z) (r : Queue_t) : Queue_t :=
  mkQueue z (pcWriteTo r) (u_word0 r) (u_word1 r) (uxMessagesWaiting r) (uxLength r) (uxItemSize r)
    (cRxLock r) (cTxLock r) (uxQueueNumber r) (ucQueueType r) (storage r).
Definition set_pcWriteTo (z : Z) (r : Queue_t) : Queue_t :=
  mkQueue (pcHead r) z (u_word0 r) (u_word1 r) (uxMessagesWaiting r) (uxLength r) (uxItemSize r)
    (cRxLock r) (cTxLock r) (uxQueueNumber r) (ucQueueType r) (storage r).
Definition set_u_word0 (z : Z) (r : Queue_t) : Queue_t :=
  mkQueue (pcHead r) (pcWriteTo r) z (u_word1 r) (uxMessagesWaiting r) (uxLength r) (uxItemSize r)
    (cRxLock r) (cTxLock r) (uxQueueNumber r) (ucQueueType r) (storage r).
Definition set_u_word1 (z : Z) (r : Queue_t) : Queue_t :=
  mkQueue (pcHead r) (pcWriteTo r) (u_word0 r) z (uxMessagesWaiting r) (uxLength r) (uxItemSize r)
    (cRxLock r) (cTxLock r) (uxQueueNumber r) (ucQueueType r) (storage r).
Definition set_uxMessagesWaiting (z : Z) (r : Queue_t) : Queue_t :=
  mkQueue (pcHead r) (pcWriteTo r) (u_word0 r) (u_word1 r) z (uxLength r) (uxItemSize r) (cRxLock r)
    (cTxLock r) (uxQueueNumber r) (ucQueueType r) (storage r).
Definition set_uxLength (z : Z) (r : Queue_t) : Queue_t :=
  mkQueue (pcHead r) (pcWriteTo r) (u_word0 r) (u_word1 r) (uxMessagesWaiting r) z (uxItemSize r)
    (cRxLock r) (cTxLock r) (uxQueueNumber r) (ucQueueType r) (storage r).
Definition set_uxItemSize (z : Z) (r : Queue_t) : Queue_t :=
  mkQueue (pcHead r) (pcWriteTo r) (u_word0 r) (u_word1 r) (uxMessagesWaiting r) (uxLength r) z
    (cRxLock r) (cTxLock r) (uxQueueNumber r) (ucQueueType r) (storage r).
Definition set_cRxLock (z : Z) (r : Queue_t) : Queue_t :=
  mkQueue (pcHead r) (pcWriteTo r) (u_word0 r) (u_word1 r) (uxMessagesWaiting r) (uxLength r)
    (uxItemSize r) z (cTxLock r) (uxQueueNumber r) (ucQueueType r) (storage r).
Definition set_cTxLock (z : Z) (r : Queue_t) : Queue_t :=
  mkQueue (pcHead r) (pcWriteTo r) (u_word0 r) (u_word1 r) (uxMessagesWaiting r) (uxLength r)
    (uxItemSize r) (cRxLock r) z (uxQueueNumber r) (ucQueueType r) (storage r).
Definition set_uxQueueNumber (z : Z) (r : Queue_t) : Queue_t :=
  mkQueue (pcHead r) (pcWriteTo r) (u_word0 r) (u_word1 r) (uxMessagesWaiting r) (uxLength r)
    (uxItemSize r) (cRxLock r) (cTxLock r) z (ucQueueType r) (storage r).
Definition set_ucQueueType (z : Z) (r : Queue_t) : Queue_t :=
  mkQueue (pcHead r) (pcWriteTo r) (u_word0 r) (u_word1 r) (uxMessagesWaiting r) (uxLength r)
    (uxItemSize r) (cRxLock r) (cTxLock r) (uxQueueNumber r) z (storage r).
Definition set_storage (z : list Z) (r : Queue_t) : Queue_t :=
  mkQueue (pcHead r) (pcWriteTo r) (u_word0 r) (u_word1 r) (uxMessagesWaiting r) (uxLength r)
    (uxItemSize r) (cRxLock r) (cTxLock r) (uxQueueNumber r) (ucQueueType r) z.

(** ** Software timers

    [struct tmrTimerControl], and the file-scope variables of timers.c (with
    the static variable of prvSampleTimeNow). *)

Record Timer_t := mkTimer {
  pcTimerName : Z;
  xTimerPeriodInTicks : Z;
  pvTimerID : Z;
  pxCallbackFunction : Z;
  uxTimerNumber : Z;
  ucStatus : Z
}.

Definition set_pcTimerName (z : Z) (r : Timer_t) : Timer_t :=
  mkTimer z (xTimerPeriodInTicks r) (pvTimerID r) (pxCallbackFunction r) (uxTimerNumber r) (ucStatus
    r).
Definition set_xTimerPeriodInTicks (z : Z) (r : Timer_t) : Timer_t :=
  mkTimer (pcTimerName r) z (pvTimerID r) (pxCallbackFunction r) (uxTimerNumber r) (ucStatus r).
Definition set_pvTimerID (z : Z) (r : Timer_t) : Timer_t :=
  mkTimer (pcTimerName r) (xTimerPeriodInTicks r) z (pxCallbackFunction r) (uxTimerNumber r)
    (ucStatus r).
Definition set_pxCallbackFunction (z : Z) (r : Timer_t) : Timer_t :=
  mkTimer (pcTimerName r) (xTimerPeriodInTicks r) (pvTimerID r) z (uxTimerNumber r) (ucStatus r).
Definition set_uxTimerNumber (z : Z) (r : Timer_t) : Timer_t :=
  mkTimer (pcTimerName r) (xTimerPeriodInTicks r) (pvTimerID r) (pxCallbackFunction r) z (ucStatus
    r).
Definition set_ucStatus (z : Z) (r : Timer_t) : Timer_t :=
  mkTimer (pcTimerName r) (xTimerPeriodInTicks r) (pvTimerID r) (pxCallbackFunction r)
    (uxTimerNumber r) z.

Record TimerVars := mkTimerVars {
  timers : gmap Z Timer_t;
  pxCurrentTimerList : list_id;
  pxOverflowTimerList : list_id;
  xTimerQueue : Z;
  xTimerTaskHandle : Z;
  xLastTime : Z
}.

Definition set_timers (z : gmap Z Timer_t) (r : TimerVars) : TimerVars :=
  mkTimerVars z (pxCurrentTimerList r) (pxOverflowTimerList r) (xTimerQueue r) (xTimerTaskHandle r)
    (xLastTime r).
Definition set_pxCurrentTimerList (z : list_id) (r : TimerVars) : TimerVars :=
  mkTimerVars (timers r) z (pxOverflowTimerList r) (xTimerQueue r) (xTimerTaskHandle r) (xLastTime r).
Definition set_pxOverflowTimerList (z : list_id) (r : TimerVars) : TimerVars :=
  mkTimerVars (timers r) (pxCurrentTimerList r) z (xTimerQueue r) (xTimerTaskHandle r) (xLastTime r).
Definition set_xTimerQueue (z : Z) (r : TimerVars) : TimerVars :=
  mkTimerVars (timers r) (pxCurrentTimerList r) (pxOverflowTimerList r) z (xTimerTaskHandle r)
    (xLastTime r).
Definition set_xTimerTaskHandle (z : Z) (r : TimerVars) : TimerVars :=
  mkTimerVars (timers r) (pxCurrentTimerList r) (pxOverflowTimerList r) (xTimerQueue r) z (xLastTime r).
Definition set_xLastTime (z : Z) (r : TimerVars) : TimerVars :=
  mkTimerVars (timers r) (pxCurrentTimerList r) (pxOverflowTimerList r) (xTimerQueue r)
    (xTimerTaskHandle r) z.

(** ** Event groups and stream buffers

    [EventGroup_t], whose list is [xTasksWaitingForBits], and
    [StreamBuffer_t]; [bytes] is the memory of [xLength] bytes at
    [pucBuffer]. *)

Record EventGroup_t := mkEventGroup {
  uxEventBits : Z;
  uxEventGroupNumber : Z
}.

Definition set_uxEventBits (z : Z) (r : EventGroup_t) : EventGroup_t :=
  mkEventGroup z (uxEventGroupNumber r).
Definition set_uxEventGroupNumber (z : Z) (r : EventGroup_t) : EventGroup_t :=
  mkEventGroup (uxEventBits r) z.

Record StreamBuffer_t := mkStreamBuffer {
  xTail : Z;
  xHead : Z;
  xLength : Z;
  xTriggerLevelBytes : Z;
  xTaskWaitingToReceive : Z;
  xTaskWaitingToSend : Z;
  pucBuffer : Z;
  ucFlags : Z;
  uxStreamBufferNumber : Z;
  bytes : list Z
}.

Definition set_xTail (z : Z) (r : StreamBuffer_t) : StreamBuffer_t :=
  mkStreamBuffer z (xHead r) (xLength r) (xTriggerLevelBytes r) (xTaskWaitingToReceive r)
    (xTaskWaitingToSend r) (pucBuffer r) (ucFlags r) (uxStreamBufferNumber r) (bytes r).
Definition set_xHead (z : Z) (r : StreamBuffer_t) : StreamBuffer_t :=
  mkStreamBuffer (xTail r) z (xLength r) (xTriggerLevelBytes r) (xTaskWaitingToReceive r)
    (xTaskWaitingToSend r) (pucBuffer r) (ucFlags r) (uxStreamBufferNumber r) (bytes r).
Definition set_xLength (z : Z) (r : StreamBuffer_t) : StreamBuffer_t :=
  mkStreamBuffer (xTail r) (xHead r) z (xTriggerLevelBytes r) (xTaskWaitingToReceive r) (xTaskWaitingToSend
    r) (pucBuffer r) (ucFlags r) (uxStreamBufferNumber r) (bytes r).
Definition set_xTriggerLevelBytes (z : Z) (r : StreamBuffer_t) : StreamBuffer_t :=
  mkStreamBuffer (xTail r) (xHead r) (xLength r) z (xTaskWaitingToReceive r) (xTaskWaitingToSend r)
    (pucBuffer r) (ucFlags r) (uxStreamBufferNumber r) (bytes r).
Definition set_xTaskWaitingToReceive (z : Z) (r : StreamBuffer_t) : StreamBuffer_t :=
  mkStreamBuffer (xTail r) (xHead r) (xLength r) (xTriggerLevelBytes r) z (xTaskWaitingToSend r) (pucBuffer
    r) (ucFlags r) (uxStreamBufferNumber r) (bytes r).
Definition set_xTaskWaitingToSend (z : Z) (r : StreamBuffer_t) : StreamBuffer_t :=
  mkStreamBuffer (xTail r) (xHead r) (xLength r) (xTriggerLevelBytes r) (xTaskWaitingToReceive r) z
    (pucBuffer r) (ucFlags r) (uxStreamBufferNumber r) (bytes r).
Definition set_pucBuffer (z : Z) (r : StreamBuffer_t) : StreamBuffer_t :=
  mkStreamBuffer (xTail r) (xHead r) (xLength r) (xTriggerLevelBytes r) (xTaskWaitingToReceive r)
    (xTaskWaitingToSend r) z (ucFlags r) (uxStreamBufferNumber r) (bytes r).
Definition set_ucFlags (z : Z) (r : StreamBuffer_t) : StreamBuffer_t :=
  mkStreamBuffer (xTail r) (xHead r) (xLength r) (xTriggerLevelBytes r) (xTaskWaitingToReceive r)
    (xTaskWaitingToSend r) (pucBuffer r) z (uxStreamBufferNumber r) (bytes r).
Definition set_uxStreamBufferNumber (z : Z) (r : StreamBuffer_t) : StreamBuffer_t :=
  mkStreamBuffer (xTail r) (xHead r) (xLength r) (xTriggerLevelBytes r) (xTaskWaitingToReceive r)
    (xTaskWaitingToSend r) (pucBuffer r) (ucFlags r) z (bytes r).
Definition set_bytes (z : list Z) (r : StreamBuffer_t) : StreamBuffer_t :=
  mkStreamBuffer (xTail r) (xHead r) (xLength r) (xTriggerLevelBytes r) (xTaskWaitingToReceive r)
    (xTaskWaitingToSend r) (pucBuffer r) (ucFlags r) (uxStreamBufferNumber r) z.

(** ** The variables

    The file-scope variables of tasks.c and timers.c and the queue registry of
    queue.c (name pointer and handle of each entry), the objects that have been
    allocated, the allocator's state, the interrupt-enable bit of [mstatus],
    two counters of the calls made to the application's hooks, and the calls
    made through function pointers the application supplied (the pointer and
    two arguments), the latest last. *)

Record Vars := mkVars {
  tcbs : gmap Z TCB_t;
  pxCurrentTCB : Z;
  pxDelayedTaskList : list_id;
  pxOverflowDelayedTaskList : list_id;
  uxDeletedTasksWaitingCleanUp : Z;
  uxCurrentNumberOfTasks : Z;
  xTickCount : Z;
  uxTopReadyPriority : Z;
  xSchedulerRunning : Z;
  xPendedTicks : Z;
  xYieldPending : Z;
  xNumOfOverflows : Z;
  uxTaskNumber : Z;
  xNextTaskUnblockTime : Z;
  xIdleTaskHandle : Z;
  uxSchedulerSuspended : Z;
  queues : gmap Z Queue_t;
  xQueueRegistry : list (Z * Z);
  timer_vars : TimerVars;
  event_groups : gmap Z EventGroup_t;
  stream_buffers : gmap Z StreamBuffer_t;
  heap : heap4;
  mstatusMIE : Z;
  tickHookCalls : Z;
  mallocFailedHookCalls : Z;
  callbacks : list (Z * Z * Z)
}.

Definition set_tcbs (z : gmap Z TCB_t) (r : Vars) : Vars :=
  mkVars z (pxCurrentTCB r) (pxDelayedTaskList r) (pxOverflowDelayedTaskList r)
    (uxDeletedTasksWaitingCleanUp r) (uxCurrentNumberOfTasks r) (xTickCount r)
    (uxTopReadyPriority r) (xSchedulerRunning r) (xPendedTicks r) (xYieldPending r)
    (xNumOfOverflows r) (uxTaskNumber r) (xNextTaskUnblockTime r) (xIdleTaskHandle r)
    (uxSchedulerSuspended r) (queues r) (xQueueRegistry r) (timer_vars r) (event_groups r)
    (stream_buffers r) (heap r) (mstatusMIE r) (tickHookCalls r) (mallocFailedHookCalls r)
    (callbacks r).
Definition set_pxCurrentTCB (z : Z) (r : Vars) : Vars :=
  mkVars (tcbs r) z (pxDelayedTaskList r) (pxOverflowDelayedTaskList r)
    (uxDeletedTasksWaitingCleanUp r) (uxCurrentNumberOfTasks r) (xTickCount r)
    (uxTopReadyPriority r) (xSchedulerRunning r) (xPendedTicks r) (xYieldPending r)
    (xNumOfOverflows r) (uxTaskNumber r) (xNextTaskUnblockTime r) (xIdleTaskHandle r)
    (uxSchedulerSuspended r) (queues r) (xQueueRegistry r) (timer_vars r) (event_groups r)
    (stream_buffers r) (heap r) (mstatusMIE r) (tickHookCalls r) (mallocFailedHookCalls r)
    (callbacks r).
Definition set_pxDelayedTaskList (z : list_id) (r : Vars) : Vars :=
  mkVars (tcbs r) (pxCurrentTCB r) z (pxOverflowDelayedTaskList r) (uxDeletedTasksWaitingCleanUp r)
    (uxCurrentNumberOfTasks r) (xTickCount r) (uxTopReadyPriority r) (xSchedulerRunning r)
    (xPendedTicks r) (xYieldPending r) (xNumOfOverflows r) (uxTaskNumber r)
    (xNextTaskUnblockTime r) (xIdleTaskHandle r) (uxSchedulerSuspended r) (queues r)
    (xQueueRegistry r) (timer_vars r) (event_groups r) (stream_buffers r) (heap r) (mstatusMIE
    r) (tickHookCalls r) (mallocFailedHookCalls r) (callbacks r).
Definition set_pxOverflowDelayedTaskList (z : list_id) (r : Vars) : Vars :=
  mkVars (tcbs r) (pxCurrentTCB r) (pxDelayedTaskList r) z (uxDeletedTasksWaitingCleanUp r)
    (uxCurrentNumberOfTasks r) (xTickCount r) (uxTopReadyPriority r) (xSchedulerRunning r)
    (xPendedTicks r) (xYieldPending r) (xNumOfOverflows r) (uxTaskNumber r)
    (xNextTaskUnblockTime r) (xIdleTaskHandle r) (uxSchedulerSuspended r) (queues r)
    (xQueueRegistry r) (timer_vars r) (event_groups r) (stream_buffers r) (heap r) (mstatusMIE
    r) (tickHookCalls r) (mallocFailedHookCalls r) (callbacks r).
Definition set_uxDeletedTasksWaitingCleanUp (z : Z) (r : Vars) : Vars :=
  mkVars (tcbs r) (pxCurrentTCB r) (pxDelayedTaskList r) (pxOverflowDelayedTaskList r) z
    (uxCurrentNumberOfTasks r) (xTickCount r) (uxTopReadyPriority r) (xSchedulerRunning r)
    (xPendedTicks r) (xYieldPending r) (xNumOfOverflows r) (uxTaskNumber r)
    (xNextTaskUnblockTime r) (xIdleTaskHandle r) (uxSchedulerSuspended r) (queues r)
    (xQueueRegistry r) (timer_vars r) (event_groups r) (stream_buffers r) (heap r) (mstatusMIE
    r) (tickHookCalls r) (mallocFailedHookCalls r) (callbacks r).
Definition set_uxCurrentNumberOfTasks (z : Z) (r : Vars) : Vars :=
  mkVars (tcbs r) (pxCurrentTCB r) (pxDelayedTaskList r) (pxOverflowDelayedTaskList r)
    (uxDeletedTasksWaitingCleanUp r) z (xTickCount r) (uxTopReadyPriority r)
    (xSchedulerRunning r) (xPendedTicks r) (xYieldPending r) (xNumOfOverflows r) (uxTaskNumber
    r) (xNextTaskUnblockTime r) (xIdleTaskHandle r) (uxSchedulerSuspended r) (queues r)
    (xQueueRegistry r) (timer_vars r) (event_groups r) (stream_buffers r) (heap r) (mstatusMIE
    r) (tickHookCalls r) (mallocFailedHookCalls r) (callbacks r).
Definition set_xTickCount (z : Z) (r : Vars) : Vars :=
  mkVars (tcbs r) (pxCurrentTCB r) (pxDelayedTaskList r) (pxOverflowDelayedTaskList r)
    (uxDeletedTasksWaitingCleanUp r) (uxCurrentNumberOfTasks r) z (uxTopReadyPriority r)
    (xSchedulerRunning r) (xPendedTicks r) (xYieldPending r) (xNumOfOverflows r) (uxTaskNumber
    r) (xNextTaskUnblockTime r) (xIdleTaskHandle r) (uxSchedulerSuspended r) (queues r)
    (xQueueRegistry r) (timer_vars r) (event_groups r) (stream_buffers r) (heap r) (mstatusMIE
    r) (tickHookCalls r) (mallocFailedHookCalls r) (callbacks r).
Definition set_uxTopReadyPriority (z : Z) (r : Vars) : Vars :=
  mkVars (tcbs r) (pxCurrentTCB r) (pxDelayedTaskList r) (pxOverflowDelayedTaskList r)
    (uxDeletedTasksWaitingCleanUp r) (uxCurrentNumberOfTasks r) (xTickCount r) z
    (xSchedulerRunning r) (xPendedTicks r) (xYieldPending r) (xNumOfOverflows r) (uxTaskNumber
    r) (xNextTaskUnblockTime r) (xIdleTaskHandle r) (uxSchedulerSuspended r) (queues r)
    (xQueueRegistry r) (timer_vars r) (event_groups r) (stream_buffers r) (heap r) (mstatusMIE
    r) (tickHookCalls r) (mallocFailedHookCalls r) (callbacks r).
Definition set_xSchedulerRunning (z : Z) (r : Vars) : Vars :=
  mkVars (tcbs r) (pxCurrentTCB r) (pxDelayedTaskList r) (pxOverflowDelayedTaskList r)
    (uxDeletedTasksWaitingCleanUp r) (uxCurrentNumberOfTasks r) (xTickCount r)
    (uxTopReadyPriority r) z (xPendedTicks r) (xYieldPending r) (xNumOfOverflows r)
    (uxTaskNumber r) (xNextTaskUnblockTime r) (xIdleTaskHandle r) (uxSchedulerSuspended r)
    (queues r) (xQueueRegistry r) (timer_vars r) (event_groups r) (stream_buffers r) (heap r)
    (mstatusMIE r) (tickHookCalls r) (mallocFailedHookCalls r) (callbacks r).
Definition set_xPendedTicks (z : Z) (r : Vars) : Vars :=
  mkVars (tcbs r) (pxCurrentTCB r) (pxDelayedTaskList r) (pxOverflowDelayedTaskList r)
    (uxDeletedTasksWaitingCleanUp r) (uxCurrentNumberOfTasks r) (xTickCount r)
    (uxTopReadyPriority r) (xSchedulerRunning r) z (xYieldPending r) (xNumOfOverflows r)
    (uxTaskNumber r) (xNextTaskUnblockTime r) (xIdleTaskHandle r) (uxSchedulerSuspended r)
    (queues r) (xQueueRegistry r) (timer_vars r) (event_groups r) (stream_buffers r) (heap r)
    (mstatusMIE r) (tickHookCalls r) (mallocFailedHookCalls r) (callbacks r).
Definition set_xYieldPending (z : Z) (r : Vars) : Vars :=
  mkVars (tcbs r) (pxCurrentTCB r) (pxDelayedTaskList r) (pxOverflowDelayedTaskList r)
    (uxDeletedTasksWaitingCleanUp r) (uxCurrentNumberOfTasks r) (xTickCount r)
    (uxTopReadyPriority r) (xSchedulerRunning r) (xPendedTicks r) z (xNumOfOverflows r)
    (uxTaskNumber r) (xNextTaskUnblockTime r) (xIdleTaskHandle r) (uxSchedulerSuspended r)
    (queues r) (xQueueRegistry r) (timer_vars r) (event_groups r) (stream_buffers r) (heap r)
    (mstatusMIE r) (tickHookCalls r) (mallocFailedHookCalls r) (callbacks r).
Definition set_xNumOfOverflows (z : Z) (r : Vars) : Vars :=
  mkVars (tcbs r) (pxCurrentTCB r) (pxDelayedTaskList r) (pxOverflowDelayedTaskList r)
    (uxDeletedTasksWaitingCleanUp r) (uxCurrentNumberOfTasks r) (xTickCount r)
    (uxTopReadyPriority r) (xSchedulerRunning r) (xPendedTicks r) (xYieldPending r) z
    (uxTaskNumber r) (xNextTaskUnblockTime r) (xIdleTaskHandle r) (uxSchedulerSuspended r)
    (queues r) (xQueueRegistry r) (timer_vars r) (event_groups r) (stream_buffers r) (heap r)
    (mstatusMIE r) (tickHookCalls r) (mallocFailedHookCalls r) (callbacks r).
Definition set_uxTaskNumber (z : Z) (r : Vars) : Vars :=
  mkVars (tcbs r) (pxCurrentTCB r) (pxDelayedTaskList r) (pxOverflowDelayedTaskList r)
    (uxDeletedTasksWaitingCleanUp r) (uxCurrentNumberOfTasks r) (xTickCount r)
    (uxTopReadyPriority r) (xSchedulerRunning r) (xPendedTicks r) (xYieldPending r)
    (xNumOfOverflows r) z (xNextTaskUnblockTime r) (xIdleTaskHandle r) (uxSchedulerSuspended
    r) (queues r) (xQueueRegistry r) (timer_vars r) (event_groups r) (stream_buffers r) (heap
    r) (mstatusMIE r) (tickHookCalls r) (mallocFailedHookCalls r) (callbacks r).
Definition set_xNextTaskUnblockTime (z : Z) (r : Vars) : Vars :=
  mkVars (tcbs r) (pxCurrentTCB r) (pxDelayedTaskList r) (pxOverflowDelayedTaskList r)
    (uxDeletedTasksWaitingCleanUp r) (uxCurrentNumberOfTasks r) (xTickCount r)
    (uxTopReadyPriority r) (xSchedulerRunning r) (xPendedTicks r) (xYieldPending r)
    (xNumOfOverflows r) (uxTaskNumber r) z (xIdleTaskHandle r) (uxSchedulerSuspended r)
    (queues r) (xQueueRegistry r) (timer_vars r) (event_groups r) (stream_buffers r) (heap r)
    (mstatusMIE r) (tickHookCalls r) (mallocFailedHookCalls r) (callbacks r).
Definition set_xIdleTaskHandle (z : Z) (r : Vars) : Vars :=
  mkVars (tcbs r) (pxCurrentTCB r) (pxDelayedTaskList r) (pxOverflowDelayedTaskList r)
    (uxDeletedTasksWaitingCleanUp r) (uxCurrentNumberOfTasks r) (xTickCount r)
    (uxTopReadyPriority r) (xSchedulerRunning r) (xPendedTicks r) (xYieldPending r)
    (xNumOfOverflows r) (uxTaskNumber r) (xNextTaskUnblockTime r) z (uxSchedulerSuspended r)
    (queues r) (xQueueRegistry r) (timer_vars r) (event_groups r) (stream_buffers r) (heap r)
    (mstatusMIE r) (tickHookCalls r) (mallocFailedHookCalls r) (callbacks r).
Definition set_uxSchedulerSuspended (z : Z) (r : Vars) : Vars :=
  mkVars (tcbs r) (pxCurrentTCB r) (pxDelayedTaskList r) (pxOverflowDelayedTaskList r)
    (uxDeletedTasksWaitingCleanUp r) (uxCurrentNumberOfTasks r) (xTickCount r)
    (uxTopReadyPriority r) (xSchedulerRunning r) (xPendedTicks r) (xYieldPending r)
    (xNumOfOverflows r) (uxTaskNumber r) (xNextTaskUnblockTime r) (xIdleTaskHandle r) z
    (queues r) (xQueueRegistry r) (timer_vars r) (event_groups r) (stream_buffers r) (heap r)
    (mstatusMIE r) (tickHookCalls r) (mallocFailedHookCalls r) (callbacks r).
Definition set_queues (z : gmap Z Queue_t) (r : Vars) : Vars :=
  mkVars (tcbs r) (pxCurrentTCB r) (pxDelayedTaskList r) (pxOverflowDelayedTaskList r)
    (uxDeletedTasksWaitingCleanUp r) (uxCurrentNumberOfTasks r) (xTickCount r)
    (uxTopReadyPriority r) (xSchedulerRunning r) (xPendedTicks r) (xYieldPending r)
    (xNumOfOverflows r) (uxTaskNumber r) (xNextTaskUnblockTime r) (xIdleTaskHandle r)
    (uxSchedulerSuspended r) z (xQueueRegistry r) (timer_vars r) (event_groups r)
    (stream_buffers r) (heap r) (mstatusMIE r) (tickHookCalls r) (mallocFailedHookCalls r)
    (callbacks r).
Definition set_xQueueRegistry (z : list (Z * Z)) (r : Vars) : Vars :=
  mkVars (tcbs r) (pxCurrentTCB r) (pxDelayedTaskList r) (pxOverflowDelayedTaskList r)
    (uxDeletedTasksWaitingCleanUp r) (uxCurrentNumberOfTasks r) (xTickCount r)
    (uxTopReadyPriority r) (xSchedulerRunning r) (xPendedTicks r) (xYieldPending r)
    (xNumOfOverflows r) (uxTaskNumber r) (xNextTaskUnblockTime r) (xIdleTaskHandle r)
    (uxSchedulerSuspended r) (queues r) z (timer_vars r) (event_groups r) (stream_buffers r)
    (heap r) (mstatusMIE r) (tickHookCalls r) (mallocFailedHookCalls r) (callbacks r).
Definition set_timer_vars (z : TimerVars) (r : Vars) : Vars :=
  mkVars (tcbs r) (pxCurrentTCB r) (pxDelayedTaskList r) (pxOverflowDelayedTaskList r)
    (uxDeletedTasksWaitingCleanUp r) (uxCurrentNumberOfTasks r) (xTickCount r)
    (uxTopReadyPriority r) (xSchedulerRunning r) (xPendedTicks r) (xYieldPending r)
    (xNumOfOverflows r) (uxTaskNumber r) (xNextTaskUnblockTime r) (xIdleTaskHandle r)
    (uxSchedulerSuspended r) (queues r) (xQueueRegistry r) z (event_groups r) (stream_buffers
    r) (heap r) (mstatusMIE r) (tickHookCalls r) (mallocFailedHookCalls r) (callbacks r).
Definition set_event_groups (z : gmap Z EventGroup_t) (r : Vars) : Vars :=
  mkVars (tcbs r) (pxCurrentTCB r) (pxDelayedTaskList r) (pxOverflowDelayedTaskList r)
    (uxDeletedTasksWaitingCleanUp r) (uxCurrentNumberOfTasks r) (xTickCount r)
    (uxTopReadyPriority r) (xSchedulerRunning r) (xPendedTicks r) (xYieldPending r)
    (xNumOfOverflows r) (uxTaskNumber r) (xNextTaskUnblockTime r) (xIdleTaskHandle r)
    (uxSchedulerSuspended r) (queues r) (xQueueRegistry r) (timer_vars r) z (stream_buffers r)
    (heap r) (mstatusMIE r) (tickHookCalls r) (mallocFailedHookCalls r) (callbacks r).
Definition set_stream_buffers (z : gmap Z StreamBuffer_t) (r : Vars) : Vars :=
  mkVars (tcbs r) (pxCurrentTCB r) (pxDelayedTaskList r) (pxOverflowDelayedTaskList r)
    (uxDeletedTasksWaitingCleanUp r) (uxCurrentNumberOfTasks r) (xTickCount r)
    (uxTopReadyPriority r) (xSchedulerRunning r) (xPendedTicks r) (xYieldPending r)
    (xNumOfOverflows r) (uxTaskNumber r) (xNextTaskUnblockTime r) (xIdleTaskHandle r)
    (uxSchedulerSuspended r) (queues r) (xQueueRegistry r) (timer_vars r) (event_groups r) z
    (heap r) (mstatusMIE r) (tickHookCalls r) (mallocFailedHookCalls r) (callbacks r).
Definition set_heap (z : heap4) (r : Vars) : Vars :=
  mkVars (tcbs r) (pxCurrentTCB r) (pxDelayedTaskList r) (pxOverflowDelayedTaskList r)
    (uxDeletedTasksWaitingCleanUp r) (uxCurrentNumberOfTasks r) (xTickCount r)
    (uxTopReadyPriority r) (xSchedulerRunning r) (xPendedTicks r) (xYieldPending r)
    (xNumOfOverflows r) (uxTaskNumber r) (xNextTaskUnblockTime r) (xIdleTaskHandle r)
    (uxSchedulerSuspended r) (queues r) (xQueueRegistry r) (timer_vars r) (event_groups r)
    (stream_buffers r) z (mstatusMIE r) (tickHookCalls r) (mallocFailedHookCalls r) (callbacks
    r).
Definition set_mstatusMIE (z : Z) (r : Vars) : Vars :=
  mkVars (tcbs r) (pxCurrentTCB r) (pxDelayedTaskList r) (pxOverflowDelayedTaskList r)
    (uxDeletedTasksWaitingCleanUp r) (uxCurrentNumberOfTasks r) (xTickCount r)
    (uxTopReadyPriority r) (xSchedulerRunning r) (xPendedTicks r) (xYieldPending r)
    (xNumOfOverflows r) (uxTaskNumber r) (xNextTaskUnblockTime r) (xIdleTaskHandle r)
    (uxSchedulerSuspended r) (queues r) (xQueueRegistry r) (timer_vars r) (event_groups r)
    (stream_buffers r) (heap r) z (tickHookCalls r) (mallocFailedHookCalls r) (callbacks r).
Definition set_tickHookCalls (z : Z) (r : Vars) : Vars :=
  mkVars (tcbs r) (pxCurrentTCB r) (pxDelayedTaskList r) (pxOverflowDelayedTaskList r)
    (uxDeletedTasksWaitingCleanUp r) (uxCurrentNumberOfTasks r) (xTickCount r)
    (uxTopReadyPriority r) (xSchedulerRunning r) (xPendedTicks r) (xYieldPending r)
    (xNumOfOverflows r) (uxTaskNumber r) (xNextTaskUnblockTime r) (xIdleTaskHandle r)
    (uxSchedulerSuspended r) (queues r) (xQueueRegistry r) (timer_vars r) (event_groups r)
    (stream_buffers r) (heap r) (mstatusMIE r) z (mallocFailedHookCalls r) (callbacks r).
Definition set_mallocFailedHookCalls (z : Z) (r : Vars) : Vars :=
  mkVars (tcbs r) (pxCurrentTCB r) (pxDelayedTaskList r) (pxOverflowDelayedTaskList r)
    (uxDeletedTasksWaitingCleanUp r) (uxCurrentNumberOfTasks r) (xTickCount r)
    (uxTopReadyPriority r) (xSchedulerRunning r) (xPendedTicks r) (xYieldPending r)
    (xNumOfOverflows r) (uxTaskNumber r) (xNextTaskUnblockTime r) (xIdleTaskHandle r)
    (uxSchedulerSuspended r) (queues r) (xQueueRegistry r) (timer_vars r) (event_groups r)
    (stream_buffers r) (heap r) (mstatusMIE r) (tickHookCalls r) z (callbacks r).
Definition set_callbacks (z : list (Z * Z * Z)) (r : Vars) : Vars :=
  mkVars (tcbs r) (pxCurrentTCB r) (pxDelayedTaskList r) (pxOverflowDelayedTaskList r)
    (uxDeletedTasksWaitingCleanUp r) (uxCurrentNumberOfTasks r) (xTickCount r)
    (uxTopReadyPriority r) (xSchedulerRunning r) (xPendedTicks r) (xYieldPending r)
    (xNumOfOverflows r) (uxTaskNumber r) (xNextTaskUnblockTime r) (xIdleTaskHandle r)
    (uxSchedulerSuspended r) (queues r) (xQueueRegistry r) (timer_vars r) (event_groups r)
    (stream_buffers r) (heap r) (mstatusMIE r) (tickHookCalls r) (mallocFailedHookCalls r) z.

(** The whole state, over an implementation [H] of the lists. *)
Record Kernel (H : Type) := mkKernel { k_lists : H; k_vars : Vars }.
Arguments mkKernel {H}.
Arguments k_lists {H}.
Arguments k_vars {H}.

Section Access.
Context {H : Type} `{!ListOps item list_id H}.
Notation K := (Kernel H).

Definition rdv {A} (f : Vars -> A) : M K A := gets (fun k => f (k_vars k)).
Definition wrv (g : Vars -> Vars) : M K unit :=
  modify (fun k => mkKernel (k_lists k) (g (k_vars k))).
Definition onlist {A} (m : M H A) : M K A := fun k =>
  match m (k_lists k) with
  | Some (a, h) => Some (a, mkKernel h (k_vars k))
  | None => None
  end.
Definition onheap {A} (m : M heap4 A) : M K A := fun k =>
  match m (heap (k_vars k)) with
  | Some (a, h) => Some (a, mkKernel (k_lists k) (set_heap h (k_vars k)))
  | None => None
  end.

(** Reads and writes through a TCB pointer. *)
Definition rd_tcb {A} (t : Z) (f : TCB_t -> A) : M K A := fun k =>
  match tcbs (k_vars k) !! t with
  | Some x => Some (f x, k)
  | None => None
  end.
Definition wr_tcb (t : Z) (g : TCB_t -> TCB_t) : M K unit :=
  _ ← rd_tcb t id; wrv (fun v => set_tcbs (alter g t (tcbs v)) v).

(** Reads and writes through a queue pointer. *)
Definition rd_queue {A} (q : Z) (f : Queue_t -> A) : M K A := fun k =>
  match queues (k_vars k) !! q with
  | Some x => Some (f x, k)
  | None => None
  end.
Definition wr_queue (q : Z) (g : Queue_t -> Queue_t) : M K unit :=
  _ ← rd_queue q id; wrv (fun v => set_queues (alter g q (queues v)) v).

(** The variables of timers.c, and reads and writes through a timer pointer. *)
Definition rdt {A} (f : TimerVars -> A) : M K A := rdv (fun v => f (timer_vars v)).
Definition wrt (g : TimerVars -> TimerVars) : M K unit := wrv (fun v => set_timer_vars (g (timer_vars v)) v).
Definition rd_timer {A} (t : Z) (f : Timer_t -> A) : M K A :=
  m ← rdt timers; x ← lift_opt (m !! t); mret (f x).
Definition wr_timer (t : Z) (g : Timer_t -> Timer_t) : M K unit :=
  _ ← rd_timer t id; wrt (fun v => set_timers (alter g t (timers v)) v).

(** Reads and writes through an event group pointer. *)
Definition rd_group {A} (e : Z) (f : EventGroup_t -> A) : M K A :=
  m ← rdv event_groups; x ← lift_opt (m !! e); mret (f x).
Definition wr_group (e : Z) (g : EventGroup_t -> EventGroup_t) : M K unit :=
  _ ← rd_group e id; wrv (fun v => set_event_groups (alter g e (event_groups v)) v).

(** Reads and writes through a stream buffer pointer. *)
Definition rd_stream {A} (b : Z) (f : StreamBuffer_t -> A) : M K A :=
  m ← rdv stream_buffers; x ← lift_opt (m !! b); mret (f x).
Definition wr_stream (b : Z) (g : StreamBuffer_t -> StreamBuffer_t) : M K unit :=
  _ ← rd_stream b id; wrv (fun v => set_stream_buffers (alter g b (stream_buffers v)) v).

End Access.
