(* ===== verification/Tasks.v ===== *)
(** * tasks.c: the scheduler

    Each definition is the C function or macro of the same name.  A function
    whose whole effect happens inside one critical section, or in an
    interrupt, is a computation in [M]; one that gives up the processor in the
    middle, or that suspends the scheduler for part of its body, is a [prog]
    of such blocks.  The configASSERT()s are compiled out in this
    configuration, trace macros are empty.  [ucHeap] and [xStart] are the
    link-time addresses heap_4.c works with. *)

From S2P Require Import Prelude Config ListC ListSpec Heap4 Kernel.

Inductive eTaskState := eRunning | eReady | eBlocked | eSuspended | eDeleted | eInvalid.

#[export] Instance eTaskState_eq_dec : EqDecision eTaskState.
Proof. solve_decision. Defined.

Record TimeOut_t := mkTimeOut { xOverflowCount : Z; xTimeOnEntering : Z }.

(** [sizeof( TCB_t )] and [sizeof( StackType_t )] on the 32-bit target. *)
Definition sizeof_TCB_t : Z := 100.
Definition sizeof_StackType_t : Z := 4.

(** [__builtin_clz] of a non-zero 32-bit value. *)
Definition builtin_clz (x : Z) : Z := 31 - Z.log2 x.

(** A signed 32-bit value, as [BaseType_t] stores it. *)
Definition i32 (z : Z) : Z := (z + 2147483648) mod 4294967296 - 2147483648.

(** The name copied into a TCB: up to and including the terminator, at most
    [configMAX_TASK_NAME_LEN] characters, the last of which is overwritten
    with a terminator.  [None]: the string read has no terminator. *)
Fixpoint copy_name (room : nat) (pcName : list Z) : option (list Z) :=
  match room, pcName with
  | O, _ => Some []
  | S room', c :: rest => if c =? 0 then Some [0] else cons c <$> copy_name room' rest
  | S _, [] => None
  end.
Definition terminate_name (name : list Z) : list Z :=
  if decide (length name = 16%nat) then take 15 name ++ [0] else name.

Section Tasks.
Context {H : Type} `{!ListOps item list_id H}.
Variables ucHeap xStart : Z.
Notation K := (Kernel H).

(** ** Lists *)

(** [&( pxReadyTasksLists[ uxPriority ] )]; outside the array there is no list. *)
Definition ready_list (uxPriority : Z) : M K list_id :=
  lift_opt (if (0 <=? uxPriority) && (uxPriority <? configMAX_PRIORITIES)
            then Some (pxReadyTasksLists uxPriority) else None).

Definition listREMOVE (i : item) : M K unit := _ ← onlist (loRemove i); mret tt.
Definition listIS_EMPTY (l : list_id) : M K bool :=
  n ← onlist (loLength l); mret (n =? 0).
Definition listIS_CONTAINED_WITHIN (l : list_id) (i : item) : M K bool :=
  c ← onlist (loContainer i); mret (bool_decide (c = Some l)).

(** ** The ready lists and their bitmap *)

Definition portRECORD_READY_PRIORITY (uxPriority uxReadyPriorities : Z) : Z :=
  Z.lor uxReadyPriorities (Z.shiftl 1 uxPriority).
Definition portRESET_READY_PRIORITY_bits (uxPriority uxReadyPriorities : Z) : Z :=
  Z.land uxReadyPriorities (Z.lnot (Z.shiftl 1 uxPriority)).

Definition portRESET_READY_PRIORITY (uxPriority : Z) : M K unit :=
  wrv (fun v => set_uxTopReadyPriority
    (portRESET_READY_PRIORITY_bits uxPriority (uxTopReadyPriority v)) v).

Definition taskRECORD_READY_PRIORITY (uxPriority : Z) : M K unit :=
  wrv (fun v => set_uxTopReadyPriority
    (portRECORD_READY_PRIORITY uxPriority (uxTopReadyPriority v)) v).

Definition taskRESET_READY_PRIORITY (uxPriority : Z) : M K unit :=
  l ← ready_list uxPriority;
  n ← onlist (loLength l);
  when (n =? 0) (portRESET_READY_PRIORITY uxPriority).

(** [__builtin_clz( 0 )] is undefined. *)
Definition taskSELECT_HIGHEST_PRIORITY_TASK : M K unit :=
  bits ← rdv uxTopReadyPriority;
  if bits =? 0 then fault
  else
    let uxTopPriority := 31 - builtin_clz bits in
    l ← ready_list uxTopPriority;
    t ← onlist (loNextOwner l);
    wrv (set_pxCurrentTCB t).

Definition prvAddTaskToReadyList (pxTCB : Z) : M K unit :=
  p ← rd_tcb pxTCB uxPriority;
  taskRECORD_READY_PRIORITY p;;
  l ← ready_list p;
  onlist (loInsertEnd l (StateItem pxTCB)).

Definition prvResetNextTaskUnblockTime : M K unit :=
  l ← rdv pxDelayedTaskList;
  e ← listIS_EMPTY l;
  if e : bool then wrv (set_xNextTaskUnblockTime portMAX_DELAY)
  else v ← onlist (loHeadValue l); wrv (set_xNextTaskUnblockTime v).

Definition taskSWITCH_DELAYED_LISTS : M K unit :=
  wrv (fun v => set_pxOverflowDelayedTaskList (pxDelayedTaskList v)
                  (set_pxDelayedTaskList (pxOverflowDelayedTaskList v) v));;
  wrv (fun v => set_xNumOfOverflows (i32 (xNumOfOverflows v + 1)) v);;
  prvResetNextTaskUnblockTime.

Definition prvGetTCBFromHandle (xHandle : Z) : M K Z :=
  if xHandle =? NULL then rdv pxCurrentTCB else mret xHandle.

(** ** Context switches *)

(** The stack overflow check, which reads the task's stack, is not modelled. *)
Definition vTaskSwitchContext : M K unit :=
  s ← rdv uxSchedulerSuspended;
  if negb (s =? 0) then wrv (set_xYieldPending pdTRUE)
  else wrv (set_xYieldPending pdFALSE);; taskSELECT_HIGHEST_PRIORITY_TASK.

(** portYIELD() is an ecall: the trap handler switches context at once, even
    inside a critical section, which continues when the task runs again. *)
Definition portYIELD : M K unit := vTaskSwitchContext.

(** portYIELD_FROM_ISR, at the end of an interrupt handler. *)
Definition portEND_SWITCHING_ISR (xSwitchRequired : bool) : M K unit := when xSwitchRequired vTaskSwitchContext.

(** ** Blocking the running task *)

Definition prvAddCurrentTaskToDelayedList (xTicksToWait xCanBlockIndefinitely : Z) : M K unit :=
  xConstTickCount ← rdv xTickCount;
  cur ← rdv pxCurrentTCB;
  wr_tcb cur (set_ucDelayAborted pdFALSE);;
  n ← onlist (loRemove (StateItem cur));
  (if n =? 0 then p ← rd_tcb cur uxPriority; portRESET_READY_PRIORITY p else mret tt);;
  if (xTicksToWait =? portMAX_DELAY) && negb (xCanBlockIndefinitely =? pdFALSE) then
    onlist (loInsertEnd xSuspendedTaskList (StateItem cur))
  else
    let xTimeToWake := xConstTickCount +u xTicksToWait in
    onlist (loSetValue (StateItem cur) xTimeToWake);;
    if xTimeToWake <? xConstTickCount then
      l ← rdv pxOverflowDelayedTaskList;
      onlist (loInsert l (StateItem cur))
    else
      l ← rdv pxDelayedTaskList;
      onlist (loInsert l (StateItem cur));;
      wrv (fun v => if xTimeToWake <? xNextTaskUnblockTime v
                    then set_xNextTaskUnblockTime xTimeToWake v else v).

(** ** The tick *)

(** The [for(;;)] loop: wake the tasks whose time has come.  The result says
    whether one of them has at least the priority of the running task. *)
Fixpoint wake_loop (fuel : nat) (xConstTickCount : Z) (xSwitchRequired : Z) : M K Z :=
  l ← rdv pxDelayedTaskList;
  e ← listIS_EMPTY l;
  if e : bool then
    wrv (set_xNextTaskUnblockTime portMAX_DELAY);; mret xSwitchRequired
  else
    pxTCB ← onlist (loHeadOwner l);
    xItemValue ← onlist (loGetValue (StateItem pxTCB));
    if xConstTickCount <? xItemValue then
      wrv (set_xNextTaskUnblockTime xItemValue);; mret xSwitchRequired
    else
      match fuel with
      | O => fault
      | S fuel' =>
          listREMOVE (StateItem pxTCB);;
          c ← onlist (loContainer (EventItem pxTCB));
          (match c with Some _ => listREMOVE (EventItem pxTCB) | None => mret tt end);;
          prvAddTaskToReadyList pxTCB;;
          p ← rd_tcb pxTCB uxPriority;
          cur ← rdv pxCurrentTCB;
          pc ← rd_tcb cur uxPriority;
          wake_loop fuel' xConstTickCount (if pc <=? p then pdTRUE else xSwitchRequired)
      end.

Definition vApplicationTickHook : M K unit :=
  wrv (fun v => set_tickHookCalls (tickHookCalls v + 1) v).

Definition xTaskIncrementTick : M K Z :=
  s ← rdv uxSchedulerSuspended;
  if s =? pdFALSE then
    t ← rdv xTickCount;
    let xConstTickCount := t +u 1 in
    wrv (set_xTickCount xConstTickCount);;
    when (xConstTickCount =? 0) taskSWITCH_DELAYED_LISTS;;
    n ← rdv xNextTaskUnblockTime;
    xSwitchRequired ←
      (if n <=? xConstTickCount then
         l ← rdv pxDelayedTaskList;
         len ← onlist (loLength l);
         wake_loop (Z.to_nat len) xConstTickCount pdFALSE
       else mret pdFALSE);
    cur ← rdv pxCurrentTCB;
    p ← rd_tcb cur uxPriority;
    l ← ready_list p;
    len ← onlist (loLength l);
    let xSwitchRequired := if 1 <? len then pdTRUE else xSwitchRequired in
    pended ← rdv xPendedTicks;
    when (pended =? 0) vApplicationTickHook;;
    y ← rdv xYieldPending;
    mret (if negb (y =? pdFALSE) then pdTRUE else xSwitchRequired)
  else
    wrv (fun v => set_xPendedTicks (xPendedTicks v +u 1) v);;
    vApplicationTickHook;;
    mret pdFALSE.

(** The timer interrupt: the port's handler counts the tick and switches
    context when that is required. *)
Definition timer_interrupt : M K unit :=
  r ← xTaskIncrementTick;
  when (negb (r =? pdFALSE)) vTaskSwitchContext.

(** ** Suspending the scheduler *)

Definition vTaskSuspendAll : M K unit :=
  wrv (fun v => set_uxSchedulerSuspended (uxSchedulerSuspended v +u 1) v).

(** The [while] loop over xPendingReadyList; the result is the last task
    moved, or NULL. *)
Fixpoint pending_ready_loop (fuel : nat) (last : Z) : M K Z :=
  e ← listIS_EMPTY xPendingReadyList;
  if e : bool then mret last
  else
    match fuel with
    | O => fault
    | S fuel' =>
        pxTCB ← onlist (loHeadOwner xPendingReadyList);
        listREMOVE (EventItem pxTCB);;
        listREMOVE (StateItem pxTCB);;
        prvAddTaskToReadyList pxTCB;;
        p ← rd_tcb pxTCB uxPriority;
        cur ← rdv pxCurrentTCB;
        pc ← rd_tcb cur uxPriority;
        when (pc <=? p) (wrv (set_xYieldPending pdTRUE));;
        pending_ready_loop fuel' pxTCB
    end.

(** The do-while loop that processes [n] ticks missed while suspended. *)
Fixpoint pended_ticks_loop (n : nat) : M K unit :=
  match n with
  | O => mret tt
  | S n' => r ← xTaskIncrementTick;
            when (negb (r =? pdFALSE)) (wrv (set_xYieldPending pdTRUE));;
            pended_ticks_loop n'
  end.

Definition xTaskResumeAll : M K Z :=
  wrv (fun v => set_uxSchedulerSuspended (uxSchedulerSuspended v -u 1) v);;
  s ← rdv uxSchedulerSuspended;
  n ← rdv uxCurrentNumberOfTasks;
  if (s =? pdFALSE) && (0 <? n) then
    len ← onlist (loLength xPendingReadyList);
    pxTCB ← pending_ready_loop (Z.to_nat len) NULL;
    when (negb (pxTCB =? NULL)) prvResetNextTaskUnblockTime;;
    xPendedCounts ← rdv xPendedTicks;
    when (0 <? xPendedCounts)
      (pended_ticks_loop (Z.to_nat xPendedCounts);; wrv (set_xPendedTicks 0));;
    y ← rdv xYieldPending;
    if negb (y =? pdFALSE) then portYIELD;; mret pdTRUE else mret pdFALSE
  else mret pdFALSE.

(** ** The allocator, called from tasks *)

Definition vApplicationMallocFailedHook : M K unit :=
  wrv (fun v => set_mallocFailedHookCalls (mallocFailedHookCalls v + 1) v).

Definition pvPortMalloc (xWantedSize : Z) : prog K Z :=
  atomic vTaskSuspendAll;;
  pvReturn ← atomic (onheap (pvPortMalloc_suspended ucHeap xStart xWantedSize));
  atomic xTaskResumeAll;;
  (if pvReturn =? NULL then atomic vApplicationMallocFailedHook else mret tt);;
  mret pvReturn.

Definition vPortFree (pv : Z) : prog K unit :=
  g ← atomic (g ← onheap (free_guard pv); when g (onheap (free_clear pv));; mret g);
  if g : bool then
    atomic vTaskSuspendAll;;
    atomic (onheap (free_suspended xStart pv));;
    atomic xTaskResumeAll;;
    mret tt
  else mret tt.

End Tasks.
