(* ===== verification/TaskApi.v ===== *)
(** * tasks.c: the functions tasks and the other modules call

    Creation and deletion, delays, priorities, suspension and queries.  The
    conventions are those of [Tasks]. *)

From S2P Require Import Prelude Config ListC ListSpec Heap4 Kernel Tasks.

Section TaskApi.
Context {H : Type} `{!ListOps item list_id H}.
Variables ucHeap xStart : Z.
Notation K := (Kernel H).

(** ** Creation *)

(** A block of memory becomes a TCB.  What its fields held before is
    overwritten by prvInitialiseNewTask, except the two numbers kept for trace
    tools: [junk] is what the memory held there. *)
Definition prvInitialiseNewTask (junk : Z) (pcName : option (list Z)) (uxPriority : Z)
  (pxNewTCB pxStack : Z) : M K unit :=
  name ← lift_opt (match pcName with
                   | Some n => terminate_name <$> copy_name 16 n
                   | None => Some [0] end);
  let uxPriority := if configMAX_PRIORITIES <=? uxPriority then configMAX_PRIORITIES - 1 else uxPriority in
  wrv (fun v => set_tcbs (<[pxNewTCB := mkTCB uxPriority pxStack name 0 junk junk uxPriority 0 NULL 0 0
                                             pdFALSE]> (tcbs v)) v);;
  onlist (loAllocItem (StateItem pxNewTCB));;
  onlist (loAllocItem (EventItem pxNewTCB));;
  onlist (loInitialiseItem (StateItem pxNewTCB));;
  onlist (loInitialiseItem (EventItem pxNewTCB));;
  onlist (loSetOwner (StateItem pxNewTCB) pxNewTCB);;
  onlist (loSetValue (EventItem pxNewTCB) (configMAX_PRIORITIES -u uxPriority));;
  onlist (loSetOwner (EventItem pxNewTCB) pxNewTCB).

Fixpoint init_ready_lists (n : nat) (uxPriority : Z) : M K unit :=
  match n with
  | O => mret tt
  | S n' => onlist (loInitialise (pxReadyTasksLists uxPriority));; init_ready_lists n' (uxPriority + 1)
  end.

Definition prvInitialiseTaskLists : M K unit :=
  init_ready_lists (Z.to_nat configMAX_PRIORITIES) 0;;
  onlist (loInitialise xDelayedTaskList1);;
  onlist (loInitialise xDelayedTaskList2);;
  onlist (loInitialise xPendingReadyList);;
  onlist (loInitialise xTasksWaitingTermination);;
  onlist (loInitialise xSuspendedTaskList);;
  wrv (set_pxDelayedTaskList xDelayedTaskList1);;
  wrv (set_pxOverflowDelayedTaskList xDelayedTaskList2).

(** The critical section of prvAddNewTaskToReadyList. *)
Definition add_new_task (pxNewTCB : Z) : M K unit :=
  wrv (fun v => set_uxCurrentNumberOfTasks (uxCurrentNumberOfTasks v +u 1) v);;
  cur ← rdv pxCurrentTCB;
  (if cur =? NULL then
     wrv (set_pxCurrentTCB pxNewTCB);;
     n ← rdv uxCurrentNumberOfTasks;
     when (n =? 1) prvInitialiseTaskLists
   else
     r ← rdv xSchedulerRunning;
     if r =? pdFALSE then
       pc ← rd_tcb cur uxPriority;
       pn ← rd_tcb pxNewTCB uxPriority;
       when (pc <=? pn) (wrv (set_pxCurrentTCB pxNewTCB))
     else mret tt);;
  wrv (fun v => set_uxTaskNumber (uxTaskNumber v +u 1) v);;
  n ← rdv uxTaskNumber;
  wr_tcb pxNewTCB (set_uxTCBNumber n);;
  prvAddTaskToReadyList pxNewTCB.

(** After it: give way to the new task if it is more urgent. *)
Definition yield_to_new_task (pxNewTCB : Z) : M K unit :=
  r ← rdv xSchedulerRunning;
  if negb (r =? pdFALSE) then
    cur ← rdv pxCurrentTCB;
    pc ← rd_tcb cur uxPriority;
    pn ← rd_tcb pxNewTCB uxPriority;
    when (pc <? pn) portYIELD
  else mret tt.

Definition prvAddNewTaskToReadyList (pxNewTCB : Z) : prog K unit :=
  atomic (add_new_task pxNewTCB);;
  atomic (yield_to_new_task pxNewTCB).

(** The result is the return value and what is written to [*pxCreatedTask]. *)
Definition xTaskCreate (junk : Z) (pcName : option (list Z)) (usStackDepth uxPriority : Z) : prog K (Z * Z) :=
  pxStack ← pvPortMalloc ucHeap xStart (u32 (usStackDepth * sizeof_StackType_t));
  pxNewTCB ←
    (if negb (pxStack =? NULL) then
       t ← pvPortMalloc ucHeap xStart sizeof_TCB_t;
       (if negb (t =? NULL) then mret tt else vPortFree xStart pxStack);;
       mret t
     else mret NULL);
  if negb (pxNewTCB =? NULL) then
    atomic (prvInitialiseNewTask junk pcName uxPriority pxNewTCB pxStack);;
    prvAddNewTaskToReadyList pxNewTCB;;
    mret (pdPASS, pxNewTCB)
  else mret (errCOULD_NOT_ALLOCATE_REQUIRED_MEMORY, NULL).

(** ** Deletion *)

(** The memory of a TCB goes back to the allocator: the TCB and the list items
    in it are no more. *)
Definition forget_tcb (pxTCB : Z) : M K unit :=
  onlist (loFreeItem (StateItem pxTCB));;
  onlist (loFreeItem (EventItem pxTCB));;
  wrv (fun v => set_tcbs (delete pxTCB (tcbs v)) v).

Definition prvDeleteTCB (pxTCB : Z) : prog K unit :=
  pxStack ← atomic (rd_tcb pxTCB pxStack);
  vPortFree xStart pxStack;;
  atomic (forget_tcb pxTCB);;
  vPortFree xStart pxTCB.

(** The critical section of vTaskDelete, up to the call of prvDeleteTCB.  The
    result is the TCB and whether it is the running task's. *)
Definition delete_unlink (xTaskToDelete : Z) : M K (Z * bool) :=
  pxTCB ← prvGetTCBFromHandle xTaskToDelete;
  n ← onlist (loRemove (StateItem pxTCB));
  (if n =? 0 then p ← rd_tcb pxTCB uxPriority; taskRESET_READY_PRIORITY p else mret tt);;
  c ← onlist (loContainer (EventItem pxTCB));
  (match c with Some _ => listREMOVE (EventItem pxTCB) | None => mret tt end);;
  wrv (fun v => set_uxTaskNumber (uxTaskNumber v +u 1) v);;
  cur ← rdv pxCurrentTCB;
  if pxTCB =? cur then
    onlist (loInsertEnd xTasksWaitingTermination (StateItem pxTCB));;
    wrv (fun v => set_uxDeletedTasksWaitingCleanUp (uxDeletedTasksWaitingCleanUp v +u 1) v);;
    mret (pxTCB, true)
  else
    wrv (fun v => set_uxCurrentNumberOfTasks (uxCurrentNumberOfTasks v -u 1) v);;
    mret (pxTCB, false).

Definition delete_yield (pxTCB : Z) : M K unit :=
  r ← rdv xSchedulerRunning;
  cur ← rdv pxCurrentTCB;
  when (negb (r =? pdFALSE) && (pxTCB =? cur)) portYIELD.

(** The whole critical section.  The calls of vPortFree are made within it, with
    interrupts disabled, so that nothing runs between its steps. *)
Definition delete_critical (xTaskToDelete : Z) : M K Z :=
  '(pxTCB, self) ← delete_unlink xTaskToDelete;
  (if self : bool then mret tt
   else run (prvDeleteTCB pxTCB);; prvResetNextTaskUnblockTime);;
  mret pxTCB.

Definition vTaskDelete (xTaskToDelete : Z) : prog K unit :=
  pxTCB ← atomic (delete_critical xTaskToDelete);
  atomic (delete_yield pxTCB).

(** The body of the loop of prvCheckTasksWaitingTermination: its critical
    section, then the release of the memory. *)
Definition take_terminated : M K Z :=
  pxTCB ← onlist (loHeadOwner xTasksWaitingTermination);
  listREMOVE (StateItem pxTCB);;
  wrv (fun v => set_uxCurrentNumberOfTasks (uxCurrentNumberOfTasks v -u 1) v);;
  wrv (fun v => set_uxDeletedTasksWaitingCleanUp (uxDeletedTasksWaitingCleanUp v -u 1) v);;
  mret pxTCB.

Definition prvCheckTasksWaitingTermination_iter (_ : unit) : prog K (unit + unit) :=
  n ← atomic (rdv uxDeletedTasksWaitingCleanUp);
  if 0 <? n then
    pxTCB ← atomic take_terminated;
    prvDeleteTCB pxTCB;;
    mret (inl tt)
  else mret (inr tt).

(** One round of prvIdleTask: the idle task does not yield
    (configIDLE_SHOULD_YIELD is 0) and there is no idle hook. *)
Definition prvIdleTask_round (n : nat) : prog K unit :=
  iterate n prvCheckTasksWaitingTermination_iter tt;; mret tt.

(** ** Delays *)

Definition vTaskDelay (xTicksToDelay : Z) : prog K unit :=
  xAlreadyYielded ←
    (if 0 <? xTicksToDelay then
       atomic vTaskSuspendAll;;
       atomic (prvAddCurrentTaskToDelayedList xTicksToDelay pdFALSE);;
       atomic xTaskResumeAll
     else mret pdFALSE);
  if xAlreadyYielded =? pdFALSE then atomic portYIELD else mret tt.

(** Whether xTaskDelayUntil has to wait, from the tick count, the previous wake
    time and the next one. *)
Definition should_delay (xConstTickCount xPreviousWakeTime xTimeToWake : Z) : bool :=
  if xConstTickCount <? xPreviousWakeTime
  then (xTimeToWake <? xPreviousWakeTime) && (xConstTickCount <? xTimeToWake)
  else (xTimeToWake <? xPreviousWakeTime) || (xConstTickCount <? xTimeToWake).

(** The part of xTaskDelayUntil that runs with the scheduler suspended. *)
Definition delay_until_suspended (xPreviousWakeTime xTimeIncrement : Z) : M K (Z * Z) :=
  xConstTickCount ← rdv xTickCount;
  let xTimeToWake := xPreviousWakeTime +u xTimeIncrement in
  let xShouldDelay := should_delay xConstTickCount xPreviousWakeTime xTimeToWake in
  (if xShouldDelay then prvAddCurrentTaskToDelayedList (xTimeToWake -u xConstTickCount) pdFALSE
   else mret tt);;
  mret ((if xShouldDelay then pdTRUE else pdFALSE), xTimeToWake).

(** The result is the return value and the new [*pxPreviousWakeTime]. *)
Definition xTaskDelayUntil (xPreviousWakeTime xTimeIncrement : Z) : prog K (Z * Z) :=
  atomic vTaskSuspendAll;;
  r ← atomic (delay_until_suspended xPreviousWakeTime xTimeIncrement);
  xAlreadyYielded ← atomic xTaskResumeAll;
  (if xAlreadyYielded =? pdFALSE then atomic portYIELD else mret tt);;
  mret r.

(** ** State and priorities *)

Definition eTaskGetState (xTask : Z) : M K eTaskState :=
  cur ← rdv pxCurrentTCB;
  if xTask =? cur then mret eRunning
  else
    pxStateList ← onlist (loContainer (StateItem xTask));
    pxDelayedList ← rdv pxDelayedTaskList;
    pxOverflowedDelayedList ← rdv pxOverflowDelayedTaskList;
    if decide (pxStateList = Some pxDelayedList \/ pxStateList = Some pxOverflowedDelayedList) then mret eBlocked
    else if decide (pxStateList = Some xSuspendedTaskList) then
      c ← onlist (loContainer (EventItem xTask));
      match c with
      | None => n ← rd_tcb xTask ucNotifyState;
                mret (if n =? taskWAITING_NOTIFICATION then eBlocked else eSuspended)
      | Some _ => mret eBlocked
      end
    else if decide (pxStateList = Some xTasksWaitingTermination \/ pxStateList = None) then mret eDeleted
    else mret eReady.

Definition uxTaskPriorityGet (xTask : Z) : M K Z :=
  pxTCB ← prvGetTCBFromHandle xTask;
  rd_tcb pxTCB uxPriority.

Definition uxTaskPriorityGetFromISR (xTask : Z) : M K Z :=
  pxTCB ← prvGetTCBFromHandle xTask;
  rd_tcb pxTCB uxPriority.

(** Move a task that is in the ready list of [uxPriorityUsedOnEntry] to the one
    of its present priority; [uxPriorityToReset] is the bit that is cleared
    when the old list is left empty. *)
Definition move_ready_task (pxTCB uxPriorityUsedOnEntry uxPriorityToReset : Z) : M K unit :=
  l ← ready_list uxPriorityUsedOnEntry;
  b ← listIS_CONTAINED_WITHIN l (StateItem pxTCB);
  if b : bool then
    n ← onlist (loRemove (StateItem pxTCB));
    when (n =? 0) (portRESET_READY_PRIORITY uxPriorityToReset);;
    prvAddTaskToReadyList pxTCB
  else mret tt.

(** Change the value of the event item, unless an event group is using it. *)
Definition set_event_value (pxTCB v : Z) : M K unit :=
  e ← onlist (loGetValue (EventItem pxTCB));
  when (Z.land e taskEVENT_LIST_ITEM_VALUE_IN_USE =? 0) (onlist (loSetValue (EventItem pxTCB) v)).

Definition vTaskPrioritySet (xTask uxNewPriority : Z) : M K unit :=
  let uxNewPriority := if configMAX_PRIORITIES <=? uxNewPriority then configMAX_PRIORITIES - 1
                       else uxNewPriority in
  pxTCB ← prvGetTCBFromHandle xTask;
  uxCurrentBasePriority ← rd_tcb pxTCB uxBasePriority;
  if negb (uxCurrentBasePriority =? uxNewPriority) then
    cur ← rdv pxCurrentTCB;
    xYieldRequired ←
      (if uxCurrentBasePriority <? uxNewPriority then
         if negb (pxTCB =? cur) then pc ← rd_tcb cur uxPriority; mret (pc <=? uxNewPriority)
         else mret false
       else mret (pxTCB =? cur));
    uxPriorityUsedOnEntry ← rd_tcb pxTCB uxPriority;
    wr_tcb pxTCB (fun x => if uxBasePriority x =? uxPriority x then set_uxPriority uxNewPriority x else x);;
    wr_tcb pxTCB (set_uxBasePriority uxNewPriority);;
    set_event_value pxTCB (configMAX_PRIORITIES -u uxNewPriority);;
    move_ready_task pxTCB uxPriorityUsedOnEntry uxPriorityUsedOnEntry;;
    when xYieldRequired portYIELD
  else mret tt.

(** ** Suspension *)

(** The first critical section of vTaskSuspend. *)
Definition suspend_unlink (xTaskToSuspend : Z) : M K Z :=
  pxTCB ← prvGetTCBFromHandle xTaskToSuspend;
  n ← onlist (loRemove (StateItem pxTCB));
  (if n =? 0 then p ← rd_tcb pxTCB uxPriority; taskRESET_READY_PRIORITY p else mret tt);;
  c ← onlist (loContainer (EventItem pxTCB));
  (match c with Some _ => listREMOVE (EventItem pxTCB) | None => mret tt end);;
  onlist (loInsertEnd xSuspendedTaskList (StateItem pxTCB));;
  wr_tcb pxTCB (fun x => if ucNotifyState x =? taskWAITING_NOTIFICATION
                         then set_ucNotifyState taskNOT_WAITING_NOTIFICATION x else x);;
  mret pxTCB.

Definition suspend_reset : M K unit :=
  r ← rdv xSchedulerRunning;
  when (negb (r =? pdFALSE)) prvResetNextTaskUnblockTime.

Definition suspend_switch (pxTCB : Z) : M K unit :=
  cur ← rdv pxCurrentTCB;
  if pxTCB =? cur then
    r ← rdv xSchedulerRunning;
    if negb (r =? pdFALSE) then portYIELD
    else
      len ← onlist (loLength xSuspendedTaskList);
      n ← rdv uxCurrentNumberOfTasks;
      if len =? n then wrv (set_pxCurrentTCB NULL) else vTaskSwitchContext
  else mret tt.

Definition vTaskSuspend (xTaskToSuspend : Z) : prog K unit :=
  pxTCB ← atomic (suspend_unlink xTaskToSuspend);
  atomic suspend_reset;;
  atomic (suspend_switch pxTCB).

Definition prvTaskIsTaskSuspended (xTask : Z) : M K bool :=
  b ← listIS_CONTAINED_WITHIN xSuspendedTaskList (StateItem xTask);
  if b : bool then
    b ← listIS_CONTAINED_WITHIN xPendingReadyList (EventItem xTask);
    if b : bool then mret false
    else c ← onlist (loContainer (EventItem xTask)); mret (bool_decide (c = None))
  else mret false.

Definition vTaskResume (xTaskToResume : Z) : M K unit :=
  cur ← rdv pxCurrentTCB;
  if negb (xTaskToResume =? cur) && negb (xTaskToResume =? NULL) then
    b ← prvTaskIsTaskSuspended xTaskToResume;
    if b : bool then
      listREMOVE (StateItem xTaskToResume);;
      prvAddTaskToReadyList xTaskToResume;;
      p ← rd_tcb xTaskToResume uxPriority;
      pc ← rd_tcb cur uxPriority;
      when (pc <=? p) portYIELD
    else mret tt
  else mret tt.

Definition xTaskResumeFromISR (xTaskToResume : Z) : M K Z :=
  b ← prvTaskIsTaskSuspended xTaskToResume;
  if b : bool then
    s ← rdv uxSchedulerSuspended;
    if s =? pdFALSE then
      p ← rd_tcb xTaskToResume uxPriority;
      cur ← rdv pxCurrentTCB;
      pc ← rd_tcb cur uxPriority;
      when (pc <=? p) (wrv (set_xYieldPending pdTRUE));;
      listREMOVE (StateItem xTaskToResume);;
      prvAddTaskToReadyList xTaskToResume;;
      mret (if pc <=? p then pdTRUE else pdFALSE)
    else
      onlist (loInsertEnd xPendingReadyList (EventItem xTaskToResume));;
      mret pdFALSE
  else mret pdFALSE.

(** The part of xTaskAbortDelay that runs with the scheduler suspended. *)
Definition abort_delay_suspended (xTask : Z) : M K Z :=
  st ← eTaskGetState xTask;
  if decide (st = eBlocked) then
    listREMOVE (StateItem xTask);;
    c ← onlist (loContainer (EventItem xTask));
    (match c with
     | Some _ => listREMOVE (EventItem xTask);; wr_tcb xTask (set_ucDelayAborted pdTRUE)
     | None => mret tt
     end);;
    prvAddTaskToReadyList xTask;;
    p ← rd_tcb xTask uxPriority;
    cur ← rdv pxCurrentTCB;
    pc ← rd_tcb cur uxPriority;
    when (pc <? p) (wrv (set_xYieldPending pdTRUE));;
    mret pdPASS
  else mret pdFAIL.

Definition xTaskAbortDelay (xTask : Z) : prog K Z :=
  atomic vTaskSuspendAll;;
  xReturn ← atomic (abort_delay_suspended xTask);
  atomic xTaskResumeAll;;
  mret xReturn.

Definition xTaskCatchUpTicks (xTicksToCatchUp : Z) : prog K Z :=
  atomic vTaskSuspendAll;;
  atomic (wrv (fun v => set_xPendedTicks (xPendedTicks v +u xTicksToCatchUp) v));;
  atomic xTaskResumeAll.

End TaskApi.
