(* ===== verification/TaskEvents.v ===== *)
(** * tasks.c: event lists, time-outs, mutex priorities, critical sections,
      notifications

    The functions queue.c, event_groups.c and timers.c use to block a task on
    an event and to release it, the time-out arithmetic, priority
    inheritance, the nesting of critical sections, and direct-to-task
    notifications.  The conventions are those of [Tasks]. *)

From S2P Require Import Prelude Config ListC ListSpec Heap4 Kernel Tasks TaskApi.

Inductive eNotifyAction := eNoAction | eSetBits | eIncrement | eSetValueWithOverwrite
  | eSetValueWithoutOverwrite.

Section TaskEvents.
Context {H : Type} `{!ListOps item list_id H}.
Variables ucHeap xStart : Z.
Notation K := (Kernel H).

(** ** Event lists *)

Definition vTaskPlaceOnEventList (pxEventList : list_id) (xTicksToWait : Z) : M K unit :=
  cur ← rdv pxCurrentTCB;
  onlist (loInsert pxEventList (EventItem cur));;
  prvAddCurrentTaskToDelayedList xTicksToWait pdTRUE.

Definition vTaskPlaceOnUnorderedEventList (pxEventList : list_id) (xItemValue xTicksToWait : Z) : M K unit :=
  cur ← rdv pxCurrentTCB;
  onlist (loSetValue (EventItem cur) (Z.lor xItemValue taskEVENT_LIST_ITEM_VALUE_IN_USE));;
  onlist (loInsertEnd pxEventList (EventItem cur));;
  prvAddCurrentTaskToDelayedList xTicksToWait pdTRUE.

Definition vTaskPlaceOnEventListRestricted (pxEventList : list_id) (xTicksToWait xWaitIndefinitely : Z)
  : M K unit :=
  cur ← rdv pxCurrentTCB;
  onlist (loInsertEnd pxEventList (EventItem cur));;
  let xTicksToWait := if negb (xWaitIndefinitely =? pdFALSE) then portMAX_DELAY else xTicksToWait in
  prvAddCurrentTaskToDelayedList xTicksToWait xWaitIndefinitely.

(** Make a task ready whose event item has just been unlinked, or leave it to
    xTaskResumeAll when the scheduler is suspended. *)
Definition ready_or_pend (pxTCB : Z) : M K unit :=
  s ← rdv uxSchedulerSuspended;
  if s =? pdFALSE then
    listREMOVE (StateItem pxTCB);;
    prvAddTaskToReadyList pxTCB
  else onlist (loInsertEnd xPendingReadyList (EventItem pxTCB)).

(** Is the task more urgent than the running one?  Then a switch is due. *)
Definition note_if_higher (pxTCB : Z) : M K bool :=
  p ← rd_tcb pxTCB uxPriority;
  cur ← rdv pxCurrentTCB;
  pc ← rd_tcb cur uxPriority;
  when (pc <? p) (wrv (set_xYieldPending pdTRUE));;
  mret (pc <? p).

Definition xTaskRemoveFromEventList (pxEventList : list_id) : M K Z :=
  pxUnblockedTCB ← onlist (loHeadOwner pxEventList);
  listREMOVE (EventItem pxUnblockedTCB);;
  ready_or_pend pxUnblockedTCB;;
  b ← note_if_higher pxUnblockedTCB;
  mret (if b : bool then pdTRUE else pdFALSE).

(** [pxEventListItem] is the event item of some task. *)
Definition vTaskRemoveFromUnorderedEventList (pxEventListItem : item) (xItemValue : Z) : M K unit :=
  onlist (loSetValue pxEventListItem (Z.lor xItemValue taskEVENT_LIST_ITEM_VALUE_IN_USE));;
  pxUnblockedTCB ← onlist (loGetOwner pxEventListItem);
  listREMOVE pxEventListItem;;
  listREMOVE (StateItem pxUnblockedTCB);;
  prvAddTaskToReadyList pxUnblockedTCB;;
  note_if_higher pxUnblockedTCB;;
  mret tt.

Definition uxTaskResetEventItemValue : M K Z :=
  cur ← rdv pxCurrentTCB;
  uxReturn ← onlist (loGetValue (EventItem cur));
  p ← rd_tcb cur uxPriority;
  onlist (loSetValue (EventItem cur) (configMAX_PRIORITIES -u p));;
  mret uxReturn.

Definition vTaskMissedYield : M K unit := wrv (set_xYieldPending pdTRUE).

(** ** Time-outs *)

Definition vTaskInternalSetTimeOutState : M K TimeOut_t :=
  o ← rdv xNumOfOverflows;
  t ← rdv xTickCount;
  mret (mkTimeOut o t).

Definition vTaskSetTimeOutState : M K TimeOut_t :=
  o ← rdv xNumOfOverflows;
  t ← rdv xTickCount;
  mret (mkTimeOut o t).

(** The result is the return value with the new [*pxTimeOut] and
    [*pxTicksToWait]. *)
Definition xTaskCheckForTimeOut (pxTimeOut : TimeOut_t) (xTicksToWait : Z) : M K (Z * TimeOut_t * Z) :=
  xConstTickCount ← rdv xTickCount;
  let xElapsedTime := xConstTickCount -u xTimeOnEntering pxTimeOut in
  cur ← rdv pxCurrentTCB;
  aborted ← rd_tcb cur ucDelayAborted;
  if negb (aborted =? pdFALSE) then
    wr_tcb cur (set_ucDelayAborted pdFALSE);;
    mret (pdTRUE, pxTimeOut, xTicksToWait)
  else if xTicksToWait =? portMAX_DELAY then mret (pdFALSE, pxTimeOut, xTicksToWait)
  else
    o ← rdv xNumOfOverflows;
    if negb (o =? xOverflowCount pxTimeOut) && (xTimeOnEntering pxTimeOut <=? xConstTickCount) then
      mret (pdTRUE, pxTimeOut, 0)
    else if xElapsedTime <? xTicksToWait then
      t' ← vTaskInternalSetTimeOutState;
      mret (pdFALSE, t', xTicksToWait -u xElapsedTime)
    else mret (pdTRUE, pxTimeOut, 0).

(** ** Priority inheritance *)

Definition pvTaskIncrementMutexHeldCount : M K Z :=
  cur ← rdv pxCurrentTCB;
  (if negb (cur =? NULL) then wr_tcb cur (fun x => set_uxMutexesHeld (uxMutexesHeld x +u 1) x) else mret tt);;
  mret cur.

Definition xTaskPriorityInherit (pxMutexHolder : Z) : M K Z :=
  if negb (pxMutexHolder =? NULL) then
    ph ← rd_tcb pxMutexHolder uxPriority;
    cur ← rdv pxCurrentTCB;
    pc ← rd_tcb cur uxPriority;
    if ph <? pc then
      set_event_value pxMutexHolder (configMAX_PRIORITIES -u pc);;
      l ← ready_list ph;
      b ← listIS_CONTAINED_WITHIN l (StateItem pxMutexHolder);
      (if b : bool then
         n ← onlist (loRemove (StateItem pxMutexHolder));
         when (n =? 0) (portRESET_READY_PRIORITY ph);;
         wr_tcb pxMutexHolder (set_uxPriority pc);;
         prvAddTaskToReadyList pxMutexHolder
       else wr_tcb pxMutexHolder (set_uxPriority pc));;
      mret pdTRUE
    else
      pb ← rd_tcb pxMutexHolder uxBasePriority;
      mret (if pb <? pc then pdTRUE else pdFALSE)
  else mret pdFALSE.

Definition xTaskPriorityDisinherit (pxMutexHolder : Z) : M K Z :=
  if negb (pxMutexHolder =? NULL) then
    wr_tcb pxMutexHolder (fun x => set_uxMutexesHeld (uxMutexesHeld x -u 1) x);;
    p ← rd_tcb pxMutexHolder uxPriority;
    pb ← rd_tcb pxMutexHolder uxBasePriority;
    held ← rd_tcb pxMutexHolder uxMutexesHeld;
    if negb (p =? pb) && (held =? 0) then
      n ← onlist (loRemove (StateItem pxMutexHolder));
      when (n =? 0) (portRESET_READY_PRIORITY p);;
      wr_tcb pxMutexHolder (set_uxPriority pb);;
      onlist (loSetValue (EventItem pxMutexHolder) (configMAX_PRIORITIES -u pb));;
      prvAddTaskToReadyList pxMutexHolder;;
      mret pdTRUE
    else mret pdFALSE
  else mret pdFALSE.

Definition vTaskPriorityDisinheritAfterTimeout (pxMutexHolder uxHighestPriorityWaitingTask : Z) : M K unit :=
  if negb (pxMutexHolder =? NULL) then
    pb ← rd_tcb pxMutexHolder uxBasePriority;
    let uxPriorityToUse := if pb <? uxHighestPriorityWaitingTask then uxHighestPriorityWaitingTask else pb in
    uxPriorityUsedOnEntry ← rd_tcb pxMutexHolder uxPriority;
    held ← rd_tcb pxMutexHolder uxMutexesHeld;
    if negb (uxPriorityUsedOnEntry =? uxPriorityToUse) && (held =? 1) then
      wr_tcb pxMutexHolder (set_uxPriority uxPriorityToUse);;
      set_event_value pxMutexHolder (configMAX_PRIORITIES -u uxPriorityToUse);;
      move_ready_task pxMutexHolder uxPriorityUsedOnEntry uxPriorityToUse
    else mret tt
  else mret tt.

(** ** Critical sections *)

Definition vTaskEnterCritical : M K unit :=
  wrv (set_mstatusMIE 0);;
  r ← rdv xSchedulerRunning;
  if negb (r =? pdFALSE) then
    cur ← rdv pxCurrentTCB;
    wr_tcb cur (fun x => set_uxCriticalNesting (uxCriticalNesting x +u 1) x)
  else mret tt.

Definition vTaskExitCritical : M K unit :=
  r ← rdv xSchedulerRunning;
  if negb (r =? pdFALSE) then
    cur ← rdv pxCurrentTCB;
    n ← rd_tcb cur uxCriticalNesting;
    if 0 <? n then
      wr_tcb cur (set_uxCriticalNesting (n -u 1));;
      when (n -u 1 =? 0) (wrv (set_mstatusMIE 1))
    else mret tt
  else mret tt.

(** ** Notifications

    Each task has one notification value and state
    (configTASK_NOTIFICATION_ARRAY_ENTRIES is 1), so the index is 0. *)

(** First critical section of ulTaskGenericNotifyTake: block if there is no
    notification. *)
Definition notify_take_wait (xTicksToWait : Z) : M K unit :=
  cur ← rdv pxCurrentTCB;
  v ← rd_tcb cur ulNotifiedValue;
  if v =? 0 then
    wr_tcb cur (set_ucNotifyState taskWAITING_NOTIFICATION);;
    (if 0 <? xTicksToWait then prvAddCurrentTaskToDelayedList xTicksToWait pdTRUE;; portYIELD else mret tt)
  else mret tt.

(** Second critical section: take what is there. *)
Definition notify_take_finish (xClearCountOnExit : Z) : M K Z :=
  cur ← rdv pxCurrentTCB;
  ulReturn ← rd_tcb cur ulNotifiedValue;
  (if negb (ulReturn =? 0) then
     wr_tcb cur (set_ulNotifiedValue (if negb (xClearCountOnExit =? pdFALSE) then 0 else ulReturn -u 1))
   else mret tt);;
  wr_tcb cur (set_ucNotifyState taskNOT_WAITING_NOTIFICATION);;
  mret ulReturn.

Definition ulTaskGenericNotifyTake (xClearCountOnExit xTicksToWait : Z) : prog K Z :=
  atomic (notify_take_wait xTicksToWait);;
  atomic (notify_take_finish xClearCountOnExit).

Definition notify_wait_wait (ulBitsToClearOnEntry xTicksToWait : Z) : M K unit :=
  cur ← rdv pxCurrentTCB;
  st ← rd_tcb cur ucNotifyState;
  if negb (st =? taskNOTIFICATION_RECEIVED) then
    wr_tcb cur (fun x => set_ulNotifiedValue (Z.land (ulNotifiedValue x) (Z.lnot ulBitsToClearOnEntry)) x);;
    wr_tcb cur (set_ucNotifyState taskWAITING_NOTIFICATION);;
    (if 0 <? xTicksToWait then prvAddCurrentTaskToDelayedList xTicksToWait pdTRUE;; portYIELD else mret tt)
  else mret tt.

(** The result is the return value and what is written to
    [*pulNotificationValue]. *)
Definition notify_wait_finish (ulBitsToClearOnExit : Z) : M K (Z * Z) :=
  cur ← rdv pxCurrentTCB;
  val ← rd_tcb cur ulNotifiedValue;
  st ← rd_tcb cur ucNotifyState;
  (if negb (st =? taskNOTIFICATION_RECEIVED) then mret tt
   else wr_tcb cur (fun x => set_ulNotifiedValue (Z.land (ulNotifiedValue x) (Z.lnot ulBitsToClearOnExit)) x));;
  wr_tcb cur (set_ucNotifyState taskNOT_WAITING_NOTIFICATION);;
  mret ((if negb (st =? taskNOTIFICATION_RECEIVED) then pdFALSE else pdTRUE), val).

Definition xTaskGenericNotifyWait (ulBitsToClearOnEntry ulBitsToClearOnExit xTicksToWait : Z) : prog K (Z * Z) :=
  atomic (notify_wait_wait ulBitsToClearOnEntry xTicksToWait);;
  atomic (notify_wait_finish ulBitsToClearOnExit).

(** The switch on [eAction]: the new value, and whether the call fails. *)
Definition notify_action (eAction : eNotifyAction) (ulValue ucOriginalNotifyState old : Z) : Z * Z :=
  match eAction with
  | eSetBits => (Z.lor old ulValue, pdPASS)
  | eIncrement => (old +u 1, pdPASS)
  | eSetValueWithOverwrite => (ulValue, pdPASS)
  | eSetValueWithoutOverwrite =>
      if negb (ucOriginalNotifyState =? taskNOTIFICATION_RECEIVED) then (ulValue, pdPASS) else (old, pdFAIL)
  | eNoAction => (old, pdPASS)
  end.

(** The result is the return value and what is written to
    [*pulPreviousNotificationValue]. *)
Definition xTaskGenericNotify (xTaskToNotify ulValue : Z) (eAction : eNotifyAction) : M K (Z * Z) :=
  old ← rd_tcb xTaskToNotify ulNotifiedValue;
  ucOriginalNotifyState ← rd_tcb xTaskToNotify ucNotifyState;
  wr_tcb xTaskToNotify (set_ucNotifyState taskNOTIFICATION_RECEIVED);;
  let '(new, xReturn) := notify_action eAction ulValue ucOriginalNotifyState old in
  wr_tcb xTaskToNotify (set_ulNotifiedValue new);;
  (if ucOriginalNotifyState =? taskWAITING_NOTIFICATION then
     listREMOVE (StateItem xTaskToNotify);;
     prvAddTaskToReadyList xTaskToNotify;;
     p ← rd_tcb xTaskToNotify uxPriority;
     cur ← rdv pxCurrentTCB;
     pc ← rd_tcb cur uxPriority;
     when (pc <? p) portYIELD
   else mret tt);;
  mret (xReturn, old).

(** The result adds what is written to [*pxHigherPriorityTaskWoken], if
    anything. *)
Definition xTaskGenericNotifyFromISR (xTaskToNotify ulValue : Z) (eAction : eNotifyAction)
  : M K (Z * Z * bool) :=
  old ← rd_tcb xTaskToNotify ulNotifiedValue;
  ucOriginalNotifyState ← rd_tcb xTaskToNotify ucNotifyState;
  wr_tcb xTaskToNotify (set_ucNotifyState taskNOTIFICATION_RECEIVED);;
  let '(new, xReturn) := notify_action eAction ulValue ucOriginalNotifyState old in
  wr_tcb xTaskToNotify (set_ulNotifiedValue new);;
  woken ← (if ucOriginalNotifyState =? taskWAITING_NOTIFICATION then
             ready_or_pend xTaskToNotify;; note_if_higher xTaskToNotify
           else mret false);
  mret (xReturn, old, woken).

Definition vTaskGenericNotifyGiveFromISR (xTaskToNotify : Z) : M K bool :=
  ucOriginalNotifyState ← rd_tcb xTaskToNotify ucNotifyState;
  wr_tcb xTaskToNotify (set_ucNotifyState taskNOTIFICATION_RECEIVED);;
  wr_tcb xTaskToNotify (fun x => set_ulNotifiedValue (ulNotifiedValue x +u 1) x);;
  if ucOriginalNotifyState =? taskWAITING_NOTIFICATION then
    ready_or_pend xTaskToNotify;; note_if_higher xTaskToNotify
  else mret false.

Definition xTaskGenericNotifyStateClear (xTask : Z) : M K Z :=
  pxTCB ← prvGetTCBFromHandle xTask;
  st ← rd_tcb pxTCB ucNotifyState;
  if st =? taskNOTIFICATION_RECEIVED then
    wr_tcb pxTCB (set_ucNotifyState taskNOT_WAITING_NOTIFICATION);; mret pdPASS
  else mret pdFAIL.

Definition ulTaskGenericNotifyValueClear (xTask ulBitsToClear : Z) : M K Z :=
  pxTCB ← prvGetTCBFromHandle xTask;
  ulReturn ← rd_tcb pxTCB ulNotifiedValue;
  wr_tcb pxTCB (fun x => set_ulNotifiedValue (Z.land (ulNotifiedValue x) (Z.lnot ulBitsToClear)) x);;
  mret ulReturn.

(** ** Queries *)

Definition xTaskGetTickCount : M K Z := rdv xTickCount.
Definition xTaskGetTickCountFromISR : M K Z := rdv xTickCount.
Definition uxTaskGetNumberOfTasks : M K Z := rdv uxCurrentNumberOfTasks.
Definition xTaskGetCurrentTaskHandle : M K Z := rdv pxCurrentTCB.

Definition pcTaskGetName (xTaskToQuery : Z) : M K (list Z) :=
  pxTCB ← prvGetTCBFromHandle xTaskToQuery;
  rd_tcb pxTCB pcTaskName.

Definition xTaskGetSchedulerState : M K Z :=
  r ← rdv xSchedulerRunning;
  if r =? pdFALSE then mret taskSCHEDULER_NOT_STARTED
  else
    s ← rdv uxSchedulerSuspended;
    mret (if s =? pdFALSE then taskSCHEDULER_RUNNING else taskSCHEDULER_SUSPENDED).

Definition vTaskSetApplicationTaskTag (xTask pxHookFunction : Z) : M K unit :=
  xTCB ← prvGetTCBFromHandle xTask;
  wr_tcb xTCB (set_pxTaskTag pxHookFunction).
Definition xTaskGetApplicationTaskTag (xTask : Z) : M K Z :=
  pxTCB ← prvGetTCBFromHandle xTask;
  rd_tcb pxTCB pxTaskTag.

Definition uxTaskGetTaskNumber (xTask : Z) : M K Z :=
  if negb (xTask =? NULL) then rd_tcb xTask uxTaskNumberTCB else mret 0.
Definition vTaskSetTaskNumber (xTask uxHandle : Z) : M K unit :=
  if negb (xTask =? NULL) then wr_tcb xTask (set_uxTaskNumberTCB uxHandle) else mret tt.

(** The inner loop of prvSearchForNameWithinSingleList: do the two names agree
    up to and including the terminator?  [None]: a byte outside one of the
    strings is read. *)
Fixpoint name_matches (room : nat) (name query : list Z) : option bool :=
  match room with
  | O => Some false
  | S room' =>
      match name, query with
      | c :: name', q :: query' =>
          if negb (c =? q) then Some false
          else if c =? 0 then Some true
          else name_matches room' name' query'
      | _, _ => None
      end
  end.

Fixpoint search_name_loop (fuel : nat) (pxList : list_id) (pxFirstTCB : Z) (query : list Z) : M K Z :=
  pxNextTCB ← onlist (loNextOwner pxList);
  name ← rd_tcb pxNextTCB pcTaskName;
  b ← lift_opt (name_matches 16 name query);
  if b : bool then mret pxNextTCB
  else if negb (pxNextTCB =? pxFirstTCB) then
    match fuel with
    | O => fault
    | S fuel' => search_name_loop fuel' pxList pxFirstTCB query
    end
  else mret NULL.

Definition prvSearchForNameWithinSingleList (pxList : list_id) (query : list Z) : M K Z :=
  n ← onlist (loLength pxList);
  if 0 <? n then
    pxFirstTCB ← onlist (loNextOwner pxList);
    search_name_loop (Z.to_nat n) pxList pxFirstTCB query
  else mret NULL.

(** The do-while loop of xTaskGetHandle over the ready lists, from the highest
    priority down. *)
Fixpoint search_ready_lists (uxQueue : nat) (query : list Z) : M K Z :=
  match uxQueue with
  | O => mret NULL
  | S n => t ← prvSearchForNameWithinSingleList (pxReadyTasksLists (Z.of_nat n)) query;
           if negb (t =? NULL) then mret t else search_ready_lists n query
  end.

Definition search_next (t : Z) (pxList : list_id) (query : list Z) : M K Z :=
  if t =? NULL then prvSearchForNameWithinSingleList pxList query else mret t.

Definition get_handle_suspended (query : list Z) : M K Z :=
  t ← search_ready_lists (Z.to_nat configMAX_PRIORITIES) query;
  l ← rdv pxDelayedTaskList;
  t ← search_next t l query;
  l ← rdv pxOverflowDelayedTaskList;
  t ← search_next t l query;
  t ← search_next t xSuspendedTaskList query;
  search_next t xTasksWaitingTermination query.

Definition xTaskGetHandle (query : list Z) : prog K Z :=
  atomic vTaskSuspendAll;;
  t ← atomic (get_handle_suspended query);
  atomic xTaskResumeAll;;
  mret t.

End TaskEvents.
