(* ===== verification/TaskInfo.v ===== *)
(** * tasks.c: the trace facility, application hooks and the end

    vTaskGetInfo describes one task, uxTaskGetSystemState all of them, in an
    array of the caller's.  A task can carry a function of the application's
    ([task_hook]).  vTaskEndScheduler never returns.  The conventions are those
    of [Tasks].  What tasks have left in the memory of their stacks is not part
    of the kernel's state: [stack_memory a] is the bytes from address [a] to
    the end of memory. *)

From S2P Require Import Prelude Config ListC ListSpec Heap4 Kernel Tasks TaskApi.

Section TaskInfo.
Context {H : Type} `{!ListOps item list_id H}.
Variable stack_memory : Z -> list Z.
Notation K := (Kernel H).

(** The name is a pointer into the control block: its address stands for it. *)
Record TaskStatus_t := mkTaskStatus {
  xHandle : Z;
  pcTaskName_of : Z;
  xTaskNumber : Z;
  eCurrentState : eTaskState;
  uxCurrentPriority : Z;
  ts_uxBasePriority : Z;
  ulRunTimeCounter : Z;
  pxStackBase : Z;
  usStackHighWaterMark : Z
}.

Definition tskSTACK_FILL_BYTE : Z := 165.

(** The scan for the first byte that has been written; [None] if it leaves the memory. *)
Fixpoint count_fill (bs : list Z) (ulCount : Z) : option Z :=
  match bs with
  | [] => None
  | b :: bs' => if b =? tskSTACK_FILL_BYTE then count_fill bs' (ulCount +u 1) else Some ulCount
  end.

(** configSTACK_DEPTH_TYPE is uint16_t. *)
Definition prvTaskCheckFreeStackSpace (pucStackByte : Z) : M K Z :=
  ulCount ← lift_opt (count_fill (stack_memory pucStackByte) 0);
  mret ((ulCount / sizeof_StackType_t) mod 65536).

(** The state, as the caller gives it, unless the task is running or waits for
    an event without a time-out. *)
Definition info_state (pxTCB : Z) (eState : eTaskState) : M K eTaskState :=
  if decide (eState <> eInvalid) then
    cur ← rdv pxCurrentTCB;
    if pxTCB =? cur then mret eRunning
    else if decide (eState = eSuspended) then
      vTaskSuspendAll;;
      c ← onlist (loContainer (EventItem pxTCB));
      xTaskResumeAll;;
      mret (match c with Some _ => eBlocked | None => eState end)
    else mret eState
  else eTaskGetState pxTCB.

Definition vTaskGetInfo (xTask xGetFreeStackSpace : Z) (eState : eTaskState) : M K TaskStatus_t :=
  pxTCB ← prvGetTCBFromHandle xTask;
  x ← rd_tcb pxTCB id;
  st ← info_state pxTCB eState;
  mark ← (if negb (xGetFreeStackSpace =? pdFALSE) then prvTaskCheckFreeStackSpace (pxStack x) else mret 0);
  mret (mkTaskStatus pxTCB pxTCB (uxTCBNumber x) st (uxPriority x) (uxBasePriority x) 0 (pxStack x) mark).

(** The array filled so far is [out]; a write behind its [uxArraySize] entries
    is a fault. *)
Definition put_status (uxArraySize : Z) (out : list TaskStatus_t) (s : TaskStatus_t) : M K (list TaskStatus_t) :=
  if Z.of_nat (length out) <? uxArraySize then mret (out ++ [s]) else fault.

(** The do-while loop over a list, until the first task comes round again. *)
Fixpoint list_tasks_loop (fuel : nat) (uxArraySize : Z) (out : list TaskStatus_t) (pxList : list_id) (eState : eTaskState)
  (pxFirstTCB : Z) : M K (list TaskStatus_t) :=
  pxNextTCB ← onlist (loNextOwner pxList);
  s ← vTaskGetInfo pxNextTCB pdTRUE eState;
  out ← put_status uxArraySize out s;
  if negb (pxNextTCB =? pxFirstTCB) then
    match fuel with
    | O => fault
    | S fuel' => list_tasks_loop fuel' uxArraySize out pxList eState pxFirstTCB
    end
  else mret out.

Definition prvListTasksWithinSingleList (uxArraySize : Z) (out : list TaskStatus_t) (pxList : list_id) (eState : eTaskState)
  : M K (list TaskStatus_t) :=
  n ← onlist (loLength pxList);
  if 0 <? n then
    pxFirstTCB ← onlist (loNextOwner pxList);
    list_tasks_loop (Z.to_nat n) uxArraySize out pxList eState pxFirstTCB
  else mret out.

(** The do-while loop over the ready lists, from the highest priority down. *)
Fixpoint list_ready_tasks (uxQueue : nat) (uxArraySize : Z) (out : list TaskStatus_t) : M K (list TaskStatus_t) :=
  match uxQueue with
  | O => mret out
  | S n => out ← prvListTasksWithinSingleList uxArraySize out (pxReadyTasksLists (Z.of_nat n)) eReady;
           list_ready_tasks n uxArraySize out
  end.

(** What the array is filled with, and what is written through
    [pulTotalRunTime] if it is not null. *)
Definition system_state_suspended (uxArraySize : Z) (pulTotalRunTime : bool) : M K (list TaskStatus_t * option Z) :=
  n ← rdv uxCurrentNumberOfTasks;
  if n <=? uxArraySize then
    out ← list_ready_tasks (Z.to_nat configMAX_PRIORITIES) uxArraySize [];
    l ← rdv pxDelayedTaskList;
    out ← prvListTasksWithinSingleList uxArraySize out l eBlocked;
    l ← rdv pxOverflowDelayedTaskList;
    out ← prvListTasksWithinSingleList uxArraySize out l eBlocked;
    out ← prvListTasksWithinSingleList uxArraySize out xTasksWaitingTermination eDeleted;
    out ← prvListTasksWithinSingleList uxArraySize out xSuspendedTaskList eSuspended;
    mret (out, if pulTotalRunTime then Some 0 else None)
  else mret ([], None).

(** The number returned is that of the entries. *)
Definition uxTaskGetSystemState (uxArraySize : Z) (pulTotalRunTime : bool) : prog K (list TaskStatus_t * option Z) :=
  atomic vTaskSuspendAll;;
  r ← atomic (system_state_suspended uxArraySize pulTotalRunTime);
  atomic xTaskResumeAll;;
  mret r.

(** ** Hooks *)

Definition xTaskGetApplicationTaskTagFromISR (xTask : Z) : M K Z :=
  pxTCB ← prvGetTCBFromHandle xTask;
  rd_tcb pxTCB pxTaskTag.

(** [task_hook f a] is the application's function at [f], called with [a]. *)
Definition xTaskCallApplicationTaskHook (task_hook : Z -> Z -> prog K Z) (xTask pvParameter : Z) : prog K Z :=
  pxTaskTag ← atomic (xTCB ← prvGetTCBFromHandle xTask; rd_tcb xTCB pxTaskTag);
  if negb (pxTaskTag =? NULL) then task_hook pxTaskTag pvParameter else mret pdFAIL.

(** ** The end *)

(** port.c: for( ;; );  No bound on the number of rounds lets it return. *)
Fixpoint vPortEndScheduler (fuel : nat) : M K unit :=
  match fuel with O => fault | S fuel' => vPortEndScheduler fuel' end.

Definition vTaskEndScheduler (fuel : nat) : prog K unit :=
  atomic (wrv (set_mstatusMIE 0));;
  atomic (wrv (set_xSchedulerRunning pdFALSE));;
  atomic (vPortEndScheduler fuel).

End TaskInfo.
