(* ===== verification/Queue.v ===== *)
(** * queue.c: queues, semaphores and mutexes

    The functions of queue.c in the modelled configuration (no queue sets, no
    co-routines, no static allocation).  The items are sequences of bytes;
    [storage] is the memory from [pcHead] to [pcTail].  A copy that leaves it
    faults.  The blocking functions are loops: [*_iter] is one round, [l] the
    locals that survive it, and the function runs [n] rounds at most. *)

From S2P Require Import Prelude Config ListC ListSpec Heap4 Kernel Tasks TaskApi TaskEvents.

Definition queueUNLOCKED : Z := -1.
Definition queueLOCKED_UNMODIFIED : Z := 0.
Definition queueQUEUE_IS_MUTEX : Z := NULL.
Definition queueSEND_TO_BACK : Z := 0.
Definition queueSEND_TO_FRONT : Z := 1.
Definition queueOVERWRITE : Z := 2.
Definition queueQUEUE_TYPE_COUNTING_SEMAPHORE : Z := 2.
Definition sizeof_Queue_t : Z := 80.
Definition SIZE_MAX : Z := 4294967295.
Definition configQUEUE_REGISTRY_SIZE : Z := 8.

(** The members of the union [u]. *)
Definition pcTail (q : Queue_t) : Z := u_word0 q.
Definition pcReadFrom (q : Queue_t) : Z := u_word1 q.
Definition xMutexHolder (q : Queue_t) : Z := u_word0 q.
Definition uxRecursiveCallCount (q : Queue_t) : Z := u_word1 q.
Definition set_pcTail := set_u_word0.
Definition set_pcReadFrom := set_u_word1.
Definition set_xMutexHolder := set_u_word0.
Definition set_uxRecursiveCallCount := set_u_word1.
(** [#define uxQueueType pcHead] *)
Definition uxQueueType (q : Queue_t) : Z := pcHead q.

(** The locals of the blocking loops that survive a round. *)
Record q_locals := mkLocals {
  l_ticks : Z;
  l_timeout : option TimeOut_t;
  l_inherited : Z
}.

(** memcpy to and from the storage area: [None] outside of it. *)
Definition copy_in (st : list Z) (off n : Z) (item : list Z) : option (list Z) :=
  if (0 <=? off) && (off + n <=? Z.of_nat (length st)) && (n <=? Z.of_nat (length item)) then
    Some (take (Z.to_nat off) st ++ take (Z.to_nat n) item ++ drop (Z.to_nat (off + n)) st)
  else None.
Definition copy_out (st : list Z) (off n : Z) : option (list Z) :=
  if (0 <=? off) && (off + n <=? Z.of_nat (length st)) then
    Some (take (Z.to_nat n) (drop (Z.to_nat off) st))
  else None.

(** ** The data operations, on the queue object alone *)

(** prvCopyDataToQueue for an item size other than 0. *)
Definition copy_to (q : Queue_t) (item : list Z) (xPosition : Z) : option Queue_t :=
  if xPosition =? queueSEND_TO_BACK then
    st ← copy_in (storage q) (pcWriteTo q - pcHead q) (uxItemSize q) item;
    let w := pcWriteTo q +u uxItemSize q in
    let w := if pcTail q <=? w then pcHead q else w in
    Some (set_uxMessagesWaiting (uxMessagesWaiting q +u 1) (set_pcWriteTo w (set_storage st q)))
  else
    st ← copy_in (storage q) (pcReadFrom q - pcHead q) (uxItemSize q) item;
    let r := pcReadFrom q -u uxItemSize q in
    let r := if r <? pcHead q then pcTail q -u uxItemSize q else r in
    let n := if (xPosition =? queueOVERWRITE) && (0 <? uxMessagesWaiting q)
             then uxMessagesWaiting q -u 1 else uxMessagesWaiting q in
    Some (set_uxMessagesWaiting (n +u 1) (set_pcReadFrom r (set_storage st q))).

(** prvCopyDataFromQueue: the bytes copied and the queue after it. *)
Definition copy_from (q : Queue_t) : option (list Z * Queue_t) :=
  if negb (uxItemSize q =? 0) then
    let r := pcReadFrom q +u uxItemSize q in
    let r := if pcTail q <=? r then pcHead q else r in
    item ← copy_out (storage q) (r - pcHead q) (uxItemSize q);
    Some (item, set_pcReadFrom r q)
  else Some ([], q).

(** The fields xQueueGenericReset writes. *)
Definition reset_fields (q : Queue_t) : Queue_t :=
  set_cTxLock queueUNLOCKED (set_cRxLock queueUNLOCKED
    (set_pcReadFrom (pcHead q +u u32 ((uxLength q -u 1) * uxItemSize q))
      (set_pcWriteTo (pcHead q)
        (set_uxMessagesWaiting 0
          (set_pcTail (pcHead q +u u32 (uxLength q * uxItemSize q)) q))))).

Section Queue.
Context {H : Type} `{!ListOps item list_id H}.
Variables ucHeap xStart : Z.
Notation K := (Kernel H).

(** Replace a queue object by what a data operation makes of it. *)
Definition upd_queue (q : Z) (f : Queue_t -> option Queue_t) : M K unit :=
  x ← rd_queue q id;
  y ← lift_opt (f x);
  wr_queue q (fun _ => y).

Definition prvCopyDataToQueue (q : Z) (item : list Z) (xPosition : Z) : M K Z :=
  x ← rd_queue q id;
  if uxItemSize x =? 0 then
    xReturn ← (if uxQueueType x =? queueQUEUE_IS_MUTEX then
                 r ← xTaskPriorityDisinherit (xMutexHolder x);
                 wr_queue q (set_xMutexHolder NULL);;
                 mret r
               else mret pdFALSE);
    wr_queue q (set_uxMessagesWaiting (uxMessagesWaiting x +u 1));;
    mret xReturn
  else upd_queue q (fun x => copy_to x item xPosition);; mret pdFALSE.

Definition prvCopyDataFromQueue (q : Z) : M K (list Z) :=
  x ← rd_queue q id;
  '(item, y) ← lift_opt (copy_from x);
  wr_queue q (fun _ => y);;
  mret item.

(** Wake the first task waiting in a list, if there is one; is it more urgent
    than the running task? *)
Definition wake_first (l : list_id) : M K bool :=
  e ← listIS_EMPTY l;
  if e : bool then mret false
  else r ← xTaskRemoveFromEventList l; mret (negb (r =? pdFALSE)).

(** ** Creation and reset *)

Definition xQueueGenericReset (q xNewQueue : Z) : M K Z :=
  if negb (q =? NULL) then
    x ← rd_queue q id;
    if (1 <=? uxLength x) && (uxItemSize x <=? SIZE_MAX / uxLength x) then
      wr_queue q reset_fields;;
      (if xNewQueue =? pdFALSE then
         b ← wake_first (xTasksWaitingToSend q);
         when b portYIELD
       else
         onlist (loInitialise (xTasksWaitingToSend q));;
         onlist (loInitialise (xTasksWaitingToReceive q)));;
      mret pdPASS
    else mret pdFAIL
  else mret pdFAIL.

(** A fresh block becomes a queue.  [junk] is what the memory of the fields
    held, [mem] what the memory held at each address. *)
Definition prvInitialiseNewQueue (junk : Z) (mem : Z -> Z)
  (uxQueueLength uxItemSize ucQueueType pxNewQueue : Z) : M K unit :=
  let pcHead := if uxItemSize =? 0 then pxNewQueue else pxNewQueue +u sizeof_Queue_t in
  wrv (fun v => set_queues (<[pxNewQueue :=
    mkQueue pcHead junk junk junk junk uxQueueLength uxItemSize junk junk junk junk
      (mem <$> seqZ pcHead (u32 (uxQueueLength * uxItemSize)))]> (queues v)) v);;
  xQueueGenericReset pxNewQueue pdTRUE;;
  wr_queue pxNewQueue (set_ucQueueType ucQueueType).

Definition xQueueGenericCreate (junk : Z) (mem : Z -> Z) (uxQueueLength uxItemSize ucQueueType : Z) : prog K Z :=
  if (0 <? uxQueueLength) && (uxItemSize <=? SIZE_MAX / uxQueueLength) &&
     (u32 (uxQueueLength * uxItemSize) <=? SIZE_MAX - sizeof_Queue_t) then
    let xQueueSizeInBytes := u32 (uxQueueLength * uxItemSize) in
    pxNewQueue ← pvPortMalloc ucHeap xStart (sizeof_Queue_t +u xQueueSizeInBytes);
    (if negb (pxNewQueue =? NULL) then
       atomic (prvInitialiseNewQueue junk mem uxQueueLength uxItemSize ucQueueType pxNewQueue)
     else mret tt);;
    mret pxNewQueue
  else mret NULL.

(** ** Locking

    While a queue is locked, interrupts change its contents but not its event
    lists: they count what they did in the locks. *)

Definition prvLockQueue (q : Z) : M K unit :=
  wr_queue q (fun x => if cRxLock x =? queueUNLOCKED then set_cRxLock queueLOCKED_UNMODIFIED x else x);;
  wr_queue q (fun x => if cTxLock x =? queueUNLOCKED then set_cTxLock queueLOCKED_UNMODIFIED x else x).

(** The [while] loops of prvUnlockQueue: wake a task for each item added or
    removed while locked, as long as there are tasks waiting. *)
Fixpoint unlock_loop (lock : nat) (l : list_id) : M K unit :=
  match lock with
  | O => mret tt
  | S lock' =>
      e ← listIS_EMPTY l;
      if e : bool then mret tt
      else
        r ← xTaskRemoveFromEventList l;
        when (negb (r =? pdFALSE)) vTaskMissedYield;;
        unlock_loop lock' l
  end.

Definition unlock_tx (q : Z) : M K unit :=
  c ← rd_queue q cTxLock;
  unlock_loop (Z.to_nat c) (xTasksWaitingToReceive q);;
  wr_queue q (set_cTxLock queueUNLOCKED).
Definition unlock_rx (q : Z) : M K unit :=
  c ← rd_queue q cRxLock;
  unlock_loop (Z.to_nat c) (xTasksWaitingToSend q);;
  wr_queue q (set_cRxLock queueUNLOCKED).

Definition prvUnlockQueue (q : Z) : prog K unit :=
  atomic (unlock_tx q);;
  atomic (unlock_rx q).

Definition prvIsQueueEmpty (q : Z) : M K bool :=
  n ← rd_queue q uxMessagesWaiting; mret (n =? 0).
Definition prvIsQueueFull (q : Z) : M K bool :=
  n ← rd_queue q uxMessagesWaiting; len ← rd_queue q uxLength; mret (n =? len).

(** What follows in the first critical section of a blocking function when it
    cannot proceed: give up if no time is left, note the time of entry
    otherwise. *)
Definition or_wait (err : Z) (l : q_locals) : M K (q_locals + Z) :=
  if l_ticks l =? 0 then mret (inr err)
  else
    match l_timeout l with
    | None => t ← vTaskInternalSetTimeOutState;
              mret (inl (mkLocals (l_ticks l) (Some t) (l_inherited l)))
    | Some _ => mret (inl l)
    end.

(** The end of a round that blocked. *)
Definition resume_and_yield : prog K unit :=
  r ← atomic xTaskResumeAll;
  if r =? pdFALSE then atomic portYIELD else mret tt.

(** ** Sending *)

(** The critical section of xQueueGenericSend. *)
Definition send_try (q : Z) (pvItemToQueue : list Z) (xCopyPosition : Z) (l : q_locals)
  : M K (q_locals + Z) :=
  n ← rd_queue q uxMessagesWaiting;
  len ← rd_queue q uxLength;
  if (n <? len) || (xCopyPosition =? queueOVERWRITE) then
    xYieldRequired ← prvCopyDataToQueue q pvItemToQueue xCopyPosition;
    e ← listIS_EMPTY (xTasksWaitingToReceive q);
    (if negb e then
       b ← wake_first (xTasksWaitingToReceive q);
       when b portYIELD
     else when (negb (xYieldRequired =? pdFALSE)) portYIELD);;
    mret (inr pdPASS)
  else or_wait errQUEUE_FULL l.

(** xTaskCheckForTimeOut on the locals of a round. *)
Definition check_timeout (l : q_locals) : M K (bool * q_locals) :=
  to ← lift_opt (l_timeout l);
  '(r, to', ticks) ← xTaskCheckForTimeOut to (l_ticks l);
  mret (negb (r =? pdFALSE), mkLocals ticks (Some to') (l_inherited l)).

Definition xQueueGenericSend_iter (q : Z) (pvItemToQueue : list Z) (xCopyPosition : Z) (l : q_locals)
  : prog K (q_locals + Z) :=
  r ← atomic (send_try q pvItemToQueue xCopyPosition l);
  match r with
  | inr x => mret (inr x)
  | inl l =>
      atomic vTaskSuspendAll;;
      atomic (prvLockQueue q);;
      '(expired, l) ← atomic (check_timeout l);
      if expired : bool then
        prvUnlockQueue q;;
        atomic xTaskResumeAll;;
        mret (inr errQUEUE_FULL)
      else
        full ← atomic (prvIsQueueFull q);
        if full : bool then
          atomic (vTaskPlaceOnEventList (xTasksWaitingToSend q) (l_ticks l));;
          prvUnlockQueue q;;
          resume_and_yield;;
          mret (inl l)
        else
          prvUnlockQueue q;;
          atomic xTaskResumeAll;;
          mret (inl l)
  end.

Definition xQueueGenericSend (n : nat) (q : Z) (pvItemToQueue : list Z) (xTicksToWait xCopyPosition : Z)
  : prog K (q_locals + Z) :=
  iterate n (xQueueGenericSend_iter q pvItemToQueue xCopyPosition) (mkLocals xTicksToWait None pdFALSE).

(** After an interrupt has added an item: wake a receiver, or count the item
    if the queue is locked. *)
Definition after_isr_send (q cTxLock : Z) : M K bool :=
  if cTxLock =? queueUNLOCKED then wake_first (xTasksWaitingToReceive q)
  else wr_queue q (set_cTxLock (i8 (cTxLock + 1)));; mret false.

(** The result is the return value and whether [*pxHigherPriorityTaskWoken] is
    set. *)
Definition xQueueGenericSendFromISR (q : Z) (pvItemToQueue : list Z) (xCopyPosition : Z) : M K (Z * bool) :=
  n ← rd_queue q uxMessagesWaiting;
  len ← rd_queue q uxLength;
  if (n <? len) || (xCopyPosition =? queueOVERWRITE) then
    cTxLock ← rd_queue q cTxLock;
    prvCopyDataToQueue q pvItemToQueue xCopyPosition;;
    b ← after_isr_send q cTxLock;
    mret (pdPASS, b)
  else mret (errQUEUE_FULL, false).

Definition xQueueGiveFromISR (q : Z) : M K (Z * bool) :=
  n ← rd_queue q uxMessagesWaiting;
  len ← rd_queue q uxLength;
  if n <? len then
    cTxLock ← rd_queue q cTxLock;
    wr_queue q (set_uxMessagesWaiting (n +u 1));;
    b ← after_isr_send q cTxLock;
    mret (pdPASS, b)
  else mret (errQUEUE_FULL, false).

(** ** Receiving *)

(** The critical section of xQueueReceive: the item received, or the locals. *)
Definition receive_try (q : Z) (l : q_locals) : M K (q_locals + (Z * list Z)) :=
  n ← rd_queue q uxMessagesWaiting;
  if 0 <? n then
    item ← prvCopyDataFromQueue q;
    wr_queue q (set_uxMessagesWaiting (n -u 1));;
    b ← wake_first (xTasksWaitingToSend q);
    when b portYIELD;;
    mret (inr (pdPASS, item))
  else
    r ← or_wait errQUEUE_EMPTY l;
    mret (match r with inl l => inl l | inr e => inr (e, []) end).

(** The rest of a round of xQueueReceive and xQueuePeek. *)
Definition receive_wait (q : Z) (l : q_locals) : prog K (q_locals + (Z * list Z)) :=
  atomic vTaskSuspendAll;;
  atomic (prvLockQueue q);;
  '(expired, l) ← atomic (check_timeout l);
  if expired : bool then
    prvUnlockQueue q;;
    atomic xTaskResumeAll;;
    empty ← atomic (prvIsQueueEmpty q);
    mret (if empty : bool then inr (errQUEUE_EMPTY, []) else inl l)
  else
    empty ← atomic (prvIsQueueEmpty q);
    if empty : bool then
      atomic (vTaskPlaceOnEventList (xTasksWaitingToReceive q) (l_ticks l));;
      prvUnlockQueue q;;
      resume_and_yield;;
      mret (inl l)
    else
      prvUnlockQueue q;;
      atomic xTaskResumeAll;;
      mret (inl l).

Definition xQueueReceive_iter (q : Z) (l : q_locals) : prog K (q_locals + (Z * list Z)) :=
  r ← atomic (receive_try q l);
  match r with
  | inr x => mret (inr x)
  | inl l => receive_wait q l
  end.

Definition xQueueReceive (n : nat) (q xTicksToWait : Z) : prog K (q_locals + (Z * list Z)) :=
  iterate n (xQueueReceive_iter q) (mkLocals xTicksToWait None pdFALSE).

(** The critical section of xQueuePeek: the item stays, and another task that
    waits for it is woken. *)
Definition peek_try (q : Z) (l : q_locals) : M K (q_locals + (Z * list Z)) :=
  n ← rd_queue q uxMessagesWaiting;
  if 0 <? n then
    pcOriginalReadPosition ← rd_queue q pcReadFrom;
    item ← prvCopyDataFromQueue q;
    wr_queue q (set_pcReadFrom pcOriginalReadPosition);;
    b ← wake_first (xTasksWaitingToReceive q);
    when b portYIELD;;
    mret (inr (pdPASS, item))
  else
    r ← or_wait errQUEUE_EMPTY l;
    mret (match r with inl l => inl l | inr e => inr (e, []) end).

Definition xQueuePeek_iter (q : Z) (l : q_locals) : prog K (q_locals + (Z * list Z)) :=
  r ← atomic (peek_try q l);
  match r with
  | inr x => mret (inr x)
  | inl l => receive_wait q l
  end.

Definition xQueuePeek (n : nat) (q xTicksToWait : Z) : prog K (q_locals + (Z * list Z)) :=
  iterate n (xQueuePeek_iter q) (mkLocals xTicksToWait None pdFALSE).

Definition xQueueReceiveFromISR (q : Z) : M K (Z * list Z * bool) :=
  n ← rd_queue q uxMessagesWaiting;
  if 0 <? n then
    cRxLock ← rd_queue q cRxLock;
    item ← prvCopyDataFromQueue q;
    wr_queue q (set_uxMessagesWaiting (n -u 1));;
    b ← (if cRxLock =? queueUNLOCKED then wake_first (xTasksWaitingToSend q)
         else wr_queue q (set_cRxLock (i8 (cRxLock + 1)));; mret false);
    mret (pdPASS, item, b)
  else mret (pdFAIL, [], false).

Definition xQueuePeekFromISR (q : Z) : M K (Z * list Z) :=
  n ← rd_queue q uxMessagesWaiting;
  if 0 <? n then
    pcOriginalReadPosition ← rd_queue q pcReadFrom;
    item ← prvCopyDataFromQueue q;
    wr_queue q (set_pcReadFrom pcOriginalReadPosition);;
    mret (pdPASS, item)
  else mret (pdFAIL, []).

(** ** Semaphores and mutexes *)

(** The critical section of xQueueSemaphoreTake. *)
Definition take_try (q : Z) (l : q_locals) : M K (q_locals + Z) :=
  n ← rd_queue q uxMessagesWaiting;
  if 0 <? n then
    wr_queue q (set_uxMessagesWaiting (n -u 1));;
    ty ← rd_queue q uxQueueType;
    (if ty =? queueQUEUE_IS_MUTEX then
       t ← pvTaskIncrementMutexHeldCount;
       wr_queue q (set_xMutexHolder t)
     else mret tt);;
    b ← wake_first (xTasksWaitingToSend q);
    when b portYIELD;;
    mret (inr pdPASS)
  else or_wait errQUEUE_EMPTY l.

(** The holder of a mutex inherits the priority of the task about to wait. *)
Definition inherit_for_mutex (q : Z) (l : q_locals) : M K q_locals :=
  ty ← rd_queue q uxQueueType;
  if ty =? queueQUEUE_IS_MUTEX then
    h ← rd_queue q xMutexHolder;
    r ← xTaskPriorityInherit h;
    mret (mkLocals (l_ticks l) (l_timeout l) r)
  else mret l.

Definition prvGetDisinheritPriorityAfterTimeout (q : Z) : M K Z :=
  n ← onlist (loLength (xTasksWaitingToReceive q));
  if 0 <? n then
    v ← onlist (loHeadValue (xTasksWaitingToReceive q));
    mret (configMAX_PRIORITIES -u v)
  else mret tskIDLE_PRIORITY.

(** The wait timed out: the holder gives the inherited priority back. *)
Definition disinherit_after_timeout (q : Z) : M K unit :=
  uxHighestWaitingPriority ← prvGetDisinheritPriorityAfterTimeout q;
  h ← rd_queue q xMutexHolder;
  vTaskPriorityDisinheritAfterTimeout h uxHighestWaitingPriority.

Definition xQueueSemaphoreTake_iter (q : Z) (l : q_locals) : prog K (q_locals + Z) :=
  r ← atomic (take_try q l);
  match r with
  | inr x => mret (inr x)
  | inl l =>
      atomic vTaskSuspendAll;;
      atomic (prvLockQueue q);;
      '(expired, l) ← atomic (check_timeout l);
      if expired : bool then
        prvUnlockQueue q;;
        atomic xTaskResumeAll;;
        empty ← atomic (prvIsQueueEmpty q);
        if empty : bool then
          (if negb (l_inherited l =? pdFALSE) then atomic (disinherit_after_timeout q) else mret tt);;
          mret (inr errQUEUE_EMPTY)
        else mret (inl l)
      else
        empty ← atomic (prvIsQueueEmpty q);
        if empty : bool then
          l ← atomic (inherit_for_mutex q l);
          atomic (vTaskPlaceOnEventList (xTasksWaitingToReceive q) (l_ticks l));;
          prvUnlockQueue q;;
          resume_and_yield;;
          mret (inl l)
        else
          prvUnlockQueue q;;
          atomic xTaskResumeAll;;
          mret (inl l)
  end.

Definition xQueueSemaphoreTake (n : nat) (q xTicksToWait : Z) : prog K (q_locals + Z) :=
  iterate n (xQueueSemaphoreTake_iter q) (mkLocals xTicksToWait None pdFALSE).

(** The send never waits: one round is enough. *)
Definition prvInitialiseMutex (q : Z) : prog K unit :=
  if negb (q =? NULL) then
    atomic (wr_queue q (fun x => set_uxRecursiveCallCount 0
              (set_pcHead queueQUEUE_IS_MUTEX (set_xMutexHolder NULL x))));;
    xQueueGenericSend 1 q [] 0 queueSEND_TO_BACK;;
    mret tt
  else mret tt.

Definition xQueueCreateMutex (junk : Z) (mem : Z -> Z) (ucQueueType : Z) : prog K Z :=
  xNewQueue ← xQueueGenericCreate junk mem 1 0 ucQueueType;
  prvInitialiseMutex xNewQueue;;
  mret xNewQueue.

Definition xQueueGetMutexHolder (q : Z) : M K Z :=
  ty ← rd_queue q uxQueueType;
  if ty =? queueQUEUE_IS_MUTEX then rd_queue q xMutexHolder else mret NULL.
Definition xQueueGetMutexHolderFromISR (q : Z) : M K Z :=
  ty ← rd_queue q uxQueueType;
  if ty =? queueQUEUE_IS_MUTEX then rd_queue q xMutexHolder else mret NULL.

(** Is the calling task the holder? *)
Definition holds_mutex (q : Z) : M K bool :=
  h ← rd_queue q xMutexHolder;
  cur ← rdv pxCurrentTCB;
  mret (h =? cur).

Definition xQueueGiveMutexRecursive (q : Z) : prog K Z :=
  b ← atomic (holds_mutex q);
  if b : bool then
    c ← atomic (wr_queue q (fun x => set_uxRecursiveCallCount (uxRecursiveCallCount x -u 1) x);;
                rd_queue q uxRecursiveCallCount);
    (if c =? 0 then xQueueGenericSend 1 q [] 0 queueSEND_TO_BACK;; mret tt else mret tt);;
    mret pdPASS
  else mret pdFAIL.

Definition xQueueTakeMutexRecursive (n : nat) (q xTicksToWait : Z) : prog K (q_locals + Z) :=
  b ← atomic (holds_mutex q);
  if b : bool then
    atomic (wr_queue q (fun x => set_uxRecursiveCallCount (uxRecursiveCallCount x +u 1) x));;
    mret (inr pdPASS)
  else
    r ← xQueueSemaphoreTake n q xTicksToWait;
    match r with
    | inr xReturn =>
        (if negb (xReturn =? pdFAIL) then
           atomic (wr_queue q (fun x => set_uxRecursiveCallCount (uxRecursiveCallCount x +u 1) x))
         else mret tt);;
        mret (inr xReturn)
    | inl l => mret (inl l)
    end.

Definition xQueueCreateCountingSemaphore (junk : Z) (mem : Z -> Z) (uxMaxCount uxInitialCount : Z) : prog K Z :=
  if negb (uxMaxCount =? 0) && (uxInitialCount <=? uxMaxCount) then
    xHandle ← xQueueGenericCreate junk mem uxMaxCount 0 queueQUEUE_TYPE_COUNTING_SEMAPHORE;
    (if negb (xHandle =? NULL) then atomic (wr_queue xHandle (set_uxMessagesWaiting uxInitialCount))
     else mret tt);;
    mret xHandle
  else mret NULL.

(** ** The rest *)

Definition uxQueueMessagesWaiting (q : Z) : M K Z := rd_queue q uxMessagesWaiting.
Definition uxQueueMessagesWaitingFromISR (q : Z) : M K Z := rd_queue q uxMessagesWaiting.
Definition uxQueueSpacesAvailable (q : Z) : M K Z :=
  len ← rd_queue q uxLength; n ← rd_queue q uxMessagesWaiting; mret (len -u n).
Definition xQueueIsQueueEmptyFromISR (q : Z) : M K bool :=
  n ← rd_queue q uxMessagesWaiting; mret (n =? 0).
Definition xQueueIsQueueFullFromISR (q : Z) : M K bool :=
  n ← rd_queue q uxMessagesWaiting; len ← rd_queue q uxLength; mret (n =? len).
Definition uxQueueGetQueueNumber (q : Z) : M K Z := rd_queue q uxQueueNumber.
Definition vQueueSetQueueNumber (q n : Z) : M K unit := wr_queue q (set_uxQueueNumber n).
Definition ucQueueGetQueueType (q : Z) : M K Z := rd_queue q ucQueueType.

(** The search of vQueueAddToRegistry: the entry that already holds the queue,
    or else the first one that is free. *)
Fixpoint registry_slot (q : Z) (ux : nat) (found : option nat) (es : list (Z * Z)) : option nat :=
  match es with
  | [] => found
  | (name, h) :: es' =>
      if q =? h then Some ux
      else registry_slot q (S ux)
             (match found with
              | None => if name =? NULL then Some ux else None
              | Some i => Some i end) es'
  end.

Definition vQueueAddToRegistry (q pcQueueName : Z) : M K unit :=
  es ← rdv xQueueRegistry;
  let pxEntryToWrite := if negb (pcQueueName =? NULL) then registry_slot q 0 None es else None in
  match pxEntryToWrite with
  | Some i => wrv (fun v => set_xQueueRegistry (<[i := (pcQueueName, q)]> (xQueueRegistry v)) v)
  | None => mret tt
  end.

Fixpoint registry_name (q : Z) (es : list (Z * Z)) : Z :=
  match es with
  | [] => NULL
  | (name, h) :: es' => if h =? q then name else registry_name q es'
  end.
Definition pcQueueGetName (q : Z) : M K Z := es ← rdv xQueueRegistry; mret (registry_name q es).

Fixpoint registry_remove (q : Z) (es : list (Z * Z)) : list (Z * Z) :=
  match es with
  | [] => []
  | (name, h) :: es' => if h =? q then (NULL, 0) :: es' else (name, h) :: registry_remove q es'
  end.
Definition vQueueUnregisterQueue (q : Z) : M K unit :=
  wrv (fun v => set_xQueueRegistry (registry_remove q (xQueueRegistry v)) v).

(** The memory of a queue goes back to the allocator. *)
Definition forget_queue (q : Z) : M K unit :=
  onlist (loFreeList (xTasksWaitingToSend q));;
  onlist (loFreeList (xTasksWaitingToReceive q));;
  wrv (fun v => set_queues (delete q (queues v)) v).

Definition vQueueDelete (q : Z) : prog K unit :=
  atomic (vQueueUnregisterQueue q);;
  atomic (forget_queue q);;
  vPortFree xStart q.

Definition vQueueWaitForMessageRestricted (q xTicksToWait xWaitIndefinitely : Z) : prog K unit :=
  atomic (prvLockQueue q);;
  atomic (n ← rd_queue q uxMessagesWaiting;
          when (n =? 0) (vTaskPlaceOnEventListRestricted (xTasksWaitingToReceive q) xTicksToWait xWaitIndefinitely));;
  prvUnlockQueue q.

End Queue.
