(* ===== verification/EventGroups.v ===== *)
(** * event_groups.c: event groups

    A task waits in the list of an event group with the bits it waits for, and
    how, in the value of its event item; the function that sets bits walks
    the list and wakes the tasks whose condition holds.  The conventions are
    those of [Tasks]; the bodies that run with the scheduler suspended are
    single blocks. *)

From S2P Require Import Prelude Config ListC ListSpec Heap4 Kernel Tasks TaskApi TaskEvents.

Definition eventCLEAR_EVENTS_ON_EXIT_BIT : Z := 16777216.
Definition eventUNBLOCKED_DUE_TO_BIT_SET : Z := 33554432.
Definition eventWAIT_FOR_ALL_BITS : Z := 67108864.
Definition eventEVENT_BITS_CONTROL_BYTES : Z := 4278190080.
Definition sizeof_EventGroup_t : Z := 28.

Definition prvTestWaitCondition (uxCurrentEventBits uxBitsToWaitFor xWaitForAllBits : Z) : Z :=
  if xWaitForAllBits =? pdFALSE then
    if negb (Z.land uxCurrentEventBits uxBitsToWaitFor =? 0) then pdTRUE else pdFALSE
  else if Z.land uxCurrentEventBits uxBitsToWaitFor =? uxBitsToWaitFor then pdTRUE else pdFALSE.

(** The test xEventGroupSetBits makes for a waiting task: [value] is the value
    of its event item, [bits] the bits of the group. *)
Definition wait_matches (value bits : Z) : bool :=
  let uxControlBits := Z.land value eventEVENT_BITS_CONTROL_BYTES in
  let uxBitsWaitedFor := Z.land value (Z.lnot eventEVENT_BITS_CONTROL_BYTES) in
  if Z.land uxControlBits eventWAIT_FOR_ALL_BITS =? 0
  then negb (Z.land uxBitsWaitedFor bits =? 0)
  else Z.land uxBitsWaitedFor bits =? uxBitsWaitedFor.

(** The bits that task's wake-up adds to the bits to clear. *)
Definition clears (value : Z) : Z :=
  let uxControlBits := Z.land value eventEVENT_BITS_CONTROL_BYTES in
  let uxBitsWaitedFor := Z.land value (Z.lnot eventEVENT_BITS_CONTROL_BYTES) in
  if negb (Z.land uxControlBits eventCLEAR_EVENTS_ON_EXIT_BIT =? 0) then uxBitsWaitedFor else 0.

(** The value a waiting task leaves in its event item. *)
Definition wait_value (uxBitsToWaitFor xClearOnExit xWaitForAllBits : Z) : Z :=
  let uxControlBits := if negb (xClearOnExit =? pdFALSE) then eventCLEAR_EVENTS_ON_EXIT_BIT else 0 in
  let uxControlBits := if negb (xWaitForAllBits =? pdFALSE)
                       then Z.lor uxControlBits eventWAIT_FOR_ALL_BITS else uxControlBits in
  Z.lor uxBitsToWaitFor uxControlBits.

Section EventGroups.
Context {H : Type} `{!ListOps item list_id H}.
Variables ucHeap xStart : Z.
Notation K := (Kernel H).

Definition clear_bits (uxBitsToClear : Z) (g : EventGroup_t) : EventGroup_t :=
  set_uxEventBits (Z.land (uxEventBits g) (Z.lnot uxBitsToClear)) g.

(** [junk] is what the memory of the field that is not initialised held. *)
Definition xEventGroupCreate (junk : Z) : prog K Z :=
  pxEventBits ← pvPortMalloc ucHeap xStart sizeof_EventGroup_t;
  (if negb (pxEventBits =? NULL) then
     atomic (wrv (fun v => set_event_groups (<[pxEventBits := mkEventGroup 0 junk]> (event_groups v)) v);;
             onlist (loInitialise (xTasksWaitingForBits pxEventBits)))
   else mret tt);;
  mret pxEventBits.

(** ** Setting and clearing bits *)

(** The [while] loop over the waiting tasks; the result is the bits to clear.
    [pxListItem] is an item of the list or its end marker. *)
Fixpoint set_bits_loop (fuel : nat) (e : Z) (pxListItem : node item list_id) (uxBitsToClear : Z) : M K Z :=
  match pxListItem with
  | NEnd l => if decide (l = xTasksWaitingForBits e) then mret uxBitsToClear else fault
  | NItem i =>
      match fuel with
      | O => fault
      | S fuel' =>
          pxNext ← onlist (loNext pxListItem);
          value ← onlist (loGetValue i);
          bits ← rd_group e uxEventBits;
          if wait_matches value bits then
            vTaskRemoveFromUnorderedEventList i (Z.lor bits eventUNBLOCKED_DUE_TO_BIT_SET);;
            set_bits_loop fuel' e pxNext (Z.lor uxBitsToClear (clears value))
          else set_bits_loop fuel' e pxNext uxBitsToClear
      end
  end.

(** What xEventGroupSetBits does while the scheduler is suspended. *)
Definition set_bits_suspended (e uxBitsToSet : Z) : M K unit :=
  pxListItem ← onlist (loHeadEntry (xTasksWaitingForBits e));
  wr_group e (fun g => set_uxEventBits (Z.lor (uxEventBits g) uxBitsToSet) g);;
  len ← onlist (loLength (xTasksWaitingForBits e));
  uxBitsToClear ← set_bits_loop (Z.to_nat len) e pxListItem 0;
  wr_group e (clear_bits uxBitsToClear).

Definition xEventGroupSetBits (e uxBitsToSet : Z) : prog K Z :=
  atomic vTaskSuspendAll;;
  atomic (set_bits_suspended e uxBitsToSet);;
  atomic xTaskResumeAll;;
  atomic (rd_group e uxEventBits).

Definition xEventGroupClearBits (e uxBitsToClear : Z) : M K Z :=
  uxReturn ← rd_group e uxEventBits;
  wr_group e (clear_bits uxBitsToClear);;
  mret uxReturn.

Definition xEventGroupGetBitsFromISR (e : Z) : M K Z := rd_group e uxEventBits.

Definition vEventGroupSetBitsCallback (pvEventGroup ulBitsToSet : Z) : prog K unit :=
  xEventGroupSetBits pvEventGroup ulBitsToSet;; mret tt.
Definition vEventGroupClearBitsCallback (pvEventGroup ulBitsToClear : Z) : prog K unit :=
  atomic (xEventGroupClearBits pvEventGroup ulBitsToClear);; mret tt.

(** ** Waiting *)

(** What xEventGroupWaitBits does while the scheduler is suspended: the return
    value so far and the ticks left to wait. *)
Definition wait_bits_suspended (e uxBitsToWaitFor xClearOnExit xWaitForAllBits xTicksToWait : Z)
  : M K (Z * Z) :=
  uxCurrentEventBits ← rd_group e uxEventBits;
  if negb (prvTestWaitCondition uxCurrentEventBits uxBitsToWaitFor xWaitForAllBits =? pdFALSE) then
    (if negb (xClearOnExit =? pdFALSE) then wr_group e (clear_bits uxBitsToWaitFor) else mret tt);;
    mret (uxCurrentEventBits, 0)
  else if xTicksToWait =? 0 then mret (uxCurrentEventBits, 0)
  else
    vTaskPlaceOnUnorderedEventList (xTasksWaitingForBits e)
      (wait_value uxBitsToWaitFor xClearOnExit xWaitForAllBits) xTicksToWait;;
    mret (0, xTicksToWait).

(** The critical section after a time-out. *)
Definition wait_bits_timeout (e uxBitsToWaitFor xClearOnExit xWaitForAllBits : Z) : M K Z :=
  uxReturn ← rd_group e uxEventBits;
  (if negb (prvTestWaitCondition uxReturn uxBitsToWaitFor xWaitForAllBits =? pdFALSE) &&
      negb (xClearOnExit =? pdFALSE)
   then wr_group e (clear_bits uxBitsToWaitFor) else mret tt);;
  mret uxReturn.

(** What follows when the task has waited: [timeout] is run if no bit woke it. *)
Definition after_wait (xAlreadyYielded : Z) (timeout : M K Z) : prog K Z :=
  (if xAlreadyYielded =? pdFALSE then atomic portYIELD else mret tt);;
  uxReturn ← atomic uxTaskResetEventItemValue;
  uxReturn ← (if Z.land uxReturn eventUNBLOCKED_DUE_TO_BIT_SET =? 0 then atomic timeout else mret uxReturn);
  mret (Z.land uxReturn (Z.lnot eventEVENT_BITS_CONTROL_BYTES)).

Definition xEventGroupWaitBits (e uxBitsToWaitFor xClearOnExit xWaitForAllBits xTicksToWait : Z) : prog K Z :=
  atomic vTaskSuspendAll;;
  '(uxReturn, xTicksToWait) ←
    atomic (wait_bits_suspended e uxBitsToWaitFor xClearOnExit xWaitForAllBits xTicksToWait);
  xAlreadyYielded ← atomic xTaskResumeAll;
  if negb (xTicksToWait =? 0) then
    after_wait xAlreadyYielded (wait_bits_timeout e uxBitsToWaitFor xClearOnExit xWaitForAllBits)
  else mret uxReturn.

(** ** Rendezvous *)

(** The part of xEventGroupSync after its own bits have been set. *)
Definition sync_suspended (e uxOriginalBitValue uxBitsToSet uxBitsToWaitFor xTicksToWait : Z) : M K (Z * Z) :=
  if Z.land (Z.lor uxOriginalBitValue uxBitsToSet) uxBitsToWaitFor =? uxBitsToWaitFor then
    wr_group e (clear_bits uxBitsToWaitFor);;
    mret (Z.lor uxOriginalBitValue uxBitsToSet, 0)
  else if negb (xTicksToWait =? 0) then
    vTaskPlaceOnUnorderedEventList (xTasksWaitingForBits e)
      (Z.lor uxBitsToWaitFor (Z.lor eventCLEAR_EVENTS_ON_EXIT_BIT eventWAIT_FOR_ALL_BITS)) xTicksToWait;;
    mret (0, xTicksToWait)
  else
    uxReturn ← rd_group e uxEventBits;
    mret (uxReturn, 0).

Definition sync_timeout (e uxBitsToWaitFor : Z) : M K Z :=
  uxReturn ← rd_group e uxEventBits;
  (if Z.land uxReturn uxBitsToWaitFor =? uxBitsToWaitFor then wr_group e (clear_bits uxBitsToWaitFor) else mret tt);;
  mret uxReturn.

Definition xEventGroupSync (e uxBitsToSet uxBitsToWaitFor xTicksToWait : Z) : prog K Z :=
  atomic vTaskSuspendAll;;
  uxOriginalBitValue ← atomic (rd_group e uxEventBits);
  xEventGroupSetBits e uxBitsToSet;;
  '(uxReturn, xTicksToWait) ←
    atomic (sync_suspended e uxOriginalBitValue uxBitsToSet uxBitsToWaitFor xTicksToWait);
  xAlreadyYielded ← atomic xTaskResumeAll;
  if negb (xTicksToWait =? 0) then after_wait xAlreadyYielded (sync_timeout e uxBitsToWaitFor)
  else mret uxReturn.

(** ** Deletion *)

(** The [while] loop that releases all waiting tasks. *)
Fixpoint release_loop (fuel : nat) (e : Z) : M K unit :=
  n ← onlist (loLength (xTasksWaitingForBits e));
  if 0 <? n then
    match fuel with
    | O => fault
    | S fuel' =>
        pxListItem ← onlist (loHeadEntry (xTasksWaitingForBits e));
        match pxListItem with
        | NItem i => vTaskRemoveFromUnorderedEventList i eventUNBLOCKED_DUE_TO_BIT_SET;; release_loop fuel' e
        | NEnd _ => fault
        end
    end
  else mret tt.

Definition release_all (e : Z) : M K unit :=
  len ← onlist (loLength (xTasksWaitingForBits e));
  release_loop (Z.to_nat len) e.

(** The memory of the group stops being one. *)
Definition forget_group (e : Z) : M K unit :=
  onlist (loFreeList (xTasksWaitingForBits e));;
  wrv (fun v => set_event_groups (delete e (event_groups v)) v).

Definition vEventGroupDelete (e : Z) : prog K unit :=
  atomic vTaskSuspendAll;;
  atomic (release_all e);;
  atomic (forget_group e);;
  vPortFree xStart e;;
  atomic xTaskResumeAll;;
  mret tt.

(** ** Numbers for trace tools *)

Definition uxEventGroupGetNumber (e : Z) : M K Z :=
  if e =? NULL then mret 0 else rd_group e uxEventGroupNumber.
Definition vEventGroupSetNumber (e n : Z) : M K unit := wr_group e (set_uxEventGroupNumber n).

End EventGroups.
