(* ===== verification/Bytes.v ===== *)
(** * Bytes in memory

    The target is little-endian: a word of [n] bytes lies in memory with its
    least significant byte first.  Messages to the timer task and the lengths
    in message buffers are copied byte by byte. *)

From S2P Require Import Prelude.

Fixpoint le_split (n : nat) (z : Z) : list Z :=
  match n with
  | O => []
  | S n' => z mod 256 :: le_split n' (z / 256)
  end.

Fixpoint le_combine (bs : list Z) : Z :=
  match bs with
  | [] => 0
  | b :: bs' => b + 256 * le_combine bs'
  end.

Definition byte_ok (b : Z) : Prop := 0 <= b < 256.

Lemma length_le_split n z : length (le_split n z) = n.
Proof. revert z. induction n as [|n IH]; intros z; simpl; [done|]. by rewrite IH. Qed.

Lemma le_split_bytes n z : Forall byte_ok (le_split n z).
Proof. revert z. induction n as [|n IH]; intros z; simpl; constructor; [|done]. by apply Z.mod_pos_bound. Qed.

Lemma le_combine_split n z : le_combine (le_split n z) = z mod 256 ^ Z.of_nat n.
Proof.
  revert z. induction n as [|n IH]; intros z; [by rewrite Z.mod_1_r|].
  cbn [le_split le_combine]. rewrite IH, Nat2Z.inj_succ, Z.pow_succ_r by lia.
  rewrite (Z.rem_mul_r z 256) by (try apply Z.pow_pos_nonneg; lia). done.
Qed.

Lemma le_split_combine bs : Forall byte_ok bs -> le_split (length bs) (le_combine bs) = bs.
Proof.
  induction 1 as [|b bs Hb _ IH]; [done|]. cbn [length le_split le_combine]. unfold byte_ok in Hb.
  replace (b + 256 * le_combine bs) with (b + le_combine bs * 256) by ring.
  rewrite Z_mod_plus_full, Z.mod_small, Z_div_plus_full, Z.div_small by lia. by rewrite Z.add_0_l, IH.
Qed.

Lemma le_combine_range bs : Forall byte_ok bs -> 0 <= le_combine bs < 256 ^ Z.of_nat (length bs).
Proof.
  induction 1 as [|b bs Hb _ IH]; [done|]. cbn [length le_combine]. unfold byte_ok in Hb.
  rewrite Nat2Z.inj_succ, Z.pow_succ_r by lia. lia.
Qed.

(** A 32-bit word. *)
Lemma le_word z : le_combine (le_split 4 z) = u32 z.
Proof. rewrite le_combine_split. done. Qed.
