(* ===== verification/StreamBuffers.v ===== *)
(** * stream_buffer.c: stream buffers and message buffers

    A stream buffer is a ring of bytes between one writer and one reader; one
    place is always left free.  A message buffer puts the length of each
    message, as four bytes, before the message.  A task that waits for bytes
    or for room is woken by a notification.  The data operations work on the
    stream buffer object alone, and fault ([None]) where the source would
    read or write outside a buffer. *)

From S2P Require Import Prelude Config ListC ListSpec Heap4 Kernel Tasks TaskApi TaskEvents Queue Bytes.

Definition sbBYTES_TO_STORE_MESSAGE_LENGTH : Z := 4.
Definition sbFLAGS_IS_MESSAGE_BUFFER : Z := 1.
Definition sbFLAGS_IS_STATICALLY_ALLOCATED : Z := 2.
Definition sizeof_StreamBuffer_t : Z := 36.

Definition is_message_buffer (x : StreamBuffer_t) : bool :=
  negb (Z.land (ucFlags x) sbFLAGS_IS_MESSAGE_BUFFER =? 0).

(** ** The ring *)

Definition prvBytesInBuffer (x : StreamBuffer_t) : Z :=
  let xCount := xLength x +u xHead x -u xTail x in
  if xLength x <=? xCount then xCount -u xLength x else xCount.

(** The loop that reads [xTail] again until it has not changed makes this the
    room at one moment. *)
Definition spaces_available (x : StreamBuffer_t) : Z :=
  let xSpace := xLength x +u xTail x -u xHead x -u 1 in
  if xLength x <=? xSpace then xSpace -u xLength x else xSpace.

(** The bytes after writing [xCount] bytes of [pucData] from position [xHead]
    on, and the next position. *)
Definition prvWriteBytesToBuffer (x : StreamBuffer_t) (pucData : list Z) (xCount xHead : Z)
  : option (StreamBuffer_t * Z) :=
  let xFirstLength := Z.min (xLength x -u xHead) xCount in
  bs ← copy_in (bytes x) xHead xFirstLength pucData;
  bs ← (if xFirstLength <? xCount
        then copy_in bs 0 (xCount - xFirstLength) (drop (Z.to_nat xFirstLength) pucData)
        else Some bs);
  let xHead := xHead +u xCount in
  Some (set_bytes bs x, if xLength x <=? xHead then xHead -u xLength x else xHead).

(** The bytes read from position [xTail] on, and the next position. *)
Definition prvReadBytesFromBuffer (x : StreamBuffer_t) (xCount xTail : Z) : option (list Z * Z) :=
  let xFirstLength := Z.min (xLength x -u xTail) xCount in
  bs1 ← copy_out (bytes x) xTail xFirstLength;
  bs2 ← (if xFirstLength <? xCount then copy_out (bytes x) 0 (xCount - xFirstLength) else Some []);
  let xTail := xTail +u xCount in
  Some (bs1 ++ bs2, if xLength x <=? xTail then xTail -u xLength x else xTail).

(** The buffer afterwards and the number of bytes of [pvTxData] written. *)
Definition prvWriteMessageToBuffer (x : StreamBuffer_t) (pvTxData : list Z)
  (xDataLengthBytes xSpace xRequiredSpace : Z) : option (StreamBuffer_t * Z) :=
  '(x, xNextHead, len) ←
    (if is_message_buffer x then
       if xRequiredSpace <=? xSpace then
         '(x', h) ← prvWriteBytesToBuffer x (le_split 4 xDataLengthBytes) sbBYTES_TO_STORE_MESSAGE_LENGTH (xHead x);
         Some (x', h, xDataLengthBytes)
       else Some (x, xHead x, 0)
     else Some (x, xHead x, Z.min xDataLengthBytes xSpace));
  if negb (len =? 0) then
    '(x', h) ← prvWriteBytesToBuffer x pvTxData len xNextHead;
    Some (set_xHead h x', len)
  else Some (x, len).

(** The bytes copied to the reader and the buffer afterwards. *)
Definition prvReadMessageFromBuffer (x : StreamBuffer_t) (xBufferLengthBytes xBytesAvailable : Z)
  : option (list Z * StreamBuffer_t) :=
  '(xNextTail, xNextMessageLength, xBytesAvailable) ←
    (if is_message_buffer x then
       '(bs, t) ← prvReadBytesFromBuffer x sbBYTES_TO_STORE_MESSAGE_LENGTH (xTail x);
       let len := le_combine bs in
       Some (t, if xBufferLengthBytes <? len then 0 else len, xBytesAvailable -u sbBYTES_TO_STORE_MESSAGE_LENGTH)
     else Some (xTail x, xBufferLengthBytes, xBytesAvailable));
  let xCount := Z.min xNextMessageLength xBytesAvailable in
  if negb (xCount =? 0) then
    '(bs, t) ← prvReadBytesFromBuffer x xCount xNextTail;
    Some (bs, set_xTail t x)
  else Some ([], x).

(** The fields prvInitialiseNewStreamBuffer leaves; the memory of the buffer
    keeps its contents. *)
Definition prvInitialiseNewStreamBuffer (pucBuffer : Z) (contents : list Z)
  (xBufferSizeBytes xTriggerLevelBytes ucFlags : Z) : StreamBuffer_t :=
  mkStreamBuffer 0 0 xBufferSizeBytes xTriggerLevelBytes NULL NULL pucBuffer ucFlags 0 contents.

(** What xStreamBufferSend needs, and for how long it may wait. *)
Definition required_space (x : StreamBuffer_t) (xDataLengthBytes xTicksToWait : Z) : Z * Z :=
  let xMaxReportedSpace := xLength x -u 1 in
  if is_message_buffer x then
    let xRequiredSpace := xDataLengthBytes +u sbBYTES_TO_STORE_MESSAGE_LENGTH in
    (xRequiredSpace, if xMaxReportedSpace <? xRequiredSpace then 0 else xTicksToWait)
  else (if xMaxReportedSpace <? xDataLengthBytes then xMaxReportedSpace else xDataLengthBytes, xTicksToWait).

Definition length_bytes (x : StreamBuffer_t) : Z :=
  if is_message_buffer x then sbBYTES_TO_STORE_MESSAGE_LENGTH else 0.

Section StreamBuffers.
Context {H : Type} `{!ListOps item list_id H}.
Variables ucHeap xStart : Z.
Notation K := (Kernel H).

(** Replace a stream buffer by what a data operation makes of it. *)
Definition upd_stream {A} (b : Z) (f : StreamBuffer_t -> option (A * StreamBuffer_t)) : M K A :=
  x ← rd_stream b id;
  '(a, y) ← lift_opt (f x);
  wr_stream b (fun _ => y);;
  mret a.

(** ** Creation, reset and deletion *)

(** [mem] is what the memory held at each address. *)
Definition xStreamBufferGenericCreate (mem : Z -> Z) (xBufferSizeBytes xTriggerLevelBytes xIsMessageBuffer : Z)
  : prog K Z :=
  let ucFlags := if xIsMessageBuffer =? pdTRUE then sbFLAGS_IS_MESSAGE_BUFFER else 0 in
  let xTriggerLevelBytes := if xTriggerLevelBytes =? 0 then 1 else xTriggerLevelBytes in
  if xBufferSizeBytes <? xBufferSizeBytes +u 1 +u sizeof_StreamBuffer_t then
    let xBufferSizeBytes := xBufferSizeBytes +u 1 in
    p ← pvPortMalloc ucHeap xStart (xBufferSizeBytes +u sizeof_StreamBuffer_t);
    (if negb (p =? NULL) then
       let pucBuffer := p +u sizeof_StreamBuffer_t in
       atomic (wrv (fun v => set_stream_buffers (<[p := prvInitialiseNewStreamBuffer pucBuffer
         (mem <$> seqZ pucBuffer xBufferSizeBytes) xBufferSizeBytes xTriggerLevelBytes ucFlags]>
           (stream_buffers v)) v))
     else mret tt);;
    mret p
  else mret NULL.

Definition xStreamBufferReset (b : Z) : M K Z :=
  uxStreamBufferNumber ← rd_stream b uxStreamBufferNumber;
  r ← rd_stream b xTaskWaitingToReceive;
  s ← rd_stream b xTaskWaitingToSend;
  if (r =? NULL) && (s =? NULL) then
    wr_stream b (fun x => set_uxStreamBufferNumber uxStreamBufferNumber
      (prvInitialiseNewStreamBuffer (pucBuffer x) (bytes x) (xLength x) (xTriggerLevelBytes x) (ucFlags x)));;
    mret pdPASS
  else mret pdFAIL.

(** The memory stops being a stream buffer. *)
Definition forget_stream (b : Z) : M K unit :=
  wrv (fun v => set_stream_buffers (delete b (stream_buffers v)) v).

Definition vStreamBufferDelete (b : Z) : prog K unit :=
  flags ← atomic (rd_stream b ucFlags);
  if Z.land flags sbFLAGS_IS_STATICALLY_ALLOCATED =? pdFALSE then
    atomic (forget_stream b);; vPortFree xStart b
  else atomic (wr_stream b (fun _ => mkStreamBuffer 0 0 0 0 NULL NULL NULL 0 0 [])).

Definition xStreamBufferSetTriggerLevel (b xTriggerLevel : Z) : M K Z :=
  let xTriggerLevel := if xTriggerLevel =? 0 then 1 else xTriggerLevel in
  len ← rd_stream b xLength;
  if xTriggerLevel <? len then wr_stream b (set_xTriggerLevelBytes xTriggerLevel);; mret pdPASS
  else mret pdFALSE.

Definition xStreamBufferSpacesAvailable (b : Z) : M K Z := rd_stream b spaces_available.
Definition xStreamBufferBytesAvailable (b : Z) : M K Z := rd_stream b prvBytesInBuffer.

(** ** Waking the other side *)

(** The bodies of sbSEND_COMPLETED and sbRECEIVE_COMPLETED, which run with the
    scheduler suspended. *)
Definition notify_receiver (b : Z) : M K unit :=
  t ← rd_stream b xTaskWaitingToReceive;
  if negb (t =? NULL) then
    xTaskGenericNotify t 0 eNoAction;; wr_stream b (set_xTaskWaitingToReceive NULL)
  else mret tt.
Definition notify_sender (b : Z) : M K unit :=
  t ← rd_stream b xTaskWaitingToSend;
  if negb (t =? NULL) then
    xTaskGenericNotify t 0 eNoAction;; wr_stream b (set_xTaskWaitingToSend NULL)
  else mret tt.

Definition sbSEND_COMPLETED (b : Z) : prog K unit :=
  atomic vTaskSuspendAll;; atomic (notify_receiver b);; atomic xTaskResumeAll;; mret tt.
Definition sbRECEIVE_COMPLETED (b : Z) : prog K unit :=
  atomic vTaskSuspendAll;; atomic (notify_sender b);; atomic xTaskResumeAll;; mret tt.

(** From an interrupt: was a task waiting, and is [*pxHigherPriorityTaskWoken]
    set? *)
Definition sbSEND_COMPLETE_FROM_ISR (b : Z) : M K (bool * bool) :=
  t ← rd_stream b xTaskWaitingToReceive;
  if negb (t =? NULL) then
    '(_, _, woken) ← xTaskGenericNotifyFromISR t 0 eNoAction;
    wr_stream b (set_xTaskWaitingToReceive NULL);;
    mret (true, woken)
  else mret (false, false).
Definition sbRECEIVE_COMPLETED_FROM_ISR (b : Z) : M K (bool * bool) :=
  t ← rd_stream b xTaskWaitingToSend;
  if negb (t =? NULL) then
    '(_, _, woken) ← xTaskGenericNotifyFromISR t 0 eNoAction;
    wr_stream b (set_xTaskWaitingToSend NULL);;
    mret (true, woken)
  else mret (false, false).

Definition xStreamBufferSendCompletedFromISR (b : Z) : M K (Z * bool) :=
  '(waiting, woken) ← sbSEND_COMPLETE_FROM_ISR b;
  mret (if waiting : bool then pdTRUE else pdFALSE, woken).
Definition xStreamBufferReceiveCompletedFromISR (b : Z) : M K (Z * bool) :=
  '(waiting, woken) ← sbRECEIVE_COMPLETED_FROM_ISR b;
  mret (if waiting : bool then pdTRUE else pdFALSE, woken).

(** ** Sending *)

(** The critical section of the loop: register as waiting if there is too
    little room. *)
Definition send_check (b xRequiredSpace : Z) : M K (Z * bool) :=
  xSpace ← xStreamBufferSpacesAvailable b;
  if xSpace <? xRequiredSpace then
    xTaskGenericNotifyStateClear NULL;;
    cur ← xTaskGetCurrentTaskHandle;
    wr_stream b (set_xTaskWaitingToSend cur);;
    mret (xSpace, false)
  else mret (xSpace, true).

(** One round of the do-while loop: the locals are the time-out and the ticks
    left, the result is [xSpace]. *)
Definition send_wait_iter (b xRequiredSpace : Z) (l : TimeOut_t * Z) : prog K ((TimeOut_t * Z) + Z) :=
  '(xSpace, enough) ← atomic (send_check b xRequiredSpace);
  if enough : bool then mret (inr xSpace)
  else
    xTaskGenericNotifyWait 0 0 l.2;;
    atomic (wr_stream b (set_xTaskWaitingToSend NULL));;
    '(expired, xTimeOut, xTicksToWait) ← atomic (xTaskCheckForTimeOut l.1 l.2);
    mret (if expired =? pdFALSE then inl (xTimeOut, xTicksToWait) else inr xSpace).

(** What follows the wait. *)
Definition send_bytes (b : Z) (pvTxData : list Z) (xDataLengthBytes xSpace xRequiredSpace : Z) : prog K Z :=
  xSpace ← (if xSpace =? 0 then atomic (xStreamBufferSpacesAvailable b) else mret xSpace);
  xReturn ← atomic (upd_stream b (fun x =>
    '(y, n) ← prvWriteMessageToBuffer x pvTxData xDataLengthBytes xSpace xRequiredSpace; Some (n, y)));
  (if 0 <? xReturn then
     complete ← atomic (rd_stream b (fun x => xTriggerLevelBytes x <=? prvBytesInBuffer x));
     if complete : bool then sbSEND_COMPLETED b else mret tt
   else mret tt);;
  mret xReturn.

(** The result is the number of bytes sent, or the locals of the loop when [n]
    rounds were not enough. *)
Definition xStreamBufferSend (n : nat) (b : Z) (pvTxData : list Z) (xDataLengthBytes xTicksToWait : Z)
  : prog K ((TimeOut_t * Z) + Z) :=
  '(xRequiredSpace, xTicksToWait) ←
    atomic (rd_stream b (fun x => required_space x xDataLengthBytes xTicksToWait));
  w ← (if negb (xTicksToWait =? 0) then
         xTimeOut ← atomic vTaskSetTimeOutState;
         iterate n (send_wait_iter b xRequiredSpace) (xTimeOut, xTicksToWait)
       else mret (inr 0));
  match w with
  | inl l => mret (inl l)
  | inr xSpace => r ← send_bytes b pvTxData xDataLengthBytes xSpace xRequiredSpace; mret (inr r)
  end.

Definition xStreamBufferSendFromISR (b : Z) (pvTxData : list Z) (xDataLengthBytes : Z) : M K (Z * bool) :=
  xRequiredSpace ← rd_stream b (fun x =>
    if is_message_buffer x then xDataLengthBytes +u sbBYTES_TO_STORE_MESSAGE_LENGTH else xDataLengthBytes);
  xSpace ← xStreamBufferSpacesAvailable b;
  xReturn ← upd_stream b (fun x =>
    '(y, n) ← prvWriteMessageToBuffer x pvTxData xDataLengthBytes xSpace xRequiredSpace; Some (n, y));
  complete ← rd_stream b (fun x => xTriggerLevelBytes x <=? prvBytesInBuffer x);
  if (0 <? xReturn) && complete then
    '(_, woken) ← sbSEND_COMPLETE_FROM_ISR b;
    mret (xReturn, woken)
  else mret (xReturn, false).

(** ** Receiving *)

(** The critical section: register as waiting if there is nothing to read. *)
Definition receive_check (b xBytesToStoreMessageLength : Z) : M K Z :=
  xBytesAvailable ← xStreamBufferBytesAvailable b;
  (if xBytesAvailable <=? xBytesToStoreMessageLength then
     xTaskGenericNotifyStateClear NULL;;
     cur ← xTaskGetCurrentTaskHandle;
     wr_stream b (set_xTaskWaitingToReceive cur)
   else mret tt);;
  mret xBytesAvailable.

(** What follows the wait. *)
Definition receive_bytes (b xBufferLengthBytes xBytesAvailable xBytesToStoreMessageLength : Z) : prog K (list Z) :=
  if xBytesToStoreMessageLength <? xBytesAvailable then
    bs ← atomic (upd_stream b (fun x => prvReadMessageFromBuffer x xBufferLengthBytes xBytesAvailable));
    (if negb (Z.of_nat (length bs) =? 0) then sbRECEIVE_COMPLETED b else mret tt);;
    mret bs
  else mret [].

(** The result is the bytes written to [pvRxData]; their number is the return
    value. *)
Definition xStreamBufferReceive (b xBufferLengthBytes xTicksToWait : Z) : prog K (list Z) :=
  xBytesToStoreMessageLength ← atomic (rd_stream b length_bytes);
  xBytesAvailable ←
    (if negb (xTicksToWait =? 0) then
       xBytesAvailable ← atomic (receive_check b xBytesToStoreMessageLength);
       if xBytesAvailable <=? xBytesToStoreMessageLength then
         xTaskGenericNotifyWait 0 0 xTicksToWait;;
         atomic (wr_stream b (set_xTaskWaitingToReceive NULL));;
         atomic (xStreamBufferBytesAvailable b)
       else mret xBytesAvailable
     else atomic (xStreamBufferBytesAvailable b));
  receive_bytes b xBufferLengthBytes xBytesAvailable xBytesToStoreMessageLength.

Definition xStreamBufferReceiveFromISR (b xBufferLengthBytes : Z) : M K (list Z * bool) :=
  xBytesToStoreMessageLength ← rd_stream b length_bytes;
  xBytesAvailable ← xStreamBufferBytesAvailable b;
  if xBytesToStoreMessageLength <? xBytesAvailable then
    bs ← upd_stream b (fun x => prvReadMessageFromBuffer x xBufferLengthBytes xBytesAvailable);
    if negb (Z.of_nat (length bs) =? 0) then
      '(_, woken) ← sbRECEIVE_COMPLETED_FROM_ISR b;
      mret (bs, woken)
    else mret (bs, false)
  else mret ([], false).

(** The length of the next message, if there is one. *)
Definition next_message_length (x : StreamBuffer_t) : option Z :=
  if is_message_buffer x then
    if sbBYTES_TO_STORE_MESSAGE_LENGTH <? prvBytesInBuffer x then
      '(bs, _) ← prvReadBytesFromBuffer x sbBYTES_TO_STORE_MESSAGE_LENGTH (xTail x);
      Some (le_combine bs)
    else Some 0
  else Some 0.
Definition xStreamBufferNextMessageLengthBytes (b : Z) : M K Z :=
  x ← rd_stream b id; lift_opt (next_message_length x).

(** ** Queries *)

Definition xStreamBufferIsEmpty (b : Z) : M K Z :=
  rd_stream b (fun x => if xHead x =? xTail x then pdTRUE else pdFALSE).
Definition xStreamBufferIsFull (b : Z) : M K Z :=
  rd_stream b (fun x => if spaces_available x <=? length_bytes x then pdTRUE else pdFALSE).
Definition uxStreamBufferGetStreamBufferNumber (b : Z) : M K Z := rd_stream b uxStreamBufferNumber.
Definition vStreamBufferSetStreamBufferNumber (b n : Z) : M K unit := wr_stream b (set_uxStreamBufferNumber n).
Definition ucStreamBufferGetStreamBufferType (b : Z) : M K Z :=
  rd_stream b (fun x => Z.land (ucFlags x) sbFLAGS_IS_MESSAGE_BUFFER).

End StreamBuffers.
