(* ===== verification/Timers.v ===== *)
(** * timers.c: software timers

    The API functions put commands into the timer queue; the timer task takes
    them out and keeps the active timers in two lists sorted by expiry time,
    one for the times before and one for those after the next wrap of the
    tick count.  The conventions are those of [Tasks] and [Queue]: a function
    of the timer task that can be preempted or that calls the application is
    a [prog], and [n] bounds the rounds of a loop.

    [application f a b] is the code behind the function pointer [f], called
    with arguments [a] and [b] (a timer callback takes only the first).  Each
    such call is noted in [callbacks]. *)

From S2P Require Import Prelude Config ListC ListSpec Heap4 Kernel Tasks TaskApi TaskEvents Queue EventGroups Bytes.

Definition tmrNO_DELAY : Z := 0.
Definition tmrMAX_TIME_BEFORE_OVERFLOW : Z := 4294967295.
Definition tmrSTATUS_IS_ACTIVE : Z := 1.
Definition tmrSTATUS_IS_STATICALLY_ALLOCATED : Z := 2.
Definition tmrSTATUS_IS_AUTORELOAD : Z := 4.
Definition tmrCOMMAND_EXECUTE_CALLBACK_FROM_ISR : Z := -2.
Definition tmrCOMMAND_EXECUTE_CALLBACK : Z := -1.
Definition tmrCOMMAND_START : Z := 1.
Definition tmrCOMMAND_RESET : Z := 2.
Definition tmrCOMMAND_STOP : Z := 3.
Definition tmrCOMMAND_CHANGE_PERIOD : Z := 4.
Definition tmrCOMMAND_DELETE : Z := 5.
Definition tmrFIRST_FROM_ISR_COMMAND : Z := 6.
Definition tmrCOMMAND_START_FROM_ISR : Z := 6.
Definition tmrCOMMAND_RESET_FROM_ISR : Z := 7.
Definition tmrCOMMAND_STOP_FROM_ISR : Z := 8.
Definition tmrCOMMAND_CHANGE_PERIOD_FROM_ISR : Z := 9.
Definition sizeof_Timer_t : Z := 44.
Definition sizeof_DaemonTaskMessage_t : Z := 16.
Definition configTIMER_TASK_STACK_DEPTH : Z := 110.
Definition configMINIMAL_STACK_SIZE : Z := 15360.

(** "Tmr Svc" and "IDLE" *)
Definition configTIMER_SERVICE_TASK_NAME : list Z := [84; 109; 114; 32; 83; 118; 99; 0].
Definition configIDLE_TASK_NAME : list Z := [73; 68; 76; 69; 0].

(** ** Messages

    The words of a [DaemonTaskMessage_t]: in a command, [m_word1] is
    [xMessageValue] and [m_word2] is [pxTimer]; in a call to make, they are
    [pxCallbackFunction], [pvParameter1] and [ulParameter2]. *)

Record DaemonTaskMessage_t := mkMessage {
  xMessageID : Z;
  m_word1 : Z;
  m_word2 : Z;
  m_word3 : Z
}.

(** A message as the bytes xQueueGenericSend copies, and back. *)
Definition message_bytes (m : DaemonTaskMessage_t) : list Z :=
  le_split 4 (xMessageID m) ++ le_split 4 (m_word1 m) ++ le_split 4 (m_word2 m) ++ le_split 4 (m_word3 m).
Definition message_of (bs : list Z) : DaemonTaskMessage_t :=
  mkMessage (i32 (le_combine (take 4 bs))) (le_combine (take 4 (drop 4 bs)))
    (le_combine (take 4 (drop 8 bs))) (le_combine (take 4 (drop 12 bs))).

Definition set_flag (flag : Z) (x : Timer_t) : Timer_t := set_ucStatus (Z.lor (ucStatus x) flag) x.
Definition clear_flag (flag : Z) (x : Timer_t) : Timer_t := set_ucStatus (Z.land (ucStatus x) (Z.lnot flag)) x.

Section Timers.
Context {H : Type} `{!ListOps item list_id H}.
Variables ucHeap xStart : Z.
Notation K := (Kernel H).

(** The addresses of the string "TmrQ" and of two functions of event_groups.c
    that can be pended, and the application's code. *)
Variables TmrQ addr_vEventGroupSetBitsCallback addr_vEventGroupClearBitsCallback : Z.
Variable application : Z -> Z -> Z -> prog K unit.

Definition call (f a b : Z) : prog K unit :=
  atomic (wrv (fun v => set_callbacks (callbacks v ++ [(f, a, b)]) v));;
  if f =? addr_vEventGroupSetBitsCallback then vEventGroupSetBitsCallback a b
  else if f =? addr_vEventGroupClearBitsCallback then vEventGroupClearBitsCallback a b
  else application f a b.

(** ** Creation *)

(** One critical section: the queue is created, and the lists are initialised,
    when the first timer or the timer task needs them. *)
Definition prvCheckForValidListAndQueue (junk : Z) (mem : Z -> Z) : M K unit :=
  q ← rdt xTimerQueue;
  if q =? NULL then
    onlist (loInitialise xActiveTimerList1);;
    onlist (loInitialise xActiveTimerList2);;
    wrt (set_pxCurrentTimerList xActiveTimerList1);;
    wrt (set_pxOverflowTimerList xActiveTimerList2);;
    q ← run (xQueueGenericCreate ucHeap xStart junk mem configTIMER_QUEUE_LENGTH sizeof_DaemonTaskMessage_t 0);
    wrt (set_xTimerQueue q);;
    (if negb (q =? NULL) then vQueueAddToRegistry q TmrQ else mret tt)
  else mret tt.

Definition xTimerCreateTimerTask (junk : Z) (mem : Z -> Z) : prog K Z :=
  atomic (prvCheckForValidListAndQueue junk mem);;
  q ← atomic (rdt xTimerQueue);
  if negb (q =? NULL) then
    '(xReturn, handle) ← xTaskCreate ucHeap xStart junk (Some configTIMER_SERVICE_TASK_NAME)
                           configTIMER_TASK_STACK_DEPTH configTIMER_TASK_PRIORITY;
    (if xReturn =? pdPASS then atomic (wrt (set_xTimerTaskHandle handle)) else mret tt);;
    mret xReturn
  else mret pdFAIL.

(** The memory at [pxNewTimer] becomes a timer with status [status]; [junk] is
    what the number for trace tools held. *)
Definition prvInitialiseNewTimer (junk : Z) (mem : Z -> Z)
  (pcTimerName xTimerPeriodInTicks uxAutoReload pvTimerID pxCallbackFunction pxNewTimer status : Z) : prog K unit :=
  atomic (prvCheckForValidListAndQueue junk mem);;
  atomic (
    let ucStatus := if negb (uxAutoReload =? pdFALSE) then Z.lor status tmrSTATUS_IS_AUTORELOAD else status in
    wrt (fun v => set_timers (<[pxNewTimer := mkTimer pcTimerName xTimerPeriodInTicks pvTimerID pxCallbackFunction
                                               junk ucStatus]> (timers v)) v);;
    onlist (loAllocItem (TimerItem pxNewTimer));;
    onlist (loInitialiseItem (TimerItem pxNewTimer))).

Definition xTimerCreate (junk : Z) (mem : Z -> Z)
  (pcTimerName xTimerPeriodInTicks uxAutoReload pvTimerID pxCallbackFunction : Z) : prog K Z :=
  pxNewTimer ← pvPortMalloc ucHeap xStart sizeof_Timer_t;
  (if negb (pxNewTimer =? NULL) then
     prvInitialiseNewTimer junk mem pcTimerName xTimerPeriodInTicks uxAutoReload pvTimerID pxCallbackFunction
       pxNewTimer 0
   else mret tt);;
  mret pxNewTimer.

(** ** Commands *)

(** The result is the return value and whether [*pxHigherPriorityTaskWoken] is
    set, or the locals of the send when [n] rounds were not enough.  [junk] is
    what the third word of the message held. *)
Definition xTimerGenericCommand (n : nat) (junk xTimer xCommandID xOptionalValue xTicksToWait : Z)
  : prog K (q_locals + (Z * bool)) :=
  q ← atomic (rdt xTimerQueue);
  if negb (q =? NULL) then
    let xMessage := message_bytes (mkMessage xCommandID xOptionalValue xTimer junk) in
    if xCommandID <? tmrFIRST_FROM_ISR_COMMAND then
      st ← atomic xTaskGetSchedulerState;
      r ← xQueueGenericSend n q xMessage
            (if st =? taskSCHEDULER_RUNNING then xTicksToWait else tmrNO_DELAY) queueSEND_TO_BACK;
      mret (match r with inl l => inl l | inr x => inr (x, false) end)
    else
      r ← atomic (xQueueGenericSendFromISR q xMessage queueSEND_TO_BACK);
      mret (inr r)
  else mret (inr (pdFAIL, false)).

Definition xTimerStart (n : nat) (junk xTimer xTicksToWait : Z) : prog K (q_locals + (Z * bool)) :=
  t ← atomic xTaskGetTickCount;
  xTimerGenericCommand n junk xTimer tmrCOMMAND_START t xTicksToWait.
Definition xTimerReset (n : nat) (junk xTimer xTicksToWait : Z) : prog K (q_locals + (Z * bool)) :=
  t ← atomic xTaskGetTickCount;
  xTimerGenericCommand n junk xTimer tmrCOMMAND_RESET t xTicksToWait.
Definition xTimerStop (n : nat) (junk xTimer xTicksToWait : Z) : prog K (q_locals + (Z * bool)) :=
  xTimerGenericCommand n junk xTimer tmrCOMMAND_STOP 0 xTicksToWait.
Definition xTimerChangePeriod (n : nat) (junk xTimer xNewPeriod xTicksToWait : Z) : prog K (q_locals + (Z * bool)) :=
  xTimerGenericCommand n junk xTimer tmrCOMMAND_CHANGE_PERIOD xNewPeriod xTicksToWait.
Definition xTimerDelete (n : nat) (junk xTimer xTicksToWait : Z) : prog K (q_locals + (Z * bool)) :=
  xTimerGenericCommand n junk xTimer tmrCOMMAND_DELETE 0 xTicksToWait.
Definition xTimerStartFromISR (junk xTimer : Z) : prog K (q_locals + (Z * bool)) :=
  t ← atomic xTaskGetTickCountFromISR;
  xTimerGenericCommand 0 junk xTimer tmrCOMMAND_START_FROM_ISR t 0.
Definition xTimerResetFromISR (junk xTimer : Z) : prog K (q_locals + (Z * bool)) :=
  t ← atomic xTaskGetTickCountFromISR;
  xTimerGenericCommand 0 junk xTimer tmrCOMMAND_RESET_FROM_ISR t 0.
Definition xTimerStopFromISR (junk xTimer : Z) : prog K (q_locals + (Z * bool)) :=
  xTimerGenericCommand 0 junk xTimer tmrCOMMAND_STOP_FROM_ISR 0 0.
Definition xTimerChangePeriodFromISR (junk xTimer xNewPeriod : Z) : prog K (q_locals + (Z * bool)) :=
  xTimerGenericCommand 0 junk xTimer tmrCOMMAND_CHANGE_PERIOD_FROM_ISR xNewPeriod 0.

Definition xTimerPendFunctionCall (n : nat) (xFunctionToPend pvParameter1 ulParameter2 xTicksToWait : Z)
  : prog K (q_locals + Z) :=
  q ← atomic (rdt xTimerQueue);
  xQueueGenericSend n q
    (message_bytes (mkMessage tmrCOMMAND_EXECUTE_CALLBACK xFunctionToPend pvParameter1 ulParameter2))
    xTicksToWait queueSEND_TO_BACK.

Definition xTimerPendFunctionCallFromISR (xFunctionToPend pvParameter1 ulParameter2 : Z) : M K (Z * bool) :=
  q ← rdt xTimerQueue;
  xQueueGenericSendFromISR q
    (message_bytes (mkMessage tmrCOMMAND_EXECUTE_CALLBACK_FROM_ISR xFunctionToPend pvParameter1 ulParameter2))
    queueSEND_TO_BACK.

(** event_groups.c: an interrupt leaves the work to the timer task. *)
Definition xEventGroupSetBitsFromISR (e uxBitsToSet : Z) : M K (Z * bool) :=
  xTimerPendFunctionCallFromISR addr_vEventGroupSetBitsCallback e uxBitsToSet.
Definition xEventGroupClearBitsFromISR (e uxBitsToClear : Z) : M K Z :=
  '(r, _) ← xTimerPendFunctionCallFromISR addr_vEventGroupClearBitsCallback e uxBitsToClear;
  mret r.

(** ** The timer task *)

Definition prvInsertTimerInActiveList (pxTimer xNextExpiryTime xTimeNow xCommandTime : Z) : M K Z :=
  onlist (loSetValue (TimerItem pxTimer) xNextExpiryTime);;
  onlist (loSetOwner (TimerItem pxTimer) pxTimer);;
  if xNextExpiryTime <=? xTimeNow then
    period ← rd_timer pxTimer xTimerPeriodInTicks;
    if period <=? xTimeNow -u xCommandTime then mret pdTRUE
    else
      l ← rdt pxOverflowTimerList;
      onlist (loInsert l (TimerItem pxTimer));;
      mret pdFALSE
  else if (xTimeNow <? xCommandTime) && (xCommandTime <=? xNextExpiryTime) then mret pdTRUE
  else
    l ← rdt pxCurrentTimerList;
    onlist (loInsert l (TimerItem pxTimer));;
    mret pdFALSE.

(** [fuel] bounds the number of periods that are caught up with. *)
Fixpoint prvReloadTimer (fuel : nat) (pxTimer xExpiredTime xTimeNow : Z) : prog K unit :=
  r ← atomic (period ← rd_timer pxTimer xTimerPeriodInTicks;
              prvInsertTimerInActiveList pxTimer (xExpiredTime +u period) xTimeNow xExpiredTime);
  if negb (r =? pdFALSE) then
    match fuel with
    | O => atomic fault
    | S fuel' =>
        period ← atomic (rd_timer pxTimer xTimerPeriodInTicks);
        f ← atomic (rd_timer pxTimer pxCallbackFunction);
        call f pxTimer 0;;
        prvReloadTimer fuel' pxTimer (xExpiredTime +u period) xTimeNow
    end
  else mret tt.

(** The first statements of prvProcessExpiredTimer. *)
Definition take_expired : M K Z :=
  l ← rdt pxCurrentTimerList;
  pxTimer ← onlist (loHeadOwner l);
  onlist (loRemove (TimerItem pxTimer));;
  mret pxTimer.

(** Restart a timer that has expired, or mark it as stopped, and call its
    function. *)
Definition reload_and_call (n : nat) (pxTimer xExpiredTime xTimeNow : Z) : prog K unit :=
  status ← atomic (rd_timer pxTimer ucStatus);
  (if negb (Z.land status tmrSTATUS_IS_AUTORELOAD =? 0)
   then prvReloadTimer n pxTimer xExpiredTime xTimeNow
   else atomic (wr_timer pxTimer (clear_flag tmrSTATUS_IS_ACTIVE)));;
  f ← atomic (rd_timer pxTimer pxCallbackFunction);
  call f pxTimer 0.

Definition prvProcessExpiredTimer (n : nat) (xNextExpireTime xTimeNow : Z) : prog K unit :=
  pxTimer ← atomic take_expired;
  reload_and_call n pxTimer xNextExpireTime xTimeNow.

(** The [while] loop of prvSwitchTimerLists. *)
Fixpoint expire_all_loop (fuel n : nat) : prog K unit :=
  next ← atomic (l ← rdt pxCurrentTimerList;
                 e ← listIS_EMPTY l;
                 if e : bool then mret None else v ← onlist (loHeadValue l); mret (Some v));
  match next with
  | None => mret tt
  | Some xNextExpireTime =>
      match fuel with
      | O => atomic fault
      | S fuel' =>
          prvProcessExpiredTimer n xNextExpireTime tmrMAX_TIME_BEFORE_OVERFLOW;;
          expire_all_loop fuel' n
      end
  end.

Definition prvSwitchTimerLists (n : nat) : prog K unit :=
  len ← atomic (l ← rdt pxCurrentTimerList; onlist (loLength l));
  expire_all_loop (Z.to_nat len) n;;
  atomic (wrt (fun v => set_pxOverflowTimerList (pxCurrentTimerList v)
                          (set_pxCurrentTimerList (pxOverflowTimerList v) v))).

(** The result is the time and what is written to
    [*pxTimerListsWereSwitched]. *)
Definition prvSampleTimeNow (n : nat) : prog K (Z * Z) :=
  xTimeNow ← atomic xTaskGetTickCount;
  last ← atomic (rdt xLastTime);
  switched ← (if xTimeNow <? last then prvSwitchTimerLists n;; mret pdTRUE else mret pdFALSE);
  atomic (wrt (set_xLastTime xTimeNow));;
  mret (xTimeNow, switched).

(** The result is the time and what is written to [*pxListWasEmpty]. *)
Definition prvGetNextExpireTime : M K (Z * Z) :=
  l ← rdt pxCurrentTimerList;
  e ← listIS_EMPTY l;
  if e : bool then mret (0, pdTRUE) else v ← onlist (loHeadValue l); mret (v, pdFALSE).

Definition prvProcessTimerOrBlockTask (n : nat) (xNextExpireTime xListWasEmpty : Z) : prog K unit :=
  atomic vTaskSuspendAll;;
  '(xTimeNow, xTimerListsWereSwitched) ← prvSampleTimeNow n;
  if xTimerListsWereSwitched =? pdFALSE then
    if (xListWasEmpty =? pdFALSE) && (xNextExpireTime <=? xTimeNow) then
      atomic xTaskResumeAll;;
      prvProcessExpiredTimer n xNextExpireTime xTimeNow
    else
      xListWasEmpty ←
        (if negb (xListWasEmpty =? pdFALSE)
         then atomic (l ← rdt pxOverflowTimerList; e ← listIS_EMPTY l;
                      mret (if e : bool then pdTRUE else pdFALSE))
         else mret xListWasEmpty);
      q ← atomic (rdt xTimerQueue);
      vQueueWaitForMessageRestricted q (xNextExpireTime -u xTimeNow) xListWasEmpty;;
      resume_and_yield
  else atomic xTaskResumeAll;; mret tt.

(** The memory of a timer stops being one. *)
Definition forget_timer (pxTimer : Z) : M K unit :=
  onlist (loFreeItem (TimerItem pxTimer));;
  wrt (fun v => set_timers (delete pxTimer (timers v)) v).

(** A timer that is in a list is taken out of it. *)
Definition unlink_timer (pxTimer : Z) : M K unit :=
  c ← onlist (loContainer (TimerItem pxTimer));
  match c with
  | Some _ => listREMOVE (TimerItem pxTimer)
  | None => mret tt
  end.

Definition is_start (id : Z) : bool :=
  (id =? tmrCOMMAND_START) || (id =? tmrCOMMAND_START_FROM_ISR) ||
  (id =? tmrCOMMAND_RESET) || (id =? tmrCOMMAND_RESET_FROM_ISR).

(** The case of the switch for the commands that start a timer. *)
Definition start_timer (n : nat) (pxTimer xMessageValue xTimeNow : Z) : prog K unit :=
  atomic (wr_timer pxTimer (set_flag tmrSTATUS_IS_ACTIVE));;
  r ← atomic (period ← rd_timer pxTimer xTimerPeriodInTicks;
              prvInsertTimerInActiveList pxTimer (xMessageValue +u period) xTimeNow xMessageValue);
  if negb (r =? pdFALSE) then
    period ← atomic (rd_timer pxTimer xTimerPeriodInTicks);
    reload_and_call n pxTimer (xMessageValue +u period) xTimeNow
  else mret tt.

Definition change_period (pxTimer xMessageValue xTimeNow : Z) : M K unit :=
  wr_timer pxTimer (set_flag tmrSTATUS_IS_ACTIVE);;
  wr_timer pxTimer (set_xTimerPeriodInTicks xMessageValue);;
  prvInsertTimerInActiveList pxTimer (xTimeNow +u xMessageValue) xTimeNow xTimeNow;;
  mret tt.

Definition delete_timer (pxTimer : Z) : prog K unit :=
  status ← atomic (rd_timer pxTimer ucStatus);
  if Z.land status tmrSTATUS_IS_STATICALLY_ALLOCATED =? 0 then
    atomic (forget_timer pxTimer);; vPortFree xStart pxTimer
  else atomic (wr_timer pxTimer (clear_flag tmrSTATUS_IS_ACTIVE)).

Definition process_command (n : nat) (id xMessageValue pxTimer : Z) : prog K unit :=
  atomic (unlink_timer pxTimer);;
  '(xTimeNow, _) ← prvSampleTimeNow n;
  if is_start id then start_timer n pxTimer xMessageValue xTimeNow
  else if (id =? tmrCOMMAND_STOP) || (id =? tmrCOMMAND_STOP_FROM_ISR) then
    atomic (wr_timer pxTimer (clear_flag tmrSTATUS_IS_ACTIVE))
  else if (id =? tmrCOMMAND_CHANGE_PERIOD) || (id =? tmrCOMMAND_CHANGE_PERIOD_FROM_ISR) then
    atomic (change_period pxTimer xMessageValue xTimeNow)
  else if id =? tmrCOMMAND_DELETE then delete_timer pxTimer
  else mret tt.

(** One round of the loop over the commands in the queue.  A receive without
    a wait takes one round. *)
Definition prvProcessReceivedCommands_iter (n : nat) (_ : unit) : prog K (unit + unit) :=
  q ← atomic (rdt xTimerQueue);
  r ← xQueueReceive 1 q tmrNO_DELAY;
  match r with
  | inl _ => atomic fault
  | inr (ok, item) =>
      if negb (ok =? pdFAIL) then
        let m := message_of item in
        (if xMessageID m <? 0 then call (m_word1 m) (m_word2 m) (m_word3 m)
         else process_command n (xMessageID m) (m_word1 m) (m_word2 m));;
        mret (inl tt)
      else mret (inr tt)
  end.

Definition prvProcessReceivedCommands (n : nat) : prog K (unit + unit) :=
  iterate n (prvProcessReceivedCommands_iter n) tt.

(** One round of the timer task. *)
Definition prvTimerTask_round (n : nat) : prog K (unit + unit) :=
  '(xNextExpireTime, xListWasEmpty) ← atomic prvGetNextExpireTime;
  prvProcessTimerOrBlockTask n xNextExpireTime xListWasEmpty;;
  prvProcessReceivedCommands n.

(** ** Queries *)

Definition xTimerGetTimerDaemonTaskHandle : M K Z := rdt xTimerTaskHandle.
Definition xTimerGetPeriod (xTimer : Z) : M K Z := rd_timer xTimer xTimerPeriodInTicks.
Definition vTimerSetReloadMode (xTimer uxAutoReload : Z) : M K unit :=
  if negb (uxAutoReload =? pdFALSE) then wr_timer xTimer (set_flag tmrSTATUS_IS_AUTORELOAD)
  else wr_timer xTimer (clear_flag tmrSTATUS_IS_AUTORELOAD).
Definition uxTimerGetReloadMode (xTimer : Z) : M K Z :=
  status ← rd_timer xTimer ucStatus;
  mret (if Z.land status tmrSTATUS_IS_AUTORELOAD =? 0 then pdFALSE else pdTRUE).
Definition xTimerGetExpiryTime (xTimer : Z) : M K Z := onlist (loGetValue (TimerItem xTimer)).
Definition pcTimerGetName (xTimer : Z) : M K Z := rd_timer xTimer pcTimerName.
Definition xTimerIsTimerActive (xTimer : Z) : M K Z :=
  status ← rd_timer xTimer ucStatus;
  mret (if Z.land status tmrSTATUS_IS_ACTIVE =? 0 then pdFALSE else pdTRUE).
Definition pvTimerGetTimerID (xTimer : Z) : M K Z := rd_timer xTimer pvTimerID.
Definition vTimerSetTimerID (xTimer pvNewID : Z) : M K unit := wr_timer xTimer (set_pvTimerID pvNewID).
Definition uxTimerGetTimerNumber (xTimer : Z) : M K Z := rd_timer xTimer uxTimerNumber.
Definition vTimerSetTimerNumber (xTimer n : Z) : M K unit := wr_timer xTimer (set_uxTimerNumber n).

(** ** tasks.c: starting the kernel

    xPortStartScheduler sets up the hardware timer and jumps into the first
    task: what it does to registers and devices is not modelled. *)

Definition vTaskStartScheduler (junk : Z) (mem : Z -> Z) : prog K unit :=
  '(xReturn, handle) ← xTaskCreate ucHeap xStart junk (Some configIDLE_TASK_NAME) configMINIMAL_STACK_SIZE 0;
  (if xReturn =? pdPASS then atomic (wrv (set_xIdleTaskHandle handle)) else mret tt);;
  xReturn ← (if xReturn =? pdPASS then xTimerCreateTimerTask junk mem else mret xReturn);
  if xReturn =? pdPASS then
    atomic (wrv (set_mstatusMIE 0));;
    atomic (wrv (set_xNextTaskUnblockTime portMAX_DELAY);;
            wrv (set_xSchedulerRunning pdTRUE);;
            wrv (set_xTickCount 0))
  else mret tt.

End Timers.
