(* ===== verification/Riscv.v ===== *)
(** * The processor the port runs on

    One RV32 hart in machine mode, as far as the port of the kernel uses it:
    the integer registers, the control and status registers of machine mode,
    word-wide memory, and the memory-mapped clock of the CLINT.  A load or
    store that is misaligned or outside the memory faults.  The clock is
    given by the values [mtime] that successive reads find. *)

From S2P Require Import Prelude Config.

Record cpu := mkCpu {
  xreg : Z -> Z;
  pc : Z;
  mstatus : Z;
  mepc : Z;
  mcause : Z;
  mtvec : Z;
  mie : Z;
  mem : gmap Z Z;
  reads : nat;          (** how often the clock has been read *)
  mtimecmp : list Z     (** the values of the compare register, latest first *)
}.

Definition set_xreg f c := mkCpu f (pc c) (mstatus c) (mepc c) (mcause c) (mtvec c) (mie c) (mem c) (reads c) (mtimecmp c).
Definition set_pc z c := mkCpu (xreg c) z (mstatus c) (mepc c) (mcause c) (mtvec c) (mie c) (mem c) (reads c) (mtimecmp c).
Definition set_mstatus z c := mkCpu (xreg c) (pc c) z (mepc c) (mcause c) (mtvec c) (mie c) (mem c) (reads c) (mtimecmp c).
Definition set_mepc z c := mkCpu (xreg c) (pc c) (mstatus c) z (mcause c) (mtvec c) (mie c) (mem c) (reads c) (mtimecmp c).
Definition set_mcause z c := mkCpu (xreg c) (pc c) (mstatus c) (mepc c) z (mtvec c) (mie c) (mem c) (reads c) (mtimecmp c).
Definition set_mtvec z c := mkCpu (xreg c) (pc c) (mstatus c) (mepc c) (mcause c) z (mie c) (mem c) (reads c) (mtimecmp c).
Definition set_mie z c := mkCpu (xreg c) (pc c) (mstatus c) (mepc c) (mcause c) (mtvec c) z (mem c) (reads c) (mtimecmp c).
Definition set_mem m c := mkCpu (xreg c) (pc c) (mstatus c) (mepc c) (mcause c) (mtvec c) (mie c) m (reads c) (mtimecmp c).
Definition set_reads n c := mkCpu (xreg c) (pc c) (mstatus c) (mepc c) (mcause c) (mtvec c) (mie c) (mem c) n (mtimecmp c).
Definition set_mtimecmp l c := mkCpu (xreg c) (pc c) (mstatus c) (mepc c) (mcause c) (mtvec c) (mie c) (mem c) (reads c) l.

(** ** Registers *)

Notation zero := 0 (only parsing).
Definition ra : Z := 1.
Definition sp : Z := 2.
Definition gp : Z := 3.
Definition tp : Z := 4.
Definition t0 : Z := 5.
Definition t1 : Z := 6.
Definition t2 : Z := 7.
Definition a0 : Z := 10.
Definition a1 : Z := 11.
Definition a2 : Z := 12.
Definition t3 : Z := 28.
Definition t4 : Z := 29.
Definition t5 : Z := 30.
Definition t6 : Z := 31.

Definition get_x (r : Z) (c : cpu) : Z := if r =? 0 then 0 else xreg c r.
Definition rd_x (r : Z) : M cpu Z := gets (get_x r).
Definition wr_x (r v : Z) : M cpu unit :=
  modify (fun c => if r =? 0 then c else set_xreg (fun r' => if r' =? r then v else xreg c r') c).

(** ** The status register *)

Definition MSTATUS_MIE : Z := 8.
Definition MSTATUS_MPIE : Z := 128.
Definition MSTATUS_MPP : Z := 6144.

Definition b2z (b : bool) (mask : Z) : Z := if b then mask else 0.
Definition has_bits (v mask : Z) : bool := negb (Z.land v mask =? 0).

Section Clint.
(** The addresses of the clock and of this hart's compare register, the clock's
    value at each read, and the mode MPP names after a return from a trap: user
    mode if there is one, else machine mode. *)
Variables MTIME MTIMECMP : Z.
Variable mtime : nat -> Z.
Variable lowest_mode : Z.

(** ** Loads and stores of words *)

Definition load_word (a : Z) : M cpu Z := fun c =>
  if a =? MTIME then Some (mtime (reads c) mod 2 ^ 32, set_reads (S (reads c)) c)
  else if a =? MTIME + 4 then Some (mtime (reads c) / 2 ^ 32, set_reads (S (reads c)) c)
  else if a mod 4 =? 0 then v ← mem c !! a; Some (v, c) else None.

(** A store to half of the compare register leaves the other half. *)
Definition set_low (v w : Z) : Z := w / 2 ^ 32 * 2 ^ 32 + v.
Definition set_high (v w : Z) : Z := v * 2 ^ 32 + w mod 2 ^ 32.
Definition store_word (a v : Z) : M cpu unit := fun c =>
  if a =? MTIMECMP then Some (tt, set_mtimecmp (set_low v (hd 0 (mtimecmp c)) :: mtimecmp c) c)
  else if a =? MTIMECMP + 4 then Some (tt, set_mtimecmp (set_high v (hd 0 (mtimecmp c)) :: mtimecmp c) c)
  else if (a mod 4 =? 0) && bool_decide (is_Some (mem c !! a)) then Some (tt, set_mem (<[a := v]> (mem c)) c)
  else None.

(** ** Instructions *)

Definition li (rd v : Z) : M cpu unit := wr_x rd (u32 v).
Definition addi (rd rs imm : Z) : M cpu unit := v ← rd_x rs; wr_x rd (v +u imm).
Definition andi (rd rs imm : Z) : M cpu unit := v ← rd_x rs; wr_x rd (Z.land v (u32 imm)).
Definition slli (rd rs sh : Z) : M cpu unit := v ← rd_x rs; wr_x rd (u32 (Z.shiftl v sh)).
Definition srli (rd rs sh : Z) : M cpu unit := v ← rd_x rs; wr_x rd (Z.shiftr v sh).
Definition add (rd rs rs2 : Z) : M cpu unit := v ← rd_x rs; w ← rd_x rs2; wr_x rd (v +u w).
Definition or (rd rs rs2 : Z) : M cpu unit := v ← rd_x rs; w ← rd_x rs2; wr_x rd (Z.lor v w).
Definition sltu (rd rs rs2 : Z) : M cpu unit := v ← rd_x rs; w ← rd_x rs2; wr_x rd (if v <? w then 1 else 0).
Definition lw (rd off rs : Z) : M cpu unit := b ← rd_x rs; v ← load_word (b +u off); wr_x rd v.
Definition sw (rs2 off rs : Z) : M cpu unit := b ← rd_x rs; v ← rd_x rs2; store_word (b +u off) v.
Definition csrr (rd : Z) (csr : cpu -> Z) : M cpu unit := v ← gets csr; wr_x rd v.
Definition csrw (csr : Z -> cpu -> cpu) (rs : Z) : M cpu unit := v ← rd_x rs; modify (csr v).
Definition jump (a : Z) : M cpu unit := modify (set_pc a).

(** A trap, for an interrupt or an exception: the way back is kept in mepc,
    interrupts are disabled and the handler is entered. *)
Definition trap (cause : Z) : M cpu unit := modify (fun c =>
  set_mepc (pc c) (set_mcause cause (set_pc (mtvec c) (set_mstatus
    (Z.lor (Z.ldiff (mstatus c) (MSTATUS_MIE + MSTATUS_MPIE + MSTATUS_MPP))
       (b2z (has_bits (mstatus c) MSTATUS_MIE) MSTATUS_MPIE + MSTATUS_MPP)) c)))).

(** Return from a trap.  There is only machine mode to return to. *)
Definition mret_instr : M cpu unit := fun c =>
  if Z.land (mstatus c) MSTATUS_MPP =? MSTATUS_MPP then
    Some (tt, set_pc (mepc c) (set_mstatus
      (Z.lor (Z.ldiff (mstatus c) (MSTATUS_MIE + MSTATUS_MPIE + MSTATUS_MPP))
         (b2z (has_bits (mstatus c) MSTATUS_MPIE) MSTATUS_MIE + MSTATUS_MPIE + Z.shiftl lowest_mode 11)) c))
  else None.
End Clint.

(** One instruction for each element of a list. *)
Fixpoint each {S A} (l : list A) (f : A -> M S unit) : M S unit :=
  match l with [] => mret tt | a :: l' => f a;; each l' f end.
