(* ===== verification/Port.v ===== *)
(** * The RISC-V port: portASM.S and port.c

    The trap handler saves the running task's registers on its stack and the
    stack pointer in the task's TCB, calls the kernel, and restores the
    registers of the task the kernel has selected.  The state is the kernel's
    beside the processor's: the variable pxCurrentTCB is the kernel's, the
    first word of each TCB (pxTopOfStack), the stacks and the variables of
    port.c are words of the processor's memory.

    [store_x] and [load_x] are [sw] and [lw], and the chip has no additional
    registers to save.  A constant of port.c (pullNextTime, xISRStackTop,
    uxTimerIncrementsForOneTick) is loaded as an immediate. *)

From S2P Require Import Prelude Config ListSpec Kernel Tasks Riscv.

Definition portWORD_SIZE : Z := 4.
Definition portCONTEXT_SIZE : Z := 30 * portWORD_SIZE.
Definition portasmADDITIONAL_CONTEXT_SIZE : nat := 0.

Definition configCPU_CLOCK_HZ : Z := 1000000.
Definition configTICK_RATE_HZ : Z := 1000.
Definition uxTimerIncrementsForOneTick : Z := configCPU_CLOCK_HZ / configTICK_RATE_HZ.

(** Demo/RISC-V-Qemu-virt_GCC/riscv-virt.h *)
Definition CLINT_ADDR : Z := 33554432.
Definition CLINT_MTIMECMP : Z := 16384.
Definition CLINT_MTIME : Z := 49144.
Definition configMTIME_BASE_ADDRESS : Z := CLINT_ADDR + CLINT_MTIME.
Definition configMTIMECMP_BASE_ADDRESS : Z := CLINT_ADDR + CLINT_MTIMECMP.

(** The registers of the saved context and their words in the frame.  Word 0
    holds the address to return to and word 29 mstatus; x3 and x4 are taken to
    be constant. *)
Definition frame_regs : list (Z * Z) :=
  [(1, 1); (5, 2); (6, 3); (7, 4); (8, 5); (9, 6); (10, 7); (11, 8); (12, 9); (13, 10); (14, 11); (15, 12); (16, 13);
   (17, 14); (18, 15); (19, 16); (20, 17); (21, 18); (22, 19); (23, 20); (24, 21); (25, 22); (26, 23); (27, 24);
   (28, 25); (29, 26); (30, 27); (31, 28)].

Section Port.
Variable mhartid : Z.
Variable mtime : nat -> Z.
Variable lowest_mode : Z.
(** Link-time addresses. *)
Variables freertos_risc_v_trap_handler_addr ullNextTime pullMachineTimerCompareRegister xISRStackTop : Z.

Definition MTIMECMP : Z := configMTIMECMP_BASE_ADDRESS + mhartid * 8.
Notation load_word := (load_word configMTIME_BASE_ADDRESS mtime).
Notation store_word := (store_word MTIMECMP).
Notation lw := (lw configMTIME_BASE_ADDRESS mtime).
Notation sw := (sw MTIMECMP).
Notation mret_instr := (mret_instr lowest_mode).

(** ** portASM.S *)

(** The entry of freertos_risc_v_trap_handler, up to the reading of the cause. *)
Definition save_context (pxCurrentTCB : Z) : M cpu unit :=
  addi sp sp (- portCONTEXT_SIZE);;
  each frame_regs (fun '(r, i) => sw r (i * portWORD_SIZE) sp);;
  csrr t0 mstatus;;
  sw t0 (29 * portWORD_SIZE) sp;;
  li t0 pxCurrentTCB;;
  sw sp 0 t0;;
  csrr a0 mcause;;
  csrr a1 mepc.

(** test_if_mtimer: the new match value goes to the compare register in two
    halves, then the one after it is computed. *)
Definition update_timer : M cpu unit :=
  lw t0 pullMachineTimerCompareRegister zero;;
  li t1 ullNextTime;;
  li t4 (-1);;
  lw t2 0 t1;;
  lw t3 4 t1;;
  sw t4 0 t0;;
  sw t3 4 t0;;
  sw t2 0 t0;;
  li t0 uxTimerIncrementsForOneTick;;
  add t4 t0 t2;;
  sltu t5 t4 t2;;
  add t6 t3 t5;;
  sw t4 0 t1;;
  sw t6 4 t1.

(** processed_source: resume the task whose TCB is now current. *)
Definition restore_context (pxCurrentTCB : Z) : M cpu unit :=
  li t1 pxCurrentTCB;;
  lw sp 0 t1;;
  lw t0 0 sp;;
  csrw set_mepc t0;;
  lw t0 (29 * portWORD_SIZE) sp;;
  csrw set_mstatus t0;;
  each frame_regs (fun '(r, i) => lw r (i * portWORD_SIZE) sp);;
  addi sp sp portCONTEXT_SIZE;;
  mret_instr.

(** The first task is entered with ret, so its entry goes to x1, and with
    interrupts enabled. *)
Definition xPortStartFirstTask (pxCurrentTCB : Z) : M cpu unit :=
  li t0 freertos_risc_v_trap_handler_addr;;
  csrw set_mtvec t0;;
  li sp pxCurrentTCB;;
  lw sp 0 sp;;
  lw ra 0 sp;;
  each (drop 2 frame_regs) (fun '(r, i) => lw r (i * portWORD_SIZE) sp);;
  lw t0 (29 * portWORD_SIZE) sp;;
  addi t0 t0 8;;
  csrw set_mstatus t0;;
  lw t0 (2 * portWORD_SIZE) sp;;
  addi sp sp portCONTEXT_SIZE;;
  a ← rd_x ra;
  jump a.

(** The new task's frame is built under [a0]; the result is the new top of the
    stack in [a0]. *)
Definition pxPortInitialiseStack : M cpu unit :=
  csrr t0 mstatus;;
  andi t0 t0 (Z.lnot 8);;
  addi t1 zero 392;;
  slli t1 t1 4;;
  or t0 t0 t1;;
  addi a0 a0 (- portWORD_SIZE);;
  sw t0 0 a0;;
  addi a0 a0 (- (22 * portWORD_SIZE));;
  sw a2 0 a0;;
  addi a0 a0 (- (6 * portWORD_SIZE));;
  sw zero 0 a0;;
  each (replicate portasmADDITIONAL_CONTEXT_SIZE tt) (fun _ => addi a0 a0 (- portWORD_SIZE);; sw zero 0 a0);;
  addi a0 a0 (- portWORD_SIZE);;
  sw a1 0 a0.

(** ** port.c *)

(** A 64-bit variable or register in memory is accessed as two words. *)
Definition rd64 (a : Z) : M cpu Z := lo ← load_word a; hi ← load_word (a + 4); mret (hi * 2 ^ 32 + lo).
Definition wr64 (a v : Z) : M cpu unit := store_word a (v mod 2 ^ 32);; store_word (a + 4) (v / 2 ^ 32).
Definition u64 (z : Z) : Z := z mod 2 ^ 64.

(** The [do] loop that reads the two halves of the clock. *)
Fixpoint read_time_loop (fuel : nat) : M cpu (Z * Z) :=
  ulCurrentTimeHigh ← load_word (configMTIME_BASE_ADDRESS + 4);
  ulCurrentTimeLow ← load_word configMTIME_BASE_ADDRESS;
  h ← load_word (configMTIME_BASE_ADDRESS + 4);
  if negb (ulCurrentTimeHigh =? h) then match fuel with O => fault | S fuel' => read_time_loop fuel' end
  else mret (ulCurrentTimeHigh, ulCurrentTimeLow).

Definition vPortSetupTimerInterrupt (fuel : nat) : M cpu unit :=
  store_word pullMachineTimerCompareRegister MTIMECMP;;
  '(ulCurrentTimeHigh, ulCurrentTimeLow) ← read_time_loop fuel;
  wr64 ullNextTime ulCurrentTimeHigh;;
  v ← rd64 ullNextTime; wr64 ullNextTime (u64 (Z.shiftl v 32));;
  v ← rd64 ullNextTime; wr64 ullNextTime (Z.lor v ulCurrentTimeLow);;
  v ← rd64 ullNextTime; wr64 ullNextTime (u64 (v + uxTimerIncrementsForOneTick));;
  p ← load_word pullMachineTimerCompareRegister;
  v ← rd64 ullNextTime; wr64 p v;;
  v ← rd64 ullNextTime; wr64 ullNextTime (u64 (v + uxTimerIncrementsForOneTick)).

(** ** With the kernel *)

Section Kernel.
Context {H : Type} `{!ListOps item list_id H}.
Notation K := (Kernel H).

(** What a compiled C function leaves in the registers and in memory, and the
    handler of external interrupts. *)
Variable after_call : K -> cpu -> cpu.
Variable portasmHANDLE_INTERRUPT : M K unit.

Definition jal {A} (f : M K A) : M (K * cpu) A :=
  r ← on_fst f;
  modify (fun s => (s.1, after_call s.1 s.2));;
  mret r.

Definition rd_pxCurrentTCB : M (K * cpu) Z := on_fst (rdv pxCurrentTCB).

Definition switch_to_isr_stack : M cpu unit := li sp xISRStackTop.

(** test_if_mtimer and test_if_external_interrupt.  The loops is_exception and
    as_yet_unhandled are never left. *)
Definition handle_asynchronous : M (K * cpu) unit :=
  on_snd (addi t0 zero 1;; slli t0 t0 31;; addi t1 t0 7);;
  cause ← on_snd (rd_x a0); v ← on_snd (rd_x t1);
  if cause =? v then
    on_snd (update_timer;; switch_to_isr_stack);;
    r ← jal xTaskIncrementTick;
    on_snd (wr_x a0 r);;
    r ← on_snd (rd_x a0);
    if r =? 0 then mret tt else jal vTaskSwitchContext
  else
    on_snd (addi t1 t1 4);;
    v ← on_snd (rd_x t1);
    if cause =? v then
      on_snd switch_to_isr_stack;;
      jal portasmHANDLE_INTERRUPT
    else fault.

Definition handle_synchronous : M (K * cpu) unit :=
  on_snd (addi a1 a1 4;; sw a1 0 sp;; li t0 11);;
  cause ← on_snd (rd_x a0); v ← on_snd (rd_x t0);
  if cause =? v then
    on_snd switch_to_isr_stack;;
    jal vTaskSwitchContext
  else fault.

Definition freertos_risc_v_trap_handler : M (K * cpu) unit :=
  cur ← rd_pxCurrentTCB;
  on_snd (save_context cur);;
  on_snd (srli a2 a0 31);;
  async ← on_snd (rd_x a2);
  (if async =? 0 then handle_synchronous else on_snd (sw a1 0 sp);; handle_asynchronous);;
  cur ← rd_pxCurrentTCB;
  on_snd (restore_context cur).

(** The processor takes a trap and enters the handler through mtvec. *)
Definition take_trap (cause : Z) : M (K * cpu) unit :=
  on_snd (trap cause);;
  a ← on_snd (gets pc);
  if a =? freertos_risc_v_trap_handler_addr then freertos_risc_v_trap_handler else fault.

(** The tick interrupt, the instruction ecall that is portYIELD(), and an
    external interrupt. *)
Definition mtimer_interrupt : M (K * cpu) unit := take_trap 2147483655.
Definition ecall : M (K * cpu) unit := take_trap 11.
Definition external_interrupt : M (K * cpu) unit := take_trap 2147483659.

(** The parts of prvInitialiseNewTask that make the stack: the stack is filled
    and its top aligned, and the frame of a task that has been interrupted is
    built there. *)
Definition tskSTACK_FILL_WORD : Z := 2779096485.
Definition build_frame (pxNewTCB pxTopOfStack pxTaskCode pvParameters : Z) : M cpu unit :=
  wr_x a0 pxTopOfStack;; wr_x a1 pxTaskCode;; wr_x a2 pvParameters;;
  pxPortInitialiseStack;;
  top ← rd_x a0;
  store_word pxNewTCB top.
Definition initial_stack (pxNewTCB pxStack ulStackDepth pxTaskCode pvParameters : Z) : M cpu unit :=
  each (seq 0 (Z.to_nat ulStackDepth)) (fun i => store_word (pxStack + Z.of_nat i * 4) tskSTACK_FILL_WORD);;
  let pxTopOfStack := pxStack +u (ulStackDepth -u 1) * 4 in
  let pxTopOfStack := Z.land pxTopOfStack (Z.lnot portBYTE_ALIGNMENT_MASK) in
  build_frame pxNewTCB pxTopOfStack pxTaskCode pvParameters.

Definition xPortStartScheduler (fuel : nat) : M (K * cpu) unit :=
  on_snd (vPortSetupTimerInterrupt fuel);;
  on_snd (modify (fun c => set_mie (Z.lor (mie c) 2176) c));;
  cur ← rd_pxCurrentTCB;
  on_snd (xPortStartFirstTask cur).
End Kernel.
End Port.
