(* ===== verification/PortSpec.v ===== *)
(** * What the port is for: a processor for each task

    Every task has a virtual processor [vcpu]: the registers, the address of the
    next instruction and the status bits that the task can rely on.  The running
    task's is in the real processor, the others are kept in the frames that the
    trap handler has left on their stacks. *)

From S2P Require Import Prelude Config ListSpec Kernel Tasks Riscv Port.

Record vcpu := mkVcpu {
  v_pc : Z;
  v_sp : Z;
  v_regs : list Z;   (** x1 and x5 to x31 *)
  v_status : Z       (** mstatus, without what traps keep in it *)
}.
Definition set_v_pc z v := mkVcpu z (v_sp v) (v_regs v) (v_status v).

Definition status (ms : Z) : Z := Z.ldiff ms (MSTATUS_MPIE + MSTATUS_MPP).
(** The status that mret makes of a saved one. *)
Definition resumed (ms : Z) : Z :=
  Z.lor (Z.ldiff ms (MSTATUS_MIE + MSTATUS_MPIE + MSTATUS_MPP)) (b2z (has_bits ms MSTATUS_MPIE) MSTATUS_MIE).

Definition vcpu_of (c : cpu) : vcpu :=
  mkVcpu (pc c) (get_x sp c) ((fun p => get_x p.1 c) <$> frame_regs) (status (mstatus c)).

(** A frame at [f] in memory that holds [v]. *)
Record frame_at (m : gmap Z Z) (f : Z) (v : vcpu) : Prop := mkFrame {
  fa_pc : m !! f = Some (v_pc v);
  fa_regs : (fun p : Z * Z => m !! (f + p.2 * 4)) <$> frame_regs = Some <$> v_regs v;
  fa_status : exists ms, m !! (f + 116) = Some ms /\ u32_range ms /\ Z.land ms MSTATUS_MIE = 0 /\
    Z.land ms MSTATUS_MPP = MSTATUS_MPP /\ v_status v = resumed ms;
  fa_sp : v_sp v = f + 120
}.

(** ** Who may write where

    Each address has one owner, so that what different owners have does not
    overlap. *)
Inductive owner := OStack (t : Z) | OTcb | OPort | OIsr | ODevice | OOther.

#[export] Instance owner_eq_dec : EqDecision owner.
Proof. solve_decision. Defined.

(** What no part of the handler changes. *)
Definition consts (c c' : cpu) : Prop := get_x gp c' = get_x gp c /\ get_x tp c' = get_x tp c /\ mtvec c' = mtvec c.

#[export] Instance consts_trans : Transitive consts.
Proof. intros c1 c2 c3 (? & ? & ?) (? & ? & ?). split_and!; congruence. Qed.

(** The values of the compare register while it is updated from [old] to [new]. *)
Definition cmp_updates (new old : Z) : list Z := [new; new / 2 ^ 32 * 2 ^ 32 + (2 ^ 32 - 1); old / 2 ^ 32 * 2 ^ 32 + (2 ^ 32 - 1)].

(** The three traps, and where the task that was running goes on. *)
Inductive event := Tick | Yield | External.
#[export] Instance event_eq_dec : EqDecision event.
Proof. solve_decision. Defined.
Definition cause_of (e : event) : Z :=
  match e with Tick => 2147483655 | Yield => 11 | External => 2147483659 end.
Definition leave (e : event) (v : vcpu) : vcpu := match e with Yield => set_v_pc (v_pc v +u 4) v | _ => v end.

(** What happens next: the running task works, a trap is taken, or the running
    task makes the task [t]. *)
Inductive action := Work | Trap (e : event) | Create (t : Z).
#[export] Instance action_eq_dec : EqDecision action.
Proof. solve_decision. Defined.

Section Layout.
Variable mhartid : Z.
Variable mtime : nat -> Z.
Variable lowest_mode : Z.
Variables freertos_risc_v_trap_handler_addr ullNextTime pullMachineTimerCompareRegister xISRStackTop : Z.
Variable own : Z -> owner.

(** Memory that the port reads and writes. *)
Definition is_ram (o : owner) : Prop := match o with OStack _ | OTcb | OPort => True | _ => False end.

Record layout : Prop := {
  ly_u32 : forall a, own a <> OOther -> 0 <= a < 2 ^ 32;
  ly_port : Forall (fun a => own a = OPort /\ a mod 4 = 0)
              [ullNextTime; ullNextTime + 4; pullMachineTimerCompareRegister];
  ly_port_apart : pullMachineTimerCompareRegister <> ullNextTime /\
                  pullMachineTimerCompareRegister <> ullNextTime + 4;
  ly_device : Forall (fun a => own a = ODevice)
                [configMTIME_BASE_ADDRESS; configMTIME_BASE_ADDRESS + 4; MTIMECMP mhartid; MTIMECMP mhartid + 4]
}.

(** A word of task [t]'s TCB, and room on its stack under [s] for a frame. *)
Definition tcb_word (t : Z) : Prop := own t = OTcb /\ t mod 4 = 0.
Definition room (t s : Z) : Prop := s mod 4 = 0 /\ s < 2 ^ 32 /\ forall a, s - 120 <= a < s -> own a = OStack t.

Definition suspended_at (m : gmap Z Z) (t : Z) (v : vcpu) : Prop :=
  exists f, m !! t = Some f /\ frame_at m f v /\ room t (f + 120).

(** The next tick time in memory. *)
Definition next_time (m : gmap Z Z) (z : Z) : Prop :=
  0 <= z < 2 ^ 64 /\ m !! ullNextTime = Some (z mod 2 ^ 32) /\ m !! (ullNextTime + 4) = Some (z / 2 ^ 32).

(** Memory is where the layout says, and the port's variables and the way into
    the handler are set up. *)
Record set_up (c : cpu) : Prop := {
  su_ram : forall a, is_ram (own a) -> a mod 4 = 0 -> is_Some (mem c !! a);
  su_cmp : mem c !! pullMachineTimerCompareRegister = Some (MTIMECMP mhartid);
  su_time : exists z, next_time (mem c) z;
  su_mtvec : mtvec c = freertos_risc_v_trap_handler_addr
}.

(** The processor [c], with task [running] on it, holds the virtual processors
    [V]. *)
Record virtual (running : Z) (c : cpu) (V : gmap Z vcpu) : Prop := {
  vi_set_up : set_up c;
  vi_tcb : forall t, is_Some (V !! t) -> tcb_word t;
  vi_suspended : forall t v, V !! t = Some v -> t <> running -> suspended_at (mem c) t v;
  vi_running : V !! running = Some (vcpu_of c);
  vi_room : room running (get_x sp c);
  vi_status : u32_range (mstatus c)
}.

(** What the running task may do to the processor: use its registers and its
    stack, and what is in no one's care, but neither the frames and TCB words of
    the others nor the port's variables. *)
Record own_work (t : Z) (c c' : cpu) : Prop := {
  ow_mem : forall a, is_ram (own a) -> own a <> OStack t -> mem c' !! a = mem c !! a;
  ow_stack : forall a, own a = OStack t -> is_Some (mem c !! a) -> is_Some (mem c' !! a);
  ow_room : room t (get_x sp c');
  ow_status : u32_range (mstatus c');
  ow_gp : get_x gp c' = get_x gp c;
  ow_tp : get_x tp c' = get_x tp c;
  ow_mtvec : mtvec c' = mtvec c;
  ow_mtimecmp : mtimecmp c' = mtimecmp c
}.

(** The processor a new task starts on. *)
Definition initial_status (ms : Z) : Z := Z.lor (Z.land ms (u32 (Z.lnot MSTATUS_MIE))) (MSTATUS_MPIE + MSTATUS_MPP).
Definition new_vcpu (pxTaskCode pvParameters top ms : Z) : vcpu :=
  mkVcpu pxTaskCode top
    (0 :: replicate 5 tskSTACK_FILL_WORD ++ pvParameters :: replicate 21 tskSTACK_FILL_WORD)
    (resumed (initial_status ms)).
(** What xTaskCreate hands over: a new TCB and a stack of its own. *)
Record fresh (t pxStack ulStackDepth : Z) : Prop := {
  fr_tcb : tcb_word t;
  fr_own : forall a, pxStack <= a < pxStack + 4 * ulStackDepth -> own a = OStack t;
  fr_aligned : pxStack mod 4 = 0;
  fr_size : 35 <= ulStackDepth;
  fr_end : pxStack + 4 * ulStackDepth < 2 ^ 32
}.

Definition top_of_stack (pxStack ulStackDepth : Z) : Z :=
  Z.land (pxStack +u (ulStackDepth -u 1) * 4) (Z.lnot portBYTE_ALIGNMENT_MASK).

Section Kernel.
Context {H : Type} `{!ListOps item list_id H}.
Notation K := (Kernel H).
Notation cur k := (pxCurrentTCB (k_vars k)).
Variable after_call : K -> cpu -> cpu.
Variable portasmHANDLE_INTERRUPT : M K unit.

(** What the calling convention promises of C code, which runs on the stack of
    the interrupts. *)
Record abi : Prop := {
  ac_mem : forall k c a, is_ram (own a) -> mem (after_call k c) !! a = mem c !! a;
  ac_gp : forall k c, get_x gp (after_call k c) = get_x gp c;
  ac_tp : forall k c, get_x tp (after_call k c) = get_x tp c;
  ac_mtvec : forall k c, mtvec (after_call k c) = mtvec c;
  ac_mtimecmp : forall k c, mtimecmp (after_call k c) = mtimecmp c
}.

(** What the kernel does in a trap. *)
Definition kernel_part (e : event) : M K unit :=
  match e with Tick => timer_interrupt | Yield => portYIELD | External => portasmHANDLE_INTERRUPT end.

(** The timer is due at [z], counted without wrap-around, and then one tick
    later. *)
Definition timer_at (c : cpu) (z : Z) : Prop :=
  next_time (mem c) (u64 (z + uxTimerIncrementsForOneTick)) /\ hd 0 (mtimecmp c) = u64 z.

(** What a trap does to the timer. *)
Definition time_step (e : event) (c c' : cpu) : Prop :=
  match e with
  | Tick => forall z, next_time (mem c) z -> next_time (mem c') (u64 (z + uxTimerIncrementsForOneTick)) /\
                mtimecmp c' = cmp_updates z (hd 0 (mtimecmp c)) ++ mtimecmp c
  | _ => (forall z, next_time (mem c) z -> next_time (mem c') z) /\ mtimecmp c' = mtimecmp c
  end.

Notation take_trap := (take_trap mhartid mtime lowest_mode freertos_risc_v_trap_handler_addr ullNextTime
  pullMachineTimerCompareRegister xISRStackTop after_call portasmHANDLE_INTERRUPT).
Notation initial_stack := (initial_stack mhartid).

(** *** The abstract machine: a kernel that switches between processors *)

Inductive abs_step : action -> K * gmap Z vcpu -> K * gmap Z vcpu -> Prop :=
  | ab_work k k' V v : cur k' = cur k -> abs_step Work (k, V) (k', <[cur k := v]> V)
  | ab_trap e k k' V : kernel_part e k = Some (tt, k') -> abs_step (Trap e) (k, V) (k', alter (leave e) (cur k) V)
  | ab_create t pxTaskCode pvParameters top ms k k' V v : cur k' = cur k -> V !! t = None ->
      abs_step (Create t) (k, V) (k', <[t := new_vcpu pxTaskCode pvParameters top ms]> (<[cur k := v]> V)).

(** *** The real machine

    Its tasks are listed beside it: the running task works, takes a trap (an
    interrupt only when interrupts are enabled), or makes a new task; the
    kernel, whose functions do not fault, selects one of the tasks there are. *)

Inductive real_step : action -> K * cpu * gset Z -> K * cpu * gset Z -> Prop :=
  | rs_work k c k' c' T : cur k' = cur k -> own_work (cur k) c c' -> real_step Work (k, c, T) (k', c', T)
  | rs_trap e k c k' c' T : (e <> Yield -> has_bits (mstatus c) MSTATUS_MIE = true) ->
      wp (kernel_part e) (fun _ k1 => cur k1 ∈ T) k -> take_trap (cause_of e) (k, c) = Some (tt, (k', c')) -> real_step (Trap e) (k, c, T) (k', c', T)
  | rs_create t pxStack ulStackDepth pxTaskCode pvParameters k c k' c' T : cur k' = cur k -> t ∉ T ->
      fresh t pxStack ulStackDepth -> initial_stack t pxStack ulStackDepth pxTaskCode pvParameters c = Some (tt, c') ->
      real_step (Create t) (k, c, T) (k', c', {[t]} ∪ T).

(** Steps during which task [t] is not the running one, and steps of which [n]
    are ticks. *)
Definition without (t : Z) (s s' : K * cpu * gset Z) : Prop := cur s.1.1 <> t /\ exists a, real_step a s s'.
Inductive with_ticks : nat -> K * cpu * gset Z -> K * cpu * gset Z -> Prop :=
  | wt_none s : with_ticks 0 s s
  | wt_step n a s1 s2 s3 : real_step a s1 s2 -> with_ticks n s2 s3 ->
      with_ticks (if decide (a = Trap Tick) then S n else n) s1 s3.
End Kernel.
End Layout.
