(* ===== verification/PortProps.v ===== *)
(** * Running the port's code

    Rules for the instructions, and what saving and restoring a context, the
    timer's update and the making of a stack do to the processor. *)

From S2P Require Import Prelude Config ListSpec Kernel Tasks Riscv Port PortSpec.

(** ** Registers *)

Definition set_x (r v : Z) (c : cpu) : cpu := set_xreg (fun r' => if r' =? r then v else xreg c r') c.

Lemma get_set_x r rd v c : rd <> 0 -> get_x r (set_x rd v c) = if r =? rd then v else get_x r c.
Proof. intros. unfold get_x, set_x. simpl. destruct (Z.eqb_spec r 0), (Z.eqb_spec r rd); by subst. Qed.
Lemma get_set_x_same rd v c : rd <> 0 -> get_x rd (set_x rd v c) = v.
Proof. intros. by rewrite get_set_x, Z.eqb_refl. Qed.
Lemma get_set_x_other r rd v c : rd <> 0 -> r <> rd -> get_x r (set_x rd v c) = get_x r c.
Proof. intros ? ?%Z.eqb_neq. rewrite get_set_x by done. by rewrite H0. Qed.

Lemma wp_rd_x r Q c : Q (get_x r c) c -> wp (rd_x r) Q c.
Proof. apply wp_gets. Qed.
Lemma wp_wr_x r v (Q : unit -> cpu -> Prop) c : r <> 0 -> Q tt (set_x r v c) -> wp (wr_x r v) Q c.
Proof. intros Hr HQ. apply wp_modify. by rewrite (proj2 (Z.eqb_neq r 0) Hr). Qed.

(** Rules for the instructions that do not touch memory. *)
Lemma wp_li rd v (Q : unit -> cpu -> Prop) c : rd <> 0 -> Q tt (set_x rd (u32 v) c) -> wp (li rd v) Q c.
Proof. apply wp_wr_x. Qed.
Lemma wp_addi rd rs i (Q : unit -> cpu -> Prop) c : rd <> 0 -> Q tt (set_x rd (get_x rs c +u i) c) -> wp (addi rd rs i) Q c.
Proof. intros. by apply wp_bind, wp_rd_x, wp_wr_x. Qed.
Lemma wp_andi rd rs i (Q : unit -> cpu -> Prop) c :
  rd <> 0 -> Q tt (set_x rd (Z.land (get_x rs c) (u32 i)) c) -> wp (andi rd rs i) Q c.
Proof. intros. by apply wp_bind, wp_rd_x, wp_wr_x. Qed.
Lemma wp_slli rd rs i (Q : unit -> cpu -> Prop) c :
  rd <> 0 -> Q tt (set_x rd (u32 (Z.shiftl (get_x rs c) i)) c) -> wp (slli rd rs i) Q c.
Proof. intros. by apply wp_bind, wp_rd_x, wp_wr_x. Qed.
Lemma wp_srli rd rs i (Q : unit -> cpu -> Prop) c :
  rd <> 0 -> Q tt (set_x rd (Z.shiftr (get_x rs c) i) c) -> wp (srli rd rs i) Q c.
Proof. intros. by apply wp_bind, wp_rd_x, wp_wr_x. Qed.
Lemma wp_add rd rs rs2 (Q : unit -> cpu -> Prop) c :
  rd <> 0 -> Q tt (set_x rd (get_x rs c +u get_x rs2 c) c) -> wp (add rd rs rs2) Q c.
Proof. intros. by apply wp_bind, wp_rd_x, wp_bind, wp_rd_x, wp_wr_x. Qed.
Lemma wp_or rd rs rs2 (Q : unit -> cpu -> Prop) c :
  rd <> 0 -> Q tt (set_x rd (Z.lor (get_x rs c) (get_x rs2 c)) c) -> wp (or rd rs rs2) Q c.
Proof. intros. by apply wp_bind, wp_rd_x, wp_bind, wp_rd_x, wp_wr_x. Qed.
Lemma wp_sltu rd rs rs2 (Q : unit -> cpu -> Prop) c :
  rd <> 0 -> Q tt (set_x rd (if get_x rs c <? get_x rs2 c then 1 else 0) c) -> wp (sltu rd rs rs2) Q c.
Proof. intros. by apply wp_bind, wp_rd_x, wp_bind, wp_rd_x, wp_wr_x. Qed.
Lemma wp_csrr rd csr (Q : unit -> cpu -> Prop) c : rd <> 0 -> Q tt (set_x rd (csr c) c) -> wp (csrr rd csr) Q c.
Proof. intros. by apply wp_bind, wp_gets, wp_wr_x. Qed.
Lemma wp_csrw csr rs (Q : unit -> cpu -> Prop) c : Q tt (csr (get_x rs c) c) -> wp (csrw csr rs) Q c.
Proof. intros. by apply wp_bind, wp_rd_x, wp_modify. Qed.

Lemma get_x_set_mem r m c : get_x r (set_mem m c) = get_x r c.
Proof. done. Qed.

(** ** The status register *)

Lemma ldiff_lor_l a b m : Z.ldiff (Z.lor a b) m = Z.lor (Z.ldiff a m) (Z.ldiff b m).
Proof. apply Z.bits_inj'. intros n _. rewrite Z.lor_spec, !Z.ldiff_spec, Z.lor_spec. by destruct (Z.testbit a n), (Z.testbit b n), (Z.testbit m n). Qed.
Lemma ldiff_ldiff a m n : Z.ldiff (Z.ldiff a m) n = Z.ldiff a (Z.lor m n).
Proof. apply Z.bits_inj'. intros i _. rewrite !Z.ldiff_spec, Z.lor_spec. by destruct (Z.testbit a i), (Z.testbit m i), (Z.testbit n i). Qed.
Lemma ldiff_land_disjoint a m n : Z.ldiff n m = 0 -> Z.land (Z.ldiff a m) n = 0.
Proof.
  intros E. apply Z.bits_inj'. intros i _. pose proof (f_equal (fun z => Z.testbit z i) E) as Ei. cbv beta in Ei.
  rewrite Z.ldiff_spec, Z.bits_0 in Ei. rewrite Z.land_spec, Z.ldiff_spec, Z.bits_0.
  by destruct (Z.testbit a i), (Z.testbit m i), (Z.testbit n i).
Qed.
Lemma ldiff_split a m n : Z.land m n = 0 -> Z.lor (Z.ldiff a (Z.lor m n)) (Z.land a n) = Z.ldiff a m.
Proof.
  intros E. apply Z.bits_inj'. intros i _. pose proof (f_equal (fun z => Z.testbit z i) E) as Ei. cbv beta in Ei.
  rewrite Z.land_spec, Z.bits_0 in Ei. rewrite Z.lor_spec, Z.land_spec, !Z.ldiff_spec, Z.lor_spec.
  by destruct (Z.testbit a i), (Z.testbit m i), (Z.testbit n i).
Qed.
Lemma land_bit a n : 0 <= n -> Z.land a (2 ^ n) = b2z (Z.testbit a n) (2 ^ n).
Proof.
  intros Hn. apply Z.bits_inj'. intros i Hi. unfold b2z.
  destruct (Z.testbit a n) eqn:E; rewrite Z.land_spec, ?Z.bits_0, !Z.pow2_bits_eqb by done;
    destruct (Z.eqb_spec n i) as [<-|]; by rewrite ?E, ?andb_false_r.
Qed.
Lemma land_has_8 a : Z.land a MSTATUS_MIE = b2z (has_bits a MSTATUS_MIE) MSTATUS_MIE.
Proof. unfold has_bits. change MSTATUS_MIE with (2 ^ 3). rewrite land_bit by done. by destruct (Z.testbit a 3). Qed.

(** A trap keeps what [resumed] brings back. *)
Definition trapped (ms : Z) : Z :=
  Z.lor (Z.ldiff ms (MSTATUS_MIE + MSTATUS_MPIE + MSTATUS_MPP)) (b2z (has_bits ms MSTATUS_MIE) MSTATUS_MPIE + MSTATUS_MPP).

Lemma trapped_mpp ms : Z.land (trapped ms) MSTATUS_MPP = MSTATUS_MPP.
Proof. unfold trapped. rewrite Z.land_lor_distr_l, ldiff_land_disjoint by done. by destruct (has_bits ms MSTATUS_MIE). Qed.
Lemma trapped_mie ms : Z.land (trapped ms) MSTATUS_MIE = 0.
Proof. unfold trapped. rewrite Z.land_lor_distr_l, ldiff_land_disjoint by done. by destruct (has_bits ms MSTATUS_MIE). Qed.
Lemma trapped_range ms : u32_range ms -> u32_range (trapped ms).
Proof. intros Hm. apply lor_range; [by apply ldiff_range|]. by destruct (has_bits ms MSTATUS_MIE). Qed.
Lemma resumed_trapped ms : resumed (trapped ms) = status ms.
Proof.
  unfold resumed, trapped, status. rewrite ldiff_lor_l, ldiff_ldiff.
  assert (E : has_bits (Z.lor (Z.ldiff ms (MSTATUS_MIE + MSTATUS_MPIE + MSTATUS_MPP))
    (b2z (has_bits ms MSTATUS_MIE) MSTATUS_MPIE + MSTATUS_MPP)) MSTATUS_MPIE = has_bits ms MSTATUS_MIE).
  { unfold has_bits at 1. rewrite Z.land_lor_distr_l, ldiff_land_disjoint by done. by destruct (has_bits ms MSTATUS_MIE). }
  rewrite E. rewrite <- (ldiff_split ms (MSTATUS_MPIE + MSTATUS_MPP) MSTATUS_MIE) by done. rewrite land_has_8.
  replace (Z.ldiff (b2z (has_bits ms MSTATUS_MIE) MSTATUS_MPIE + MSTATUS_MPP) (MSTATUS_MIE + MSTATUS_MPIE + MSTATUS_MPP)) with 0
    by (by destruct (has_bits ms MSTATUS_MIE)).
  by rewrite Z.lor_0_r.
Qed.
Lemma mret_range ms lowest : u32_range ms -> 0 <= lowest <= 3 ->
  u32_range (Z.lor (Z.ldiff ms (MSTATUS_MIE + MSTATUS_MPIE + MSTATUS_MPP))
    (b2z (has_bits ms MSTATUS_MPIE) MSTATUS_MIE + MSTATUS_MPIE + Z.shiftl lowest 11)).
Proof.
  intros Hm Hl. apply lor_range; [by apply ldiff_range|].
  assert (lowest = 0 \/ lowest = 1 \/ lowest = 2 \/ lowest = 3) as [ -> | [ -> | [ -> | -> ]]] by lia; by destruct (has_bits ms MSTATUS_MPIE).
Qed.
Lemma status_mret ms lowest : 0 <= lowest <= 3 ->
  status (Z.lor (Z.ldiff ms (MSTATUS_MIE + MSTATUS_MPIE + MSTATUS_MPP))
            (b2z (has_bits ms MSTATUS_MPIE) MSTATUS_MIE + MSTATUS_MPIE + Z.shiftl lowest 11)) = resumed ms.
Proof.
  intros Hl. unfold status, resumed. rewrite ldiff_lor_l, ldiff_ldiff. f_equal.
  assert (lowest = 0 \/ lowest = 1 \/ lowest = 2 \/ lowest = 3) as [ -> | [ -> | [ -> | -> ]]] by lia; by destruct (has_bits ms MSTATUS_MPIE).
Qed.

(** ** Memory *)

Section Mem.
Variable mhartid : Z.
Variable mtime : nat -> Z.
Variable lowest_mode : Z.
Variables freertos_risc_v_trap_handler_addr ullNextTime pullMachineTimerCompareRegister xISRStackTop : Z.
Variable own : Z -> owner.
Notation layout := (layout mhartid ullNextTime pullMachineTimerCompareRegister own).
Notation load_word := (load_word configMTIME_BASE_ADDRESS mtime).
Notation store_word := (store_word (MTIMECMP mhartid)).
Notation lw := (lw configMTIME_BASE_ADDRESS mtime).
Notation sw := (sw (MTIMECMP mhartid)).
Context (Hly : layout).

Lemma ram_range a : is_ram (own a) -> 0 <= a < 2 ^ 32.
Proof. intros Ha. apply (ly_u32 _ _ _ _ Hly). by intros E; rewrite E in Ha. Qed.
Lemma ram_u32 a : is_ram (own a) -> u32 a = a.
Proof. intros Ha. apply u32_small. by apply ram_range. Qed.
Lemma ram_not_device a : is_ram (own a) -> a <> configMTIME_BASE_ADDRESS /\ a <> configMTIME_BASE_ADDRESS + 4 /\
  a <> MTIMECMP mhartid /\ a <> MTIMECMP mhartid + 4.
Proof.
  intros Ha. pose proof (ly_device _ _ _ _ Hly) as Hd. rewrite !Forall_cons in Hd.
  destruct Hd as (H1 & H2 & H3 & H4 & _). split_and!; intros ->; [rewrite H1 in Ha|rewrite H2 in Ha|rewrite H3 in Ha|rewrite H4 in Ha]; done.
Qed.

Lemma wp_load_word a v Q c : is_ram (own a) -> a mod 4 = 0 -> mem c !! a = Some v -> Q v c -> wp (load_word a) Q c.
Proof.
  intros Ha Hal Hv HQ. destruct (ram_not_device a Ha) as (H1 & H2 & _). exists v, c. split; [|done].
  unfold Riscv.load_word. by rewrite (proj2 (Z.eqb_neq _ _) H1), (proj2 (Z.eqb_neq _ _) H2), Hal, Hv.
Qed.
Lemma wp_store_word a v (Q : unit -> cpu -> Prop) c : is_ram (own a) -> a mod 4 = 0 -> is_Some (mem c !! a) ->
  Q tt (set_mem (<[a := v]> (mem c)) c) -> wp (store_word a v) Q c.
Proof.
  intros Ha Hal Hv HQ. destruct (ram_not_device a Ha) as (_ & _ & H1 & H2). eexists _, _. split; [|exact HQ].
  unfold Riscv.store_word. rewrite (proj2 (Z.eqb_neq _ _) H1), (proj2 (Z.eqb_neq _ _) H2), Hal. simpl.
  by rewrite bool_decide_true.
Qed.

Lemma wp_lw rd off rs a v (Q : unit -> cpu -> Prop) c : rd <> 0 -> get_x rs c +u off = a -> is_ram (own a) -> a mod 4 = 0 ->
  mem c !! a = Some v -> Q tt (set_x rd v c) -> wp (lw rd off rs) Q c.
Proof. intros Hrd <- Ha Hal Hv HQ. apply wp_bind, wp_rd_x, wp_bind. eapply wp_load_word; [done..|]. by apply wp_wr_x. Qed.
Lemma wp_sw r2 off rs a (Q : unit -> cpu -> Prop) c : get_x rs c +u off = a -> is_ram (own a) -> a mod 4 = 0 ->
  is_Some (mem c !! a) -> Q tt (set_mem (<[a := get_x r2 c]> (mem c)) c) -> wp (sw r2 off rs) Q c.
Proof. intros <- Ha Hal Hv HQ. apply wp_bind, wp_rd_x, wp_bind, wp_rd_x. by apply wp_store_word. Qed.

(** ** Storing and loading a list of registers *)

Fixpoint store_regs (g : Z -> Z) (f : Z) (l : list (Z * Z)) (m : gmap Z Z) : gmap Z Z :=
  match l with [] => m | p :: l' => store_regs g f l' (<[f + p.2 * 4 := g p.1]> m) end.

Lemma store_regs_other g f l m a : Forall (fun p => a <> f + p.2 * 4) l -> store_regs g f l m !! a = m !! a.
Proof. revert m. induction l as [|p l IH]; intros m Hl; [done|]. apply Forall_cons in Hl as [? ?]. simpl. by rewrite IH, lookup_insert_ne. Qed.
Lemma store_regs_lookup g f l m : NoDup l.*2 ->
  (fun p => store_regs g f l m !! (f + p.2 * 4)) <$> l = (fun p => Some (g p.1)) <$> l.
Proof.
  revert m. induction l as [|p l IH]; intros m Hnd; [done|]. cbn in Hnd. apply NoDup_cons in Hnd as [Hp Hnd]. simpl. f_equal; [|by apply IH].
  rewrite store_regs_other; [by rewrite lookup_insert_eq|]. apply Forall_forall. intros q Hq E. apply Hp.
  replace p.2 with q.2 by lia. by apply (list_elem_of_fmap_2 snd).
Qed.
Lemma store_regs_is_Some g f l m a : is_Some (m !! a) -> is_Some (store_regs g f l m !! a).
Proof.
  revert m. induction l as [|p l IH]; intros m Ha; [done|]. simpl. apply IH.
  destruct (decide (f + p.2 * 4 = a)) as [->|]; [rewrite lookup_insert_eq; eauto|by rewrite lookup_insert_ne].
Qed.

Lemma insert_is_Some (m : gmap Z Z) a b v : is_Some (m !! a) -> is_Some (<[b := v]> m !! a).
Proof. intros. destruct (decide (b = a)) as [->|]; [rewrite lookup_insert_eq; eauto|by rewrite lookup_insert_ne]. Qed.

(** Words of RAM. *)
Definition ram_word (m : gmap Z Z) (a : Z) : Prop := is_ram (own a) /\ a mod 4 = 0 /\ is_Some (m !! a).
Lemma ram_word_insert m a b v : ram_word m a -> ram_word (<[b := v]> m) a.
Proof. intros (? & ? & ?). split_and!; [done..|]. by apply insert_is_Some. Qed.

Lemma each_sw l (Q : unit -> cpu -> Prop) c f : get_x sp c = f -> Forall (fun p => ram_word (mem c) (f + p.2 * 4)) l ->
  Q tt (set_mem (store_regs (fun r => get_x r c) f l (mem c)) c) -> wp (each l (fun '(r, i) => sw r (i * portWORD_SIZE) sp)) Q c.
Proof.
  intros Hf. revert c Q Hf. induction l as [|[r i] l IH]; intros c Q Hf Hl HQ; simpl; [apply wp_ret; by destruct c|].
  apply Forall_cons in Hl as [(Ha & Hal & Hv) Hl]. simpl in Ha, Hal, Hv. apply wp_bind.
  eapply (wp_sw _ _ _ (f + i * 4)); [by rewrite Hf; apply ram_u32|done..|].
  apply IH; [done|eapply Forall_impl; [exact Hl|]; intros; by apply ram_word_insert|exact HQ].
Qed.

Fixpoint load_regs (l : list (Z * Z)) (vs : list Z) (c : cpu) : cpu :=
  match l, vs with p :: l', v :: vs' => load_regs l' vs' (set_x p.1 v c) | _, _ => c end.

Lemma load_regs_other l vs c r : Forall (fun p : Z * Z => p.1 <> 0 /\ r <> p.1) l -> get_x r (load_regs l vs c) = get_x r c.
Proof.
  revert vs c. induction l as [|p l IH]; intros [|v vs] c Hl; [done..|]. apply Forall_cons in Hl as [[? ?] Hl]. simpl.
  rewrite IH by done. by apply get_set_x_other.
Qed.
Lemma load_regs_lookup l vs c : Forall (fun p : Z * Z => p.1 <> 0) l -> NoDup l.*1 -> length vs = length l ->
  (fun p => get_x p.1 (load_regs l vs c)) <$> l = vs.
Proof.
  revert vs c. induction l as [|p l IH]; intros [|v vs] c Hz Hnd Hlen; [done..|]. cbn in Hnd. apply NoDup_cons in Hnd as [Hp Hnd].
  apply Forall_cons in Hz as [Hpz Hz]. simpl. f_equal.
  - rewrite load_regs_other; [by apply get_set_x_same|]. apply Forall_forall. intros q Hq. split; [by apply (proj1 (Forall_forall _ _) Hz)|].
    intros E. apply Hp. rewrite E. by apply (list_elem_of_fmap_2 fst).
  - apply IH; [done..|]. by injection Hlen.
Qed.
(** All else stays. *)
Lemma load_regs_rest l vs c : pc (load_regs l vs c) = pc c /\ mstatus (load_regs l vs c) = mstatus c /\
  mepc (load_regs l vs c) = mepc c /\ mtvec (load_regs l vs c) = mtvec c /\ mem (load_regs l vs c) = mem c /\
  mtimecmp (load_regs l vs c) = mtimecmp c.
Proof.
  revert vs c. induction l as [|p l IH]; intros [|v vs] c; simpl; [by split_and!..|]. destruct (IH vs (set_x p.1 v c)) as (-> & -> & -> & -> & -> & ->). by split_and!.
Qed.

Lemma each_lw l vs (Q : unit -> cpu -> Prop) c f : get_x sp c = f -> Forall (fun p : Z * Z => p.1 <> 0 /\ sp <> p.1) l ->
  Forall (fun p => ram_word (mem c) (f + p.2 * 4)) l -> (fun p : Z * Z => mem c !! (f + p.2 * 4)) <$> l = Some <$> vs ->
  Q tt (load_regs l vs c) -> wp (each l (fun '(r, i) => lw r (i * portWORD_SIZE) sp)) Q c.
Proof.
  intros Hf. revert c vs Q Hf. induction l as [|[r i] l IH]; intros c [|v vs] Q Hf Hr Hl Hm HQ; simpl; [by apply wp_ret|done..|].
  apply Forall_cons in Hl as [(Ha & Hal & Hv) Hl]. apply Forall_cons in Hr as [[Hr Hrs] Hrest]. simpl in Ha, Hal, Hv, Hr, Hrs.
  injection Hm as Hm0 Hm. apply wp_bind. eapply (wp_lw _ _ _ (f + i * 4)); [done|by rewrite Hf; apply ram_u32|done..|].
  apply (IH _ vs); [by rewrite get_set_x_other|done..].
Qed.

(** ** Frames *)

Lemma frame_regs_ok : Forall (fun p : Z * Z => p.1 <> 0 /\ sp <> p.1) frame_regs.
Proof. by apply (bool_decide_unpack _). Qed.
Lemma frame_regs_range : Forall (fun p : Z * Z => 0 < p.2 < 29) frame_regs.
Proof. by apply (bool_decide_unpack _). Qed.

Lemma room_word t s a : room own t s -> s - 120 <= a < s -> a mod 4 = 0 -> is_ram (own a) /\ own a = OStack t /\ 0 <= a < 2 ^ 32.
Proof. intros (_ & _ & Ho) Ha Hal. specialize (Ho a Ha). split_and!; [by rewrite Ho|done|..]; apply ram_range; by rewrite Ho. Qed.

Lemma frame_words t f m : room own t (f + 120) -> (forall a, is_ram (own a) -> a mod 4 = 0 -> is_Some (m !! a)) ->
  forall i, 0 <= i < 30 -> ram_word m (f + i * 4) /\ own (f + i * 4) = OStack t.
Proof.
  intros Hr Hm i Hi. assert (Hal : (f + i * 4) mod 4 = 0).
  { destruct Hr as (Hs & _). rewrite Z.mod_add by done. rewrite <- Hs. replace (f + 120) with (f + 30 * 4) by lia. by rewrite Z.mod_add. }
  destruct (room_word _ _ (f + i * 4) Hr) as (H1 & H2 & _); [lia|done|]. split; [split_and!; auto|done].
Qed.

Lemma frame_regs_words m f : (forall i, 0 <= i < 30 -> ram_word m (f + i * 4)) -> Forall (fun p : Z * Z => ram_word m (f + p.2 * 4)) frame_regs.
Proof. intros Hm. repeat (apply Forall_cons; split; [apply Hm; simpl; lia|]). apply Forall_nil. done. Qed.

Definition saved_mem (t f : Z) (c : cpu) : gmap Z Z :=
  <[t := f]> (<[f + 116 := mstatus c]> (store_regs (fun r => get_x r c) f frame_regs (mem c))).

Lemma save_context_wp t c f : get_x sp c = f + 120 -> room own t (f + 120) -> tcb_word own t ->
  (forall a, is_ram (own a) -> a mod 4 = 0 -> is_Some (mem c !! a)) ->
  wp (save_context mhartid t) (fun _ c' => mem c' = saved_mem t f c /\ get_x sp c' = f /\ get_x a0 c' = mcause c /\
    get_x a1 c' = mepc c /\ consts c c' /\ mtimecmp c' = mtimecmp c) c.
Proof.
  intros Hsp Hr [Ht Htal] Hm. pose proof (frame_words _ _ _ Hr Hm) as Hw.
  assert (Hf : u32 f = f). { destruct (Hw 0 ltac:(lia)) as [[Ha _] _]. rewrite Z.add_0_r in Ha. by apply ram_u32. }
  assert (Htr : is_ram (own t)) by (by rewrite Ht). pose proof (ram_u32 _ Htr) as Htu.
  apply wp_bind, wp_addi; [done|]. rewrite Hsp. change (- portCONTEXT_SIZE) with (-120). replace (f + 120 + -120) with f by lia. rewrite Hf.
  set (c1 := set_x sp f c). apply wp_bind. eapply (each_sw _ _ _ f); [done|apply frame_regs_words; intros i Hi; by apply Hw|].
  set (c2 := set_mem _ c1). apply wp_bind, wp_csrr; [done|]. apply wp_bind. eapply (wp_sw _ _ _ (f + 29 * 4)).
  { rewrite get_set_x_other by done. change (get_x sp c2) with f. apply ram_u32. by apply Hw. }
  1-2: by apply Hw. { apply store_regs_is_Some. by apply Hw. }
  apply wp_bind, wp_li; [done|]. apply wp_bind. eapply (wp_sw _ _ _ t); [by rewrite get_set_x_same, Htu, Z.add_0_r|done..| |].
  { cbn [mem set_mem set_x set_xreg]. by apply insert_is_Some, store_regs_is_Some, Hm. }
  apply wp_bind, wp_csrr; [done|]. apply wp_csrr; [done|]. split_and!; done.
Qed.

(** The frame, once the address to return to is in it. *)
Lemma saved_frame t f c w ms : room own t (f + 120) -> own t = OTcb -> u32_range ms -> mstatus c = trapped ms -> get_x sp c = f + 120 ->
  frame_at (<[f := w]> (saved_mem t f c)) f (mkVcpu w (f + 120) ((fun p => get_x p.1 c) <$> frame_regs) (status ms)).
Proof.
  intros Hr Ht Hmr Hms Hsp. assert (Hne : forall i, 0 <= i < 30 -> t <> f + i * 4).
  { intros i Hi ->. destruct Hr as (_ & _ & Ho). rewrite Ho in Ht by lia. done. }
  assert (Hl : forall i, 0 < i < 29 -> <[f := w]> (saved_mem t f c) !! (f + i * 4) = store_regs (fun r => get_x r c) f frame_regs (mem c) !! (f + i * 4)).
  { intros i Hi. unfold saved_mem. rewrite lookup_insert_ne by lia. rewrite lookup_insert_ne by (apply Hne; lia). by rewrite lookup_insert_ne by lia. }
  split; cbn [v_pc v_sp v_status v_regs]; [by rewrite lookup_insert_eq| | |done].
  - rewrite <- list_fmap_compose. change (Some ∘ (fun p : Z * Z => get_x p.1 c)) with (fun p : Z * Z => Some (get_x p.1 c)).
    rewrite <- (store_regs_lookup (fun r => get_x r c) f frame_regs (mem c)) by (by apply (bool_decide_unpack _)).
    apply list_fmap_ext. intros i [r j] Hi. apply Hl. apply list_elem_of_lookup_2 in Hi.
    by apply (proj1 (Forall_forall _ _) frame_regs_range (r, j)).
  - exists (trapped ms). split; [|by split_and!; [apply trapped_range..|apply trapped_mie|apply trapped_mpp|rewrite resumed_trapped]].
    unfold saved_mem. rewrite lookup_insert_ne by lia. rewrite lookup_insert_ne by (apply (Hne 29); lia). by rewrite lookup_insert_eq, Hms.
Qed.


(** Loading the registers of a frame. *)
Lemma load_frame l c f vs Q : l = frame_regs \/ l = drop 2 frame_regs -> get_x sp c = f ->
  (forall i, 0 <= i < 30 -> ram_word (mem c) (f + i * 4)) ->
  (fun p : Z * Z => mem c !! (f + p.2 * 4)) <$> l = Some <$> vs -> Q tt (load_regs l vs c) ->
  wp (each l (fun '(r, i) => lw r (i * portWORD_SIZE) sp)) Q c.
Proof.
  intros Hl Hsp Hw Hv HQ. pose proof frame_regs_ok as Hr. pose proof (frame_regs_words _ _ Hw) as Hf.
  eapply each_lw; [exact Hsp| | |exact Hv|exact HQ]; destruct Hl as [->| ->]; try done; by apply Forall_drop.
Qed.

Lemma restore_context_wp t c f v : 0 <= lowest_mode <= 3 -> mem c !! t = Some f -> frame_at (mem c) f v -> room own t (f + 120) ->
  tcb_word own t -> (forall a, is_ram (own a) -> a mod 4 = 0 -> is_Some (mem c !! a)) ->
  wp (restore_context mtime lowest_mode t) (fun _ c' => vcpu_of c' = v /\ mem c' = mem c /\ consts c c' /\
    mtimecmp c' = mtimecmp c /\ u32_range (mstatus c')) c.
Proof.
  intros Hlo Hmt Hfr Hr [Ht Htal] Hm. pose proof (frame_words _ _ _ Hr Hm) as Hw.
  assert (Htr : is_ram (own t)) by (by rewrite Ht). pose proof (ram_u32 _ Htr) as Htu.
  assert (Hwu : forall i, 0 <= i < 30 -> f +u i * 4 = f + i * 4) by (intros i Hi; apply ram_u32; by apply Hw).
  destruct Hfr as [Hpc Hregs (ms & Hms & Hmr & _ & Hmpp & Hst) Hvsp].
  apply wp_bind, wp_li; [done|]. rewrite Htu. apply wp_bind.
  eapply (wp_lw _ _ _ t); [done|by rewrite get_set_x_same, Z.add_0_r|done|exact Htal|exact Hmt|]. set (c1 := set_x sp f _).
  apply wp_bind. eapply (wp_lw _ _ _ (f + 0 * 4)); [done|exact (Hwu 0 ltac:(lia))|by apply Hw..|by rewrite Z.add_0_r|].
  apply wp_bind, wp_csrw. apply wp_bind. eapply (wp_lw _ _ _ (f + 29 * 4)); [done|exact (Hwu 29 ltac:(lia))|by apply Hw..|exact Hms|].
  apply wp_bind, wp_csrw. rewrite !get_set_x_same by done. set (c2 := set_mstatus ms _).
  apply wp_bind. eapply (load_frame _ _ f); [by left|done|intros i Hi; by apply Hw|exact Hregs|].
  assert (Hlen : length (v_regs v) = length frame_regs).
  { apply (f_equal length) in Hregs. by rewrite !length_fmap in Hregs. }
  pose proof (load_regs_rest frame_regs (v_regs v) c2) as (_ & Ems & Eepc & Etv & Emem & Ecmp).
  pose proof (load_regs_lookup frame_regs (v_regs v) c2 ltac:(by apply (bool_decide_unpack _)) ltac:(by apply (bool_decide_unpack _)) Hlen) as Hx.
  assert (Hoth : forall r, Forall (fun p : Z * Z => p.1 <> 0 /\ r <> p.1) frame_regs -> get_x r (load_regs frame_regs (v_regs v) c2) = get_x r c2)
    by (intros; by apply load_regs_other).
  set (c3 := load_regs frame_regs (v_regs v) c2) in *. clearbody c3.
  apply wp_bind, wp_addi; [done|]. rewrite Hoth by apply frame_regs_ok. change (get_x sp c2) with f.
  assert (Hfu : f +u portCONTEXT_SIZE = f + 120).
  { apply u32_small. destruct Hr as (_ & ? & _). destruct (Hw 0 ltac:(lia)) as [[Ha _] _]. pose proof (ram_range _ Ha).
    unfold u32_range, u32_modulus, portCONTEXT_SIZE, portWORD_SIZE in *. lia. }
  rewrite Hfu. eapply wp_intro; [unfold Riscv.mret_instr; cbn [mstatus set_x set_xreg]; rewrite Ems; change (mstatus c2) with ms; rewrite Hmpp; reflexivity|].
  split_and!; [|exact Emem|split_and!; [exact (Hoth gp ltac:(by apply (bool_decide_unpack _)))|exact (Hoth tp ltac:(by apply (bool_decide_unpack _)))|exact Etv]|exact Ecmp|].
  - destruct v as [vpc vsp vregs vst]. cbn [v_pc v_sp v_regs v_status] in *. unfold vcpu_of. f_equal; [exact Eepc|by rewrite Hvsp|exact Hx|].
    cbn [mstatus set_pc set_mstatus]. by rewrite status_mret, Hst.
  - cbn [mstatus set_pc set_mstatus]. by apply mret_range.
Qed.

(** ** The timer *)

Lemma port_words : Forall (fun a => is_ram (own a) /\ a mod 4 = 0) [ullNextTime; ullNextTime + 4; pullMachineTimerCompareRegister].
Proof. eapply Forall_impl; [apply (ly_port _ _ _ _ Hly)|]. by intros a [-> ?]. Qed.
Lemma device_u32 a : own a = ODevice -> u32 a = a.
Proof. intros E. apply u32_small. apply (ly_u32 _ _ _ _ Hly). by rewrite E. Qed.

Lemma wp_store_cmp a v (Q : unit -> cpu -> Prop) c (low : bool) : a = (if low then MTIMECMP mhartid else MTIMECMP mhartid + 4) ->
  Q tt (set_mtimecmp ((if low then set_low else set_high) v (hd 0 (mtimecmp c)) :: mtimecmp c) c) -> wp (store_word a v) Q c.
Proof.
  intros -> HQ. eexists _, _. split; [|exact HQ]. unfold Riscv.store_word. destruct low; [by rewrite Z.eqb_refl|].
  rewrite (proj2 (Z.eqb_neq (MTIMECMP mhartid + 4) (MTIMECMP mhartid))) by lia. by rewrite Z.eqb_refl.
Qed.
Lemma wp_sw_cmp r2 off rs (Q : unit -> cpu -> Prop) c (low : bool) :
  get_x rs c +u off = (if low then MTIMECMP mhartid else MTIMECMP mhartid + 4) ->
  Q tt (set_mtimecmp ((if low then set_low else set_high) (get_x r2 c) (hd 0 (mtimecmp c)) :: mtimecmp c) c) -> wp (sw r2 off rs) Q c.
Proof. intros E HQ. apply wp_bind, wp_rd_x, wp_bind, wp_rd_x. by apply (wp_store_cmp _ _ _ _ low). Qed.

(** Adding to the two halves of a 64-bit number. *)
Lemma add_halves z i : 0 <= z < 2 ^ 64 -> 0 <= i < 2 ^ 32 ->
  let lo := i +u z mod 2 ^ 32 in let hi := z / 2 ^ 32 +u (if lo <? z mod 2 ^ 32 then 1 else 0) in
  lo = u64 (z + i) mod 2 ^ 32 /\ hi = u64 (z + i) / 2 ^ 32.
Proof.
  intros Hz Hi lo hi. unfold u64. pose proof (Z.div_mod z (2 ^ 32) ltac:(lia)) as Ez. pose proof (Z.mod_pos_bound z (2 ^ 32) ltac:(lia)) as Hm.
  assert (Hq : 0 <= z / 2 ^ 32 < 2 ^ 32) by (split; [apply Z.div_pos; lia|apply Z.div_lt_upper_bound; lia]).
  subst lo hi. set (q := z / 2 ^ 32) in *. set (r := z mod 2 ^ 32) in *. clearbody q r. subst z. unfold u32, u32_modulus.
  change 4294967296 with (2 ^ 32). destruct (Z_lt_dec (i + r) (2 ^ 32)).
  - rewrite (Z.mod_small (i + r)) by lia. rewrite (proj2 (Z.ltb_ge (i + r) r)) by lia. rewrite (Z.mod_small (q + 0)) by lia.
    rewrite (Z.mod_small (2 ^ 32 * q + r + i)) by lia. split; [apply (Z.mod_unique_pos _ _ q)|apply (Z.div_unique_pos _ _ _ (r + i))]; lia.
  - replace ((i + r) mod 2 ^ 32) with (i + r - 2 ^ 32) by (apply (Z.mod_unique_pos _ _ 1); lia).
    rewrite (proj2 (Z.ltb_lt (i + r - 2 ^ 32) r)) by lia. destruct (Z.eq_dec q (2 ^ 32 - 1)) as [->|Hne].
    + replace ((2 ^ 32 * (2 ^ 32 - 1) + r + i) mod 2 ^ 64) with (r + i - 2 ^ 32) by (apply (Z.mod_unique_pos _ _ 1); lia).
      rewrite (Z.mod_small (r + i - 2 ^ 32)) by lia. rewrite (Z.div_small (r + i - 2 ^ 32)) by lia. split; [lia|done].
    + rewrite (Z.mod_small (q + 1)) by lia. rewrite (Z.mod_small (2 ^ 32 * q + r + i)) by lia.
      split; [apply (Z.mod_unique_pos _ _ (q + 1))|apply (Z.div_unique_pos _ _ _ (r + i - 2 ^ 32))]; lia.
Qed.

Lemma cmp_updates_eq new old : 0 <= new < 2 ^ 64 ->
  let w1 := set_low (2 ^ 32 - 1) old in let w2 := set_high (new / 2 ^ 32) w1 in
  [set_low (new mod 2 ^ 32) w2; w2; w1] = cmp_updates new old.
Proof.
  intros Hn w1 w2. assert (E2 : w2 = new / 2 ^ 32 * 2 ^ 32 + (2 ^ 32 - 1)).
  { unfold w2, w1, set_high, set_low. f_equal. rewrite Z.add_comm, Z.mod_add by lia. done. }
  rewrite E2. unfold cmp_updates. f_equal. unfold set_low. rewrite Z.div_add_l by lia. rewrite (Z.div_small (2 ^ 32 - 1)) by lia.
  rewrite Z.add_0_r, Z.mul_comm. symmetry. by apply Z.div_mod.
Qed.

Lemma update_timer_wp c z : next_time ullNextTime (mem c) z -> mem c !! pullMachineTimerCompareRegister = Some (MTIMECMP mhartid) ->
  wp (update_timer mhartid mtime ullNextTime pullMachineTimerCompareRegister)
    (fun _ c' => next_time ullNextTime (mem c') (u64 (z + uxTimerIncrementsForOneTick)) /\ mtimecmp c' = cmp_updates z (hd 0 (mtimecmp c)) ++ mtimecmp c /\
       consts c c' /\ (forall a, own a <> OPort -> mem c' !! a = mem c !! a) /\
       (forall a, is_Some (mem c !! a) -> is_Some (mem c' !! a)) /\
       mem c' !! pullMachineTimerCompareRegister = Some (MTIMECMP mhartid)) c.
Proof.
  intros (Hz & Hlo & Hhi) Hcmp. pose proof port_words as Hp. rewrite !Forall_cons in Hp. destruct Hp as ((Hu & Hual) & (Hu4 & Hu4al) & (Hc & Hcal) & _).
  pose proof (ly_device _ _ _ _ Hly) as Hd. rewrite !Forall_cons in Hd. destruct Hd as (_ & _ & Hd1 & Hd2 & _).
  pose proof (ram_u32 _ Hu) as Eu. pose proof (ram_u32 _ Hu4) as Eu4. pose proof (ram_u32 _ Hc) as Ec.
  pose proof (device_u32 _ Hd1) as Ed1. pose proof (device_u32 _ Hd2) as Ed2.
  assert (Eu0 : ullNextTime +u 0 = ullNextTime) by (by rewrite Z.add_0_r). assert (Ed0 : MTIMECMP mhartid +u 0 = MTIMECMP mhartid) by (by rewrite Z.add_0_r).
  destruct (add_halves z uxTimerIncrementsForOneTick Hz ltac:(done)) as [Enlo Enhi].
  apply wp_bind. eapply (wp_lw _ _ _ pullMachineTimerCompareRegister); [done|exact Ec|done|done|exact Hcmp|].
  apply wp_bind, wp_li; [done|]. rewrite Eu. apply wp_bind, wp_li; [done|]. change (u32 (-1)) with (2 ^ 32 - 1).
  apply wp_bind. eapply (wp_lw _ _ _ ullNextTime); [done|exact Eu0|done|done|exact Hlo|].
  apply wp_bind. eapply (wp_lw _ _ _ (ullNextTime + 4)); [done|exact Eu4|done|done|exact Hhi|].
  apply wp_bind. eapply (wp_sw_cmp _ _ _ _ _ true); [exact Ed0|].
  apply wp_bind. eapply (wp_sw_cmp _ _ _ _ _ false); [exact Ed2|].
  apply wp_bind. eapply (wp_sw_cmp _ _ _ _ _ true); [exact Ed0|].
  apply wp_bind, wp_li; [done|]. apply wp_bind, wp_add; [done|]. apply wp_bind, wp_sltu; [done|]. apply wp_bind, wp_add; [done|].
  set (c9 := set_x t6 _ _). assert (E4 : get_x t4 c9 = u64 (z + uxTimerIncrementsForOneTick) mod 2 ^ 32) by exact Enlo.
  assert (E6 : get_x t6 c9 = u64 (z + uxTimerIncrementsForOneTick) / 2 ^ 32) by exact Enhi.
  assert (Em : mem c9 = mem c) by done. assert (E1 : get_x t1 c9 = ullNextTime) by done.
  assert (Ecs : mtimecmp c9 = cmp_updates z (hd 0 (mtimecmp c)) ++ mtimecmp c) 
    by exact (f_equal (fun l => l ++ mtimecmp c) (cmp_updates_eq z (hd 0 (mtimecmp c)) Hz)).
  assert (Hk : consts c c9) by done. clearbody c9.
  apply wp_bind. eapply (wp_sw _ _ _ ullNextTime); [by rewrite E1, Z.add_0_r|done|done|rewrite Em; eauto|].
  eapply (wp_sw _ _ _ (ullNextTime + 4)); [exact (eq_trans (f_equal (fun x => x +u 4) E1) Eu4)|done|done|rewrite Em; cbn [mem set_mem]; apply insert_is_Some; eauto|].
  set (z' := u64 (z + uxTimerIncrementsForOneTick)) in *. cbn [mem set_mem mtimecmp]. change (get_x t6 (set_mem _ c9)) with (get_x t6 c9).
  rewrite Em, E4, E6, Ecs. assert (Hne : ullNextTime <> ullNextTime + 4) by lia.
  destruct (ly_port_apart _ _ _ _ Hly) as [Hca Hca4]. pose proof (ly_port _ _ _ _ Hly) as Hpo. rewrite !Forall_cons in Hpo.
  split_and!; [split_and!| |exact Hk| | |].
  - apply Z.mod_pos_bound. lia.
  - apply Z.mod_pos_bound. lia.
  - by rewrite lookup_insert_ne, lookup_insert_eq.
  - by rewrite lookup_insert_eq.
  - done.
  - intros a Ha. rewrite !lookup_insert_ne; [done|..]; intros <-; tauto.
  - intros a Ha. by do 2 apply insert_is_Some.
  - by rewrite !lookup_insert_ne.
Qed.
End Mem.
