(* ===== verification/PortTraps.v ===== *)
(** * The trap handler

    What each trap does to kernel and processor: the kernel does its part, the
    running task's virtual processor goes to its stack, and that of the task the
    kernel has selected goes into the processor. *)

From S2P Require Import Prelude Config ListSpec Kernel Tasks Riscv Port PortSpec PortProps.

Section Traps.
Variable mhartid : Z.
Variable mtime : nat -> Z.
Variable lowest_mode : Z.
Variables freertos_risc_v_trap_handler_addr ullNextTime pullMachineTimerCompareRegister xISRStackTop : Z.
Variable own : Z -> owner.
Context {H : Type} `{!ListOps item list_id H}.
Notation K := (Kernel H).
Notation cur k := (pxCurrentTCB (k_vars k)).
Variable after_call : K -> cpu -> cpu.
Variable portasmHANDLE_INTERRUPT : M K unit.
Notation layout := (layout mhartid ullNextTime pullMachineTimerCompareRegister own).
Notation set_up := (set_up mhartid freertos_risc_v_trap_handler_addr ullNextTime pullMachineTimerCompareRegister own).
Notation virtual := (virtual mhartid freertos_risc_v_trap_handler_addr ullNextTime pullMachineTimerCompareRegister own).
Notation next_time := (next_time ullNextTime).
Notation time_step := (time_step ullNextTime).
Notation kernel_part := (kernel_part portasmHANDLE_INTERRUPT).
Notation take_trap := (take_trap mhartid mtime lowest_mode freertos_risc_v_trap_handler_addr ullNextTime
  pullMachineTimerCompareRegister xISRStackTop after_call portasmHANDLE_INTERRUPT).
Notation handle_asynchronous := (handle_asynchronous mhartid mtime ullNextTime
  pullMachineTimerCompareRegister xISRStackTop after_call portasmHANDLE_INTERRUPT).
Notation handle_synchronous := (handle_synchronous mhartid xISRStackTop after_call).
Context (Hly : layout) (Hlo : 0 <= lowest_mode <= 3) (Habi : abi own after_call).

(** The words that traps leave alone, in [m] and in the processor [c]. *)
Record kept (c c' : cpu) : Prop := {
  kp_consts : consts c c';
  kp_mem : forall a, is_ram (own a) -> own a <> OPort -> mem c' !! a = mem c !! a;
  kp_some : forall a, is_ram (own a) -> is_Some (mem c !! a) -> is_Some (mem c' !! a);
  kp_cmp : mem c !! pullMachineTimerCompareRegister = Some (MTIMECMP mhartid) ->
           mem c' !! pullMachineTimerCompareRegister = Some (MTIMECMP mhartid)
}.

#[local] Instance kept_refl : Reflexive kept.
Proof. intros c. by split. Qed.
#[local] Instance kept_trans : Transitive kept.
Proof.
  intros c1 c2 c3 [C1 M1 S1 P1] [C2 M2 S2 P2]. split; [by etrans|..|by auto].
  - intros a Ha Hp. by rewrite M2, M1.
  - auto.
Qed.

Lemma port_ram : is_ram (own ullNextTime) /\ is_ram (own (ullNextTime + 4)) /\ is_ram (own pullMachineTimerCompareRegister).
Proof. pose proof (port_words _ _ _ _ Hly) as Hp. rewrite !Forall_cons in Hp. tauto. Qed.
Lemma next_time_mem m m' z : m' !! ullNextTime = m !! ullNextTime -> m' !! (ullNextTime + 4) = m !! (ullNextTime + 4) ->
  next_time m z -> next_time m' z.
Proof. intros E1 E2 (? & ? & ?). split_and!; [lia|lia|congruence..]. Qed.

Lemma kept_after_call k c : kept c (after_call k c).
Proof.
  destruct Habi as [Hm Hg Ht Hv Hc]. split; [by split_and!|..].
  - intros a Ha _. by apply Hm.
  - intros a Ha. by rewrite Hm.
  - rewrite Hm; [done|]. apply port_ram.
Qed.
Lemma after_call_time k c z : next_time (mem c) z -> next_time (mem (after_call k c)) z.
Proof. destruct Habi as [Hm _ _ _ _]. apply next_time_mem; apply Hm; apply port_ram. Qed.

Lemma wp_jal {A} (f : M K A) (Q : A -> K * cpu -> Prop) k c :
  wp f (fun r k' => Q r (k', after_call k' c)) k -> wp (jal after_call f) Q (k, c).
Proof. intros Hf. apply wp_bind, wp_on_fst. eapply wp_mono; [exact Hf|]. intros r k' HQ. by apply wp_bind, wp_modify, wp_ret. Qed.

Lemma wp_cpu {A} (m : M cpu A) (Q : A -> K * cpu -> Prop) k c : wp m (fun a c' => Q a (k, c')) c -> wp (on_snd m) Q (k, c).
Proof. intros Hm. apply wp_on_snd. exact Hm. Qed.

Lemma kept_set_x r v c : r <> gp -> r <> tp -> kept c (set_x r v c).
Proof.
  intros ??. split; [|done..]. destruct (Z.eq_dec r 0) as [->|]; split_and!; try done; by apply get_set_x_other.
Qed.
Lemma kept_time c c' z : mem c' = mem c -> next_time (mem c) z -> next_time (mem c') z.
Proof. by intros ->. Qed.

(** The kernel's part of a timer or external interrupt. *)
Lemma async_wp e k c Q : e <> Yield -> get_x a0 c = cause_of e -> set_up c -> wp (kernel_part e) (fun _ => Q) k ->
  wp handle_asynchronous (fun _ s => Q s.1 /\ kept c s.2 /\ time_step e c s.2) (k, c).
Proof.
  intros He Ha0 Hsu Hk. destruct Hsu as [_ Hcmp [z Hz] _].
  apply wp_bind, wp_cpu, wp_bind, wp_addi; [done|]. apply wp_bind, wp_slli; [done|]. apply wp_addi; [done|].
  set (c1 := set_x t1 _ _). assert (Hc1 : get_x a0 c1 = cause_of e) by done. assert (Ht1 : get_x t1 c1 = 2147483655) by done.
  assert (Hk1 : kept c c1) by done. assert (Em : mem c1 = mem c) by done. assert (Ecs : mtimecmp c1 = mtimecmp c) by done. clearbody c1.
  apply wp_bind, wp_cpu, wp_rd_x. rewrite Hc1. apply wp_bind, wp_cpu, wp_rd_x. rewrite Ht1. destruct e; [|done|].
  - apply wp_bind, wp_cpu, wp_bind. eapply wp_mono; [apply (update_timer_wp _ _ _ _ _ Hly _ z); by rewrite Em|].
    cbv beta. intros _ c2 (Hz2 & Hcs2 & Hcon2 & Hm2 & Hs2 & Hcmp2). rewrite Ecs in Hcs2.
    assert (Hk2 : kept c c2). { etrans; [exact Hk1|]. split; [done|intros; by apply Hm2|auto|done]. }
    apply wp_li; [done|]. set (c3 := set_x _ _ c2). assert (Hk3 : kept c c3) by (etrans; [exact Hk2|by apply kept_set_x]). assert (Hz3 : next_time (mem c3) (u64 (z + uxTimerIncrementsForOneTick))) by done.
    assert (Hcs3 : mtimecmp c3 = cmp_updates z (hd 0 (mtimecmp c)) ++ mtimecmp c) by done. clearbody c3.
    assert (Hpost : forall k' c', kept c3 c' -> mtimecmp c' = mtimecmp c3 -> (forall z, next_time (mem c3) z -> next_time (mem c') z) -> Q k' ->
      Q k' /\ kept c c' /\ time_step Tick c c').
    { intros k' c' Hkc Hcs Hzc HQ. split; [done|]. split; [by etrans|]. intros y Hy.
      assert (y = z) as ->. { destruct Hy as (Hy & E1 & E2), Hz as (Hzr & F1 & F2). rewrite E1 in F1. rewrite E2 in F2. injection F1 as F1. injection F2 as F2.
        rewrite (Z.div_mod y (2 ^ 32)), (Z.div_mod z (2 ^ 32)) by done. by rewrite F1, F2. }
      split; [by apply Hzc|congruence]. }
    unfold kernel_part, timer_interrupt in Hk. apply wp_bind_inv in Hk. apply wp_bind, wp_jal. eapply wp_mono; [exact Hk|]. cbv beta.
    intros r k' Hw. set (c4 := after_call k' c3). assert (Hk4 : kept c3 c4) by apply kept_after_call.
    assert (Hz4 : forall z, next_time (mem c3) z -> next_time (mem c4) z) by (intros; by apply after_call_time).
    assert (Hcs4 : mtimecmp c4 = mtimecmp c3) by apply (ac_mtimecmp _ _ Habi). clearbody c4.
    apply wp_bind, wp_cpu, wp_wr_x; [done|]. set (c5 := set_x a0 r c4). assert (Hk5 : kept c3 c5) by (etrans; [exact Hk4|by apply kept_set_x]).
    assert (Hcs5 : mtimecmp c5 = mtimecmp c3) by done. assert (Hz5 : forall z, next_time (mem c3) z -> next_time (mem c5) z) by done.
    assert (Hr5 : get_x a0 c5 = r) by done. clearbody c5. apply wp_bind, wp_cpu, wp_rd_x. rewrite Hr5. unfold pdFALSE in Hw.
    destruct (r =? 0); cbn [negb when] in Hw.
    + destruct Hw as (u & k2 & E & HQ). cbv beta in HQ. injection E as <- <-. apply wp_ret. by apply Hpost.
    + apply wp_jal. eapply wp_mono; [exact Hw|]. intros u k2 HQ. apply Hpost; [etrans; [exact Hk5|apply kept_after_call]| |intros; by apply after_call_time, Hz5|done].
      etrans; [apply (ac_mtimecmp _ _ Habi)|done].
  - change (cause_of External =? 2147483655) with false. cbv iota. apply wp_bind, wp_cpu, wp_addi; [done|]. rewrite Ht1.
    apply wp_bind, wp_cpu, wp_rd_x. rewrite get_set_x_same by done. change (cause_of External =? 2147483655 +u 4) with true. cbv iota.
    apply wp_bind, wp_cpu, wp_li; [done|]. set (c3 := set_x _ _ _). assert (Hk3 : kept c c3) by (etrans; [exact Hk1|]; etrans; by apply kept_set_x). assert (E3 : mem c3 = mem c) by done.
    assert (F3 : mtimecmp c3 = mtimecmp c) by done. clearbody c3. apply wp_jal. eapply wp_mono; [exact Hk|]. intros u k' HQ. split; [done|].
    split; [etrans; [exact Hk3|apply kept_after_call]|]. split; [|etrans; [apply (ac_mtimecmp _ _ Habi)|done]].
    intros y Hy. apply after_call_time. by rewrite E3.
Qed.

(** The kernel's part of ecall, which goes on at the next instruction. *)
Lemma sync_wp k c Q f : get_x a0 c = 11 -> get_x sp c = f -> ram_word own (mem c) f -> own f <> OPort ->
  (forall a, is_ram (own a) -> u32 a = a) -> wp portYIELD (fun _ => Q) k ->
  wp handle_synchronous (fun _ s => Q s.1 /\ kept (set_mem (<[f := get_x a1 c +u 4]> (mem c)) c) s.2 /\
    (forall z, next_time (mem c) z -> next_time (mem s.2) z) /\ mtimecmp s.2 = mtimecmp c) (k, c).
Proof.
  intros Ha0 Hsp (Hf & Hal & Hsome) Hop Hu Hk. destruct port_ram as (_ & _ & _).
  apply wp_bind, wp_cpu, wp_bind, wp_addi; [done|]. apply wp_bind. eapply (wp_sw _ _ _ _ Hly _ _ _ f).
  { rewrite get_set_x_other by done. by rewrite Hsp, Z.add_0_r, Hu. }
  1-3: done. apply wp_li; [done|]. rewrite get_set_x_same by done. set (c1 := set_x t0 _ _).
  assert (Hk1 : kept (set_mem (<[f := get_x a1 c +u 4]> (mem c)) c) c1) by done.
  assert (Em : mem c1 = <[f := get_x a1 c +u 4]> (mem c)) by done. assert (Ecs : mtimecmp c1 = mtimecmp c) by done.
  assert (E0 : get_x a0 c1 = 11) by done. assert (E5 : get_x t0 c1 = 11) by done. clearbody c1.
  apply wp_bind, wp_cpu, wp_rd_x. rewrite E0. apply wp_bind, wp_cpu, wp_rd_x. rewrite E5. cbv iota.
  apply wp_bind, wp_cpu, wp_li; [done|]. set (c2 := set_x _ _ c1). assert (Hk2 : kept (set_mem (<[f := get_x a1 c +u 4]> (mem c)) c) c2) by (etrans; [exact Hk1|by apply kept_set_x]).
  assert (Em2 : mem c2 = <[f := get_x a1 c +u 4]> (mem c)) by done. assert (Ecs2 : mtimecmp c2 = mtimecmp c) by done. clearbody c2.
  apply wp_jal. eapply wp_mono; [exact Hk|]. intros u k' HQ. split; [done|]. split; [etrans; [exact Hk2|apply kept_after_call]|].
  split; [|etrans; [apply (ac_mtimecmp _ _ Habi)|done]]. intros z Hz. apply after_call_time. rewrite Em2.
  pose proof (ly_port _ _ _ _ Hly) as Hpo. rewrite !Forall_cons in Hpo. destruct Hpo as ((Hp1 & _) & (Hp2 & _) & _).
  revert Hz. apply next_time_mem; rewrite lookup_insert_ne; congruence.
Qed.

(** ** Suspended processors *)

Lemma suspended_mem m m' t v : tcb_word own t -> m' !! t = m !! t -> (forall a, own a = OStack t -> a mod 4 = 0 -> m' !! a = m !! a) ->
  suspended_at own m t v -> suspended_at own m' t v.
Proof.
  intros Ht Et Es (f & Hf & [Hpc Hregs (ms & Hms & Hst) Hsp] & Hr). exists f. split; [by rewrite Et|]. split; [|done].
  assert (Hw : forall i, 0 <= i < 30 -> m' !! (f + i * 4) = m !! (f + i * 4)).
  { intros i Hi. destruct Hr as (Hal & _ & Ho). apply Es; [apply Ho; lia|]. rewrite Z.mod_add by done. rewrite <- Hal.
    replace (f + 120) with (f + 30 * 4) by lia. by rewrite Z.mod_add. }
  pose proof (Hw 0 ltac:(lia)) as E0. change (f + 0 * 4) with (f + 0) in E0. rewrite Z.add_0_r in E0.
  pose proof (Hw 29 ltac:(lia)) as E29. change (29 * 4) with 116 in E29.
  split; [by rewrite E0| |exists ms; split; [by rewrite E29|done]|done].
  rewrite <- Hregs. apply list_fmap_ext. intros i [r j] Hi. apply Hw. apply list_elem_of_lookup_2 in Hi.
  pose proof (proj1 (Forall_forall _ _) frame_regs_range (r, j) Hi). simpl in *. lia.
Qed.

Lemma suspended_kept c c' t v : kept c c' -> tcb_word own t -> suspended_at own (mem c) t v -> suspended_at own (mem c') t v.
Proof.
  intros Hk [Ht Hal]. apply suspended_mem; [done|apply Hk; by rewrite Ht|]. intros a Ha _. apply Hk; by rewrite Ha.
Qed.

Lemma saved_mem_other t f c w a : room own t (f + 120) -> own a <> OStack t -> a <> t ->
  (<[f := w]> (saved_mem t f c)) !! a = mem c !! a.
Proof.
  intros (_ & _ & Ho) Ha Hat. assert (Hne : forall i, 0 <= i < 30 -> a <> f + i * 4) by (intros i Hi ->; apply Ha, Ho; lia).
  pose proof (Hne 0 ltac:(lia)) as H0. pose proof (Hne 29 ltac:(lia)) as H29.
  rewrite lookup_insert_ne by lia. unfold saved_mem. rewrite lookup_insert_ne by done.
  rewrite lookup_insert_ne by lia. apply store_regs_other.
  eapply Forall_impl; [exact frame_regs_range|]. intros p Hp. cbv beta in *. apply Hne. lia.
Qed.

Lemma set_up_kept c c' e : kept c c' -> time_step e c c' -> set_up c -> set_up c'.
Proof.
  intros Hk Ht [Hram Hcmp [z Hz] Htv]. split.
  - intros a Ha Hal. apply (kp_some _ _ Hk); auto.
  - by apply (kp_cmp _ _ Hk).
  - destruct e; [exists (u64 (z + uxTimerIncrementsForOneTick))|exists z..]; by apply Ht.
  - destruct (kp_consts _ _ Hk) as (_ & _ & ->). done.
Qed.

(** The last part of the handler, when all tasks are in their frames. *)
Lemma resume_wp t c V : (forall u v, V !! u = Some v -> suspended_at own (mem c) u v) -> (forall u, is_Some (V !! u) -> tcb_word own u) ->
  set_up c -> is_Some (V !! t) ->
  wp (restore_context mtime lowest_mode t) (fun _ c' => virtual t c' V /\ consts c c' /\ mem c' = mem c /\ mtimecmp c' = mtimecmp c) c.
Proof.
  intros Hs Htcb Hsu [v Hv]. destruct (Hs t v Hv) as (f & Hf & Hfr & Hr). assert (Ht : tcb_word own t) by eauto.
  eapply wp_mono; [eapply (restore_context_wp _ _ _ _ _ _ Hly _ _ _ _ Hlo Hf Hfr Hr Ht), Hsu|].
  cbv beta. intros _ c' (Hc & Hm & Hcon & Hcs & Hst). split_and!; [|done..]. split; [| | | | |done].
  - destruct Hsu as [Hram Hcmp Htime Htv]. split; rewrite ?Hm; [done..|]. by destruct Hcon as (_ & _ & ->).
  - done.
  - intros u w Hu _. rewrite Hm. by apply Hs.
  - by rewrite Hc.
  - change (get_x sp c') with (v_sp (vcpu_of c')). rewrite Hc. destruct Hfr as [_ _ _ ->]. done.
Qed.

(** ** The trap as a whole *)

(** After the entry all tasks are in their frames, the running one with the
    address at which it goes on. *)
Lemma all_saved t c c0 f w c2 c3 V v : virtual t c V -> get_x sp c = f + 120 -> mem c0 = mem c -> mstatus c0 = trapped (mstatus c) ->
  get_x sp c0 = get_x sp c -> (fun p : Z * Z => get_x p.1 c0) <$> frame_regs = (fun p : Z * Z => get_x p.1 c) <$> frame_regs ->
  mem c2 = <[f := w]> (saved_mem t f c0) -> kept c2 c3 -> v = set_v_pc w (vcpu_of c) ->
  forall u x, <[t := v]> V !! u = Some x -> suspended_at own (mem c3) u x.
Proof.
  intros [Hsu Htcb Hsusp Hrun Hroom Hsta] Hsp Em0 Hst Hsp0 Hregs E2 Hk -> u x Hx. rewrite Hsp in Hroom.
  assert (Ht : tcb_word own t) by (apply Htcb; eauto). destruct (decide (u = t)) as [->|Hne].
  - rewrite lookup_insert_eq in Hx. injection Hx as <-. eapply suspended_kept; [exact Hk|done|]. rewrite E2. exists f.
    split; [|split; [|done]].
    + assert (t <> f). { intros ->. destruct Hroom as (_ & _ & Ho), Ht as [Ht _]. rewrite Ho in Ht by lia. done. }
      rewrite lookup_insert_ne by done. unfold saved_mem. by rewrite lookup_insert_eq.
    + assert (Ev : set_v_pc w (vcpu_of c) = mkVcpu w (f + 120) ((fun p : Z * Z => get_x p.1 c0) <$> frame_regs) (status (mstatus c))).
      { rewrite Hregs, <- Hsp. done. }
      rewrite Ev. eapply saved_frame; [exact Hroom|apply Ht|exact Hsta|done|by rewrite Hsp0].
  - rewrite lookup_insert_ne in Hx by done. assert (Hu : tcb_word own u) by (apply Htcb; eauto).
    eapply suspended_kept; [exact Hk|done|]. eapply suspended_mem; [done| | |apply (Hsusp u x Hx Hne)]; rewrite E2, <- Em0.
    + apply saved_mem_other; [done| |done]. destruct Hu as [-> _]. done.
    + intros a Ha _. apply saved_mem_other; [done| |]; [rewrite Ha; congruence|]. intros ->. destruct Ht as [Ht _]. congruence.
Qed.

(** The port's own words are not in the frame. *)
Lemma saved_port t f c0 w c2 a : room own t (f + 120) -> tcb_word own t -> mem c2 = <[f := w]> (saved_mem t f c0) ->
  own a = OPort -> mem c2 !! a = mem c0 !! a.
Proof. intros Hr [Ht _] -> Ha. apply saved_mem_other; [done|by rewrite Ha|]. intros ->. congruence. Qed.

Lemma saved_set_up t f c0 w c2 : room own t (f + 120) -> tcb_word own t -> mem c2 = <[f := w]> (saved_mem t f c0) ->
  mtvec c2 = mtvec c0 -> set_up c0 -> set_up c2 /\ forall z, next_time (mem c0) z -> next_time (mem c2) z.
Proof.
  intros Hr Ht E2 Etv [Hram Hcmp [z Hz] Htv]. pose proof (ly_port _ _ _ _ Hly) as Hp. rewrite !Forall_cons in Hp.
  destruct Hp as ((P1 & _) & (P2 & _) & (P3 & _) & _).
  assert (Hn : forall z, next_time (mem c0) z -> next_time (mem c2) z) by (intros y; apply next_time_mem; by eapply saved_port).
  split; [split|done].
  - intros a Ha Hal. rewrite E2. unfold saved_mem. by apply insert_is_Some, insert_is_Some, insert_is_Some, store_regs_is_Some, Hram.
  - by erewrite saved_port.
  - eauto.
  - by rewrite Etv.
Qed.

Lemma take_trap_wp e k c V (Q : K -> Prop) : virtual (cur k) c V ->
  wp (kernel_part e) (fun _ k' => is_Some (V !! cur k') /\ Q k') k ->
  wp (take_trap (cause_of e)) (fun _ s => Q s.1 /\ virtual (cur s.1) s.2 (alter (leave e) (cur k) V) /\ consts c s.2 /\
    time_step e c s.2) (k, c).
Proof.
  intros Hv Hk. pose proof Hv as [Hsu Htcb Hsusp Hrun Hroom _]. set (t := cur k) in *. assert (Ht : tcb_word own t) by (apply Htcb; eauto).
  set (f := get_x sp c - 120). assert (Hsp : get_x sp c = f + 120) by lia. rewrite Hsp in Hroom.
  apply wp_bind, wp_cpu, wp_modify. set (c0 := set_mepc _ _). apply wp_bind, wp_cpu, wp_gets.
  replace (pc c0 =? freertos_risc_v_trap_handler_addr) with true by (symmetry; apply Z.eqb_eq, Hsu). apply wp_bind, wp_on_fst, wp_gets. cbn [fst snd].
  assert (Hsu0 : set_up c0) by (destruct Hsu; by split).
  assert (F0 : get_x sp c0 = get_x sp c) by done. assert (F1 : mem c0 = mem c) by done. assert (F2 : mstatus c0 = trapped (mstatus c)) by done.
  assert (F3 : (fun p : Z * Z => get_x p.1 c0) <$> frame_regs = (fun p : Z * Z => get_x p.1 c) <$> frame_regs) by done.
  assert (F4 : mcause c0 = cause_of e) by done. assert (F5 : mepc c0 = pc c) by done. assert (F6 : consts c c0) by done.
  assert (F7 : mtimecmp c0 = mtimecmp c) by done. clearbody c0.
  apply wp_bind, wp_cpu. eapply wp_mono; [eapply save_context_wp; [exact Hly|by rewrite F0|exact Hroom|exact Ht|apply Hsu0]|].
  cbv beta. intros _ c1 (Hm1 & Hsp1 & Ha01 & Ha11 & Hcon1 & Hcs1). rewrite F4 in Ha01. rewrite F5 in Ha11.
  apply wp_bind, wp_cpu, wp_srli; [done|]. rewrite Ha01. set (c2 := set_x a2 _ c1).
  apply wp_bind, wp_cpu, wp_rd_x. change (get_x a2 c2) with (Z.shiftr (cause_of e) 31).
  assert (G0 : get_x a0 c2 = cause_of e) by done. assert (G1 : get_x sp c2 = f) by done. assert (G2 : get_x a1 c2 = pc c) by done.
  assert (G3 : mem c2 = saved_mem t f c0) by done. assert (G4 : consts c c2) by (etrans; [exact F6|exact Hcon1]).
  assert (G5 : mtimecmp c2 = mtimecmp c) by (by rewrite <- F7, <- Hcs1). clearbody c2. clear c1 Hm1 Hsp1 Ha01 Ha11 Hcon1 Hcs1.
  (* what is left to show once the kernel has run *)
  assert (Hend : forall cm w k' c3, mem cm = <[f := w]> (saved_mem t f c0) -> consts c cm -> mtimecmp cm = mtimecmp c -> kept cm c3 ->
    time_step e cm c3 -> leave e (vcpu_of c) = set_v_pc w (vcpu_of c) -> is_Some (V !! cur k') /\ Q k' ->
    wp (cur ← rd_pxCurrentTCB; on_snd (restore_context mtime lowest_mode cur)) (fun _ s => Q s.1 /\
      virtual (cur s.1) s.2 (alter (leave e) t V) /\ consts c s.2 /\ time_step e c s.2) (k', c3)).
  { intros cm w k' c3 Ecm Hcm Hcs Hkc Hts Hw [Hin HQ].
    destruct (saved_set_up t f c0 w cm Hroom Ht Ecm ltac:(destruct Hcm as (_ & _ & ->), F6 as (_ & _ & ->); done) Hsu0) as [Hsum Htm].
    assert (EV : alter (leave e) t V = <[t := set_v_pc w (vcpu_of c)]> V).
    { apply map_eq. intros u. destruct (decide (u = t)) as [->|]; [by rewrite lookup_alter_eq, lookup_insert_eq, Hrun, <- Hw|].
      by rewrite lookup_alter_ne, lookup_insert_ne. }
    rewrite EV. apply wp_bind, wp_on_fst, wp_gets. apply wp_cpu. cbn [fst snd].
    eapply wp_mono; [apply (resume_wp _ _ (<[t := set_v_pc w (vcpu_of c)]> V))|].
    - eapply all_saved; try done.
    - intros u Hu. apply Htcb. destruct (decide (u = t)) as [->|]; [eauto|by rewrite lookup_insert_ne in Hu].
    - by eapply set_up_kept.
    - destruct (decide (cur k' = t)) as [->|]; [rewrite lookup_insert_eq; eauto|by rewrite lookup_insert_ne].
    - cbv beta. intros _ c' (Hvi & Hcon & Em & Ecs). split; [done|]. split; [done|]. split; [etrans; [exact Hcm|]; etrans; [apply Hkc|done]|].
      destruct e; simpl in *; rewrite Em, Ecs, <- Hcs; [intros z Hz; apply Hts; apply Htm; by rewrite F1| |];
        destruct Hts as [Hn ->]; (split; [intros z Hz; apply Hn, Htm; by rewrite F1|done]). }
  assert (Hw0 : ram_word own (mem c2) f /\ own f = OStack t).
  { assert (Hm : forall a, is_ram (own a) -> a mod 4 = 0 -> is_Some (mem c2 !! a)).
    { intros a Ha Hal. rewrite G3. by apply insert_is_Some, insert_is_Some, store_regs_is_Some, Hsu0. }
    rewrite <- (Z.add_0_r f). change (f + 0) with (f + 0 * 4). eapply frame_words; [exact Hly|exact Hroom|exact Hm|lia]. }
  destruct Hw0 as [Hw0 Ho]. pose proof (ram_u32 _ _ _ _ Hly) as Hu. destruct (decide (e = Yield)) as [->|He].
  - apply wp_bind. eapply wp_mono; [apply (sync_wp _ _ _ f G0 G1 Hw0 ltac:(by rewrite Ho) Hu Hk)|].
    cbv beta. intros _ [k' c3] ([Hin HQ] & Hkc & Hn & Hcs). cbn [fst snd] in *.
    apply (Hend (set_mem (<[f := get_x a1 c2 +u 4]> (mem c2)) c2) (get_x a1 c2 +u 4)); try done; [by rewrite G3| |by rewrite G2].
    split; [|done]. intros z Hz. apply Hn. revert Hz. pose proof (ly_port _ _ _ _ Hly) as Hp. rewrite !Forall_cons in Hp.
    destruct Hp as ((P1 & _) & (P2 & _) & _). apply next_time_mem; cbn [mem set_mem]; rewrite lookup_insert_ne; congruence.
  - rewrite (proj2 (Z.eqb_neq (Z.shiftr (cause_of e) 31) 0)) by (by destruct e). apply wp_bind.
    destruct Hw0 as (Hfr & Hfal & Hfs). apply wp_bind, wp_cpu. eapply (wp_sw _ _ _ _ Hly _ _ _ f); [by rewrite G1, Z.add_0_r, Hu|done..|].
    rewrite G2. set (c3 := set_mem _ c2). assert (G6 : mem c3 = <[f := pc c]> (saved_mem t f c0)) by (unfold c3; cbn [mem set_mem]; by rewrite G3).
    eapply wp_mono; [apply (async_wp e k c3 (fun k' => is_Some (V !! cur k') /\ Q k') He G0); [|exact Hk]|].
    { apply (saved_set_up t f c0 (pc c)); try done. change (mtvec c3) with (mtvec c2). destruct G4 as (_ & _ & ->), F6 as (_ & _ & ->). done. }
    cbv beta. intros _ [k' c4] ([Hin HQ] & Hkc & Hts). cbn [fst snd] in *. apply (Hend c3 (pc c)); try done. by destruct e.
Qed.
End Traps.
