(* ===== verification/PortStart.v ===== *)
(** * Making tasks and starting them

    What prvInitialiseNewTask builds on a new stack, how the clock is read and
    the timer set, and how xPortStartFirstTask enters the first task. *)

From S2P Require Import Prelude Config ListSpec Kernel Tasks Riscv Port PortSpec PortProps PortTraps.

(** ** The status of a new task *)

Lemma lor_land_absorb a m : Z.lor (Z.land a m) m = m.
Proof. apply Z.bits_inj'. intros n _. rewrite Z.lor_spec, Z.land_spec. by destruct (Z.testbit a n), (Z.testbit m n). Qed.
Lemma initial_mpp ms : Z.land (initial_status ms) MSTATUS_MPP = MSTATUS_MPP.
Proof.
  unfold initial_status. rewrite Z.land_lor_distr_l. change (Z.land (MSTATUS_MPIE + MSTATUS_MPP) MSTATUS_MPP) with MSTATUS_MPP.
  rewrite <- Z.land_assoc. apply lor_land_absorb.
Qed.
Lemma initial_mpie ms : has_bits (initial_status ms) MSTATUS_MPIE = true.
Proof.
  assert (E : Z.land (initial_status ms) MSTATUS_MPIE = MSTATUS_MPIE); [|unfold has_bits; by rewrite E].
  unfold initial_status. rewrite Z.land_lor_distr_l. change (Z.land (MSTATUS_MPIE + MSTATUS_MPP) MSTATUS_MPIE) with MSTATUS_MPIE.
  rewrite <- Z.land_assoc. apply lor_land_absorb.
Qed.
Lemma initial_mie ms : Z.land (initial_status ms) MSTATUS_MIE = 0.
Proof.
  unfold initial_status. rewrite Z.land_lor_distr_l, <- Z.land_assoc. change (Z.land (u32 (Z.lnot MSTATUS_MIE)) MSTATUS_MIE) with 0.
  by rewrite Z.land_0_r.
Qed.
Lemma initial_range ms : u32_range ms -> u32_range (initial_status ms).
Proof. intros. apply lor_range; [by apply land_range|done]. Qed.

(** Interrupts are enabled for a task that is resumed with MPIE set. *)
Lemma resumed_mie ms : has_bits (resumed ms) MSTATUS_MIE = has_bits ms MSTATUS_MPIE.
Proof.
  unfold resumed. unfold has_bits at 1. rewrite Z.land_lor_distr_l, ldiff_land_disjoint by done. by destruct (has_bits ms MSTATUS_MPIE).
Qed.

Lemma has_status ms : has_bits (status ms) MSTATUS_MIE = has_bits ms MSTATUS_MIE.
Proof.
  unfold has_bits, status. f_equal. f_equal. rewrite <- (ldiff_split ms (MSTATUS_MPIE + MSTATUS_MPP) MSTATUS_MIE) by done.
  rewrite Z.land_lor_distr_l, ldiff_land_disjoint by done. by rewrite <- Z.land_assoc, Z.land_diag.
Qed.

(** The first task sets MIE itself instead of returning from a trap. *)
Lemma first_status ms : u32_range ms -> Z.land ms MSTATUS_MIE = 0 -> has_bits ms MSTATUS_MPIE = true ->
  status (ms +u 8) = resumed ms /\ u32_range (ms +u 8).
Proof.
  intros Hm Hmie Hmpie. split; [|apply u32_spec]. change 8 with MSTATUS_MIE. rewrite Z.add_nocarry_lxor by done.
  rewrite Z.lxor_lor by done. rewrite u32_small by (by apply lor_range). unfold status, resumed. rewrite Hmpie.
  rewrite ldiff_lor_l. f_equal. rewrite <- (ldiff_split ms (MSTATUS_MPIE + MSTATUS_MPP) MSTATUS_MIE) by done. by rewrite Hmie, Z.lor_0_r.
Qed.
Lemma first_pc_regs (v : vcpu) : length (v_regs v) = length frame_regs -> exists r1 r5 rest, v_regs v = r1 :: r5 :: rest.
Proof. destruct (v_regs v) as [|r1 [|r5 rest]]; [done..|eauto]. Qed.

(** The virtual processor on which the first task starts: it is entered with
    ret, so its return address is its own entry. *)
Definition enter_first (v : vcpu) : vcpu := mkVcpu (v_pc v) (v_sp v) (v_pc v :: tail (v_regs v)) (v_status v).

Section Start.
Variable mhartid : Z.
Variable mtime : nat -> Z.
Variable lowest_mode : Z.
Variables freertos_risc_v_trap_handler_addr ullNextTime pullMachineTimerCompareRegister xISRStackTop : Z.
Variable own : Z -> owner.
Notation layout := (layout mhartid ullNextTime pullMachineTimerCompareRegister own).
Notation next_time := (next_time ullNextTime).
Notation load_word := (load_word configMTIME_BASE_ADDRESS mtime).
Notation store_word := (store_word (MTIMECMP mhartid)).
Notation lw := (lw configMTIME_BASE_ADDRESS mtime).
Context (Hly : layout).

(** ** The stack of a new task *)

Lemma fill_wp p l (Q : unit -> cpu -> Prop) c : Forall (fun i => ram_word own (mem c) (p + Z.of_nat i * 4)) l ->
  (forall m', (forall i, i ∈ l -> m' !! (p + Z.of_nat i * 4) = Some tskSTACK_FILL_WORD) ->
     (forall a, Forall (fun i => a <> p + Z.of_nat i * 4) l -> m' !! a = mem c !! a) -> Q tt (set_mem m' c)) ->
  wp (each l (fun i => store_word (p + Z.of_nat i * 4) tskSTACK_FILL_WORD)) Q c.
Proof.
  revert c Q. induction l as [|i l IH]; intros c Q Hl HQ; simpl.
  - apply wp_ret. assert (E : set_mem (mem c) c = c) by (by destruct c). rewrite <- E. apply HQ; [by intros i ?%elem_of_nil|done].
  - apply Forall_cons in Hl as [(Ha & Hal & Hs) Hl]. apply wp_bind. eapply wp_store_word; [exact Hly|done..|].
    apply IH; [eapply Forall_impl; [exact Hl|]; intros; by apply ram_word_insert|]. cbn [mem set_mem]. intros m' Hin Hout.
    apply (HQ m').
    + intros j [->|Hj]%elem_of_cons; [|by apply Hin]. destruct (decide (i ∈ l)) as [|Hni]; [by apply Hin|].
      rewrite Hout; [by rewrite lookup_insert_eq|]. apply Forall_forall. intros j Hj E. apply Hni. assert (i = j) as -> by lia. done.
    + intros a [Hai Hal']%Forall_cons. rewrite Hout by done. by rewrite lookup_insert_ne.
Qed.

Definition frame_mem (f code params ms : Z) (m : gmap Z Z) : gmap Z Z :=
  <[f := code]> (<[f + 4 := 0]> (<[f + 28 := params]> (<[f + 116 := initial_status ms]> m))).

Lemma initialise_stack_wp t f c : get_x a0 c = f + 120 -> room own t (f + 120) ->
  (forall a, is_ram (own a) -> a mod 4 = 0 -> is_Some (mem c !! a)) ->
  wp (pxPortInitialiseStack mhartid) (fun _ c' => get_x a0 c' = f /\
    mem c' = frame_mem f (get_x a1 c) (get_x a2 c) (mstatus c) (mem c) /\
    (forall r, r ∉ [t0; t1; a0] -> get_x r c' = get_x r c) /\
    pc c' = pc c /\ mstatus c' = mstatus c /\ mtvec c' = mtvec c /\ mtimecmp c' = mtimecmp c) c.
Proof.
  intros Ha0 Hr Hm. pose proof (frame_words _ _ _ _ Hly _ _ _ Hr Hm) as Hw.
  assert (Hu : forall i, 0 <= i < 30 -> u32 (f + i * 4) = f + i * 4) by (intros i Hi; eapply ram_u32; [exact Hly|by apply Hw]).
  assert (E29 : f + 120 +u - portWORD_SIZE = f + 29 * 4) by (etrans; [|apply (Hu 29); lia]; f_equal; unfold portWORD_SIZE; lia).
  assert (E7 : f + 29 * 4 +u - (22 * portWORD_SIZE) = f + 7 * 4) by (etrans; [|apply (Hu 7); lia]; f_equal; unfold portWORD_SIZE; lia).
  assert (E1 : f + 7 * 4 +u - (6 * portWORD_SIZE) = f + 1 * 4) by (etrans; [|apply (Hu 1); lia]; f_equal; unfold portWORD_SIZE; lia).
  assert (Hf0 : u32 f = f /\ ram_word own (mem c) f).
  { rewrite <- (Z.add_0_r f). change (f + 0) with (f + 0 * 4). split; [by apply Hu|by apply Hw]. }
  destruct Hf0 as [Uf Hf0]. assert (E0 : f + 1 * 4 +u - portWORD_SIZE = f) by (etrans; [|exact Uf]; f_equal; unfold portWORD_SIZE; lia).
  assert (Hz : forall i, 0 <= i < 30 -> f + i * 4 +u 0 = f + i * 4) by (intros; rewrite Z.add_0_r; auto).
  apply wp_bind, wp_csrr; [done|]. apply wp_bind, wp_andi; [done|]. apply wp_bind, wp_addi; [done|]. apply wp_bind, wp_slli; [done|].
  apply wp_bind, wp_or; [done|].
  apply wp_bind, wp_addi; [done|]. change (get_x a0 (set_x t0 _ _)) with (get_x a0 c). rewrite Ha0, E29.
  apply wp_bind. eapply (wp_sw _ _ _ _ Hly _ _ _ (f + 29 * 4)); [exact (Hz 29 ltac:(lia))|by apply Hw..|].
  apply wp_bind, wp_addi; [done|]. change (get_x a0 (set_mem _ _)) with (f + 29 * 4). rewrite E7.
  apply wp_bind. eapply (wp_sw _ _ _ _ Hly _ _ _ (f + 7 * 4)); [exact (Hz 7 ltac:(lia))|by apply Hw..| |].
  { cbn [mem set_mem set_x set_xreg]. by apply insert_is_Some, Hw. }
  apply wp_bind, wp_addi; [done|]. change (get_x a0 (set_mem _ _)) with (f + 7 * 4). rewrite E1.
  apply wp_bind. eapply (wp_sw _ _ _ _ Hly _ _ _ (f + 1 * 4)); [exact (Hz 1 ltac:(lia))|by apply Hw..| |].
  { cbn [mem set_mem set_x set_xreg]. by apply insert_is_Some, insert_is_Some, Hw. }
  apply wp_bind, wp_ret, wp_bind, wp_addi; [done|]. change (get_x a0 (set_mem _ _)) with (f + 1 * 4). rewrite E0.
  eapply (wp_sw _ _ _ _ Hly _ _ _ f); [etrans; [|exact Uf]; f_equal; apply Z.add_0_r|by apply Hf0..| |].
  { cbn [mem set_mem set_x set_xreg]. by apply insert_is_Some, insert_is_Some, insert_is_Some, Hf0. }
  split_and!; [done|done| |done..]. intros r Hr'. rewrite !not_elem_of_cons in Hr'. destruct Hr' as (R1 & R2 & R3 & _).
  by repeat first [rewrite get_x_set_mem | rewrite get_set_x_other by done].
Qed.

(** The frame on a stack that has been filled. *)
Lemma initial_frame f code params ms m : u32_range ms -> (forall i, 0 <= i < 30 -> m !! (f + i * 4) = Some tskSTACK_FILL_WORD) ->
  frame_at (frame_mem f code params ms m) f (new_vcpu code params (f + 120) ms).
Proof.
  intros Hms Hm. set (word := fun i => if i =? 0 then code else if i =? 1 then 0 else if i =? 7 then params
    else if i =? 29 then initial_status ms else tskSTACK_FILL_WORD).
  assert (Hw : forall i, 0 <= i < 30 -> frame_mem f code params ms m !! (f + i * 4) = Some (word i)).
  { intros i Hi. unfold frame_mem, word. destruct (Z.eqb_spec i 0) as [->|]; [by rewrite Z.add_0_r, lookup_insert_eq|].
    rewrite lookup_insert_ne by lia. destruct (Z.eqb_spec i 1) as [->|]; [by rewrite lookup_insert_eq|]. rewrite lookup_insert_ne by lia.
    destruct (Z.eqb_spec i 7) as [->|]; [by rewrite lookup_insert_eq|]. rewrite lookup_insert_ne by lia.
    destruct (Z.eqb_spec i 29) as [->|]; [by rewrite lookup_insert_eq|]. rewrite lookup_insert_ne by lia. by apply Hm. }
  split.
  - unfold frame_mem. by rewrite lookup_insert_eq.
  - change (Some <$> v_regs (new_vcpu code params (f + 120) ms)) with ((fun p : Z * Z => Some (word p.2)) <$> frame_regs).
    apply list_fmap_ext. intros i [r j] Hi. apply list_elem_of_lookup_2 in Hi. apply Hw.
    pose proof (proj1 (Forall_forall _ _) frame_regs_range (r, j) Hi). simpl in *. lia.
  - exists (initial_status ms). split; [exact (Hw 29 ltac:(lia))|]. split_and!; [by apply initial_range..|apply initial_mie|apply initial_mpp|done].
  - done.
Qed.

Lemma top_bounds p d : 0 <= p -> 35 <= d -> p + 4 * d < 2 ^ 32 ->
  let top := top_of_stack p d in p <= top - 120 /\ top <= p + 4 * d - 4 /\ (16 | top).
Proof.
  intros Hp Hd Hu top. unfold top, top_of_stack. rewrite (u32_small (d - 1)) by u32_lia. rewrite u32_small by u32_lia.
  change portBYTE_ALIGNMENT_MASK with (Z.ones 4). rewrite <- Z.ldiff_land, Z.ldiff_ones_r by done.
  rewrite Z.shiftl_mul_pow2, Z.shiftr_div_pow2 by done. change (2 ^ 4) with 16.
  pose proof (Z.div_mod (p + (d - 1) * 4) 16 ltac:(lia)). pose proof (Z.mod_pos_bound (p + (d - 1) * 4) 16 ltac:(lia)).
  split_and!; [lia|lia|by apply Z.divide_factor_r].
Qed.

Lemma room_on_stack t p d : (forall a, p <= a < p + 4 * d -> own a = OStack t) -> 0 <= p -> 35 <= d -> p + 4 * d < 2 ^ 32 ->
  room own t (top_of_stack p d).
Proof.
  intros Ho Hp Hd Hu. destruct (top_bounds p d Hp Hd Hu) as (H1 & H2 & [q Hq]). split_and!; [|lia|intros a Ha; apply Ho; lia].
  rewrite Hq. apply Z.mod_divide; [done|]. exists (q * 4). lia.
Qed.

(** The frame that is built for a new task on its stack, which has been filled. *)
Lemma build_frame_wp t f code params c : tcb_word own t -> room own t (f + 120) ->
  (forall a, is_ram (own a) -> a mod 4 = 0 -> is_Some (mem c !! a)) ->
  (forall i, 0 <= i < 30 -> mem c !! (f + i * 4) = Some tskSTACK_FILL_WORD) -> u32_range (mstatus c) ->
  wp (build_frame mhartid t (f + 120) code params) (fun _ c' => suspended_at own (mem c') t (new_vcpu code params (f + 120) (mstatus c)) /\
    (forall a, own a <> OStack t -> a <> t -> mem c' !! a = mem c !! a) /\ (forall a, is_Some (mem c !! a) -> is_Some (mem c' !! a)) /\
    consts c c' /\ mtimecmp c' = mtimecmp c /\ get_x sp c' = get_x sp c /\ mstatus c' = mstatus c /\ pc c' = pc c) c.
Proof.
  intros [Ht Htal] Hroom Hm Hfill Hms. pose proof (frame_words _ _ _ _ Hly _ _ _ Hroom Hm) as Hw. pose proof Hroom as (Hal & _ & Ho).
  assert (Htf : forall i a, 0 <= i < 30 -> own a <> OStack t -> a <> f + i * 4). { intros i a Hi Ha ->. apply Ha, Ho. lia. }
  apply wp_bind, wp_wr_x; [done|]. apply wp_bind, wp_wr_x; [done|]. apply wp_bind, wp_wr_x; [done|]. set (c1 := set_x a2 _ _).
  apply wp_bind. eapply wp_mono; [eapply (initialise_stack_wp t f c1); [done..|exact Hm]|].
  cbv beta. intros _ c2 (Ea0 & Em & Hr & Epc & Est & Etv & Ecs). apply wp_bind, wp_rd_x. rewrite Ea0.
  change (mem c1) with (mem c) in Em. change (get_x a1 c1) with code in Em. change (get_x a2 c1) with params in Em.
  change (mstatus c1) with (mstatus c) in *.
  assert (Hs2 : forall a, is_Some (mem c !! a) -> is_Some (mem c2 !! a)).
  { intros a Ha. rewrite Em. unfold frame_mem. by do 4 apply insert_is_Some. }
  eapply wp_store_word; [exact Hly|by rewrite Ht|done|by apply Hs2, Hm; [rewrite Ht|]|].
  assert (Hne : own t <> OStack t) by (by rewrite Ht).
  split_and!.
  - exists f. cbn [mem set_mem]. split; [by rewrite lookup_insert_eq|]. split; [|done].
    assert (Hfr : frame_at (mem c2) f (new_vcpu code params (f + 120) (mstatus c))) by (rewrite Em; by apply initial_frame).
    destruct Hfr as [F1 F2 (ms' & F3 & F4) F5]. pose proof (Htf 0 t ltac:(lia) Hne). pose proof (Htf 29 t ltac:(lia) Hne).
    split; [by rewrite lookup_insert_ne by lia| |exists ms'; split; [by rewrite lookup_insert_ne by lia|done]|done].
    rewrite <- F2. apply list_fmap_ext. intros i [r j] Hi. apply list_elem_of_lookup_2 in Hi. apply lookup_insert_ne.
    pose proof (proj1 (Forall_forall _ _) frame_regs_range (r, j) Hi). simpl in *. apply Htf; [lia|done].
  - intros a Ha Hat. cbn [mem set_mem]. rewrite lookup_insert_ne by done. rewrite Em. unfold frame_mem.
    pose proof (Htf 0 a ltac:(lia) Ha). pose proof (Htf 1 a ltac:(lia) Ha). pose proof (Htf 7 a ltac:(lia) Ha).
    pose proof (Htf 29 a ltac:(lia) Ha). by rewrite !lookup_insert_ne by lia.
  - intros a Ha. cbn [mem set_mem]. apply insert_is_Some. auto.
  - unfold consts. rewrite !get_x_set_mem, !Hr by (by apply (bool_decide_unpack _)). done.
  - done.
  - rewrite get_x_set_mem, Hr by (by apply (bool_decide_unpack _)). done.
  - done.
  - done.
Qed.

Lemma initial_stack_wp t p d code params c : tcb_word own t -> (forall a, p <= a < p + 4 * d -> own a = OStack t) -> p mod 4 = 0 ->
  35 <= d -> p + 4 * d < 2 ^ 32 -> (forall a, is_ram (own a) -> a mod 4 = 0 -> is_Some (mem c !! a)) -> u32_range (mstatus c) ->
  wp (initial_stack mhartid t p d code params) (fun _ c' => suspended_at own (mem c') t (new_vcpu code params (top_of_stack p d) (mstatus c)) /\
    (forall a, own a <> OStack t -> a <> t -> mem c' !! a = mem c !! a) /\ (forall a, is_Some (mem c !! a) -> is_Some (mem c' !! a)) /\
    consts c c' /\ mtimecmp c' = mtimecmp c /\ get_x sp c' = get_x sp c /\ mstatus c' = mstatus c /\ pc c' = pc c) c.
Proof.
  intros Ht Ho Hp Hd Hu Hm Hms. assert (Hp0 : 0 <= p).
  { apply (ly_u32 _ _ _ _ Hly). rewrite (Ho p) by lia. done. }
  pose proof (room_on_stack t p d Ho Hp0 Hd Hu) as Hroom. destruct (top_bounds p d Hp0 Hd Hu) as (H1 & H2 & Hdiv).
  assert (Hmod : forall i, (p + i * 4) mod 4 = 0) by (intros i; by rewrite Z.mod_add).
  apply wp_bind. apply fill_wp.
  { apply Forall_forall. intros i Hi%elem_of_seq. assert (own (p + Z.of_nat i * 4) = OStack t) as E by (apply Ho; lia).
    split_and!; [by rewrite E|done|]. apply Hm; [by rewrite E|done]. }
  intros m1 Hin Hout. cbv zeta. fold (top_of_stack p d). set (top := top_of_stack p d) in *. set (f := top - 120).
  assert (Ef : top = f + 120) by lia. clearbody f. rewrite Ef in *.
  assert (Hs1 : forall a, is_Some (mem c !! a) -> is_Some (m1 !! a)).
  { intros a Ha. destruct (decide (Forall (fun i => a <> p + Z.of_nat i * 4) (seq 0 (Z.to_nat d)))) as [Hf|Hf]; [by rewrite Hout|].
    apply not_Forall_Exists in Hf; [|apply _]. apply Exists_exists in Hf as (i & Hi & E). apply dec_stable in E as ->.
    rewrite Hin by done. eauto. }
  eapply wp_mono; [apply (build_frame_wp t f code params (set_mem m1 c)); [done..| | |done]|].
  - intros a Ha Hal. cbn. auto.
  - intros i Hi. cbn. assert (Hq : exists q, f = p + q * 4).
    { destruct Hdiv as [q Hq]. apply Z.mod_divide in Hp as [q' Hq']; [|done]. exists (q * 4 - 30 - q'). lia. }
    destruct Hq as [q Hq]. replace (f + i * 4) with (p + Z.of_nat (Z.to_nat (q + i)) * 4) by lia. apply Hin. apply elem_of_seq. lia.
  - cbv beta. cbn [mem set_mem mstatus mtimecmp pc]. intros _ c2 (S1 & S2 & S3 & S4 & S5 & S6 & S7 & S8). split_and!; [done| |auto|done..].
    intros a Ha Hat. rewrite S2 by done. apply Hout. apply Forall_forall. intros i Hi%elem_of_seq ->. apply Ha, Ho. lia.
Qed.

(** ** The first task *)

Lemma first_task_wp t c f v : mem c !! t = Some f -> frame_at (mem c) f v -> room own t (f + 120) -> tcb_word own t ->
  (forall a, is_ram (own a) -> a mod 4 = 0 -> is_Some (mem c !! a)) -> has_bits (v_status v) MSTATUS_MIE = true ->
  u32_range freertos_risc_v_trap_handler_addr ->
  wp (xPortStartFirstTask mtime freertos_risc_v_trap_handler_addr t) (fun _ c' => vcpu_of c' = enter_first v /\ mem c' = mem c /\
    get_x gp c' = get_x gp c /\ get_x tp c' = get_x tp c /\ mtvec c' = freertos_risc_v_trap_handler_addr /\
    mtimecmp c' = mtimecmp c /\ u32_range (mstatus c')) c.
Proof.
  intros Hmt Hfr Hr [Ht Htal] Hm Hie Hh. pose proof (frame_words _ _ _ _ Hly _ _ _ Hr Hm) as Hw.
  assert (Htr : is_ram (own t)) by (by rewrite Ht). pose proof (ram_u32 _ _ _ _ Hly _ Htr) as Htu.
  assert (Hwu : forall i, 0 <= i < 30 -> f +u i * 4 = f + i * 4) by (intros i Hi; eapply ram_u32; [exact Hly|by apply Hw]).
  destruct Hfr as [Hpc Hregs (ms & Hms & Hmr & Hmie & Hmpp & Hst) Hvsp].
  assert (Hlen : length (v_regs v) = length frame_regs).
  { apply (f_equal length) in Hregs. by rewrite !length_fmap in Hregs. }
  destruct (first_pc_regs v Hlen) as (r1 & r5 & rest & Ev). rewrite Ev in Hregs, Hlen.
  assert (Hr5 : mem c !! (f + 2 * 4) = Some r5) by (by injection Hregs).
  assert (Hrest : (fun p : Z * Z => mem c !! (f + p.2 * 4)) <$> drop 2 frame_regs = Some <$> rest) by (by injection Hregs).
  assert (Hlr : length rest = length (drop 2 frame_regs)) by (by injection Hlen). clear Hregs Hlen.
  rewrite Hst, resumed_mie in Hie. destruct (first_status ms Hmr Hmie Hie) as [Hfs Hfr].
  assert (Hfu : f +u portCONTEXT_SIZE = f + 120).
  { apply u32_small. destruct Hr as (_ & ? & _). destruct (Hw 0 ltac:(lia)) as [[Ha _] _]. pose proof (ram_range _ _ _ _ Hly _ Ha).
    unfold u32_range, u32_modulus, portCONTEXT_SIZE, portWORD_SIZE in *. lia. }
  apply wp_bind, wp_li; [done|]. apply wp_bind, wp_csrw. rewrite get_set_x_same, (u32_small freertos_risc_v_trap_handler_addr) by done.
  apply wp_bind, wp_li; [done|]. rewrite Htu. apply wp_bind.
  eapply (wp_lw _ _ _ _ _ Hly _ _ _ t); [done|by rewrite get_set_x_same, Z.add_0_r|done|exact Htal|exact Hmt|]. set (c1 := set_x sp f _).
  apply wp_bind. eapply (wp_lw _ _ _ _ _ Hly _ _ _ (f + 0 * 4)); [done|exact (Hwu 0 ltac:(lia))|by apply Hw..|by rewrite Z.add_0_r|].
  set (c2 := set_x ra (v_pc v) c1). apply wp_bind.
  eapply (load_frame _ _ _ _ _ Hly _ _ f rest); [by right|done|intros i Hi; by apply Hw|exact Hrest|].
  pose proof (load_regs_rest (drop 2 frame_regs) rest c2) as (_ & _ & _ & Etv & Emem & Ecmp).
  pose proof (load_regs_lookup (drop 2 frame_regs) rest c2 ltac:(by apply (bool_decide_unpack _)) ltac:(by apply (bool_decide_unpack _)) Hlr) as Hx.
  assert (Hoth : forall r, Forall (fun p : Z * Z => p.1 <> 0 /\ r <> p.1) (drop 2 frame_regs) -> get_x r (load_regs (drop 2 frame_regs) rest c2) = get_x r c2)
    by (intros; by apply load_regs_other).
  pose proof (Hoth sp ltac:(by apply (bool_decide_unpack _))) as Hsp. pose proof (Hoth gp ltac:(by apply (bool_decide_unpack _))) as Hgp.
  pose proof (Hoth tp ltac:(by apply (bool_decide_unpack _))) as Htp. pose proof (Hoth ra ltac:(by apply (bool_decide_unpack _))) as Hra.
  change (mem c2) with (mem c) in Emem. change (get_x sp c2) with f in Hsp. change (get_x ra c2) with (v_pc v) in Hra.
  set (c3 := load_regs _ _ c2) in *. clearbody c3.
  apply wp_bind. eapply (wp_lw _ _ _ _ _ Hly _ _ _ (f + 29 * 4)); [done|rewrite Hsp; exact (Hwu 29 ltac:(lia))|by apply Hw..|by rewrite Emem|].
  apply wp_bind, wp_addi; [done|]. rewrite get_set_x_same by done. apply wp_bind, wp_csrw. rewrite get_set_x_same by done.
  apply wp_bind. eapply (wp_lw _ _ _ _ _ Hly _ _ _ (f + 2 * 4)).
  { done. } { etrans; [|exact (Hwu 2 ltac:(lia))]. by rewrite <- Hsp. } 1-2: by apply Hw. { cbn. by rewrite Emem. }
  apply wp_bind, wp_addi; [done|]. change (get_x sp (set_x t0 _ _)) with (get_x sp c3). rewrite Hsp, Hfu.
  apply wp_bind, wp_rd_x, wp_modify. change (get_x ra (set_x sp _ _)) with (get_x ra c3). rewrite Hra. split_and!; try done.
  unfold vcpu_of, enter_first. f_equal.
  - by rewrite Hvsp.
  - rewrite Ev. cbn [tail]. rewrite <- Hra, <- Hx. done.
  - cbn. by rewrite Hfs, Hst.
Qed.

(** ** Setting the timer *)

Lemma wp_rd64 a z Q c : is_ram (own a) -> is_ram (own (a + 4)) -> a mod 4 = 0 -> (a + 4) mod 4 = 0 ->
  mem c !! a = Some (z mod 2 ^ 32) -> mem c !! (a + 4) = Some (z / 2 ^ 32) -> Q z c -> wp (rd64 mtime a) Q c.
Proof.
  intros H1 H2 H3 H4 E1 E2 HQ. apply wp_bind. eapply wp_load_word; [exact Hly|done..|]. apply wp_bind. eapply wp_load_word; [exact Hly|done..|].
  apply wp_ret. rewrite (Z.mul_comm _ (2 ^ 32)), <- Z.div_mod by done. done.
Qed.
Lemma wp_wr64 a z (Q : unit -> cpu -> Prop) c : is_ram (own a) -> is_ram (own (a + 4)) -> a mod 4 = 0 -> (a + 4) mod 4 = 0 ->
  is_Some (mem c !! a) -> is_Some (mem c !! (a + 4)) ->
  Q tt (set_mem (<[a + 4 := z / 2 ^ 32]> (<[a := z mod 2 ^ 32]> (mem c))) c) -> wp (wr64 mhartid a z) Q c.
Proof.
  intros H1 H2 H3 H4 E1 E2 HQ. apply wp_bind. eapply wp_store_word; [exact Hly|done..|]. eapply wp_store_word; [exact Hly|done..| |exact HQ].
  cbn [mem set_mem]. by apply insert_is_Some.
Qed.

(** The loop that reads the clock ends when the high word has stopped changing,
    and gives a value that the clock has had meanwhile. *)
Lemma read_time_wp fuel c : (forall n, 0 <= mtime n) -> (forall n, mtime n <= mtime (S n)) ->
  (forall n, mtime n / 2 ^ 32 <= mtime (reads c) / 2 ^ 32 + Z.of_nat fuel) ->
  wp (read_time_loop mtime fuel) (fun r c' => exists n, (reads c <= n < reads c')%nat /\ r.1 * 2 ^ 32 + r.2 = mtime n /\
    r.1 = mtime n / 2 ^ 32 /\ c' = set_reads (reads c') c) c.
Proof.
  intros Hpos Hmono. revert c. assert (Hclk : forall a Q (c : cpu), a = configMTIME_BASE_ADDRESS \/ a = configMTIME_BASE_ADDRESS + 4 ->
    Q (if a =? configMTIME_BASE_ADDRESS then mtime (reads c) mod 2 ^ 32 else mtime (reads c) / 2 ^ 32) (set_reads (S (reads c)) c) -> wp (load_word a) Q c).
  { intros a Q c Ha HQ. eexists _, _. split; [|exact HQ]. unfold Riscv.load_word. by destruct Ha as [-> | ->]. }
  induction fuel as [|fuel IH]; intros c Hf; unfold read_time_loop; fold (read_time_loop mtime).
  all: apply wp_bind, Hclk; [by right|]; apply wp_bind, Hclk; [by left|]; apply wp_bind, Hclk; [by right|].
  all: change (configMTIME_BASE_ADDRESS + 4 =? configMTIME_BASE_ADDRESS) with false;
    change (configMTIME_BASE_ADDRESS =? configMTIME_BASE_ADDRESS) with true; cbv iota; cbn [reads set_reads].
  all: set (n := reads c) in *.
  all: assert (Hle : mtime n / 2 ^ 32 <= mtime (S n) / 2 ^ 32 <= mtime (S (S n)) / 2 ^ 32)
    by (split; apply Z.div_le_mono; [done|apply Hmono|done|apply Hmono]).
  all: destruct (Z.eqb_spec (mtime n / 2 ^ 32) (mtime (S (S n)) / 2 ^ 32)) as [E|E]; cbn [negb].
  1, 3: apply wp_ret; exists (S n); split; [simpl; lia|]; cbn [fst snd];
    (split; [|split; [lia|done]]); replace (mtime n / 2 ^ 32) with (mtime (S n) / 2 ^ 32) by lia;
    by rewrite (Z.mul_comm _ (2 ^ 32)), <- Z.div_mod.
  - specialize (Hf (S (S n))). lia.
  - eapply wp_mono; [apply IH|].
    + intros m. cbn [reads set_reads]. specialize (Hf m). pose proof (Z.div_le_mono _ _ (2 ^ 32) eq_refl (Hmono (S (S n)))). lia.
    + cbv beta. cbn [reads set_reads]. intros r c' (m & Hm & E1 & E2 & Ec). exists m. split; [lia|]. split; [done|]. split; [done|]. exact Ec.
Qed.

(** Everything but the port's own words, the clock and the compare register. *)
Record port_only (c c' : cpu) : Prop := {
  po_xreg : xreg c' = xreg c;
  po_pc : pc c' = pc c;
  po_mstatus : mstatus c' = mstatus c;
  po_mtvec : mtvec c' = mtvec c;
  po_mem : forall a, own a <> OPort -> mem c' !! a = mem c !! a;
  po_some : forall a, is_Some (mem c !! a) -> is_Some (mem c' !! a)
}.

(** Writing both halves of the compare register. *)
Lemma set_both v w : set_high (v / 2 ^ 32) (set_low (v mod 2 ^ 32) w) = v.
Proof.
  unfold set_high, set_low. assert (E : (w / 2 ^ 32 * 2 ^ 32 + v mod 2 ^ 32) mod 2 ^ 32 = v mod 2 ^ 32).
  { rewrite Z.add_comm, Z.mod_add by done. by rewrite Z.mod_mod. }
  rewrite E, (Z.mul_comm _ (2 ^ 32)). symmetry. by apply Z.div_mod.
Qed.

Lemma u64_range z : 0 <= u64 z < 2 ^ 64.
Proof. apply Z.mod_pos_bound. lia. Qed.
Lemma u64_small z : 0 <= z < 2 ^ 64 -> u64 z = z.
Proof. apply Z.mod_small. Qed.

Lemma setup_timer_wp fuel c : (forall n, 0 <= mtime n < 2 ^ 64) -> (forall n, mtime n <= mtime (S n)) ->
  (forall n, mtime n / 2 ^ 32 <= mtime (reads c) / 2 ^ 32 + Z.of_nat fuel) ->
  (forall a, is_ram (own a) -> a mod 4 = 0 -> is_Some (mem c !! a)) ->
  wp (vPortSetupTimerInterrupt mhartid mtime ullNextTime pullMachineTimerCompareRegister fuel) (fun _ c' =>
    exists n, (reads c <= n < reads c')%nat /\ next_time (mem c') (u64 (mtime n + 2 * uxTimerIncrementsForOneTick)) /\
      hd 0 (mtimecmp c') = u64 (mtime n + uxTimerIncrementsForOneTick) /\
      mem c' !! pullMachineTimerCompareRegister = Some (MTIMECMP mhartid) /\ port_only c c') c.
Proof.
  intros Hclk Hmono Hf Hm. pose proof (port_words _ _ _ _ Hly) as Hp. rewrite !Forall_cons in Hp.
  destruct Hp as ((Hu & Hual) & (Hu4 & Hu4al) & (Hc & Hcal) & _). destruct (ly_port_apart _ _ _ _ Hly) as [Hca Hca4].
  pose proof (ly_port _ _ _ _ Hly) as Hpo. rewrite !Forall_cons in Hpo. destruct Hpo as ((P1 & _) & (P2 & _) & (P3 & _) & _).
  assert (Hne : ullNextTime <> ullNextTime + 4) by lia.
  apply wp_bind. eapply wp_store_word; [exact Hly|done|done|by apply Hm|]. set (m1 := <[_ := _]> (mem c)). set (c1 := set_mem m1 c).
  assert (Hm1 : forall a, is_Some (mem c !! a) -> is_Some (m1 !! a)) by (intros; by apply insert_is_Some).
  apply wp_bind. eapply wp_mono; [apply (read_time_wp fuel c1); [intros; apply Hclk|done|done]|].
  cbv beta. intros [hi lo] c2 (n & Hn & Et & Eh & E2). cbn [fst snd] in *. destruct (Hclk n) as [Hn0 Hn64].
  assert (Hhi : 0 <= hi < 2 ^ 32) by (rewrite Eh; split; [apply Z.div_pos; lia|apply Z.div_lt_upper_bound; lia]).
  assert (Hlo : 0 <= lo < 2 ^ 32). { assert (lo = mtime n mod 2 ^ 32) as -> by (rewrite Z.mod_eq by done; lia). by apply Z.mod_pos_bound. }
  (* after each write the variable holds the value written *)
  set (inv := fun z (c' : cpu) => exists m, c' = set_mem m c2 /\ next_time m z /\ m !! pullMachineTimerCompareRegister = Some (MTIMECMP mhartid) /\
    (forall a, own a <> OPort -> m !! a = mem c !! a) /\ (forall a, is_Some (mem c !! a) -> is_Some (m !! a))).
  assert (Hwr : forall z c3 m Q, c3 = set_mem m c2 -> 0 <= z < 2 ^ 64 -> m !! pullMachineTimerCompareRegister = Some (MTIMECMP mhartid) ->
    (forall a, own a <> OPort -> m !! a = mem c !! a) -> (forall a, is_Some (mem c !! a) -> is_Some (m !! a)) ->
    (forall c', inv z c' -> Q tt c') -> wp (wr64 mhartid ullNextTime z) Q c3).
  { intros z c3 m Q -> Hz Hpm Hom Hsm HQ. apply wp_wr64; [done..|by apply Hsm, Hm|by apply Hsm, Hm|]. apply HQ. eexists. split; [done|].
    split_and!; [split_and!; [lia|lia|by rewrite lookup_insert_ne, lookup_insert_eq|by rewrite lookup_insert_eq]|by rewrite !lookup_insert_ne| |].
    - intros a Ha. rewrite !lookup_insert_ne; [by apply Hom|..]; intros <-; tauto.
    - intros a Ha. by apply insert_is_Some, insert_is_Some, Hsm. }
  assert (Hstep : forall z z' c3 Q, inv z c3 -> 0 <= z' < 2 ^ 64 -> (forall c', inv z' c' -> Q tt c') -> wp (wr64 mhartid ullNextTime z') Q c3).
  { intros z z' c3 Q (m & -> & Hz & H1 & H2 & H3) Hz' HQ. by eapply (Hwr z' _ m). }
  assert (Hrd : forall z c3 Q, inv z c3 -> Q z c3 -> wp (rd64 mtime ullNextTime) Q c3).
  { intros z c3 Q (m & -> & (Hz & H1 & H2) & _) HQ. by eapply wp_rd64. }
  apply wp_bind. eapply (Hwr hi _ m1); [by rewrite E2|lia|unfold m1; by rewrite lookup_insert_eq| |done|].
  { intros a Ha. unfold m1. rewrite lookup_insert_ne; [done|]. intros <-. tauto. }
  intros c3 I3. apply wp_bind. eapply Hrd; [exact I3|]. apply wp_bind. eapply Hstep; [exact I3|apply u64_range|]. intros c4 I4.
  assert (E4 : u64 (Z.shiftl hi 32) = hi * 2 ^ 32) by (rewrite Z.shiftl_mul_pow2 by done; apply u64_small; lia). rewrite E4 in I4.
  apply wp_bind. eapply Hrd; [exact I4|]. assert (E5 : Z.lor (hi * 2 ^ 32) lo = mtime n).
  { rewrite <- Et, <- Z.shiftl_mul_pow2 by done. symmetry. rewrite Z.add_nocarry_lxor, Z.lxor_lor; [done|..];
      (apply Z.bits_inj'; intros i Hi; rewrite Z.land_spec, Z.shiftl_spec, Z.bits_0 by done;
       destruct (Z_lt_dec i 32); [by rewrite Z.testbit_neg_r by lia|rewrite (testbit_high lo 32 i) by lia; apply andb_false_r]). }
  rewrite E5. apply wp_bind. eapply Hstep; [exact I4|lia|]. intros c5 I5. apply wp_bind. eapply Hrd; [exact I5|].
  apply wp_bind. eapply Hstep; [exact I5|apply u64_range|]. intros c6 I6.
  destruct I6 as (m6 & -> & N6 & Hp6 & Ho6 & Hs6). assert (I6 : inv (u64 (mtime n + uxTimerIncrementsForOneTick)) (set_mem m6 c2)) by (by exists m6).
  apply wp_bind. eapply wp_load_word; [exact Hly|done|done|exact Hp6|]. apply wp_bind. eapply Hrd; [exact I6|].
  set (z1 := u64 (mtime n + uxTimerIncrementsForOneTick)) in *. pose proof (u64_range (mtime n + uxTimerIncrementsForOneTick)) as Hz1. fold z1 in Hz1.
  apply wp_bind. apply wp_bind. eapply (wp_store_cmp _ _ _ _ _ true); [done|]. eapply (wp_store_cmp _ _ _ _ _ false); [done|].
  cbn [mtimecmp set_mtimecmp hd]. set (l := _ :: mtimecmp (set_mem m6 c2)).
  apply wp_bind. destruct N6 as (N0 & N1 & N2). eapply wp_rd64; [done..|exact N1|exact N2|].
  apply wp_wr64; [done..|by apply Hs6, Hm|by apply Hs6, Hm|]. exists n. cbn [reads set_mem set_mtimecmp mem mtimecmp].
  split; [rewrite E2 in Hn; exact Hn|]. split; [|split; [|split; [by rewrite !lookup_insert_ne|]]].
  - assert (Ez : u64 (z1 + uxTimerIncrementsForOneTick) = u64 (mtime n + 2 * uxTimerIncrementsForOneTick)).
    { unfold z1, u64. rewrite Zplus_mod_idemp_l. f_equal. lia. }
    rewrite <- Ez. split; [apply u64_range|]. split; [by rewrite lookup_insert_ne, lookup_insert_eq|by rewrite lookup_insert_eq].
  - apply set_both.
  - rewrite E2. split; [done..| |].
    + intros a Ha. cbn [mem set_mem set_mtimecmp]. rewrite !lookup_insert_ne; [by apply Ho6|..]; intros <-; tauto.
    + intros a Ha. cbn [mem set_mem set_mtimecmp]. by apply insert_is_Some, insert_is_Some, Hs6.
Qed.

(** ** From the creation of tasks to the first one *)

(** Tasks have been made, none runs yet. *)
Record created (c : cpu) (V : gmap Z vcpu) : Prop := {
  cr_ram : forall a, is_ram (own a) -> a mod 4 = 0 -> is_Some (mem c !! a);
  cr_tcb : forall t, is_Some (V !! t) -> tcb_word own t;
  cr_frames : forall t v, V !! t = Some v -> suspended_at own (mem c) t v;
  cr_status : u32_range (mstatus c)
}.

Lemma create_wp t p d code params c V : created c V -> V !! t = None -> fresh own t p d ->
  wp (initial_stack mhartid t p d code params)
    (fun _ c' => created c' (<[t := new_vcpu code params (top_of_stack p d) (mstatus c)]> V) /\ mstatus c' = mstatus c) c.
Proof.
  intros [Hram Htcb Hfr Hst] Ht [Ft Fo Fp Fd Fu].
  eapply wp_mono; [by apply (initial_stack_wp t p d code params c)|].
  cbv beta. intros _ c' (Hsu & Hm & Hs & _ & _ & _ & Ems & _). split; [split|done].
  - auto.
  - intros u Hu. destruct (decide (u = t)) as [->|]; [done|]. apply Htcb. by rewrite lookup_insert_ne in Hu.
  - intros u v Hu. destruct (decide (u = t)) as [->|Hne]; [rewrite lookup_insert_eq in Hu; by injection Hu as <-|].
    rewrite lookup_insert_ne in Hu by done. assert (Hut : tcb_word own u) by eauto. eapply suspended_mem; [done| | |by apply Hfr].
    + apply Hm; [|done]. by destruct Hut as [-> _].
    + intros a Ha _. apply Hm; [rewrite Ha; congruence|]. intros ->. destruct Ft. congruence.
  - by rewrite Ems.
Qed.

Section Kernel.
Context {H : Type} `{!ListOps item list_id H}.
Notation cur k := (pxCurrentTCB (k_vars k)).

Lemma start_wp fuel (k : Kernel H) c V v : (forall n, 0 <= mtime n < 2 ^ 64) -> (forall n, mtime n <= mtime (S n)) ->
  (forall n, mtime n / 2 ^ 32 <= mtime (reads c) / 2 ^ 32 + Z.of_nat fuel) -> u32_range freertos_risc_v_trap_handler_addr ->
  created c V -> V !! cur k = Some v -> has_bits (v_status v) MSTATUS_MIE = true ->
  wp (xPortStartScheduler mhartid mtime freertos_risc_v_trap_handler_addr ullNextTime pullMachineTimerCompareRegister fuel)
    (fun _ s => s.1 = k /\
       virtual mhartid freertos_risc_v_trap_handler_addr ullNextTime pullMachineTimerCompareRegister own (cur k) s.2 (<[cur k := enter_first v]> V) /\
       exists n, (reads c <= n)%nat /\ timer_at ullNextTime s.2 (mtime n + uxTimerIncrementsForOneTick)) (k, c).
Proof.
  intros Hclk Hmono Hf Hh [Hram Htcb Hfr Hst] Hv Hie. set (t := cur k) in *.
  apply wp_bind, wp_cpu. eapply wp_mono; [by apply setup_timer_wp|].
  cbv beta. intros _ c1 (n & Hn & Hnt & Hcmp & Hpull & [Px Pp Pms Ptv Pm Ps]).
  apply wp_bind, wp_cpu, wp_modify. set (c2 := set_mie _ c1). apply wp_bind, wp_on_fst, wp_gets. apply wp_cpu. cbn [fst snd].
  assert (Hsus : forall u x, V !! u = Some x -> suspended_at own (mem c2) u x).
  { intros u x Hu. assert (Hut : tcb_word own u) by eauto. eapply suspended_mem; [done| | |by apply Hfr].
    - apply Pm. destruct Hut as [-> _]. done.
    - intros a Ha _. apply Pm. by rewrite Ha. }
  assert (Hram2 : forall a, is_ram (own a) -> a mod 4 = 0 -> is_Some (mem c2 !! a)) by (intros; by apply Ps, Hram).
  assert (Htt : tcb_word own t) by (apply Htcb; eauto). destruct (Hsus t v Hv) as (f & Hft & Hfrm & Hroom).
  eapply wp_mono; [by apply (first_task_wp t c2 f v)|].
  cbv beta. intros _ c3 (Evc & Em & Eg & Et & Etv & Ecs & Est). split; [done|]. split.
  - split.
    + split; [by rewrite Em|by rewrite Em|rewrite Em; by eexists|done].
    + intros u Hu. destruct (decide (u = t)) as [->|]; [done|]. apply Htcb. by rewrite lookup_insert_ne in Hu.
    + intros u x Hu Hne. rewrite lookup_insert_ne in Hu by done. rewrite Em. by apply Hsus.
    + by rewrite lookup_insert_eq, Evc.
    + change (get_x sp c3) with (v_sp (vcpu_of c3)). rewrite Evc. cbn [enter_first v_sp]. by destruct Hfrm as [_ _ _ ->].
    + done.
  - exists n. split; [lia|]. split; [|by rewrite Ecs].
    replace (mtime n + uxTimerIncrementsForOneTick + uxTimerIncrementsForOneTick) with (mtime n + 2 * uxTimerIncrementsForOneTick) by lia. by rewrite Em.
Qed.
End Kernel.
End Start.
