(* ===== verification/Blocks.v ===== *)
(** * Blocks of memory and chains of them

    What the allocators share in their specifications: blocks as an address and
    a size, that do not overlap, and lists of blocks linked by the headers at
    their addresses. *)

From Stdlib Require Import Sorted.
From S2P Require Import Prelude ListSpec.

Notation blk := (Z * Z)%type.
Implicit Types (b c d : blk) (bs cs : list blk).

Definition apart b c : Prop := b.1 + b.2 <= c.1 \/ c.1 + c.2 <= b.1.
Fixpoint all_apart bs : Prop := match bs with [] => True | b :: bs' => Forall (apart b) bs' /\ all_apart bs' end.

#[export] Instance apart_sym : Symmetric apart.
Proof. intros b c [?|?]; [by right|by left]. Qed.
#[export] Instance all_apart_perm : Proper ((≡ₚ) ==> iff) all_apart.
Proof.
  assert (Hdir : forall bs cs, bs ≡ₚ cs -> all_apart bs -> all_apart cs).
  { induction 1 as [|b bs cs HP IH|b c bs|bs cs ds H1 IH1 H2 IH2]; simpl; [done| | |auto].
    - intros [Hb Hr]. split; [by rewrite <- HP|auto].
    - rewrite !Forall_cons. intros [[Hbc Hb] [Hc Hr]]. split_and!; [by symmetry|done..]. }
  intros bs cs HP. split; apply Hdir; [done|by symmetry].
Qed.
Lemma all_apart_app bs cs : all_apart (bs ++ cs) <-> all_apart bs /\ all_apart cs /\ Forall (fun b => Forall (apart b) cs) bs.
Proof. induction bs as [|b bs IH]; simpl; [naive_solver|]. rewrite IH, Forall_app, Forall_cons. tauto. Qed.

Definition total bs : Z := foldr (fun b z => b.2 + z) 0 bs.
#[export] Instance total_perm : Proper ((≡ₚ) ==> eq) total.
Proof. intros bs cs HP. induction HP; simpl; lia. Qed.
Lemma total_app bs cs : total (bs ++ cs) = total bs + total cs.
Proof. induction bs as [|b bs IH]; simpl; lia. Qed.

(** A step into a computation. *)
Ltac hstep :=
  lazymatch goal with
  | |- wp (mret _) _ _ => apply wp_ret
  | |- wp (_ ≫= _) _ _ => apply wp_bind; cbv beta
  end.

(** The longest prefix whose elements satisfy [P], and the rest. *)
Fixpoint span (P : blk -> bool) bs : list blk * list blk :=
  match bs with
  | [] => ([], [])
  | b :: bs' => if P b then let '(p1, p2) := span P bs' in (b :: p1, p2) else ([], bs)
  end.

Lemma span_app P bs p1 p2 : span P bs = (p1, p2) -> bs = p1 ++ p2 /\ Forall (fun b => P b = true) p1 /\
  match p2 with b :: _ => P b = false | [] => True end.
Proof.
  revert p1. induction bs as [|b bs IH]; intros p1; simpl; [by intros [= <- <-]|].
  destruct (P b) eqn:E; [|by intros [= <- <-]]. destruct (span P bs) as [q1 q2]. intros [= <- <-].
  destruct (IH q1) as (-> & ? & ?); [done|]. auto.
Qed.

(** Membership of a list that is put together from others. *)
Ltac mem := repeat first [rewrite elem_of_app | rewrite elem_of_cons | rewrite list_elem_of_singleton]; solve [tauto | intuition auto 10].

Lemma ssorted_app {A} (R : A -> A -> Prop) (xs ys : list A) : StronglySorted R (xs ++ ys) <->
  StronglySorted R xs /\ StronglySorted R ys /\ Forall (fun x => Forall (R x) ys) xs.
Proof.
  induction xs as [|x xs IH]; simpl.
  - split; [intros; split_and!; [constructor|done|constructor]|tauto].
  - rewrite Forall_cons. split.
    + intros [[? [? ?]]%IH [? ?]%Forall_app]%StronglySorted_inv. split_and!; try done. by constructor.
    + intros ([? ?]%StronglySorted_inv & ? & ? & ?). constructor; [by apply IH|]. by apply Forall_app.
Qed.

Lemma last_cons_default {A} (d a : A) l : default d (last (a :: l)) = default a (last l).
Proof. rewrite last_cons. by destruct (last l). Qed.

(** The last of a chain that starts at [h]. *)
Lemma chain_last (h : blk) bs : exists xs, h :: bs = xs ++ [default h (last bs)] /\ default h.1 (last bs.*1) = (default h (last bs)).1.
Proof.
  destruct (last bs) as [d|] eqn:El; [|apply last_None in El as ->; by exists []].
  rewrite fmap_last, El. apply last_Some in El as [xs ->]. by exists (h :: xs).
Qed.

(** A request and the block that serves it: the pointer is that behind the
    block's header of [hdr] bytes, and the block has room for what was asked. *)
Definition serves (hdr : Z) (px : Z * Z) b : Prop := px.1 = b.1 + hdr /\ 0 < px.2 /\ px.2 + hdr <= b.2.

(** ** Chains of headers

    A header is made by [mk] of the next block's address and the block's size. *)

Section Chains.
Context {B : Type} {mk : Z -> Z -> B}.
Implicit Types (m : gmap Z B) (p q : Z).

(** From [p], the headers of [bs] in this order, then [q]. *)
Fixpoint seg m p bs q : Prop :=
  match bs with
  | [] => p = q
  | b :: bs' => p = b.1 /\ exists n, m !! p = Some (mk n b.2) /\ seg m n bs' q
  end.

Lemma seg_app m p bs cs q : seg m p (bs ++ cs) q <-> exists r, seg m p bs r /\ seg m r cs q.
Proof. revert p. induction bs as [|b bs IH]; intros p; simpl; [naive_solver|]. setoid_rewrite IH. naive_solver. Qed.

Lemma seg_agree m m' p bs q : seg m p bs q -> (forall a, a ∈ bs.*1 -> m' !! a = m !! a) -> seg m' p bs q.
Proof.
  revert p. induction bs as [|b bs IH]; intros p; simpl; [done|]. intros (-> & n & Hl & Hr) Hag. split; [done|].
  exists n. rewrite Hag by set_solver. split; [done|]. apply IH; [done|]. intros a Ha. apply Hag. set_solver.
Qed.

Lemma seg_other m p bs q a x : a ∉ bs.*1 -> seg (<[a := x]> m) p bs q <-> seg m p bs q.
Proof.
  intros Hn. split; intros Hs; (eapply seg_agree; [exact Hs|]); intros a' Ha'; rewrite lookup_insert_ne; try done; congruence.
Qed.

Lemma seg_elem m p bs q b : seg m p bs q -> b ∈ bs -> exists n, m !! b.1 = Some (mk n b.2).
Proof.
  revert p. induction bs as [|c bs IH]; intros p; simpl; [set_solver|]. intros (-> & n & Hl & Hr) [->|Hin]%elem_of_cons; eauto.
Qed.

(** The list is no longer than the map of headers. *)
Lemma seg_fuel m bs p q : seg m p bs q -> NoDup bs.*1 -> (length bs <= size m)%nat.
Proof.
  intros Hs Hnd. rewrite <- (length_fmap fst), <- (size_list_to_set (C := gset Z) bs.*1) by done.
  rewrite <- (size_dom (D := gset Z) m). apply subseteq_size. intros a. rewrite elem_of_list_to_set, list_elem_of_fmap, elem_of_dom.
  intros (b & -> & Hb). destruct (seg_elem _ _ _ _ _ Hs Hb) as [n ->]. eauto.
Qed.

Context `{!Inj2 (=) (=) (=) mk}.

(** A block enters the chain after [c]. *)
Lemma seg_link m p xs c b ys q n z : NoDup ((xs ++ c :: ys).*1) -> b.1 ∉ (xs ++ c :: ys).*1 ->
  seg m p (xs ++ c :: ys) q -> m !! c.1 = Some (mk n z) ->
  seg (<[c.1 := mk b.1 z]> (<[b.1 := mk n b.2]> m)) p (xs ++ c :: b :: ys) q.
Proof.
  rewrite fmap_app, fmap_cons. intros Hnd Hb (r & Hx & Hs)%seg_app Hc. simpl in Hs. destruct Hs as (-> & n' & Hc' & Hy).
  assert (n' = n /\ z = c.2) as [-> ->] by (rewrite Hc in Hc'; injection Hc' as []%(inj2 mk); done).
  apply NoDup_app in Hnd as (_ & Hd & [Hcy _]%NoDup_cons). rewrite elem_of_app, elem_of_cons in Hb.
  apply seg_app. exists c.1. split.
  - rewrite !seg_other; [done|tauto|]. intros Hin. apply (Hd _ Hin). by left.
  - simpl. split; [done|]. exists b.1. split; [by rewrite lookup_insert_eq|]. split; [done|]. exists n. split.
    + rewrite lookup_insert_ne by (intros E; apply Hb; right; left; done). by rewrite lookup_insert_eq.
    + rewrite !seg_other; [done|tauto|done].
Qed.

(** A block leaves the chain. *)
Lemma seg_unlink m p xs c b ys q n z : NoDup ((xs ++ c :: b :: ys).*1) -> seg m p (xs ++ c :: b :: ys) q ->
  m !! b.1 = Some (mk n z) -> seg (<[c.1 := mk n c.2]> m) p (xs ++ c :: ys) q.
Proof.
  rewrite fmap_app, !fmap_cons. intros Hnd (r & Hx & Hs)%seg_app Hb. simpl in Hs. destruct Hs as (-> & n1 & Hc & -> & n2 & Hb' & Hy).
  rewrite Hb in Hb'. injection Hb' as []%(inj2 mk). subst n2 z. apply NoDup_app in Hnd as (_ & Hd & [Hcy _]%NoDup_cons). apply seg_app. exists c.1. split.
  - rewrite seg_other; [done|]. intros Hin. apply (Hd _ Hin). by left.
  - simpl. split; [done|]. exists n. split; [by rewrite lookup_insert_eq|]. rewrite seg_other; [done|]. set_solver.
Qed.
End Chains.
Arguments seg {B} mk m p bs q.
