(* ===== verification/HeapCalls.v ===== *)
(** * The allocators and the scheduler

    heap_1.c, heap_2.c, heap_3.c and heap_5.c are alternatives to heap_4.c.
    Their state stands beside the kernel's; this file has what they share: the
    calls about the scheduler in which pvPortMalloc wraps its work, and the
    adjusted size and the start of the heap in heap_1.c and heap_2.c. *)

From S2P Require Import Prelude Config ListSpec Kernel Tasks.

(** A few bytes might be lost to aligning the start of the heap. *)
Definition configADJUSTED_HEAP_SIZE : Z := configTOTAL_HEAP_SIZE - portBYTE_ALIGNMENT.

Section Calls.
Context {H : Type} `{!ListOps item list_id H} {S : Type}.

(** vTaskSuspendAll(), the work, xTaskResumeAll(), and the hook for a request
    that failed. *)
Definition malloc_call (work : M S Z) : prog (Kernel H * S) Z :=
  atomic (on_fst vTaskSuspendAll);;
  pvReturn ← atomic (on_snd work);
  atomic (on_fst xTaskResumeAll);;
  (if pvReturn =? NULL then atomic (on_fst vApplicationMallocFailedHook) else mret tt);;
  mret pvReturn.
End Calls.

(** ** The start of the heap *)

(** The first aligned address after the start of the array. *)
Definition heap_base (ucHeap : Z) : Z := Z.land (ucHeap + portBYTE_ALIGNMENT) (Z.lnot portBYTE_ALIGNMENT_MASK).

Lemma land_15 z : Z.land z portBYTE_ALIGNMENT_MASK = z mod 16.
Proof. change portBYTE_ALIGNMENT_MASK with (Z.ones 4). by rewrite Z.land_ones. Qed.

Lemma heap_base_bounds u : u < heap_base u <= u + 16 /\ (16 | heap_base u).
Proof.
  unfold heap_base, portBYTE_ALIGNMENT. change (Z.lnot portBYTE_ALIGNMENT_MASK) with (Z.lnot (Z.ones 4)).
  rewrite <- Z.ldiff_land, Z.ldiff_ones_r by done. rewrite Z.shiftl_mul_pow2, Z.shiftr_div_pow2 by done. change (2 ^ 4) with 16.
  pose proof (Z.div_mod (u + 16) 16 ltac:(lia)). pose proof (Z.mod_pos_bound (u + 16) 16 ltac:(lia)).
  split; [lia|]. by apply Z.divide_factor_r.
Qed.
