(* ===== verification/Heap3.v ===== *)
(** * portable/MemMang/heap_3.c: the C library's allocator

    malloc and free of the C library are parameters, on a state of their own;
    heap_3.c adds the calls about the scheduler that keep other tasks out. *)

From S2P Require Import Prelude Config ListSpec Kernel Tasks HeapCalls.

Section Heap3.
Context {H : Type} `{!ListOps item list_id H} {S : Type}.
Variable malloc : Z -> M S Z.
Variable free : Z -> M S unit.

Definition pvPortMalloc (xWantedSize : Z) : prog (Kernel H * S) Z := malloc_call (malloc xWantedSize).

Definition vPortFree (pv : Z) : prog (Kernel H * S) unit :=
  if negb (pv =? NULL) then
    atomic (on_fst vTaskSuspendAll);;
    atomic (on_snd (free pv));;
    atomic (on_fst xTaskResumeAll);;
    mret tt
  else mret tt.
End Heap3.
