(* ===== verification/Heap1.v ===== *)
(** * portable/MemMang/heap_1.c: memory that is never freed

    A request takes the next bytes of [ucHeap]; [ucHeap] is the address the
    linker gives to the array.  The part of pvPortMalloc that runs with the
    scheduler suspended works on the two statics of the file alone; the calls
    around it work on the kernel. *)

From S2P Require Import Prelude Config ListSpec Kernel Tasks HeapCalls.

Record heap1 := mkHeap1 { xNextFreeByte : Z; pucAlignedHeap : Z }.

Section Heap1.
Variable ucHeap : Z.

(** The size rounded up to the alignment, or 0 if that overflows. *)
Definition aligned_size (xWantedSize : Z) : Z :=
  if negb (Z.land xWantedSize portBYTE_ALIGNMENT_MASK =? 0) then
    let w := xWantedSize +u (portBYTE_ALIGNMENT - Z.land xWantedSize portBYTE_ALIGNMENT_MASK) in
    if xWantedSize <? w then w else 0
  else xWantedSize.

Definition align_heap : M heap1 unit :=
  modify (fun s => if pucAlignedHeap s =? NULL
    then mkHeap1 (xNextFreeByte s) (Z.land (ucHeap +u portBYTE_ALIGNMENT) (Z.lnot portBYTE_ALIGNMENT_MASK)) else s).

(** pvPortMalloc, between vTaskSuspendAll() and xTaskResumeAll(). *)
Definition pvPortMalloc_suspended (xWantedSize : Z) : M heap1 Z :=
  align_heap;;
  s ← get;
  if (0 <? xWantedSize) && (xNextFreeByte s +u xWantedSize <? configADJUSTED_HEAP_SIZE) &&
     (xNextFreeByte s <? xNextFreeByte s +u xWantedSize) then
    modify (fun s => mkHeap1 (xNextFreeByte s +u xWantedSize) (pucAlignedHeap s));;
    mret (pucAlignedHeap s +u xNextFreeByte s)
  else mret NULL.

(** Nothing is freed: the configASSERT() is compiled out. *)
Definition vPortFree (pv : Z) : M heap1 unit := mret tt.

Definition vPortInitialiseBlocks : M heap1 unit := modify (fun s => mkHeap1 0 (pucAlignedHeap s)).

Definition xPortGetFreeHeapSize : M heap1 Z := gets (fun s => configADJUSTED_HEAP_SIZE -u xNextFreeByte s).

Section Calls.
Context {H : Type} `{!ListOps item list_id H}.
Definition pvPortMalloc (xWantedSize : Z) : prog (Kernel H * heap1) Z :=
  malloc_call (pvPortMalloc_suspended (aligned_size xWantedSize)).
End Calls.
End Heap1.

(** The statics at boot. *)
Definition heap1_boot : heap1 := mkHeap1 0 NULL.
