(* ===== verification/Heap1Props.v ===== *)
(** * Properties of heap_1.c

    Requests are served from the start of the heap to its end; what has been
    handed out never overlaps, and a request fails only if it does not fit. *)

From S2P Require Import Prelude Config ListSpec Blocks HeapCalls Heap1.

Section Heap1.
Variable ucHeap : Z.
Implicit Types (s : heap1) (L : list blk).

Notation heap_base := (heap_base ucHeap).
Definition layout_ok : Prop := 0 < ucHeap /\ ucHeap + configTOTAL_HEAP_SIZE < u32_modulus.

(** The next multiple of the alignment. *)
Definition round_up (x : Z) : Z := 16 * ((x + 15) / 16).

Lemma round_up_bounds x : x <= round_up x <= x + 15 /\ (16 | round_up x).
Proof.
  unfold round_up. pose proof (Z.div_mod (x + 15) 16 ltac:(lia)). pose proof (Z.mod_pos_bound (x + 15) 16 ltac:(lia)).
  split; [lia|apply Z.divide_factor_l].
Qed.

Lemma aligned_size_spec x : u32_range x -> aligned_size x = if round_up x <? u32_modulus then round_up x else 0.
Proof.
  intros Hx. unfold aligned_size. rewrite land_15. change portBYTE_ALIGNMENT with 16. unfold round_up.
  pose proof (Z.div_mod x 16 ltac:(lia)) as Hd. pose proof (Z.mod_pos_bound x 16 ltac:(lia)).
  destruct (Z.eqb_spec (x mod 16) 0) as [E|E]; cbn [negb].
  - assert (Hq : (x + 15) / 16 = x / 16) by (symmetry; apply (Z.div_unique_pos _ _ _ 15); lia). rewrite Hq.
    rewrite (proj2 (Z.ltb_lt _ _)); [lia|]. u32_lia.
  - assert (Hq : (x + 15) / 16 = x / 16 + 1) by (symmetry; apply (Z.div_unique_pos _ _ _ (x mod 16 - 1)); lia). rewrite Hq.
    destruct (Z.ltb_spec (16 * (x / 16 + 1)) u32_modulus).
    + rewrite u32_small by u32_lia. rewrite (proj2 (Z.ltb_lt _ _)) by lia. lia.
    + rewrite u32_wrap_once by u32_lia. by rewrite (proj2 (Z.ltb_ge _ _)) by u32_lia.
Qed.

Hypothesis Hlayout : layout_ok.

(** [n] bytes have been handed out. *)
Record used_up (n : Z) s : Prop := {
  uu_next : xNextFreeByte s = n;
  uu_range : 0 <= n <= configADJUSTED_HEAP_SIZE /\ (16 | n);
  uu_base : pucAlignedHeap s = heap_base \/ pucAlignedHeap s = NULL /\ n = 0
}.

(** Is there room for a request after [n] bytes?  The last byte is never used. *)
Definition fits (n x : Z) : bool := (0 <? x) && (n + round_up x <? configADJUSTED_HEAP_SIZE).

Lemma align_heap_run n s : used_up n s -> align_heap ucHeap s = Some (tt, mkHeap1 n heap_base).
Proof.
  intros [Hn Hr Hb]. unfold align_heap, modify. do 2 f_equal.
  assert (E : Z.land (ucHeap +u portBYTE_ALIGNMENT) (Z.lnot portBYTE_ALIGNMENT_MASK) = heap_base).
  { unfold heap_base. rewrite u32_small; [done|]. destruct Hlayout. unfold configTOTAL_HEAP_SIZE, portBYTE_ALIGNMENT in *. u32_lia. }
  rewrite E, Hn. destruct Hb as [Hb|[Hb _]].
  - rewrite (proj2 (Z.eqb_neq _ _)); [by destruct s; simpl in *; subst|]. pose proof (heap_base_bounds ucHeap). destruct Hlayout. unfold NULL. lia.
  - by rewrite Hb, Z.eqb_refl.
Qed.

Lemma bump_wp n s x : used_up n s -> u32_range x ->
  wp (pvPortMalloc_suspended ucHeap (aligned_size x)) (fun p s' =>
    if fits n x then p = heap_base + n /\ used_up (n + round_up x) s' else p = NULL /\ used_up n s') s.
Proof.
  intros Hu Hx. pose proof (align_heap_run _ _ Hu) as Ha. destruct Hu as [Hn [Hr Hd] _]. pose proof (round_up_bounds x) as [Hb Hdx].
  pose proof (heap_base_bounds ucHeap) as [Hbase _]. destruct Hlayout as [H0 Hmax].
  unfold configADJUSTED_HEAP_SIZE, configTOTAL_HEAP_SIZE, portBYTE_ALIGNMENT in *.
  unfold pvPortMalloc_suspended, fits. apply wp_bind. eapply wp_intro; [exact Ha|]. apply wp_bind, wp_get. cbn [xNextFreeByte pucAlignedHeap].
  assert (Hno : used_up n (mkHeap1 n heap_base)).
  { split; [done| |by left]. unfold configADJUSTED_HEAP_SIZE, configTOTAL_HEAP_SIZE, portBYTE_ALIGNMENT. done. }
  rewrite aligned_size_spec by done. unfold configADJUSTED_HEAP_SIZE, configTOTAL_HEAP_SIZE, portBYTE_ALIGNMENT.
  destruct (Z.ltb_spec 0 x) as [Hx0|Hx0]; cbn [andb].
  2:{ assert (E : x = 0) by u32_lia. subst x. by apply wp_ret. }
  destruct (Z.ltb_spec (n + round_up x) (1935000 - 16)) as [Hf|Hf].
  - rewrite (proj2 (Z.ltb_lt (round_up x) _)) by u32_lia. rewrite (proj2 (Z.ltb_lt 0 _)) by lia. rewrite u32_small by u32_lia.
    rewrite (proj2 (Z.ltb_lt (n + _) _)), (proj2 (Z.ltb_lt n _)) by lia. cbn [andb]. apply wp_bind, wp_modify, wp_ret.
    split; [apply u32_small; u32_lia|]. cbn [xNextFreeByte pucAlignedHeap].
    split; [apply u32_small; u32_lia| |by left]. split; [|by apply Z.divide_add_r].
    unfold configADJUSTED_HEAP_SIZE, configTOTAL_HEAP_SIZE, portBYTE_ALIGNMENT. lia.
  - assert (Hfail : (0 <? (if round_up x <? u32_modulus then round_up x else 0)) &&
      (n +u (if round_up x <? u32_modulus then round_up x else 0) <? 1935000 - 16) &&
      (n <? n +u (if round_up x <? u32_modulus then round_up x else 0)) = false).
    { destruct (Z.ltb_spec (round_up x) u32_modulus); [|done]. apply andb_false_iff. destruct (decide (n + round_up x < u32_modulus)).
      - rewrite u32_small by u32_lia. left. rewrite (proj2 (Z.ltb_ge (n + _) _)) by lia. apply andb_false_r.
      - right. rewrite u32_wrap_once by u32_lia. apply Z.ltb_ge. u32_lia. }
    rewrite Hfail. by apply wp_ret.
Qed.

(** ** Histories *)

(** The allocator with what it has handed out: address and requested size. *)
Inductive hstep : heap1 * list blk -> heap1 * list blk -> Prop :=
  | hs_malloc s L x p s' : u32_range x -> pvPortMalloc_suspended ucHeap (aligned_size x) s = Some (p, s') ->
      hstep (s, L) (s', if p =? NULL then L else (p, x) :: L).

(** A block in the heap, aligned. *)
Definition well_placed (n : Z) (b : blk) : Prop :=
  heap_base <= b.1 /\ 0 < b.2 /\ b.1 + b.2 <= heap_base + n /\ (16 | b.1).

Definition hinv (st : heap1 * list blk) (n : Z) : Prop := used_up n st.1 /\ Forall (well_placed n) st.2 /\ all_apart st.2.

Lemma bump_step s L n x : hinv (s, L) n -> u32_range x ->
  wp (pvPortMalloc_suspended ucHeap (aligned_size x)) (fun p s' => exists n', hinv (s', if p =? NULL then L else (p, x) :: L) n') s.
Proof.
  intros (Hu & Hw & Ha) Hx. cbn [fst snd] in *. eapply wp_mono; [by apply bump_wp|]. intros p s'. pose proof (round_up_bounds x) as [Hb _].
  destruct (fits n x) eqn:E; [|intros [-> Hu']; by exists n]. intros [-> Hu']. apply andb_true_iff in E as [Hx0%Z.ltb_lt _].
  exists (n + round_up x). pose proof (heap_base_bounds ucHeap) as [Hbase Hd]. destruct Hu as [_ [Hr Hdn] _]. destruct Hlayout.
  rewrite (proj2 (Z.eqb_neq _ _)) by (unfold NULL; lia). split; [done|]. cbn [fst snd].
  assert (Hall : Forall (well_placed (n + round_up x)) L).
  { eapply Forall_impl; [exact Hw|]. intros b (? & ? & ? & ?). split_and!; try done. lia. }
  split.
  - constructor; [|done]. split_and!; simpl; try lia. by apply Z.divide_add_r.
  - split; [|done]. eapply Forall_impl; [exact Hw|]. intros b (? & ? & ? & ?). right. simpl. lia.
Qed.

Lemma bump_inv st : rtc hstep (heap1_boot, []) st -> exists n, hinv st n.
Proof.
  intros Hst. assert (Hi : exists n, hinv (heap1_boot, []) n).
  { exists 0. split; [split; [done| |by right]|by repeat constructor]. split; [by split|by exists 0]. }
  induction Hst as [st|st1 st2 st3 H1 _ IH]; [done|]. apply IH. destruct Hi as [n Hi]. destruct H1 as [s L x p s' Hx E].
  exact (wp_det _ _ _ _ _ (bump_step _ _ _ _ Hi Hx) E).
Qed.
End Heap1.

(** C33: whatever has been requested since boot, what was handed out does not overlap,
    lies in the heap and is aligned; and a further request gets the bytes after
    the last one, unless there are none left, and then gets NULL. *)
Theorem heap1_history_safe ucHeap st x : layout_ok ucHeap -> rtc (hstep ucHeap) (heap1_boot, []) st -> u32_range x ->
  all_apart st.2 /\ Forall (well_placed ucHeap configADJUSTED_HEAP_SIZE) st.2 /\
  wp (pvPortMalloc_suspended ucHeap (aligned_size x)) (fun p s' =>
    if fits (xNextFreeByte st.1) x
    then p = heap_base ucHeap + xNextFreeByte st.1 /\ xNextFreeByte s' = xNextFreeByte st.1 + round_up x
    else p = NULL /\ xNextFreeByte s' = xNextFreeByte st.1) st.1.
Proof.
  intros Hl Hst Hx. destruct (bump_inv _ Hl _ Hst) as (n & Hu & Hw & Ha). split; [done|]. split.
  - eapply Forall_impl; [exact Hw|]. intros b (? & ? & ? & ?). split_and!; try done. destruct (uu_range _ _ _ Hu). lia.
  - eapply wp_mono; [by eapply bump_wp|]. intros p s'. rewrite (uu_next _ _ _ Hu). destruct (fits n x); intros [-> []]; done.
Qed.

(** 100 bytes, then 20. *)
Lemma heap1_history_safe_witness : wp (pvPortMalloc_suspended 2147483648 (aligned_size 20)) (fun p _ => p = 2147483776)
  (mkHeap1 112 2147483664).
Proof.
  destruct (heap1_history_safe 2147483648 (mkHeap1 112 2147483664, [(2147483664, 100)]) 20) as (_ & _ & Hw).
  - unfold layout_ok, configTOTAL_HEAP_SIZE, u32_modulus. lia.
  - apply rtc_once. apply (hs_malloc 2147483648 heap1_boot [] 100 2147483664).
    + unfold u32_range, u32_modulus. lia.
    + vm_compute. reflexivity.
  - unfold u32_range, u32_modulus. lia.
  - eapply wp_mono; [exact Hw|]. intros p s' H. exact (proj1 H).
Defined.
