(* ===== verification/Heap2.v ===== *)
(** * portable/MemMang/heap_2.c: best fit, without coalescing

    Free blocks are kept in a list ordered by size.  As in [Heap4], block
    headers are kept in a map from their addresses; [ucHeap], [xStart] and
    [xEnd] are link-time addresses.  The parts that run with the scheduler
    suspended work on the statics of the file alone; the calls around them
    work on the kernel. *)

From S2P Require Import Prelude Config ListSpec Kernel Tasks HeapCalls.

Record BlockLink_t := mkBlock { pxNextFreeBlock : Z; xBlockSize : Z }.

Record heap2 := mkHeap2 {
  blocks : gmap Z BlockLink_t;
  xFreeBytesRemaining : Z;
  xHeapHasBeenInitialised : Z
}.

Definition set_blocks (b : gmap Z BlockLink_t) (s : heap2) : heap2 :=
  mkHeap2 b (xFreeBytesRemaining s) (xHeapHasBeenInitialised s).
Definition set_free_bytes (z : Z) (s : heap2) : heap2 := mkHeap2 (blocks s) z (xHeapHasBeenInitialised s).

(** [sizeof( BlockLink_t )] is 8, rounded up to the port's alignment. *)
Definition heapSTRUCT_SIZE : Z := Z.land (8 + (portBYTE_ALIGNMENT - 1)) (Z.lnot portBYTE_ALIGNMENT_MASK).
Definition heapMINIMUM_BLOCK_SIZE : Z := heapSTRUCT_SIZE * 2.

(** Access to a header through its address. *)
Definition rd_block (p : Z) : M heap2 BlockLink_t := fun s =>
  match blocks s !! p with Some b => Some (b, s) | None => None end.
Definition block_next (p : Z) : M heap2 Z := b ← rd_block p; mret (pxNextFreeBlock b).
Definition block_size (p : Z) : M heap2 Z := b ← rd_block p; mret (xBlockSize b).
Definition set_block_next (p n : Z) : M heap2 unit :=
  b ← rd_block p; modify (fun s => set_blocks (<[p := mkBlock n (xBlockSize b)]> (blocks s)) s).
Definition set_block_size (p z : Z) : M heap2 unit :=
  b ← rd_block p; modify (fun s => set_blocks (<[p := mkBlock (pxNextFreeBlock b) z]> (blocks s)) s).
(** A header written into memory that held none: its link is whatever the
    memory contained. *)
Definition new_block (p z : Z) : M heap2 unit :=
  modify (fun s => set_blocks (<[p := mkBlock (from_option pxNextFreeBlock NULL (blocks s !! p)) z]> (blocks s)) s).

Section Heap2.
Variables ucHeap xStart xEnd : Z.

Definition prvHeapInit : M heap2 unit :=
  let pucAlignedHeap := Z.land (ucHeap +u portBYTE_ALIGNMENT) (Z.lnot portBYTE_ALIGNMENT_MASK) in
  modify (fun s => set_blocks
    (<[pucAlignedHeap := mkBlock xEnd configADJUSTED_HEAP_SIZE]>
      (<[xEnd := mkBlock NULL configADJUSTED_HEAP_SIZE]>
        (<[xStart := mkBlock pucAlignedHeap 0]> (blocks s)))) s).

(** The [for] loop of the macro prvInsertBlockIntoFreeList: the last block
    before the first one that is not smaller. *)
Fixpoint insert_block_loop (fuel : nat) (pxIterator size : Z) : M heap2 Z :=
  n ← block_next pxIterator;
  n_size ← block_size n;
  if n_size <? size then
    match fuel with O => fault | S fuel' => insert_block_loop fuel' n size end
  else mret pxIterator.

Definition prvInsertBlockIntoFreeList (pxBlockToInsert : Z) : M heap2 unit :=
  sz ← block_size pxBlockToInsert;
  fuel ← gets (fun s => size (blocks s));
  pxIterator ← insert_block_loop fuel xStart sz;
  n ← block_next pxIterator;
  set_block_next pxBlockToInsert n;;
  set_block_next pxIterator pxBlockToInsert.

(** The size a request needs: header added, then 1 to 16 bytes up to the next
    multiple of the alignment; 0 when that does not fit in 32 bits. *)
Definition wanted_size (xWantedSize : Z) : Z :=
  if (0 <? xWantedSize) && (xWantedSize <? xWantedSize +u heapSTRUCT_SIZE) then
    let w := xWantedSize +u heapSTRUCT_SIZE in
    let w' := w +u (portBYTE_ALIGNMENT - Z.land w portBYTE_ALIGNMENT_MASK) in
    if w <? w' then w' else 0
  else 0.

(** The [while] loop of pvPortMalloc. *)
Fixpoint best_fit_loop (fuel : nat) (xWantedSize pxPreviousBlock pxBlock : Z) : M heap2 (Z * Z) :=
  sz ← block_size pxBlock;
  n ← block_next pxBlock;
  if (sz <? xWantedSize) && negb (n =? NULL) then
    match fuel with
    | O => fault
    | S fuel' => best_fit_loop fuel' xWantedSize pxBlock n
    end
  else mret (pxPreviousBlock, pxBlock).

(** Return the part of [pxBlock] that is not needed to the free list, when it
    is large enough to be a block. *)
Definition split_block (xWantedSize pxBlock : Z) : M heap2 unit :=
  sz ← block_size pxBlock;
  if heapMINIMUM_BLOCK_SIZE <? sz -u xWantedSize then
    let pxNewBlockLink := pxBlock +u xWantedSize in
    new_block pxNewBlockLink (sz -u xWantedSize);;
    set_block_size pxBlock xWantedSize;;
    prvInsertBlockIntoFreeList pxNewBlockLink
  else mret tt.

(** Take [pxBlock], which follows [pxPreviousBlock] in the free list. *)
Definition take_block (xWantedSize pxPreviousBlock pxBlock : Z) : M heap2 Z :=
  prev_next ← block_next pxPreviousBlock;
  let pvReturn := prev_next +u heapSTRUCT_SIZE in
  n ← block_next pxBlock;
  set_block_next pxPreviousBlock n;;
  split_block xWantedSize pxBlock;;
  sz ← block_size pxBlock;
  modify (fun s => set_free_bytes (xFreeBytesRemaining s -u sz) s);;
  mret pvReturn.

(** pvPortMalloc, the part that runs with the scheduler suspended. *)
Definition pvPortMalloc_suspended (xWantedSize : Z) : M heap2 Z :=
  i ← gets xHeapHasBeenInitialised;
  (if i =? pdFALSE then
     prvHeapInit;; modify (fun s => mkHeap2 (blocks s) (xFreeBytesRemaining s) pdTRUE)
   else mret tt);;
  let w := wanted_size xWantedSize in
  free ← gets xFreeBytesRemaining;
  if (0 <? w) && (w <=? free) then
    pxBlock ← block_next xStart;
    fuel ← gets (fun s => size (blocks s));
    '(pxPreviousBlock, pxBlock) ← best_fit_loop fuel w xStart pxBlock;
    if negb (pxBlock =? xEnd) then take_block w pxPreviousBlock pxBlock else mret NULL
  else mret NULL.

(** vPortFree for a pointer that is not null, with the scheduler suspended.  Nothing
    checks that the block is allocated. *)
Definition free_suspended (pv : Z) : M heap2 unit :=
  let pxLink := pv -u heapSTRUCT_SIZE in
  prvInsertBlockIntoFreeList pxLink;;
  sz ← block_size pxLink;
  modify (fun s => set_free_bytes (xFreeBytesRemaining s +u sz) s).

Definition xPortGetFreeHeapSize : M heap2 Z := gets xFreeBytesRemaining.

Section Calls.
Context {H : Type} `{!ListOps item list_id H}.
Definition pvPortMalloc (xWantedSize : Z) : prog (Kernel H * heap2) Z := malloc_call (pvPortMalloc_suspended xWantedSize).
Definition vPortFree (pv : Z) : prog (Kernel H * heap2) unit :=
  if negb (pv =? NULL) then
    atomic (on_fst vTaskSuspendAll);; atomic (on_snd (free_suspended pv));; atomic (on_fst xTaskResumeAll);; mret tt
  else mret tt.
End Calls.
End Heap2.

(** The statics at boot. *)
Definition heap2_boot (xStart xEnd : Z) : heap2 :=
  mkHeap2 {[ xStart := mkBlock NULL 0; xEnd := mkBlock NULL 0 ]} configADJUSTED_HEAP_SIZE pdFALSE.
