(* ===== verification/Heap2Spec.v ===== *)
(** * What heap_2.c promises

    The heap is a set of blocks that do not overlap, some in use and the others
    in a list ordered by size.  A request takes the smallest free block that
    is large enough and splits it when the rest is worth keeping; a block that
    is given back goes to its place in the list as it is. *)

From Stdlib Require Import Sorted.
From S2P Require Import Prelude Config ListSpec Blocks Heap2 HeapCalls.

(** ** Lists of blocks *)

Implicit Types (b c : blk) (bs fl used : list blk) (m : gmap Z BlockLink_t).

(** Ordered by size. *)
Definition by_size : list blk -> Prop := StronglySorted (fun b c => b.2 <= c.2).

Definition insert_free b fl : list blk := let '(p1, p2) := span (fun c => c.2 <? b.2) fl in p1 ++ b :: p2.

Lemma insert_free_perm b fl : insert_free b fl ≡ₚ b :: fl.
Proof.
  unfold insert_free. destruct (span _ fl) as [p1 p2] eqn:E. apply span_app in E as (-> & _). by rewrite Permutation_middle.
Qed.

Lemma sorted_app bs cs : by_size (bs ++ cs) <-> by_size bs /\ by_size cs /\ Forall (fun b => Forall (fun c => b.2 <= c.2) cs) bs.
Proof. apply ssorted_app. Qed.

Lemma insert_free_sorted b fl : by_size fl -> by_size (insert_free b fl).
Proof.
  unfold insert_free. destruct (span _ fl) as [p1 p2] eqn:E. apply span_app in E as (-> & H1 & H2).
  intros (S1 & S2 & S12)%sorted_app. apply sorted_app. split; [done|].
  assert (Hb : Forall (fun c => b.2 <= c.2) p2).
  { destruct p2 as [|c p2]; [constructor|]. apply Z.ltb_ge in H2. apply StronglySorted_inv in S2 as [_ Hc].
    constructor; [done|]. eapply Forall_impl; [exact Hc|]. simpl. lia. }
  split; [by constructor|]. apply Forall_forall. intros c Hc. constructor.
  - apply (proj1 (Forall_forall _ _) H1), Z.ltb_lt in Hc. lia.
  - by apply (proj1 (Forall_forall _ _) S12).
Qed.

#[export] Instance mkBlock_inj : Inj2 (=) (=) (=) mkBlock.
Proof. intros n z n' z' E. by simplify_eq. Qed.
Notation seg := (seg mkBlock).

(** ** Steps of the program *)

Lemma wp_next2 p x (Q : Z -> heap2 -> Prop) s : blocks s !! p = Some x -> Q (pxNextFreeBlock x) s -> wp (block_next p) Q s.
Proof. intros Hb HQ. exists (pxNextFreeBlock x), s. unfold block_next, rd_block, mbind, M_bind. by rewrite Hb. Qed.
Lemma wp_size2 p x (Q : Z -> heap2 -> Prop) s : blocks s !! p = Some x -> Q (xBlockSize x) s -> wp (block_size p) Q s.
Proof. intros Hb HQ. exists (xBlockSize x), s. unfold block_size, rd_block, mbind, M_bind. by rewrite Hb. Qed.
Lemma wp_set_next2 p n x (Q : unit -> heap2 -> Prop) s : blocks s !! p = Some x ->
  Q tt (set_blocks (<[p := mkBlock n (xBlockSize x)]> (blocks s)) s) -> wp (set_block_next p n) Q s.
Proof. intros Hb HQ. eexists tt, _. unfold set_block_next, rd_block, mbind, M_bind. by rewrite Hb. Qed.
Lemma wp_set_size2 p z x (Q : unit -> heap2 -> Prop) s : blocks s !! p = Some x ->
  Q tt (set_blocks (<[p := mkBlock (pxNextFreeBlock x) z]> (blocks s)) s) -> wp (set_block_size p z) Q s.
Proof. intros Hb HQ. eexists tt, _. unfold set_block_size, rd_block, mbind, M_bind. by rewrite Hb. Qed.

Section Loops.
Variables xStart xEnd : Z.
Implicit Types (s : heap2) (Q : Z -> heap2 -> Prop).

Definition end_marker : BlockLink_t := mkBlock NULL configADJUSTED_HEAP_SIZE.

(** The headers at the start of a chain. *)
Lemma seg_head s n bs : seg (blocks s) n bs xEnd -> blocks s !! xEnd = Some end_marker ->
  match bs with [] => n = xEnd | b :: bs' => n = b.1 /\ exists n', blocks s !! n = Some (mkBlock n' b.2) /\ seg (blocks s) n' bs' xEnd end.
Proof. destruct bs; simpl; naive_solver. Qed.

Lemma insert_loop_wp sz bs : forall Q fuel it z n s, blocks s !! it = Some (mkBlock n z) -> seg (blocks s) n bs xEnd ->
  blocks s !! xEnd = Some end_marker -> sz <= configADJUSTED_HEAP_SIZE -> (length bs <= fuel)%nat ->
  Q (default it (last (span (fun c => c.2 <? sz) bs).1.*1)) s -> wp (insert_block_loop fuel it sz) Q s.
Proof.
  induction bs as [|b bs IH]; intros Q fuel it z n s Hit Hs He Hsz Hf HQ; destruct fuel as [|fuel]; simpl in Hf; try lia; cbn [insert_block_loop].
  1,2: simpl in Hs; subst n; hstep; eapply wp_next2; [exact Hit|]; cbn [pxNextFreeBlock]; hstep; eapply wp_size2; [exact He|];
    rewrite (proj2 (Z.ltb_ge _ _)) by done; by hstep.
  destruct Hs as (-> & n' & Hb & Hs). hstep. eapply wp_next2; [exact Hit|]. cbn [pxNextFreeBlock]. hstep.
  eapply wp_size2; [exact Hb|]. cbn [xBlockSize]. simpl in HQ. destruct (b.2 <? sz) eqn:E; [|by hstep].
  eapply (IH _ fuel b.1 _ n' s Hb Hs He Hsz); [lia|]. destruct (span _ bs) as [p1 p2]. cbn [fst] in *.
  by rewrite fmap_cons, last_cons_default in HQ.
Qed.

Lemma best_loop_wp w bs : forall (Q : Z * Z -> heap2 -> Prop) fuel it n s, seg (blocks s) n bs xEnd ->
  blocks s !! xEnd = Some end_marker -> Forall (fun b => b.1 <> NULL) bs -> xEnd <> NULL -> (length bs <= fuel)%nat ->
  (let '(p1, p2) := span (fun c => c.2 <? w) bs in
   Q (default it (last p1.*1), match p2 with b :: _ => b.1 | [] => xEnd end) s) -> wp (best_fit_loop fuel w it n) Q s.
Proof.
  induction bs as [|b bs IH]; intros Q fuel it n s Hs He Hnn Hne Hf HQ; destruct fuel as [|fuel]; simpl in Hf; try lia; cbn [best_fit_loop].
  1,2: simpl in Hs, HQ; subst n; hstep; eapply wp_size2; [exact He|]; hstep; eapply wp_next2; [exact He|];
    cbn [end_marker xBlockSize pxNextFreeBlock]; rewrite Z.eqb_refl, andb_false_r; by hstep.
  destruct Hs as (-> & n' & Hb & Hs). apply Forall_cons in Hnn as [Hb0 Hnn]. hstep. eapply wp_size2; [exact Hb|].
  hstep. eapply wp_next2; [exact Hb|]. cbn [xBlockSize pxNextFreeBlock]. simpl in HQ.
  assert (Hn0 : n' =? NULL = false).
  { apply Z.eqb_neq. destruct bs as [|c bs]; simpl in Hs; [by subst n'|]. destruct Hs as [-> _]. by apply Forall_cons in Hnn as [? _]. }
  rewrite Hn0, andb_true_r. destruct (b.2 <? w) eqn:E; [|by hstep].
  eapply (IH _ fuel b.1 n' s Hs He Hnn Hne); [lia|]. destruct (span _ bs) as [p1 p2].
  by rewrite fmap_cons, last_cons_default in HQ.
Qed.

(** What prvInsertBlockIntoFreeList does to the headers. *)
Record inserted b fl s s' : Prop := {
  in_rest : s' = set_blocks (blocks s') s;
  in_chain : seg (blocks s') xStart ((xStart, 0) :: insert_free b fl) xEnd;
  in_block : exists n, blocks s' !! b.1 = Some (mkBlock n b.2);
  in_other a : a <> xStart -> a ∉ fl.*1 -> a <> b.1 -> blocks s' !! a = blocks s !! a
}.

Lemma insert_block_wp s fl b n0 : seg (blocks s) xStart ((xStart, 0) :: fl) xEnd -> blocks s !! xEnd = Some end_marker ->
  NoDup (xStart :: b.1 :: fl.*1) -> blocks s !! b.1 = Some (mkBlock n0 b.2) -> b.2 <= configADJUSTED_HEAP_SIZE ->
  wp (prvInsertBlockIntoFreeList xStart b.1) (fun _ s' => inserted b fl s s') s.
Proof.
  intros Hs He [Hn1 [Hn2 Hnd]%NoDup_cons]%NoDup_cons Hb Hsz. unfold prvInsertBlockIntoFreeList.
  hstep. eapply wp_size2; [exact Hb|]. cbn [xBlockSize]. hstep. apply wp_gets.
  destruct Hs as (_ & n1 & Hst & Hs). hstep.
  eapply insert_loop_wp; [exact Hst|exact Hs|exact He|exact Hsz|by eapply seg_fuel|].
  assert (Hins : insert_free b fl = (span (fun c => c.2 <? b.2) fl).1 ++ b :: (span (fun c => c.2 <? b.2) fl).2)
    by (unfold insert_free; by destruct (span _ fl)).
  destruct (span _ fl) as [p1 p2] eqn:E. apply span_app in E as (-> & _). cbn [fst snd] in *.
  set (c := default (xStart, 0) (last p1)).
  assert (Hsplit : exists xs, (xStart, 0) :: p1 = xs ++ [c]).
  { unfold c. destruct (last p1) as [d|] eqn:El; [|apply last_None in El as ->; by exists []].
    apply last_Some in El as [xs ->]. by exists ((xStart, 0) :: xs). }
  destruct Hsplit as [xs Hxs].
  assert (Hc : default xStart (last p1.*1) = c.1) by (unfold c; rewrite fmap_last; by destruct (last p1)). rewrite Hc.
  assert (Hfull : seg (blocks s) xStart (xs ++ c :: p2) xEnd).
  { change (xs ++ c :: p2) with (xs ++ [c] ++ p2). rewrite app_assoc, <- Hxs. simpl. eauto. }
  assert (Hnd' : NoDup (xs ++ c :: p2).*1).
  { change (xs ++ c :: p2) with (xs ++ [c] ++ p2). rewrite app_assoc, <- Hxs. simpl. constructor; [set_solver|done]. }
  assert (Hbn : b.1 ∉ (xs ++ c :: p2).*1).
  { change (xs ++ c :: p2) with (xs ++ [c] ++ p2). rewrite app_assoc, <- Hxs. simpl. set_solver. }
  destruct (seg_elem _ _ _ _ c Hfull ltac:(set_solver)) as [n Hcb].
  hstep. eapply wp_next2; [exact Hcb|]. cbn [pxNextFreeBlock]. hstep.
  eapply wp_set_next2; [exact Hb|]. cbn [xBlockSize]. eapply wp_set_next2.
  { simpl. rewrite lookup_insert_ne; [exact Hcb|]. intros Eb. apply Hbn. rewrite Eb. apply list_elem_of_fmap. exists c. set_solver. }
  assert (Hcin : c.1 = xStart \/ c.1 ∈ (p1 ++ p2).*1).
  { assert (Hin : c ∈ (xStart, 0) :: p1) by (rewrite Hxs; set_solver). apply elem_of_cons in Hin as [->|Hin]; [by left|right].
    apply list_elem_of_fmap. exists c. set_solver. }
  split; cbn [set_blocks blocks].
  - done.
  - rewrite Hins, app_comm_cons, Hxs, <- app_assoc. cbn [app]. apply (seg_link (blocks s) xStart xs c b p2); done.
  - exists n. rewrite lookup_insert_ne, lookup_insert_eq; [done|]. intros Eb. apply Hbn. rewrite <- Eb.
    apply list_elem_of_fmap. exists c. set_solver.
  - intros a Ha1 Ha2 Ha3. rewrite !lookup_insert_ne; [done|congruence|]. intros <-. tauto.
Qed.
End Loops.

(** ** The representation *)

(** The abstract operations, on the blocks in use and the free list. *)
Definition split_off (w : Z) b used fl : list blk * list blk :=
  if heapMINIMUM_BLOCK_SIZE <? b.2 - w then ((b.1, w) :: used, insert_free (b.1 + w, b.2 - w) fl) else (b :: used, fl).
Definition spec_malloc (x : Z) used fl : option (Z * (list blk * list blk)) :=
  let w := wanted_size x in
  if (0 <? w) && (w <=? total fl) then
    let '(p1, p2) := span (fun c => c.2 <? w) fl in
    match p2 with b :: p2' => Some (b.1, split_off w b used (p1 ++ p2')) | [] => None end
  else None.

Section Rep.
Variables ucHeap xStart xEnd : Z.
Implicit Types (s : heap2).

Notation heap_base := (heap_base ucHeap).
Definition heap_end : Z := heap_base + configADJUSTED_HEAP_SIZE.

(** The linker has placed the array below 2^32 and the two statics outside it. *)
Definition outside (a : Z) : Prop := 0 < a /\ (a < ucHeap \/ ucHeap + configTOTAL_HEAP_SIZE <= a).
Definition layout_ok : Prop :=
  0 < ucHeap /\ ucHeap + configTOTAL_HEAP_SIZE < u32_modulus /\ outside xStart /\ outside xEnd /\ xStart <> xEnd.

(** A block has room for its header and lies in the heap. *)
Record in_heap b : Prop := {
  ih_low : heap_base <= b.1;
  ih_size : 32 <= b.2;
  ih_high : b.1 + b.2 <= heap_end;
  ih_align : (16 | b.1)
}.

(** The headers are those of the blocks. *)
Record rep_blocks s used fl : Prop := {
  rb_chain : seg (blocks s) xStart ((xStart, 0) :: fl) xEnd;
  rb_end : blocks s !! xEnd = Some end_marker;
  rb_used : Forall (fun b => exists n, blocks s !! b.1 = Some (mkBlock n b.2)) used;
  rb_apart : all_apart (used ++ fl);
  rb_in : Forall in_heap (used ++ fl);
  rb_sorted : by_size fl;
  rb_total : total (used ++ fl) = configADJUSTED_HEAP_SIZE;
  rb_init : xHeapHasBeenInitialised s = pdTRUE
}.

Record rep_heap s used fl : Prop := {
  rh_blocks : rep_blocks s used fl;
  rh_bytes : xFreeBytesRemaining s = total fl
}.

Hypothesis Hlayout : layout_ok.

Lemma heap_end_bound : heap_end <= ucHeap + configTOTAL_HEAP_SIZE.
Proof. pose proof (heap_base_bounds ucHeap). unfold heap_end, configADJUSTED_HEAP_SIZE, portBYTE_ALIGNMENT. lia. Qed.
Lemma in_heap_bounds b : in_heap b -> ucHeap < b.1 /\ b.1 + b.2 <= ucHeap + configTOTAL_HEAP_SIZE /\ b.1 <> xStart /\ b.1 <> xEnd /\
  b.1 + b.2 < u32_modulus /\ b.2 <= configADJUSTED_HEAP_SIZE.
Proof.
  intros []. pose proof (heap_base_bounds ucHeap). pose proof heap_end_bound. destruct Hlayout as (? & ? & [? Hs] & [? He] & ?).
  unfold heap_end in *. lia.
Qed.

Lemma apart_addr b c : apart b c -> in_heap b -> in_heap c -> b.1 <> c.1.
Proof. intros [?|?] [] []; lia. Qed.
Lemma addrs_nodup bs : all_apart bs -> Forall in_heap bs -> NoDup bs.*1.
Proof.
  induction bs as [|b bs IH]; [constructor|]. intros [Hb Ha] [Hi Hin]%Forall_cons. simpl. constructor; [|auto].
  intros (c & E & Hc)%list_elem_of_fmap. apply (apart_addr b c); [by eapply Forall_forall|done|by eapply Forall_forall|done].
Qed.
Lemma rep_nodup s used fl : rep_blocks s used fl -> NoDup (xStart :: (used ++ fl).*1).
Proof.
  intros Hr. constructor; [|apply addrs_nodup; apply Hr]. intros (b & E & Hb)%list_elem_of_fmap.
  pose proof (proj1 (Forall_forall _ _) (rb_in _ _ _ Hr) _ Hb) as Hi. by apply in_heap_bounds in Hi as (_ & _ & ? & _).
Qed.

Lemma chain_nodup s used fl : rep_blocks s used fl -> NoDup (((xStart, 0) :: fl).*1).
Proof.
  intros [Hn Hnd]%rep_nodup%NoDup_cons. rewrite fmap_app in Hnd, Hn. apply NoDup_app in Hnd as (_ & _ & ?).
  simpl. constructor; [set_solver|done].
Qed.

(** A block in use goes to its place in the free list. *)
Lemma give_block_wp s u1 b u2 fl : rep_blocks s (u1 ++ b :: u2) fl ->
  wp (prvInsertBlockIntoFreeList xStart b.1) (fun _ s' => rep_blocks s' (u1 ++ u2) (insert_free b fl) /\
    s' = set_blocks (blocks s') s /\ exists n, blocks s' !! b.1 = Some (mkBlock n b.2)) s.
Proof.
  intros Hr. pose proof (rep_nodup _ _ _ Hr) as Hnd. destruct Hr as [Hc He Hu Ha Hi Hs Ht Hin].
  apply Forall_app in Hu as [Hu1 [[n0 Hb] Hu2]%Forall_cons].
  assert (HP : (u1 ++ b :: u2) ++ fl ≡ₚ b :: (u1 ++ u2) ++ fl) by (by rewrite <- Permutation_middle).
  assert (HP' : (u1 ++ u2) ++ insert_free b fl ≡ₚ (u1 ++ b :: u2) ++ fl).
  { rewrite insert_free_perm, HP. by rewrite Permutation_middle. }
  rewrite HP in Hnd, Hi. apply Forall_cons in Hi as [Hib Hi']. apply in_heap_bounds in Hib as Hbb.
  simpl in Hnd. rewrite fmap_app in Hnd. apply NoDup_cons in Hnd as [Hn1 [Hn2 [_ [Hd Hnf]]%NoDup_app]%NoDup_cons].
  eapply wp_mono; [eapply (insert_block_wp xStart xEnd s fl b n0); [done|done| |done|apply Hbb]|].
  - constructor; [set_solver|]. constructor; [set_solver|done].
  - intros [] s' [Hrest Hch Hbl Hot]. split; [|done]. split.
    + done.
    + rewrite Hot; [done|..].
      * destruct Hlayout as (_ & _ & _ & _ & ?). congruence.
      * intros (c & E & Hcf)%list_elem_of_fmap. assert (in_heap c) as Hic%in_heap_bounds by (eapply Forall_forall; [exact Hi'|set_solver]).
        destruct Hic as (_ & _ & _ & ? & _). congruence.
      * destruct Hbb as (_ & _ & _ & ? & _). congruence.
    + apply Forall_forall. intros c Hcu. assert (Hcin : c.1 ∈ (u1 ++ u2).*1) by (apply list_elem_of_fmap; eauto).
      rewrite Hot; [|intros E; rewrite E in Hcin; set_solver|by apply Hd|intros E; rewrite E in Hcin; set_solver].
      apply elem_of_app in Hcu as [?|?]; [by apply (proj1 (Forall_forall _ _) Hu1)|by apply (proj1 (Forall_forall _ _) Hu2)].
    + by rewrite HP'.
    + rewrite HP', HP. by constructor.
    + by apply insert_free_sorted.
    + by rewrite HP'.
    + by rewrite Hrest.
Qed.

(** A header outside the chain and the blocks in use can be written. *)
Lemma used_other (used : list blk) m a x : a ∉ used.*1 -> Forall (fun b => exists n, m !! b.1 = Some (mkBlock n b.2)) used ->
  Forall (fun b => exists n, <[a := x]> m !! b.1 = Some (mkBlock n b.2)) used.
Proof.
  intros Ha Hu. apply Forall_forall. intros b Hb. rewrite lookup_insert_ne; [by apply (proj1 (Forall_forall _ _) Hu)|].
  intros ->. apply Ha, list_elem_of_fmap. eauto.
Qed.

(** A free block is taken out of the list. *)
Lemma unlink_rep s used p1 b p2 xs c n z : rep_blocks s used (p1 ++ b :: p2) -> (xStart, 0) :: p1 = xs ++ [c] ->
  blocks s !! b.1 = Some (mkBlock n z) ->
  rep_blocks (set_blocks (<[c.1 := mkBlock n c.2]> (blocks s)) s) (b :: used) (p1 ++ p2).
Proof.
  intros Hr Hxs Hb. pose proof (rep_nodup _ _ _ Hr) as Hnd. pose proof (chain_nodup _ _ _ Hr) as Hnc. destruct Hr as [Hc He Hu Ha Hi Hs Ht Hin].
  assert (HP : used ++ p1 ++ b :: p2 ≡ₚ (b :: used) ++ p1 ++ p2) by (by rewrite <- !Permutation_middle).
  assert (Hfull : forall ys, (xStart, 0) :: p1 ++ ys = xs ++ c :: ys).
  { intros ys. change (c :: ys) with ([c] ++ ys). by rewrite app_comm_cons, Hxs, <- app_assoc. }
  assert (Hcin : c.1 = xStart \/ c.1 ∈ (p1 ++ p2).*1).
  { assert (Hin' : c ∈ (xStart, 0) :: p1) by (rewrite Hxs; set_solver). apply elem_of_cons in Hin' as [->|Hin']; [by left|right].
    apply list_elem_of_fmap. exists c. set_solver. }
  rewrite HP in Hnd, Ha, Hi, Ht. rewrite fmap_app in Hnd. apply NoDup_cons in Hnd as [Hst [_ [Hd _]]%NoDup_app].
  assert (Hcu : c.1 ∉ (b :: used).*1).
  { destruct Hcin as [->|Hcin]; [set_solver|]. intros Hin'. by apply (Hd _ Hin'). }
  split; cbn [set_blocks blocks]; try done.
  - rewrite Hfull in Hc |- *. eapply seg_unlink; [|exact Hc|exact Hb].
    by rewrite <- (Hfull (b :: p2)).
  - rewrite lookup_insert_ne; [done|]. destruct Hcin as [->|Hcin]; [by destruct Hlayout as (_ & _ & _ & _ & ?)|].
    apply list_elem_of_fmap in Hcin as (d & -> & Hd'). assert (in_heap d) as Hid%in_heap_bounds by (eapply Forall_forall; [exact Hi|set_solver]).
    by destruct Hid as (_ & _ & _ & ? & _).
  - apply used_other; [done|]. constructor; [|done]. exists n. by destruct (seg_elem _ _ _ _ b Hc ltac:(set_solver)) as [n' E]; rewrite E in Hb |- *; simplify_eq.
  - by apply sorted_app in Hs as (? & [? _]%StronglySorted_inv & Hs12); apply sorted_app; split_and!; [..|eapply Forall_impl; [exact Hs12|]; intros d [_ ?]%Forall_cons].
Qed.

(** A block in use is divided. *)
Lemma split_rep s b used fl n j w : rep_blocks s (b :: used) fl -> 32 <= w -> (16 | w) -> 32 < b.2 - w ->
  rep_blocks (set_blocks (<[b.1 := mkBlock n w]> (<[b.1 + w := mkBlock j (b.2 - w)]> (blocks s))) s)
    ((b.1, w) :: (b.1 + w, b.2 - w) :: used) fl.
Proof.
  intros Hr Hw Hdiv Hsz. pose proof (rep_nodup _ _ _ Hr) as Hnd. destruct Hr as [Hc He Hu Ha Hi Hs Ht Hin].
  simpl in Ha, Hi. destruct Ha as [Hab Ha]. apply Forall_cons in Hi as [Hib Hi]. pose proof (in_heap_bounds _ Hib) as Hbb. destruct Hib as [B1 B2 B3 B4].
  apply Forall_cons in Hu as [_ Hu]. simpl in Hnd. apply NoDup_cons in Hnd as [_ [Hbn Hnd]%NoDup_cons].
  assert (Hfar : forall c, c ∈ used ++ fl -> c.1 <> b.1 + w).
  { intros c Hcin E. apply (proj1 (Forall_forall _ _) Hab) in Hcin as Hap. destruct (proj1 (Forall_forall _ _) Hi _ Hcin). destruct Hap; lia. }
  assert (Hn1 : b.1 + w ∉ (used ++ fl).*1) by (intros (c & E & Hcin)%list_elem_of_fmap; by apply (Hfar c)).
  rewrite fmap_app, elem_of_app in Hbn, Hn1. split; cbn [set_blocks blocks]; try done.
  - rewrite !seg_other; [done| |]; simpl; apply not_elem_of_cons; (split; [|tauto]).
    + destruct Hlayout as (_ & _ & [_ ?] & _ & _). lia.
    + by destruct Hbb as (_ & _ & ? & _).
  - rewrite !lookup_insert_ne; [done| |]; destruct Hlayout as (_ & _ & _ & [_ ?] & _); lia.
  - constructor; [exists n; simpl; by rewrite lookup_insert_eq|]. constructor.
    + exists j. simpl. rewrite lookup_insert_ne by lia. by rewrite lookup_insert_eq.
    + apply used_other; [tauto|]. apply used_other; [tauto|done].
  - simpl. split_and!; [|eapply Forall_impl; [exact Hab|]; intros c [?|?]; [left|right]; simpl; lia|done].
    constructor; [left; simpl; lia|]. eapply Forall_impl; [exact Hab|]. intros c [?|?]; [left|right]; simpl; lia.
  - simpl. constructor; [split; simpl; try done; lia|]. constructor; [|done].
    split; simpl; try lia. by apply Z.divide_add_r.
  - simpl in Ht |- *. lia.
Qed.

(** ** Requests *)

Lemma add_no_wrap x a : u32_range x -> u32_range a -> x < x +u a -> x +u a = x + a.
Proof.
  intros Hx Ha Hlt. destruct (decide (x + a < u32_modulus)); [apply u32_small; u32_lia|].
  rewrite u32_wrap_once in Hlt by u32_lia. u32_lia.
Qed.

(** A header, and 1 to 16 bytes up to the next multiple of the alignment. *)
Lemma wanted_size_bounds x : u32_range x -> 0 < wanted_size x ->
  wanted_size x = 16 * ((x + 32) / 16) /\ 0 < x /\ x + 16 < wanted_size x <= x + 32 /\ 32 <= wanted_size x < u32_modulus /\ (16 | wanted_size x).
Proof.
  intros Hx. unfold wanted_size. change heapSTRUCT_SIZE with 16. change portBYTE_ALIGNMENT with 16. rewrite land_15.
  destruct (Z.ltb_spec 0 x); [|simpl; lia]. destruct (Z.ltb_spec x (x +u 16)) as [H1|]; [|simpl; lia]. simpl.
  pose proof (u32_spec (x + 16)) as Hr16. pose proof (add_no_wrap x 16 Hx ltac:(u32_lia) H1) as E. rewrite E in Hr16 |- *.
  pose proof (Z.div_mod (x + 16) 16 ltac:(lia)). pose proof (Z.mod_pos_bound (x + 16) 16 ltac:(lia)).
  destruct (Z.ltb_spec (x + 16) ((x + 16) +u (16 - (x + 16) mod 16))) as [Hlt2|]; [|lia]. intros _.
  pose proof (u32_spec (x + 16 + (16 - (x + 16) mod 16))) as Hr32.
  assert (E2 : (x + 16) +u (16 - (x + 16) mod 16) = x + 32 - (x + 16) mod 16) by (rewrite add_no_wrap; [lia|done|u32_lia|done]).
  rewrite E2 in *.
  assert (E3 : x + 32 - (x + 16) mod 16 = 16 * ((x + 32) / 16)).
  { replace (x + 32) with (x + 16 + 1 * 16) by lia. rewrite Z.div_add by done. lia. }
  split_and!; try lia; [unfold u32_range in *; lia|]. rewrite E3. by apply Z.divide_factor_l.
Qed.

Lemma total_nonneg bs : Forall in_heap bs -> 0 <= total bs.
Proof. induction 1 as [|b bs [] _ IH]; simpl; lia. Qed.

(** The chosen block is split, and the rest goes to the free list. *)
Lemma split_wp s b used fl w : rep_blocks s (b :: used) fl -> 32 <= w <= b.2 -> (16 | w) ->
  wp (split_block xStart w b.1) (fun _ s' =>
    let '(used', fl') := split_off w b used fl in rep_blocks s' used' fl' /\
    s' = set_blocks (blocks s') s /\ exists n, blocks s' !! b.1 = Some (mkBlock n (total used' - total used))) s.
Proof.
  intros Hr Hw Hdiv. pose proof (rb_used _ _ _ Hr) as [[n Hb] _]%Forall_cons. pose proof (rb_in _ _ _ Hr) as [Hib _]%Forall_cons.
  apply in_heap_bounds in Hib as (B1 & B2 & _ & _ & B5 & B6). assert (H0 : 0 < ucHeap) by apply Hlayout.
  unfold split_block, split_off. hstep. eapply wp_size2; [exact Hb|]. cbn [xBlockSize].
  assert (E : b.2 -u w = b.2 - w) by (apply u32_small; unfold u32_range; lia). rewrite E.
  destruct (Z.ltb_spec heapMINIMUM_BLOCK_SIZE (b.2 - w)) as [Hlt|_].
  - change heapMINIMUM_BLOCK_SIZE with 32 in Hlt. rewrite (u32_small (b.1 + w)) by (unfold u32_range; lia).
    hstep. apply wp_modify. set (j := from_option _ _ _). hstep. eapply wp_set_size2.
    { simpl. rewrite lookup_insert_ne by lia. exact Hb. }
    cbn [pxNextFreeBlock blocks set_blocks xFreeBytesRemaining xHeapHasBeenInitialised].
    pose proof (split_rep s b used fl n j w Hr ltac:(lia) Hdiv Hlt) as Hr1.
    eapply wp_mono; [apply (give_block_wp _ [(b.1, w)] (b.1 + w, b.2 - w) used fl Hr1)|].
    intros [] s' (Hr' & Hs' & _). split; [exact Hr'|]. split; [by rewrite Hs'|]. simpl.
    pose proof (rb_used _ _ _ Hr') as [[n' Hb'] _]%Forall_cons. exists n'. simpl in Hb'. rewrite Hb'. do 2 f_equal. simpl. lia.
  - hstep. split; [exact Hr|]. split; [by destruct s|]. exists n. rewrite Hb. do 2 f_equal. simpl. lia.
Qed.

(** pvPortMalloc on an initialised heap. *)
Lemma request_wp s used fl x : rep_heap s used fl -> u32_range x ->
  wp (pvPortMalloc_suspended ucHeap xStart xEnd x) (fun p s' =>
    match spec_malloc x used fl with
    | Some (a, (used', fl')) => p = a + heapSTRUCT_SIZE /\ rep_heap s' used' fl'
    | None => p = NULL /\ s' = s
    end) s.
Proof.
  intros [Hr Hby] Hx. pose proof (wanted_size_bounds x Hx) as Hw. unfold pvPortMalloc_suspended, spec_malloc.
  set (w := wanted_size x) in *. clearbody w. hstep. apply wp_gets. rewrite (rb_init _ _ _ Hr). hstep. change (pdTRUE =? pdFALSE) with false. cbn iota. hstep. hstep. apply wp_gets. rewrite Hby.
  destruct (Z.ltb_spec 0 w) as [H0|]; [|cbn [andb]; by hstep]. destruct (Z.leb_spec w (total fl)) as [Hfit|]; [|cbn [andb]; by hstep]. simpl.
  destruct (Hw H0) as (_ & _ & _ & [Hw32 Hwm] & Hdiv). pose proof (chain_nodup _ _ _ Hr) as Hnc.
  pose proof (rb_in _ _ _ Hr) as Hi. apply Forall_app in Hi as [_ Hi].
  destruct (rb_chain _ _ _ Hr) as (_ & n0 & Hst & Hch). hstep. eapply wp_next2; [exact Hst|]. cbn [pxNextFreeBlock].
  hstep. apply wp_gets. hstep. eapply (best_loop_wp xEnd w fl _ _ _ n0); [exact Hch|apply Hr| | |eapply seg_fuel; [exact Hch|]|].
  { eapply Forall_impl; [exact Hi|]. intros b Hb%in_heap_bounds. destruct Hlayout. unfold NULL. lia. }
  { destruct Hlayout as (_ & _ & _ & [? _] & _). unfold NULL. lia. }
  { by apply NoDup_cons in Hnc as [_ ?]. }
  destruct (span _ fl) as [p1 p2] eqn:E. apply span_app in E as (-> & _ & Hp2).
  destruct p2 as [|b p2]; [rewrite Z.eqb_refl; cbn [negb]; by hstep|].
  apply Forall_app in Hi as [_ [Hib _]%Forall_cons]. pose proof (in_heap_bounds _ Hib) as (B1 & B2 & _ & B4 & B5 & B6).
  apply Z.ltb_ge in Hp2. rewrite (proj2 (Z.eqb_neq _ _)) by done. cbn [negb].
  set (c := default (xStart, 0) (last p1)).
  assert (Hc : default xStart (last p1.*1) = c.1) by (unfold c; rewrite fmap_last; by destruct (last p1)). rewrite Hc.
  assert (exists xs, (xStart, 0) :: p1 = xs ++ [c]) as [xs Hxs].
  { unfold c. destruct (last p1) as [d|] eqn:El; [|apply last_None in El as ->; by exists []].
    apply last_Some in El as [xs ->]. by exists ((xStart, 0) :: xs). }
  assert (Hfull : (xStart, 0) :: p1 ++ b :: p2 = xs ++ c :: b :: p2).
  { change (c :: b :: p2) with ([c] ++ b :: p2). by rewrite app_comm_cons, Hxs, <- app_assoc. }
  pose proof (rb_chain _ _ _ Hr) as Hseg. rewrite Hfull in Hseg. apply seg_app in Hseg as (r & _ & (-> & n1 & Hcb & -> & n2 & Hb & _)).
  unfold take_block. hstep. eapply wp_next2; [exact Hcb|]. cbn [pxNextFreeBlock]. hstep. eapply wp_next2; [exact Hb|]. cbn [pxNextFreeBlock].
  hstep. eapply wp_set_next2; [exact Hcb|]. cbn [xBlockSize]. pose proof (unlink_rep _ _ _ _ _ xs c n2 b.2 Hr Hxs Hb) as Hr1.
  hstep. eapply wp_mono; [apply (split_wp _ _ _ _ w Hr1); [lia|done]|]. intros [] s2 H2.
  destruct (split_off w b used (p1 ++ p2)) as [used' fl'] eqn:Es. destruct H2 as (Hr2 & Hs2 & n3 & Hb2).
  hstep. eapply wp_size2; [exact Hb2|]. cbn [xBlockSize]. hstep. apply wp_modify. hstep. split.
  { apply u32_small. change heapSTRUCT_SIZE with 16. destruct Hib. destruct Hlayout. unfold u32_range. lia. }
  pose proof (rb_total _ _ _ Hr2) as T2. pose proof (rb_total _ _ _ Hr) as T1. rewrite !total_app in T1, T2.
  pose proof (rb_in _ _ _ Hr2) as [Hiu Hif]%Forall_app. apply total_nonneg in Hiu, Hif.
  split; [by destruct Hr2; split|]. simpl. rewrite Hs2. simpl. rewrite Hby, total_app. simpl.
  rewrite (total_app p1) in T1. simpl in T1. rewrite u32_small; [lia|]. unfold configADJUSTED_HEAP_SIZE, configTOTAL_HEAP_SIZE, portBYTE_ALIGNMENT in *. u32_lia.
Qed.

(** ** Returns *)

(** vPortFree on a live pointer. *)
Lemma return_wp s u1 b u2 fl : rep_heap s (u1 ++ b :: u2) fl ->
  wp (free_suspended xStart (b.1 + heapSTRUCT_SIZE)) (fun _ s' => rep_heap s' (u1 ++ u2) (insert_free b fl)) s.
Proof.
  intros [Hr Hby]. unfold free_suspended. pose proof (rb_in _ _ _ Hr) as [[_ [Hib _]%Forall_cons]%Forall_app Hif]%Forall_app.
  pose proof (in_heap_bounds _ Hib) as Hbb. change heapSTRUCT_SIZE with 16.
  assert (E : (b.1 + 16) -u 16 = b.1) by (replace (b.1 + 16 - 16) with b.1 by lia; apply u32_small; destruct Hib, Hlayout; unfold u32_range; lia).
  rewrite E. hstep. eapply wp_mono; [by apply give_block_wp|]. intros [] s1 (Hr1 & Hs1 & n & Hb). hstep. eapply wp_size2; [exact Hb|].
  cbn [xBlockSize]. apply wp_modify. pose proof (rb_total _ _ _ Hr1) as T1. pose proof (rb_in _ _ _ Hr1) as [Hiu Hi1]%Forall_app.
  apply total_nonneg in Hiu, Hif. pose proof (total_nonneg _ Hi1). rewrite total_app, insert_free_perm in T1. simpl in T1.
  split; [by destruct Hr1; split|]. simpl. rewrite Hs1, insert_free_perm. simpl. rewrite Hby, u32_small; [lia|].
  unfold configADJUSTED_HEAP_SIZE, configTOTAL_HEAP_SIZE, portBYTE_ALIGNMENT in *. destruct Hib. u32_lia.
Qed.

(** ** The first request *)

Definition initial : heap2 := mkHeap2
  (<[heap_base := mkBlock xEnd configADJUSTED_HEAP_SIZE]> (<[xEnd := end_marker]> (<[xStart := mkBlock heap_base 0]> (blocks (heap2_boot xStart xEnd)))))
  configADJUSTED_HEAP_SIZE pdTRUE.

Lemma initial_rep : rep_heap initial [] [(heap_base, configADJUSTED_HEAP_SIZE)].
Proof.
  pose proof (heap_base_bounds ucHeap) as [Hb Hd]. pose proof heap_end_bound. destruct Hlayout as (? & ? & [? Hs] & [? He] & Hne).
  unfold heap_end, configADJUSTED_HEAP_SIZE, configTOTAL_HEAP_SIZE, portBYTE_ALIGNMENT in *.
  split; [|done]. split; cbn [initial blocks].
  - simpl. split; [done|]. exists heap_base. rewrite lookup_insert_ne, lookup_insert_ne, lookup_insert_eq by lia.
    split; [done|]. split; [done|]. exists xEnd. by rewrite lookup_insert_eq.
  - by rewrite lookup_insert_ne, lookup_insert_eq by lia.
  - constructor.
  - simpl. by split.
  - constructor; [|constructor]. split; simpl; try done; unfold heap_end, configADJUSTED_HEAP_SIZE, configTOTAL_HEAP_SIZE, portBYTE_ALIGNMENT; lia.
  - by repeat constructor.
  - simpl. done.
  - done.
Qed.

(** The first request initialises the heap and then proceeds as any other. *)
Lemma first_malloc x : pvPortMalloc_suspended ucHeap xStart xEnd x (heap2_boot xStart xEnd) =
  pvPortMalloc_suspended ucHeap xStart xEnd x initial.
Proof.
  assert (E : Z.land (ucHeap +u portBYTE_ALIGNMENT) (Z.lnot portBYTE_ALIGNMENT_MASK) = heap_base).
  { unfold heap_base. rewrite u32_small; [done|]. destruct Hlayout. unfold configTOTAL_HEAP_SIZE, portBYTE_ALIGNMENT in *. u32_lia. }
  unfold pvPortMalloc_suspended, prvHeapInit, mbind, M_bind, mret, M_ret, gets, modify. rewrite E. reflexivity.
Qed.
End Rep.
