(* ===== verification/Heap2Props.v ===== *)
(** * Properties of heap_2.c

    A request gets the smallest free block that fits; no sequence of requests
    and returns makes the allocator fault or hand out overlapping memory; and
    memory once divided is never joined again. *)

From Stdlib Require Import Sorted.
From S2P Require Import Prelude Config ListSpec Blocks HeapCalls Heap2 Heap2Spec.

Implicit Types (b c : blk) (used fl : list blk) (s : heap2).

Lemma in_drop b (p1 p2 : list blk) c : c ∈ p1 ++ b :: p2 <-> c = b \/ c ∈ p1 ++ p2.
Proof. rewrite <- Permutation_middle. apply elem_of_cons. Qed.

(** What the abstract operation chooses. *)
Lemma spec_malloc_Some x used fl a used' fl' : by_size fl -> spec_malloc x used fl = Some (a, (used', fl')) ->
  exists b p1 p2, fl = p1 ++ b :: p2 /\ a = b.1 /\ 0 < wanted_size x <= b.2 /\
    (forall c, c ∈ fl -> wanted_size x <= c.2 -> b.2 <= c.2) /\ (used', fl') = split_off (wanted_size x) b used (p1 ++ p2).
Proof.
  intros Hs. unfold spec_malloc. destruct (Z.ltb_spec 0 (wanted_size x)); [|done]. destruct (_ <=? total fl); [|done].
  cbn [andb]. destruct (span _ fl) as [p1 p2] eqn:E. apply span_app in E as (-> & H1 & H2). destruct p2 as [|b p2]; [done|].
  intros [= <- <-]. apply Z.ltb_ge in H2. exists b, p1, p2. split_and!; try done. intros c [Hc|[->|Hc]%elem_of_cons]%elem_of_app Hw.
  - apply (proj1 (Forall_forall _ _) H1), Z.ltb_lt in Hc. lia.
  - done.
  - apply sorted_app in Hs as (_ & [_ Hb]%StronglySorted_inv & _). by apply (proj1 (Forall_forall _ _) Hb).
Qed.

Lemma spec_malloc_None x used fl : Forall (fun b => 0 <= b.2) fl -> spec_malloc x used fl = None ->
  wanted_size x <= 0 \/ forall c, c ∈ fl -> c.2 < wanted_size x.
Proof.
  intros Hnn. unfold spec_malloc. destruct (Z.ltb_spec 0 (wanted_size x)); [|by left]. right. revert H0.
  destruct (Z.leb_spec (wanted_size x) (total fl)); cbn [andb].
  - destruct (span _ fl) as [p1 p2] eqn:E. apply span_app in E as (-> & H1 & H2). destruct p2; [|done]. intros _ c.
    rewrite app_nil_r. intros Hc. by apply (proj1 (Forall_forall _ _) H1), Z.ltb_lt in Hc.
  - intros _ c Hc. apply list_elem_of_split in Hc as (p1 & p2 & ->). apply Forall_app in Hnn as [N1 [Nc N2]%Forall_cons].
    assert (Hpos : forall bs, Forall (fun b : blk => 0 <= b.2) bs -> 0 <= total bs) by (induction 1; simpl; lia).
    pose proof (Hpos _ N1). pose proof (Hpos _ N2). rewrite total_app in *. simpl in *. lia.
Qed.

Section Properties.
Variables ucHeap xStart xEnd : Z.
Notation malloc := (pvPortMalloc_suspended ucHeap xStart xEnd).
Notation rep := (rep_heap ucHeap xStart xEnd).

Lemma rep_sizes s used fl : rep s used fl -> Forall (fun b => 0 <= b.2) fl.
Proof.
  intros [Hr _]. pose proof (rb_in _ _ _ _ _ _ Hr) as [_ Hf]%Forall_app. eapply Forall_impl; [exact Hf|]. intros b [_ ? _ _]. lia.
Qed.

Lemma heap2_malloc_best_fit' s used fl x : layout_ok ucHeap xStart xEnd -> rep s used fl -> u32_range x ->
  wp (malloc x) (fun p s' =>
    (p = NULL /\ s' = s /\ (wanted_size x <= 0 \/ forall c, c ∈ fl -> c.2 < wanted_size x)) \/
    exists b p1 p2 used' fl', fl = p1 ++ b :: p2 /\ p = b.1 + heapSTRUCT_SIZE /\ 0 < wanted_size x <= b.2 /\
      (forall c, c ∈ fl -> wanted_size x <= c.2 -> b.2 <= c.2) /\
      (used', fl') = split_off (wanted_size x) b used (p1 ++ p2) /\ rep s' used' fl') s.
Proof.
  intros Hl Hr Hx. eapply wp_mono; [by apply request_wp|]. intros p s'.
  destruct (spec_malloc x used fl) as [[a [used' fl']]|] eqn:E.
  - intros [-> Hr']. right. apply spec_malloc_Some in E as (b & p1 & p2 & ? & -> & ? & ? & ?); [|apply Hr].
    exists b, p1, p2, used', fl'. split_and!; tauto.
  - intros [-> ->]. left. split_and!; [done..|]. eapply spec_malloc_None; [by eapply rep_sizes|done].
Qed.

(** ** Histories of requests and returns *)

(** The allocator with what its clients hold: pointers, with the sizes they
    asked for. *)
Definition hstate : Type := heap2 * list (Z * Z).

Inductive hstep : hstate -> hstate -> Prop :=
  | hs_malloc s L x p s' : u32_range x -> malloc x s = Some (p, s') -> hstep (s, L) (s', if p =? NULL then L else (p, x) :: L)
  | hs_free s L1 p x L2 s' : free_suspended xStart p s = Some (tt, s') -> hstep (s, L1 ++ (p, x) :: L2) (s', L1 ++ L2).

(** Each is served by a block in use. *)
Definition hrep (st : hstate) used fl : Prop := rep st.1 used fl /\ Forall2 (serves heapSTRUCT_SIZE) st.2 used.

Hypothesis Hlayout : layout_ok ucHeap xStart xEnd.

(** Each block is part of an earlier one. *)
Definition parts_of (bs cs : list blk) : Prop := forall c, c ∈ cs -> exists b, b ∈ bs /\ b.1 <= c.1 /\ c.1 + c.2 <= b.1 + b.2.

Lemma split_off_parts w b used fl used' fl' : 0 < w <= b.2 -> (used', fl') = split_off w b used fl ->
  (exists z, used' = (b.1, z) :: used /\ w <= z) /\ parts_of (b :: used ++ fl) (used' ++ fl').
Proof.
  intros Hw. unfold split_off. case_match; intros [= -> ->].
  - split; [by exists w; split; [|lia]|]. intros c. rewrite insert_free_perm. rewrite <- Permutation_middle. simpl. rewrite !elem_of_cons. intros [->|[->|Hc]].
    + exists b. split; [by left|simpl; lia].
    + exists b. split; [by left|simpl; lia].
    + exists c. split; [by right|lia].
  - split; [exists b.2; split; [by destruct b|lia]|]. intros c Hc. exists c. split; [done|lia].
Qed.

(** A request. *)
Lemma request_step s L used fl x : hrep (s, L) used fl -> u32_range x ->
  wp (malloc x) (fun p s' => exists used' fl', hrep (s', if p =? NULL then L else (p, x) :: L) used' fl' /\
    parts_of (used ++ fl) (used' ++ fl')) s.
Proof.
  intros [Hr Hp] Hx. eapply wp_mono; [by apply heap2_malloc_best_fit'|]. intros p s' [(-> & -> & _)|Hm].
  - exists used, fl. split; [by split|]. intros c Hc. exists c. split; [done|lia].
  - destruct Hm as (b & p1 & p2 & used' & fl' & -> & -> & Hw & _ & Hsp & Hr'). exists used', fl'.
    pose proof (rb_in _ _ _ _ _ _ (rh_blocks _ _ _ _ _ _ Hr)) as [_ [_ [Hb _]%Forall_cons]%Forall_app]%Forall_app.
    destruct (split_off_parts _ _ _ _ _ _ Hw Hsp) as [(z & -> & Hz) Hparts].
    destruct (wanted_size_bounds x Hx ltac:(lia)) as (_ & Hx0 & Hroom & _).
    rewrite (proj2 (Z.eqb_neq _ _)).
    + split; [split; [done|]|].
      * constructor; [|done]. split_and!; [done|done|]. change heapSTRUCT_SIZE with 16. cbn [fst snd]. lia.
      * intros c Hc. destruct (Hparts c Hc) as (d & Hd & ?). exists d. split; [|done]. by rewrite <- Permutation_middle, <- Permutation_middle.
    + apply (in_heap_bounds _ _ _ Hlayout) in Hb. destruct Hlayout. change heapSTRUCT_SIZE with 16. unfold NULL. lia.
Qed.

(** A return. *)
Lemma return_step s L1 p x L2 used fl : hrep (s, L1 ++ (p, x) :: L2) used fl ->
  wp (free_suspended xStart p) (fun _ s' => exists used' fl', hrep (s', L1 ++ L2) used' fl' /\ used ++ fl ≡ₚ used' ++ fl') s.
Proof.
  intros [Hr (u1 & u' & H1 & (b & u2 & [Hb _] & H2 & ->)%Forall2_cons_inv_l & ->)%Forall2_app_inv_l]. cbn [fst snd] in *. subst p.
  eapply wp_mono; [by apply return_wp|]. intros [] s' Hr'. exists (u1 ++ u2), (insert_free b fl). split; [split; [done|]|].
  - by apply Forall2_app.
  - rewrite insert_free_perm. by rewrite <- !Permutation_middle.
Qed.

Lemma parts_of_refl bs : parts_of bs bs.
Proof. intros c Hc. exists c. split; [done|lia]. Qed.
Lemma parts_of_trans bs cs ds : parts_of bs cs -> parts_of cs ds -> parts_of bs ds.
Proof. intros H1 H2 d Hd. destruct (H2 d Hd) as (c & Hc & ? & ?). destruct (H1 c Hc) as (b & Hb & ? & ?). exists b. split; [done|lia]. Qed.

Lemma step_inv st st' used fl : hrep st used fl -> hstep st st' ->
  exists used' fl', hrep st' used' fl' /\ parts_of (used ++ fl) (used' ++ fl').
Proof.
  intros Hh Hs. destruct Hs as [s L x p s' Hx E|s L1 p x L2 s' E].
  - exact (wp_det _ _ _ _ _ (request_step _ _ _ _ _ Hh Hx) E).
  - destruct (wp_det _ _ _ _ _ (return_step _ _ _ _ _ _ _ Hh) E) as (used' & fl' & Hh' & HP). exists used', fl'. split; [done|].
    intros c. rewrite <- HP. apply parts_of_refl.
Qed.

Lemma steps_inv st st' used fl : hrep st used fl -> rtc hstep st st' ->
  exists used' fl', hrep st' used' fl' /\ parts_of (used ++ fl) (used' ++ fl').
Proof.
  intros Hh Hst. revert used fl Hh. induction Hst as [st|st1 st2 st3 H1 _ IH]; intros used fl Hh.
  - exists used, fl. split; [done|apply parts_of_refl].
  - destruct (step_inv _ _ _ _ Hh H1) as (u2 & f2 & Hh2 & Hp2). destruct (IH _ _ Hh2) as (u3 & f3 & Hh3 & Hp3).
    exists u3, f3. split; [done|by eapply parts_of_trans].
Qed.

(** The statics at boot stand for the initialised heap. *)
Lemma first_step st : hstep (heap2_boot xStart xEnd, []) st -> hstep (initial ucHeap xStart xEnd, []) st.
Proof.
  intros Hs. inversion Hs as [s L x p s' Hx E E1 E2|s L1 p x L2 s' E E1 E2]; subst; [|by destruct L1].
  apply hs_malloc with (x := x); [done|]. by rewrite <- first_malloc.
Qed.
Lemma initial_hrep : hrep (initial ucHeap xStart xEnd, []) [] [(heap_base ucHeap, configADJUSTED_HEAP_SIZE)].
Proof. split; [by apply initial_rep|done]. Qed.

Lemma since_boot st : rtc hstep (heap2_boot xStart xEnd, []) st ->
  st = (heap2_boot xStart xEnd, []) \/ exists used fl, hrep st used fl.
Proof.
  intros Hst. inversion Hst as [|? st1 ? H1 Hrest]; subst; [by left|right].
  destruct (steps_inv _ _ _ _ initial_hrep (rtc_l _ _ _ _ (first_step _ H1) Hrest)) as (used & fl & Hh & _). eauto.
Qed.
End Properties.

Section Published.
Variables ucHeap xStart xEnd : Z.
Notation malloc := (pvPortMalloc_suspended ucHeap xStart xEnd).
Notation rep := (rep_heap ucHeap xStart xEnd).
Notation reach := (rtc (hstep ucHeap xStart xEnd) (heap2_boot xStart xEnd, [])).

(** PvPortMalloc takes a smallest block among those that are large enough, and
    returns NULL, leaving everything as it was, only if the request overflows or
    no free block is large enough. *)
Theorem heap2_malloc_best_fit s used fl x : layout_ok ucHeap xStart xEnd -> rep s used fl -> u32_range x ->
  wp (malloc x) (fun p s' =>
    (p = NULL /\ s' = s /\ (wanted_size x <= 0 \/ forall c, c ∈ fl -> c.2 < wanted_size x)) \/
    exists b p1 p2 used' fl', fl = p1 ++ b :: p2 /\ p = b.1 + heapSTRUCT_SIZE /\ 0 < wanted_size x <= b.2 /\
      (forall c, c ∈ fl -> wanted_size x <= c.2 -> b.2 <= c.2) /\
      (used', fl') = split_off (wanted_size x) b used (p1 ++ p2) /\ rep s' used' fl') s.
Proof. apply heap2_malloc_best_fit'. Qed.

(** C32: no sequence of requests and of returns of live pointers, from the statics at
    boot, makes the allocator fault.  From the first request on, the blocks in
    use, whose headers are in memory, are those that serve the live pointers,
    each with room for what was asked; the free ones are those of the list in
    memory, ordered by size.  No two blocks overlap, all lie in the heap, are
    aligned and fill it together, and the count of free bytes is exact. *)
Theorem heap2_history_safe st x p : layout_ok ucHeap xStart xEnd -> reach st -> u32_range x ->
  is_Some (malloc x st.1) /\ (p ∈ st.2 -> is_Some (free_suspended xStart p.1 st.1)) /\
  (st = (heap2_boot xStart xEnd, []) \/ exists used fl, Forall2 (serves heapSTRUCT_SIZE) st.2 used /\
    Forall (fun b => exists n, blocks st.1 !! b.1 = Some (mkBlock n b.2)) used /\
    seg (blocks st.1) xStart ((xStart, 0) :: fl) xEnd /\ by_size fl /\
    all_apart (used ++ fl) /\ Forall (in_heap ucHeap) (used ++ fl) /\
    total (used ++ fl) = configADJUSTED_HEAP_SIZE /\ total fl = xFreeBytesRemaining st.1).
Proof.
  intros Hl Hst Hx. destruct (since_boot _ _ _ Hl _ Hst) as [->|(used & fl & Hh)].
  - cbn [fst snd]. rewrite first_malloc by done. split; [|split; [by intros ?%elem_of_nil|by left]].
    destruct (request_step _ _ _ Hl _ _ _ _ _ (initial_hrep _ _ _ Hl) Hx) as (r & s' & E & _). eauto.
  - destruct st as [s L]. cbn [fst snd] in *. split; [|split].
    + destruct (request_step _ _ _ Hl _ _ _ _ _ Hh Hx) as (r & s' & E & _). eauto.
    + intros Hp. apply list_elem_of_split in Hp as (L1 & L2 & ->). destruct p as [p y].
      destruct (return_step _ _ _ Hl _ _ _ _ _ _ _ Hh) as (r & s' & E & _). eauto.
    + right. exists used, fl. destruct Hh as [[[] Hby] Hp]. by split_and!.
Qed.

(** Memory that has been divided is never joined again: whatever is requested and
    returned, each block, free or in use, is part of an earlier one, so a request
    that no block can hold will never succeed. *)
Theorem heap2_never_joins st st' used fl : layout_ok ucHeap xStart xEnd -> hrep ucHeap xStart xEnd st used fl ->
  rtc (hstep ucHeap xStart xEnd) st st' ->
  exists used' fl', hrep ucHeap xStart xEnd st' used' fl' /\ parts_of (used ++ fl) (used' ++ fl').
Proof. intros Hl. by apply steps_inv. Qed.
End Published.

(** ** Instances *)

Lemma heap2_layout : layout_ok 2147483648 4096 4112.
Proof. unfold layout_ok, outside, configTOTAL_HEAP_SIZE, u32_modulus. lia. Qed.

(** The heap after one request for 100 bytes. *)
Definition demo_heap : Z * heap2 :=
  default (NULL, heap2_boot 4096 4112) (pvPortMalloc_suspended 2147483648 4096 4112 100 (heap2_boot 4096 4112)).

Lemma demo_request : hstep 2147483648 4096 4112 (heap2_boot 4096 4112, []) (demo_heap.2, [(2147483680, 100)]).
Proof.
  assert (E : [(2147483680, 100)] = if demo_heap.1 =? NULL then [] else [(demo_heap.1, 100)]) by (vm_compute; reflexivity).
  rewrite E. apply hs_malloc with (x := 100).
  - unfold u32_range, u32_modulus. lia.
  - rewrite <- surjective_pairing. vm_compute. reflexivity.
Qed.

Lemma heap2_malloc_best_fit_witness : wp (pvPortMalloc_suspended 2147483648 4096 4112 100) (fun p _ => p = 2147483680)
  (initial 2147483648 4096 4112).
Proof.
  eapply wp_mono.
  - apply (heap2_malloc_best_fit 2147483648 4096 4112 _ [] [(2147483664, 1934984)] 100 heap2_layout).
    + exact (initial_rep 2147483648 4096 4112 heap2_layout).
    + unfold u32_range, u32_modulus. lia.
  - intros p s' [(_ & _ & [Hw|Hno])|(b & p1 & p2 & used' & fl' & E & -> & _)].
    + vm_compute in Hw. destruct (Hw eq_refl).
    + specialize (Hno (2147483664, 1934984) (list_elem_of_here _ _)). vm_compute in Hno. discriminate.
    + destruct p1 as [|c [|d p1]]; [injection E as <- _; reflexivity|discriminate|discriminate].
Defined.

Lemma heap2_history_safe_witness : is_Some (free_suspended 4096 2147483680 demo_heap.2).
Proof.
  apply (heap2_history_safe 2147483648 4096 4112 (demo_heap.2, [(2147483680, 100)]) 1 (2147483680, 100) heap2_layout).
  - apply rtc_once. exact demo_request.
  - unfold u32_range, u32_modulus. lia.
  - simpl. left.
Defined.

Lemma heap2_never_joins_witness : exists used fl,
  hrep 2147483648 4096 4112 (demo_heap.2, [(2147483680, 100)]) used fl /\ parts_of [(2147483664, 1934984)] (used ++ fl).
Proof.
  apply (heap2_never_joins 2147483648 4096 4112 (initial 2147483648 4096 4112, []) (demo_heap.2, [(2147483680, 100)])
    [] [(2147483664, 1934984)] heap2_layout).
  - exact (initial_hrep 2147483648 4096 4112 heap2_layout).
  - apply rtc_once. exact (first_step _ _ _ heap2_layout _ demo_request).
Defined.
