(* ===== verification/Heap5.v ===== *)
(** * portable/MemMang/heap_5.c: heap_4.c over several regions

    The regions are handed over before the first request; a header of size 0 at
    the end of each leads to the next.  The functions whose text is that of
    heap_4.c (prvInsertBlockIntoFreeList, the search, the splitting and the
    marking of a block, the tests of vPortFree) are those of [Heap4]; the file's
    state has the same fields. *)

From S2P Require Import Prelude Config ListSpec Kernel Tasks HeapCalls Heap4.

Section Heap5.
Variable xStart : Z.

(** An entry of the array: pucStartAddress and xSizeInBytes. *)
Definition HeapRegion_t : Type := Z * Z.

(** One round of the loop of vPortDefineHeapRegions; the result is the size of
    the region's free block. *)
Definition define_region (xDefinedRegions : Z) (pxHeapRegion : HeapRegion_t) : M heap4 Z :=
  let '(pucStartAddress, xSizeInBytes) := pxHeapRegion in
  let unaligned := negb (Z.land pucStartAddress portBYTE_ALIGNMENT_MASK =? 0) in
  let xAlignedHeap := if unaligned
    then Z.land (pucStartAddress +u (portBYTE_ALIGNMENT - 1)) (Z.lnot portBYTE_ALIGNMENT_MASK) else pucStartAddress in
  let xTotalRegionSize := if unaligned then xSizeInBytes -u (xAlignedHeap -u pucStartAddress) else xSizeInBytes in
  (if xDefinedRegions =? 0 then modify (fun s => set_blocks (<[xStart := mkBlock xAlignedHeap 0]> (blocks s)) s) else mret tt);;
  pxPreviousFreeBlock ← gets pxEnd;
  let xAddress := Z.land ((xAlignedHeap +u xTotalRegionSize) -u xHeapStructSize) (Z.lnot portBYTE_ALIGNMENT_MASK) in
  modify (fun s => mkHeap4 (<[xAddress := mkBlock NULL 0]> (blocks s)) xAddress (xFreeBytesRemaining s)
    (xMinimumEverFreeBytesRemaining s) (xNumberOfSuccessfulAllocations s) (xNumberOfSuccessfulFrees s) (xBlockAllocatedBit s));;
  modify (fun s => set_blocks (<[xAlignedHeap := mkBlock xAddress (xAddress -u xAlignedHeap)]> (blocks s)) s);;
  (if negb (pxPreviousFreeBlock =? NULL) then set_block_next pxPreviousFreeBlock xAlignedHeap else mret tt);;
  block_size xAlignedHeap.

(** The array ends with a region of size 0; past its end there is nothing to
    read. *)
Fixpoint define_regions_loop (pxHeapRegions : list HeapRegion_t) (xDefinedRegions xTotalHeapSize : Z) : M heap4 Z :=
  match pxHeapRegions with
  | [] => fault
  | r :: rest =>
      if 0 <? r.2 then
        sz ← define_region xDefinedRegions r;
        define_regions_loop rest (xDefinedRegions +u 1) (xTotalHeapSize +u sz)
      else mret xTotalHeapSize
  end.

Definition vPortDefineHeapRegions (pxHeapRegions : list HeapRegion_t) : M heap4 unit :=
  xTotalHeapSize ← define_regions_loop pxHeapRegions 0 0;
  modify (fun s => mkHeap4 (blocks s) (pxEnd s) xTotalHeapSize xTotalHeapSize
    (xNumberOfSuccessfulAllocations s) (xNumberOfSuccessfulFrees s) (Z.shiftl 1 (4 * heapBITS_PER_BYTE - 1))).

(** pvPortMalloc, the part that runs with the scheduler suspended. *)
Definition pvPortMalloc_suspended (xWantedSize : Z) : M heap4 Z :=
  bit ← gets xBlockAllocatedBit;
  if Z.land xWantedSize bit =? 0 then
    let w := wanted_size xWantedSize in
    free ← gets xFreeBytesRemaining;
    if (0 <? w) && (w <=? free) then
      pxBlock ← block_next xStart;
      fuel ← gets (fun s => size (blocks s));
      '(pxPreviousBlock, pxBlock) ← first_fit_loop fuel w xStart pxBlock;
      e ← gets pxEnd;
      if negb (pxBlock =? e) then take_block xStart w pxPreviousBlock pxBlock else mret NULL
    else mret NULL
  else mret NULL.

(** vPortFree without the calls about the scheduler. *)
Definition vPortFree_body (pv : Z) : M heap4 unit :=
  g ← free_guard pv;
  if g : bool then free_clear pv;; free_suspended xStart pv else mret tt.

(** The do-while loop of vPortGetHeapStats: count, largest, smallest. *)
Fixpoint heap_stats_loop (fuel : nat) (pxBlock xBlocks xMaxSize xMinSize : Z) : M heap4 (Z * Z * Z) :=
  sz ← block_size pxBlock;
  let xBlocks := xBlocks +u 1 in
  let xMaxSize := if xMaxSize <? sz then sz else xMaxSize in
  let xMinSize := if negb (sz =? 0) then if sz <? xMinSize then sz else xMinSize else xMinSize in
  n ← block_next pxBlock;
  e ← gets pxEnd;
  if negb (n =? e) then
    match fuel with
    | O => fault
    | S fuel' => heap_stats_loop fuel' n xBlocks xMaxSize xMinSize
    end
  else mret (xBlocks, xMaxSize, xMinSize).

Definition vPortGetHeapStats : M heap4 HeapStats_t :=
  pxBlock ← block_next xStart;
  '(xBlocks, xMaxSize, xMinSize) ←
    (if negb (pxBlock =? NULL) then
       fuel ← gets (fun s => size (blocks s));
       heap_stats_loop fuel pxBlock 0 0 portMAX_DELAY
     else mret (0, 0, portMAX_DELAY));
  s ← get;
  mret (mkHeapStats (xFreeBytesRemaining s) xMaxSize xMinSize xBlocks
          (xMinimumEverFreeBytesRemaining s) (xNumberOfSuccessfulAllocations s)
          (xNumberOfSuccessfulFrees s)).

Definition xPortGetFreeHeapSize : M heap4 Z := gets xFreeBytesRemaining.
Definition xPortGetMinimumEverFreeHeapSize : M heap4 Z := gets xMinimumEverFreeBytesRemaining.

Section Calls.
Context {H : Type} `{!ListOps item list_id H}.
Definition pvPortMalloc (xWantedSize : Z) : prog (Kernel H * heap4) Z := malloc_call (pvPortMalloc_suspended xWantedSize).
Definition vPortFree (pv : Z) : prog (Kernel H * heap4) unit :=
  g ← atomic (on_snd (g ← free_guard pv; when g (free_clear pv);; mret g));
  if g : bool then
    atomic (on_fst vTaskSuspendAll);;
    atomic (on_snd (free_suspended xStart pv));;
    atomic (on_fst xTaskResumeAll);;
    mret tt
  else mret tt.
End Calls.
End Heap5.
