(* ===== verification/Heap5Spec.v ===== *)
(** * What heap_5.c promises

    The heap is a set of ranges, one for each region.  Blocks that do not
    overlap lie in them; the free ones are in a list ordered by address, in which
    each range but the last is followed by a block of size 0 where it ends.  A
    block that comes to the list is joined with its neighbours there when they
    touch, which also takes the block of size 0 out of the list. *)

From Stdlib Require Import Sorted.
From S2P Require Import Prelude Config ListSpec Blocks Heap4 Heap4Spec Heap5.

Implicit Types (b c d r : blk) (fl used rs : list blk) (s : heap4) (m : gmap Z BlockLink_t).

#[export] Instance header_inj : Inj2 (=) (=) (=) mkBlock.
Proof. intros n z n' z' E. by simplify_eq. Qed.
Notation seg := (seg mkBlock).

(** ** The free list *)

Definition precedes b c : Prop := b.1 + b.2 <= c.1 /\ b.1 < c.1.
Definition by_addr : list blk -> Prop := StronglySorted precedes.

Definition join_prev fl b : list blk * blk :=
  match last fl with
  | Some c => if c.1 + c.2 =? b.1 then (removelast fl, (c.1, c.2 + b.2)) else (fl, b)
  | None => (fl, b)
  end.
Definition join_next b fl : blk * list blk :=
  match fl with
  | c :: fl' => if b.1 + b.2 =? c.1 then ((b.1, b.2 + c.2), fl') else (b, fl)
  | [] => (b, [])
  end.
Definition insert_merge b fl : list blk :=
  let '(p1, p2) := span (fun c => c.1 <? b.1) fl in
  let '(q1, b) := join_prev p1 b in
  let '(b, q2) := join_next b p2 in
  q1 ++ b :: q2.

(** No two blocks touch, except that a range ends with a block of size 0. *)
Definition joined fl : Prop := forall b c, b ∈ fl -> c ∈ fl -> 0 < c.2 -> b.1 + b.2 <> c.1.

(** How the pieces of the list become the new one. *)
Lemma insert_merge_cases (P : list blk -> Prop) b fl : by_addr fl ->
  (forall p1 p2, fl = p1 ++ p2 -> Forall (fun c => c.1 < b.1) p1 -> Forall (fun c => b.1 <= c.1) p2 ->
     let '(q1, b1) := join_prev p1 b in let '(b2, q2) := join_next b1 p2 in P (q1 ++ b2 :: q2)) ->
  P (insert_merge b fl).
Proof.
  intros Hs HP. unfold insert_merge. destruct (span _ fl) as [p1 p2] eqn:E. apply span_app in E as (-> & H1 & H2).
  specialize (HP p1 p2 eq_refl). destruct (join_prev p1 b) as [q1 b1], (join_next b1 p2) as [b2 q2]. apply HP.
  - eapply Forall_impl; [exact H1|]. intros c Hc. by apply Z.ltb_lt.
  - apply ssorted_app in Hs as (_ & Hs & _). destruct p2 as [|c p2]; [done|]. apply Z.ltb_ge in H2. apply StronglySorted_inv in Hs as [_ Hc].
    constructor; [done|]. eapply Forall_impl; [exact Hc|]. intros d [_ ?]. lia.
Qed.

Lemma join_prev_cases (P : list blk -> blk -> Prop) p1 b :
  (forall q c, p1 = q ++ [c] -> c.1 + c.2 = b.1 -> P q (c.1, c.2 + b.2)) ->
  ((forall q c, p1 = q ++ [c] -> c.1 + c.2 <> b.1) -> P p1 b) -> let '(q1, b1) := join_prev p1 b in P q1 b1.
Proof.
  intros H1 H2. unfold join_prev. destruct (last p1) as [c|] eqn:El.
  - apply last_Some in El as [q ->]. rewrite removelast_last. destruct (Z.eqb_spec (c.1 + c.2) b.1); [by apply (H1 q c)|].
    apply H2. intros q' c' E. apply app_inj_tail in E as [-> ->]. done.
  - apply last_None in El as ->. apply H2. intros [|x q] c E; discriminate.
Qed.
Lemma join_next_cases (P : blk -> list blk -> Prop) b p2 :
  (forall c q, p2 = c :: q -> b.1 + b.2 = c.1 -> P (b.1, b.2 + c.2) q) ->
  ((forall c q, p2 = c :: q -> b.1 + b.2 <> c.1) -> P b p2) -> let '(b2, q2) := join_next b p2 in P b2 q2.
Proof.
  intros H1 H2. unfold join_next. destruct p2 as [|c q]; [by apply H2|].
  destruct (Z.eqb_spec (b.1 + b.2) c.1); [by apply (H1 c q)|]. apply H2. intros c' q' [= <- <-]. done.
Qed.

(** A property of blocks that joining respects. *)
Lemma insert_merge_forall (P : blk -> Prop) b fl : (forall c d, c.1 + c.2 = d.1 -> P c -> P d -> P (c.1, c.2 + d.2)) ->
  P b -> Forall P fl -> Forall P (insert_merge b fl).
Proof.
  intros Hj Hb Hf. unfold insert_merge. destruct (span _ fl) as [p1 p2] eqn:E. apply span_app in E as (-> & _ & _).
  apply Forall_app in Hf as [H1 H2]. assert (Hp : let '(q1, b1) := join_prev p1 b in Forall P q1 /\ P b1).
  { apply (join_prev_cases (fun q b1 => Forall P q /\ P b1)); [|done]. intros q c -> Ec. apply Forall_app in H1 as [? [? _]%Forall_cons]. auto. }
  destruct (join_prev p1 b) as [q1 b1]. destruct Hp as [Hq Hb1].
  assert (Hn : let '(b2, q2) := join_next b1 p2 in P b2 /\ Forall P q2).
  { apply (join_next_cases (fun b2 q => P b2 /\ Forall P q)); [|done]. intros c q -> Ec. apply Forall_cons in H2 as [? ?]. auto. }
  destruct (join_next b1 p2) as [b2 q2]. apply Forall_app. split; [done|]. by apply Forall_cons.
Qed.

Lemma insert_merge_total b fl : total (insert_merge b fl) = b.2 + total fl.
Proof.
  unfold insert_merge. destruct (span _ fl) as [p1 p2] eqn:E. apply span_app in E as (-> & _ & _).
  assert (Hp : let '(q1, b1) := join_prev p1 b in total q1 + b1.2 = total p1 + b.2).
  { apply (join_prev_cases (fun q b1 => total q + b1.2 = total p1 + b.2)); [|done]. intros q c -> _. rewrite total_app. simpl. lia. }
  destruct (join_prev p1 b) as [q1 b1]. assert (Hn : let '(b2, q2) := join_next b1 p2 in b2.2 + total q2 = b1.2 + total p2).
  { apply (join_next_cases (fun b2 q => b2.2 + total q = b1.2 + total p2)); [|done]. intros c q -> _. simpl. lia. }
  destruct (join_next b1 p2) as [b2 q2]. rewrite !total_app. simpl. lia.
Qed.

Lemma sorted_joins xs c d ys : by_addr (xs ++ c :: d :: ys) -> c.1 + c.2 = d.1 -> 0 <= d.2 -> by_addr (xs ++ (c.1, c.2 + d.2) :: ys).
Proof.
  intros (Hx & Hs & Hxs)%ssorted_app E Hd. apply StronglySorted_inv in Hs as [[Hs Hdy]%StronglySorted_inv [_ Hcy]%Forall_cons].
  apply ssorted_app. split; [done|]. split.
  - constructor; [done|]. apply Forall_forall. intros y Hy. destruct (proj1 (Forall_forall _ _) Hdy y Hy), (proj1 (Forall_forall _ _) Hcy y Hy).
    split; simpl; lia.
  - eapply Forall_impl; [exact Hxs|]. intros x [Hxc [_ Hxy]%Forall_cons]%Forall_cons. by constructor.
Qed.

Lemma insert_merge_sorted b fl : by_addr fl -> 0 < b.2 -> Forall (fun c => 0 <= c.2 /\ (precedes c b \/ precedes b c)) fl ->
  by_addr (insert_merge b fl).
Proof.
  intros Hs Hb Hc. apply insert_merge_cases; [done|]. intros p1 p2 -> H1 H2. apply Forall_app in Hc as [C1 C2].
  assert (Hins : by_addr (p1 ++ b :: p2)).
  { apply ssorted_app in Hs as (S1 & S2 & S12). apply ssorted_app. split; [done|]. split.
    - constructor; [done|]. apply Forall_forall. intros c Hin. pose proof (proj1 (Forall_forall _ _) H2 c Hin).
      destruct (proj1 (Forall_forall _ _) C2 c Hin) as [_ [[? ?]|?]]; [simpl in *; lia|done].
    - apply Forall_forall. intros c Hin. pose proof (proj1 (Forall_forall _ _) H1 c Hin). constructor; [|by apply (proj1 (Forall_forall _ _) S12)].
      destruct (proj1 (Forall_forall _ _) C1 c Hin) as [_ [?|[? ?]]]; [done|simpl in *; lia]. }
  assert (Hp : let '(q1, b1) := join_prev p1 b in by_addr (q1 ++ b1 :: p2)).
  { apply (join_prev_cases (fun q b1 => by_addr (q ++ b1 :: p2))); [|done]. intros q c -> E. rewrite <- app_assoc in Hins.
    by eapply sorted_joins; [exact Hins|done|lia]. }
  destruct (join_prev p1 b) as [q1 b1]. apply (join_next_cases (fun b2 q => by_addr (q1 ++ b2 :: q))); [|done].
  intros c q -> E. apply Forall_cons in C2 as [[? _] _]. by eapply sorted_joins.
Qed.

Lemma sorted_mid p1 d p2 : by_addr (p1 ++ d :: p2) -> (forall x, x ∈ p1 -> precedes x d) /\ (forall x, x ∈ p2 -> precedes d x).
Proof.
  intros (_ & [_ H2]%StronglySorted_inv & H12)%ssorted_app. split; intros x Hx.
  - by apply (proj1 (Forall_forall _ _) H12) in Hx as [? _]%Forall_cons.
  - by apply (proj1 (Forall_forall _ _) H2).
Qed.

Lemma insert_merge_joined b fl : by_addr fl -> joined fl -> 0 < b.2 -> Forall (fun c => 0 <= c.2 /\ (precedes c b \/ precedes b c)) fl ->
  (forall c, c ∈ fl -> c.1 + c.2 = b.1 -> 0 < c.2) -> joined (insert_merge b fl).
Proof.
  intros Hs Hj Hb Hc Hpos. rewrite Forall_forall in Hc. apply insert_merge_cases; [done|]. intros p1 p2 -> H1 H2. rewrite Forall_forall in H1, H2.
  (* the block with what precedes it *)
  assert (Hp : let '(q1, b1) := join_prev p1 b in (forall x, x ∈ q1 -> x ∈ p1) /\ b1.1 + b1.2 = b.1 + b.2 /\
    (forall x, x ∈ q1 ++ p2 -> x.1 + x.2 <> b1.1)).
  { apply (join_prev_cases (fun q b1 => (forall x, x ∈ q -> x ∈ p1) /\ b1.1 + b1.2 = b.1 + b.2 /\ (forall x, x ∈ q ++ p2 -> x.1 + x.2 <> b1.1))).
    - intros q c -> E. split_and!; [intros x; mem|simpl; lia|]. intros x Hx. apply elem_of_app in Hx. apply (Hj x c); [mem..|]. apply Hpos; [mem|done].
    - intros Hno. split_and!; [done..|]. intros x [Hx|Hx]%elem_of_app E.
      + apply list_elem_of_split in Hx as (u & v & ->). destruct v as [|y v _] using rev_ind; [by apply (Hno u x)|].
        assert (Hy : y ∈ (u ++ x :: v ++ [y]) ++ p2) by mem. destruct (Hc y Hy) as [Hy0 [Hyb|Hyb]].
        * destruct Hyb. rewrite <- app_assoc in Hs. simpl in Hs. destruct (sorted_mid _ _ _ Hs) as [_ Hxy].
          destruct (Hxy y ltac:(mem)). lia.
        * destruct Hyb. pose proof (H1 y ltac:(mem)). lia.
      + pose proof (H2 x Hx). destruct (Hc x ltac:(mem)) as [? [[??]|[??]]]; lia. }
  destruct (join_prev p1 b) as [q1 b1]. destruct Hp as (Hq & Eb & Hno1).
  assert (Hfl : forall x, x ∈ q1 ++ p2 -> x ∈ p1 ++ p2) by (intros x; rewrite !elem_of_app; naive_solver).
  assert (Hb1 : forall x, x ∈ q1 ++ p2 -> 0 < x.2 -> b1.1 + b1.2 = x.1 -> exists q, p2 = x :: q).
  { intros x Hx Hx0 E. assert (Hxp : x ∈ p2).
    { apply elem_of_app in Hx as [Hx%Hq|]; [|done]. pose proof (H1 x Hx). lia. }
    apply list_elem_of_split in Hxp as ([|y u] & v & ->); [by exists v|exfalso].
    destruct (Hc y ltac:(mem)) as [? [[??]|[??]]]; pose proof (H2 y ltac:(mem)); [lia|].
    apply ssorted_app in Hs as (_ & Hs & _). apply (sorted_mid []) in Hs as [_ Hyx]. destruct (Hyx x ltac:(mem)). lia. }
  apply (join_next_cases (fun b2 q => joined (q1 ++ b2 :: q))).
  - intros d q -> E. intros x y Hx Hy Hy0. rewrite elem_of_app, elem_of_cons in Hx, Hy.
    assert (Hxx : x = (b1.1, b1.2 + d.2) \/ x ∈ q1 ++ d :: q) by (rewrite elem_of_app, elem_of_cons; naive_solver).
    assert (Hyy : y = (b1.1, b1.2 + d.2) \/ y ∈ q1 ++ d :: q) by (rewrite elem_of_app, elem_of_cons; naive_solver).
    destruct Hyy as [->|Hyy]; [destruct Hxx as [->|Hxx]; [simpl in *; lia|by apply Hno1]|].
    destruct Hxx as [->|Hxx]; [|apply Hj; auto]. simpl. replace (b1.1 + (b1.2 + d.2)) with (d.1 + d.2) by lia.
    apply Hj; [mem|auto|done].
  - intros Hno x y Hx Hy Hy0. rewrite elem_of_app, elem_of_cons in Hx, Hy.
    assert (Hxx : x = b1 \/ x ∈ q1 ++ p2) by (rewrite elem_of_app; naive_solver).
    assert (Hyy : y = b1 \/ y ∈ q1 ++ p2) by (rewrite elem_of_app; naive_solver).
    destruct Hyy as [->|Hyy]; [destruct Hxx as [->|Hxx]; [lia|by apply Hno1]|].
    destruct Hxx as [->|Hxx]; [|apply Hj; auto]. intros E. destruct (Hb1 y Hyy Hy0 E) as [q ->]. by apply (Hno y q).
Qed.

(** ** Regions *)

(** The usable ranges of the regions in order, each with room for the header
    that follows it, from the address [lo] on. *)
Fixpoint ranges_from (lo : Z) rs : Prop :=
  match rs with
  | [] => True
  | r :: rs' => lo <= r.1 /\ (16 | r.1) /\ (16 | r.2) /\ r.1 < r.2 /\ r.2 - r.1 < alloc_bit /\ ranges_from (r.2 + 16) rs'
  end.

Lemma ranges_from_elem lo rs r : ranges_from lo rs -> r ∈ rs ->
  lo <= r.1 /\ (16 | r.1) /\ (16 | r.2) /\ r.1 < r.2 /\ r.2 - r.1 < alloc_bit.
Proof.
  revert lo. induction rs as [|r0 rs IH]; intros lo; simpl; [by intros _ ?%elem_of_nil|]. intros (? & ? & ? & ? & ? & Hr) [->|Hin]%elem_of_cons; [done|].
  destruct (IH _ Hr Hin) as (? & ?). split; [lia|done].
Qed.

Lemma ranges_apart lo rs r r' : ranges_from lo rs -> r ∈ rs -> r' ∈ rs -> r = r' \/ r.2 + 16 <= r'.1 \/ r'.2 + 16 <= r.1.
Proof.
  revert lo. induction rs as [|r0 rs IH]; intros lo; simpl; [by intros _ ?%elem_of_nil|].
  intros (_ & _ & _ & _ & _ & Hr) [->|H1]%elem_of_cons [->|H2]%elem_of_cons; [by left| | |by eapply IH].
  - right. left. by apply (ranges_from_elem _ _ _ Hr).
  - right. right. by apply (ranges_from_elem _ _ _ Hr).
Qed.

(** A block in a range, and the block of size 0 that ends a range which is not
    the last. *)
Definition usable rs b : Prop :=
  exists r, r ∈ rs /\ r.1 <= b.1 /\ 0 < b.2 /\ b.1 + b.2 <= r.2 /\ (16 | b.1) /\ (16 | b.2).
Definition located rs (e : Z) b : Prop := usable rs b \/ exists r, r ∈ rs /\ b = (r.2, 0) /\ r.2 < e.

Section Rep.
Variable xStart : Z.

Record regions_ok rs : Prop := {
  ro_from : ranges_from 1 rs;
  ro_top : Forall (fun r => r.2 + 16 < u32_modulus) rs;
  ro_out : Forall (fun r => ~ (r.1 <= xStart < r.2 + 16)) rs;
  ro_start : 0 < xStart < u32_modulus
}.

(** The headers of the free list, and where the ranges end. *)
Record chain s rs fl : Prop := {
  ch_regions : regions_ok rs;
  ch_last : (exists r, r ∈ rs /\ r.2 = pxEnd s) /\ Forall (fun r => r.2 <= pxEnd s) rs;
  ch_seg : seg (blocks s) xStart ((xStart, 0) :: fl) (pxEnd s);
  ch_end : blocks s !! pxEnd s = Some (mkBlock NULL 0);
  ch_sorted : by_addr fl;
  ch_in : Forall (located rs (pxEnd s)) fl;
  ch_joined : joined fl
}.

(** The whole heap: the blocks in use are marked and apart from each other and
    from the free ones. *)
Record rep_heap s rs used fl : Prop := {
  rh_chain : chain s rs fl;
  rh_used : Forall (fun b => blocks s !! b.1 = Some (mkBlock NULL (Z.lor b.2 alloc_bit))) used;
  rh_in : Forall (usable rs) used;
  rh_apart : all_apart used;
  rh_free : Forall (fun b => Forall (apart b) fl) used;
  rh_bit : xBlockAllocatedBit s = alloc_bit;
  rh_bytes : xFreeBytesRemaining s = total fl;
  rh_min : 0 <= xMinimumEverFreeBytesRemaining s <= xFreeBytesRemaining s
}.

(** ** Where blocks can be *)

Lemma usable_facts rs e b : regions_ok rs -> Forall (fun r => r.2 <= e) rs -> usable rs b ->
  0 < b.1 < e /\ b.1 <> xStart /\ 0 < b.2 < alloc_bit /\ b.1 + b.2 <= e /\ b.1 + b.2 + 16 < u32_modulus.
Proof.
  intros [Hf Ht Ho _] He (r & Hr & H1 & H2 & H3 & _). destruct (ranges_from_elem _ _ _ Hf Hr) as (? & _ & _ & ? & ?).
  rewrite Forall_forall in He, Ht, Ho. specialize (He r Hr). specialize (Ht r Hr). specialize (Ho r Hr). simpl in *. lia.
Qed.

Lemma located_facts rs e b : regions_ok rs -> Forall (fun r => r.2 <= e) rs -> located rs e b ->
  0 < b.1 < e /\ b.1 <> xStart /\ 0 <= b.2 < alloc_bit /\ b.1 + b.2 <= e /\ b.1 + b.2 + 16 < u32_modulus.
Proof.
  intros Hok He [Hu|(r & Hr & -> & Hlt)]; [pose proof (usable_facts _ _ _ Hok He Hu); lia|]. destruct Hok as [Hf Ht Ho _].
  destruct (ranges_from_elem _ _ _ Hf Hr) as (? & _ & _ & ? & ?). rewrite Forall_forall in Ht, Ho. specialize (Ht r Hr). specialize (Ho r Hr).
  simpl in *. unfold alloc_bit in *. lia.
Qed.

(** A block in a range does not begin where another range ends. *)
Lemma usable_not_end rs b r : regions_ok rs -> usable rs b -> r ∈ rs -> b.1 <> r.2.
Proof.
  intros [Hf _ _ _] (r' & Hr' & H1 & H2 & H3 & _) Hr E. destruct (ranges_apart _ _ r r' Hf Hr Hr') as [->|[?|?]]; [lia|lia|].
  destruct (ranges_from_elem _ _ _ Hf Hr) as (_ & _ & _ & ? & _). lia.
Qed.

(** Blocks that touch are in one range. *)
Lemma located_join rs e c d : regions_ok rs -> Forall (fun r => r.2 <= e) rs -> c.1 + c.2 = d.1 -> located rs e c -> located rs e d ->
  located rs e (c.1, c.2 + d.2).
Proof.
  intros Hok He E Hc Hd. destruct Hc as [Hc|(r & Hr & -> & Hlt)].
  - left. destruct Hd as [Hd|(r' & Hr' & -> & _)]; [|simpl; by rewrite Z.add_0_r; destruct c].
    destruct Hc as (r & Hr & C1 & C2 & C3 & C4 & C5), Hd as (r' & Hr' & D1 & D2 & D3 & D4 & D5). destruct Hok as [Hf _ _ _].
    assert (r' = r) as -> by (destruct (ranges_apart _ _ r r' Hf Hr Hr') as [->|[?|?]]; [done|lia|lia]).
    exists r. simpl. split_and!; [done|done|lia|lia|done|by apply Z.divide_add_r].
  - simpl in *. rewrite Z.add_0_r in E. destruct Hd as [Hd|(r' & Hr' & -> & _)]; [by destruct (usable_not_end _ _ _ Hok Hd Hr)|].
    right. by exists r.
Qed.

Lemma usable_join rs e c d : regions_ok rs -> Forall (fun r => r.2 <= e) rs -> c.1 + c.2 = d.1 -> located rs e c -> usable rs d -> usable rs c.
Proof.
  intros Hok He E [Hc|(r & Hr & -> & _)] Hd; [done|]. simpl in E. rewrite Z.add_0_r in E. by destruct (usable_not_end _ _ _ Hok Hd Hr).
Qed.

Lemma apart_order rs e b c : regions_ok rs -> Forall (fun r => r.2 <= e) rs -> usable rs b -> located rs e c -> apart b c ->
  precedes c b \/ precedes b c.
Proof.
  intros Hok He Hb Hc Ha. pose proof (usable_facts _ _ _ Hok He Hb). unfold precedes. destruct Hc as [Hc|(r & Hr & -> & _)].
  - pose proof (usable_facts _ _ _ Hok He Hc). destruct Ha; lia.
  - pose proof (usable_not_end _ _ _ Hok Hb Hr). destruct Ha; simpl in *; lia.
Qed.

Lemma chain_order s rs fl b : chain s rs fl -> usable rs b -> Forall (apart b) fl ->
  Forall (fun c => 0 <= c.2 /\ (precedes c b \/ precedes b c)) fl.
Proof.
  intros Hch Hb Ha. destruct Hch as [Hok [_ He] _ _ _ Hin _]. rewrite Forall_forall in Ha, Hin |- *. intros c Hc.
  split; [|by apply (apart_order rs (pxEnd s)); auto]. pose proof (located_facts _ _ _ Hok He (Hin c Hc)). lia.
Qed.

Lemma sorted_addrs fl : by_addr fl -> NoDup fl.*1.
Proof.
  induction fl as [|b fl IH]; [constructor|]. intros [Hs Hb]%StronglySorted_inv. simpl. constructor; [|auto].
  intros (c & E & Hc)%list_elem_of_fmap. destruct (proj1 (Forall_forall _ _) Hb c Hc). lia.
Qed.

Lemma region_chain_nodup s rs fl : chain s rs fl -> NoDup ((xStart, 0) :: fl).*1.
Proof.
  intros [Hok [_ He] _ _ Hs Hin _]. simpl. constructor; [|by apply sorted_addrs]. intros (c & E & Hc)%list_elem_of_fmap.
  pose proof (located_facts _ _ _ Hok He (proj1 (Forall_forall _ _) Hin c Hc)). lia.
Qed.

(** Joining keeps a block apart from the others. *)
Lemma apart_join (x c d : blk) : 0 < x.2 -> c.1 + c.2 = d.1 -> apart x c -> apart x d -> apart x (c.1, c.2 + d.2).
Proof. unfold apart. simpl. lia. Qed.

(** ** prvInsertBlockIntoFreeList *)

Lemma region_insert_loop_wp a bs : forall (Q : Z -> heap4 -> Prop) fuel it z n s e, blocks s !! it = Some (mkBlock n z) ->
  seg (blocks s) n bs e -> a <= e -> (length bs <= fuel)%nat ->
  Q (default it (last (span (fun c => c.1 <? a) bs).1.*1)) s -> wp (insert_block_loop fuel it a) Q s.
Proof.
  induction bs as [|b bs IH]; intros Q fuel it z n s e Hit Hs He Hf HQ; destruct fuel as [|fuel]; simpl in Hf; try lia; cbn [insert_block_loop].
  1,2: simpl in Hs; subst n; hstep; eapply wp_block_next; [exact Hit|]; cbn [pxNextFreeBlock];
    rewrite (proj2 (Z.ltb_ge _ _)) by done; by hstep.
  destruct Hs as (-> & n' & Hb & Hs). hstep. eapply wp_block_next; [exact Hit|]. cbn [pxNextFreeBlock]. simpl in HQ.
  destruct (b.1 <? a) eqn:E; [|by hstep].
  eapply (IH _ fuel b.1 _ n' s e Hb Hs He); [lia|]. destruct (span _ bs) as [p1 p2]. cbn [fst] in *.
  by rewrite fmap_cons, last_cons_default in HQ.
Qed.

(** What merge_with_next leaves when the block [b] comes before [p2] and after
    the header [it], which is its own if it has been joined with what precedes. *)
Lemma merge_next_wp s it b p2 n nb z e : blocks s !! b.1 = Some (mkBlock nb b.2) -> blocks s !! it = Some (mkBlock n z) ->
  seg (blocks s) n p2 e -> e = pxEnd s -> Forall (fun d => d.1 <> e /\ d.1 <> b.1 /\ d.1 <> it /\ 0 <= d.2 /\ d.1 + d.2 < u32_modulus) p2 ->
  NoDup p2.*1 -> 0 <= b.1 -> 0 <= b.2 -> b.1 + b.2 < u32_modulus ->
  wp (merge_with_next it b.1) (fun _ s' => s' = set_blocks (blocks s') s /\
    let '(b2, q2) := join_next b p2 in
    (exists n', blocks s' !! b2.1 = Some (mkBlock n' b2.2) /\ seg (blocks s') n' q2 e) /\
    (it <> b.1 -> blocks s' !! it = Some (mkBlock b2.1 z)) /\
    forall a, a <> it -> a <> b.1 -> blocks s' !! a = blocks s !! a) s.
Proof.
  intros Hb Hit Hs -> Hp2 Hnd Hb0 Hb2 Hbu. rewrite Forall_forall in Hp2. unfold merge_with_next.
  hstep. eapply wp_block_size; [exact Hb|]. hstep. eapply wp_block_next; [exact Hit|]. cbn [xBlockSize pxNextFreeBlock].
  rewrite u32_small by u32_lia. hstep.
  (* the link from [it] *)
  assert (Hlink : forall m1 q2 n' b2, b2.1 = b.1 -> m1 !! b.1 = Some (mkBlock n' b2.2) -> (exists n1, m1 !! it = Some (mkBlock n1 (if decide (it = b.1) then b2.2 else z))) ->
    seg m1 n' q2 (pxEnd s) -> (forall d, d ∈ q2 -> d ∈ p2) -> (forall a, a <> b.1 -> m1 !! a = blocks s !! a) ->
    wp (if negb (it =? b.1) then set_block_next it b.1 else mret tt) (fun _ s' => s' = set_blocks (blocks s') s /\
      (exists n', blocks s' !! b2.1 = Some (mkBlock n' b2.2) /\ seg (blocks s') n' q2 (pxEnd s)) /\
      (it <> b.1 -> blocks s' !! it = Some (mkBlock b2.1 z)) /\
      forall a, a <> it -> a <> b.1 -> blocks s' !! a = blocks s !! a) (set_blocks m1 s)).
  { intros m1 q2 n' b2 E2 M1 [n1 M2] Hseg Hsub Hot. rewrite E2. destruct (Z.eqb_spec it b.1) as [->|Hne].
    - apply wp_ret. simpl. split; [done|]. split; [by exists n'|]. split; [done|]. intros a _ Ha. by apply Hot.
    - rewrite decide_False in M2 by done. eapply wp_set_block_next; [exact M2|]. simpl. split; [done|]. split; [|split].
      + exists n'. rewrite lookup_insert_ne by done. split; [done|]. apply seg_other; [|done].
        intros (d & -> & Hd)%list_elem_of_fmap. destruct (Hp2 d (Hsub d Hd)). tauto.
      + intros _. by rewrite lookup_insert_eq.
      + intros a Ha Hab. rewrite lookup_insert_ne by done. by apply Hot. }
  assert (Hagree : forall x (q : list blk), (forall d, d ∈ q -> d ∈ p2) -> forall n', seg (blocks s) n' q (pxEnd s) ->
    seg (<[b.1 := x]> (blocks s)) n' q (pxEnd s)).
  { intros x q Hq n' Hsg. apply seg_other; [|done]. intros (d & E & Hd)%list_elem_of_fmap. destruct (Hp2 d (Hq d Hd)) as (_ & ? & _). done. }
  assert (Hself : forall x y, <[b.1 := x]> (<[b.1 := y]> (blocks s)) = <[b.1 := x]> (blocks s)) by (intros; apply insert_insert_eq).
  destruct p2 as [|d p2]; simpl in Hs.
  - subst n. cbn [join_next]. destruct (b.1 + b.2 =? pxEnd s).
    + hstep. apply wp_gets. rewrite Z.eqb_refl. cbn [negb]. eapply wp_set_block_next; [exact Hb|].
      eapply (Hlink _ [] _ b); [done|by rewrite lookup_insert_eq| |done|done|intros a Ha; by rewrite lookup_insert_ne].
      destruct (decide (it = b.1)) as [->|]; [rewrite lookup_insert_eq; eauto|rewrite lookup_insert_ne by done; eauto].
    + eapply wp_set_block_next; [exact Hb|].
      eapply (Hlink _ [] _ b); [done|by rewrite lookup_insert_eq| |done|done|intros a Ha; by rewrite lookup_insert_ne].
      destruct (decide (it = b.1)) as [->|]; [rewrite lookup_insert_eq; eauto|rewrite lookup_insert_ne by done; eauto].
  - destruct Hs as (-> & nd & Hd & Hs). destruct (Hp2 d ltac:(mem)) as (D1 & D2 & D3 & D4 & D5). cbn [join_next].
    destruct (Z.eqb_spec (b.1 + b.2) d.1) as [E|E].
    + hstep. apply wp_gets. rewrite (proj2 (Z.eqb_neq _ _)) by done. cbn [negb]. hstep. eapply wp_block_size; [exact Hd|]. cbn [xBlockSize].
      hstep. eapply wp_set_block_size; [exact Hb|]. cbn [pxNextFreeBlock]. hstep. eapply wp_block_next; [simpl; by rewrite lookup_insert_ne|].
      cbn [pxNextFreeBlock]. eapply wp_set_block_next; [simpl; by rewrite lookup_insert_eq|]. cbn [xBlockSize]. rewrite blocks_set_blocks, set_blocks_twice, Hself.
      rewrite u32_small by u32_lia.
      eapply (Hlink _ p2 nd (b.1, b.2 + d.2)); [done|by rewrite lookup_insert_eq| |apply Hagree; [intros; mem|done]|intros; mem|intros a Ha; by rewrite lookup_insert_ne].
      destruct (decide (it = b.1)) as [->|]; [rewrite lookup_insert_eq; eauto|rewrite lookup_insert_ne by done; eauto].
    + eapply wp_set_block_next; [exact Hb|]. cbn [xBlockSize].
      eapply (Hlink _ (d :: p2) d.1 b); [done|by rewrite lookup_insert_eq| | |done|intros a Ha; by rewrite lookup_insert_ne].
      * destruct (decide (it = b.1)) as [->|]; [rewrite lookup_insert_eq; eauto|rewrite lookup_insert_ne by done; eauto].
      * apply (Hagree _ (d :: p2)); [done|]. simpl. split; [done|]. by exists nd.
Qed.

(** What is known of a block that is to come to the list. *)
Record incoming s rs fl b : Prop := {
  ic_chain : chain s rs fl;
  ic_usable : usable rs b;
  ic_apart : Forall (apart b) fl;
  ic_header : exists n, blocks s !! b.1 = Some (mkBlock n b.2)
}.

Lemma incoming_new s rs fl b : incoming s rs fl b -> b.1 ∉ ((xStart, 0) :: fl).*1 /\ b.1 < pxEnd s.
Proof.
  intros [Hch Hb Ha _]. pose proof Hch as [Hok [_ He] _ _ _ _ _]. pose proof (usable_facts _ _ _ Hok He Hb). split; [|lia].
  simpl. rewrite not_elem_of_cons. split; [tauto|]. intros (c & E & Hc)%list_elem_of_fmap.
  destruct (proj1 (Forall_forall _ _) (chain_order _ _ _ _ Hch Hb Ha) c Hc) as [_ [[??]|[??]]]; lia.
Qed.

(** The list as it will be. *)
Lemma incoming_list s rs fl b : incoming s rs fl b ->
  by_addr (insert_merge b fl) /\ Forall (located rs (pxEnd s)) (insert_merge b fl) /\ joined (insert_merge b fl).
Proof.
  intros [Hch Hb Ha _]. pose proof (chain_order _ _ _ _ Hch Hb Ha) as Ho. destruct Hch as [Hok [_ He] _ _ Hs Hin Hj].
  pose proof (usable_facts _ _ _ Hok He Hb) as (_ & _ & [Hb0 _] & _). split_and!.
  - by apply insert_merge_sorted.
  - apply insert_merge_forall; [|by left|done]. intros c d E Hc Hd. by apply located_join.
  - apply insert_merge_joined; [done..|]. intros c Hc E. assert (Hu : usable rs c).
    { apply (usable_join rs (pxEnd s) c b Hok He E); [by apply (proj1 (Forall_forall _ _) Hin)|done]. }
    pose proof (usable_facts _ _ _ Hok He Hu). lia.
Qed.

Lemma seg_parts s rs p1 p2 xs c : chain s rs (p1 ++ p2) -> (xStart, 0) :: p1 = xs ++ [c] ->
  seg (blocks s) xStart xs c.1 /\ (exists n, blocks s !! c.1 = Some (mkBlock n c.2) /\ seg (blocks s) n p2 (pxEnd s)) /\
  NoDup (xs ++ c :: p2).*1.
Proof.
  intros Hch Hxs. pose proof (region_chain_nodup _ _ _ Hch) as Hnd. pose proof (ch_seg _ _ _ Hch) as Hs.
  rewrite app_comm_cons, Hxs, <- app_assoc in Hs, Hnd. apply seg_app in Hs as (r & Hx & -> & n & Hc & Hp). split_and!; [done|eauto|done].
Qed.

Lemma joined_seg m m' xs c (b : blk) p2 b2 q2 n n' e : NoDup (xs ++ c :: p2).*1 -> b.1 ∉ xs.*1 -> seg m xStart xs c.1 ->
  (forall a, a <> c.1 -> a <> b.1 -> m' !! a = m !! a) -> m' !! b2.1 = Some (mkBlock n' b2.2) -> seg m' n' q2 e ->
  (b2.1 = c.1 -> seg m' xStart (xs ++ b2 :: q2) e) /\
  (m' !! c.1 = Some (mkBlock b2.1 n) -> n = c.2 -> seg m' xStart (xs ++ c :: b2 :: q2) e).
Proof.
  rewrite fmap_app. intros (_ & Hd & _)%NoDup_app Hb Hx Hot Hb2 Hq. assert (Hx' : seg m' xStart xs c.1).
  { eapply seg_agree; [exact Hx|]. intros a Hin. apply Hot; [|by intros ->]. intros ->. apply (Hd _ Hin). simpl. by left. }
  split.
  - intros E. apply seg_app. exists c.1. split; [done|]. simpl. rewrite <- E. split; [done|]. by exists n'.
  - intros Hc ->. apply seg_app. exists c.1. split; [done|]. simpl. split; [done|]. exists b2.1. split; [done|]. split; [done|]. by exists n'.
Qed.

(** The headers after the search has stopped at [c]. *)
Lemma merge_wp s rs p1 p2 b xs c : incoming s rs (p1 ++ p2) b -> (xStart, 0) :: p1 = xs ++ [c] -> c = default (xStart, 0) (last p1) ->
  wp (b' ← merge_with_previous c.1 b.1; merge_with_next c.1 b') (fun _ s' => s' = set_blocks (blocks s') s /\
    (let '(q1, b1) := join_prev p1 b in let '(b2, q2) := join_next b1 p2 in
     seg (blocks s') xStart ((xStart, 0) :: q1 ++ b2 :: q2) (pxEnd s)) /\
    forall a, a <> b.1 -> a <> c.1 -> blocks s' !! a = blocks s !! a) s.
Proof.
  intros Hic Hxs Hc. pose proof (incoming_new _ _ _ _ Hic) as [Hbn Hbe]. destruct Hic as [Hch Hb Ha [n0 Hblk]].
  destruct (seg_parts _ _ _ _ _ _ Hch Hxs) as (Hx & (n & Hcb & Hp) & Hnd). pose proof Hch as [Hok [_ He] _ _ _ Hin _].
  pose proof (usable_facts _ _ _ Hok He Hb) as (B1 & B2 & B3 & B4 & B5). rewrite Forall_forall in Hin.
  assert (Hcin : c = (xStart, 0) \/ c ∈ p1 ++ p2).
  { assert (Hi : c ∈ (xStart, 0) :: p1) by (rewrite Hxs; mem). apply elem_of_cons in Hi as [?|?]; [by left|right; mem]. }
  assert (Hcn : c.1 <> b.1).
  { intros E. apply Hbn. rewrite <- E. apply list_elem_of_fmap. exists c. split; [done|]. rewrite elem_of_cons. tauto. }
  assert (Hbx : b.1 ∉ xs.*1).
  { intros Hi. apply Hbn. rewrite app_comm_cons, Hxs, <- app_assoc, fmap_app. by apply elem_of_app; left. }
  assert (Hp2 : Forall (fun d => d.1 <> pxEnd s /\ d.1 <> b.1 /\ d.1 <> c.1 /\ 0 <= d.2 /\ d.1 + d.2 < u32_modulus) p2).
  { apply Forall_forall. intros d Hd. pose proof (located_facts _ _ _ Hok He (Hin d ltac:(mem))). split_and!; try lia.
    - intros E. apply Hbn. rewrite <- E. apply list_elem_of_fmap. exists d. split; [done|]. mem.
    - intros E. rewrite fmap_app in Hnd. apply NoDup_app in Hnd as (_ & _ & Hnd). simpl in Hnd. apply NoDup_cons in Hnd as [Hn _].
      apply Hn. rewrite <- E. by apply list_elem_of_fmap_2. }
  assert (Hndp : NoDup p2.*1).
  { rewrite fmap_app in Hnd. apply NoDup_app in Hnd as (_ & _ & Hnd). simpl in Hnd. by apply NoDup_cons in Hnd as [_ ?]. }
  assert (Hcu : c.1 +u c.2 = c.1 + c.2 /\ 0 <= c.1 /\ 0 <= c.2).
  { destruct Hcin as [->|Hci]; simpl.
    - destruct Hok as [_ _ _ [??]]. rewrite Z.add_0_r. split; [by apply u32_small; u32_lia|lia].
    - pose proof (located_facts _ _ _ Hok He (Hin c Hci)). split; [apply u32_small; u32_lia|lia]. }
  destruct Hcu as (Hcu & Hc0 & Hc20). unfold merge_with_previous. hstep. hstep. eapply wp_block_size; [exact Hcb|]. cbn [xBlockSize]. rewrite Hcu.
  destruct (Z.eqb_spec (c.1 + c.2) b.1) as [E|E].
  - assert (Hl : last p1 = Some c).
    { destruct (last p1) as [c'|] eqn:El; simpl in Hc; [by subst c'|]. subst c. simpl in E. lia. }
    unfold join_prev. rewrite Hl. rewrite (proj2 (Z.eqb_eq _ _)) by done.
    hstep. eapply wp_block_size; [exact Hblk|]. cbn [xBlockSize]. rewrite (u32_small (c.2 + b.2)) by (unfold alloc_bit in *; u32_lia).
    hstep. eapply wp_set_block_size; [exact Hcb|]. cbn [pxNextFreeBlock]. hstep.
    set (m1 := <[c.1 := _]> (blocks s)). assert (Hm1 : m1 !! c.1 = Some (mkBlock n (c.2 + b.2))) by apply lookup_insert_eq.
    eapply wp_mono.
    { apply (merge_next_wp (set_blocks m1 s) c.1 (c.1, c.2 + b.2) p2 n n (c.2 + b.2) (pxEnd s)); simpl; [done|done| |done| |done|lia..].
      - apply seg_other; [|done]. intros (d & Ed & Hd)%list_elem_of_fmap. destruct (proj1 (Forall_forall _ _) Hp2 d Hd) as (_ & _ & ? & _). done.
      - eapply Forall_impl; [exact Hp2|]. simpl. tauto. }
    cbv beta. intros _ s' [Hs' H']. cbn [fst snd] in H'. assert (Hb2 : let '(b2, q2) := join_next (c.1, c.2 + b.2) p2 in b2.1 = c.1).
    { by apply (join_next_cases (fun b2 _ => b2.1 = c.1)). }
    destruct (join_next (c.1, c.2 + b.2) p2) as [b2 q2]. destruct H' as ((n' & Hb2' & Hq) & _ & Hot).
    assert (Hot' : forall a, a <> c.1 -> blocks s' !! a = blocks s !! a).
    { intros a Ha'. rewrite Hot by done. unfold m1. simpl. by rewrite lookup_insert_ne. }
    split; [by rewrite Hs'|]. split; [|intros a _ ?; by apply Hot'].
    assert (Hxs' : (xStart, 0) :: removelast p1 = xs).
    { apply last_Some in Hl as [q ->]. rewrite removelast_last. rewrite app_comm_cons in Hxs. by apply app_inj_tail in Hxs as [-> _]. }
    rewrite app_comm_cons, Hxs'. by eapply (joined_seg (blocks s) (blocks s') xs c b p2 b2 q2 0 n'); auto.
  - assert (Hjp : join_prev p1 b = (p1, b)).
    { unfold join_prev. destruct (last p1) as [c'|]; [|done]. simpl in Hc. subst c'. by rewrite (proj2 (Z.eqb_neq _ _)). }
    rewrite Hjp. hstep. eapply wp_mono; [apply (merge_next_wp s c.1 b p2 n n0 c.2 (pxEnd s)); try done; lia|].
    cbv beta. intros _ s' [Hs' H']. destruct (join_next b p2) as [b2 q2]. destruct H' as ((n' & Hb2' & Hq) & Hl & Hot).
    split; [done|]. split; [|intros a ? ?; by apply Hot]. rewrite app_comm_cons, Hxs, <- app_assoc.
    eapply (joined_seg (blocks s) (blocks s') xs c b p2 b2 q2 c.2 n'); auto.
Qed.

Lemma region_insert_wp s rs fl b : incoming s rs fl b ->
  wp (prvInsertBlockIntoFreeList xStart b.1) (fun _ s' => s' = set_blocks (blocks s') s /\ chain s' rs (insert_merge b fl) /\
    forall a, a <> xStart -> a <> b.1 -> a ∉ fl.*1 -> blocks s' !! a = blocks s !! a) s.
Proof.
  intros Hic. pose proof (incoming_new _ _ _ _ Hic) as [_ Hbe]. destruct (incoming_list _ _ _ _ Hic) as (L1 & L2 & L3).
  pose proof Hic as [Hch _ _ _]. pose proof Hch as [Hok He Hseg Hend Hs Hin Hj]. unfold prvInsertBlockIntoFreeList.
  hstep. apply wp_gets. hstep. destruct Hseg as (_ & n & Hst & Hseg).
  eapply (region_insert_loop_wp b.1 fl); [exact Hst|exact Hseg|lia|eapply seg_fuel; [exact Hseg|by apply sorted_addrs]|].
  unfold insert_merge in *. destruct (span _ fl) as [p1 p2] eqn:E. apply span_app in E as (-> & _). cbn [fst snd] in *.
  destruct (chain_last (xStart, 0) p1) as (xs & Hxs & Hl). cbn [fst] in Hl. rewrite Hl.
  eapply wp_mono; [by apply (merge_wp s rs p1 p2 b xs)|]. cbv beta. intros _ s' (Hs' & Hq & Hot).
  assert (Hci : forall a, a <> xStart -> a ∉ (p1 ++ p2).*1 -> a <> (default (xStart, 0) (last p1)).1).
  { intros a H1 H2 ->. destruct (last p1) as [c|] eqn:El; simpl in *; [|done]. apply H2. apply last_Some in El as [q ->].
    apply list_elem_of_fmap. exists c. split; [done|]. mem. }
  split; [done|]. split; [|intros a H1 H2 H3; apply Hot; auto].
  destruct (join_prev p1 b) as [q1 b1], (join_next b1 p2) as [b2 q2]. rewrite Hs'. split; try done; simpl.
  rewrite Hot; [done|lia|]. intros E. destruct He as [_ He]. pose proof Hok as [_ _ Ho _].
  destruct (decide (default (xStart, 0) (last p1) = (xStart, 0))) as [Ed|Hd].
  - rewrite Ed in E. simpl in E. destruct (ch_last _ _ _ Hch) as [(r & Hr & Er) _]. pose proof (proj1 (Forall_forall _ _) Ho r Hr) as Hro. cbv beta in Hro.
    pose proof (ranges_from_elem _ _ _ (ro_from _ Hok) Hr). lia.
  - destruct (last p1) as [c|] eqn:El; [|done]. simpl in *. apply last_Some in El as [q ->].
    pose proof (located_facts _ _ _ Hok He (proj1 (Forall_forall _ _) Hin c ltac:(mem))). lia.
Qed.

(** ** The free list without a block *)

Lemma chain_end_start s rs fl : chain s rs fl -> pxEnd s <> xStart /\ 0 < pxEnd s.
Proof.
  intros [Hok [(r & Hr & Er) _] _ _ _ _ _]. pose proof (proj1 (Forall_forall _ _) (ro_out _ Hok) r Hr) as Hro. cbv beta in Hro.
  pose proof (ranges_from_elem _ _ _ (ro_from _ Hok) Hr). lia.
Qed.

Lemma joined_sub fl fl' : (forall x, x ∈ fl' -> x ∈ fl) -> joined fl -> joined fl'.
Proof. intros Hsub Hj b c Hb Hc. apply Hj; auto. Qed.

Lemma sorted_drop p1 b p2 : by_addr (p1 ++ b :: p2) -> by_addr (p1 ++ p2).
Proof.
  intros (H1 & [H2 _]%StronglySorted_inv & H12)%ssorted_app. apply ssorted_app. split_and!; [done..|].
  eapply Forall_impl; [exact H12|]. by intros x [_ ?]%Forall_cons.
Qed.

Lemma unlink_chain s rs p1 b p2 xs c n z : chain s rs (p1 ++ b :: p2) -> (xStart, 0) :: p1 = xs ++ [c] ->
  blocks s !! b.1 = Some (mkBlock n z) -> chain (set_blocks (<[c.1 := mkBlock n c.2]> (blocks s)) s) rs (p1 ++ p2).
Proof.
  intros Hch Hxs Hb. pose proof (region_chain_nodup _ _ _ Hch) as Hnd. destruct (chain_end_start _ _ _ Hch) as [He0 _].
  destruct Hch as [Hok He Hseg Hend Hs Hin Hj].
  assert (Hfull : forall ys, (xStart, 0) :: p1 ++ ys = xs ++ c :: ys).
  { intros ys. change (c :: ys) with ([c] ++ ys). by rewrite app_comm_cons, Hxs, <- app_assoc. }
  split; simpl blocks; simpl pxEnd; try done.
  - rewrite Hfull in Hseg, Hnd |- *. by eapply seg_unlink.
  - rewrite lookup_insert_ne; [done|]. assert (Hci : c ∈ (xStart, 0) :: p1) by (rewrite Hxs; mem).
    apply elem_of_cons in Hci as [->|Hci]; [simpl; congruence|]. destruct He as [_ He].
    pose proof (located_facts _ _ _ Hok He (proj1 (Forall_forall _ _) Hin c ltac:(mem))). lia.
  - by eapply sorted_drop.
  - apply Forall_app in Hin as [? [_ ?]%Forall_cons]. by apply Forall_app.
  - eapply joined_sub; [|exact Hj]. intros x Hx. apply elem_of_app in Hx. mem.
Qed.

Lemma chain_other s rs fl a x : chain s rs fl -> a ∉ ((xStart, 0) :: fl).*1 -> a <> pxEnd s ->
  chain (set_blocks (<[a := x]> (blocks s)) s) rs fl.
Proof.
  intros [Hok He Hseg Hend Hs Hin Hj] Ha Hae. split; simpl blocks; simpl pxEnd; try done; [by apply seg_other|by rewrite lookup_insert_ne].
Qed.

Lemma sorted_total fl lo e : by_addr fl -> lo <= e -> Forall (fun c => lo <= c.1 /\ 0 <= c.2 /\ c.1 + c.2 <= e) fl -> 0 <= total fl <= e - lo.
Proof.
  revert lo. induction fl as [|c fl IH]; intros lo; simpl; [lia|]. intros [Hs Hc]%StronglySorted_inv Hlo [(? & ? & ?) Hf]%Forall_cons.
  assert (0 <= total fl <= e - (c.1 + c.2)); [|lia]. apply IH; [done|lia|]. rewrite Forall_forall in *. intros d Hd.
  destruct (Hc d Hd). destruct (Hf d Hd). lia.
Qed.

Lemma sorted_length fl lo e : by_addr fl -> lo <= e -> Forall (fun c => lo <= c.1 < e) fl -> lo + Z.of_nat (length fl) <= e.
Proof.
  revert lo. induction fl as [|c fl IH]; intros lo; simpl; [lia|]. intros [Hs Hc]%StronglySorted_inv Hlo [? Hf]%Forall_cons.
  assert (c.1 + 1 + Z.of_nat (length fl) <= e); [|lia]. apply IH; [done|lia|]. rewrite Forall_forall in *. intros d Hd.
  destruct (Hc d Hd). specialize (Hf d Hd). simpl in Hf. lia.
Qed.

Lemma chain_total s rs fl : chain s rs fl -> 0 <= total fl < u32_modulus.
Proof.
  intros Hch. destruct (chain_end_start _ _ _ Hch) as [_ Hp]. destruct Hch as [Hok [(r & Hr & Er) He] _ _ Hs Hin _].
  pose proof (proj1 (Forall_forall _ _) (ro_top _ Hok) r Hr) as Htop. cbv beta in Htop.
  pose proof (sorted_total fl 0 (pxEnd s) Hs ltac:(lia)) as Ht. assert (0 <= total fl <= pxEnd s - 0); [apply Ht|lia].
  eapply Forall_impl; [exact Hin|]. intros c Hc. pose proof (located_facts _ _ _ Hok He Hc). lia.
Qed.

(** ** Taking a block *)

Definition take_part (w : Z) b fl : blk * list blk :=
  if heapMINIMUM_BLOCK_SIZE <? b.2 - w then ((b.1, w), insert_merge (b.1 + w, b.2 - w) fl) else (b, fl).

(** [b] has left the list. *)
Lemma region_split_wp s rs fl b w n : chain s rs fl -> usable rs b -> Forall (apart b) fl -> blocks s !! b.1 = Some (mkBlock n b.2) ->
  0 < w <= b.2 -> (16 | w) ->
  wp (split_block xStart w b.1) (fun _ s' => s' = set_blocks (blocks s') s /\ let '(b', fl') := take_part w b fl in
    chain s' rs fl' /\ blocks s' !! b.1 = Some (mkBlock n b'.2) /\
    forall a, a <> xStart -> a ∉ fl.*1 -> ~ (b.1 <= a < b.1 + b.2) -> blocks s' !! a = blocks s !! a) s.
Proof.
  intros Hch Hb Ha Hblk Hw Hdiv. pose proof Hch as [Hok [_ He] _ _ _ Hin _]. pose proof (usable_facts _ _ _ Hok He Hb) as (B1 & B2 & B3 & B4 & B5).
  unfold split_block, take_part. hstep. eapply wp_block_size; [exact Hblk|]. cbn [xBlockSize]. rewrite (u32_small (b.2 - w)) by (unfold alloc_bit in *; u32_lia).
  destruct (Z.ltb_spec heapMINIMUM_BLOCK_SIZE (b.2 - w)) as [Hlt|_]; [|hstep; split; [by destruct s|done]].
  rewrite heapMINIMUM_BLOCK_SIZE_32 in Hlt. rewrite (u32_small (b.1 + w)) by u32_lia.
  destruct Hb as (r & Hr & U1 & U2 & U3 & U4 & U5).
  set (d := (b.1 + w, b.2 - w)). assert (Hd : usable rs d).
  { exists r. simpl. split_and!; [done|lia|lia|lia|by apply Z.divide_add_r|by apply Z.divide_sub_r]. }
  assert (Hda : Forall (apart d) fl).
  { rewrite Forall_forall in Ha, Hin |- *. intros c Hc. pose proof (located_facts _ _ _ Hok He (Hin c Hc)). destruct (Ha c Hc); [left|right]; simpl; lia. }
  assert (Hfar : forall a, b.1 <= a < b.1 + b.2 -> a ∉ ((xStart, 0) :: fl).*1 /\ a <> pxEnd s).
  { intros a Hab. simpl. rewrite not_elem_of_cons. split; [split|lia].
    - intros ->. pose proof (proj1 (Forall_forall _ _) (ro_out _ Hok) r Hr) as Hro. cbv beta in Hro. lia.
    - intros (c & -> & Hc)%list_elem_of_fmap. assert (Hb : usable rs b) by (exists r; tauto).
      destruct (proj1 (Forall_forall _ _) (chain_order _ _ _ _ Hch Hb Ha) c Hc) as [? [[??]|[??]]]; lia. }
  hstep. apply wp_modify. set (j := from_option _ _ _). hstep. eapply wp_set_block_size; [simpl; rewrite lookup_insert_ne by lia; exact Hblk|].
  cbn [pxNextFreeBlock]. rewrite blocks_set_blocks, set_blocks_twice. set (m2 := <[b.1 := _]> (<[b.1 + w := _]> (blocks s))).
  eapply wp_mono; [apply (region_insert_wp (set_blocks m2 s) rs fl d)|].
  - split; [| done|done|].
    + pose proof (Hfar (b.1 + w) ltac:(lia)) as [F1 F2]. pose proof (Hfar b.1 ltac:(lia)) as [F3 F4].
      exact (chain_other (set_blocks _ s) rs fl _ _ (chain_other s rs fl _ (mkBlock j (b.2 - w)) Hch F1 F2) F3 F4).
    + exists j. unfold m2. simpl. rewrite lookup_insert_ne by lia. by rewrite lookup_insert_eq.
  - cbv beta. intros _ s' (Hs' & Hch' & Hot). split; [by rewrite Hs'|]. split; [done|]. split.
    + destruct (Hfar b.1 ltac:(lia)) as [F _]. simpl in F. rewrite not_elem_of_cons in F.
      rewrite Hot by (simpl; first [lia|tauto]). unfold m2. simpl. by rewrite lookup_insert_eq.
    + intros a H1 H2 H3. assert (Had : a <> d.1) by (simpl; lia). rewrite Hot by done. unfold m2. simpl. by rewrite !lookup_insert_ne by lia.
Qed.

Lemma take_part_facts rs fl b w : usable rs b -> Forall (apart b) fl -> 0 < w <= b.2 -> (16 | w) ->
  let '(b', fl') := take_part w b fl in usable rs b' /\ b'.1 = b.1 /\ Forall (apart b') fl' /\ b'.2 + total fl' = b.2 + total fl /\
    forall u, 0 < u.2 -> apart u b -> Forall (apart u) fl -> apart u b' /\ Forall (apart u) fl'.
Proof.
  intros Hb Ha Hw Hdiv. unfold take_part. rewrite heapMINIMUM_BLOCK_SIZE_32. destruct (Z.ltb_spec 32 (b.2 - w)) as [Hlt|]; [|split_and!; auto].
  destruct Hb as (r & Hr & U1 & U2 & U3 & U4 & U5). split_and!; [|done| | |].
  - exists r. simpl. split_and!; [done|lia|lia|lia|done|done].
  - apply insert_merge_forall; [intros c d; apply apart_join; simpl; lia|left; simpl; lia|].
    eapply Forall_impl; [exact Ha|]. intros c [?|?]; [left|right]; simpl; lia.
  - rewrite insert_merge_total. simpl. lia.
  - intros u Hu Hub Huf. split; [destruct Hub; [left|right]; simpl; lia|].
    apply insert_merge_forall; [intros c d; by apply apart_join|destruct Hub; [left|right]; simpl; lia|done].
Qed.

(** The block is counted and marked. *)
Lemma mark_wp s rs used fl b n : chain s rs fl -> usable rs b -> Forall (apart b) fl -> blocks s !! b.1 = Some (mkBlock n b.2) ->
  Forall (fun u => blocks s !! u.1 = Some (mkBlock NULL (Z.lor u.2 alloc_bit))) used -> Forall (usable rs) used ->
  Forall (apart b) used -> all_apart used -> Forall (fun u => Forall (apart u) fl) used ->
  xBlockAllocatedBit s = alloc_bit -> xFreeBytesRemaining s = b.2 + total fl ->
  0 <= xMinimumEverFreeBytesRemaining s <= xFreeBytesRemaining s -> b.2 + total fl < u32_modulus ->
  wp (mark_allocated b.1) (fun _ s' => rep_heap s' rs (b :: used) fl) s.
Proof.
  intros Hch Hb Hbf Hblk Hu Hui Hbu Hua Huf Hbit Hby Hmin Htot. pose proof (chain_total _ _ _ Hch) as Ht.
  pose proof Hch as [Hok [_ He] _ _ _ Hin _]. pose proof (usable_facts _ _ _ Hok He Hb) as (B1 & B2 & B3 & B4 & B5).
  unfold mark_allocated. hstep. eapply wp_block_size; [exact Hblk|]. cbn [xBlockSize]. do 2 (hstep; apply wp_modify). hstep. apply wp_gets.
  set (s2 := if _ <? _ then _ else _).
  assert (Es2 : blocks s2 = blocks s /\ pxEnd s2 = pxEnd s /\ xBlockAllocatedBit s2 = alloc_bit /\ xFreeBytesRemaining s2 = total fl /\
    0 <= xMinimumEverFreeBytesRemaining s2 <= total fl).
  { unfold s2. cbn [set_free_bytes xFreeBytesRemaining xMinimumEverFreeBytesRemaining]. rewrite u32_small by u32_lia.
    destruct (Z.ltb_spec (xFreeBytesRemaining s - b.2) (xMinimumEverFreeBytesRemaining s)); simpl; rewrite ?u32_small by u32_lia; split_and!; try done; lia. }
  destruct Es2 as (E1 & E2 & E3 & E4 & E5). clearbody s2.
  hstep. eapply wp_set_block_size; [by rewrite E1|]. cbn [pxNextFreeBlock]. hstep.
  eapply wp_set_block_next; [simpl; by rewrite lookup_insert_eq|]. apply wp_modify. cbn [xBlockSize]. rewrite blocks_set_blocks, set_blocks_twice, insert_insert_eq, E1, E3.
  assert (Hbn : b.1 ∉ ((xStart, 0) :: fl).*1).
  { simpl. rewrite not_elem_of_cons. split; [done|]. intros (c & E & Hc)%list_elem_of_fmap.
    destruct (proj1 (Forall_forall _ _) (chain_order _ _ _ _ Hch Hb Hbf) c Hc) as [_ [[??]|[??]]]; lia. }
  split; simpl.
  - destruct (chain_other s rs fl b.1 (mkBlock NULL (Z.lor b.2 alloc_bit)) Hch Hbn ltac:(lia)). split; simpl in *; rewrite ?E2; done.
  - constructor; [by rewrite lookup_insert_eq|]. rewrite Forall_forall in *. intros u Huin. rewrite lookup_insert_ne; [by apply Hu|].
    pose proof (Hbu u Huin). pose proof (Hui u Huin) as (ru & _ & _ & ? & _). destruct Hb as (rb & _ & _ & ? & _).
    intros E. destruct (Hbu u Huin); lia.
  - by constructor.
  - done.
  - by constructor.
  - done.
  - done.
  - lia.
Qed.

(** ** Requests *)

Lemma first_loop_wp w bs : forall (Q : Z * Z -> heap4 -> Prop) fuel it n s e, seg (blocks s) n bs e ->
  blocks s !! e = Some (mkBlock NULL 0) -> Forall (fun b => b.1 <> NULL) bs -> e <> NULL -> (length bs <= fuel)%nat ->
  (let '(p1, p2) := span (fun c => c.2 <? w) bs in
   Q (default it (last p1.*1), match p2 with b :: _ => b.1 | [] => e end) s) -> wp (first_fit_loop fuel w it n) Q s.
Proof.
  induction bs as [|b bs IH]; intros Q fuel it n s e Hs He Hnn Hne Hf HQ; destruct fuel as [|fuel]; simpl in Hf; try lia; cbn [first_fit_loop].
  1,2: simpl in Hs, HQ; subst n; hstep; eapply wp_block_size; [exact He|]; hstep; eapply wp_block_next; [exact He|];
    cbn [xBlockSize pxNextFreeBlock]; rewrite Z.eqb_refl, andb_false_r; by hstep.
  destruct Hs as (-> & n' & Hb & Hs). apply Forall_cons in Hnn as [Hb0 Hnn]. hstep. eapply wp_block_size; [exact Hb|].
  hstep. eapply wp_block_next; [exact Hb|]. cbn [xBlockSize pxNextFreeBlock]. simpl in HQ.
  assert (Hn0 : n' =? NULL = false).
  { apply Z.eqb_neq. destruct bs as [|c bs]; simpl in Hs; [by subst n'|]. destruct Hs as [-> _]. by apply Forall_cons in Hnn as [? _]. }
  rewrite Hn0, andb_true_r. destruct (b.2 <? w) eqn:E; [|by hstep].
  eapply (IH _ fuel b.1 n' s e Hs He Hnn Hne); [lia|]. destruct (span _ bs) as [p1 p2].
  by rewrite fmap_cons, last_cons_default in HQ.
Qed.

(** First fit. *)
Definition request_malloc (x : Z) fl : option (blk * list blk) :=
  if (0 <? x) && (x <? alloc_bit) then
    let w := 16 * ((x + 31) / 16) in
    let '(p1, p2) := span (fun c => c.2 <? w) fl in
    match p2 with b :: p2' => Some (take_part w b (p1 ++ p2')) | [] => None end
  else None.

Lemma take_wp s rs used p1 b p2 w : rep_heap s rs used (p1 ++ b :: p2) -> 0 < w <= b.2 -> (16 | w) ->
  wp (take_block xStart w (default (xStart, 0) (last p1)).1 b.1) (fun p s' => p = b.1 + xHeapStructSize /\
    let '(b', fl') := take_part w b (p1 ++ p2) in rep_heap s' rs (b' :: used) fl') s.
Proof.
  intros [Hch Hu Hui Hua Huf Hbit Hby Hmin] Hw Hdiv. destruct (chain_last (xStart, 0) p1) as (xs & Hxs & _).
  set (c := default (xStart, 0) (last p1)) in *. pose proof (chain_total _ _ _ Hch) as Htot.
  destruct (seg_parts _ _ _ _ _ _ Hch Hxs) as (_ & (n1 & Hcb & -> & n2 & Hb & _) & _).
  pose proof (unlink_chain _ _ _ _ _ xs c n2 b.2 Hch Hxs Hb) as Hch1. pose proof (region_chain_nodup _ _ _ Hch) as Hnd.
  destruct Hch as [Hok [Hr He] Hseg Hend Hs Hin Hj].
  assert (Hub : usable rs b). { destruct (proj1 (Forall_forall _ _) Hin b ltac:(mem)) as [?|(r & _ & -> & _)]; [done|simpl in *; lia]. }
  assert (Hba : Forall (apart b) (p1 ++ p2)).
  { destruct (sorted_mid _ _ _ Hs) as [S1 S2]. apply Forall_app. split; apply Forall_forall; intros y Hy;
      [destruct (S1 y Hy); by right|destruct (S2 y Hy); by left]. }
  assert (Hcin : c.1 = xStart \/ c.1 ∈ p1.*1).
  { assert (Hi : c ∈ (xStart, 0) :: p1) by (rewrite Hxs; mem). apply elem_of_cons in Hi as [->|Hi]; [by left|right; by apply list_elem_of_fmap_2]. }
  pose proof (usable_facts _ _ _ Hok He Hub) as (B1 & B2 & B3 & B4 & B5).
  assert (Hcne : c.1 <> b.1).
  { destruct Hcin as [->|(d & -> & Hd)%list_elem_of_fmap]; [congruence|]. destruct (sorted_mid _ _ _ Hs) as [S1 _]. destruct (S1 d Hd). lia. }
  assert (Hufar : forall u, u ∈ used -> u.1 <> xStart /\ u.1 ∉ (p1 ++ b :: p2).*1 /\ 0 < u.2 /\ apart u b /\ Forall (apart u) (p1 ++ p2)).
  { intros u Hin'. rewrite Forall_forall in Hui, Huf. pose proof (Hui u Hin') as Huu. pose proof (Huf u Hin') as Hap. pose proof (usable_facts _ _ _ Hok He Huu).
    split_and!; [tauto| |lia|by apply (proj1 (Forall_forall _ _) Hap b); mem|].
    - intros (d & E & Hd)%list_elem_of_fmap. rewrite Forall_forall in Hin, Hap.
      destruct (apart_order _ _ u d Hok He Huu (Hin d Hd) (Hap d Hd)) as [[??]|[??]]; lia.
    - apply Forall_app in Hap as [? [_ ?]%Forall_cons]. by apply Forall_app. }
  pose proof (take_part_facts rs (p1 ++ p2) b w Hub Hba Hw Hdiv) as Htp.
  unfold take_block. hstep. eapply wp_block_next; [exact Hcb|]. cbn [pxNextFreeBlock]. hstep. eapply wp_block_next; [exact Hb|]. cbn [pxNextFreeBlock].
  hstep. eapply wp_set_block_next; [exact Hcb|]. cbn [xBlockSize]. hstep.
  eapply wp_mono; [eapply (region_split_wp _ rs (p1 ++ p2) b w n2 Hch1 Hub Hba); [simpl; by rewrite lookup_insert_ne|done|done]|].
  cbv beta. intros _ s2 [Hs2 H2]. destruct (take_part w b (p1 ++ p2)) as [b' fl'] eqn:Et. destruct H2 as (Hch2 & Hb2 & Hot).
  destruct Htp as (T1 & T2 & T3 & T4 & T5). simpl pxEnd in *. rewrite <- T2 in *.
  hstep. eapply wp_mono; [eapply (mark_wp s2 rs used fl' b' n2); [done..| | | | | |rewrite Hs2; exact Hbit| | |]|].
  - apply Forall_forall. intros u Hin'. destruct (Hufar u Hin') as (F1 & F2 & F3 & F4 & F5). rewrite fmap_app, fmap_cons in F2.
    rewrite Hot; [|done| |].
    + simpl. rewrite lookup_insert_ne; [by apply (proj1 (Forall_forall _ _) Hu)|]. intros E. destruct Hcin as [?|?]; [congruence|].
      apply F2. rewrite <- E. apply elem_of_app. by left.
    + rewrite fmap_app. intros Hx. apply F2. apply elem_of_app in Hx. mem.
    + destruct F4 as [?|?]; [lia|]. lia.
  - done.
  - apply Forall_forall. intros u Hin'. destruct (Hufar u Hin') as (_ & _ & F3 & F4 & F5). symmetry. by apply T5.
  - done.
  - apply Forall_forall. intros u Hin'. destruct (Hufar u Hin') as (_ & _ & F3 & F4 & F5). by apply T5.
  - rewrite Hs2. simpl. rewrite Hby, T4, !total_app. simpl. lia.
  - rewrite Hs2. exact Hmin.
  - rewrite !total_app in *. simpl in *. lia.
  - cbv beta. intros _ s3 Hr3. hstep. split; [|done]. rewrite xHeapStructSize_16. apply u32_small. u32_lia.
Qed.

Lemma total_elem b fl : Forall (fun c => 0 <= c.2) fl -> b ∈ fl -> b.2 <= total fl.
Proof.
  intros Hf Hb. induction Hf as [|c fl Hc Hf IH]; [by apply elem_of_nil in Hb|]. assert (0 <= total fl) by (clear - Hf; induction Hf; simpl; lia).
  apply elem_of_cons in Hb as [->|Hb]; simpl; [lia|]. specialize (IH Hb). lia.
Qed.

(** pvPortMalloc. *)
Lemma region_request_wp s rs used fl x : rep_heap s rs used fl -> u32_range x ->
  wp (pvPortMalloc_suspended xStart x) (fun p s' =>
    match request_malloc x fl with
    | Some (b, fl') => p = b.1 + xHeapStructSize /\ rep_heap s' rs (b :: used) fl'
    | None => p = NULL /\ s' = s
    end) s.
Proof.
  intros Hr Hx. pose proof Hr as [Hch _ _ _ _ Hbit Hby _]. pose proof Hch as [Hok [_ He] (_ & n & Hst & Hseg) Hend Hs Hin _].
  unfold pvPortMalloc_suspended, request_malloc. hstep. apply wp_gets. rewrite Hbit, alloc_bit_test, wanted_size_spec by done.
  destruct (Z.ltb_spec x alloc_bit) as [Hlt|]; [|rewrite andb_false_r; by apply wp_ret]. rewrite andb_true_r.
  rewrite (proj2 (Z.leb_le x _)) by (unfold alloc_bit in *; u32_lia). rewrite andb_true_r. hstep. apply wp_gets.
  destruct (Z.ltb_spec 0 x) as [Hpos|]; [|by apply wp_ret]. set (w := 16 * ((x + 31) / 16)).
  assert (Hw : 0 < w) by (unfold w; pose proof (Z.div_le_lower_bound (x + 31) 16 1 ltac:(lia)); lia).
  assert (Hdiv : (16 | w)) by apply Z.divide_factor_l. clearbody w. rewrite (proj2 (Z.ltb_lt 0 w)) by done. cbn [andb]. rewrite Hby.
  assert (Hfacts : Forall (fun c => 0 < c.1 < pxEnd s /\ 0 <= c.2) fl).
  { eapply Forall_impl; [exact Hin|]. intros c Hc. pose proof (located_facts _ _ _ Hok He Hc). lia. }
  destruct (Z.leb_spec w (total fl)) as [Hfit|Hno].
  - hstep. eapply wp_block_next; [exact Hst|]. cbn [pxNextFreeBlock]. hstep. apply wp_gets. hstep.
    eapply (first_loop_wp w fl _ _ _ n s (pxEnd s)); [exact Hseg|exact Hend| | |eapply seg_fuel; [exact Hseg|by apply sorted_addrs]|].
    { eapply Forall_impl; [exact Hfacts|]. unfold NULL. simpl. lia. }
    { pose proof (chain_end_start _ _ _ Hch). unfold NULL. lia. }
    destruct (span _ fl) as [p1 p2] eqn:E. apply span_app in E as (-> & _ & Hp2). hstep. apply wp_gets.
    destruct p2 as [|b p2]; [rewrite Z.eqb_refl; by apply wp_ret|]. apply Z.ltb_ge in Hp2.
    apply Forall_app in Hfacts as [_ [[? _] _]%Forall_cons]. rewrite (proj2 (Z.eqb_neq _ _)) by lia. cbn [negb].
    destruct (chain_last (xStart, 0) p1) as (xs & Hxs & Hl). cbn [fst] in Hl. rewrite Hl.
    eapply wp_mono; [by apply (take_wp s rs used p1 b p2 w)|]. cbv beta. intros p s' [-> Hr'].
    assert (E1 : (take_part w b (p1 ++ p2)).1.1 = b.1) by (unfold take_part; by destruct (_ <? _)).
    destruct (take_part w b (p1 ++ p2)) as [b' fl']. simpl in E1. by rewrite E1.
  - apply wp_ret. destruct (span _ fl) as [p1 p2] eqn:E. apply span_app in E as (-> & _ & Hp2). destruct p2 as [|b p2]; [done|].
    apply Z.ltb_ge in Hp2. assert (b.2 <= total (p1 ++ b :: p2)); [|lia].
    apply total_elem; [|mem]. eapply Forall_impl; [exact Hfacts|]. simpl. tauto.
Qed.

(** ** Returns *)

Lemma region_return_wp s rs u1 b u2 fl : rep_heap s rs (u1 ++ b :: u2) fl ->
  wp (vPortFree_body xStart (b.1 + xHeapStructSize)) (fun _ s' => rep_heap s' rs (u1 ++ u2) (insert_merge b fl)) s.
Proof.
  intros [Hch Hu Hui Hua Huf Hbit Hby Hmin]. pose proof Hch as [Hok [_ He] _ _ _ Hin _]. rewrite <- Permutation_middle in Hua, Hui, Hu, Huf.
  apply Forall_cons in Hui as [Hb Hui], Hu as [Hblk Hu], Huf as [Hbf Huf]. destruct Hua as [Hbu Hua].
  pose proof (usable_facts _ _ _ Hok He Hb) as (B1 & B2 & B3 & B4 & B5).
  unfold vPortFree_body, free_guard, free_clear, free_suspended. rewrite xHeapStructSize_16.
  rewrite (proj2 (Z.eqb_neq _ _)) by (unfold NULL; lia). cbn [negb]. rewrite Z.add_simpl_r, (u32_small b.1) by u32_lia.
  hstep. hstep. eapply wp_block_size; [exact Hblk|]. hstep. apply wp_gets. cbn [xBlockSize]. rewrite Hbit, alloc_bit_set by lia.
  change (negb (alloc_bit =? 0)) with true. cbv iota. hstep. eapply wp_block_next; [exact Hblk|]. cbn [pxNextFreeBlock]. hstep. rewrite Z.eqb_refl.
  hstep. hstep. eapply wp_block_size; [exact Hblk|]. hstep. apply wp_gets. cbn [xBlockSize]. rewrite Hbit, alloc_bit_clear by lia.
  eapply wp_set_block_size; [exact Hblk|]. cbn [pxNextFreeBlock]. hstep. eapply wp_block_size; [simpl; by rewrite lookup_insert_eq|]. cbn [xBlockSize].
  hstep. apply wp_modify. set (s1 := set_free_bytes _ _).
  assert (Hbn : b.1 ∉ ((xStart, 0) :: fl).*1).
  { simpl. rewrite not_elem_of_cons. split; [done|]. intros (c & E & Hc)%list_elem_of_fmap.
    destruct (proj1 (Forall_forall _ _) (chain_order _ _ _ _ Hch Hb Hbf) c Hc) as [_ [[??]|[??]]]; lia. }
  assert (Hic : incoming s1 rs fl b).
  { split; [|done|done|exists NULL; simpl; by rewrite lookup_insert_eq].
    destruct (chain_other s rs fl b.1 (mkBlock NULL b.2) Hch Hbn ltac:(lia)). by split. }
  hstep. eapply wp_mono; [by apply (region_insert_wp s1 rs fl b)|]. cbv beta. intros _ s2 (Hs2 & Hch2 & Hot). apply wp_modify.
  pose proof (chain_total _ _ _ Hch2) as Ht2. rewrite insert_merge_total in Ht2. pose proof (chain_total _ _ _ Hch) as Ht.
  assert (Hby2 : xFreeBytesRemaining s2 = b.2 + total fl).
  { rewrite Hs2. unfold s1. simpl. rewrite Hby, u32_small by u32_lia. lia. }
  rewrite Forall_forall in Hui, Hu, Huf, Hbu. split; simpl; rewrite ?Hby2, ?insert_merge_total; try done.
  - destruct Hch2. by split.
  - apply Forall_forall. intros u Hin'. pose proof (usable_facts _ _ _ Hok He (Hui u Hin')) as Huu. rewrite Hot.
    + unfold s1. simpl. rewrite lookup_insert_ne; [by apply Hu|]. intros E. destruct (Hbu u Hin'); lia.
    + tauto.
    + intros E. destruct (Hbu u Hin'); lia.
    + intros (d & E & Hd)%list_elem_of_fmap. rewrite Forall_forall in Hin. pose proof (proj1 (Forall_forall _ _) (Huf u Hin') d Hd) as Hap.
      destruct (apart_order _ _ u d Hok He (Hui u Hin') (Hin d Hd) Hap) as [[??]|[??]]; lia.
  - by apply Forall_forall.
  - apply Forall_forall. intros u Hin'. pose proof (usable_facts _ _ _ Hok He (Hui u Hin')) as Huu.
    apply insert_merge_forall; [intros c d; apply apart_join; lia|symmetry; by apply Hbu|by apply Huf].
  - rewrite Hs2. exact Hbit.
  - rewrite Hs2. unfold s1. simpl. lia.
Qed.

(** ** The regions *)

Definition align_up (a : Z) : Z := 16 * ((a + 15) / 16).
Definition align_down (a : Z) : Z := 16 * (a / 16).
Definition range_of r : blk := (align_up r.1, align_down (r.1 + r.2 - 16)).

(** Regions in order, large enough to hold a block and the header at their end,
    and apart from the list head. *)
Fixpoint ordered_from (lo : Z) (hs : list blk) : Prop :=
  match hs with
  | [] => True
  | r :: hs' => lo <= r.1 /\ 64 <= r.2 < alloc_bit /\ r.1 + r.2 < u32_modulus /\ ~ (r.1 <= xStart < r.1 + r.2) /\ ordered_from (r.1 + r.2) hs'
  end.
Definition good_regions (hs : list blk) : Prop := ordered_from 1 hs /\ 0 < xStart < u32_modulus.

(** All of the ranges is free, and all but the last lead to the next. *)
Fixpoint free_ranges rs : list blk :=
  match rs with
  | [] => []
  | r :: rs' => (r.1, r.2 - r.1) :: match rs' with [] => [] | _ => (r.2, 0) :: free_ranges rs' end
  end.

Lemma range_bounds r : r.1 <= align_up r.1 <= r.1 + 15 /\ (16 | align_up r.1) /\ (16 | align_down (r.1 + r.2 - 16)) /\
  r.1 + r.2 - 31 <= align_down (r.1 + r.2 - 16) <= r.1 + r.2 - 16.
Proof.
  unfold align_up, align_down. pose proof (Z.div_mod (r.1 + 15) 16 ltac:(lia)). pose proof (Z.mod_pos_bound (r.1 + 15) 16 ltac:(lia)).
  pose proof (Z.div_mod (r.1 + r.2 - 16) 16 ltac:(lia)). pose proof (Z.mod_pos_bound (r.1 + r.2 - 16) 16 ltac:(lia)).
  split_and!; try lia; apply Z.divide_factor_l.
Qed.

Lemma ranges_from_ordered lo hs : ordered_from lo hs -> ranges_from lo (range_of <$> hs).
Proof.
  revert lo. induction hs as [|r hs IH]; intros lo; simpl; [done|]. intros (? & ? & ? & _ & Hr). destruct (range_bounds r) as (? & ? & ? & ?).
  split_and!; try done; try lia. specialize (IH _ Hr). destruct hs as [|r' hs]; simpl in *; [done|].
  destruct Hr as (Hr' & _). destruct IH as (? & IH). split; [|done]. destruct (range_bounds r'). lia.
Qed.

Lemma good_ranges hs : good_regions hs -> regions_ok (range_of <$> hs).
Proof.
  intros [Ho Hs]. split; [by apply ranges_from_ordered| | |done]; apply Forall_fmap; (assert (Hall : Forall (fun r => 64 <= r.2 /\ r.1 + r.2 < u32_modulus /\ ~ (r.1 <= xStart < r.1 + r.2)) hs);
    [clear Hs; revert Ho; generalize 1; induction hs as [|r hs IH]; intros lo; simpl; [by constructor|]; intros (? & ? & ? & ? & ?); constructor; [tauto|by eapply IH]|]);
    (eapply Forall_impl; [exact Hall|]); intros r (? & ? & ?); destruct (range_bounds r) as (? & _ & _ & ?); simpl; lia.
Qed.

(** What one round computes. *)
Lemma define_region_eq i r : 0 < r.1 -> 64 <= r.2 < alloc_bit -> r.1 + r.2 < u32_modulus ->
  define_region xStart i r =
    ((if i =? 0 then modify (fun s => set_blocks (<[xStart := mkBlock (range_of r).1 0]> (blocks s)) s) else mret tt);;
     pxPreviousFreeBlock ← gets pxEnd;
     modify (fun s => mkHeap4 (<[(range_of r).2 := mkBlock NULL 0]> (blocks s)) (range_of r).2 (xFreeBytesRemaining s)
       (xMinimumEverFreeBytesRemaining s) (xNumberOfSuccessfulAllocations s) (xNumberOfSuccessfulFrees s) (xBlockAllocatedBit s));;
     modify (fun s => set_blocks (<[(range_of r).1 := mkBlock (range_of r).2 ((range_of r).2 - (range_of r).1)]> (blocks s)) s);;
     (if negb (pxPreviousFreeBlock =? NULL) then set_block_next pxPreviousFreeBlock (range_of r).1 else mret tt);;
     block_size (range_of r).1).
Proof.
  intros H0 Hsz Hu. destruct (range_bounds r) as (B1 & _ & _ & B2). destruct r as [a sz]. unfold range_of. simpl in *.
  assert (Hal : (if negb (Z.land a portBYTE_ALIGNMENT_MASK =? 0) then Z.land (a +u (portBYTE_ALIGNMENT - 1)) (Z.lnot portBYTE_ALIGNMENT_MASK) else a) = align_up a).
  { change (portBYTE_ALIGNMENT - 1) with 15. change (Z.lnot portBYTE_ALIGNMENT_MASK) with (Z.lnot 15). rewrite land_not_15, u32_small by (unfold alloc_bit in *; u32_lia).
    change portBYTE_ALIGNMENT_MASK with (Z.ones 4). rewrite Z.land_ones by done. change (2 ^ 4) with 16. unfold align_up in *.
    destruct (Z.eqb_spec (a mod 16) 0) as [E|]; simpl; [|done]. pose proof (Z.div_mod a 16 ltac:(lia)).
    replace (a + 15) with (15 + (a / 16) * 16) by lia. rewrite Z.div_add by done. change (15 / 16) with 0. lia. }
  unfold define_region. rewrite Hal.
  assert (Htot : align_up a +u (if negb (Z.land a portBYTE_ALIGNMENT_MASK =? 0) then sz -u (align_up a -u a) else sz) = a + sz).
  { rewrite (u32_small (align_up a - a)) by u32_lia. rewrite (u32_small (sz - _)) by (unfold alloc_bit in *; u32_lia).
    destruct (negb _) eqn:E; simpl; [rewrite u32_small by (unfold alloc_bit in *; u32_lia); lia|]. rewrite <- Hal, u32_small by (unfold alloc_bit in *; u32_lia). done. }
  rewrite Htot, xHeapStructSize_16. change (Z.lnot portBYTE_ALIGNMENT_MASK) with (Z.lnot 15). rewrite land_not_15, (u32_small (a + sz - 16)) by (unfold alloc_bit in *; u32_lia).
  fold (align_down (a + sz - 16)). rewrite (u32_small (align_down _ - _)) by (unfold alloc_bit in *; u32_lia). done.
Qed.

Lemma free_ranges_snoc rs r0 r : free_ranges ((rs ++ [r0]) ++ [r]) = free_ranges (rs ++ [r0]) ++ [(r0.2, 0); (r.1, r.2 - r.1)].
Proof. induction rs as [|r1 rs IH]; [done|]. simpl. rewrite IH. destruct rs; done. Qed.

Lemma ranges_from_snoc lo rs r : ranges_from lo (rs ++ [r]) -> Forall (fun r' => r'.2 + 16 <= r.1) rs.
Proof.
  revert lo. induction rs as [|r0 rs IH]; intros lo; simpl; [by constructor|]. intros (_ & _ & _ & _ & _ & Hr). constructor; [|by eapply IH].
  by apply (ranges_from_elem _ _ r) in Hr as [? _]; [|mem].
Qed.

Lemma usable_whole rs r : regions_ok rs -> r ∈ rs -> usable rs (r.1, r.2 - r.1).
Proof.
  intros [Hf _ _ _] Hr. destruct (ranges_from_elem _ _ _ Hf Hr) as (? & ? & ? & ? & ?). exists r. simpl. split_and!; try done; try lia. by apply Z.divide_sub_r.
Qed.

(** The headers of a further range. *)
Lemma chain_snoc s rs fl r : chain s rs fl -> (exists rs' r0, rs = rs' ++ [r0] /\ pxEnd s = r0.2) -> regions_ok (rs ++ [r]) ->
  chain (mkHeap4 (<[pxEnd s := mkBlock r.1 0]> (<[r.1 := mkBlock r.2 (r.2 - r.1)]> (<[r.2 := mkBlock NULL 0]> (blocks s)))) r.2
    (xFreeBytesRemaining s) (xMinimumEverFreeBytesRemaining s) (xNumberOfSuccessfulAllocations s) (xNumberOfSuccessfulFrees s) (xBlockAllocatedBit s))
    (rs ++ [r]) (fl ++ [(pxEnd s, 0); (r.1, r.2 - r.1)]).
Proof.
  intros Hch (rs' & r0 & -> & Er0) Hok'. pose proof (region_chain_nodup _ _ _ Hch) as Hnd. pose proof (chain_end_start _ _ _ Hch) as [Hes _].
  destruct Hch as [Hok [_ He] Hseg Hend Hs Hin Hj]. pose proof (ranges_from_snoc _ _ _ (ro_from _ Hok')) as Hsn.
  destruct (ranges_from_elem _ _ r (ro_from _ Hok')) as (_ & _ & _ & Hr & _); [mem|].
  assert (Her : pxEnd s + 16 <= r.1) by (rewrite Er0; apply (proj1 (Forall_forall _ _) Hsn); mem).
  pose proof (proj1 (Forall_forall _ _) (ro_out _ Hok') r ltac:(mem)) as Hro. cbv beta in Hro.
  assert (Hfar : forall a, a ∈ ((xStart, 0) :: fl).*1 -> a <> pxEnd s /\ a <> r.1 /\ a <> r.2).
  { simpl. intros a [->|(c & -> & Hc)%list_elem_of_fmap]%elem_of_cons; [split_and!; try congruence; lia|].
    pose proof (located_facts _ _ _ Hok He (proj1 (Forall_forall _ _) Hin c Hc)). split_and!; lia. }
  split; simpl blocks; simpl pxEnd.
  - done.
  - split; [exists r; split; [mem|done]|]. apply Forall_app. split; [|by constructor; [lia|]]. eapply Forall_impl; [exact Hsn|]. simpl. lia.
  - rewrite app_comm_cons. apply seg_app. exists (pxEnd s). split.
    + eapply seg_agree; [exact Hseg|]. intros a Ha. destruct (Hfar a Ha) as (? & ? & ?). by rewrite !lookup_insert_ne.
    + simpl. split; [done|]. exists r.1. rewrite lookup_insert_eq. split; [done|]. split; [done|]. exists r.2.
      rewrite lookup_insert_ne by lia. by rewrite lookup_insert_eq.
  - rewrite !lookup_insert_ne by lia. by rewrite lookup_insert_eq.
  - apply ssorted_app. split; [done|]. split.
    + repeat constructor; simpl; lia.
    + eapply Forall_impl; [exact Hin|]. intros c Hc. pose proof (located_facts _ _ _ Hok He Hc). repeat constructor; simpl; lia.
  - apply Forall_app. split.
    + eapply Forall_impl; [exact Hin|]. intros c [(r1 & H1 & H2)|(r1 & H1 & -> & H2)]; [left; exists r1; split; [apply elem_of_app; by left|done]|right].
      exists r1. split_and!; [apply elem_of_app; by left|done|lia].
    + constructor; [right; exists r0; split_and!; [mem|by rewrite Er0|lia]|]. constructor; [left; apply usable_whole; [done|mem]|done].
  - intros b c Hb Hc Hc0. rewrite elem_of_app, !elem_of_cons in Hb, Hc. destruct Hc as [Hc|[->|[->|?%elem_of_nil]]]; [|simpl in *; lia| |done].
    + destruct Hb as [Hb|[->|[->|?%elem_of_nil]]]; [by apply Hj| | |done]; pose proof (located_facts _ _ _ Hok He (proj1 (Forall_forall _ _) Hin c Hc)); simpl; lia.
    + destruct Hb as [Hb|[->|[->|?%elem_of_nil]]]; simpl; [|lia|lia|done].
      pose proof (located_facts _ _ _ Hok He (proj1 (Forall_forall _ _) Hin b Hb)). lia.
Qed.

(** The fields that the loop leaves alone. *)
Definition same_counts s s' : Prop :=
  xNumberOfSuccessfulAllocations s' = xNumberOfSuccessfulAllocations s /\ xNumberOfSuccessfulFrees s' = xNumberOfSuccessfulFrees s.

Lemma define_next i r s rs : chain s rs (free_ranges rs) -> (exists rs' r0, rs = rs' ++ [r0] /\ pxEnd s = r0.2) -> i <> 0 ->
  64 <= r.2 < alloc_bit -> r.1 + r.2 < u32_modulus -> 0 < r.1 -> regions_ok (rs ++ [range_of r]) ->
  wp (define_region xStart i r) (fun z s' => z = (range_of r).2 - (range_of r).1 /\ chain s' (rs ++ [range_of r]) (free_ranges (rs ++ [range_of r])) /\
    pxEnd s' = (range_of r).2 /\ same_counts s s') s.
Proof.
  intros Hch Hlast Hi Hsz Hu H0 Hok. rewrite define_region_eq by done. set (g := range_of r) in *. clearbody g.
  pose proof (chain_snoc s rs _ g Hch Hlast Hok) as Hnew. pose proof (chain_end_start _ _ _ Hch) as [_ Hp].
  destruct Hlast as (rs' & r0 & -> & Er0). pose proof (ranges_from_snoc _ _ _ (ro_from _ Hok)) as Hsn.
  assert (Her : pxEnd s + 16 <= g.1) by (rewrite Er0; apply (proj1 (Forall_forall _ _) Hsn); mem).
  destruct (ranges_from_elem _ _ g (ro_from _ Hok)) as (_ & _ & _ & Hg & _); [mem|].
  rewrite free_ranges_snoc, <- Er0. rewrite (proj2 (Z.eqb_neq i 0)) by done. hstep. apply wp_ret. hstep. apply wp_gets. hstep. apply wp_modify. hstep. apply wp_modify.
  hstep. unfold NULL. rewrite (proj2 (Z.eqb_neq (pxEnd s) 0)) by lia. cbn [negb].
  eapply wp_set_block_next.
  { simpl. rewrite !lookup_insert_ne by lia. apply Hch. }
  eapply wp_block_size; [simpl; rewrite lookup_insert_ne by lia; by rewrite lookup_insert_eq|]. done.
Qed.

Lemma define_first r s : 64 <= r.2 < alloc_bit -> r.1 + r.2 < u32_modulus -> 0 < r.1 -> regions_ok [range_of r] -> pxEnd s = NULL ->
  wp (define_region xStart 0 r) (fun z s' => z = (range_of r).2 - (range_of r).1 /\ chain s' [range_of r] (free_ranges [range_of r]) /\
    pxEnd s' = (range_of r).2 /\ same_counts s s') s.
Proof.
  intros Hsz Hu H0 Hok He. rewrite define_region_eq by done. set (g := range_of r) in *. clearbody g.
  destruct (ranges_from_elem _ _ g (ro_from _ Hok)) as (_ & _ & _ & Hg & _); [mem|].
  pose proof (proj1 (Forall_forall _ _) (ro_out _ Hok) g ltac:(mem)) as Hro. cbv beta in Hro.
  hstep. apply wp_modify. hstep. apply wp_gets. hstep. apply wp_modify. hstep. apply wp_modify. hstep. cbn [set_blocks pxEnd]. rewrite He. change (negb (NULL =? NULL)) with false.
  apply wp_ret. eapply wp_block_size; [simpl; by rewrite lookup_insert_eq|]. split; [done|]. split; [|done]. split; simpl.
  - done.
  - split; [exists g; split; [mem|done]|by repeat constructor].
  - split; [done|]. exists g.1. rewrite !lookup_insert_ne by lia. rewrite lookup_insert_eq. split; [done|]. split; [done|]. exists g.2. by rewrite lookup_insert_eq.
  - rewrite lookup_insert_ne by lia. by rewrite lookup_insert_eq.
  - by repeat constructor.
  - constructor; [left; apply usable_whole; [done|mem]|done].
  - intros b c ->%list_elem_of_singleton ->%list_elem_of_singleton _. simpl. lia.
Qed.

Lemma ordered_length lo hs : ordered_from lo hs -> hs <> [] -> lo + 64 * Z.of_nat (length hs) <= u32_modulus.
Proof.
  revert lo. induction hs as [|r hs IH]; intros lo; [done|]. simpl. intros (? & ? & ? & _ & Hr) _. destruct hs as [|r' hs]; [simpl; lia|].
  specialize (IH _ Hr ltac:(done)). simpl in *. lia.
Qed.

Lemma ordered_mid lo hs1 r hs2 : ordered_from lo (hs1 ++ r :: hs2) -> lo <= r.1 /\ 64 <= r.2 < alloc_bit /\ r.1 + r.2 < u32_modulus.
Proof.
  revert lo. induction hs1 as [|r0 hs1 IH]; intros lo; simpl; [tauto|]. intros (? & ? & ? & _ & Hr). destruct (IH _ Hr). lia.
Qed.

Lemma regions_ok_app rs1 rs2 : regions_ok (rs1 ++ rs2) -> regions_ok rs1.
Proof.
  intros [Hf Ht Ho Hs]. apply Forall_app in Ht as [? _], Ho as [? _]. split; try done. revert Hf. generalize 1. clear.
  induction rs1 as [|r rs1 IH]; intros lo; simpl; [done|]. intros (? & ? & ? & ? & ? & Hr). split_and!; auto.
Qed.

Lemma define_loop_wp hs2 : forall hs1 h i tot s x, good_regions ((hs1 ++ [h]) ++ hs2) -> chain s (range_of <$> hs1 ++ [h]) (free_ranges (range_of <$> hs1 ++ [h])) ->
  pxEnd s = (range_of h).2 -> tot = total (free_ranges (range_of <$> hs1 ++ [h])) -> 0 < i -> i + Z.of_nat (length hs2) < u32_modulus ->
  wp (define_regions_loop xStart (hs2 ++ [(x, 0)]) i tot) (fun z s' => z = total (free_ranges (range_of <$> (hs1 ++ [h]) ++ hs2)) /\
    chain s' (range_of <$> (hs1 ++ [h]) ++ hs2) (free_ranges (range_of <$> (hs1 ++ [h]) ++ hs2)) /\ same_counts s s') s.
Proof.
  induction hs2 as [|r hs2 IH]; intros hs1 h i tot s x Hg Hch He -> Hi Hlen; cbn [app define_regions_loop].
  - cbn [snd]. change (0 <? 0) with false. apply wp_ret. by rewrite app_nil_r.
  - destruct (ordered_mid _ _ _ _ (proj1 Hg)) as (R1 & R2 & R3). rewrite (proj2 (Z.ltb_lt 0 _)) by lia.
    assert (Hg' : good_regions (((hs1 ++ [h]) ++ [r]) ++ hs2)) by (by rewrite <- (app_assoc (hs1 ++ [h]))).
    pose proof (good_ranges _ Hg') as Hok. rewrite fmap_app in Hok. apply regions_ok_app in Hok. rewrite fmap_app in Hok.
    hstep. eapply wp_mono; [apply (define_next i r s (range_of <$> hs1 ++ [h])); [done| |lia|done|done|lia|done]|].
    { exists (range_of <$> hs1), (range_of h). by rewrite fmap_app. }
    cbv beta. intros z s' (-> & Hch' & He' & Hc1 & Hc2).
    assert (Etot : total (free_ranges ((range_of <$> hs1 ++ [h]) ++ [range_of r])) =
      total (free_ranges (range_of <$> hs1 ++ [h])) + ((range_of r).2 - (range_of r).1)).
    { rewrite fmap_app. change (range_of <$> [h]) with [range_of h]. rewrite free_ranges_snoc, total_app. simpl. lia. }
    pose proof (chain_total _ _ _ Hch') as Ht. simpl length in Hlen.
    replace ((hs1 ++ [h]) ++ r :: hs2) with (((hs1 ++ [h]) ++ [r]) ++ hs2) by (by rewrite <- app_assoc).
    eapply wp_mono; [apply (IH (hs1 ++ [h]) r (i +u 1)); [done| |done| | |]|].
    + by rewrite fmap_app.
    + rewrite (fmap_app _ (hs1 ++ [h]) [r]). change (range_of <$> [r]) with [range_of r]. rewrite Etot. apply u32_small. rewrite Etot in Ht. u32_lia.
    + rewrite u32_small by u32_lia. lia.
    + rewrite u32_small by u32_lia. lia.
    + cbv beta. intros z s2 (-> & Hch2 & Hc3 & Hc4). split; [done|]. split; [done|]. split; congruence.
Qed.

(** The heap that the regions make, from the statics at boot. *)
Lemma define_wp hs x : good_regions hs -> hs <> [] ->
  wp (vPortDefineHeapRegions xStart (hs ++ [(x, 0)])) (fun _ s' => rep_heap s' (range_of <$> hs) [] (free_ranges (range_of <$> hs))) (heap4_boot xStart).
Proof.
  intros Hg Hne. destruct hs as [|h hs]; [done|]. unfold vPortDefineHeapRegions. hstep. cbn [app define_regions_loop].
  pose proof (ordered_length _ _ (proj1 Hg) ltac:(done)) as Hlen. simpl length in Hlen.
  destruct (ordered_mid _ [] h hs (proj1 Hg)) as (R1 & R2 & R3). rewrite (proj2 (Z.ltb_lt 0 _)) by lia.
  pose proof (good_ranges _ Hg) as Hok. apply (regions_ok_app [range_of h]) in Hok. hstep.
  eapply wp_mono; [apply (define_first h); [done|done|lia|done|done]|]. cbv beta. intros z s1 (-> & Hch & He & _).
  assert (Et : 0 +u ((range_of h).2 - (range_of h).1) = total (free_ranges (range_of <$> [h]))).
  { simpl. rewrite Z.add_0_r. apply u32_small. pose proof (chain_total _ _ _ Hch) as Ht. simpl in Ht. u32_lia. }
  rewrite Et. eapply wp_mono; [apply (define_loop_wp hs [] h (0 +u 1)); [done|done|done|done|done|]|].
  { change (0 +u 1) with 1. u32_lia. }
  cbv beta. intros z s2 (-> & Hch2 & _). apply wp_modify. cbn [app] in *. pose proof (chain_total _ _ _ Hch2) as Ht.
  split; cbn [blocks xFreeBytesRemaining xMinimumEverFreeBytesRemaining xBlockAllocatedBit]; try done; [destruct Hch2; by split|lia].
Qed.
End Rep.
