(* ===== verification/Heap5Props.v ===== *)
(** * Properties of heap_5.c

    The regions become one heap; requests are served first fit, and returned
    blocks are joined; no sequence of calls makes the allocator fault or hand
    out overlapping memory, and each block stays within one region.  The number
    of free blocks that vPortGetHeapStats reports counts the ends of regions
    too. *)

From Stdlib Require Import Sorted.
From S2P Require Import Prelude Config ListSpec Blocks Heap4 Heap4Spec Heap5 Heap5Spec.

Implicit Types (b c : blk) (fl used rs : list blk) (s : heap4).

(** ** Statistics *)

Definition stats_step (a : Z * Z * Z) c : Z * Z * Z :=
  let '(n, mx, mn) := a in (n +u 1, Z.max mx c.2, if c.2 =? 0 then mn else Z.min mn c.2).

Lemma stats_loop_wp c bs : forall fuel p n mx mn s, seg (blocks s) p (c :: bs) (pxEnd s) -> Forall (fun d => d.1 <> pxEnd s) bs ->
  (length bs <= fuel)%nat ->
  wp (heap_stats_loop fuel p n mx mn) (fun r s' => s' = s /\ r = foldl stats_step (n, mx, mn) (c :: bs)) s.
Proof.
  revert c. induction bs as [|d bs IH]; intros c fuel p n mx mn s (-> & q & Hc & Hs) He Hf.
  - simpl in Hs. subst q. destruct fuel; cbn [heap_stats_loop]; (hstep; eapply wp_block_size; [exact Hc|]; hstep; eapply wp_block_next; [exact Hc|];
      hstep; apply wp_gets; cbn [xBlockSize pxNextFreeBlock]; rewrite Z.eqb_refl; apply wp_ret; split; [done|]; simpl;
      destruct (Z.ltb_spec mx c.2), (Z.eqb_spec c.2 0), (Z.ltb_spec c.2 mn); simpl; do 2 f_equal; lia).
  - destruct fuel as [|fuel]; simpl in Hf; [lia|]. apply Forall_cons in He as [Hd He]. pose proof Hs as (-> & _).
    cbn [heap_stats_loop]. hstep. eapply wp_block_size; [exact Hc|]. hstep. eapply wp_block_next; [exact Hc|]. hstep. apply wp_gets.
    cbn [xBlockSize pxNextFreeBlock]. rewrite (proj2 (Z.eqb_neq _ _)) by done. cbn [negb].
    eapply wp_mono; [apply IH; [exact Hs|done|lia]|]. cbv beta. intros r s' [-> ->]. split; [done|].
    change (foldl stats_step (n, mx, mn) (c :: d :: bs)) with (foldl stats_step (stats_step (n, mx, mn) c) (d :: bs)). f_equal. simpl.
    destruct (Z.ltb_spec mx c.2), (Z.eqb_spec c.2 0), (Z.ltb_spec c.2 mn); simpl; do 2 f_equal; lia.
Qed.

Lemma stats_values bs : forall n mx mn, 0 <= n -> n + Z.of_nat (length bs) < u32_modulus ->
  let '(n', mx', mn') := foldl stats_step (n, mx, mn) bs in n' = n + Z.of_nat (length bs) /\
    (mx <= mx' /\ Forall (fun c => c.2 <= mx') bs) /\ (mx' = mx \/ exists c, c ∈ bs /\ c.2 = mx') /\
    (mn' <= mn /\ Forall (fun c => c.2 <> 0 -> mn' <= c.2) bs) /\ (mn' = mn \/ exists c, c ∈ bs /\ c.2 = mn' /\ c.2 <> 0).
Proof.
  induction bs as [|c bs IH]; intros n mx mn Hn Hlen.
  - simpl. split_and!; try constructor; lia.
  - simpl length in Hlen. cbn [foldl stats_step]. rewrite u32_small by u32_lia.
    specialize (IH (n + 1) (Z.max mx c.2) (if c.2 =? 0 then mn else Z.min mn c.2) ltac:(lia) ltac:(lia)).
    destruct (foldl _ _ bs) as [[n' mx'] mn']. destruct IH as (-> & (M1 & M2) & M3 & (N1 & N2) & N3).
    split_and!; [simpl; lia|lia| | | | |].
    + constructor; [lia|done].
    + destruct M3 as [->|(d & Hd & E)]; [|right; exists d; split; [mem|done]].
      destruct (Z.max_spec mx c.2) as [[_ ->]|[_ ->]]; [right; exists c; split; [mem|done]|by left].
    + destruct (c.2 =? 0); lia.
    + constructor; [|done]. intros Hc. rewrite (proj2 (Z.eqb_neq _ _)) in N1 by done. lia.
    + destruct N3 as [->|(d & Hd & E)]; [|right; exists d; split; [mem|done]].
      destruct (Z.eqb_spec c.2 0); [by left|]. destruct (Z.min_spec mn c.2) as [[_ ->]|[_ ->]]; [by left|right; exists c; split_and!; [mem|done|done]].
Qed.

(** ** Histories of requests and returns *)

Section Histories.
Variable xStart : Z.
Notation malloc := (pvPortMalloc_suspended xStart).
Notation free := (vPortFree_body xStart).
Notation rep := (rep_heap xStart).
Notation define := (vPortDefineHeapRegions xStart).

(** The allocator with what its clients hold: pointers, with the sizes they
    asked for. *)
Definition hstate : Type := heap4 * list (Z * Z).

Inductive heap_step : hstate -> hstate -> Prop :=
  | hs_malloc s L x p s' : u32_range x -> malloc x s = Some (p, s') -> heap_step (s, L) (s', if p =? NULL then L else (p, x) :: L)
  | hs_free s L1 p x L2 s' : free p s = Some (tt, s') -> heap_step (s, L1 ++ (p, x) :: L2) (s', L1 ++ L2).

(** The memory of the regions, each up to the header at its end. *)
Definition whole rs : Z := foldr (fun r z => r.2 - r.1 + z) 0 rs.

(** Each pointer is served by a block in use, and no memory is lost. *)
Record held rs (st : hstate) used fl : Prop := {
  hd_rep : rep st.1 rs used fl;
  hd_serves : Forall2 (serves xHeapStructSize) st.2 used;
  hd_total : total (used ++ fl) = whole rs
}.

Lemma request_malloc_size x fl b fl' : request_malloc x fl = Some (b, fl') -> 0 < x /\ x + 16 <= b.2 /\ b.2 + total fl' = total fl.
Proof.
  unfold request_malloc. destruct (Z.ltb_spec 0 x); cbn [andb]; [|done]. destruct (_ <? alloc_bit); [|done].
  destruct (span _ fl) as [p1 [|c p2]] eqn:E; [done|]. apply span_app in E as (-> & _ & Hc%Z.ltb_ge). intros [= Et]. split; [done|].
  pose proof (Z.div_mod (x + 31) 16 ltac:(lia)). pose proof (Z.mod_pos_bound (x + 31) 16 ltac:(lia)).
  rewrite total_app. simpl total. unfold take_part in Et. destruct (_ <? _); injection Et as <- <-; cbn [fst snd]; rewrite ?insert_merge_total, total_app; simpl; lia.
Qed.

Lemma region_request_step rs s L used fl x : held rs (s, L) used fl -> u32_range x ->
  wp (malloc x) (fun p s' => exists used' fl', held rs (s', if p =? NULL then L else (p, x) :: L) used' fl') s.
Proof.
  intros [Hr Hp Ht] Hx. eapply wp_mono; [by apply (region_request_wp xStart s rs used fl x)|]. cbv beta. intros p s'.
  destruct (request_malloc x fl) as [[b fl']|] eqn:E.
  - intros [-> Hr']. exists (b :: used), fl'. pose proof (rh_in _ _ _ _ _ Hr') as [Hb _]%Forall_cons.
    pose proof (rh_chain _ _ _ _ _ Hr') as [Hok [_ He] _ _ _ _ _]. pose proof (usable_facts _ _ _ _ Hok He Hb).
    rewrite (proj2 (Z.eqb_neq _ _)) by (rewrite xHeapStructSize_16; unfold NULL; lia). apply request_malloc_size in E as (? & ? & E).
    split; [done| |]; [by constructor|]. rewrite !total_app in *. simpl. lia.
  - intros [-> ->]. by exists used, fl.
Qed.

Lemma region_return_step rs s L1 p x L2 used fl : held rs (s, L1 ++ (p, x) :: L2) used fl ->
  wp (free p) (fun _ s' => exists used' fl', held rs (s', L1 ++ L2) used' fl') s.
Proof.
  intros [Hr (u1 & u' & H1 & (b & u2 & Hb & H2 & ->)%Forall2_cons_inv_l & ->)%Forall2_app_inv_l Ht]. destruct Hb as [Hb _]. cbn [fst snd] in *. subst p.
  eapply wp_mono; [by apply region_return_wp|]. cbv beta. intros _ s' Hr'. exists (u1 ++ u2), (insert_merge b fl). split; [done| |]; [by apply Forall2_app|].
  cbn [fst snd] in Ht. rewrite !total_app in *. rewrite insert_merge_total. simpl in Ht. lia.
Qed.

Lemma step_held rs st st' used fl : held rs st used fl -> heap_step st st' -> exists used' fl', held rs st' used' fl'.
Proof.
  intros Hh Hs. destruct Hs as [s L x p s' Hx E|s L1 p x L2 s' E].
  - exact (wp_det _ _ _ _ _ (region_request_step _ _ _ _ _ _ Hh Hx) E).
  - exact (wp_det _ _ _ _ _ (region_return_step _ _ _ _ _ _ _ _ Hh) E).
Qed.

Lemma steps_held rs st st' used fl : held rs st used fl -> rtc heap_step st st' -> exists used' fl', held rs st' used' fl'.
Proof.
  intros Hh Hst. revert used fl Hh. induction Hst as [st|st1 st2 st3 H1 _ IH]; intros used fl Hh; [by exists used, fl|].
  destruct (step_held _ _ _ _ _ Hh H1) as (u2 & f2 & Hh2). by eapply IH.
Qed.

Lemma total_free_ranges rs : total (free_ranges rs) = whole rs.
Proof. induction rs as [|r rs IH]; [done|]. unfold whole in *. cbn [free_ranges foldr]. rewrite <- IH. destruct rs; simpl; lia. Qed.

(** The regions become the heap: all their memory, less what alignment and the
    header at each end take, is free. *)
Theorem heap5_regions_become_heap hs x : good_regions xStart hs -> hs <> [] ->
  wp (define (hs ++ [(x, 0)])) (fun _ s => rep s (range_of <$> hs) [] (free_ranges (range_of <$> hs)) /\
    xFreeBytesRemaining s = foldr (fun r z => align_down (r.1 + r.2 - 16) - align_up r.1 + z) 0 hs) (heap4_boot xStart).
Proof.
  intros Hg Hne. eapply wp_mono; [by apply define_wp|]. cbv beta. intros _ s Hr. split; [done|]. rewrite (rh_bytes _ _ _ _ _ Hr). clear.
  rewrite total_free_ranges. unfold whole. induction hs as [|r hs IH]; [done|]. simpl. by rewrite <- IH.
Qed.

(** pvPortMalloc takes the first block in order of address that is large enough,
    and returns NULL, leaving everything as it was, only if there is none or the
    request is 0 or larger than half the address space. *)
Theorem heap5_malloc_first_fit s rs used fl x : rep s rs used fl -> u32_range x ->
  wp (malloc x) (fun p s' =>
    (p = NULL /\ s' = s /\ (x = 0 \/ alloc_bit <= x \/ forall c, c ∈ fl -> c.2 < 16 * ((x + 31) / 16))) \/
    exists b p1 p2 b' fl', fl = p1 ++ b :: p2 /\ p = b.1 + xHeapStructSize /\ 16 * ((x + 31) / 16) <= b.2 /\
      (forall c, c ∈ p1 -> c.2 < 16 * ((x + 31) / 16)) /\ (b', fl') = take_part (16 * ((x + 31) / 16)) b (p1 ++ p2) /\ rep s' rs (b' :: used) fl') s.
Proof.
  intros Hr Hx. eapply wp_mono; [by apply (region_request_wp xStart s rs used fl x)|]. cbv beta. intros p s'. unfold request_malloc.
  destruct (Z.ltb_spec 0 x) as [H0|H0]; cbn [andb]; [|intros [-> ->]; left; unfold u32_range in Hx; split_and!; [done|done|lia]].
  destruct (Z.ltb_spec x alloc_bit) as [Hlt|Hge]; [|intros [-> ->]; left; split_and!; [done|done|lia]].
  set (w := 16 * ((x + 31) / 16)). destruct (span _ fl) as [p1 p2] eqn:E. apply span_app in E as (-> & H1 & H2).
  assert (Hp1 : forall c, c ∈ p1 -> c.2 < w) by (intros c Hc; by apply (proj1 (Forall_forall _ _) H1), Z.ltb_lt in Hc).
  destruct p2 as [|b p2].
  - intros [-> ->]. left. split_and!; [done|done|]. do 2 right. intros c. rewrite app_nil_r. apply Hp1.
  - apply Z.ltb_ge in H2. assert (E1 : (take_part w b (p1 ++ p2)).1.1 = b.1) by (unfold take_part; by destruct (_ <? _)).
    destruct (take_part w b (p1 ++ p2)) as [b' fl'] eqn:Et. simpl in E1. intros [-> Hr']. right. exists b, p1, p2, b', fl'. rewrite E1. by split_and!.
Qed.

(** C30: no sequence of requests and of returns of live pointers, once the regions
    have been handed over, makes the allocator fault.  The blocks in use, whose
    headers are in memory, are those that serve the live pointers, each with room
    for what was asked; the free ones are those of the list in memory.  No two
    blocks overlap, those in use are aligned and lie within one region, free
    blocks never touch, no memory is lost, and the count of free bytes is exact. *)
Theorem heap5_history_safe hs e s st x p : good_regions xStart hs -> hs <> [] -> define (hs ++ [(e, 0)]) (heap4_boot xStart) = Some (tt, s) ->
  rtc heap_step (s, []) st -> u32_range x ->
  is_Some (malloc x st.1) /\ (p ∈ st.2 -> is_Some (free p.1 st.1)) /\
  exists used fl, Forall2 (serves xHeapStructSize) st.2 used /\
    Forall (fun b => blocks st.1 !! b.1 = Some (mkBlock NULL (Z.lor b.2 (xBlockAllocatedBit st.1)))) used /\
    seg (blocks st.1) xStart ((xStart, 0) :: fl) (pxEnd st.1) /\
    all_apart used /\ Forall (fun b => Forall (apart b) fl) used /\ Forall (usable (range_of <$> hs)) used /\
    by_addr fl /\ joined fl /\ total (used ++ fl) = whole (range_of <$> hs) /\ total fl = xFreeBytesRemaining st.1.
Proof.
  intros Hg Hne Hdef Hst Hx. pose proof (define_wp xStart hs e Hg Hne) as (u & s0 & E & Hr0). rewrite Hdef in E. injection E as <- <-.
  destruct (steps_held (range_of <$> hs) (s, []) st [] (free_ranges (range_of <$> hs))) as (used & fl & Hh); [split; [done|done|apply total_free_ranges]|done|].
  destruct st as [s1 L]. cbn [fst snd] in *. split; [|split].
  - destruct (region_request_step _ _ _ _ _ _ Hh Hx) as (r & s' & E & _). eauto.
  - intros Hp. apply list_elem_of_split in Hp as (L1 & L2 & ->). destruct p as [p y].
    destruct (region_return_step _ _ _ _ _ _ _ _ Hh) as (r & s' & E & _). eauto.
  - exists used, fl. destruct Hh as [[[_ _ Hseg _ Hs _ Hj] Hum Hui Hua Huf Hbit Hby _] Hp Ht]. cbn [fst snd] in *. rewrite Hbit. by split_and!.
Qed.

(** C34: vPortGetHeapStats reports the sizes of the largest and the smallest free
    block, but as the number of free blocks that of the entries of the list, so
    that the ends of regions that are still in it count as blocks. *)
Theorem heap5_stats_count_region_ends s rs used fl : rep s rs used fl -> fl <> [] ->
  wp (vPortGetHeapStats xStart) (fun r s' => s' = s /\
    xNumberOfFreeBlocks r = Z.of_nat (length (filter (fun c => 0 < c.2) fl)) + Z.of_nat (length (filter (fun c => c.2 = 0) fl)) /\
    xAvailableHeapSpaceInBytes r = total fl /\
    (forall c, c ∈ fl -> c.2 <= xSizeOfLargestFreeBlockInBytes r /\ (0 < c.2 -> xSizeOfSmallestFreeBlockInBytes r <= c.2)) /\
    (exists c, c ∈ fl /\ c.2 = xSizeOfLargestFreeBlockInBytes r) /\
    (forall c, c ∈ fl -> 0 < c.2 -> exists d, d ∈ fl /\ 0 < d.2 /\ d.2 = xSizeOfSmallestFreeBlockInBytes r)) s.
Proof.
  intros [Hch _ _ _ _ _ Hby _] Hne. pose proof Hch as [Hok [_ He] (_ & n & Hst & Hseg) _ Hs Hin _].
  destruct fl as [|c fl]; [done|]. assert (Hfacts : forall d, d ∈ c :: fl -> 0 < d.1 < pxEnd s /\ 0 <= d.2 < alloc_bit).
  { intros d Hd. pose proof (located_facts _ _ _ _ Hok He (proj1 (Forall_forall _ _) Hin d Hd)). lia. }
  unfold vPortGetHeapStats. hstep. eapply wp_block_next; [exact Hst|]. cbn [pxNextFreeBlock]. pose proof Hseg as (-> & _).
  rewrite (proj2 (Z.eqb_neq _ _)) by (destruct (Hfacts c ltac:(mem)); unfold NULL; lia). cbn [negb]. hstep. hstep. apply wp_gets.
  pose proof (seg_fuel _ _ _ _ Hseg (sorted_addrs _ Hs)) as Hfuel.
  eapply wp_mono; [apply (stats_loop_wp c fl); [done| |simpl in Hfuel; lia]|].
  { apply Forall_forall. intros d Hd. destruct (Hfacts d ltac:(mem)). lia. }
  cbv beta. intros r s' [-> ->].
  assert (Hlen : Z.of_nat (length (c :: fl)) < u32_modulus).
  { destruct (chain_end_start _ _ _ _ Hch) as [_ Hp]. destruct (ch_last _ _ _ _ Hch) as [(r & Hr & Er) _].
    pose proof (proj1 (Forall_forall _ _) (ro_top _ _ Hok) r Hr) as Htop. cbv beta in Htop.
    pose proof (sorted_length (c :: fl) 0 (pxEnd s) Hs ltac:(lia)) as Hl. assert (0 + Z.of_nat (length (c :: fl)) <= pxEnd s); [|lia]. apply Hl.
    apply Forall_forall. intros d Hd. destruct (Hfacts d Hd). lia. }
  pose proof (stats_values (c :: fl) 0 0 portMAX_DELAY ltac:(lia) ltac:(lia)) as Hv.
  destruct (foldl stats_step (0, 0, portMAX_DELAY) (c :: fl)) as [[n' mx] mn]. destruct Hv as (-> & (_ & M2) & M3 & (_ & N2) & N3).
  hstep. apply wp_get. hstep. split; [done|]. cbn [xNumberOfFreeBlocks xAvailableHeapSpaceInBytes xSizeOfLargestFreeBlockInBytes xSizeOfSmallestFreeBlockInBytes].
  rewrite Forall_forall in M2, N2. split; [|split; [exact Hby|split_and!]].
  - clear -Hfacts. rewrite Z.add_0_l. revert Hfacts. generalize (c :: fl). intros l Hl. induction l as [|d l IH]; [done|].
    rewrite !filter_cons. destruct (Hl d ltac:(mem)) as [_ Hd]. specialize (IH ltac:(intros d' Hd'; apply Hl; mem)).
    destruct (decide (0 < d.2)), (decide (d.2 = 0)); simpl length; lia.
  - intros d Hd. split; [by apply M2|]. intros H0. apply N2; [done|lia].
  - destruct M3 as [->|?]; [|done]. exists c. split; [mem|]. pose proof (M2 c ltac:(mem)). destruct (Hfacts c ltac:(mem)). lia.
  - intros d Hd H0. destruct N3 as [->|(d' & Hd' & <- & Hn)].
    + pose proof (N2 d Hd ltac:(lia)). destruct (Hfacts d Hd). unfold portMAX_DELAY, alloc_bit in *. lia.
    + exists d'. destruct (Hfacts d' Hd'). split_and!; [done|lia|done].
Qed.
End Histories.

(** ** Instances: two regions, of 4096 and of 8192 bytes *)

Definition demo_regions : list blk := [(2147483648, 4096); (2415919104, 8192)].
Definition demo_free : list blk := [(2147483648, 4080); (2147487728, 0); (2415919104, 8176)].
Notation demo_ranges := (range_of <$> demo_regions).

Lemma demo_good : good_regions 4096 demo_regions.
Proof. split; [|by split]. cbn [ordered_from demo_regions fst snd]. unfold alloc_bit, u32_modulus. split_and!; try lia; done. Qed.

Lemma demo_defined : exists s, vPortDefineHeapRegions 4096 (demo_regions ++ [(0, 0)]) (heap4_boot 4096) = Some (tt, s) /\
  rep_heap 4096 s demo_ranges [] demo_free.
Proof. destruct (define_wp 4096 demo_regions 0 demo_good) as ([] & s & E & Hr); [done|]. by exists s. Qed.

(** A request for 5000 bytes is served from the second region. *)
Lemma region_demo_request : exists s s1, vPortDefineHeapRegions 4096 (demo_regions ++ [(0, 0)]) (heap4_boot 4096) = Some (tt, s) /\
  heap_step 4096 (s, []) (s1, [(2415919120, 5000)]).
Proof.
  destruct demo_defined as (s & E & Hr). destruct (region_request_wp 4096 s _ _ _ 5000 Hr) as (p & s1 & E1 & Hreq).
  - unfold u32_range, u32_modulus. lia.
  - exists s, s1. split; [done|]. destruct Hreq as [Hp _]. cbn in Hp. subst p.
    apply (hs_malloc 4096 s [] 5000 2415919120); [unfold u32_range, u32_modulus; lia|done].
Qed.

Lemma heap5_regions_become_heap_witness :
  wp (vPortDefineHeapRegions 4096 (demo_regions ++ [(0, 0)])) (fun _ s => xFreeBytesRemaining s = 12256) (heap4_boot 4096).
Proof.
  eapply wp_mono; [apply (heap5_regions_become_heap 4096 demo_regions 0 demo_good); discriminate|].
  intros u s [_ ->]. reflexivity.
Defined.

Lemma heap5_malloc_first_fit_witness : exists s, rep_heap 4096 s demo_ranges [] demo_free /\
  wp (pvPortMalloc_suspended 4096 5000) (fun p _ => p = 2415919120) s.
Proof.
  destruct demo_defined as (s & _ & Hr). exists s. split; [exact Hr|].
  eapply wp_mono; [apply (heap5_malloc_first_fit 4096 s _ _ _ 5000 Hr); unfold u32_range, u32_modulus; lia|].
  intros p s' [(_ & _ & [H0|[H0|Hno]])|(b & p1 & p2 & b' & fl' & E & -> & Hb & Hno & _)].
  - discriminate.
  - unfold alloc_bit in H0. lia.
  - specialize (Hno (2415919104, 8176) ltac:(unfold demo_free; mem)). vm_compute in Hno. discriminate.
  - destruct p1 as [|c1 [|c2 [|c3 p1]]]; [injection E as <- _; exfalso; apply Hb; reflexivity|injection E as _ <- _; exfalso; apply Hb; reflexivity| |].
    + injection E as _ _ <- _. reflexivity.
    + injection E as _ _ <- _. specialize (Hno (2415919104, 8176) ltac:(mem)). vm_compute in Hno. discriminate.
Defined.

Lemma heap5_history_safe_witness : exists s, is_Some (vPortFree_body 4096 2415919120 s).
Proof.
  destruct region_demo_request as (s & s1 & E & Hst). exists s1.
  apply (heap5_history_safe 4096 demo_regions 0 s (s1, [(2415919120, 5000)]) 1 (2415919120, 5000) demo_good); [discriminate|exact E|apply rtc_once; exact Hst|unfold u32_range, u32_modulus; lia|simpl; left].
Defined.

(** Three blocks are reported when two are free. *)
Lemma heap5_stats_count_region_ends_witness : exists s, rep_heap 4096 s demo_ranges [] demo_free /\
  wp (vPortGetHeapStats 4096) (fun r _ => xNumberOfFreeBlocks r = 3 /\ xAvailableHeapSpaceInBytes r = 12256) s.
Proof.
  destruct demo_defined as (s & _ & Hr). exists s. split; [exact Hr|].
  eapply wp_mono; [apply (heap5_stats_count_region_ends 4096 s _ _ _ Hr); discriminate|].
  intros r s' (_ & -> & -> & _). split; vm_compute; reflexivity.
Defined.
