(* ===== verification/KernelRefine.v ===== *)
(** * The kernel on pointer lists simulates the kernel on abstract lists

    The kernel reaches its lists only through [ListOps].  So whatever refines
    the lists refines the kernel: every operation that succeeds on the
    abstract lists does the same, with the same result, on the pointer
    structures of list.c.  The theorems about scheduling and queues are
    proved on the abstract lists and hold of the pointer structures by
    [wp_transfer]. *)

From S2P Require Import Prelude Simulation Config ListC ListSpec ListRefine Heap4 Kernel Tasks TaskApi TaskEvents Queue.

Section KernelSim.
Context {H1 H2 : Type} `{!ListOps item list_id H1, !ListOps item list_id H2}.
Context (R : H1 -> H2 -> Prop) `{!ListRefines R}.
Variables ucHeap xStart : Z.

Definition RK (k1 : Kernel H1) (k2 : Kernel H2) : Prop :=
  R (k_lists k1) (k_lists k2) /\ k_vars k1 = k_vars k2.

Lemma sim_rdv {A} (f : Vars -> A) : sim RK (rdv f) (rdv f).
Proof. intros k1 k2 a k2' [HR E] [= <- <-]. exists k1. unfold rdv, gets. by rewrite E. Qed.

Lemma sim_wrv g : sim RK (wrv g) (wrv g).
Proof.
  intros k1 k2 a k2' [HR E] [= <- <-]. eexists. split; [done|]. split; simpl; [done|by rewrite E].
Qed.

Lemma sim_onlist {A} (m1 : M H1 A) (m2 : M H2 A) : sim R m1 m2 -> sim RK (onlist m1) (onlist m2).
Proof.
  intros Hm k1 k2 a k2' [HR E]. unfold onlist. destruct (m2 (k_lists k2)) as [[x h]|] eqn:E2; [|done].
  intros [= <- <-]. destruct (Hm _ _ _ _ HR E2) as (h1 & E1 & HR'). rewrite E1.
  eexists. split; [done|]. done.
Qed.

Lemma sim_onheap {A} (m : M heap4 A) : sim RK (onheap m) (onheap m).
Proof.
  intros k1 k2 a k2' [HR E]. unfold onheap. rewrite <- E.
  destruct (m (heap (k_vars k1))) as [[x h]|]; [|done]. intros [= <- <-]. eexists. split; [done|]. done.
Qed.

Lemma sim_rd_tcb {A} t (f : TCB_t -> A) : sim RK (rd_tcb t f) (rd_tcb t f).
Proof.
  intros k1 k2 a k2' [HR E]. unfold rd_tcb. rewrite E. destruct (tcbs (k_vars k2) !! t); [|done].
  intros [= <- <-]. by exists k1.
Qed.

Lemma sim_rd_queue {A} q (f : Queue_t -> A) : sim RK (rd_queue q f) (rd_queue q f).
Proof.
  intros k1 k2 a k2' [HR E]. unfold rd_queue. rewrite E. destruct (queues (k_vars k2) !! q); [|done].
  intros [= <- <-]. by exists k1.
Qed.

#[local] Hint Resolve sim_rdv sim_wrv sim_onheap sim_rd_tcb sim_rd_queue : sim.
#[local] Hint Resolve sim_onlist lr_initialise lr_initialise_item lr_insert_end lr_insert lr_remove
  lr_set_owner lr_get_owner lr_set_value lr_get_value lr_container lr_length lr_head_value
  lr_head_owner lr_next_owner lr_alloc_item lr_free_item lr_free_list : sim.

Lemma sim_wr_tcb t g : sim RK (wr_tcb t g) (wr_tcb t g).
Proof. unfold wr_tcb. solve_sim. Qed.
Lemma sim_wr_queue q g : sim RK (wr_queue q g) (wr_queue q g).
Proof. unfold wr_queue. solve_sim. Qed.
#[local] Hint Resolve sim_wr_tcb sim_wr_queue : sim.

Lemma sim_ready_list p : sim RK (ready_list p) (ready_list p).
Proof. unfold ready_list. solve_sim. Qed.
Lemma sim_listREMOVE i : sim RK (listREMOVE i) (listREMOVE i).
Proof. unfold listREMOVE. solve_sim. Qed.
Lemma sim_listIS_EMPTY l : sim RK (listIS_EMPTY l) (listIS_EMPTY l).
Proof. unfold listIS_EMPTY. solve_sim. Qed.
Lemma sim_contained l i : sim RK (listIS_CONTAINED_WITHIN l i) (listIS_CONTAINED_WITHIN l i).
Proof. unfold listIS_CONTAINED_WITHIN. solve_sim. Qed.
#[local] Hint Resolve sim_ready_list sim_listREMOVE sim_listIS_EMPTY sim_contained : sim.
Lemma sim_portRESET p : sim RK (portRESET_READY_PRIORITY p) (portRESET_READY_PRIORITY p).
Proof. unfold portRESET_READY_PRIORITY. solve_sim. Qed.
Lemma sim_record p : sim RK (taskRECORD_READY_PRIORITY p) (taskRECORD_READY_PRIORITY p).
Proof. unfold taskRECORD_READY_PRIORITY. solve_sim. Qed.
#[local] Hint Resolve sim_portRESET sim_record : sim.
Lemma sim_taskRESET p : sim RK (taskRESET_READY_PRIORITY p) (taskRESET_READY_PRIORITY p).
Proof. unfold taskRESET_READY_PRIORITY. solve_sim. Qed.
Lemma sim_select : sim RK taskSELECT_HIGHEST_PRIORITY_TASK taskSELECT_HIGHEST_PRIORITY_TASK.
Proof. unfold taskSELECT_HIGHEST_PRIORITY_TASK. solve_sim. Qed.
Lemma sim_add t : sim RK (prvAddTaskToReadyList t) (prvAddTaskToReadyList t).
Proof. unfold prvAddTaskToReadyList. solve_sim. Qed.
Lemma sim_reset_next : sim RK prvResetNextTaskUnblockTime prvResetNextTaskUnblockTime.
Proof. unfold prvResetNextTaskUnblockTime. solve_sim. Qed.
#[local] Hint Resolve sim_taskRESET sim_select sim_add sim_reset_next : sim.
Lemma sim_switch_lists : sim RK taskSWITCH_DELAYED_LISTS taskSWITCH_DELAYED_LISTS.
Proof. unfold taskSWITCH_DELAYED_LISTS. solve_sim. Qed.
Lemma sim_handle x : sim RK (prvGetTCBFromHandle x) (prvGetTCBFromHandle x).
Proof. unfold prvGetTCBFromHandle. solve_sim. Qed.
Lemma sim_switch : sim RK vTaskSwitchContext vTaskSwitchContext.
Proof. unfold vTaskSwitchContext. solve_sim. Qed.
#[local] Hint Resolve sim_switch_lists sim_handle sim_switch : sim.
Lemma sim_yield : sim RK portYIELD portYIELD.
Proof. unfold portYIELD. solve_sim. Qed.
Lemma sim_add_delayed x c : sim RK (prvAddCurrentTaskToDelayedList x c) (prvAddCurrentTaskToDelayedList x c).
Proof. unfold prvAddCurrentTaskToDelayedList. solve_sim. Qed.
#[local] Hint Resolve sim_yield sim_add_delayed : sim.
Lemma sim_wake_loop n t s : sim RK (wake_loop n t s) (wake_loop n t s).
Proof. revert s. induction n as [|n IH]; intros s; simpl; solve_sim. Qed.
#[local] Hint Resolve sim_wake_loop : sim.
Lemma sim_tick_hook : sim RK vApplicationTickHook vApplicationTickHook.
Proof. unfold vApplicationTickHook. solve_sim. Qed.
#[local] Hint Resolve sim_tick_hook : sim.
Lemma sim_tick : sim RK xTaskIncrementTick xTaskIncrementTick.
Proof. unfold xTaskIncrementTick. solve_sim. Qed.
#[local] Hint Resolve sim_tick : sim.
Lemma sim_end_switching b : sim RK (portEND_SWITCHING_ISR b) (portEND_SWITCHING_ISR b).
Proof. unfold portEND_SWITCHING_ISR. solve_sim. Qed.
Lemma sim_timer_interrupt : sim RK timer_interrupt timer_interrupt.
Proof. unfold timer_interrupt. solve_sim. Qed.
Lemma sim_suspend_all : sim RK vTaskSuspendAll vTaskSuspendAll.
Proof. unfold vTaskSuspendAll. solve_sim. Qed.
Lemma sim_pending_loop n t : sim RK (pending_ready_loop n t) (pending_ready_loop n t).
Proof. revert t. induction n as [|n IH]; intros s; simpl; solve_sim. Qed.
Lemma sim_pended_loop n : sim RK (pended_ticks_loop n) (pended_ticks_loop n).
Proof. induction n as [|n IH]; simpl; solve_sim. Qed.
#[local] Hint Resolve sim_timer_interrupt sim_suspend_all sim_pending_loop sim_pended_loop : sim.
Lemma sim_resume_all : sim RK xTaskResumeAll xTaskResumeAll.
Proof. unfold xTaskResumeAll. solve_sim. Qed.
Lemma sim_malloc_failed : sim RK vApplicationMallocFailedHook vApplicationMallocFailedHook.
Proof. unfold vApplicationMallocFailedHook. solve_sim. Qed.
#[local] Hint Resolve sim_resume_all sim_malloc_failed : sim.
Lemma psim_malloc n : psim RK (pvPortMalloc ucHeap xStart n) (pvPortMalloc ucHeap xStart n).
Proof. unfold pvPortMalloc. solve_sim. Qed.
Lemma psim_free p : psim RK (vPortFree xStart p) (vPortFree xStart p).
Proof. unfold vPortFree. solve_sim. Qed.
#[local] Hint Resolve psim_malloc psim_free : sim.

(** ** TaskApi *)

Lemma sim_prvInitialiseNewTask x0 x1 x2 x3 x4 : sim RK (prvInitialiseNewTask x0 x1 x2 x3 x4) (prvInitialiseNewTask x0 x1 x2 x3 x4).
Proof. unfold prvInitialiseNewTask. solve_sim. Qed.
#[local] Hint Resolve sim_prvInitialiseNewTask : sim.
Lemma sim_init_ready_lists x0 x1 : sim RK (init_ready_lists x0 x1) (init_ready_lists x0 x1).
Proof. revert x1. induction x0 as [|x0 IH]; intros x1; simpl; solve_sim. Qed.
#[local] Hint Resolve sim_init_ready_lists : sim.
Lemma sim_prvInitialiseTaskLists : sim RK prvInitialiseTaskLists prvInitialiseTaskLists.
Proof. unfold prvInitialiseTaskLists. solve_sim. Qed.
#[local] Hint Resolve sim_prvInitialiseTaskLists : sim.
Lemma sim_add_new_task x0 : sim RK (add_new_task x0) (add_new_task x0).
Proof. unfold add_new_task. solve_sim. Qed.
#[local] Hint Resolve sim_add_new_task : sim.
Lemma sim_yield_to_new_task x0 : sim RK (yield_to_new_task x0) (yield_to_new_task x0).
Proof. unfold yield_to_new_task. solve_sim. Qed.
#[local] Hint Resolve sim_yield_to_new_task : sim.
Lemma psim_prvAddNewTaskToReadyList x0 : psim RK (prvAddNewTaskToReadyList x0) (prvAddNewTaskToReadyList x0).
Proof. unfold prvAddNewTaskToReadyList. solve_sim. Qed.
#[local] Hint Resolve psim_prvAddNewTaskToReadyList : sim.
Lemma psim_xTaskCreate x0 x1 x2 x3 : psim RK (xTaskCreate ucHeap xStart x0 x1 x2 x3) (xTaskCreate ucHeap xStart x0 x1 x2 x3).
Proof. unfold xTaskCreate. solve_sim. Qed.
#[local] Hint Resolve psim_xTaskCreate : sim.
Lemma sim_forget_tcb x0 : sim RK (forget_tcb x0) (forget_tcb x0).
Proof. unfold forget_tcb. solve_sim. Qed.
#[local] Hint Resolve sim_forget_tcb : sim.
Lemma psim_prvDeleteTCB x0 : psim RK (prvDeleteTCB xStart x0) (prvDeleteTCB xStart x0).
Proof. unfold prvDeleteTCB. solve_sim. Qed.
#[local] Hint Resolve psim_prvDeleteTCB : sim.
Lemma sim_delete_unlink x0 : sim RK (delete_unlink x0) (delete_unlink x0).
Proof. unfold delete_unlink. solve_sim. Qed.
#[local] Hint Resolve sim_delete_unlink : sim.
Lemma sim_delete_yield x0 : sim RK (delete_yield x0) (delete_yield x0).
Proof. unfold delete_yield. solve_sim. Qed.
#[local] Hint Resolve sim_delete_yield : sim.
Lemma sim_delete_critical x0 : sim RK (delete_critical xStart x0) (delete_critical xStart x0).
Proof. unfold delete_critical. repeat sim_step; try solve [eauto with sim]; apply psim_run, psim_prvDeleteTCB. Qed.
#[local] Hint Resolve sim_delete_critical : sim.
Lemma psim_vTaskDelete x0 : psim RK (vTaskDelete xStart x0) (vTaskDelete xStart x0).
Proof. unfold vTaskDelete. solve_sim. Qed.
#[local] Hint Resolve psim_vTaskDelete : sim.
Lemma sim_take_terminated : sim RK take_terminated take_terminated.
Proof. unfold take_terminated. solve_sim. Qed.
#[local] Hint Resolve sim_take_terminated : sim.
Lemma psim_prvCheckTasksWaitingTermination_iter x0 : psim RK (prvCheckTasksWaitingTermination_iter xStart x0) (prvCheckTasksWaitingTermination_iter xStart x0).
Proof. unfold prvCheckTasksWaitingTermination_iter. solve_sim. Qed.
#[local] Hint Resolve psim_prvCheckTasksWaitingTermination_iter : sim.
Lemma psim_prvIdleTask_round x0 : psim RK (prvIdleTask_round xStart x0) (prvIdleTask_round xStart x0).
Proof. unfold prvIdleTask_round. solve_sim. Qed.
#[local] Hint Resolve psim_prvIdleTask_round : sim.
Lemma psim_vTaskDelay x0 : psim RK (vTaskDelay x0) (vTaskDelay x0).
Proof. unfold vTaskDelay. solve_sim. Qed.
#[local] Hint Resolve psim_vTaskDelay : sim.
Lemma sim_delay_until_suspended x0 x1 : sim RK (delay_until_suspended x0 x1) (delay_until_suspended x0 x1).
Proof. unfold delay_until_suspended. solve_sim. Qed.
#[local] Hint Resolve sim_delay_until_suspended : sim.
Lemma psim_xTaskDelayUntil x0 x1 : psim RK (xTaskDelayUntil x0 x1) (xTaskDelayUntil x0 x1).
Proof. unfold xTaskDelayUntil. solve_sim. Qed.
#[local] Hint Resolve psim_xTaskDelayUntil : sim.
Lemma sim_eTaskGetState x0 : sim RK (eTaskGetState x0) (eTaskGetState x0).
Proof. unfold eTaskGetState. solve_sim. Qed.
#[local] Hint Resolve sim_eTaskGetState : sim.
Lemma sim_move_ready_task x0 x1 x2 : sim RK (move_ready_task x0 x1 x2) (move_ready_task x0 x1 x2).
Proof. unfold move_ready_task. solve_sim. Qed.
#[local] Hint Resolve sim_move_ready_task : sim.
Lemma sim_set_event_value x0 x1 : sim RK (set_event_value x0 x1) (set_event_value x0 x1).
Proof. unfold set_event_value. solve_sim. Qed.
#[local] Hint Resolve sim_set_event_value : sim.
Lemma sim_vTaskPrioritySet x0 x1 : sim RK (vTaskPrioritySet x0 x1) (vTaskPrioritySet x0 x1).
Proof. unfold vTaskPrioritySet. solve_sim. Qed.
#[local] Hint Resolve sim_vTaskPrioritySet : sim.
Lemma sim_suspend_unlink x0 : sim RK (suspend_unlink x0) (suspend_unlink x0).
Proof. unfold suspend_unlink. solve_sim. Qed.
#[local] Hint Resolve sim_suspend_unlink : sim.
Lemma sim_suspend_reset : sim RK suspend_reset suspend_reset.
Proof. unfold suspend_reset. solve_sim. Qed.
#[local] Hint Resolve sim_suspend_reset : sim.
Lemma sim_suspend_switch x0 : sim RK (suspend_switch x0) (suspend_switch x0).
Proof. unfold suspend_switch. solve_sim. Qed.
#[local] Hint Resolve sim_suspend_switch : sim.
Lemma psim_vTaskSuspend x0 : psim RK (vTaskSuspend x0) (vTaskSuspend x0).
Proof. unfold vTaskSuspend. solve_sim. Qed.
#[local] Hint Resolve psim_vTaskSuspend : sim.
Lemma sim_prvTaskIsTaskSuspended x0 : sim RK (prvTaskIsTaskSuspended x0) (prvTaskIsTaskSuspended x0).
Proof. unfold prvTaskIsTaskSuspended. solve_sim. Qed.
#[local] Hint Resolve sim_prvTaskIsTaskSuspended : sim.
Lemma sim_vTaskResume x0 : sim RK (vTaskResume x0) (vTaskResume x0).
Proof. unfold vTaskResume. solve_sim. Qed.
#[local] Hint Resolve sim_vTaskResume : sim.
Lemma sim_xTaskResumeFromISR x0 : sim RK (xTaskResumeFromISR x0) (xTaskResumeFromISR x0).
Proof. unfold xTaskResumeFromISR. solve_sim. Qed.
#[local] Hint Resolve sim_xTaskResumeFromISR : sim.
Lemma sim_abort_delay_suspended x0 : sim RK (abort_delay_suspended x0) (abort_delay_suspended x0).
Proof. unfold abort_delay_suspended. solve_sim. Qed.
#[local] Hint Resolve sim_abort_delay_suspended : sim.
Lemma psim_xTaskAbortDelay x0 : psim RK (xTaskAbortDelay x0) (xTaskAbortDelay x0).
Proof. unfold xTaskAbortDelay. solve_sim. Qed.
#[local] Hint Resolve psim_xTaskAbortDelay : sim.
Lemma psim_xTaskCatchUpTicks x0 : psim RK (xTaskCatchUpTicks x0) (xTaskCatchUpTicks x0).
Proof. unfold xTaskCatchUpTicks. solve_sim. Qed.
#[local] Hint Resolve psim_xTaskCatchUpTicks : sim.

(** ** TaskEvents *)

Lemma sim_vTaskPlaceOnEventList x0 x1 : sim RK (vTaskPlaceOnEventList x0 x1) (vTaskPlaceOnEventList x0 x1).
Proof. unfold vTaskPlaceOnEventList. solve_sim. Qed.
#[local] Hint Resolve sim_vTaskPlaceOnEventList : sim.
Lemma sim_vTaskPlaceOnUnorderedEventList x0 x1 x2 : sim RK (vTaskPlaceOnUnorderedEventList x0 x1 x2) (vTaskPlaceOnUnorderedEventList x0 x1 x2).
Proof. unfold vTaskPlaceOnUnorderedEventList. solve_sim. Qed.
#[local] Hint Resolve sim_vTaskPlaceOnUnorderedEventList : sim.
Lemma sim_vTaskPlaceOnEventListRestricted x0 x1 x2 : sim RK (vTaskPlaceOnEventListRestricted x0 x1 x2) (vTaskPlaceOnEventListRestricted x0 x1 x2).
Proof. unfold vTaskPlaceOnEventListRestricted. solve_sim. Qed.
#[local] Hint Resolve sim_vTaskPlaceOnEventListRestricted : sim.
Lemma sim_ready_or_pend x0 : sim RK (ready_or_pend x0) (ready_or_pend x0).
Proof. unfold ready_or_pend. solve_sim. Qed.
#[local] Hint Resolve sim_ready_or_pend : sim.
Lemma sim_note_if_higher x0 : sim RK (note_if_higher x0) (note_if_higher x0).
Proof. unfold note_if_higher. solve_sim. Qed.
#[local] Hint Resolve sim_note_if_higher : sim.
Lemma sim_xTaskRemoveFromEventList x0 : sim RK (xTaskRemoveFromEventList x0) (xTaskRemoveFromEventList x0).
Proof. unfold xTaskRemoveFromEventList. solve_sim. Qed.
#[local] Hint Resolve sim_xTaskRemoveFromEventList : sim.
Lemma sim_vTaskRemoveFromUnorderedEventList x0 x1 : sim RK (vTaskRemoveFromUnorderedEventList x0 x1) (vTaskRemoveFromUnorderedEventList x0 x1).
Proof. unfold vTaskRemoveFromUnorderedEventList. solve_sim. Qed.
#[local] Hint Resolve sim_vTaskRemoveFromUnorderedEventList : sim.
Lemma sim_uxTaskResetEventItemValue : sim RK uxTaskResetEventItemValue uxTaskResetEventItemValue.
Proof. unfold uxTaskResetEventItemValue. solve_sim. Qed.
#[local] Hint Resolve sim_uxTaskResetEventItemValue : sim.
Lemma sim_vTaskMissedYield : sim RK vTaskMissedYield vTaskMissedYield.
Proof. unfold vTaskMissedYield. solve_sim. Qed.
#[local] Hint Resolve sim_vTaskMissedYield : sim.
Lemma sim_vTaskInternalSetTimeOutState : sim RK vTaskInternalSetTimeOutState vTaskInternalSetTimeOutState.
Proof. unfold vTaskInternalSetTimeOutState. solve_sim. Qed.
#[local] Hint Resolve sim_vTaskInternalSetTimeOutState : sim.
Lemma sim_vTaskSetTimeOutState : sim RK vTaskSetTimeOutState vTaskSetTimeOutState.
Proof. unfold vTaskSetTimeOutState. solve_sim. Qed.
#[local] Hint Resolve sim_vTaskSetTimeOutState : sim.
Lemma sim_xTaskCheckForTimeOut x0 x1 : sim RK (xTaskCheckForTimeOut x0 x1) (xTaskCheckForTimeOut x0 x1).
Proof. unfold xTaskCheckForTimeOut. solve_sim. Qed.
#[local] Hint Resolve sim_xTaskCheckForTimeOut : sim.
Lemma sim_pvTaskIncrementMutexHeldCount : sim RK pvTaskIncrementMutexHeldCount pvTaskIncrementMutexHeldCount.
Proof. unfold pvTaskIncrementMutexHeldCount. solve_sim. Qed.
#[local] Hint Resolve sim_pvTaskIncrementMutexHeldCount : sim.
Lemma sim_xTaskPriorityInherit x0 : sim RK (xTaskPriorityInherit x0) (xTaskPriorityInherit x0).
Proof. unfold xTaskPriorityInherit. solve_sim. Qed.
#[local] Hint Resolve sim_xTaskPriorityInherit : sim.
Lemma sim_xTaskPriorityDisinherit x0 : sim RK (xTaskPriorityDisinherit x0) (xTaskPriorityDisinherit x0).
Proof. unfold xTaskPriorityDisinherit. solve_sim. Qed.
#[local] Hint Resolve sim_xTaskPriorityDisinherit : sim.
Lemma sim_vTaskPriorityDisinheritAfterTimeout x0 x1 : sim RK (vTaskPriorityDisinheritAfterTimeout x0 x1) (vTaskPriorityDisinheritAfterTimeout x0 x1).
Proof. unfold vTaskPriorityDisinheritAfterTimeout. solve_sim. Qed.
#[local] Hint Resolve sim_vTaskPriorityDisinheritAfterTimeout : sim.
Lemma sim_vTaskEnterCritical : sim RK vTaskEnterCritical vTaskEnterCritical.
Proof. unfold vTaskEnterCritical. solve_sim. Qed.
#[local] Hint Resolve sim_vTaskEnterCritical : sim.
Lemma sim_vTaskExitCritical : sim RK vTaskExitCritical vTaskExitCritical.
Proof. unfold vTaskExitCritical. solve_sim. Qed.
#[local] Hint Resolve sim_vTaskExitCritical : sim.
Lemma sim_notify_take_wait x0 : sim RK (notify_take_wait x0) (notify_take_wait x0).
Proof. unfold notify_take_wait. solve_sim. Qed.
#[local] Hint Resolve sim_notify_take_wait : sim.
Lemma sim_notify_take_finish x0 : sim RK (notify_take_finish x0) (notify_take_finish x0).
Proof. unfold notify_take_finish. solve_sim. Qed.
#[local] Hint Resolve sim_notify_take_finish : sim.
Lemma psim_ulTaskGenericNotifyTake x0 x1 : psim RK (ulTaskGenericNotifyTake x0 x1) (ulTaskGenericNotifyTake x0 x1).
Proof. unfold ulTaskGenericNotifyTake. solve_sim. Qed.
#[local] Hint Resolve psim_ulTaskGenericNotifyTake : sim.
Lemma sim_notify_wait_wait x0 x1 : sim RK (notify_wait_wait x0 x1) (notify_wait_wait x0 x1).
Proof. unfold notify_wait_wait. solve_sim. Qed.
#[local] Hint Resolve sim_notify_wait_wait : sim.
Lemma sim_notify_wait_finish x0 : sim RK (notify_wait_finish x0) (notify_wait_finish x0).
Proof. unfold notify_wait_finish. solve_sim. Qed.
#[local] Hint Resolve sim_notify_wait_finish : sim.
Lemma psim_xTaskGenericNotifyWait x0 x1 x2 : psim RK (xTaskGenericNotifyWait x0 x1 x2) (xTaskGenericNotifyWait x0 x1 x2).
Proof. unfold xTaskGenericNotifyWait. solve_sim. Qed.
#[local] Hint Resolve psim_xTaskGenericNotifyWait : sim.
Lemma sim_xTaskGenericNotify x0 x1 x2 : sim RK (xTaskGenericNotify x0 x1 x2) (xTaskGenericNotify x0 x1 x2).
Proof. unfold xTaskGenericNotify. solve_sim. Qed.
#[local] Hint Resolve sim_xTaskGenericNotify : sim.
Lemma sim_xTaskGenericNotifyFromISR x0 x1 x2 : sim RK (xTaskGenericNotifyFromISR x0 x1 x2) (xTaskGenericNotifyFromISR x0 x1 x2).
Proof. unfold xTaskGenericNotifyFromISR. solve_sim. Qed.
#[local] Hint Resolve sim_xTaskGenericNotifyFromISR : sim.
Lemma sim_vTaskGenericNotifyGiveFromISR x0 : sim RK (vTaskGenericNotifyGiveFromISR x0) (vTaskGenericNotifyGiveFromISR x0).
Proof. unfold vTaskGenericNotifyGiveFromISR. solve_sim. Qed.
#[local] Hint Resolve sim_vTaskGenericNotifyGiveFromISR : sim.
Lemma sim_search_name_loop x0 x1 x2 x3 : sim RK (search_name_loop x0 x1 x2 x3) (search_name_loop x0 x1 x2 x3).
Proof. revert x1 x2 x3. induction x0 as [|x0 IH]; intros x1 x2 x3; simpl; solve_sim. Qed.
#[local] Hint Resolve sim_search_name_loop : sim.
Lemma sim_prvSearchForNameWithinSingleList x0 x1 : sim RK (prvSearchForNameWithinSingleList x0 x1) (prvSearchForNameWithinSingleList x0 x1).
Proof. unfold prvSearchForNameWithinSingleList. solve_sim. Qed.
#[local] Hint Resolve sim_prvSearchForNameWithinSingleList : sim.
Lemma sim_search_ready_lists x0 x1 : sim RK (search_ready_lists x0 x1) (search_ready_lists x0 x1).
Proof. revert x1. induction x0 as [|x0 IH]; intros x1; simpl; solve_sim. Qed.
#[local] Hint Resolve sim_search_ready_lists : sim.
Lemma sim_search_next x0 x1 x2 : sim RK (search_next x0 x1 x2) (search_next x0 x1 x2).
Proof. unfold search_next. solve_sim. Qed.
#[local] Hint Resolve sim_search_next : sim.
Lemma sim_get_handle_suspended x0 : sim RK (get_handle_suspended x0) (get_handle_suspended x0).
Proof. unfold get_handle_suspended. solve_sim. Qed.
#[local] Hint Resolve sim_get_handle_suspended : sim.
Lemma psim_xTaskGetHandle x0 : psim RK (xTaskGetHandle x0) (xTaskGetHandle x0).
Proof. unfold xTaskGetHandle. solve_sim. Qed.
#[local] Hint Resolve psim_xTaskGetHandle : sim.

(** ** Queue *)

Lemma sim_upd_queue x0 x1 : sim RK (upd_queue x0 x1) (upd_queue x0 x1).
Proof. unfold upd_queue. solve_sim. Qed.
#[local] Hint Resolve sim_upd_queue : sim.
Lemma sim_prvCopyDataToQueue x0 x1 x2 : sim RK (prvCopyDataToQueue x0 x1 x2) (prvCopyDataToQueue x0 x1 x2).
Proof. unfold prvCopyDataToQueue. solve_sim. Qed.
#[local] Hint Resolve sim_prvCopyDataToQueue : sim.
Lemma sim_prvCopyDataFromQueue x0 : sim RK (prvCopyDataFromQueue x0) (prvCopyDataFromQueue x0).
Proof. unfold prvCopyDataFromQueue. solve_sim. Qed.
#[local] Hint Resolve sim_prvCopyDataFromQueue : sim.
Lemma sim_wake_first x0 : sim RK (wake_first x0) (wake_first x0).
Proof. unfold wake_first. solve_sim. Qed.
#[local] Hint Resolve sim_wake_first : sim.
Lemma sim_xQueueGenericReset x0 x1 : sim RK (xQueueGenericReset x0 x1) (xQueueGenericReset x0 x1).
Proof. unfold xQueueGenericReset. solve_sim. Qed.
#[local] Hint Resolve sim_xQueueGenericReset : sim.
Lemma sim_prvInitialiseNewQueue x0 x1 x2 x3 x4 x5 : sim RK (prvInitialiseNewQueue x0 x1 x2 x3 x4 x5) (prvInitialiseNewQueue x0 x1 x2 x3 x4 x5).
Proof. unfold prvInitialiseNewQueue. solve_sim. Qed.
#[local] Hint Resolve sim_prvInitialiseNewQueue : sim.
Lemma psim_xQueueGenericCreate x0 x1 x2 x3 x4 : psim RK (xQueueGenericCreate ucHeap xStart x0 x1 x2 x3 x4) (xQueueGenericCreate ucHeap xStart x0 x1 x2 x3 x4).
Proof. unfold xQueueGenericCreate. solve_sim. Qed.
#[local] Hint Resolve psim_xQueueGenericCreate : sim.
Lemma sim_prvLockQueue x0 : sim RK (prvLockQueue x0) (prvLockQueue x0).
Proof. unfold prvLockQueue. solve_sim. Qed.
#[local] Hint Resolve sim_prvLockQueue : sim.
Lemma sim_unlock_loop x0 x1 : sim RK (unlock_loop x0 x1) (unlock_loop x0 x1).
Proof. revert x1. induction x0 as [|x0 IH]; intros x1; simpl; solve_sim. Qed.
#[local] Hint Resolve sim_unlock_loop : sim.
Lemma sim_unlock_tx x0 : sim RK (unlock_tx x0) (unlock_tx x0).
Proof. unfold unlock_tx. solve_sim. Qed.
#[local] Hint Resolve sim_unlock_tx : sim.
Lemma sim_unlock_rx x0 : sim RK (unlock_rx x0) (unlock_rx x0).
Proof. unfold unlock_rx. solve_sim. Qed.
#[local] Hint Resolve sim_unlock_rx : sim.
Lemma psim_prvUnlockQueue x0 : psim RK (prvUnlockQueue x0) (prvUnlockQueue x0).
Proof. unfold prvUnlockQueue. solve_sim. Qed.
#[local] Hint Resolve psim_prvUnlockQueue : sim.
Lemma sim_prvIsQueueEmpty x0 : sim RK (prvIsQueueEmpty x0) (prvIsQueueEmpty x0).
Proof. unfold prvIsQueueEmpty. solve_sim. Qed.
#[local] Hint Resolve sim_prvIsQueueEmpty : sim.
Lemma sim_prvIsQueueFull x0 : sim RK (prvIsQueueFull x0) (prvIsQueueFull x0).
Proof. unfold prvIsQueueFull. solve_sim. Qed.
#[local] Hint Resolve sim_prvIsQueueFull : sim.
Lemma sim_or_wait x0 x1 : sim RK (or_wait x0 x1) (or_wait x0 x1).
Proof. unfold or_wait. solve_sim. Qed.
#[local] Hint Resolve sim_or_wait : sim.
Lemma psim_resume_and_yield : psim RK resume_and_yield resume_and_yield.
Proof. unfold resume_and_yield. solve_sim. Qed.
#[local] Hint Resolve psim_resume_and_yield : sim.
Lemma sim_send_try x0 x1 x2 x3 : sim RK (send_try x0 x1 x2 x3) (send_try x0 x1 x2 x3).
Proof. unfold send_try. solve_sim. Qed.
#[local] Hint Resolve sim_send_try : sim.
Lemma sim_check_timeout x0 : sim RK (check_timeout x0) (check_timeout x0).
Proof. unfold check_timeout. solve_sim. Qed.
#[local] Hint Resolve sim_check_timeout : sim.
Lemma psim_xQueueGenericSend_iter x0 x1 x2 x3 : psim RK (xQueueGenericSend_iter x0 x1 x2 x3) (xQueueGenericSend_iter x0 x1 x2 x3).
Proof. unfold xQueueGenericSend_iter. solve_sim. Qed.
#[local] Hint Resolve psim_xQueueGenericSend_iter : sim.
Lemma psim_xQueueGenericSend x0 x1 x2 x3 x4 : psim RK (xQueueGenericSend x0 x1 x2 x3 x4) (xQueueGenericSend x0 x1 x2 x3 x4).
Proof. unfold xQueueGenericSend. solve_sim. Qed.
#[local] Hint Resolve psim_xQueueGenericSend : sim.
Lemma sim_after_isr_send x0 x1 : sim RK (after_isr_send x0 x1) (after_isr_send x0 x1).
Proof. unfold after_isr_send. solve_sim. Qed.
#[local] Hint Resolve sim_after_isr_send : sim.
Lemma sim_xQueueGenericSendFromISR x0 x1 x2 : sim RK (xQueueGenericSendFromISR x0 x1 x2) (xQueueGenericSendFromISR x0 x1 x2).
Proof. unfold xQueueGenericSendFromISR. solve_sim. Qed.
#[local] Hint Resolve sim_xQueueGenericSendFromISR : sim.
Lemma sim_xQueueGiveFromISR x0 : sim RK (xQueueGiveFromISR x0) (xQueueGiveFromISR x0).
Proof. unfold xQueueGiveFromISR. solve_sim. Qed.
#[local] Hint Resolve sim_xQueueGiveFromISR : sim.
Lemma sim_receive_try x0 x1 : sim RK (receive_try x0 x1) (receive_try x0 x1).
Proof. unfold receive_try. solve_sim. Qed.
#[local] Hint Resolve sim_receive_try : sim.
Lemma psim_receive_wait x0 x1 : psim RK (receive_wait x0 x1) (receive_wait x0 x1).
Proof. unfold receive_wait. solve_sim. Qed.
#[local] Hint Resolve psim_receive_wait : sim.
Lemma psim_xQueueReceive_iter x0 x1 : psim RK (xQueueReceive_iter x0 x1) (xQueueReceive_iter x0 x1).
Proof. unfold xQueueReceive_iter. solve_sim. Qed.
#[local] Hint Resolve psim_xQueueReceive_iter : sim.
Lemma psim_xQueueReceive x0 x1 x2 : psim RK (xQueueReceive x0 x1 x2) (xQueueReceive x0 x1 x2).
Proof. unfold xQueueReceive. solve_sim. Qed.
#[local] Hint Resolve psim_xQueueReceive : sim.
Lemma sim_peek_try x0 x1 : sim RK (peek_try x0 x1) (peek_try x0 x1).
Proof. unfold peek_try. solve_sim. Qed.
#[local] Hint Resolve sim_peek_try : sim.
Lemma psim_xQueuePeek_iter x0 x1 : psim RK (xQueuePeek_iter x0 x1) (xQueuePeek_iter x0 x1).
Proof. unfold xQueuePeek_iter. solve_sim. Qed.
#[local] Hint Resolve psim_xQueuePeek_iter : sim.
Lemma psim_xQueuePeek x0 x1 x2 : psim RK (xQueuePeek x0 x1 x2) (xQueuePeek x0 x1 x2).
Proof. unfold xQueuePeek. solve_sim. Qed.
#[local] Hint Resolve psim_xQueuePeek : sim.
Lemma sim_xQueueReceiveFromISR x0 : sim RK (xQueueReceiveFromISR x0) (xQueueReceiveFromISR x0).
Proof. unfold xQueueReceiveFromISR. solve_sim. Qed.
#[local] Hint Resolve sim_xQueueReceiveFromISR : sim.
Lemma sim_xQueuePeekFromISR x0 : sim RK (xQueuePeekFromISR x0) (xQueuePeekFromISR x0).
Proof. unfold xQueuePeekFromISR. solve_sim. Qed.
#[local] Hint Resolve sim_xQueuePeekFromISR : sim.
Lemma sim_take_try x0 x1 : sim RK (take_try x0 x1) (take_try x0 x1).
Proof. unfold take_try. solve_sim. Qed.
#[local] Hint Resolve sim_take_try : sim.
Lemma sim_inherit_for_mutex x0 x1 : sim RK (inherit_for_mutex x0 x1) (inherit_for_mutex x0 x1).
Proof. unfold inherit_for_mutex. solve_sim. Qed.
#[local] Hint Resolve sim_inherit_for_mutex : sim.
Lemma sim_prvGetDisinheritPriorityAfterTimeout x0 : sim RK (prvGetDisinheritPriorityAfterTimeout x0) (prvGetDisinheritPriorityAfterTimeout x0).
Proof. unfold prvGetDisinheritPriorityAfterTimeout. solve_sim. Qed.
#[local] Hint Resolve sim_prvGetDisinheritPriorityAfterTimeout : sim.
Lemma sim_disinherit_after_timeout x0 : sim RK (disinherit_after_timeout x0) (disinherit_after_timeout x0).
Proof. unfold disinherit_after_timeout. solve_sim. Qed.
#[local] Hint Resolve sim_disinherit_after_timeout : sim.
Lemma psim_xQueueSemaphoreTake_iter x0 x1 : psim RK (xQueueSemaphoreTake_iter x0 x1) (xQueueSemaphoreTake_iter x0 x1).
Proof. unfold xQueueSemaphoreTake_iter. solve_sim. Qed.
#[local] Hint Resolve psim_xQueueSemaphoreTake_iter : sim.
Lemma psim_xQueueSemaphoreTake x0 x1 x2 : psim RK (xQueueSemaphoreTake x0 x1 x2) (xQueueSemaphoreTake x0 x1 x2).
Proof. unfold xQueueSemaphoreTake. solve_sim. Qed.
#[local] Hint Resolve psim_xQueueSemaphoreTake : sim.
Lemma psim_prvInitialiseMutex x0 : psim RK (prvInitialiseMutex x0) (prvInitialiseMutex x0).
Proof. unfold prvInitialiseMutex. solve_sim. Qed.
#[local] Hint Resolve psim_prvInitialiseMutex : sim.
Lemma psim_xQueueCreateMutex x0 x1 x2 : psim RK (xQueueCreateMutex ucHeap xStart x0 x1 x2) (xQueueCreateMutex ucHeap xStart x0 x1 x2).
Proof. unfold xQueueCreateMutex. solve_sim. Qed.
#[local] Hint Resolve psim_xQueueCreateMutex : sim.
Lemma sim_holds_mutex x0 : sim RK (holds_mutex x0) (holds_mutex x0).
Proof. unfold holds_mutex. solve_sim. Qed.
#[local] Hint Resolve sim_holds_mutex : sim.
Lemma psim_xQueueGiveMutexRecursive x0 : psim RK (xQueueGiveMutexRecursive x0) (xQueueGiveMutexRecursive x0).
Proof. unfold xQueueGiveMutexRecursive. solve_sim. Qed.
#[local] Hint Resolve psim_xQueueGiveMutexRecursive : sim.
Lemma psim_xQueueTakeMutexRecursive x0 x1 x2 : psim RK (xQueueTakeMutexRecursive x0 x1 x2) (xQueueTakeMutexRecursive x0 x1 x2).
Proof. unfold xQueueTakeMutexRecursive. solve_sim. Qed.
#[local] Hint Resolve psim_xQueueTakeMutexRecursive : sim.
Lemma psim_xQueueCreateCountingSemaphore x0 x1 x2 x3 : psim RK (xQueueCreateCountingSemaphore ucHeap xStart x0 x1 x2 x3) (xQueueCreateCountingSemaphore ucHeap xStart x0 x1 x2 x3).
Proof. unfold xQueueCreateCountingSemaphore. solve_sim. Qed.
#[local] Hint Resolve psim_xQueueCreateCountingSemaphore : sim.
Lemma sim_vQueueAddToRegistry x0 x1 : sim RK (vQueueAddToRegistry x0 x1) (vQueueAddToRegistry x0 x1).
Proof. unfold vQueueAddToRegistry. solve_sim. Qed.
#[local] Hint Resolve sim_vQueueAddToRegistry : sim.
Lemma sim_vQueueUnregisterQueue x0 : sim RK (vQueueUnregisterQueue x0) (vQueueUnregisterQueue x0).
Proof. unfold vQueueUnregisterQueue. solve_sim. Qed.
#[local] Hint Resolve sim_vQueueUnregisterQueue : sim.
Lemma sim_forget_queue x0 : sim RK (forget_queue x0) (forget_queue x0).
Proof. unfold forget_queue. solve_sim. Qed.
#[local] Hint Resolve sim_forget_queue : sim.
Lemma psim_vQueueDelete x0 : psim RK (vQueueDelete xStart x0) (vQueueDelete xStart x0).
Proof. unfold vQueueDelete. solve_sim. Qed.
#[local] Hint Resolve psim_vQueueDelete : sim.
Lemma psim_vQueueWaitForMessageRestricted x0 x1 x2 : psim RK (vQueueWaitForMessageRestricted x0 x1 x2) (vQueueWaitForMessageRestricted x0 x1 x2).
Proof. unfold vQueueWaitForMessageRestricted. solve_sim. Qed.
#[local] Hint Resolve psim_vQueueWaitForMessageRestricted : sim.

End KernelSim.

#[export] Hint Resolve
  sim_rdv sim_wrv sim_onlist sim_onheap sim_rd_tcb sim_rd_queue sim_wr_tcb sim_wr_queue sim_ready_list
  sim_listREMOVE sim_listIS_EMPTY sim_contained sim_portRESET sim_record sim_taskRESET sim_select
  sim_add sim_reset_next sim_switch_lists sim_handle sim_switch sim_yield sim_add_delayed
  sim_wake_loop sim_tick_hook sim_tick sim_timer_interrupt sim_suspend_all sim_pending_loop
  sim_pended_loop sim_resume_all sim_malloc_failed psim_malloc psim_free sim_prvInitialiseNewTask
  sim_init_ready_lists sim_prvInitialiseTaskLists sim_add_new_task sim_yield_to_new_task
  psim_prvAddNewTaskToReadyList psim_xTaskCreate sim_forget_tcb psim_prvDeleteTCB sim_delete_unlink
  sim_delete_yield psim_vTaskDelete sim_take_terminated psim_prvCheckTasksWaitingTermination_iter
  sim_delete_critical psim_prvIdleTask_round psim_vTaskDelay sim_delay_until_suspended psim_xTaskDelayUntil
  sim_eTaskGetState sim_move_ready_task sim_set_event_value sim_vTaskPrioritySet sim_suspend_unlink
  sim_suspend_reset sim_suspend_switch psim_vTaskSuspend sim_prvTaskIsTaskSuspended sim_vTaskResume
  sim_xTaskResumeFromISR sim_abort_delay_suspended psim_xTaskAbortDelay psim_xTaskCatchUpTicks
  sim_vTaskPlaceOnEventList sim_vTaskPlaceOnUnorderedEventList sim_vTaskPlaceOnEventListRestricted
  sim_ready_or_pend sim_note_if_higher sim_xTaskRemoveFromEventList
  sim_vTaskRemoveFromUnorderedEventList sim_uxTaskResetEventItemValue sim_vTaskMissedYield
  sim_vTaskInternalSetTimeOutState sim_vTaskSetTimeOutState sim_xTaskCheckForTimeOut
  sim_pvTaskIncrementMutexHeldCount sim_xTaskPriorityInherit sim_xTaskPriorityDisinherit
  sim_vTaskPriorityDisinheritAfterTimeout sim_vTaskEnterCritical sim_vTaskExitCritical
  sim_notify_take_wait sim_notify_take_finish psim_ulTaskGenericNotifyTake sim_notify_wait_wait
  sim_notify_wait_finish psim_xTaskGenericNotifyWait sim_xTaskGenericNotify
  sim_xTaskGenericNotifyFromISR sim_vTaskGenericNotifyGiveFromISR sim_search_name_loop
  sim_prvSearchForNameWithinSingleList sim_search_ready_lists sim_search_next sim_get_handle_suspended
  psim_xTaskGetHandle sim_upd_queue sim_prvCopyDataToQueue sim_prvCopyDataFromQueue sim_wake_first
  sim_xQueueGenericReset sim_prvInitialiseNewQueue psim_xQueueGenericCreate sim_prvLockQueue
  sim_unlock_loop sim_unlock_tx sim_unlock_rx psim_prvUnlockQueue sim_prvIsQueueEmpty
  sim_prvIsQueueFull sim_or_wait psim_resume_and_yield sim_send_try sim_check_timeout
  psim_xQueueGenericSend_iter psim_xQueueGenericSend sim_after_isr_send sim_xQueueGenericSendFromISR
  sim_xQueueGiveFromISR sim_receive_try psim_receive_wait psim_xQueueReceive_iter psim_xQueueReceive
  sim_peek_try psim_xQueuePeek_iter psim_xQueuePeek sim_xQueueReceiveFromISR sim_xQueuePeekFromISR
  sim_take_try sim_inherit_for_mutex sim_prvGetDisinheritPriorityAfterTimeout
  sim_disinherit_after_timeout psim_xQueueSemaphoreTake_iter psim_xQueueSemaphoreTake
  psim_prvInitialiseMutex psim_xQueueCreateMutex sim_holds_mutex psim_xQueueGiveMutexRecursive
  psim_xQueueTakeMutexRecursive psim_xQueueCreateCountingSemaphore sim_vQueueAddToRegistry
  sim_vQueueUnregisterQueue sim_forget_queue psim_vQueueDelete psim_vQueueWaitForMessageRestricted : sim.
#[export] Hint Resolve lr_initialise lr_initialise_item lr_insert_end lr_insert lr_remove
  lr_set_owner lr_get_owner lr_set_value lr_get_value lr_container lr_length lr_head_value
  lr_head_owner lr_head_entry lr_next lr_next_owner lr_alloc_item lr_free_item lr_free_list : sim.
