(* ===== verification/DriversRefine.v ===== *)
(** * The other modules on pointer lists and on abstract lists

    As in [KernelRefine], for event_groups.c, stream_buffer.c and timers.c.
    The application's code behind the callbacks must do the same on both
    kinds of lists: it is related by hypothesis. *)

From S2P Require Import Prelude Simulation Config ListC ListSpec ListRefine Heap4 Kernel Tasks TaskApi TaskEvents Queue EventGroups Bytes StreamBuffers Timers KernelRefine.

Section DriversSim.
Context {H1 H2 : Type} `{!ListOps item list_id H1, !ListOps item list_id H2}.
Context (R : H1 -> H2 -> Prop) `{!ListRefines R}.
Variables ucHeap xStart TmrQ addr_vEventGroupSetBitsCallback addr_vEventGroupClearBitsCallback : Z.
Variable app1 : Z -> Z -> Z -> prog (Kernel H1) unit.
Variable app2 : Z -> Z -> Z -> prog (Kernel H2) unit.
Hypothesis app_sim : forall f a b, psim (RK R) (app1 f a b) (app2 f a b).
#[local] Hint Resolve app_sim : sim.

Lemma sim_run {A} (p1 : prog (Kernel H1) A) (p2 : prog (Kernel H2) A) :
  psim (RK R) p1 p2 -> sim (RK R) (run p1) (run p2).
Proof. apply psim_run. Qed.
Lemma sim_rdt {A} (f : TimerVars -> A) : sim (RK R) (rdt f) (rdt f).
Proof. unfold rdt. solve_sim. Qed.
Lemma sim_wrt g : sim (RK R) (wrt g) (wrt g).
Proof. unfold wrt. solve_sim. Qed.
#[local] Hint Resolve sim_rdt sim_wrt sim_run : sim.
Lemma sim_rd_timer {A} t (f : Timer_t -> A) : sim (RK R) (rd_timer t f) (rd_timer t f).
Proof. unfold rd_timer. solve_sim. Qed.
Lemma sim_rd_group {A} t (f : EventGroup_t -> A) : sim (RK R) (rd_group t f) (rd_group t f).
Proof. unfold rd_group. solve_sim. Qed.
Lemma sim_rd_stream {A} t (f : StreamBuffer_t -> A) : sim (RK R) (rd_stream t f) (rd_stream t f).
Proof. unfold rd_stream. solve_sim. Qed.
#[local] Hint Resolve sim_rd_timer sim_rd_group sim_rd_stream : sim.
Lemma sim_wr_timer t g : sim (RK R) (wr_timer t g) (wr_timer t g).
Proof. unfold wr_timer. solve_sim. Qed.
Lemma sim_wr_group t g : sim (RK R) (wr_group t g) (wr_group t g).
Proof. unfold wr_group. solve_sim. Qed.
Lemma sim_wr_stream t g : sim (RK R) (wr_stream t g) (wr_stream t g).
Proof. unfold wr_stream. solve_sim. Qed.
#[local] Hint Resolve sim_wr_timer sim_wr_group sim_wr_stream : sim.
Lemma sim_tick_count : sim (RK R) xTaskGetTickCount xTaskGetTickCount.
Proof. unfold xTaskGetTickCount. solve_sim. Qed.
Lemma sim_tick_count_isr : sim (RK R) xTaskGetTickCountFromISR xTaskGetTickCountFromISR.
Proof. unfold xTaskGetTickCountFromISR. solve_sim. Qed.
Lemma sim_current : sim (RK R) xTaskGetCurrentTaskHandle xTaskGetCurrentTaskHandle.
Proof. unfold xTaskGetCurrentTaskHandle. solve_sim. Qed.
Lemma sim_scheduler_state : sim (RK R) xTaskGetSchedulerState xTaskGetSchedulerState.
Proof. unfold xTaskGetSchedulerState. solve_sim. Qed.
Lemma sim_state_clear t : sim (RK R) (xTaskGenericNotifyStateClear t) (xTaskGenericNotifyStateClear t).
Proof. unfold xTaskGenericNotifyStateClear. solve_sim. Qed.
#[local] Hint Resolve sim_tick_count sim_tick_count_isr sim_current sim_scheduler_state sim_state_clear : sim.


(** ** EventGroups *)

Lemma psim_xEventGroupCreate x0 : psim (RK R) (xEventGroupCreate ucHeap xStart x0) (xEventGroupCreate ucHeap xStart x0).
Proof. unfold xEventGroupCreate. solve_sim. Qed.
#[local] Hint Resolve psim_xEventGroupCreate : sim.
Lemma sim_set_bits_loop x0 x1 x2 x3 : sim (RK R) (set_bits_loop x0 x1 x2 x3) (set_bits_loop x0 x1 x2 x3).
Proof. revert x1 x2 x3. induction x0 as [|x0 IH]; intros x1 x2 x3; cbn [set_bits_loop]; solve_sim. Qed.
#[local] Hint Resolve sim_set_bits_loop : sim.
Lemma sim_set_bits_suspended x0 x1 : sim (RK R) (set_bits_suspended x0 x1) (set_bits_suspended x0 x1).
Proof. unfold set_bits_suspended. solve_sim. Qed.
#[local] Hint Resolve sim_set_bits_suspended : sim.
Lemma psim_xEventGroupSetBits x0 x1 : psim (RK R) (xEventGroupSetBits x0 x1) (xEventGroupSetBits x0 x1).
Proof. unfold xEventGroupSetBits. solve_sim. Qed.
#[local] Hint Resolve psim_xEventGroupSetBits : sim.
Lemma sim_xEventGroupClearBits x0 x1 : sim (RK R) (xEventGroupClearBits x0 x1) (xEventGroupClearBits x0 x1).
Proof. unfold xEventGroupClearBits. solve_sim. Qed.
#[local] Hint Resolve sim_xEventGroupClearBits : sim.
Lemma sim_xEventGroupGetBitsFromISR x0 : sim (RK R) (xEventGroupGetBitsFromISR x0) (xEventGroupGetBitsFromISR x0).
Proof. unfold xEventGroupGetBitsFromISR. solve_sim. Qed.
#[local] Hint Resolve sim_xEventGroupGetBitsFromISR : sim.
Lemma psim_vEventGroupSetBitsCallback x0 x1 : psim (RK R) (vEventGroupSetBitsCallback x0 x1) (vEventGroupSetBitsCallback x0 x1).
Proof. unfold vEventGroupSetBitsCallback. solve_sim. Qed.
#[local] Hint Resolve psim_vEventGroupSetBitsCallback : sim.
Lemma psim_vEventGroupClearBitsCallback x0 x1 : psim (RK R) (vEventGroupClearBitsCallback x0 x1) (vEventGroupClearBitsCallback x0 x1).
Proof. unfold vEventGroupClearBitsCallback. solve_sim. Qed.
#[local] Hint Resolve psim_vEventGroupClearBitsCallback : sim.
Lemma sim_wait_bits_suspended x0 x1 x2 x3 x4 : sim (RK R) (wait_bits_suspended x0 x1 x2 x3 x4) (wait_bits_suspended x0 x1 x2 x3 x4).
Proof. unfold wait_bits_suspended. solve_sim. Qed.
#[local] Hint Resolve sim_wait_bits_suspended : sim.
Lemma sim_wait_bits_timeout x0 x1 x2 x3 : sim (RK R) (wait_bits_timeout x0 x1 x2 x3) (wait_bits_timeout x0 x1 x2 x3).
Proof. unfold wait_bits_timeout. solve_sim. Qed.
#[local] Hint Resolve sim_wait_bits_timeout : sim.
Lemma psim_after_wait y t1 t2 : sim (RK R) t1 t2 -> psim (RK R) (after_wait y t1) (after_wait y t2).
Proof. intros. unfold after_wait. solve_sim. Qed.
#[local] Hint Resolve psim_after_wait : sim.
Lemma psim_xEventGroupWaitBits x0 x1 x2 x3 x4 : psim (RK R) (xEventGroupWaitBits x0 x1 x2 x3 x4) (xEventGroupWaitBits x0 x1 x2 x3 x4).
Proof. unfold xEventGroupWaitBits. solve_sim. Qed.
#[local] Hint Resolve psim_xEventGroupWaitBits : sim.
Lemma sim_sync_suspended x0 x1 x2 x3 x4 : sim (RK R) (sync_suspended x0 x1 x2 x3 x4) (sync_suspended x0 x1 x2 x3 x4).
Proof. unfold sync_suspended. solve_sim. Qed.
#[local] Hint Resolve sim_sync_suspended : sim.
Lemma sim_sync_timeout x0 x1 : sim (RK R) (sync_timeout x0 x1) (sync_timeout x0 x1).
Proof. unfold sync_timeout. solve_sim. Qed.
#[local] Hint Resolve sim_sync_timeout : sim.
Lemma psim_xEventGroupSync x0 x1 x2 x3 : psim (RK R) (xEventGroupSync x0 x1 x2 x3) (xEventGroupSync x0 x1 x2 x3).
Proof. unfold xEventGroupSync. solve_sim. Qed.
#[local] Hint Resolve psim_xEventGroupSync : sim.
Lemma sim_release_loop x0 x1 : sim (RK R) (release_loop x0 x1) (release_loop x0 x1).
Proof. revert x1. induction x0 as [|x0 IH]; intros x1; cbn [release_loop]; solve_sim. Qed.
#[local] Hint Resolve sim_release_loop : sim.
Lemma sim_release_all x0 : sim (RK R) (release_all x0) (release_all x0).
Proof. unfold release_all. solve_sim. Qed.
#[local] Hint Resolve sim_release_all : sim.
Lemma sim_forget_group x0 : sim (RK R) (forget_group x0) (forget_group x0).
Proof. unfold forget_group. solve_sim. Qed.
#[local] Hint Resolve sim_forget_group : sim.
Lemma psim_vEventGroupDelete x0 : psim (RK R) (vEventGroupDelete xStart x0) (vEventGroupDelete xStart x0).
Proof. unfold vEventGroupDelete. solve_sim. Qed.
#[local] Hint Resolve psim_vEventGroupDelete : sim.
Lemma sim_uxEventGroupGetNumber x0 : sim (RK R) (uxEventGroupGetNumber x0) (uxEventGroupGetNumber x0).
Proof. unfold uxEventGroupGetNumber. solve_sim. Qed.
#[local] Hint Resolve sim_uxEventGroupGetNumber : sim.
Lemma sim_vEventGroupSetNumber x0 x1 : sim (RK R) (vEventGroupSetNumber x0 x1) (vEventGroupSetNumber x0 x1).
Proof. unfold vEventGroupSetNumber. solve_sim. Qed.
#[local] Hint Resolve sim_vEventGroupSetNumber : sim.

(** ** StreamBuffers *)

Lemma sim_upd_stream {A} x0 (x1 : StreamBuffer_t -> option (A * StreamBuffer_t)) : sim (RK R) (upd_stream x0 x1) (upd_stream x0 x1).
Proof. unfold upd_stream. solve_sim. Qed.
#[local] Hint Resolve sim_upd_stream : sim.
Lemma psim_xStreamBufferGenericCreate x0 x1 x2 x3 : psim (RK R) (xStreamBufferGenericCreate ucHeap xStart x0 x1 x2 x3) (xStreamBufferGenericCreate ucHeap xStart x0 x1 x2 x3).
Proof. unfold xStreamBufferGenericCreate. solve_sim. Qed.
#[local] Hint Resolve psim_xStreamBufferGenericCreate : sim.
Lemma sim_xStreamBufferReset x0 : sim (RK R) (xStreamBufferReset x0) (xStreamBufferReset x0).
Proof. unfold xStreamBufferReset. solve_sim. Qed.
#[local] Hint Resolve sim_xStreamBufferReset : sim.
Lemma sim_forget_stream x0 : sim (RK R) (forget_stream x0) (forget_stream x0).
Proof. unfold forget_stream. solve_sim. Qed.
#[local] Hint Resolve sim_forget_stream : sim.
Lemma psim_vStreamBufferDelete x0 : psim (RK R) (vStreamBufferDelete xStart x0) (vStreamBufferDelete xStart x0).
Proof. unfold vStreamBufferDelete. solve_sim. Qed.
#[local] Hint Resolve psim_vStreamBufferDelete : sim.
Lemma sim_xStreamBufferSetTriggerLevel x0 x1 : sim (RK R) (xStreamBufferSetTriggerLevel x0 x1) (xStreamBufferSetTriggerLevel x0 x1).
Proof. unfold xStreamBufferSetTriggerLevel. solve_sim. Qed.
#[local] Hint Resolve sim_xStreamBufferSetTriggerLevel : sim.
Lemma sim_xStreamBufferSpacesAvailable x0 : sim (RK R) (xStreamBufferSpacesAvailable x0) (xStreamBufferSpacesAvailable x0).
Proof. unfold xStreamBufferSpacesAvailable. solve_sim. Qed.
#[local] Hint Resolve sim_xStreamBufferSpacesAvailable : sim.
Lemma sim_xStreamBufferBytesAvailable x0 : sim (RK R) (xStreamBufferBytesAvailable x0) (xStreamBufferBytesAvailable x0).
Proof. unfold xStreamBufferBytesAvailable. solve_sim. Qed.
#[local] Hint Resolve sim_xStreamBufferBytesAvailable : sim.
Lemma sim_notify_receiver x0 : sim (RK R) (notify_receiver x0) (notify_receiver x0).
Proof. unfold notify_receiver. solve_sim. Qed.
#[local] Hint Resolve sim_notify_receiver : sim.
Lemma sim_notify_sender x0 : sim (RK R) (notify_sender x0) (notify_sender x0).
Proof. unfold notify_sender. solve_sim. Qed.
#[local] Hint Resolve sim_notify_sender : sim.
Lemma psim_sbSEND_COMPLETED x0 : psim (RK R) (sbSEND_COMPLETED x0) (sbSEND_COMPLETED x0).
Proof. unfold sbSEND_COMPLETED. solve_sim. Qed.
#[local] Hint Resolve psim_sbSEND_COMPLETED : sim.
Lemma psim_sbRECEIVE_COMPLETED x0 : psim (RK R) (sbRECEIVE_COMPLETED x0) (sbRECEIVE_COMPLETED x0).
Proof. unfold sbRECEIVE_COMPLETED. solve_sim. Qed.
#[local] Hint Resolve psim_sbRECEIVE_COMPLETED : sim.
Lemma sim_sbSEND_COMPLETE_FROM_ISR x0 : sim (RK R) (sbSEND_COMPLETE_FROM_ISR x0) (sbSEND_COMPLETE_FROM_ISR x0).
Proof. unfold sbSEND_COMPLETE_FROM_ISR. solve_sim. Qed.
#[local] Hint Resolve sim_sbSEND_COMPLETE_FROM_ISR : sim.
Lemma sim_sbRECEIVE_COMPLETED_FROM_ISR x0 : sim (RK R) (sbRECEIVE_COMPLETED_FROM_ISR x0) (sbRECEIVE_COMPLETED_FROM_ISR x0).
Proof. unfold sbRECEIVE_COMPLETED_FROM_ISR. solve_sim. Qed.
#[local] Hint Resolve sim_sbRECEIVE_COMPLETED_FROM_ISR : sim.
Lemma sim_xStreamBufferSendCompletedFromISR x0 : sim (RK R) (xStreamBufferSendCompletedFromISR x0) (xStreamBufferSendCompletedFromISR x0).
Proof. unfold xStreamBufferSendCompletedFromISR. solve_sim. Qed.
#[local] Hint Resolve sim_xStreamBufferSendCompletedFromISR : sim.
Lemma sim_xStreamBufferReceiveCompletedFromISR x0 : sim (RK R) (xStreamBufferReceiveCompletedFromISR x0) (xStreamBufferReceiveCompletedFromISR x0).
Proof. unfold xStreamBufferReceiveCompletedFromISR. solve_sim. Qed.
#[local] Hint Resolve sim_xStreamBufferReceiveCompletedFromISR : sim.
Lemma sim_send_check x0 x1 : sim (RK R) (send_check x0 x1) (send_check x0 x1).
Proof. unfold send_check. solve_sim. Qed.
#[local] Hint Resolve sim_send_check : sim.
Lemma psim_send_wait_iter x0 x1 x2 : psim (RK R) (send_wait_iter x0 x1 x2) (send_wait_iter x0 x1 x2).
Proof. unfold send_wait_iter. solve_sim. Qed.
#[local] Hint Resolve psim_send_wait_iter : sim.
Lemma psim_send_bytes x0 x1 x2 x3 x4 : psim (RK R) (send_bytes x0 x1 x2 x3 x4) (send_bytes x0 x1 x2 x3 x4).
Proof. unfold send_bytes. solve_sim. Qed.
#[local] Hint Resolve psim_send_bytes : sim.
Lemma psim_xStreamBufferSend x0 x1 x2 x3 x4 : psim (RK R) (xStreamBufferSend x0 x1 x2 x3 x4) (xStreamBufferSend x0 x1 x2 x3 x4).
Proof. unfold xStreamBufferSend. solve_sim. Qed.
#[local] Hint Resolve psim_xStreamBufferSend : sim.
Lemma sim_xStreamBufferSendFromISR x0 x1 x2 : sim (RK R) (xStreamBufferSendFromISR x0 x1 x2) (xStreamBufferSendFromISR x0 x1 x2).
Proof. unfold xStreamBufferSendFromISR. solve_sim. Qed.
#[local] Hint Resolve sim_xStreamBufferSendFromISR : sim.
Lemma sim_receive_check x0 x1 : sim (RK R) (receive_check x0 x1) (receive_check x0 x1).
Proof. unfold receive_check. solve_sim. Qed.
#[local] Hint Resolve sim_receive_check : sim.
Lemma psim_receive_bytes x0 x1 x2 x3 : psim (RK R) (receive_bytes x0 x1 x2 x3) (receive_bytes x0 x1 x2 x3).
Proof. unfold receive_bytes. solve_sim. Qed.
#[local] Hint Resolve psim_receive_bytes : sim.
Lemma psim_xStreamBufferReceive x0 x1 x2 : psim (RK R) (xStreamBufferReceive x0 x1 x2) (xStreamBufferReceive x0 x1 x2).
Proof. unfold xStreamBufferReceive. solve_sim. Qed.
#[local] Hint Resolve psim_xStreamBufferReceive : sim.
Lemma sim_xStreamBufferReceiveFromISR x0 x1 : sim (RK R) (xStreamBufferReceiveFromISR x0 x1) (xStreamBufferReceiveFromISR x0 x1).
Proof. unfold xStreamBufferReceiveFromISR. solve_sim. Qed.
#[local] Hint Resolve sim_xStreamBufferReceiveFromISR : sim.
Lemma sim_xStreamBufferNextMessageLengthBytes x0 : sim (RK R) (xStreamBufferNextMessageLengthBytes x0) (xStreamBufferNextMessageLengthBytes x0).
Proof. unfold xStreamBufferNextMessageLengthBytes. solve_sim. Qed.
#[local] Hint Resolve sim_xStreamBufferNextMessageLengthBytes : sim.
Lemma sim_xStreamBufferIsEmpty x0 : sim (RK R) (xStreamBufferIsEmpty x0) (xStreamBufferIsEmpty x0).
Proof. unfold xStreamBufferIsEmpty. solve_sim. Qed.
#[local] Hint Resolve sim_xStreamBufferIsEmpty : sim.
Lemma sim_xStreamBufferIsFull x0 : sim (RK R) (xStreamBufferIsFull x0) (xStreamBufferIsFull x0).
Proof. unfold xStreamBufferIsFull. solve_sim. Qed.
#[local] Hint Resolve sim_xStreamBufferIsFull : sim.
Lemma sim_uxStreamBufferGetStreamBufferNumber x0 : sim (RK R) (uxStreamBufferGetStreamBufferNumber x0) (uxStreamBufferGetStreamBufferNumber x0).
Proof. unfold uxStreamBufferGetStreamBufferNumber. solve_sim. Qed.
#[local] Hint Resolve sim_uxStreamBufferGetStreamBufferNumber : sim.
Lemma sim_vStreamBufferSetStreamBufferNumber x0 x1 : sim (RK R) (vStreamBufferSetStreamBufferNumber x0 x1) (vStreamBufferSetStreamBufferNumber x0 x1).
Proof. unfold vStreamBufferSetStreamBufferNumber. solve_sim. Qed.
#[local] Hint Resolve sim_vStreamBufferSetStreamBufferNumber : sim.
Lemma sim_ucStreamBufferGetStreamBufferType x0 : sim (RK R) (ucStreamBufferGetStreamBufferType x0) (ucStreamBufferGetStreamBufferType x0).
Proof. unfold ucStreamBufferGetStreamBufferType. solve_sim. Qed.
#[local] Hint Resolve sim_ucStreamBufferGetStreamBufferType : sim.

(** ** Timers *)

Lemma psim_call x0 x1 x2 : psim (RK R) (call addr_vEventGroupSetBitsCallback addr_vEventGroupClearBitsCallback app1 x0 x1 x2) (call addr_vEventGroupSetBitsCallback addr_vEventGroupClearBitsCallback app2 x0 x1 x2).
Proof. unfold call. solve_sim. Qed.
#[local] Hint Resolve psim_call : sim.
Lemma sim_prvCheckForValidListAndQueue x0 x1 : sim (RK R) (prvCheckForValidListAndQueue ucHeap xStart TmrQ x0 x1) (prvCheckForValidListAndQueue ucHeap xStart TmrQ x0 x1).
Proof. unfold prvCheckForValidListAndQueue. solve_sim. Qed.
#[local] Hint Resolve sim_prvCheckForValidListAndQueue : sim.
Lemma psim_xTimerCreateTimerTask x0 x1 : psim (RK R) (xTimerCreateTimerTask ucHeap xStart TmrQ x0 x1) (xTimerCreateTimerTask ucHeap xStart TmrQ x0 x1).
Proof. unfold xTimerCreateTimerTask. solve_sim. Qed.
#[local] Hint Resolve psim_xTimerCreateTimerTask : sim.
Lemma psim_prvInitialiseNewTimer x0 x1 x2 x3 x4 x5 x6 x7 x8 : psim (RK R) (prvInitialiseNewTimer ucHeap xStart TmrQ x0 x1 x2 x3 x4 x5 x6 x7 x8) (prvInitialiseNewTimer ucHeap xStart TmrQ x0 x1 x2 x3 x4 x5 x6 x7 x8).
Proof. unfold prvInitialiseNewTimer. solve_sim. Qed.
#[local] Hint Resolve psim_prvInitialiseNewTimer : sim.
Lemma psim_xTimerCreate x0 x1 x2 x3 x4 x5 x6 : psim (RK R) (xTimerCreate ucHeap xStart TmrQ x0 x1 x2 x3 x4 x5 x6) (xTimerCreate ucHeap xStart TmrQ x0 x1 x2 x3 x4 x5 x6).
Proof. unfold xTimerCreate. solve_sim. Qed.
#[local] Hint Resolve psim_xTimerCreate : sim.
Lemma psim_xTimerGenericCommand x0 x1 x2 x3 x4 x5 : psim (RK R) (xTimerGenericCommand x0 x1 x2 x3 x4 x5) (xTimerGenericCommand x0 x1 x2 x3 x4 x5).
Proof. unfold xTimerGenericCommand. solve_sim. Qed.
#[local] Hint Resolve psim_xTimerGenericCommand : sim.
Lemma psim_xTimerStart x0 x1 x2 x3 : psim (RK R) (xTimerStart x0 x1 x2 x3) (xTimerStart x0 x1 x2 x3).
Proof. unfold xTimerStart. solve_sim. Qed.
#[local] Hint Resolve psim_xTimerStart : sim.
Lemma psim_xTimerReset x0 x1 x2 x3 : psim (RK R) (xTimerReset x0 x1 x2 x3) (xTimerReset x0 x1 x2 x3).
Proof. unfold xTimerReset. solve_sim. Qed.
#[local] Hint Resolve psim_xTimerReset : sim.
Lemma psim_xTimerStop x0 x1 x2 x3 : psim (RK R) (xTimerStop x0 x1 x2 x3) (xTimerStop x0 x1 x2 x3).
Proof. unfold xTimerStop. solve_sim. Qed.
#[local] Hint Resolve psim_xTimerStop : sim.
Lemma psim_xTimerChangePeriod x0 x1 x2 x3 x4 : psim (RK R) (xTimerChangePeriod x0 x1 x2 x3 x4) (xTimerChangePeriod x0 x1 x2 x3 x4).
Proof. unfold xTimerChangePeriod. solve_sim. Qed.
#[local] Hint Resolve psim_xTimerChangePeriod : sim.
Lemma psim_xTimerDelete x0 x1 x2 x3 : psim (RK R) (xTimerDelete x0 x1 x2 x3) (xTimerDelete x0 x1 x2 x3).
Proof. unfold xTimerDelete. solve_sim. Qed.
#[local] Hint Resolve psim_xTimerDelete : sim.
Lemma psim_xTimerStartFromISR x0 x1 : psim (RK R) (xTimerStartFromISR x0 x1) (xTimerStartFromISR x0 x1).
Proof. unfold xTimerStartFromISR. solve_sim. Qed.
#[local] Hint Resolve psim_xTimerStartFromISR : sim.
Lemma psim_xTimerResetFromISR x0 x1 : psim (RK R) (xTimerResetFromISR x0 x1) (xTimerResetFromISR x0 x1).
Proof. unfold xTimerResetFromISR. solve_sim. Qed.
#[local] Hint Resolve psim_xTimerResetFromISR : sim.
Lemma psim_xTimerStopFromISR x0 x1 : psim (RK R) (xTimerStopFromISR x0 x1) (xTimerStopFromISR x0 x1).
Proof. unfold xTimerStopFromISR. solve_sim. Qed.
#[local] Hint Resolve psim_xTimerStopFromISR : sim.
Lemma psim_xTimerChangePeriodFromISR x0 x1 x2 : psim (RK R) (xTimerChangePeriodFromISR x0 x1 x2) (xTimerChangePeriodFromISR x0 x1 x2).
Proof. unfold xTimerChangePeriodFromISR. solve_sim. Qed.
#[local] Hint Resolve psim_xTimerChangePeriodFromISR : sim.
Lemma psim_xTimerPendFunctionCall x0 x1 x2 x3 x4 : psim (RK R) (xTimerPendFunctionCall x0 x1 x2 x3 x4) (xTimerPendFunctionCall x0 x1 x2 x3 x4).
Proof. unfold xTimerPendFunctionCall. solve_sim. Qed.
#[local] Hint Resolve psim_xTimerPendFunctionCall : sim.
Lemma sim_xTimerPendFunctionCallFromISR x0 x1 x2 : sim (RK R) (xTimerPendFunctionCallFromISR x0 x1 x2) (xTimerPendFunctionCallFromISR x0 x1 x2).
Proof. unfold xTimerPendFunctionCallFromISR. solve_sim. Qed.
#[local] Hint Resolve sim_xTimerPendFunctionCallFromISR : sim.
Lemma sim_xEventGroupSetBitsFromISR x0 x1 : sim (RK R) (xEventGroupSetBitsFromISR addr_vEventGroupSetBitsCallback x0 x1) (xEventGroupSetBitsFromISR addr_vEventGroupSetBitsCallback x0 x1).
Proof. unfold xEventGroupSetBitsFromISR. solve_sim. Qed.
#[local] Hint Resolve sim_xEventGroupSetBitsFromISR : sim.
Lemma sim_xEventGroupClearBitsFromISR x0 x1 : sim (RK R) (xEventGroupClearBitsFromISR addr_vEventGroupClearBitsCallback x0 x1) (xEventGroupClearBitsFromISR addr_vEventGroupClearBitsCallback x0 x1).
Proof. unfold xEventGroupClearBitsFromISR. solve_sim. Qed.
#[local] Hint Resolve sim_xEventGroupClearBitsFromISR : sim.
Lemma sim_prvInsertTimerInActiveList x0 x1 x2 x3 : sim (RK R) (prvInsertTimerInActiveList x0 x1 x2 x3) (prvInsertTimerInActiveList x0 x1 x2 x3).
Proof. unfold prvInsertTimerInActiveList. solve_sim. Qed.
#[local] Hint Resolve sim_prvInsertTimerInActiveList : sim.
Lemma psim_prvReloadTimer x0 x1 x2 x3 : psim (RK R) (prvReloadTimer addr_vEventGroupSetBitsCallback addr_vEventGroupClearBitsCallback app1 x0 x1 x2 x3) (prvReloadTimer addr_vEventGroupSetBitsCallback addr_vEventGroupClearBitsCallback app2 x0 x1 x2 x3).
Proof. revert x1 x2 x3. induction x0 as [|x0 IH]; intros x1 x2 x3; cbn [prvReloadTimer]; solve_sim. Qed.
#[local] Hint Resolve psim_prvReloadTimer : sim.
Lemma sim_take_expired : sim (RK R) take_expired take_expired.
Proof. unfold take_expired. solve_sim. Qed.
#[local] Hint Resolve sim_take_expired : sim.
Lemma psim_reload_and_call x0 x1 x2 x3 : psim (RK R) (reload_and_call addr_vEventGroupSetBitsCallback addr_vEventGroupClearBitsCallback app1 x0 x1 x2 x3) (reload_and_call addr_vEventGroupSetBitsCallback addr_vEventGroupClearBitsCallback app2 x0 x1 x2 x3).
Proof. unfold reload_and_call. solve_sim. Qed.
#[local] Hint Resolve psim_reload_and_call : sim.
Lemma psim_prvProcessExpiredTimer x0 x1 x2 : psim (RK R) (prvProcessExpiredTimer addr_vEventGroupSetBitsCallback addr_vEventGroupClearBitsCallback app1 x0 x1 x2) (prvProcessExpiredTimer addr_vEventGroupSetBitsCallback addr_vEventGroupClearBitsCallback app2 x0 x1 x2).
Proof. unfold prvProcessExpiredTimer. solve_sim. Qed.
#[local] Hint Resolve psim_prvProcessExpiredTimer : sim.
Lemma psim_expire_all_loop x0 x1 : psim (RK R) (expire_all_loop addr_vEventGroupSetBitsCallback addr_vEventGroupClearBitsCallback app1 x0 x1) (expire_all_loop addr_vEventGroupSetBitsCallback addr_vEventGroupClearBitsCallback app2 x0 x1).
Proof. revert x1. induction x0 as [|x0 IH]; intros x1; cbn [expire_all_loop]; solve_sim. Qed.
#[local] Hint Resolve psim_expire_all_loop : sim.
Lemma psim_prvSwitchTimerLists x0 : psim (RK R) (prvSwitchTimerLists addr_vEventGroupSetBitsCallback addr_vEventGroupClearBitsCallback app1 x0) (prvSwitchTimerLists addr_vEventGroupSetBitsCallback addr_vEventGroupClearBitsCallback app2 x0).
Proof. unfold prvSwitchTimerLists. solve_sim. Qed.
#[local] Hint Resolve psim_prvSwitchTimerLists : sim.
Lemma psim_prvSampleTimeNow x0 : psim (RK R) (prvSampleTimeNow addr_vEventGroupSetBitsCallback addr_vEventGroupClearBitsCallback app1 x0) (prvSampleTimeNow addr_vEventGroupSetBitsCallback addr_vEventGroupClearBitsCallback app2 x0).
Proof. unfold prvSampleTimeNow. solve_sim. Qed.
#[local] Hint Resolve psim_prvSampleTimeNow : sim.
Lemma sim_prvGetNextExpireTime : sim (RK R) prvGetNextExpireTime prvGetNextExpireTime.
Proof. unfold prvGetNextExpireTime. solve_sim. Qed.
#[local] Hint Resolve sim_prvGetNextExpireTime : sim.
Lemma psim_prvProcessTimerOrBlockTask x0 x1 x2 : psim (RK R) (prvProcessTimerOrBlockTask addr_vEventGroupSetBitsCallback addr_vEventGroupClearBitsCallback app1 x0 x1 x2) (prvProcessTimerOrBlockTask addr_vEventGroupSetBitsCallback addr_vEventGroupClearBitsCallback app2 x0 x1 x2).
Proof. unfold prvProcessTimerOrBlockTask. solve_sim. Qed.
#[local] Hint Resolve psim_prvProcessTimerOrBlockTask : sim.
Lemma sim_forget_timer x0 : sim (RK R) (forget_timer x0) (forget_timer x0).
Proof. unfold forget_timer. solve_sim. Qed.
#[local] Hint Resolve sim_forget_timer : sim.
Lemma sim_unlink_timer x0 : sim (RK R) (unlink_timer x0) (unlink_timer x0).
Proof. unfold unlink_timer. solve_sim. Qed.
#[local] Hint Resolve sim_unlink_timer : sim.
Lemma psim_start_timer x0 x1 x2 x3 : psim (RK R) (start_timer addr_vEventGroupSetBitsCallback addr_vEventGroupClearBitsCallback app1 x0 x1 x2 x3) (start_timer addr_vEventGroupSetBitsCallback addr_vEventGroupClearBitsCallback app2 x0 x1 x2 x3).
Proof. unfold start_timer. solve_sim. Qed.
#[local] Hint Resolve psim_start_timer : sim.
Lemma sim_change_period x0 x1 x2 : sim (RK R) (change_period x0 x1 x2) (change_period x0 x1 x2).
Proof. unfold change_period. solve_sim. Qed.
#[local] Hint Resolve sim_change_period : sim.
Lemma psim_delete_timer x0 : psim (RK R) (delete_timer xStart x0) (delete_timer xStart x0).
Proof. unfold delete_timer. solve_sim. Qed.
#[local] Hint Resolve psim_delete_timer : sim.
Lemma psim_process_command x0 x1 x2 x3 : psim (RK R) (process_command xStart addr_vEventGroupSetBitsCallback addr_vEventGroupClearBitsCallback app1 x0 x1 x2 x3) (process_command xStart addr_vEventGroupSetBitsCallback addr_vEventGroupClearBitsCallback app2 x0 x1 x2 x3).
Proof. unfold process_command. solve_sim. Qed.
#[local] Hint Resolve psim_process_command : sim.
Lemma psim_prvProcessReceivedCommands_iter x0 x1 : psim (RK R) (prvProcessReceivedCommands_iter xStart addr_vEventGroupSetBitsCallback addr_vEventGroupClearBitsCallback app1 x0 x1) (prvProcessReceivedCommands_iter xStart addr_vEventGroupSetBitsCallback addr_vEventGroupClearBitsCallback app2 x0 x1).
Proof. unfold prvProcessReceivedCommands_iter. solve_sim. Qed.
#[local] Hint Resolve psim_prvProcessReceivedCommands_iter : sim.
Lemma psim_prvProcessReceivedCommands x0 : psim (RK R) (prvProcessReceivedCommands xStart addr_vEventGroupSetBitsCallback addr_vEventGroupClearBitsCallback app1 x0) (prvProcessReceivedCommands xStart addr_vEventGroupSetBitsCallback addr_vEventGroupClearBitsCallback app2 x0).
Proof. unfold prvProcessReceivedCommands. solve_sim. Qed.
#[local] Hint Resolve psim_prvProcessReceivedCommands : sim.
Lemma psim_prvTimerTask_round x0 : psim (RK R) (prvTimerTask_round xStart addr_vEventGroupSetBitsCallback addr_vEventGroupClearBitsCallback app1 x0) (prvTimerTask_round xStart addr_vEventGroupSetBitsCallback addr_vEventGroupClearBitsCallback app2 x0).
Proof. unfold prvTimerTask_round. solve_sim. Qed.
#[local] Hint Resolve psim_prvTimerTask_round : sim.
Lemma sim_xTimerGetTimerDaemonTaskHandle : sim (RK R) xTimerGetTimerDaemonTaskHandle xTimerGetTimerDaemonTaskHandle.
Proof. unfold xTimerGetTimerDaemonTaskHandle. solve_sim. Qed.
#[local] Hint Resolve sim_xTimerGetTimerDaemonTaskHandle : sim.
Lemma sim_xTimerGetPeriod x0 : sim (RK R) (xTimerGetPeriod x0) (xTimerGetPeriod x0).
Proof. unfold xTimerGetPeriod. solve_sim. Qed.
#[local] Hint Resolve sim_xTimerGetPeriod : sim.
Lemma sim_vTimerSetReloadMode x0 x1 : sim (RK R) (vTimerSetReloadMode x0 x1) (vTimerSetReloadMode x0 x1).
Proof. unfold vTimerSetReloadMode. solve_sim. Qed.
#[local] Hint Resolve sim_vTimerSetReloadMode : sim.
Lemma sim_uxTimerGetReloadMode x0 : sim (RK R) (uxTimerGetReloadMode x0) (uxTimerGetReloadMode x0).
Proof. unfold uxTimerGetReloadMode. solve_sim. Qed.
#[local] Hint Resolve sim_uxTimerGetReloadMode : sim.
Lemma sim_xTimerGetExpiryTime x0 : sim (RK R) (xTimerGetExpiryTime x0) (xTimerGetExpiryTime x0).
Proof. unfold xTimerGetExpiryTime. solve_sim. Qed.
#[local] Hint Resolve sim_xTimerGetExpiryTime : sim.
Lemma sim_pcTimerGetName x0 : sim (RK R) (pcTimerGetName x0) (pcTimerGetName x0).
Proof. unfold pcTimerGetName. solve_sim. Qed.
#[local] Hint Resolve sim_pcTimerGetName : sim.
Lemma sim_xTimerIsTimerActive x0 : sim (RK R) (xTimerIsTimerActive x0) (xTimerIsTimerActive x0).
Proof. unfold xTimerIsTimerActive. solve_sim. Qed.
#[local] Hint Resolve sim_xTimerIsTimerActive : sim.
Lemma sim_pvTimerGetTimerID x0 : sim (RK R) (pvTimerGetTimerID x0) (pvTimerGetTimerID x0).
Proof. unfold pvTimerGetTimerID. solve_sim. Qed.
#[local] Hint Resolve sim_pvTimerGetTimerID : sim.
Lemma sim_vTimerSetTimerID x0 x1 : sim (RK R) (vTimerSetTimerID x0 x1) (vTimerSetTimerID x0 x1).
Proof. unfold vTimerSetTimerID. solve_sim. Qed.
#[local] Hint Resolve sim_vTimerSetTimerID : sim.
Lemma sim_uxTimerGetTimerNumber x0 : sim (RK R) (uxTimerGetTimerNumber x0) (uxTimerGetTimerNumber x0).
Proof. unfold uxTimerGetTimerNumber. solve_sim. Qed.
#[local] Hint Resolve sim_uxTimerGetTimerNumber : sim.
Lemma sim_vTimerSetTimerNumber x0 x1 : sim (RK R) (vTimerSetTimerNumber x0 x1) (vTimerSetTimerNumber x0 x1).
Proof. unfold vTimerSetTimerNumber. solve_sim. Qed.
#[local] Hint Resolve sim_vTimerSetTimerNumber : sim.
Lemma psim_vTaskStartScheduler x0 x1 : psim (RK R) (vTaskStartScheduler ucHeap xStart TmrQ x0 x1) (vTaskStartScheduler ucHeap xStart TmrQ x0 x1).
Proof. unfold vTaskStartScheduler. solve_sim. Qed.
#[local] Hint Resolve psim_vTaskStartScheduler : sim.

End DriversSim.
