(* ===== verification/KernelInv.v ===== *)
(** * The invariant of the scheduler's data

    [kcore]: every list item is where its task's control block says it can be,
    and the bitmap of ready priorities agrees with the ready lists (except
    for the priorities in [X], whose bit may still be set although the list
    has just become empty).  [ktime]: the delayed lists are sorted, the tasks
    in the current one wake later than now, those in the overflow one wake
    after the tick count has wrapped, and [xNextTaskUnblockTime] is not late.
    Everything here is on the abstract lists. *)

From S2P Require Import Prelude Simulation Config ListC ListSpec ListRefine ListObs ListProps Heap4 Kernel Tasks.

Notation AH := (aheap item list_id).
Notation KA := (Kernel AH).

(** The lists a task's state item, its event item, and a timer's item can be
    in. *)
Definition is_state_list (l : list_id) : bool :=
  match l with
  | pxReadyTasksLists p => (0 <=? p) && (p <? configMAX_PRIORITIES)
  | xDelayedTaskList1 | xDelayedTaskList2 | xTasksWaitingTermination | xSuspendedTaskList => true
  | _ => false
  end.
Definition is_event_list (l : list_id) : bool :=
  match l with
  | xPendingReadyList | xTasksWaitingToSend _ | xTasksWaitingToReceive _ | xTasksWaitingForBits _ => true
  | _ => false
  end.
Definition is_timer_list (l : list_id) : bool :=
  match l with xActiveTimerList1 | xActiveTimerList2 => true | _ => false end.
Definition is_static_list (l : list_id) : bool :=
  is_state_list l || bool_decide (l = xPendingReadyList).

Definition delayed_pair (l1 l2 : list_id) : Prop :=
  (l1 = xDelayedTaskList1 /\ l2 = xDelayedTaskList2) \/ (l1 = xDelayedTaskList2 /\ l2 = xDelayedTaskList1).

Notation Ready := pxReadyTasksLists.
Definition prio_ok (p : Z) : Prop := 0 <= p < configMAX_PRIORITIES.

Record kcore (X : Z -> Prop) (k : KA) : Prop := {
  kc_wf : awf (k_lists k);
  kc_lists l : is_static_list l = true -> is_Some (a_lists (k_lists k) !! l);
  kc_delayed : delayed_pair (pxDelayedTaskList (k_vars k)) (pxOverflowDelayedTaskList (k_vars k));
  kc_prio t x : tcbs (k_vars k) !! t = Some x -> prio_ok (uxPriority x) /\ prio_ok (uxBasePriority x);
  kc_item t : is_Some (tcbs (k_vars k) !! t) ->
    is_Some (a_items (k_lists k) !! StateItem t) /\ is_Some (a_items (k_lists k) !! EventItem t) /\
    owner_of (k_lists k) (StateItem t) = t /\ owner_of (k_lists k) (EventItem t) = t;
  kc_state t l : cont_of (k_lists k) (StateItem t) = Some l ->
    is_Some (tcbs (k_vars k) !! t) /\ is_state_list l = true;
  kc_event t l : cont_of (k_lists k) (EventItem t) = Some l ->
    is_Some (tcbs (k_vars k) !! t) /\ is_event_list l = true;
  kc_timer t l : cont_of (k_lists k) (TimerItem t) = Some l -> is_timer_list l = true;
  kc_ready t p x : cont_of (k_lists k) (StateItem t) = Some (Ready p) -> tcbs (k_vars k) !! t = Some x ->
    uxPriority x = p;
  kc_sound p : items_of (k_lists k) (Ready p) <> [] -> Z.testbit (uxTopReadyPriority (k_vars k)) p = true;
  kc_exact p : prio_ok p -> ~ X p -> Z.testbit (uxTopReadyPriority (k_vars k)) p = true ->
    items_of (k_lists k) (Ready p) <> [];
  kc_top : 0 <= uxTopReadyPriority (k_vars k) < 2 ^ configMAX_PRIORITIES;
  kc_cur : is_Some (tcbs (k_vars k) !! pxCurrentTCB (k_vars k))
}.

Definition none : Z -> Prop := fun _ => False.

(** ** Bits *)

Lemma prio_ok_nonneg p : prio_ok p -> 0 <= p.
Proof. unfold prio_ok. lia. Qed.

Lemma testbit_record p q b : prio_ok p -> 0 <= q ->
  Z.testbit (portRECORD_READY_PRIORITY p b) q = Z.testbit b q || bool_decide (q = p).
Proof.
  intros Hp Hq. unfold portRECORD_READY_PRIORITY. rewrite Z.lor_spec. f_equal.
  rewrite Z.shiftl_1_l, Z.pow2_bits_eqb by (unfold prio_ok in Hp; lia).
  destruct (Z.eqb_spec p q); case_bool_decide; congruence.
Qed.

Lemma testbit_reset p q b : prio_ok p -> 0 <= q ->
  Z.testbit (portRESET_READY_PRIORITY_bits p b) q = Z.testbit b q && negb (bool_decide (q = p)).
Proof.
  intros Hp Hq. unfold portRESET_READY_PRIORITY_bits. rewrite Z.land_spec, Z.lnot_spec by done. f_equal.
  rewrite Z.shiftl_1_l, Z.pow2_bits_eqb by (unfold prio_ok in Hp; lia).
  destruct (Z.eqb_spec p q); case_bool_decide; congruence.
Qed.

Lemma record_range p b : prio_ok p -> 0 <= b < 2 ^ configMAX_PRIORITIES ->
  0 <= portRECORD_READY_PRIORITY p b < 2 ^ configMAX_PRIORITIES.
Proof.
  intros Hp Hb. assert (H0 : 0 <= portRECORD_READY_PRIORITY p b).
  { unfold portRECORD_READY_PRIORITY. apply Z.lor_nonneg. split; [lia|]. apply Z.shiftl_nonneg. lia. }
  split; [done|]. apply below_pow2; [done|done|]. intros q Hq.
  rewrite testbit_record by (unfold prio_ok, configMAX_PRIORITIES in *; lia).
  rewrite (testbit_high b configMAX_PRIORITIES) by done. simpl.
  apply bool_decide_eq_false. unfold prio_ok in Hp. lia.
Qed.

Lemma reset_range p b : prio_ok p -> 0 <= b < 2 ^ configMAX_PRIORITIES ->
  0 <= portRESET_READY_PRIORITY_bits p b < 2 ^ configMAX_PRIORITIES.
Proof.
  intros Hp Hb. assert (H0 : 0 <= portRESET_READY_PRIORITY_bits p b).
  { unfold portRESET_READY_PRIORITY_bits. apply Z.land_nonneg. lia. }
  split; [done|]. apply below_pow2; [done|done|]. intros q Hq.
  rewrite testbit_reset by (unfold prio_ok, configMAX_PRIORITIES in *; lia).
  by rewrite (testbit_high b configMAX_PRIORITIES) by done.
Qed.

(** ** Steps on the state *)

Section Run.
Context {H : Type} `{!ListOps item list_id H}.

Lemma rdv_run {A} (f : Vars -> A) (k : Kernel H) : rdv f k = Some (f (k_vars k), k).
Proof. done. Qed.
Lemma wp_rdv {A} (f : Vars -> A) (Q : A -> Kernel H -> Prop) k : Q (f (k_vars k)) k -> wp (rdv f) Q k.
Proof. intros. by eexists _, _. Qed.
Lemma wp_wrv g (Q : unit -> Kernel H -> Prop) k : Q tt (mkKernel (k_lists k) (g (k_vars k))) -> wp (wrv g) Q k.
Proof. intros. by eexists _, _. Qed.
Lemma wp_onlist {A} (m : M H A) (Q : A -> Kernel H -> Prop) k a h :
  m (k_lists k) = Some (a, h) -> Q a (mkKernel h (k_vars k)) -> wp (onlist m) Q k.
Proof. intros Hm HQ. exists a, (mkKernel h (k_vars k)). unfold onlist. by rewrite Hm. Qed.
Lemma wp_rd_tcb {A} t (f : TCB_t -> A) (Q : A -> Kernel H -> Prop) k x :
  tcbs (k_vars k) !! t = Some x -> Q (f x) k -> wp (rd_tcb t f) Q k.
Proof. intros Hx HQ. exists (f x), k. unfold rd_tcb. by rewrite Hx. Qed.
Lemma wp_wr_tcb t g (Q : unit -> Kernel H -> Prop) k x :
  tcbs (k_vars k) !! t = Some x ->
  Q tt (mkKernel (k_lists k) (set_tcbs (<[t := g x]> (tcbs (k_vars k))) (k_vars k))) -> wp (wr_tcb t g) Q k.
Proof.
  intros Hx HQ. unfold wr_tcb. apply wp_bind. eapply wp_rd_tcb; [done|]. apply wp_wrv.
  replace (alter g t (tcbs (k_vars k))) with (<[t := g x]> (tcbs (k_vars k))); [done|].
  apply map_eq. intros j. rewrite lookup_alter, lookup_insert. case_decide; subst; [by rewrite Hx|done].
Qed.
End Run.

(** ** Preservation of [kcore] by the elementary steps *)

Section Preservation.
Implicit Types (X : Z -> Prop) (h : AH) (v : Vars) (i : item) (l : list_id).

(** The priorities of [X], and [p]. *)
Definition also X (p : Z) : Z -> Prop := fun q => X q \/ q = p.
Definition except X (p : Z) : Z -> Prop := fun q => X q /\ q <> p.

Lemma kcore_weaken X Y k : (forall p, X p -> Y p) -> kcore X k -> kcore Y k.
Proof. intros HXY []. split; auto. Qed.

Lemma kcore_vars X h v v' :
  tcbs v' = tcbs v -> pxDelayedTaskList v' = pxDelayedTaskList v ->
  pxOverflowDelayedTaskList v' = pxOverflowDelayedTaskList v ->
  uxTopReadyPriority v' = uxTopReadyPriority v -> pxCurrentTCB v' = pxCurrentTCB v ->
  kcore X (mkKernel h v) -> kcore X (mkKernel h v').
Proof.
  intros E1 E2 E3 E4 E5 []. split; simpl in *; rewrite ?E1, ?E2, ?E3, ?E4, ?E5; try done.
Qed.

Lemma is_ready_list p : prio_ok p <-> is_state_list (Ready p) = true.
Proof. unfold prio_ok. simpl. rewrite andb_true_iff, Z.leb_le, Z.ltb_lt. done. Qed.

Lemma ready_prio_ok X k t p : kcore X k -> cont_of (k_lists k) (StateItem t) = Some (Ready p) -> prio_ok p.
Proof. intros HK [_ Hl]%(kc_state _ _ HK). by apply is_ready_list. Qed.

(** The items of a list of tasks are state items of tasks, those of an event
    list event items. *)
Lemma state_list_item X k l i : kcore X k -> is_state_list l = true -> i ∈ items_of (k_lists k) l ->
  exists t x, i = StateItem t /\ tcbs (k_vars k) !! t = Some x.
Proof.
  intros HK Hl Hi%(awf_mem _ (kc_wf _ _ HK)). destruct i as [t|t|t].
  - destruct (kc_state _ _ HK _ _ Hi) as [[x Hx] _]. eauto.
  - destruct (kc_event _ _ HK _ _ Hi) as [_ He]. by destruct l.
  - apply (kc_timer _ _ HK) in Hi. by destruct l.
Qed.

Lemma event_list_item X k l i : kcore X k -> is_event_list l = true -> i ∈ items_of (k_lists k) l ->
  exists t x, i = EventItem t /\ tcbs (k_vars k) !! t = Some x.
Proof.
  intros HK Hl Hi%(awf_mem _ (kc_wf _ _ HK)). destruct i as [t|t|t].
  - destruct (kc_state _ _ HK _ _ Hi) as [_ He]. by destruct l.
  - destruct (kc_event _ _ HK _ _ Hi) as [[x Hx] _]. eauto.
  - apply (kc_timer _ _ HK) in Hi. by destruct l.
Qed.

Lemma drop_elem_nil i : forall xs : list item, drop_elem i xs <> [] -> xs <> [].
Proof. by intros [|]. Qed.

(** An item leaves its list; if that is a ready list its bit may now be stale. *)
Lemma kcore_remove X h v a' i l :
  kcore X (mkKernel h v) -> moved h a' i l None (drop_elem i (items_of h l)) ->
  kcore (fun p => X p \/ l = Ready p) (mkKernel a' v).
Proof.
  intros [] Hm. destruct Hm as [Hwf Hit Hco _ How Hdom Hls _]. split; simpl in *; auto.
  - intros l' ?. apply Hls. auto.
  - intros t Ht. rewrite !Hdom, !How. auto.
  - intros t l'. rewrite Hco. case_decide; [done|]. apply kc_state0.
  - intros t l'. rewrite Hco. case_decide; [done|]. apply kc_event0.
  - intros t l'. rewrite Hco. case_decide; [done|]. apply kc_timer0.
  - intros t p x. rewrite Hco. case_decide; [done|]. apply kc_ready0.
  - intros p. rewrite Hit. case_decide as E; [|apply kc_sound0].
    intros Hne. apply kc_sound0. rewrite E. by eapply drop_elem_nil.
  - intros p Hp HX. rewrite Hit. rewrite decide_False by (intros <-; tauto). apply kc_exact0; tauto.
Qed.

Lemma kcore_remove_other X h v a' i l :
  kcore X (mkKernel h v) -> moved h a' i l None (drop_elem i (items_of h l)) ->
  (forall p, l <> Ready p) -> kcore X (mkKernel a' v).
Proof.
  intros HK Hm Hl. eapply kcore_weaken; [|by eapply kcore_remove].
  intros p [HX|HX]; [done|]. by destruct (Hl p).
Qed.

Lemma kcore_remove_ready X h v a' i p :
  kcore X (mkKernel h v) -> moved h a' i (Ready p) None (drop_elem i (items_of h (Ready p))) ->
  kcore (also X p) (mkKernel a' v).
Proof.
  intros HK Hm. eapply kcore_weaken; [|by eapply kcore_remove].
  intros q [HX|E]; [by left|right; congruence].
Qed.

(** The bit of an empty list is cleared. *)
Lemma kcore_reset X p h v : kcore (also X p) (mkKernel h v) -> prio_ok p -> items_of h (Ready p) = [] ->
  kcore X (mkKernel h (set_uxTopReadyPriority
    (portRESET_READY_PRIORITY_bits p (uxTopReadyPriority v)) v)).
Proof.
  intros [] Hp He. split; simpl in *; auto.
  - intros q Hq. assert (Hok : 0 <= q).
    { destruct (decide (0 <= q)); [done|]. apply kc_sound0 in Hq. rewrite Z.testbit_neg_r in Hq by lia. done. }
    rewrite testbit_reset by done. rewrite kc_sound0 by done. simpl.
    rewrite bool_decide_false by congruence. done.
  - intros q Hq HX. rewrite testbit_reset by (done || by apply prio_ok_nonneg).
    intros [Hb Hn]%andb_prop. apply kc_exact0; [done| |done].
    intros [?| -> ]; [done|]. by rewrite bool_decide_true in Hn.
  - by apply reset_range.
Qed.

Lemma kcore_keep X p k : kcore (also X p) k -> items_of (k_lists k) (Ready p) <> [] -> kcore X k.
Proof.
  intros [] Hne. split; auto. intros q Hq HX Hb. destruct (decide (q = p)) as [->|]; [done|].
  apply kc_exact0; [done| |done]. intros [?|?]; done.
Qed.

(** A task enters the ready list of its priority, whose bit is set. *)
Lemma kcore_insert_ready X h v a' t x xs1 xs2 :
  kcore X (mkKernel h v) -> tcbs v !! t = Some x ->
  moved h a' (StateItem t) (Ready (uxPriority x)) (Some (Ready (uxPriority x))) (xs1 ++ StateItem t :: xs2) ->
  kcore (except X (uxPriority x)) (mkKernel a' (set_uxTopReadyPriority
    (portRECORD_READY_PRIORITY (uxPriority x) (uxTopReadyPriority v)) v)).
Proof.
  intros [] Hx Hm. destruct Hm as [Hwf Hit Hco _ How Hdom Hls _].
  destruct (kc_prio0 _ _ Hx) as [Hp _]. split; simpl in *; auto.
  - intros l' ?. apply Hls. auto.
  - intros t' Ht. rewrite !Hdom, !How. auto.
  - intros t' l'. rewrite Hco. case_decide; [|apply kc_state0]. intros [= <-]. simplify_eq. split; [eauto|].
    by apply is_ready_list.
  - intros t' l'. rewrite Hco. case_decide; [done|]. apply kc_event0.
  - intros t' l'. rewrite Hco. case_decide; [done|]. apply kc_timer0.
  - intros t' p y. rewrite Hco. case_decide; [|apply kc_ready0]. intros [= <-] ?. congruence.
  - intros q Hq. assert (Hok : 0 <= q).
    { destruct (decide (q = uxPriority x)) as [->|Hne]; [by apply prio_ok_nonneg|].
      rewrite Hit, decide_False in Hq by congruence. destruct (decide (0 <= q)); [done|].
      apply kc_sound0 in Hq. rewrite Z.testbit_neg_r in Hq by lia. done. }
    rewrite testbit_record by done. apply orb_true_iff. rewrite Hit in Hq. case_decide as E.
    + right. apply bool_decide_eq_true. congruence.
    + left. auto.
  - intros q Hq HX. rewrite testbit_record by (done || by apply prio_ok_nonneg). rewrite Hit.
    case_decide as E; [intros _ []%app_eq_nil; done|].
    rewrite bool_decide_false by congruence. rewrite orb_false_r. apply kc_exact0; [done|].
    unfold except in HX. intros ?. apply HX. split; [done|]. congruence.
  - by apply record_range.
Qed.

Definition insertable v i l : Prop :=
  match i with
  | StateItem t => is_Some (tcbs v !! t) /\ is_state_list l = true /\ forall p, l <> Ready p
  | EventItem t => is_Some (tcbs v !! t) /\ is_event_list l = true
  | TimerItem _ => is_timer_list l = true
  end.

Lemma kcore_insert_other X h v a' i l xs1 xs2 :
  kcore X (mkKernel h v) -> insertable v i l ->
  moved h a' i l (Some l) (xs1 ++ i :: xs2) -> kcore X (mkKernel a' v).
Proof.
  intros [] Hi Hm. destruct Hm as [Hwf Hit Hco _ How Hdom Hls _].
  assert (Hnr : forall p, l <> Ready p).
  { intros p ->. destruct i as [t|t|t]; [destruct Hi as (_ & _ & Hi); by apply (Hi p)|by destruct Hi|done]. }
  split; simpl in *; auto.
  - intros l' ?. apply Hls. auto.
  - intros t' Ht. rewrite !Hdom, !How. auto.
  - intros t' l'. rewrite Hco. case_decide; [|apply kc_state0]. subst. intros [= <-]. by destruct Hi as (?&?&_).
  - intros t' l'. rewrite Hco. case_decide; [|apply kc_event0]. subst. intros [= <-]. done.
  - intros t' l'. rewrite Hco. case_decide; [|apply kc_timer0]. subst. intros [= <-]. done.
  - intros t' p y. rewrite Hco. case_decide; [|apply kc_ready0]. intros [= ->]. by destruct (Hnr p).
  - intros p. rewrite Hit. rewrite decide_False by (intros <-; by destruct (Hnr p)). auto.
  - intros p. rewrite Hit. rewrite decide_False by (intros <-; by destruct (Hnr p)). auto.
Qed.

(** A TCB changes; a task in a ready list keeps its priority. *)
Lemma kcore_tcb X h v t x y : kcore X (mkKernel h v) -> tcbs v !! t = Some x ->
  prio_ok (uxPriority y) -> prio_ok (uxBasePriority y) ->
  (forall p, cont_of h (StateItem t) = Some (Ready p) -> uxPriority y = p) ->
  kcore X (mkKernel h (set_tcbs (<[t := y]> (tcbs v)) v)).
Proof.
  intros [] Hx Hp Hb Hr.
  assert (Hdom : forall t', is_Some (<[t := y]> (tcbs v) !! t') <-> is_Some (tcbs v !! t')).
  { intros t'. apply is_Some_insert_same. eauto. }
  split; simpl in *; auto.
  - intros t' z. rewrite lookup_insert. case_decide; [|apply kc_prio0]. by intros [= <-].
  - intros t'. rewrite Hdom. auto.
  - intros t' l. rewrite Hdom. auto.
  - intros t' l. rewrite Hdom. auto.
  - intros t' p z Hc. rewrite lookup_insert. case_decide; [|by apply kc_ready0]. subst. intros [= <-]. auto.
  - by rewrite Hdom.
Qed.

Lemma kcore_values X h v a' : kcore X (mkKernel h v) -> awf a' ->
  (forall l, items_of a' l = items_of h l) -> (forall j, cont_of a' j = cont_of h j) ->
  (forall j, owner_of a' j = owner_of h j) -> (forall j, is_Some (a_items a' !! j) <-> is_Some (a_items h !! j)) ->
  (forall l, is_Some (a_lists a' !! l) <-> is_Some (a_lists h !! l)) -> kcore X (mkKernel a' v).
Proof.
  intros [] Hwf Hit Hco How Hdom Hls. split; simpl in *; auto.
  - intros l ?. apply Hls. auto.
  - intros t Ht. rewrite !Hdom, !How. auto.
  - intros t l. rewrite Hco. auto.
  - intros t l. rewrite Hco. auto.
  - intros t l. rewrite Hco. apply kc_timer0.
  - intros t p x. rewrite Hco. apply kc_ready0.
  - intros p. rewrite Hit. auto.
  - intros p. rewrite Hit. auto.
Qed.

Lemma kcore_current X h v t : kcore X (mkKernel h v) -> is_Some (tcbs v !! t) ->
  kcore X (mkKernel h (set_pxCurrentTCB t v)).
Proof. intros [] Ht. split; auto. Qed.

End Preservation.

(** ** Time *)

Record ktime (k : KA) : Prop := {
  kt_tick : u32_range (xTickCount (k_vars k));
  kt_now i : i ∈ items_of (k_lists k) (pxDelayedTaskList (k_vars k)) ->
    xTickCount (k_vars k) < val_of (k_lists k) i <= portMAX_DELAY /\
    xNextTaskUnblockTime (k_vars k) <= val_of (k_lists k) i;
  kt_later i : i ∈ items_of (k_lists k) (pxOverflowDelayedTaskList (k_vars k)) ->
    0 <= val_of (k_lists k) i < xTickCount (k_vars k);
  kt_sorted : sorted_by (val_of (k_lists k)) (items_of (k_lists k) (pxDelayedTaskList (k_vars k)));
  kt_sorted_later :
    sorted_by (val_of (k_lists k)) (items_of (k_lists k) (pxOverflowDelayedTaskList (k_vars k)))
}.

(** The invariant between two operations. *)
Record kinv (k : KA) : Prop := { ki_core : kcore none k; ki_time : ktime k }.

Section Time.
Implicit Types (h : AH) (v : Vars) (i : item) (l : list_id).

Lemma ktime_vars h v v' :
  xTickCount v' = xTickCount v -> xNextTaskUnblockTime v' = xNextTaskUnblockTime v ->
  pxDelayedTaskList v' = pxDelayedTaskList v -> pxOverflowDelayedTaskList v' = pxOverflowDelayedTaskList v ->
  ktime (mkKernel h v) -> ktime (mkKernel h v').
Proof. intros E1 E2 E3 E4 []. split; simpl in *; rewrite ?E1, ?E2, ?E3, ?E4; try done. Qed.

Lemma ktime_remove h v a' i l : ktime (mkKernel h v) ->
  moved h a' i l None (drop_elem i (items_of h l)) -> ktime (mkKernel a' v).
Proof.
  intros [] Hm.
  assert (Hsub : forall l' j, j ∈ items_of a' l' -> j ∈ items_of h l').
  { intros l' j. rewrite (mv_items _ _ _ _ _ _ Hm). case_decide; [subst|done].
    intros [? _]%elem_of_drop_elem. done. }
  assert (Hs : forall l', sorted_by (val_of h) (items_of h l') -> sorted_by (val_of a') (items_of a' l')).
  { intros l' Hs. eapply sorted_by_ext; [intros j _; symmetry; apply (mv_val _ _ _ _ _ _ Hm)|].
    rewrite (mv_items _ _ _ _ _ _ Hm). case_decide; [subst; by apply sorted_by_drop|done]. }
  split; simpl in *; auto; intros j Hj; rewrite (mv_val _ _ _ _ _ _ Hm); auto.
Qed.

Lemma ktime_insert_other h v a' i l xs : ktime (mkKernel h v) ->
  l <> pxDelayedTaskList v -> l <> pxOverflowDelayedTaskList v ->
  moved h a' i l (Some l) xs -> ktime (mkKernel a' v).
Proof.
  intros [] H1 H2 Hm.
  assert (Hit : forall l', l' <> l -> items_of a' l' = items_of h l').
  { intros l' ?. by rewrite (mv_items _ _ _ _ _ _ Hm), decide_False. }
  split; simpl in *; auto; rewrite Hit by done.
  - intros j. rewrite (mv_val _ _ _ _ _ _ Hm). auto.
  - intros j. rewrite (mv_val _ _ _ _ _ _ Hm). auto.
  - eapply sorted_by_ext; [|done]. intros j _. symmetry. apply (mv_val _ _ _ _ _ _ Hm).
  - eapply sorted_by_ext; [|done]. intros j _. symmetry. apply (mv_val _ _ _ _ _ _ Hm).
Qed.

(** The value of an item outside the delayed lists changes. *)
Lemma ktime_value h v a' i z : ktime (mkKernel h v) ->
  i ∉ items_of h (pxDelayedTaskList v) -> i ∉ items_of h (pxOverflowDelayedTaskList v) ->
  (forall l, items_of a' l = items_of h l) ->
  (forall j, val_of a' j = if decide (j = i) then z else val_of h j) -> ktime (mkKernel a' v).
Proof.
  intros [] H1 H2 Hit Hv.
  assert (E : forall l j, i ∉ items_of h l -> j ∈ items_of h l -> val_of a' j = val_of h j).
  { intros l j Hi Hj. rewrite Hv, decide_False; [done|]. by intros ->. }
  split; simpl in *; rewrite ?Hit; auto.
  - intros j Hj. rewrite (E _ j H1 Hj). auto.
  - intros j Hj. rewrite (E _ j H2 Hj). auto.
  - eapply sorted_by_ext; [|done]. intros j Hj. symmetry. by apply (E _ j H1 Hj).
  - eapply sorted_by_ext; [|done]. intros j Hj. symmetry. by apply (E _ j H2 Hj).
Qed.

Lemma delayed_pair_ne v : delayed_pair (pxDelayedTaskList v) (pxOverflowDelayedTaskList v) ->
  pxDelayedTaskList v <> pxOverflowDelayedTaskList v.
Proof. intros [[-> ->]|[-> ->]]; done. Qed.

Lemma delayed_state_list X k : kcore X k ->
  is_state_list (pxDelayedTaskList (k_vars k)) = true /\ is_state_list (pxOverflowDelayedTaskList (k_vars k)) = true.
Proof. intros HK. destruct (kc_delayed _ _ HK) as [[-> ->]|[-> ->]]; done. Qed.

Lemma not_delayed X k l : kcore X k ->
  l <> xDelayedTaskList1 -> l <> xDelayedTaskList2 ->
  l <> pxDelayedTaskList (k_vars k) /\ l <> pxOverflowDelayedTaskList (k_vars k).
Proof. intros HK. destruct (kc_delayed _ _ HK) as [[-> ->]|[-> ->]]; done. Qed.

(** The running task enters a delayed list with its wake time. *)
Lemma ktime_insert_now h v a' i : ktime (mkKernel h v) -> pxDelayedTaskList v <> pxOverflowDelayedTaskList v ->
  xTickCount v < val_of h i <= portMAX_DELAY ->
  moved h a' i (pxDelayedTaskList v) (Some (pxDelayedTaskList v))
    (insert_sorted (val_of h) (val_of h i) i (items_of h (pxDelayedTaskList v))) ->
  ktime (mkKernel a' (if val_of h i <? xNextTaskUnblockTime v then set_xNextTaskUnblockTime (val_of h i) v else v)).
Proof.
  intros [] Hne Hv Hm. pose proof (mv_val _ _ _ _ _ _ Hm) as E. pose proof (mv_items _ _ _ _ _ _ Hm) as Ei.
  set (v' := if _ : bool then _ else _).
  assert (Hv' : pxDelayedTaskList v' = pxDelayedTaskList v /\ xTickCount v' = xTickCount v /\
    pxOverflowDelayedTaskList v' = pxOverflowDelayedTaskList v /\
    xNextTaskUnblockTime v' <= xNextTaskUnblockTime v /\ xNextTaskUnblockTime v' <= val_of h i).
  { subst v'. destruct (Z.ltb_spec (val_of h i) (xNextTaskUnblockTime v)); simpl; split_and!; done || lia. }
  destruct Hv' as (E1 & E2 & E3 & E4 & E5).
  split; simpl in *; rewrite ?E1, ?E2, ?E3, ?Ei; [done| | | |].
  - rewrite decide_True by done. intros j [->|Hj]%elem_of_insert_sorted; rewrite E; [lia|].
    specialize (kt_now0 j Hj). lia.
  - rewrite decide_False by done. intros j Hj. rewrite E. auto.
  - rewrite decide_True by done. eapply sorted_by_ext; [intros j _; symmetry; apply E|].
    by apply insert_sorted_sorted.
  - rewrite decide_False by done. eapply sorted_by_ext; [intros j _; symmetry; apply E|done].
Qed.

Lemma ktime_insert_later h v a' i : ktime (mkKernel h v) -> pxDelayedTaskList v <> pxOverflowDelayedTaskList v ->
  0 <= val_of h i < xTickCount v ->
  moved h a' i (pxOverflowDelayedTaskList v) (Some (pxOverflowDelayedTaskList v))
    (insert_sorted (val_of h) (val_of h i) i (items_of h (pxOverflowDelayedTaskList v))) ->
  ktime (mkKernel a' v).
Proof.
  intros [] Hne Hv Hm. pose proof (mv_val _ _ _ _ _ _ Hm) as E. pose proof (mv_items _ _ _ _ _ _ Hm) as Ei.
  split; simpl in *; rewrite ?Ei; [done| | | |].
  - rewrite decide_False by done. intros j Hj. rewrite E. auto.
  - rewrite decide_True by done. intros j [->|Hj]%elem_of_insert_sorted; rewrite E; auto.
  - rewrite decide_False by done. eapply sorted_by_ext; [intros j _; symmetry; apply E|done].
  - rewrite decide_True by done. eapply sorted_by_ext; [intros j _; symmetry; apply E|].
    by apply insert_sorted_sorted.
Qed.

End Time.
