(* ===== verification/Frames.v ===== *)
(** * What the scheduler's functions leave alone

    The scheduler moves list items and writes its own variables; the queues,
    the event groups and the lists themselves stay, and a value it gives to an
    event item fits in a tick count.  [keeps m]: this holds of every run of
    [m].  As with [solve_sim], [solve_keeps] walks through a definition. *)

From S2P Require Import Prelude Simulation Config ListC ListSpec ListRefine ListObs Heap4 Kernel Tasks TaskApi TaskEvents KernelInv.

Section Frames.
Implicit Types (h : AH) (v : Vars) (k : KA).

(** The lists are the same lists, the values of event items remain small. *)
Record list_frame h h' : Prop := {
  lf_lists l : is_Some (a_lists h' !! l) <-> is_Some (a_lists h !! l);
  lf_values t : val_of h' (EventItem t) <= portMAX_DELAY \/ val_of h' (EventItem t) = val_of h (EventItem t)
}.

(** The objects of the other modules are as they were. *)
(** A task's notification: its value, and whether it waits or has been
    notified. *)
Definition note_of v (t : Z) : option (Z * Z) := (fun x => (ulNotifiedValue x, ucNotifyState x)) <$> (tcbs v !! t).

Record same_objects v v' : Prop := {
  so_queues : queues v' = queues v;
  so_groups : event_groups v' = event_groups v;
  so_tasks : uxCurrentNumberOfTasks v' = uxCurrentNumberOfTasks v;
  so_idle : xIdleTaskHandle v' = xIdleTaskHandle v;
  so_notes t : note_of v' t = note_of v t;
  so_started : xSchedulerRunning v' = xSchedulerRunning v
}.

Record frame k k' : Prop := {
  fr_lists : list_frame (k_lists k) (k_lists k');
  fr_vars : same_objects (k_vars k) (k_vars k')
}.

#[export] Instance list_frame_preorder : PreOrder list_frame.
Proof.
  split; [by split; auto|]. intros h1 h2 h3 [L1 V1] [L2 V2]. split; [intros l; by rewrite L2|].
  intros t. destruct (V2 t) as [|E]; [by left|]. rewrite E. apply V1.
Qed.
#[export] Instance same_objects_preorder : PreOrder same_objects.
Proof. split; [by split|]. intros v1 v2 v3 [] []. split; congruence. Qed.
#[export] Instance frame_preorder : PreOrder frame.
Proof.
  split; [intros k; by split|]. intros k1 k2 k3 [] []. split; by etrans.
Qed.

Definition keeps {A} (m : M KA A) : Prop := forall k a k', m k = Some (a, k') -> frame k k'.

(** What is known of a run, and the frame. *)
Lemma wp_keeps {A} (m : M KA A) Q k : keeps m -> wp m Q k -> wp m (fun a k' => Q a k' /\ frame k k') k.
Proof. intros Hm (a & k' & E & HQ). exists a, k'. split; [done|]. split; [done|]. by eapply Hm. Qed.

Lemma keeps_ret {A} (a : A) : keeps (mret a).
Proof. by intros k b k' [= <- <-]. Qed.
Lemma keeps_fault {A} : keeps (A := A) fault.
Proof. done. Qed.
Lemma keeps_lift_opt {A} (o : option A) : keeps (lift_opt o).
Proof. intros k b k'. destruct o; [|done]. by intros [= <- <-]. Qed.
Lemma keeps_bind {A B} (m : M KA A) (f : A -> M KA B) : keeps m -> (forall a, keeps (f a)) -> keeps (m ≫= f).
Proof. intros Hm Hf k b k' (a & k1 & E1 & E2)%bind_inv. etrans; [by eapply Hm|by eapply Hf]. Qed.
Lemma keeps_when (b : bool) (m : M KA unit) : keeps m -> keeps (when b m).
Proof. destruct b; [done|]. intros _. apply keeps_ret. Qed.
Lemma keeps_rdv {A} (f : Vars -> A) : keeps (rdv f).
Proof. by intros k b k' [= <- <-]. Qed.
Lemma keeps_wrv g : (forall v, same_objects v (g v)) -> keeps (wrv g).
Proof. intros Hg k b k' [= <- <-]. by split; simpl. Qed.
Lemma keeps_rd_tcb {A} t (f : TCB_t -> A) : keeps (rd_tcb t f).
Proof. intros k b k'. unfold rd_tcb. destruct (_ !! t); [|done]. by intros [= <- <-]. Qed.
Lemma note_of_insert v v' t x y u : tcbs v !! t = Some x -> tcbs v' = <[t := y]> (tcbs v) ->
  ulNotifiedValue y = ulNotifiedValue x -> ucNotifyState y = ucNotifyState x -> note_of v' u = note_of v u.
Proof.
  intros Hx Hv En Es. unfold note_of. rewrite Hv. destruct (decide (t = u)) as [->|Hne].
  - rewrite lookup_insert_eq, Hx. simpl. by rewrite En, Es.
  - by rewrite lookup_insert_ne.
Qed.

(** A write to a TCB that leaves the notification alone. *)
Definition same_note (g : TCB_t -> TCB_t) : Prop :=
  forall x, ulNotifiedValue (g x) = ulNotifiedValue x /\ ucNotifyState (g x) = ucNotifyState x.
Lemma keeps_wr_tcb t g : same_note g -> keeps (wr_tcb t g).
Proof.
  intros Hg. apply keeps_bind; [apply keeps_rd_tcb|]. intros _. apply keeps_wrv. intros v. split; try done.
  intros u. unfold note_of. simpl. rewrite lookup_alter. case_decide as E; [|done]. subst u.
  destruct (tcbs v !! t) as [x|]; [|done]. simpl. by destruct (Hg x) as [-> ->].
Qed.

(** Block by block. *)
Fixpoint pkeeps {A} (p : prog KA A) : Prop :=
  match p with Done _ => True | @Atomic _ _ X m f => keeps m /\ forall x : X, pkeeps (f x) end.
Lemma pkeeps_ret {A} (a : A) : pkeeps (mret a).
Proof. done. Qed.
Lemma pkeeps_atomic {A} (m : M KA A) : keeps m -> pkeeps (atomic m).
Proof. done. Qed.
Lemma pkeeps_bind {A B} (p : prog KA A) (f : A -> prog KA B) : pkeeps p -> (forall a, pkeeps (f a)) -> pkeeps (p ≫= f).
Proof. induction p as [a|X m g IH]; simpl; [auto|]. intros [? Hg] Hf. split; [done|]. intros x. by apply IH. Qed.
Lemma pkeeps_run {A} (p : prog KA A) : pkeeps p -> keeps (run p).
Proof.
  induction p as [a|X m f IH]; simpl; [intros _; apply keeps_ret|]. intros [Hm Hf]. by apply keeps_bind; [|auto].
Qed.

(** ** The lists *)

Definition lkeeps {A} (m : M AH A) : Prop := forall h a h', m h = Some (a, h') -> list_frame h h'.

Lemma keeps_onlist {A} (m : M AH A) : lkeeps m -> keeps (onlist m).
Proof.
  intros Hm k a k'. unfold onlist. destruct (m (k_lists k)) as [[b h]|] eqn:E; [|done].
  intros [= <- <-]. split; simpl; [by eapply Hm|done].
Qed.

(** An item keeps its value, or gets a small one. *)
Lemma put_item_frame h i x y : a_items h !! i = Some x ->
  (ai_value y = ai_value x \/ ai_value y <= portMAX_DELAY \/ forall t, i <> EventItem t) ->
  list_frame h (mkAheap (<[i := y]> (a_items h)) (a_lists h)).
Proof.
  intros Hx Hy. split; [done|]. intros t. unfold val_of. simpl. destruct (decide (i = EventItem t)) as [->|Hne].
  - rewrite lookup_insert_eq, Hx. simpl. destruct Hy as [->|[?|Hn]]; [by right|by left|by destruct (Hn t)].
  - right. by rewrite lookup_insert_ne.
Qed.

Lemma put_list_frame h l al al' : a_lists h !! l = Some al -> list_frame h (mkAheap (a_items h) (<[l := al']> (a_lists h))).
Proof.
  intros Hl. split; [|by right]. intros l'. simpl. destruct (decide (l = l')) as [->|].
  - rewrite lookup_insert_eq, Hl. split; eauto.
  - by rewrite lookup_insert_ne.
Qed.

Lemma relink_frame h i x y l al al' : a_items h !! i = Some x -> ai_value y = ai_value x -> a_lists h !! l = Some al ->
  list_frame h (mkAheap (<[i := y]> (a_items h)) (<[l := al']> (a_lists h))).
Proof.
  intros Hx Hy Hl. etrans; [eapply put_item_frame; [exact Hx|left; exact Hy]|].
  exact (put_list_frame (mkAheap (<[i := y]> (a_items h)) (a_lists h)) l al al' Hl).
Qed.

Lemma link_keeps l i f : lkeeps (aLink l i f).
Proof.
  intros h a h'. unfold aLink, a_rd_item, a_rd_list, mbind, M_bind.
  destruct (a_items h !! i) as [x|] eqn:Ex; [|done]. destruct (a_lists h !! l) as [al|] eqn:El; [|done].
  case_decide; [|done]. simpl. intros [= <- <-].
  by eapply relink_frame.
Qed.

Lemma insert_end_keeps l i : lkeeps (loInsertEnd l i).
Proof. apply link_keeps. Qed.

Lemma insert_keeps l i : lkeeps (loInsert l i).
Proof.
  intros h a h' (x & h1 & E1 & E2)%bind_inv. unfold a_rd_item in E1. destruct (a_items h !! i); [|done].
  injection E1 as <- <-. case_decide; [|done]. by apply link_keeps in E2.
Qed.

Lemma remove_keeps i : lkeeps (loRemove i).
Proof.
  intros h a h'. simpl. unfold aRemove, a_rd_item, a_rd_list, lift_opt, mbind, M_bind.
  destruct (a_items h !! i) as [x|] eqn:Ex; [|done]. destruct (ai_container x) as [l|]; [|done].
  destruct (a_lists h !! l) as [al|] eqn:El; [|done]. simpl. intros [= <- <-].
  by eapply relink_frame.
Qed.

Lemma set_value_keeps i z : z <= portMAX_DELAY \/ (forall t, i <> EventItem t) -> lkeeps (loSetValue i z).
Proof.
  intros Hz h a h'. simpl. unfold aSetValue, a_rd_item, mbind, M_bind.
  destruct (a_items h !! i) as [x|] eqn:Ex; [|done]. intros [= <- <-]. by eapply put_item_frame; [exact Ex|right].
Qed.

Lemma next_owner_keeps l : lkeeps (loNextOwner l).
Proof.
  intros h a h'. simpl. unfold aNextOwner, aGetOwner, a_rd_item, a_rd_list, lift_opt, mbind, M_bind.
  destruct (a_lists h !! l) as [al|] eqn:El; [|done]. destruct (cursor_next _ _) as [i|]; [|done]. simpl.
  destruct (a_items h !! i); [|done]. intros [= <- <-]. by eapply put_list_frame.
Qed.

(** A computation that only reads. *)
Lemma reader_keeps {A} (m : M AH A) : (forall h a h', m h = Some (a, h') -> h' = h) -> lkeeps m.
Proof. intros Hm h a h' E. by rewrite (Hm _ _ _ E). Qed.

Ltac solve_reader :=
  apply reader_keeps; intros ?h ?a ?h'; simpl;
  unfold aHeadValue, aHeadOwner, aGetValue, aGetOwner, aContainer, aLength, a_rd_item, a_rd_list, mbind, M_bind, mret, M_ret;
  repeat case_match; unfold fault; repeat case_match; intros; by simplify_eq.

Lemma get_value_keeps i : lkeeps (loGetValue i).
Proof. solve_reader. Qed.
Lemma container_keeps i : lkeeps (loContainer i).
Proof. solve_reader. Qed.
Lemma length_keeps l : lkeeps (loLength l).
Proof. solve_reader. Qed.
Lemma head_value_keeps l : lkeeps (loHeadValue l).
Proof. solve_reader. Qed.
Lemma head_owner_keeps l : lkeeps (loHeadOwner l).
Proof. solve_reader. Qed.

End Frames.

(** ** Walking through definitions *)

Create HintDb keeps discriminated.
#[export] Hint Constants Opaque : keeps.
#[export] Hint Resolve keeps_rdv keeps_rd_tcb keeps_onlist : keeps.
#[export] Hint Resolve insert_end_keeps insert_keeps remove_keeps next_owner_keeps get_value_keeps container_keeps
  length_keeps head_value_keeps head_owner_keeps : keeps.

Ltac keeps_step :=
  match goal with
  | |- keeps (mbind _ _) => apply keeps_bind; [|intros ?]
  | |- keeps (mret _) => apply keeps_ret
  | |- keeps fault => apply keeps_fault
  | |- keeps (lift_opt _) => apply keeps_lift_opt
  | |- keeps (when _ _) => apply keeps_when
  | |- keeps (wrv _) => apply keeps_wrv; intros ?; repeat case_match; by split
  | |- keeps (wr_tcb _ _) => apply keeps_wr_tcb; intros ?; repeat case_match; by split
  | |- pkeeps (mbind _ _) => apply pkeeps_bind; [|intros ?]
  | |- pkeeps (mret _) => apply pkeeps_ret
  | |- pkeeps (atomic _) => apply pkeeps_atomic
  | |- keeps ((if ?b then _ else _) _) => destruct b
  | |- keeps (if ?b then _ else _) => destruct b
  | |- pkeeps (if ?b then _ else _) => destruct b
  | |- keeps (match ?b with _ => _ end) => destruct b
  | |- pkeeps (match ?b with _ => _ end) => destruct b
  end.
Ltac solve_keeps := repeat (keeps_step || (progress cbv zeta) || solve [eauto with keeps]); eauto with keeps.

Lemma u32_max z : u32 z <= portMAX_DELAY.
Proof. pose proof (u32_spec z). unfold portMAX_DELAY. u32_lia. Qed.
Lemma set_wake_keeps t z : lkeeps (loSetValue (StateItem t) z).
Proof. apply set_value_keeps. by right. Qed.
Lemma set_event_keeps t z : lkeeps (loSetValue (EventItem t) (u32 z)).
Proof. apply set_value_keeps. left. apply u32_max. Qed.
#[export] Hint Resolve set_wake_keeps set_event_keeps : keeps.

Lemma keeps_ready_list p : keeps (ready_list p).
Proof. unfold ready_list. solve_keeps. Qed.
Lemma keeps_listREMOVE i : keeps (listREMOVE i).
Proof. unfold listREMOVE. solve_keeps. Qed.
Lemma keeps_listIS_EMPTY l : keeps (listIS_EMPTY l).
Proof. unfold listIS_EMPTY. solve_keeps. Qed.
Lemma keeps_contained l i : keeps (listIS_CONTAINED_WITHIN l i).
Proof. unfold listIS_CONTAINED_WITHIN. solve_keeps. Qed.
#[export] Hint Resolve keeps_ready_list keeps_listREMOVE keeps_listIS_EMPTY keeps_contained : keeps.
Lemma keeps_portRESET p : keeps (portRESET_READY_PRIORITY p).
Proof. unfold portRESET_READY_PRIORITY. solve_keeps. Qed.
Lemma keeps_record p : keeps (taskRECORD_READY_PRIORITY p).
Proof. unfold taskRECORD_READY_PRIORITY. solve_keeps. Qed.
Lemma keeps_select : keeps taskSELECT_HIGHEST_PRIORITY_TASK.
Proof. unfold taskSELECT_HIGHEST_PRIORITY_TASK. solve_keeps. Qed.
#[export] Hint Resolve keeps_portRESET keeps_record keeps_select : keeps.
Lemma keeps_add t : keeps (prvAddTaskToReadyList t).
Proof. unfold prvAddTaskToReadyList. solve_keeps. Qed.
Lemma keeps_reset_next : keeps prvResetNextTaskUnblockTime.
Proof. unfold prvResetNextTaskUnblockTime. solve_keeps. Qed.
#[export] Hint Resolve keeps_add keeps_reset_next : keeps.
Lemma keeps_switch_lists : keeps taskSWITCH_DELAYED_LISTS.
Proof. unfold taskSWITCH_DELAYED_LISTS. solve_keeps. Qed.
Lemma keeps_handle x : keeps (prvGetTCBFromHandle x).
Proof. unfold prvGetTCBFromHandle. solve_keeps. Qed.
Lemma keeps_switch : keeps vTaskSwitchContext.
Proof. unfold vTaskSwitchContext. solve_keeps. Qed.
#[export] Hint Resolve keeps_switch_lists keeps_handle keeps_switch : keeps.
Lemma keeps_yield : keeps portYIELD.
Proof. apply keeps_switch. Qed.
Lemma keeps_end_switching b : keeps (portEND_SWITCHING_ISR b).
Proof. unfold portEND_SWITCHING_ISR. solve_keeps. Qed.
Lemma keeps_add_delayed n b : keeps (prvAddCurrentTaskToDelayedList n b).
Proof. unfold prvAddCurrentTaskToDelayedList. solve_keeps. Qed.
Lemma keeps_wake_loop n t s : keeps (wake_loop n t s).
Proof. revert s. induction n as [|n IH]; intros s; cbn [wake_loop]; solve_keeps. Qed.
Lemma keeps_tick_hook : keeps vApplicationTickHook.
Proof. unfold vApplicationTickHook. solve_keeps. Qed.
#[export] Hint Resolve keeps_yield keeps_end_switching keeps_add_delayed keeps_wake_loop keeps_tick_hook : keeps.
Lemma keeps_tick : keeps xTaskIncrementTick.
Proof. unfold xTaskIncrementTick. solve_keeps. Qed.
#[export] Hint Resolve keeps_tick : keeps.
Lemma keeps_timer_interrupt : keeps timer_interrupt.
Proof. unfold timer_interrupt. solve_keeps. Qed.
Lemma keeps_suspend_all : keeps vTaskSuspendAll.
Proof. unfold vTaskSuspendAll. solve_keeps. Qed.
Lemma keeps_pending_loop n t : keeps (pending_ready_loop n t).
Proof. revert t. induction n as [|n IH]; intros s; cbn [pending_ready_loop]; solve_keeps. Qed.
Lemma keeps_pended_loop n : keeps (pended_ticks_loop n).
Proof. induction n as [|n IH]; cbn [pended_ticks_loop]; solve_keeps. Qed.
#[export] Hint Resolve keeps_timer_interrupt keeps_suspend_all keeps_pending_loop keeps_pended_loop : keeps.
Lemma keeps_resume_all : keeps xTaskResumeAll.
Proof. unfold xTaskResumeAll. solve_keeps. Qed.
#[export] Hint Resolve keeps_resume_all : keeps.
Lemma keeps_delay n : pkeeps (vTaskDelay n).
Proof. unfold vTaskDelay. solve_keeps. Qed.
Lemma keeps_move_ready t p r : keeps (move_ready_task t p r).
Proof. unfold move_ready_task. solve_keeps. Qed.
Lemma keeps_event_value t z : keeps (set_event_value t (u32 z)).
Proof. unfold set_event_value. solve_keeps. Qed.
#[export] Hint Resolve keeps_move_ready keeps_event_value : keeps.
Lemma keeps_priority_set t p : keeps (vTaskPrioritySet t p).
Proof. unfold vTaskPrioritySet. solve_keeps. Qed.
Lemma keeps_place l n : keeps (vTaskPlaceOnEventList l n).
Proof. unfold vTaskPlaceOnEventList. solve_keeps. Qed.
Lemma keeps_ready_or_pend t : keeps (ready_or_pend t).
Proof. unfold ready_or_pend. solve_keeps. Qed.
Lemma keeps_note t : keeps (note_if_higher t).
Proof. unfold note_if_higher. solve_keeps. Qed.
#[export] Hint Resolve keeps_priority_set keeps_place keeps_ready_or_pend keeps_note : keeps.
Lemma keeps_remove_event l : keeps (xTaskRemoveFromEventList l).
Proof. unfold xTaskRemoveFromEventList. solve_keeps. Qed.
#[export] Hint Resolve keeps_remove_event : keeps.
