(* ===== verification/KernelSteps.v ===== *)
(** * Rules for the steps the scheduler is made of

    Weakest-precondition rules for the accesses to variables, TCBs and lists,
    for entering a ready list, and the relation [woken], which says what it
    means to make a set of tasks ready.  [wstep] applies the rule for the next
    step of a computation. *)

From S2P Require Import Prelude Simulation Config ListC ListSpec ListRefine ListObs ListProps Heap4 Kernel Tasks KernelInv.

Section Steps.
Implicit Types (X : Z -> Prop) (h : AH) (v : Vars) (i : item) (l : list_id).

Lemma wp_remove (Q : Z -> KA -> Prop) h v i l :
  awf h -> cont_of h i = Some l ->
  (forall a', moved h a' i l None (drop_elem i (items_of h l)) ->
    Q (Z.of_nat (length (drop_elem i (items_of h l)))) (mkKernel a' v)) ->
  wp (onlist (loRemove i)) Q (mkKernel h v).
Proof.
  intros Hwf Hc HQ. destruct (aRemove_run h i l Hwf Hc) as (a' & Hrun & Hm & _).
  eapply wp_onlist; [exact Hrun|]. by apply HQ.
Qed.

Lemma wp_listREMOVE (Q : unit -> KA -> Prop) h v i l :
  awf h -> cont_of h i = Some l ->
  (forall a', moved h a' i l None (drop_elem i (items_of h l)) -> Q tt (mkKernel a' v)) ->
  wp (listREMOVE i) Q (mkKernel h v).
Proof.
  intros Hwf Hc HQ. apply wp_bind. eapply wp_remove; [done|done|]. intros a' Hm. apply wp_ret. by apply HQ.
Qed.

Lemma wp_insert_end (Q : unit -> KA -> Prop) h v i l :
  awf h -> is_Some (a_items h !! i) -> cont_of h i = None -> is_Some (a_lists h !! l) ->
  (forall a' xs1 xs2, items_of h l = xs1 ++ xs2 -> index_of h l = head xs2 ->
    moved h a' i l (Some l) (xs1 ++ i :: xs2) -> index_of a' l = index_of h l -> Q tt (mkKernel a' v)) ->
  wp (onlist (loInsertEnd l i)) Q (mkKernel h v).
Proof.
  intros Hwf Hi Hc Hl HQ.
  destruct (aInsertEnd_run h i l Hwf Hi Hc Hl) as (a' & xs1 & xs2 & Hrun & E & Hidx & Hm & Hidx').
  eapply wp_onlist; [exact Hrun|]. by eapply HQ.
Qed.

Lemma wp_insert (Q : unit -> KA -> Prop) h v i l :
  awf h -> is_Some (a_items h !! i) -> cont_of h i = None -> is_Some (a_lists h !! l) ->
  val_of h i <= portMAX_DELAY -> Forall (fun j => val_of h j <= portMAX_DELAY) (items_of h l) ->
  (forall a', moved h a' i l (Some l) (insert_sorted (val_of h) (val_of h i) i (items_of h l)) ->
    Q tt (mkKernel a' v)) ->
  wp (onlist (loInsert l i)) Q (mkKernel h v).
Proof.
  intros Hwf Hi Hc Hl Hv Hall HQ.
  destruct (aInsert_run h i l Hwf Hi Hc Hl Hv Hall) as (a' & Hrun & Hm & _).
  eapply wp_onlist; [exact Hrun|]. by apply HQ.
Qed.

Lemma wp_length (Q : Z -> KA -> Prop) h v l :
  is_Some (a_lists h !! l) -> Q (Z.of_nat (length (items_of h l))) (mkKernel h v) ->
  wp (onlist (loLength l)) Q (mkKernel h v).
Proof.
  intros [al Hal] HQ. eapply wp_onlist; [|exact HQ]. simpl. unfold aLength, a_rd_list, mbind, M_bind.
  rewrite Hal. unfold items_of. by rewrite Hal.
Qed.

Lemma wp_listIS_EMPTY (Q : bool -> KA -> Prop) h v l :
  is_Some (a_lists h !! l) -> Q (bool_decide (items_of h l = [])) (mkKernel h v) ->
  wp (listIS_EMPTY l) Q (mkKernel h v).
Proof.
  intros Hl HQ. apply wp_bind. apply wp_length; [done|]. apply wp_ret.
  destruct (items_of h l); exact HQ.
Qed.

Lemma wp_head_owner (Q : Z -> KA -> Prop) h v l i xs :
  awf h -> items_of h l = i :: xs -> Q (owner_of h i) (mkKernel h v) ->
  wp (onlist (loHeadOwner l)) Q (mkKernel h v).
Proof.
  intros Hwf E HQ. assert (Hi : i ∈ items_of h l) by (rewrite E; set_solver).
  pose proof (items_of_exists _ _ _ Hi) as (al & Hal & E').
  apply (awf_mem _ Hwf), cont_of_some in Hi as (x & Hx & _).
  eapply wp_onlist; [|exact HQ]. simpl. unfold aHeadOwner, a_rd_list, aGetOwner, a_rd_item, mbind, M_bind.
  rewrite Hal. rewrite <- E', E, Hx. unfold owner_of. by rewrite Hx.
Qed.

Lemma wp_head_value (Q : Z -> KA -> Prop) h v l :
  awf h -> is_Some (a_lists h !! l) ->
  Q (match items_of h l with [] => portMAX_DELAY | i :: _ => val_of h i end) (mkKernel h v) ->
  wp (onlist (loHeadValue l)) Q (mkKernel h v).
Proof.
  intros Hwf [al Hal] HQ. pose proof (awf_mem _ Hwf) as Hmem. unfold items_of in *.
  eapply wp_onlist; [|exact HQ]. simpl. unfold aHeadValue, a_rd_list, aGetValue, a_rd_item, mbind, M_bind.
  rewrite Hal. simpl. destruct (al_items al) as [|i xs] eqn:E; [done|].
  assert (Hc : cont_of h i = Some l) by (apply Hmem; rewrite Hal; simpl; rewrite E; set_solver).
  apply cont_of_some in Hc as (x & Hx & _). unfold val_of. by rewrite Hx.
Qed.

Lemma wp_get_value (Q : Z -> KA -> Prop) h v i :
  is_Some (a_items h !! i) -> Q (val_of h i) (mkKernel h v) -> wp (onlist (loGetValue i)) Q (mkKernel h v).
Proof.
  intros [x Hx] HQ. eapply wp_onlist; [|exact HQ]. simpl. unfold aGetValue, a_rd_item, mbind, M_bind.
  rewrite Hx. unfold val_of. by rewrite Hx.
Qed.

Lemma wp_get_owner (Q : Z -> KA -> Prop) h v i :
  is_Some (a_items h !! i) -> Q (owner_of h i) (mkKernel h v) -> wp (onlist (loGetOwner i)) Q (mkKernel h v).
Proof.
  intros [x Hx] HQ. eapply wp_onlist; [|exact HQ]. simpl. unfold aGetOwner, a_rd_item, mbind, M_bind.
  rewrite Hx. unfold owner_of. by rewrite Hx.
Qed.

Lemma wp_container (Q : option list_id -> KA -> Prop) h v i :
  is_Some (a_items h !! i) -> Q (cont_of h i) (mkKernel h v) -> wp (onlist (loContainer i)) Q (mkKernel h v).
Proof.
  intros [x Hx] HQ. eapply wp_onlist; [|exact HQ]. simpl. unfold aContainer, a_rd_item, mbind, M_bind.
  rewrite Hx. unfold cont_of. by rewrite Hx.
Qed.

Lemma wp_contained (Q : bool -> KA -> Prop) h v l i :
  is_Some (a_items h !! i) -> Q (bool_decide (cont_of h i = Some l)) (mkKernel h v) ->
  wp (listIS_CONTAINED_WITHIN l i) Q (mkKernel h v).
Proof. intros Hi HQ. apply wp_bind. apply wp_container; [done|]. by apply wp_ret. Qed.

(** Only a value changes: what is known of the rest carries over. *)
Lemma wp_set_value (Q : unit -> KA -> Prop) h v i z :
  awf h -> is_Some (a_items h !! i) ->
  (forall a', awf a' -> (forall l, items_of a' l = items_of h l) -> (forall j, cont_of a' j = cont_of h j) ->
    (forall j, val_of a' j = if decide (j = i) then z else val_of h j) ->
    (forall j, owner_of a' j = owner_of h j) ->
    (forall j, is_Some (a_items a' !! j) <-> is_Some (a_items h !! j)) -> a_lists a' = a_lists h ->
    Q tt (mkKernel a' v)) ->
  wp (onlist (loSetValue i z)) Q (mkKernel h v).
Proof.
  intros Hwf Hi HQ. destruct (aSetValue_run h i z Hwf Hi) as (a' & Hrun & ?&?&?&?&?&?&?).
  eapply wp_onlist; [exact Hrun|]. by apply HQ.
Qed.

Lemma wp_ready_list (Q : list_id -> KA -> Prop) k p : prio_ok p -> Q (Ready p) k -> wp (ready_list p) Q k.
Proof.
  intros Hp HQ. eapply wp_lift_opt; [|exact HQ].
  apply is_ready_list in Hp. simpl in Hp. by rewrite Hp.
Qed.

Lemma ready_list_exists X k p : kcore X k -> prio_ok p -> is_Some (a_lists (k_lists k) !! Ready p).
Proof.
  intros HK Hp. apply (kc_lists _ _ HK). unfold is_static_list. apply is_ready_list in Hp. by rewrite Hp.
Qed.

Lemma state_list_exists X k l : kcore X k -> is_state_list l = true -> is_Some (a_lists (k_lists k) !! l).
Proof. intros HK Hl. apply (kc_lists _ _ HK). unfold is_static_list. by rewrite Hl. Qed.

Definition record_ready (p : Z) (v : Vars) : Vars :=
  set_uxTopReadyPriority (portRECORD_READY_PRIORITY p (uxTopReadyPriority v)) v.
Definition reset_ready (p : Z) (v : Vars) : Vars :=
  set_uxTopReadyPriority (portRESET_READY_PRIORITY_bits p (uxTopReadyPriority v)) v.

(** A task that is in no list enters the ready list of its priority. *)
Lemma wp_add_ready_raw (Q : unit -> KA -> Prop) h v t x :
  awf h -> tcbs v !! t = Some x -> prio_ok (uxPriority x) -> is_Some (a_items h !! StateItem t) ->
  cont_of h (StateItem t) = None -> is_Some (a_lists h !! Ready (uxPriority x)) ->
  (forall a' xs1 xs2, items_of h (Ready (uxPriority x)) = xs1 ++ xs2 ->
    index_of h (Ready (uxPriority x)) = head xs2 ->
    moved h a' (StateItem t) (Ready (uxPriority x)) (Some (Ready (uxPriority x))) (xs1 ++ StateItem t :: xs2) ->
    Q tt (mkKernel a' (record_ready (uxPriority x) v))) ->
  wp (prvAddTaskToReadyList t) Q (mkKernel h v).
Proof.
  intros Hwf Hx Hp Hi Hc Hl HQ. apply wp_bind. eapply wp_rd_tcb; [exact Hx|].
  apply wp_bind, wp_wrv, wp_bind, wp_ready_list; [done|]. apply wp_insert_end; try done.
  intros a' xs1 xs2 E Hidx Hm _. by eapply HQ.
Qed.

Lemma wp_add_ready X (Q : unit -> KA -> Prop) h v t x :
  kcore X (mkKernel h v) -> tcbs v !! t = Some x -> cont_of h (StateItem t) = None ->
  (forall a' xs1 xs2, items_of h (Ready (uxPriority x)) = xs1 ++ xs2 ->
    index_of h (Ready (uxPriority x)) = head xs2 ->
    moved h a' (StateItem t) (Ready (uxPriority x)) (Some (Ready (uxPriority x))) (xs1 ++ StateItem t :: xs2) ->
    kcore (except X (uxPriority x)) (mkKernel a' (record_ready (uxPriority x) v)) ->
    Q tt (mkKernel a' (record_ready (uxPriority x) v))) ->
  wp (prvAddTaskToReadyList t) Q (mkKernel h v).
Proof.
  intros HK Hx Hc HQ. destruct (kc_prio _ _ HK _ _ Hx) as [Hp _].
  eapply wp_add_ready_raw; [apply (kc_wf _ _ HK)|exact Hx|done|by apply (kc_item _ _ HK t); simpl; rewrite Hx|done|
    by apply (ready_list_exists _ _ _ HK)|].
  intros a' xs1 xs2 E Hidx Hm. eapply HQ; [done|done|done|]. by eapply kcore_insert_ready.
Qed.

(** The bit of a list that has just lost an item is cleared if the list is
    empty now. *)
Definition reset_if (b : bool) (p : Z) (v : Vars) : Vars := if b then reset_ready p v else v.

Lemma reset_if_core X h v p n : kcore (also X p) (mkKernel h v) -> prio_ok p ->
  n = Z.of_nat (length (items_of h (Ready p))) -> kcore X (mkKernel h (reset_if (n =? 0) p v)).
Proof.
  intros HK Hp ->. destruct (items_of h (Ready p)) as [|i xs] eqn:E; simpl.
  - by apply kcore_reset.
  - eapply kcore_keep; [exact HK|]. simpl. by rewrite E.
Qed.

Lemma reset_if_shape b p v : exists z, reset_if b p v = set_uxTopReadyPriority z v.
Proof. destruct b; simpl; [by eexists|]. exists (uxTopReadyPriority v). by destruct v. Qed.

Lemma wp_reset_when (Q : unit -> KA -> Prop) h v b p : Q tt (mkKernel h (reset_if b p v)) ->
  wp (when b (portRESET_READY_PRIORITY p)) Q (mkKernel h v).
Proof. intros HQ. by destruct b; [apply wp_wrv|apply wp_ret]. Qed.

(** taskRESET_READY_PRIORITY looks at the list itself. *)
Lemma wp_taskRESET X (Q : unit -> KA -> Prop) h v p : kcore X (mkKernel h v) -> prio_ok p ->
  (forall b, kcore (except X p) (mkKernel h (reset_if b p v)) -> Q tt (mkKernel h (reset_if b p v))) ->
  wp (taskRESET_READY_PRIORITY p) Q (mkKernel h v).
Proof.
  intros HK Hp HQ. apply wp_bind, wp_ready_list; [done|].
  apply wp_bind, wp_length; [by apply (ready_list_exists _ _ _ HK)|]. apply wp_reset_when, HQ.
  apply reset_if_core; [|done|done]. eapply kcore_weaken; [|exact HK].
  intros q HX. unfold also, except. destruct (decide (q = p)); [by right|by left].
Qed.

(** ** Making tasks ready *)

(** Does [d] hold of the task an item belongs to? *)
Definition of_task (d : Z -> bool) (i : item) : bool :=
  match i with StateItem t | EventItem t => d t | TimerItem _ => false end.

(** The tasks for which [d] holds have become ready; nothing else has moved. *)
Record woken (d : Z -> bool) (v : Vars) (h a' : AH) : Prop := {
  wk_yes t x : d t = true -> tcbs v !! t = Some x ->
    cont_of a' (StateItem t) = Some (Ready (uxPriority x)) /\ cont_of a' (EventItem t) = None;
  wk_no i : of_task d i = false -> cont_of a' i = cont_of h i;
  wk_val i : val_of a' i = val_of h i;
  wk_items l : (forall p, l <> Ready p) ->
    items_of a' l = filter (fun i => of_task d i = false) (items_of h l);
  wk_lists l : is_Some (a_lists a' !! l) <-> is_Some (a_lists h !! l);
  wk_dom i : is_Some (a_items a' !! i) <-> is_Some (a_items h !! i);
  wk_owner i : owner_of a' i = owner_of h i;
  wk_wf : awf h -> awf a'
}.

Lemma filter_keep_all {A} (P : A -> Prop) `{!forall x, Decision (P x)} (xs : list A) :
  (forall x, x ∈ xs -> P x) -> filter P xs = xs.
Proof.
  induction xs as [|x xs IH]; [done|]. intros HP.
  rewrite filter_cons_True by (apply HP; set_solver). f_equal. apply IH. set_solver.
Qed.

Lemma woken_refl v h : woken (fun _ => false) v h h.
Proof. split; try done. intros l _. symmetry. apply filter_keep_all. by intros [] _. Qed.

Lemma of_task_orb d1 d2 i : of_task (fun t => d1 t || d2 t) i = of_task d1 i || of_task d2 i.
Proof. by destruct i. Qed.
Lemma of_task_ext d d' i : (forall t, d t = d' t) -> of_task d i = of_task d' i.
Proof. intros E. destruct i; simpl; done. Qed.
Lemma of_task_eqb t i : of_task (Z.eqb t) i = false <-> i <> StateItem t /\ i <> EventItem t.
Proof. destruct i as [u|u|u]; simpl; rewrite ?Z.eqb_neq; naive_solver. Qed.

Lemma woken_trans d1 d2 v h1 h2 h3 : woken d1 v h1 h2 -> woken d2 v h2 h3 ->
  woken (fun t => d1 t || d2 t) v h1 h3.
Proof.
  intros [] []. split.
  - intros t x Hd Hx. destruct (d2 t) eqn:E2; [by apply wk_yes1|].
    rewrite orb_false_r in Hd. rewrite !wk_no1 by done. by apply wk_yes0.
  - intros i. rewrite of_task_orb. intros [H1 H2]%orb_false_iff. by rewrite wk_no1, wk_no0.
  - intros i. by rewrite wk_val1.
  - intros l Hl. rewrite wk_items1, wk_items0 by done. rewrite list_filter_filter.
    apply list_filter_iff. intros i. rewrite of_task_orb, orb_false_iff. tauto.
  - intros l. by rewrite wk_lists1.
  - intros i. by rewrite wk_dom1.
  - intros i. by rewrite wk_owner1.
  - auto.
Qed.

Lemma woken_ext d d' v v' h a' : (forall t, d t = d' t) -> tcbs v' = tcbs v -> woken d v h a' -> woken d' v' h a'.
Proof.
  intros E Ev []. split; try done.
  - intros t x. rewrite <- E, Ev. auto.
  - intros i. rewrite <- (of_task_ext d d') by done. auto.
  - intros l Hl. rewrite wk_items0 by done. apply list_filter_iff. intros i. by rewrite (of_task_ext d d').
Qed.

(** The item [i] is in no list now, and nothing else has changed. *)
Record gone (i : item) (h a' : AH) : Prop := {
  gn_cont j : cont_of a' j = if decide (j = i) then None else cont_of h j;
  gn_items l : items_of a' l = drop_elem i (items_of h l);
  gn_val j : val_of a' j = val_of h j;
  gn_lists l : is_Some (a_lists a' !! l) <-> is_Some (a_lists h !! l);
  gn_dom j : is_Some (a_items a' !! j) <-> is_Some (a_items h !! j);
  gn_owner j : owner_of a' j = owner_of h j;
  gn_wf : awf a'
}.

Lemma moved_gone h a' i l : awf h -> cont_of h i = Some l ->
  moved h a' i l None (drop_elem i (items_of h l)) -> gone i h a'.
Proof.
  intros Hwf Hc []. split; try done. intros l'. rewrite mv_items. case_decide; [by subst|].
  symmetry. apply drop_elem_notin. rewrite (awf_mem _ Hwf). congruence.
Qed.

Lemma gone_refl h i : awf h -> cont_of h i = None -> gone i h h.
Proof.
  intros Hwf Hc. split; try done.
  - intros j. case_decide; [by subst|done].
  - intros l. symmetry. apply drop_elem_notin. rewrite (awf_mem _ Hwf). congruence.
Qed.

(** The moves that make one task ready: its two items are taken out of their
    lists, in either order, and it enters its ready list. *)
Lemma gone_woken v h a1 a2 a3 t x i j xs1 xs2 :
  tcbs v !! t = Some x ->
  (i = StateItem t /\ j = EventItem t) \/ (i = EventItem t /\ j = StateItem t) ->
  gone i h a1 -> gone j a1 a2 ->
  moved a2 a3 (StateItem t) (Ready (uxPriority x)) (Some (Ready (uxPriority x))) (xs1 ++ StateItem t :: xs2) ->
  woken (Z.eqb t) v h a3.
Proof.
  intros Hx Hij G1 G2 M3. pose proof (mv_cont _ _ _ _ _ _ M3) as Hco.
  split.
  - intros t' y Et Hy. apply Z.eqb_eq in Et as <-. split; rewrite Hco.
    + rewrite decide_True by done. congruence.
    + rewrite decide_False by done. rewrite (gn_cont _ _ _ G2), (gn_cont _ _ _ G1).
      destruct Hij as [[-> ->]|[-> ->]]; repeat case_decide; done.
  - intros i' [??]%of_task_eqb. rewrite Hco, (gn_cont _ _ _ G2), (gn_cont _ _ _ G1).
    destruct Hij as [[-> ->]|[-> ->]]; by rewrite !decide_False.
  - intros i'. by rewrite (mv_val _ _ _ _ _ _ M3), (gn_val _ _ _ G2), (gn_val _ _ _ G1).
  - intros l' Hnr. rewrite (mv_items _ _ _ _ _ _ M3). rewrite decide_False by done.
    rewrite (gn_items _ _ _ G2), (gn_items _ _ _ G1). unfold drop_elem. rewrite list_filter_filter.
    apply list_filter_iff. intros i'. rewrite of_task_eqb. destruct Hij as [[-> ->]|[-> ->]]; naive_solver.
  - intros l'. by rewrite (mv_lists _ _ _ _ _ _ M3), (gn_lists _ _ _ G2), (gn_lists _ _ _ G1).
  - intros i'. by rewrite (mv_dom _ _ _ _ _ _ M3), (gn_dom _ _ _ G2), (gn_dom _ _ _ G1).
  - intros i'. by rewrite (mv_owner _ _ _ _ _ _ M3), (gn_owner _ _ _ G2), (gn_owner _ _ _ G1).
  - intros _. apply M3.
Qed.

(** The event item is taken out of whatever event list it is in. *)
Definition unlinked (h a' : AH) (t : Z) : Prop :=
  (exists l2, cont_of h (EventItem t) = Some l2 /\
     moved h a' (EventItem t) l2 None (drop_elem (EventItem t) (items_of h l2))) \/
  (cont_of h (EventItem t) = None /\ a' = h).

Lemma event_not_ready X k t l : kcore X k -> cont_of (k_lists k) (EventItem t) = Some l -> forall p, l <> Ready p.
Proof. intros HK [_ He]%(kc_event _ _ HK) p ->. done. Qed.

Lemma unlinked_cont h a' t i : unlinked h a' t ->
  cont_of a' i = if decide (i = EventItem t) then None else cont_of h i.
Proof.
  intros [(l2 & H2 & M2)|[H2 ->]].
  - by rewrite (mv_cont _ _ _ _ _ _ M2).
  - case_decide; [by subst|done].
Qed.

Lemma unlinked_core X h v a' t : kcore X (mkKernel h v) -> unlinked h a' t -> kcore X (mkKernel a' v).
Proof.
  intros HK [(l2 & H2 & M2)|[H2 ->]]; [|done]. eapply kcore_remove_other; [exact HK|exact M2|].
  by eapply (event_not_ready _ _ _ _ HK).
Qed.

Lemma unlinked_time h v a' t : ktime (mkKernel h v) -> unlinked h a' t -> ktime (mkKernel a' v).
Proof. intros HT [(l2 & H2 & M2)|[H2 ->]]; [|done]. by eapply ktime_remove. Qed.

Lemma wp_unlink_event X (Q : unit -> KA -> Prop) h v t :
  kcore X (mkKernel h v) -> (forall a', unlinked h a' t -> Q tt (mkKernel a' v)) ->
  wp (match cont_of h (EventItem t) with Some _ => listREMOVE (EventItem t) | None => mret tt end) Q
    (mkKernel h v).
Proof.
  intros HK HQ. destruct (cont_of h (EventItem t)) as [l|] eqn:E.
  - eapply wp_listREMOVE; [apply (kc_wf _ _ HK)|exact E|]. intros a' Hm. apply HQ. left. eauto.
  - apply wp_ret. apply HQ. by right.
Qed.

Lemma unlinked_gone h a' t : awf h -> unlinked h a' t -> gone (EventItem t) h a'.
Proof.
  intros Hwf [(l2 & H2 & M2)|[H2 ->]]; [by eapply moved_gone|by apply gone_refl].
Qed.

(** Nothing about software timers has changed. *)
Record same_timers (k k' : KA) : Prop := {
  sa_wf : awf (k_lists k) -> awf (k_lists k');
  sa_vars : timer_vars (k_vars k') = timer_vars (k_vars k);
  sa_calls : callbacks (k_vars k') = callbacks (k_vars k);
  sa_items l : is_timer_list l = true -> items_of (k_lists k') l = items_of (k_lists k) l;
  sa_lists l : is_timer_list l = true -> is_Some (a_lists (k_lists k) !! l) -> is_Some (a_lists (k_lists k') !! l);
  sa_item t : is_Some (a_items (k_lists k) !! TimerItem t) -> is_Some (a_items (k_lists k') !! TimerItem t);
  sa_cont t : cont_of (k_lists k') (TimerItem t) = cont_of (k_lists k) (TimerItem t);
  sa_val t : val_of (k_lists k') (TimerItem t) = val_of (k_lists k) (TimerItem t);
  sa_owner t : owner_of (k_lists k') (TimerItem t) = owner_of (k_lists k) (TimerItem t)
}.

Lemma same_timers_refl k : same_timers k k.
Proof. by split. Qed.

Lemma same_timers_trans k1 k2 k3 : same_timers k1 k2 -> same_timers k2 k3 -> same_timers k1 k3.
Proof.
  intros [] []. split; auto; intros; try congruence.
  by rewrite sa_items1, sa_items0.
Qed.

Lemma timer_list_items X k l i : kcore X k -> is_timer_list l = true -> i ∈ items_of (k_lists k) l -> exists t, i = TimerItem t.
Proof.
  intros HK Hl Hi. apply (awf_mem _ (kc_wf _ _ HK)) in Hi. destruct i as [t|t|t]; [| |eauto].
  - destruct (kc_state _ _ HK _ _ Hi) as [_ Hs]. by destruct l.
  - destruct (kc_event _ _ HK _ _ Hi) as [_ Hs]. by destruct l.
Qed.

Lemma woken_timers X d h v v' a' : kcore X (mkKernel h v) -> woken d v h a' -> timer_vars v' = timer_vars v ->
  callbacks v' = callbacks v -> same_timers (mkKernel h v) (mkKernel a' v').
Proof.
  intros HK [] E1 E2. split; simpl; auto.
  - intros l Hl. rewrite wk_items0 by (by intros p ->). apply filter_keep_all. intros i Hi.
    by destruct (timer_list_items _ _ _ _ HK Hl Hi) as [t ->].
  - intros l _. by rewrite wk_lists0.
  - intros t. by rewrite wk_dom0.
Qed.

Lemma except_none p q : except none p q -> none q.
Proof. by intros []. Qed.

Lemma woken_time d h v a' v' : woken d v h a' -> ktime (mkKernel h v) ->
  delayed_pair (pxDelayedTaskList v) (pxOverflowDelayedTaskList v) ->
  xTickCount v' = xTickCount v -> xNextTaskUnblockTime v' = xNextTaskUnblockTime v ->
  pxDelayedTaskList v' = pxDelayedTaskList v -> pxOverflowDelayedTaskList v' = pxOverflowDelayedTaskList v ->
  ktime (mkKernel a' v').
Proof.
  intros Hw HT Hp E1 E2 E3 E4. apply (ktime_vars _ v); try done. destruct HT.
  assert (Hnr : forall p, pxDelayedTaskList v <> Ready p /\ pxOverflowDelayedTaskList v <> Ready p).
  { intros p. destruct Hp as [[-> ->]|[-> ->]]; done. }
  split; simpl in *; [done|..]; rewrite (wk_items _ _ _ _ Hw) by apply Hnr.
  - intros i [_ Hi]%list_elem_of_filter. rewrite (wk_val _ _ _ _ Hw). auto.
  - intros i [_ Hi]%list_elem_of_filter. rewrite (wk_val _ _ _ _ Hw). auto.
  - apply sorted_by_filter. eapply sorted_by_ext; [|done]. intros i _. by rewrite (wk_val _ _ _ _ Hw).
  - apply sorted_by_filter. eapply sorted_by_ext; [|done]. intros i _. by rewrite (wk_val _ _ _ _ Hw).
Qed.

End Steps.

(** One step of a computation: the rule for its first operation. *)
Ltac wstep :=
  lazymatch goal with
  | |- wp (mret _) _ _ => apply wp_ret
  | |- wp (_ ≫= _) _ _ => apply wp_bind; cbv beta
  | |- wp (rdv _) _ _ => apply wp_rdv; simpl
  | |- wp (wrv _) _ _ => apply wp_wrv; simpl
  | |- wp (rd_tcb _ _) _ _ => eapply wp_rd_tcb; [eassumption|]; simpl
  | |- wp (wr_tcb _ _) _ _ => eapply wp_wr_tcb; [eassumption|]; simpl
  end.
Ltac wsteps := repeat wstep.
