(* ===== verification/SchedProps.v ===== *)
(** * What the scheduler does

    vTaskSwitchContext runs one of the ready tasks of the highest priority, in
    turn; xTaskIncrementTick makes exactly the tasks ready whose time has
    come, also when the tick count wraps; a task that delays itself runs again
    after exactly the number of ticks it asked for.  The lemmas are proved on
    the abstract lists; the theorems hold of the pointer lists of list.c. *)

From S2P Require Import Prelude Simulation Config ListC ListSpec ListRefine ListObs ListProps Heap4 Kernel Tasks TaskApi TaskEvents Queue KernelRefine KernelInv KernelSteps.

(** ** Selecting a task *)

Section Select.
Implicit Types (X : Z -> Prop) (h : AH) (v : Vars) (k : KA).

(** The running task is ready, and no ready task is more urgent. *)
Definition runs_highest k : Prop :=
  exists x, tcbs (k_vars k) !! pxCurrentTCB (k_vars k) = Some x /\
    cont_of (k_lists k) (StateItem (pxCurrentTCB (k_vars k))) = Some (Ready (uxPriority x)) /\
    forall t p, cont_of (k_lists k) (StateItem t) = Some (Ready p) -> p <= uxPriority x.

Definition some_ready k : Prop := exists t p, cont_of (k_lists k) (StateItem t) = Some (Ready p).

(** Only cursors of the lists have moved. *)
Definition same_but_cursors (h h' : AH) : Prop :=
  (forall l, items_of h' l = items_of h l) /\ a_items h' = a_items h /\
  (forall l, is_Some (a_lists h' !! l) <-> is_Some (a_lists h !! l)).

Lemma same_cursors_timers h h' v v' : awf h' -> same_but_cursors h h' -> timer_vars v' = timer_vars v ->
  callbacks v' = callbacks v -> same_timers (mkKernel h v) (mkKernel h' v').
Proof.
  intros Hwf (Hit & Ei & Hls) E1 E2. split; simpl; auto; unfold cont_of, val_of, owner_of; rewrite ?Ei; auto.
  intros l _. by rewrite Hls.
Qed.

Lemma bits_top b : 0 < b -> 31 - builtin_clz b = Z.log2 b.
Proof. unfold builtin_clz. lia. Qed.

(** The head of the cursor's turn exists in a list that is not empty. *)
Lemma cursor_next_some (c : option item) (xs : list item) : xs <> [] -> exists i, cursor_next c xs = Some i.
Proof.
  intros Hne. destruct xs as [|x xs]; [done|]. destruct c as [j|]; simpl; [|eauto].
  case_decide; [destruct (head xs); eauto|]. destruct (succ_of j xs); eauto.
Qed.

Lemma same_cursors_core X h h' v : same_but_cursors h h' -> awf h' ->
  kcore X (mkKernel h v) -> kcore X (mkKernel h' v).
Proof.
  intros (Hit & Ei & Hls) Hwf HK. eapply kcore_values; [exact HK|done|done| | | |done]; intros j;
    unfold cont_of, owner_of; by rewrite Ei.
Qed.

Lemma same_cursors_time h h' v : same_but_cursors h h' -> ktime (mkKernel h v) -> ktime (mkKernel h' v).
Proof.
  intros (Hit & Ei & _) []. assert (Ev : forall j, val_of h' j = val_of h j) by (intros; unfold val_of; by rewrite Ei).
  split; simpl in *; rewrite ?Hit; auto.
  - intros j. rewrite Ev. auto.
  - intros j. rewrite Ev. auto.
  - eapply sorted_by_ext; [|done]. intros j _. by rewrite Ev.
  - eapply sorted_by_ext; [|done]. intros j _. by rewrite Ev.
Qed.

Lemma top_bit X k : kcore X k -> some_ready k ->
  0 < uxTopReadyPriority (k_vars k) /\ prio_ok (Z.log2 (uxTopReadyPriority (k_vars k))) /\
  forall t p, cont_of (k_lists k) (StateItem t) = Some (Ready p) -> p <= Z.log2 (uxTopReadyPriority (k_vars k)).
Proof.
  intros HK (t & p & Ht). pose proof (kc_top _ _ HK) as Htop.
  assert (Hbit : forall t p, cont_of (k_lists k) (StateItem t) = Some (Ready p) ->
    Z.testbit (uxTopReadyPriority (k_vars k)) p = true).
  { intros t' p' Hc. apply (kc_sound _ _ HK). intros E. apply (awf_mem _ (kc_wf _ _ HK)) in Hc.
    rewrite E in Hc. set_solver. }
  assert (Hpos : 0 < uxTopReadyPriority (k_vars k)).
  { destruct (decide (uxTopReadyPriority (k_vars k) = 0)) as [E|]; [|lia].
    specialize (Hbit _ _ Ht). by rewrite E, Z.bits_0 in Hbit. }
  split; [done|]. split.
  - split; [apply Z.log2_nonneg|]. apply Z.log2_lt_pow2; lia.
  - intros t' p' Hc. destruct (Z_le_gt_dec p' (Z.log2 (uxTopReadyPriority (k_vars k)))) as [|Hgt]; [done|].
    specialize (Hbit _ _ Hc). rewrite Z.bits_above_log2 in Hbit by lia. done.
Qed.

(** The choice of the next task: the cursor of the highest list with a task in
    it moves on, and the task it stops at runs. *)
Lemma select_wp h v : kcore none (mkKernel h v) -> some_ready (mkKernel h v) ->
  wp taskSELECT_HIGHEST_PRIORITY_TASK (fun _ k' => exists h' t p, k' = mkKernel h' (set_pxCurrentTCB t v) /\
    same_but_cursors h h' /\ kcore none k' /\ runs_highest k' /\
    cursor_next (index_of h (Ready p)) (items_of h (Ready p)) = Some (StateItem t) /\
    index_of h' (Ready p) = Some (StateItem t) /\
    (forall l, l <> Ready p -> index_of h' l = index_of h l)) (mkKernel h v).
Proof.
  intros HK Hsome. destruct (top_bit _ _ HK Hsome) as (Hpos & Hp & Hmax). simpl in *.
  set (p := Z.log2 (uxTopReadyPriority v)) in *.
  assert (Hne : items_of h (Ready p) <> []).
  { apply (kc_exact _ _ HK p Hp); [by intros []|]. simpl. unfold p. apply Z.bit_log2. lia. }
  destruct (cursor_next_some (index_of h (Ready p)) _ Hne) as [i Hi].
  pose proof (elem_of_cursor_next _ _ _ Hi) as Hin.
  destruct (state_list_item _ _ _ _ HK (proj1 (is_ready_list p) Hp) Hin) as (t & x & -> & Hx). simpl in *.
  destruct (aNextOwner_run _ _ _ (kc_wf _ _ HK) Hi) as (h' & Hrun & Hwf & Hit & Eit & Hls & Hidx & Hidx').
  destruct (kc_item _ _ HK t) as (_ & _ & How & _); [simpl; eauto|]. simpl in *. rewrite How in Hrun.
  unfold taskSELECT_HIGHEST_PRIORITY_TASK. wsteps. rewrite (proj2 (Z.eqb_neq _ _)) by lia.
  rewrite bits_top by done. fold p. wstep. apply wp_ready_list; [done|]. wstep.
  eapply wp_onlist; [exact Hrun|]. wstep.
  assert (Hc : cont_of h (StateItem t) = Some (Ready p)) by by apply (awf_mem _ (kc_wf _ _ HK)).
  assert (Hs : same_but_cursors h h') by done.
  assert (HK' : kcore none (mkKernel h' v)) by by eapply same_cursors_core.
  exists h', t, p. split_and!; try done.
  - apply kcore_current; eauto.
  - exists x. simpl. unfold cont_of. rewrite Eit. split_and!; [done| |].
    + rewrite <- (kc_ready _ _ HK _ _ _ Hc Hx) in Hc. exact Hc.
    + intros t' p' Hc'. rewrite (kc_ready _ _ HK _ _ _ Hc Hx). by eapply Hmax.
Qed.

(** vTaskSwitchContext with the scheduler running. *)
Definition switched (k k' : KA) : Prop :=
  exists h' t p, k' = mkKernel h' (set_pxCurrentTCB t (set_xYieldPending pdFALSE (k_vars k))) /\
    same_but_cursors (k_lists k) h' /\ kcore none k' /\ runs_highest k' /\
    cursor_next (index_of (k_lists k) (Ready p)) (items_of (k_lists k) (Ready p)) = Some (StateItem t) /\
    index_of h' (Ready p) = Some (StateItem t) /\
    (forall l, l <> Ready p -> index_of h' l = index_of (k_lists k) l).

Lemma switch_wp k : kcore none k -> some_ready k -> uxSchedulerSuspended (k_vars k) = 0 ->
  wp vTaskSwitchContext (fun _ k' => switched k k') k.
Proof.
  destruct k as [h v]. intros HK Hsome Hs. unfold vTaskSwitchContext. wsteps. simpl in Hs. rewrite Hs. simpl. wsteps.
  eapply wp_mono; [apply select_wp|].
  - eapply kcore_vars; [..|exact HK]; done.
  - exact Hsome.
  - intros [] k' (h' & t & p & -> & Hr). exists h', t, p. split; [done|]. exact Hr.
Qed.

Lemma switch_suspended_wp k : uxSchedulerSuspended (k_vars k) <> 0 ->
  wp vTaskSwitchContext (fun _ k' => k' = mkKernel (k_lists k) (set_xYieldPending pdTRUE (k_vars k))) k.
Proof.
  intros Hs. unfold vTaskSwitchContext. wsteps. rewrite (proj2 (Z.eqb_neq _ _)) by done. simpl. by wsteps.
Qed.

End Select.

(** ** The tick *)

Section Tick.
Implicit Types (h : AH) (v : Vars) (k : KA).

(** The tasks in the current delayed list whose wake time is not after [c]. *)
Definition due h (l : list_id) (c : Z) (t : Z) : bool :=
  bool_decide (StateItem t ∈ items_of h l) && (val_of h (StateItem t) <=? c).

Lemma due_true h l c t : due h l c t = true <-> StateItem t ∈ items_of h l /\ val_of h (StateItem t) <= c.
Proof. unfold due. rewrite andb_true_iff, bool_decide_eq_true, Z.leb_le. done. Qed.

Definition head_time h (l : list_id) : Z :=
  match items_of h l with [] => portMAX_DELAY | i :: _ => val_of h i end.

Definition at_least v (p : Z) (D : Z -> bool) : Prop :=
  exists t x, D t = true /\ tcbs v !! t = Some x /\ p <= uxPriority x.

Definition is_bool (r : Z) : Prop := r = pdTRUE \/ r = pdFALSE.

Definition wake_post h v (c sw : Z) (r : Z) (k' : KA) : Prop :=
  exists a' n b y, k' = mkKernel a' (set_xNextTaskUnblockTime n (set_uxTopReadyPriority b v)) /\
    kcore none k' /\ woken (due h (pxDelayedTaskList v) c) v h a' /\
    n = head_time a' (pxDelayedTaskList v) /\
    tcbs v !! pxCurrentTCB v = Some y /\ is_bool r /\
    (r = pdTRUE <-> sw = pdTRUE \/ at_least v (uxPriority y) (due h (pxDelayedTaskList v) c)).

(** Nothing is due. *)
Lemma wake_post_none h v c sw y :
  kcore none (mkKernel h v) -> tcbs v !! pxCurrentTCB v = Some y -> is_bool sw ->
  (forall i, i ∈ items_of h (pxDelayedTaskList v) -> c < val_of h i) ->
  wake_post h v c sw sw (mkKernel h (set_xNextTaskUnblockTime (head_time h (pxDelayedTaskList v)) v)).
Proof.
  intros HK Hy Hsw Hall.
  assert (Hno : forall t, due h (pxDelayedTaskList v) c t = false).
  { intros t. destruct (due _ _ _ t) eqn:E; [|done]. apply due_true in E as [Hi Hv]. specialize (Hall _ Hi). lia. }
  exists h, (head_time h (pxDelayedTaskList v)), (uxTopReadyPriority v), y. split_and!; try done.
  - eapply kcore_vars; [..|exact HK]; done.
  - eapply woken_ext; [|done|apply woken_refl]. done.
  - split; [tauto|]. intros [?|(t & x & Ht & _)]; [done|]. by rewrite Hno in Ht.
Qed.

(** One task is made ready. *)
Lemma wake_one h v a1 a2 a3 t x l xs1 xs2 :
  kcore none (mkKernel h v) -> tcbs v !! t = Some x -> cont_of h (StateItem t) = Some l ->
  (forall p, l <> Ready p) ->
  moved h a1 (StateItem t) l None (drop_elem (StateItem t) (items_of h l)) -> unlinked a1 a2 t ->
  moved a2 a3 (StateItem t) (Ready (uxPriority x)) (Some (Ready (uxPriority x))) (xs1 ++ StateItem t :: xs2) ->
  kcore none (mkKernel a2 v) /\ kcore none (mkKernel a3 (record_ready (uxPriority x) v)) /\
  woken (Z.eqb t) v h a3.
Proof.
  intros HK Hx Hl Hnr M1 M2 M3.
  assert (HK2 : kcore none (mkKernel a2 v)) by (eapply unlinked_core; [|done]; by eapply kcore_remove_other).
  split; [done|]. split.
  - eapply kcore_weaken; [apply except_none|]. by eapply kcore_insert_ready.
  - eapply gone_woken; [done|by left| | |done].
    + eapply moved_gone; [apply (kc_wf _ _ HK)|done|done].
    + eapply unlinked_gone; [|done]. apply (mv_wf _ _ _ _ _ _ M1).
Qed.

Lemma due_split h v a' t l c : (forall p, l <> Ready p) -> due h l c t = true -> woken (Z.eqb t) v h a' ->
  forall t', (t =? t') || due a' l c t' = due h l c t'.
Proof.
  intros Hnr Ht Hw t'. destruct (Z.eqb_spec t t') as [<-|Hne]; [done|]. simpl. apply eq_true_iff_eq.
  rewrite !due_true, (wk_val _ _ _ _ Hw), (wk_items _ _ _ _ Hw) by done. rewrite list_elem_of_filter. simpl.
  rewrite Z.eqb_neq. tauto.
Qed.

(** The whole loop, from the state after its first round. *)
Lemma wake_post_step h v a' t x y c sw r k' :
  let l := pxDelayedTaskList v in
  (forall p, l <> Ready p) -> tcbs v !! t = Some x -> tcbs v !! pxCurrentTCB v = Some y ->
  due h l c t = true -> woken (Z.eqb t) v h a' ->
  wake_post a' (record_ready (uxPriority x) v) c (if uxPriority y <=? uxPriority x then pdTRUE else sw) r k' ->
  wake_post h v c sw r k'.
Proof.
  intros l Hnr Hx Hy Ht Hw (a'' & n & b & y' & -> & HK & Hw' & Hn & Hy' & Hb & Hr). simpl in *.
  pose proof (due_split h v a' t l c Hnr Ht Hw) as Hd.
  exists a'', n, b, y'. split_and!; try done.
  - eapply woken_ext; [exact Hd|done|]. eapply woken_trans; [done|]. eapply woken_ext; [..|exact Hw']; done.
  - simplify_eq. rewrite Hr. fold l. destruct (Z.leb_spec (uxPriority y) (uxPriority x)) as [Hle|Hgt].
    + split; [|tauto]. intros _. right. exists t, x. done.
    + split; intros [?|(t' & x' & Ht' & Hx' & Hp)]; [by left| |by left|]; right; exists t', x'; split_and!; try done.
      * rewrite <- Hd. fold l in Ht'. rewrite Ht'. apply orb_true_r.
      * rewrite <- Hd in Ht'. apply orb_true_iff in Ht' as [->%Z.eqb_eq|?]; [|done].
        simplify_eq. lia.
Qed.

Lemma wake_loop_wp fuel : forall h v c sw,
  kcore none (mkKernel h v) -> sorted_by (val_of h) (items_of h (pxDelayedTaskList v)) -> is_bool sw ->
  (length (items_of h (pxDelayedTaskList v)) <= fuel)%nat ->
  wp (wake_loop fuel c sw) (wake_post h v c sw) (mkKernel h v).
Proof.
  induction fuel as [|fuel IH]; intros h v c sw HK Hs Hsw Hlen.
  all: destruct (delayed_state_list _ _ HK) as [Hsl _]; simpl in Hsl.
  all: destruct (kc_cur _ _ HK) as [y Hy]; simpl in Hy.
  all: set (l := pxDelayedTaskList v) in *; pose proof (state_list_exists _ _ l HK Hsl) as Hex.
  all: assert (Hnone : items_of h l = [] -> forall i, i ∈ items_of h l -> c < val_of h i)
         by (intros -> i; set_solver).
  { destruct (items_of h l) as [|] eqn:E; [|simpl in Hlen; lia]. simpl. wsteps. fold l.
    apply wp_listIS_EMPTY; [done|]. rewrite E. simpl. wsteps.
    replace portMAX_DELAY with (head_time h l) by (unfold head_time; by rewrite E).
    eapply wake_post_none; try done. fold l. rewrite E. auto. }
  destruct (items_of h l) as [|i xs] eqn:E.
  { simpl. wsteps. fold l. apply wp_listIS_EMPTY; [done|]. rewrite E. simpl. wsteps.
    replace portMAX_DELAY with (head_time h l) by (unfold head_time; by rewrite E).
    eapply wake_post_none; try done. fold l. rewrite E. auto. }
  assert (Hi : i ∈ items_of h l) by (rewrite E; set_solver).
  destruct (state_list_item _ _ _ _ HK Hsl Hi) as (t & x & -> & Hx). simpl in Hx.
  destruct (kc_item _ _ HK t) as (Hit1 & Hit2 & How & _); [simpl; eauto|]. simpl in *.
  wsteps. fold l. apply wp_listIS_EMPTY; [done|]. rewrite E. rewrite bool_decide_false by done.
  wstep. eapply wp_head_owner; [apply (kc_wf _ _ HK)|exact E|]. rewrite How. wstep.
  apply wp_get_value; [done|]. destruct (Z.ltb_spec c (val_of h (StateItem t))) as [Hlt|Hge].
  { wsteps. replace (val_of h (StateItem t)) with (head_time h l) by (unfold head_time; by rewrite E).
    eapply wake_post_none; try done. fold l. rewrite E. intros j Hj. apply elem_of_cons in Hj as [->|Hj]; [done|].
    destruct Hs as [Hs _]. rewrite Forall_forall in Hs. specialize (Hs j Hj). lia. }
  assert (Hnr : forall p, l <> Ready p) by (destruct (kc_delayed _ _ HK) as [[El _]|[El _]]; simpl in El; subst l; rewrite El; done).
  pose proof (proj1 (awf_mem _ (kc_wf _ _ HK) _ _) Hi) as Hc.
  wstep. eapply wp_listREMOVE; [apply (kc_wf _ _ HK)|exact Hc|]. intros a1 M1.
  assert (HK1 : kcore none (mkKernel a1 v)) by (eapply kcore_remove_other; [exact HK|exact M1|exact Hnr]).
  wstep. apply wp_container; [by apply (mv_dom _ _ _ _ _ _ M1)|].
  wstep. eapply wp_unlink_event; [exact HK1|]. intros a2 M2. wstep.
  eapply wp_add_ready; [by eapply unlinked_core|exact Hx| |].
  { rewrite (unlinked_cont _ _ _ _ M2), decide_False by done. by rewrite (mv_cont _ _ _ _ _ _ M1), decide_True. }
  intros a3 xs1 xs2 _ _ M3 _.
  destruct (wake_one _ _ _ _ _ _ _ _ _ _ HK Hx Hc Hnr M1 M2 M3) as (_ & HK3 & Hw).
  wsteps. eapply wp_mono; [apply IH|].
  - exact HK3.
  - simpl. fold l. rewrite (wk_items _ _ _ _ Hw) by done. apply sorted_by_filter. rewrite E.
    eapply sorted_by_ext; [|exact Hs]. intros j _. by rewrite (wk_val _ _ _ _ Hw).
  - destruct (uxPriority y <=? uxPriority x); [by left|done].
  - simpl. fold l. rewrite (wk_items _ _ _ _ Hw) by done. rewrite E.
    rewrite filter_cons_False by (simpl; rewrite Z.eqb_refl; done). pose proof (length_filter (fun i => of_task (Z.eqb t) i = false) xs).
    simpl in Hlen. lia.
  - intros r k' Hpost. eapply wake_post_step; [exact Hnr|exact Hx|exact Hy| |exact Hw|exact Hpost].
    apply due_true. fold l. split; [done|lia].
Qed.

Lemma head_time_le h l i : sorted_by (val_of h) (items_of h l) -> i ∈ items_of h l -> head_time h l <= val_of h i.
Proof.
  unfold head_time. destruct (items_of h l) as [|j xs]; [set_solver|].
  intros [Hs _] Hi. apply elem_of_cons in Hi as [->|Hi]; [done|]. rewrite Forall_forall in Hs. auto.
Qed.

Lemma reset_next_wp X (Q : unit -> KA -> Prop) h v : kcore X (mkKernel h v) ->
  Q tt (mkKernel h (set_xNextTaskUnblockTime (head_time h (pxDelayedTaskList v)) v)) ->
  wp prvResetNextTaskUnblockTime Q (mkKernel h v).
Proof.
  intros HK HQ. destruct (delayed_state_list _ _ HK) as [Hsl _]. simpl in Hsl.
  pose proof (state_list_exists _ _ _ HK Hsl) as Hex. unfold prvResetNextTaskUnblockTime. wsteps.
  apply wp_listIS_EMPTY; [done|]. unfold head_time in HQ.
  destruct (items_of h (pxDelayedTaskList v)) as [|i xs] eqn:E.
  - rewrite bool_decide_true by done. by wsteps.
  - rewrite bool_decide_false by done. wstep. apply wp_head_value; [apply (kc_wf _ _ HK)|done|].
    rewrite E. by wsteps.
Qed.

(** The tasks that wait in a delayed list for the time [c]. *)
Definition wakes_at k (c : Z) (t : Z) : bool :=
  bool_decide (cont_of (k_lists k) (StateItem t) = Some (pxDelayedTaskList (k_vars k)) \/
               cont_of (k_lists k) (StateItem t) = Some (pxOverflowDelayedTaskList (k_vars k))) &&
  (val_of (k_lists k) (StateItem t) =? c).

(** The variables after the tick count has been incremented, and after the
    delayed lists have been exchanged if it has wrapped. *)
Definition tick_vars v : Vars :=
  let c := xTickCount v +u 1 in
  if c =? 0 then
    set_xNumOfOverflows (i32 (xNumOfOverflows v + 1))
      (set_pxOverflowDelayedTaskList (pxDelayedTaskList v)
        (set_pxDelayedTaskList (pxOverflowDelayedTaskList v) (set_xTickCount c v)))
  else set_xTickCount c v.

(** Half-way through a tick: the tasks that are due are at the front of the
    delayed list, everything else in it is for later. *)
Record at_tick k h v1 : Prop := {
  tk_core : kcore none (mkKernel h v1);
  tk_sorted : sorted_by (val_of h) (items_of h (pxDelayedTaskList v1));
  tk_sorted_later : sorted_by (val_of h) (items_of h (pxOverflowDelayedTaskList v1));
  tk_now i : i ∈ items_of h (pxDelayedTaskList v1) ->
    xTickCount v1 <= val_of h i <= portMAX_DELAY /\ xNextTaskUnblockTime v1 <= val_of h i;
  tk_later i : i ∈ items_of h (pxOverflowDelayedTaskList v1) -> 0 <= val_of h i < xTickCount v1;
  tk_due t : due h (pxDelayedTaskList v1) (xTickCount v1) t = wakes_at k (xTickCount v1) t
}.

Lemma at_tick_plain h v : kinv (mkKernel h v) -> xTickCount v +u 1 <> 0 ->
  at_tick (mkKernel h v) h (set_xTickCount (xTickCount v +u 1) v).
Proof.
  intros [HK []] Hc. simpl in *.
  assert (E : xTickCount v +u 1 = xTickCount v + 1).
  { destruct (decide (xTickCount v = u32_modulus - 1)) as [Em|].
    - exfalso. apply Hc. by rewrite Em.
    - apply u32_small. u32_lia. }
  rewrite E. split; simpl; try done.
  - eapply kcore_vars; [..|exact HK]; done.
  - intros i Hi. specialize (kt_now i Hi). lia.
  - intros i Hi. specialize (kt_later i Hi). lia.
  - intros t. apply eq_true_iff_eq. rewrite due_true. unfold wakes_at. simpl.
    rewrite andb_true_iff, bool_decide_eq_true, Z.eqb_eq. rewrite <- !(awf_mem _ (kc_wf _ _ HK)). simpl. split.
    + intros [Hi Hv]. specialize (kt_now _ Hi). split; [by left|lia].
    + intros [[Hi|Hi] Hv]; [split; [done|lia]|]. specialize (kt_later _ Hi). lia.
Qed.

Lemma wrap_delayed_empty h v : kinv (mkKernel h v) -> xTickCount v +u 1 = 0 ->
  xTickCount v = portMAX_DELAY /\ items_of h (pxDelayedTaskList v) = [].
Proof.
  intros [HK []] Hc. simpl in *.
  assert (E : xTickCount v = portMAX_DELAY).
  { destruct (decide (xTickCount v = portMAX_DELAY)); [done|]. unfold portMAX_DELAY in *.
    rewrite u32_small in Hc by u32_lia. u32_lia. }
  split; [done|]. destruct (items_of h (pxDelayedTaskList v)) as [|i xs]; [done|].
  specialize (kt_now i). rewrite E in kt_now. destruct kt_now; [set_solver|]. lia.
Qed.

Lemma at_tick_wrap h v : kinv (mkKernel h v) -> xTickCount v +u 1 = 0 ->
  at_tick (mkKernel h v) h (set_xNextTaskUnblockTime (head_time h (pxOverflowDelayedTaskList v)) (tick_vars v)).
Proof.
  intros Hinv Hc. destruct (wrap_delayed_empty _ _ Hinv Hc) as [Ht He]. destruct Hinv as [HK []]. simpl in *.
  unfold tick_vars. rewrite Hc. simpl. split; simpl; rewrite ?He; try done.
  - destruct HK. split; simpl in *; try done. by destruct kc_delayed; [right|left]; naive_solver.
  - intros i Hi. pose proof (kt_later _ Hi). pose proof (head_time_le _ _ _ kt_sorted_later Hi).
    unfold portMAX_DELAY in *. lia.
  - set_solver.
  - intros t. apply eq_true_iff_eq. rewrite due_true. unfold wakes_at. simpl.
    rewrite andb_true_iff, bool_decide_eq_true, Z.eqb_eq. rewrite <- !(awf_mem _ (kc_wf _ _ HK)). simpl. rewrite He. split.
    + intros [Hi Hv]. specialize (kt_later _ Hi). split; [by right|lia].
    + intros [[Hi|Hi] Hv]; [set_solver|]. split; [done|lia].
Qed.

(** The part of xTaskIncrementTick up to the wake-up loop. *)
Lemma advance_wp h v (Q : unit -> KA -> Prop) : kinv (mkKernel h v) ->
  (forall n, at_tick (mkKernel h v) h (set_xNextTaskUnblockTime n (tick_vars v)) ->
    Q tt (mkKernel h (set_xNextTaskUnblockTime n (tick_vars v)))) ->
  wp (when (xTickCount v +u 1 =? 0) taskSWITCH_DELAYED_LISTS) Q
    (mkKernel h (set_xTickCount (xTickCount v +u 1) v)).
Proof.
  intros Hinv HQ. destruct (Z.eqb_spec (xTickCount v +u 1) 0) as [E|E]; simpl.
  - unfold taskSWITCH_DELAYED_LISTS. wsteps. eapply reset_next_wp.
    + destruct (at_tick_wrap _ _ Hinv E) as [HK _ _ _ _ _]. eapply kcore_vars; [..|exact HK]; unfold tick_vars;
        by rewrite E.
    + pose proof (HQ _ (at_tick_wrap _ _ Hinv E)) as HQ'. unfold tick_vars in HQ'. rewrite E in HQ'. rewrite E. exact HQ'.
  - wstep. pose proof (HQ (xNextTaskUnblockTime v)) as HQ'. unfold tick_vars in HQ'.
    rewrite (proj2 (Z.eqb_neq _ _)) in HQ' by done. apply HQ'. by apply at_tick_plain.
Qed.

(** After the wake-up loop, or if it is skipped because nothing is due yet. *)
Definition woke k h v1 (r : Z) (k' : KA) : Prop :=
  exists a' n b y, k' = mkKernel a' (set_xNextTaskUnblockTime n (set_uxTopReadyPriority b v1)) /\
    kinv k' /\ woken (wakes_at k (xTickCount v1)) v1 h a' /\
    tcbs v1 !! pxCurrentTCB v1 = Some y /\ is_bool r /\
    (r = pdTRUE <-> at_least v1 (uxPriority y) (wakes_at k (xTickCount v1))).

Lemma at_tick_time k h v1 a' n b : at_tick k h v1 -> u32_range (xTickCount v1) ->
  woken (wakes_at k (xTickCount v1)) v1 h a' ->
  (forall i, i ∈ items_of a' (pxDelayedTaskList v1) -> n <= val_of a' i) ->
  ktime (mkKernel a' (set_xNextTaskUnblockTime n (set_uxTopReadyPriority b v1))).
Proof.
  intros [HK Hs Hs' Hnow Hlater Hdue] Hr Hw Hn.
  assert (Hnr : forall p, pxDelayedTaskList v1 <> Ready p /\ pxOverflowDelayedTaskList v1 <> Ready p).
  { intros p. destruct (kc_delayed _ _ HK) as [[E1 E2]|[E1 E2]]; simpl in *; rewrite E1, E2; done. }
  assert (Hsort : forall l, (forall p, l <> Ready p) -> sorted_by (val_of h) (items_of h l) ->
    sorted_by (val_of a') (items_of a' l)).
  { intros l Hl Hsl. rewrite (wk_items _ _ _ _ Hw) by done. apply sorted_by_filter.
    eapply sorted_by_ext; [|done]. intros i _. by rewrite (wk_val _ _ _ _ Hw). }
  split; simpl; [done| | |apply Hsort; [apply Hnr|done]|apply Hsort; [apply Hnr|done]].
  - intros i Hi. split; [|auto]. rewrite (wk_items _ _ _ _ Hw) in Hi by apply Hnr.
    apply list_elem_of_filter in Hi as [Hd Hi]. rewrite (wk_val _ _ _ _ Hw).
    destruct (Hnow _ Hi) as [[Hlo Hhi] _]. split; [|done].
    destruct (state_list_item _ _ _ _ HK (proj1 (delayed_state_list _ _ HK)) Hi) as (t & x & -> & _).
    simpl in Hd. rewrite <- Hdue in Hd. destruct (decide (val_of h (StateItem t) = xTickCount v1)) as [E|]; [|lia].
    rewrite (proj2 (due_true _ _ _ t)) in Hd; [done|]. split; [done|lia].
  - intros i Hi. rewrite (wk_items _ _ _ _ Hw) in Hi by apply Hnr.
    apply list_elem_of_filter in Hi as [_ Hi]. rewrite (wk_val _ _ _ _ Hw). auto.
Qed.

Lemma wake_phase_wp k h v1 : at_tick k h v1 -> u32_range (xTickCount v1) ->
  wp (if xNextTaskUnblockTime v1 <=? xTickCount v1 then
        l ← rdv pxDelayedTaskList; len ← onlist (loLength l);
        wake_loop (Z.to_nat len) (xTickCount v1) pdFALSE
      else mret pdFALSE) (woke k h v1) (mkKernel h v1).
Proof.
  intros Hat Hr. pose proof Hat as [HK Hs Hs' Hnow Hlater Hdue].
  destruct (kc_cur _ _ HK) as [y Hy]. simpl in Hy.
  destruct (Z.leb_spec (xNextTaskUnblockTime v1) (xTickCount v1)) as [Hle|Hgt].
  - wsteps. apply wp_length; [by apply (state_list_exists _ _ _ HK), (delayed_state_list _ _ HK)|].
    eapply wp_mono; [apply wake_loop_wp|]; [done|done|by right|lia|].
    intros r k' (a' & n & b & y' & -> & HK' & Hw & Hn & Hy' & Hb & Hr').
    assert (Hw' : woken (wakes_at k (xTickCount v1)) v1 h a') by by eapply woken_ext.
    exists a', n, b, y'. split_and!; try done.
    + split; [done|]. eapply at_tick_time; [done|done|done|]. intros i Hi. rewrite Hn.
      apply head_time_le; [|done]. rewrite (wk_items _ _ _ _ Hw); [apply sorted_by_filter|].
      * eapply sorted_by_ext; [|done]. intros j _. by rewrite (wk_val _ _ _ _ Hw).
      * intros p. destruct (kc_delayed _ _ HK) as [[E1 _]|[E1 _]]; simpl in *; rewrite E1; done.
    + rewrite Hr'. unfold at_least. setoid_rewrite Hdue. split; [by intros [?|?]|by right].
  - wstep. assert (Hno : forall t, wakes_at k (xTickCount v1) t = false).
    { intros t. rewrite <- Hdue. destruct (due _ _ _ t) eqn:E; [|done]. apply due_true in E as [Hi Hv].
      specialize (Hnow _ Hi). lia. }
    assert (Hw : woken (wakes_at k (xTickCount v1)) v1 h h).
    { eapply woken_ext; [|done|apply woken_refl]. done. }
    exists h, (xNextTaskUnblockTime v1), (uxTopReadyPriority v1), y. split_and!; try done.
    + by destruct v1.
    + split; [done|]. eapply ktime_vars; [..|eapply (at_tick_time k h v1 h (xNextTaskUnblockTime v1) 0); try done]; try done.
      intros i Hi. by apply Hnow.
    + by right.
    + split; [done|]. intros (t & x & Ht & _). by rewrite Hno in Ht.
Qed.

(** What a tick does. *)
Definition ticked k (r : Z) (k' : KA) : Prop :=
  let c := xTickCount (k_vars k) +u 1 in
  exists a' n b hk y,
    k' = mkKernel a' (set_tickHookCalls hk (set_xNextTaskUnblockTime n
           (set_uxTopReadyPriority b (tick_vars (k_vars k))))) /\
    kinv k' /\ woken (wakes_at k c) (k_vars k) (k_lists k) a' /\
    tcbs (k_vars k) !! pxCurrentTCB (k_vars k) = Some y /\ is_bool r /\
    (r = pdTRUE <-> xYieldPending (k_vars k) <> pdFALSE \/
       (1 < length (items_of a' (Ready (uxPriority y))))%nat \/
       at_least (k_vars k) (uxPriority y) (wakes_at k c)).

Lemma tick_vars_tick v : xTickCount (tick_vars v) = xTickCount v +u 1.
Proof. unfold tick_vars. by destruct (_ =? 0). Qed.
Lemma tick_vars_same v : tcbs (tick_vars v) = tcbs v /\ pxCurrentTCB (tick_vars v) = pxCurrentTCB v /\
  xYieldPending (tick_vars v) = xYieldPending v.
Proof. unfold tick_vars. by destruct (_ =? 0). Qed.

Lemma kinv_vars h v v' :
  tcbs v' = tcbs v -> pxDelayedTaskList v' = pxDelayedTaskList v ->
  pxOverflowDelayedTaskList v' = pxOverflowDelayedTaskList v ->
  uxTopReadyPriority v' = uxTopReadyPriority v -> pxCurrentTCB v' = pxCurrentTCB v ->
  xTickCount v' = xTickCount v -> xNextTaskUnblockTime v' = xNextTaskUnblockTime v ->
  kinv (mkKernel h v) -> kinv (mkKernel h v').
Proof. intros ? ? ? ? ? ? ? [HK HT]. split; [by eapply kcore_vars|by eapply ktime_vars]. Qed.

Lemma tick_result (y sw len : Z) : is_bool sw ->
  let r := if negb (y =? pdFALSE) then pdTRUE else if 1 <? len then pdTRUE else sw in
  is_bool r /\ (r = pdTRUE <-> y <> pdFALSE \/ 1 < len \/ sw = pdTRUE).
Proof.
  unfold is_bool, pdTRUE, pdFALSE. intros Hsw. destruct (Z.eqb_spec y 0), (Z.ltb_spec 1 len); simpl;
    destruct Hsw; subst; split; try tauto; split; intros; try lia; naive_solver lia.
Qed.

Lemma tick_wp k : kinv k -> uxSchedulerSuspended (k_vars k) = 0 ->
  wp xTaskIncrementTick (ticked k) k.
Proof.
  destruct k as [h v]. intros Hinv Hs. simpl in Hs. unfold xTaskIncrementTick. wsteps. rewrite Hs. simpl. wsteps.
  apply advance_wp; [done|]. intros n1 Hat. simpl. wsteps. set (v1 := set_xNextTaskUnblockTime n1 (tick_vars v)) in *.
  assert (E1 : xTickCount v1 = xTickCount v +u 1) by apply tick_vars_tick. rewrite <- E1.
  assert (Hr : u32_range (xTickCount v1)) by (rewrite E1; apply u32_spec).
  destruct (tick_vars_same v) as (Et & Ec & Ey).
  eapply wp_mono; [exact (wake_phase_wp _ _ _ Hat Hr)|].
  intros sw k' (a' & n & b & y & -> & Hinv' & Hw & Hy & Hb & Hiff).
  wsteps. apply wp_ready_list; [by apply (kc_prio _ _ (ki_core _ Hinv') _ _ Hy)|]. wstep.
  apply wp_length; [by apply (ready_list_exists _ _ _ (ki_core _ Hinv')), (kc_prio _ _ (ki_core _ Hinv') _ _ Hy)|].
  wsteps. set (len := Z.of_nat _).
  set (v2 := set_xNextTaskUnblockTime n (set_uxTopReadyPriority b (tick_vars v))).
  assert (Hhook : forall Q : unit -> KA -> Prop, (forall hk, Q tt (mkKernel a' (set_tickHookCalls hk v2))) ->
    wp (when (xPendedTicks (tick_vars v) =? 0) vApplicationTickHook) Q (mkKernel a' v2)).
  { intros Q HQ. destruct (xPendedTicks (tick_vars v) =? 0); simpl; [unfold vApplicationTickHook|]; wsteps.
    - apply HQ.
    - replace v2 with (set_tickHookCalls (tickHookCalls v2) v2) by (by destruct v2). apply HQ. }
  apply (Hhook (fun _ k' => _)). intros hk. wsteps. rewrite Ey.
  exists a', n, b, hk, y. simpl in *. rewrite Et, Ec in *.
  destruct (tick_result (xYieldPending v) sw len Hb) as [Hb' Hr'].
  rewrite <- E1. split_and!; try done.
  - eapply kinv_vars; [..|exact Hinv']; done.
  - eapply woken_ext; [..|exact Hw]; [done|by symmetry].
  - rewrite Hr', Hiff. unfold len, at_least. simpl. rewrite Et.
    split; (intros [?|[?|?]]; [by left|right; left; lia|right; right; done]).
Qed.

End Tick.

(** ** Blocking the running task *)

Section Block.
Implicit Types (h : AH) (v : Vars) (k : KA).

(** A task's state item has moved to [l]; its value is now [z]. *)
Record parked (t : Z) (l : list_id) (z : Z) (h a' : AH) : Prop := {
  pk_cont i : cont_of a' i = if decide (i = StateItem t) then Some l else cont_of h i;
  pk_val i : val_of a' i = if decide (i = StateItem t) then z else val_of h i;
  pk_items l' : l' <> l -> (forall p, l' <> Ready p) -> items_of a' l' = items_of h l';
  pk_lists l' : is_Some (a_lists a' !! l') <-> is_Some (a_lists h !! l')
}.

(** Where a task that waits [n] ticks goes. *)
Definition wait_list v (n : Z) (forever : bool) : list_id :=
  if forever then xSuspendedTaskList
  else if xTickCount v +u n <? xTickCount v then pxOverflowDelayedTaskList v else pxDelayedTaskList v.

Definition blocks_forever (n canBlock : Z) : bool := (n =? portMAX_DELAY) && negb (canBlock =? pdFALSE).

Definition blocked k (n : Z) (forever : bool) (k' : KA) : Prop :=
  let v := k_vars k in
  exists a' x nx b,
    k' = mkKernel a' (set_xNextTaskUnblockTime nx (set_uxTopReadyPriority b
           (set_tcbs (<[pxCurrentTCB v := set_ucDelayAborted pdFALSE x]> (tcbs v)) v))) /\
    tcbs v !! pxCurrentTCB v = Some x /\ kinv k' /\
    parked (pxCurrentTCB v) (wait_list v n forever)
      (if forever then val_of (k_lists k) (StateItem (pxCurrentTCB v)) else xTickCount v +u n) (k_lists k) a'.

(** The state with the running task's TCB marked as not aborted. *)
Definition blocking_vars v (x : TCB_t) (b : Z) : Vars :=
  set_uxTopReadyPriority b (set_tcbs (<[pxCurrentTCB v := set_ucDelayAborted pdFALSE x]> (tcbs v)) v).

(** The running task leaves its ready list; [f] is what follows. *)
Lemma unready_wp h v x p (f : M KA unit) (Q : unit -> KA -> Prop) : let t := pxCurrentTCB v in
  kinv (mkKernel h v) -> tcbs v !! t = Some x -> cont_of h (StateItem t) = Some (Ready p) ->
  (forall a1 b, moved h a1 (StateItem t) (Ready p) None (drop_elem (StateItem t) (items_of h (Ready p))) ->
    kinv (mkKernel a1 (blocking_vars v x b)) -> wp f Q (mkKernel a1 (blocking_vars v x b))) ->
  wp (wr_tcb t (set_ucDelayAborted pdFALSE);;
      n ← onlist (loRemove (StateItem t));
      (if n =? 0 then p ← rd_tcb t uxPriority; portRESET_READY_PRIORITY p else mret tt);; f) Q (mkKernel h v).
Proof.
  intros t [HK HT] Hx Hc HQ. simpl in *.
  pose proof (kc_prio _ _ HK _ _ Hx) as [Hp1 Hp2]. pose proof (kc_ready _ _ HK _ _ _ Hc Hx) as Ep.
  assert (Hp : prio_ok p) by (by rewrite <- Ep).
  wstep. wstep. set (v1 := set_tcbs _ v) in *.
  assert (HK1 : kcore none (mkKernel h v1)).
  { eapply kcore_tcb; [exact HK|exact Hx|done|done|]. intros q Hq. simpl. congruence. }
  wstep. eapply wp_remove; [apply (kc_wf _ _ HK)|exact Hc|]. intros a1 M1.
  pose proof (kcore_remove_ready _ _ _ _ _ _ HK1 M1) as HK2.
  assert (HK3 := reset_if_core _ _ _ p _ HK2 Hp eq_refl).
  rewrite (mv_items _ _ _ _ _ _ M1), decide_True in HK3 by done. set (n := Z.of_nat _) in *.
  destruct (reset_if_shape (n =? 0) p v1) as [b Eb]. rewrite Eb in HK3.
  assert (HT3 : ktime (mkKernel a1 (set_uxTopReadyPriority b v1))).
  { eapply ktime_vars; [..|eapply ktime_remove; [exact HT|exact M1]]; done. }
  assert (Hfin : wp f Q (mkKernel a1 (reset_if (n =? 0) p v1))).
  { rewrite Eb. apply HQ; [done|]. by split. }
  wstep. destruct (n =? 0); [|by wstep]. wstep. eapply wp_rd_tcb.
  - simpl. fold t. by rewrite lookup_insert_eq.
  - simpl. rewrite Ep. exact (wp_wrv _ _ _ Hfin).
Qed.

(** Its state item goes to the end of the list of suspended tasks. *)
Lemma park_suspended h a1 v1 t p xs :
  kinv (mkKernel a1 v1) -> is_Some (tcbs v1 !! t) -> moved h a1 (StateItem t) (Ready p) None xs ->
  wp (onlist (loInsertEnd xSuspendedTaskList (StateItem t)))
    (fun _ k' => exists a', k' = mkKernel a' v1 /\ kinv k' /\
       parked t xSuspendedTaskList (val_of h (StateItem t)) h a') (mkKernel a1 v1).
Proof.
  intros [HK HT] Ht M1. apply wp_insert_end.
  - apply (kc_wf _ _ HK).
  - by apply (kc_item _ _ HK t).
  - by rewrite (mv_cont _ _ _ _ _ _ M1), decide_True.
  - by apply (state_list_exists _ _ _ HK).
  - intros a' xs1 xs2 _ _ M2 _. exists a'. split; [done|]. split; split.
    + eapply kcore_insert_other; [exact HK| |exact M2]. by split_and!.
    + eapply ktime_insert_other; [exact HT|..|exact M2]; by apply (not_delayed _ _ _ HK).
    + intros i. rewrite (mv_cont _ _ _ _ _ _ M2), (mv_cont _ _ _ _ _ _ M1). by case_decide.
    + intros i. rewrite (mv_val _ _ _ _ _ _ M2), (mv_val _ _ _ _ _ _ M1). by case_decide; subst.
    + intros l' Hne Hnr. by rewrite (mv_items _ _ _ _ _ _ M2), (mv_items _ _ _ _ _ _ M1), !decide_False.
    + intros l'. by rewrite (mv_lists _ _ _ _ _ _ M2), (mv_lists _ _ _ _ _ _ M1).
Qed.

(** The arithmetic of wake times: later than now, or after the wrap. *)
Lemma wake_time_cases tick n : u32_range tick -> u32_range n -> n <> 0 ->
  (tick +u n < tick /\ 0 <= tick +u n) \/ (tick < tick +u n <= portMAX_DELAY).
Proof.
  intros Ht Hn H0. destruct (decide (tick + n < u32_modulus)).
  - right. rewrite u32_small by u32_lia. unfold portMAX_DELAY. u32_lia.
  - left. rewrite u32_wrap_once by u32_lia. u32_lia.
Qed.

(** Its state item gets the wake time and goes to one of the delayed lists. *)
Lemma park_delayed h a1 v1 t p xs n :
  kinv (mkKernel a1 v1) -> is_Some (tcbs v1 !! t) -> moved h a1 (StateItem t) (Ready p) None xs ->
  u32_range n -> n <> 0 ->
  let w := xTickCount v1 +u n in
  wp (onlist (loSetValue (StateItem t) w);;
      if w <? xTickCount v1 then
        l ← rdv pxOverflowDelayedTaskList; onlist (loInsert l (StateItem t))
      else
        l ← rdv pxDelayedTaskList; onlist (loInsert l (StateItem t));;
        wrv (fun v => if w <? xNextTaskUnblockTime v then set_xNextTaskUnblockTime w v else v))
    (fun _ k' => exists a' nx, k' = mkKernel a' (set_xNextTaskUnblockTime nx v1) /\ kinv k' /\
       parked t (wait_list v1 n false) w h a') (mkKernel a1 v1).
Proof.
  intros [HK HT] Ht M1 Hn Hn0 w.
  assert (Hni : forall l, StateItem t ∉ items_of a1 l).
  { intros l. rewrite (awf_mem _ (mv_wf _ _ _ _ _ _ M1)), (mv_cont _ _ _ _ _ _ M1). by rewrite decide_True. }
  wstep. apply wp_set_value; [apply (kc_wf _ _ HK)|by apply (kc_item _ _ HK t)|].
  intros a2 Hwf Hit Hco Hval How Hdom Hls.
  assert (HK2 : kcore none (mkKernel a2 v1)).
  { eapply kcore_values; [exact HK|done..|]. intros l. by rewrite Hls. }
  assert (HT2 : ktime (mkKernel a2 v1)) by by eapply ktime_value.
  assert (Ew : val_of a2 (StateItem t) = w) by (by rewrite Hval, decide_True).
  pose proof (delayed_pair_ne _ (kc_delayed _ _ HK)) as Hne. simpl in Hne.
  assert (Hpk : forall l a', moved a2 a' (StateItem t) l (Some l) (insert_sorted (val_of a2) w (StateItem t) (items_of a2 l)) ->
    parked t l w h a').
  { intros l a' M3. split.
    - intros i. rewrite (mv_cont _ _ _ _ _ _ M3), Hco, (mv_cont _ _ _ _ _ _ M1). by case_decide.
    - intros i. rewrite (mv_val _ _ _ _ _ _ M3), Hval, (mv_val _ _ _ _ _ _ M1). done.
    - intros l' Hl' Hnr'. by rewrite (mv_items _ _ _ _ _ _ M3), decide_False, Hit, (mv_items _ _ _ _ _ _ M1), decide_False by done.
    - intros l'. by rewrite (mv_lists _ _ _ _ _ _ M3), Hls, (mv_lists _ _ _ _ _ _ M1). }
  assert (Hci : cont_of a2 (StateItem t) = None) by (by rewrite Hco, (mv_cont _ _ _ _ _ _ M1), decide_True).
  destruct (delayed_state_list _ _ HK2) as [Hd1 Hd2]. simpl in Hd1, Hd2.
  assert (Hnr : forall p, pxDelayedTaskList v1 <> Ready p /\ pxOverflowDelayedTaskList v1 <> Ready p).
  { intros q. destruct (kc_delayed _ _ HK) as [[E1 E2]|[E1 E2]]; simpl in *; rewrite E1, E2; done. }
  pose proof (wake_time_cases _ _ (kt_tick _ HT) Hn Hn0) as Hcase. simpl in Hcase. fold w in Hcase.
  unfold wait_list. fold w. destruct (Z.ltb_spec w (xTickCount v1)) as [Hlt|Hge].
  - wsteps. apply wp_insert; [done|by apply (kc_item _ _ HK2 t)|done|by apply (state_list_exists _ _ _ HK2)| | |].
    + rewrite Ew. pose proof (kt_tick _ HT) as Htk. simpl in Htk. unfold portMAX_DELAY. u32_lia.
    + apply Forall_forall. intros j Hj. pose proof (kt_later _ HT2 j Hj) as Hj'. simpl in Hj'.
      pose proof (kt_tick _ HT) as Htk. simpl in Htk. unfold portMAX_DELAY. u32_lia.
    + rewrite Ew. intros a' M3. exists a', (xNextTaskUnblockTime v1).
      replace (set_xNextTaskUnblockTime (xNextTaskUnblockTime v1) v1) with v1 by (by destruct v1).
      split; [done|]. split; [split|by apply Hpk].
      * destruct (insert_sorted_split (val_of a2) w (StateItem t) (items_of a2 (pxOverflowDelayedTaskList v1)))
          as (xs1 & xs2 & _ & E & _). rewrite E in M3. eapply kcore_insert_other; [exact HK2| |exact M3].
        split; [done|]. split; [done|]. apply Hnr.
      * eapply ktime_insert_later; [exact HT2|done|rewrite Ew; lia|]. by rewrite Ew.
  - wsteps. apply wp_insert; [done|by apply (kc_item _ _ HK2 t)|done|by apply (state_list_exists _ _ _ HK2)| | |].
    + rewrite Ew. lia.
    + apply Forall_forall. intros j Hj. pose proof (kt_now _ HT2 j Hj) as Hj'. simpl in Hj'. lia.
    + rewrite Ew. intros a' M3. wstep.
      assert (Esh : exists nx, (if w <? xNextTaskUnblockTime v1 then set_xNextTaskUnblockTime w v1 else v1) =
        set_xNextTaskUnblockTime nx v1).
      { destruct (w <? _); [by eexists|]. exists (xNextTaskUnblockTime v1). by destruct v1. }
      destruct Esh as [nx Enx]. exists a', nx. rewrite Enx. split; [done|]. split; [split|by apply Hpk].
      * destruct (insert_sorted_split (val_of a2) w (StateItem t) (items_of a2 (pxDelayedTaskList v1)))
          as (xs1 & xs2 & _ & E & _). rewrite E in M3. apply (kcore_vars _ a' v1); [done..|].
        eapply kcore_insert_other; [exact HK2| |exact M3]. split; [done|]. split; [done|]. apply Hnr.
      * pose proof (ktime_insert_now a2 v1 a' (StateItem t) HT2 Hne) as Hins. rewrite Ew in Hins. rewrite <- Enx.
        apply Hins; [lia|exact M3].
Qed.

Lemma add_delayed_wp k x p n canBlock :
  kinv k -> tcbs (k_vars k) !! pxCurrentTCB (k_vars k) = Some x ->
  cont_of (k_lists k) (StateItem (pxCurrentTCB (k_vars k))) = Some (Ready p) -> u32_range n -> n <> 0 ->
  wp (prvAddCurrentTaskToDelayedList n canBlock)
    (fun _ k' => blocked k n (blocks_forever n canBlock) k') k.
Proof.
  destruct k as [h v]. simpl. intros Hinv Hx Hc Hn Hn0. unfold prvAddCurrentTaskToDelayedList. wstep. wstep. wstep. wstep.
  eapply unready_wp; [done|done|done|]. intros a1 b M1 Hinv1.
  assert (Ht : is_Some (tcbs (blocking_vars v x b) !! pxCurrentTCB v)) by (simpl; rewrite lookup_insert_eq; eauto).
  unfold blocks_forever. destruct (_ && _) eqn:Ef.
  - eapply wp_mono; [by eapply park_suspended|]. intros [] k' (a' & -> & Hinv' & Hpk).
    exists a', x, (xNextTaskUnblockTime v), b. split_and!; try done.
  - eapply wp_mono; [exact (park_delayed h a1 (blocking_vars v x b) _ _ _ n Hinv1 Ht M1 Hn Hn0)|].
    intros [] k' (a' & nx & -> & Hinv' & Hpk). exists a', x, nx, b. done.
Qed.

End Block.
