(* ===== verification/ResumeProps.v ===== *)
(** * Leaving the suspended state

    While the scheduler is suspended, interrupts may not touch the ready lists:
    tasks they wake are kept in xPendingReadyList and the ticks that occur are
    counted.  xTaskResumeAll makes up for both: all pending tasks become
    ready, every missed tick is processed, and the running task gives way if a
    task that became ready is at least as urgent. *)

From S2P Require Import Prelude Simulation Config ListC ListSpec ListRefine ListObs ListProps Heap4 Kernel Tasks TaskApi TaskEvents Queue KernelRefine KernelInv KernelSteps SchedProps.

Section Resume.
Implicit Types (h : AH) (v : Vars) (k : KA).

(** A task in an event list is blocked: its state item is in a list, and not
    in a ready list. *)
Definition kpend k : Prop := forall t l, cont_of (k_lists k) (EventItem t) = Some l ->
  exists l', cont_of (k_lists k) (StateItem t) = Some l' /\ forall p, l' <> Ready p.

(** No ready task is more urgent than the running one. *)
Definition no_higher k : Prop := forall x t p, tcbs (k_vars k) !! pxCurrentTCB (k_vars k) = Some x ->
  cont_of (k_lists k) (StateItem t) = Some (Ready p) -> p <= uxPriority x.

Lemma woken_pend d v v' h a' : woken d v h a' -> kpend (mkKernel h v) ->
  (forall t, d t = true -> is_Some (tcbs v !! t)) -> kpend (mkKernel a' v').
Proof.
  intros Hw Hp Hd t l. simpl. destruct (d t) eqn:E.
  - destruct (Hd _ E) as [x Hx]. destruct (wk_yes _ _ _ _ Hw _ _ E Hx) as [_ ->]. done.
  - rewrite !(wk_no _ _ _ _ Hw) by done. apply Hp.
Qed.

Lemma woken_no_higher d v v' h a' y : woken d v h a' -> no_higher (mkKernel h v) ->
  kcore none (mkKernel a' v') -> tcbs v' = tcbs v -> pxCurrentTCB v' = pxCurrentTCB v ->
  tcbs v !! pxCurrentTCB v = Some y -> ~ at_least v (uxPriority y) d -> no_higher (mkKernel a' v').
Proof.
  intros Hw Hn HK Et Ec Hy Hno x t p. simpl. rewrite Et, Ec. intros Hx Hc. simplify_eq.
  destruct (d t) eqn:E.
  - destruct (kc_state _ _ HK _ _ Hc) as [[z Hz] _]. simpl in Hz. rewrite Et in Hz.
    destruct (wk_yes _ _ _ _ Hw _ _ E Hz) as [Hc' _]. rewrite Hc in Hc'. simplify_eq.
    destruct (Z_le_gt_dec (uxPriority z) (uxPriority y)); [done|]. destruct Hno. exists t, z. split_and!; [done|done|lia].
  - rewrite (wk_no _ _ _ _ Hw) in Hc by done. by apply (Hn y t p).
Qed.

(** A ready task stays ready when others are woken. *)
Lemma woken_ready d v h a' t p x : woken d v h a' -> cont_of h (StateItem t) = Some (Ready p) ->
  tcbs v !! t = Some x -> uxPriority x = p -> cont_of a' (StateItem t) = Some (Ready p).
Proof.
  intros Hw Hc Hx Hp. destruct (d t) eqn:E.
  - destruct (wk_yes _ _ _ _ Hw _ _ E Hx) as [-> _]. by rewrite Hp.
  - by rewrite (wk_no _ _ _ _ Hw).
Qed.

(** ** The tasks kept in xPendingReadyList *)

Definition pending h (t : Z) : bool := bool_decide (EventItem t ∈ items_of h xPendingReadyList).

(** What may happen to [xYieldPending] when the tasks in [d] become ready. *)
Definition yield_for v (d : Z -> bool) (y : Z) : Prop :=
  exists x, tcbs v !! pxCurrentTCB v = Some x /\
    ((y = xYieldPending v /\ ~ at_least v (uxPriority x) d) \/ (y = pdTRUE /\ at_least v (uxPriority x) d)).

Definition pend_post h v (k' : KA) : Prop :=
  exists a' b y, k' = mkKernel a' (set_xYieldPending y (set_uxTopReadyPriority b v)) /\
    kinv k' /\ kpend k' /\ woken (pending h) v h a' /\ yield_for v (pending h) y.

Lemma pend_post_none h v : kinv (mkKernel h v) -> kpend (mkKernel h v) ->
  items_of h xPendingReadyList = [] -> pend_post h v (mkKernel h v).
Proof.
  intros Hinv Hp He. assert (Hno : forall t, pending h t = false).
  { intros t. apply bool_decide_eq_false. rewrite He. set_solver. }
  destruct (kc_cur _ _ (ki_core _ Hinv)) as [x Hx].
  exists h, (uxTopReadyPriority v), (xYieldPending v). split_and!; try done.
  - by destruct v.
  - eapply woken_ext; [|done|apply woken_refl]. done.
  - exists x. split; [done|]. left. split; [done|]. intros (t & z & Ht & _). by rewrite Hno in Ht.
Qed.

Lemma pending_split h v a' t : pending h t = true -> woken (Z.eqb t) v h a' ->
  forall t', (t =? t') || pending a' t' = pending h t'.
Proof.
  intros Ht Hw t'. destruct (Z.eqb_spec t t') as [<-|Hne]; [done|]. simpl. apply eq_true_iff_eq.
  unfold pending. rewrite !bool_decide_eq_true, (wk_items _ _ _ _ Hw) by done.
  rewrite list_elem_of_filter. simpl. rewrite Z.eqb_neq. tauto.
Qed.

Lemma pend_post_step h v a' t x y k' :
  tcbs v !! t = Some x -> tcbs v !! pxCurrentTCB v = Some y -> pending h t = true ->
  woken (Z.eqb t) v h a' ->
  pend_post a' (if uxPriority y <=? uxPriority x then set_xYieldPending pdTRUE (record_ready (uxPriority x) v)
                else record_ready (uxPriority x) v) k' ->
  pend_post h v k'.
Proof.
  intros Hx Hy Ht Hw. set (v1 := if _ : bool then _ else _).
  assert (Ev : tcbs v1 = tcbs v /\ pxCurrentTCB v1 = pxCurrentTCB v /\
    (forall y b, set_xYieldPending y (set_uxTopReadyPriority b v1) = set_xYieldPending y (set_uxTopReadyPriority b v)))
    by (subst v1; by destruct (_ <=? _)).
  destruct Ev as (Et & Ec & Es).
  intros (a'' & b & z & -> & Hinv & Hp & Hw' & Hyf). pose proof (pending_split _ _ _ _ Ht Hw) as Hd.
  rewrite Es in *. exists a'', b, z. split_and!; try done.
  - eapply (woken_ext _ _ v); [exact Hd|done|]. eapply woken_trans; [exact Hw|].
    eapply woken_ext; [done|by symmetry|exact Hw'].
  - destruct Hyf as (y' & Hy' & Hcase). rewrite Et, Ec in Hy'. simplify_eq. exists y. split; [done|].
    assert (Hsplit : at_least v (uxPriority y) (pending h) <->
      uxPriority y <= uxPriority x \/ at_least v1 (uxPriority y) (pending a')).
    { unfold at_least. rewrite Et. split.
      - intros (t' & x' & Ht' & Hx' & Hle). rewrite <- Hd in Ht'. apply orb_true_iff in Ht' as [->%Z.eqb_eq|?].
        + simplify_eq. by left.
        + right. eauto.
      - intros [Hle|(t' & x' & Ht' & Hx' & Hle)].
        + exists t, x. done.
        + exists t', x'. split_and!; try done. rewrite <- Hd, Ht'. apply orb_true_r. }
    rewrite Hsplit. subst v1. destruct (Z.leb_spec (uxPriority y) (uxPriority x)).
    + right. split; [|by left]. by destruct Hcase as [[-> _]|[-> _]].
    + destruct Hcase as [[-> Hno]|[-> Hyes]]; [left|right; by auto]. split; [done|]. intros [?|?]; [lia|done].
Qed.

Lemma pending_loop_wp fuel : forall h v last,
  kinv (mkKernel h v) -> kpend (mkKernel h v) -> (length (items_of h xPendingReadyList) <= fuel)%nat ->
  wp (pending_ready_loop fuel last) (fun _ => pend_post h v) (mkKernel h v).
Proof.
  induction fuel as [|fuel IH]; intros h v last Hinv Hp Hlen.
  all: pose proof (ki_core _ Hinv) as HK.
  all: assert (Hex : is_Some (a_lists h !! xPendingReadyList)) by by apply (kc_lists _ _ HK).
  { simpl. wstep. apply wp_listIS_EMPTY; [done|].
    destruct (items_of h xPendingReadyList) eqn:E; [|simpl in Hlen; lia]. simpl. wstep. by apply pend_post_none. }
  simpl. wstep. apply wp_listIS_EMPTY; [done|].
  destruct (items_of h xPendingReadyList) as [|i xs] eqn:E.
  { simpl. wstep. by apply pend_post_none. }
  rewrite bool_decide_false by done.
  assert (Hi : i ∈ items_of h xPendingReadyList) by (rewrite E; set_solver).
  destruct (event_list_item _ _ xPendingReadyList _ HK eq_refl Hi) as (t & x & -> & Hx). simpl in Hx.
  destruct (kc_item _ _ HK t) as (_ & _ & _ & How); [simpl; eauto|]. destruct (kc_cur _ _ HK) as [y Hy]. simpl in *.
  pose proof (proj1 (awf_mem _ (kc_wf _ _ HK) _ _) Hi) as Hc. destruct (Hp _ _ Hc) as (l & Hl & Hnr). simpl in Hl.
  wstep. eapply wp_head_owner; [apply (kc_wf _ _ HK)|exact E|]. rewrite How.
  wstep. eapply wp_listREMOVE; [apply (kc_wf _ _ HK)|exact Hc|]. intros a1 M1.
  assert (HK1 : kcore none (mkKernel a1 v)) by by eapply kcore_remove_other.
  assert (Hl1 : cont_of a1 (StateItem t) = Some l) by by rewrite (mv_cont _ _ _ _ _ _ M1), decide_False.
  wstep. eapply wp_listREMOVE; [apply (kc_wf _ _ HK1)|exact Hl1|]. intros a2 M2.
  assert (HK2 : kcore none (mkKernel a2 v)) by by eapply kcore_remove_other.
  wstep. eapply wp_add_ready; [exact HK2|exact Hx| |].
  { by rewrite (mv_cont _ _ _ _ _ _ M2), decide_True. }
  intros a3 xs1 xs2 _ _ M3 HK3%(kcore_weaken _ none); [|apply except_none].
  assert (Hw : woken (Z.eqb t) v h a3).
  { eapply gone_woken; [exact Hx|by right| | |exact M3].
    - eapply moved_gone; [apply (kc_wf _ _ HK)|exact Hc|exact M1].
    - eapply moved_gone; [apply (kc_wf _ _ HK1)|exact Hl1|exact M2]. }
  wsteps.
  assert (Hrest : forall v1, kinv (mkKernel a3 v1) -> tcbs v1 = tcbs v ->
    wp (pending_ready_loop fuel t) (fun _ => pend_post a3 v1) (mkKernel a3 v1)).
  { intros v1 Hinv1 Ev. apply IH; [done| |].
    - eapply woken_pend; [exact Hw|done|]. intros t' <-%Z.eqb_eq. eauto.
    - rewrite (wk_items _ _ _ _ Hw) by done. rewrite E, filter_cons_False by (simpl; by rewrite Z.eqb_refl).
      pose proof (length_filter (fun i => of_task (Z.eqb t) i = false) xs). simpl in Hlen. lia. }
  assert (HT3 : ktime (mkKernel a3 (record_ready (uxPriority x) v))).
  { eapply woken_time; [exact Hw|apply Hinv|apply (kc_delayed _ _ HK)|done..]. }
  destruct (uxPriority y <=? uxPriority x) eqn:Ele; simpl; wsteps.
  all: eapply wp_mono; [apply Hrest|intros ? k' Hpost; eapply pend_post_step; [exact Hx|exact Hy| |exact Hw|]].
  all: try (rewrite Ele; exact Hpost).
  all: try (by apply bool_decide_eq_true); try done.
  apply (kinv_vars a3 (record_ready (uxPriority x) v)); [done..|]. by split.
Qed.

(** ** Catching up *)

(** The task [t] waits in a delayed list for the time [w]. *)
Definition waiting k (t w : Z) : Prop :=
  (cont_of (k_lists k) (StateItem t) = Some (pxDelayedTaskList (k_vars k)) \/
   cont_of (k_lists k) (StateItem t) = Some (pxOverflowDelayedTaskList (k_vars k))) /\
  val_of (k_lists k) (StateItem t) = w.

(** ... and no interrupt has made it ready in the meantime. *)
Definition still_waiting k (t w : Z) : Prop :=
  waiting k t w /\ cont_of (k_lists k) (EventItem t) <> Some xPendingReadyList.

Lemma woken_waiting d v v' h a' t w : woken d v h a' -> d t = false ->
  (pxDelayedTaskList v' = pxDelayedTaskList v /\ pxOverflowDelayedTaskList v' = pxOverflowDelayedTaskList v) \/
  (pxDelayedTaskList v' = pxOverflowDelayedTaskList v /\ pxOverflowDelayedTaskList v' = pxDelayedTaskList v) ->
  still_waiting (mkKernel h v) t w -> still_waiting (mkKernel a' v') t w.
Proof.
  intros Hw Hd Hl [[Hc Hv] He]. unfold still_waiting, waiting. simpl in *.
  rewrite !(wk_no _ _ _ _ Hw), (wk_val _ _ _ _ Hw) by done. destruct Hl as [[-> ->]|[-> ->]]; tauto.
Qed.

(** What the interrupts did not do while the scheduler was suspended is done,
    [n] ticks included; the running task still runs. *)
Record caught_up (n : Z) (k k' : KA) : Prop := {
  cu_inv : kinv k';
  cu_pend : kpend k';
  cu_tcbs : tcbs (k_vars k') = tcbs (k_vars k);
  cu_cur : pxCurrentTCB (k_vars k') = pxCurrentTCB (k_vars k);
  cu_suspended : uxSchedulerSuspended (k_vars k') = uxSchedulerSuspended (k_vars k);
  cu_pended : xPendedTicks (k_vars k') = xPendedTicks (k_vars k);
  cu_idle : xIdleTaskHandle (k_vars k') = xIdleTaskHandle (k_vars k);
  cu_tick : xTickCount (k_vars k') = xTickCount (k_vars k) +u n;
  cu_ready t p : cont_of (k_lists k) (StateItem t) = Some (Ready p) ->
    cont_of (k_lists k') (StateItem t) = Some (Ready p);
  cu_empty : items_of (k_lists k) xPendingReadyList = [] -> items_of (k_lists k') xPendingReadyList = [];
  cu_wait t w : still_waiting k t w -> (forall j, 1 <= j <= n -> xTickCount (k_vars k) +u j <> w) ->
    still_waiting k' t w;
  cu_yield : xYieldPending (k_vars k) <> pdFALSE -> xYieldPending (k_vars k') <> pdFALSE;
  cu_higher : no_higher k -> xYieldPending (k_vars k') = pdFALSE -> no_higher k'
}.

Lemma caught_up_trans n m k1 k2 k3 : 0 <= n -> 0 <= m -> caught_up n k1 k2 -> caught_up m k2 k3 -> caught_up (n + m) k1 k3.
Proof.
  intros Hn Hm [] []. split; try congruence; try done; auto.
  - rewrite cu_tick1, cu_tick0. apply u32_add_add.
  - intros t w Hw Hj. apply cu_wait1; [apply cu_wait0; [done|]|]; intros j Hj1.
    + apply Hj. lia.
    + rewrite cu_tick0, u32_add_add. apply Hj. lia.
  - intros Hh Hy. apply cu_higher1; [|done]. apply cu_higher0; [done|].
    destruct (decide (xYieldPending (k_vars k2) = pdFALSE)); [done|]. exfalso. by apply cu_yield1.
Qed.

Lemma caught_up_refl k : kinv k -> kpend k -> caught_up 0 k k.
Proof.
  intros Hinv Hp. split; try done. rewrite Z.add_0_r. symmetry. apply u32_small, (kt_tick _ (ki_time _ Hinv)).
Qed.

Lemma ready_tcb X k t p : kcore X k -> cont_of (k_lists k) (StateItem t) = Some (Ready p) ->
  exists x, tcbs (k_vars k) !! t = Some x /\ uxPriority x = p.
Proof. intros HK Hc. destruct (kc_state _ _ HK _ _ Hc) as [[x Hx] _]. exists x. split; [done|]. by eapply kc_ready. Qed.

Lemma tick_vars_frame v : tcbs (tick_vars v) = tcbs v /\ pxCurrentTCB (tick_vars v) = pxCurrentTCB v /\
  uxSchedulerSuspended (tick_vars v) = uxSchedulerSuspended v /\ xPendedTicks (tick_vars v) = xPendedTicks v /\
  xIdleTaskHandle (tick_vars v) = xIdleTaskHandle v /\ xTickCount (tick_vars v) = xTickCount v +u 1 /\
  ((pxDelayedTaskList (tick_vars v) = pxDelayedTaskList v /\
    pxOverflowDelayedTaskList (tick_vars v) = pxOverflowDelayedTaskList v) \/
   (pxDelayedTaskList (tick_vars v) = pxOverflowDelayedTaskList v /\
    pxOverflowDelayedTaskList (tick_vars v) = pxDelayedTaskList v)).
Proof. unfold tick_vars. destruct (_ =? 0); simpl; split_and!; tauto. Qed.

Lemma tick_catch_up k r k' : kinv k -> kpend k -> ticked k r k' ->
  caught_up 1 k (mkKernel (k_lists k') (if negb (r =? pdFALSE) then set_xYieldPending pdTRUE (k_vars k') else k_vars k')).
Proof.
  intros Hinv Hp (a' & n & b & hk & y & -> & Hinv' & Hw & Hy & Hb & Hr). simpl.
  set (v' := set_tickHookCalls _ _) in *. set (v'' := if _ : bool then _ else _).
  assert (Ev : tcbs v'' = tcbs (k_vars k) /\ pxCurrentTCB v'' = pxCurrentTCB (k_vars k) /\
    uxSchedulerSuspended v'' = uxSchedulerSuspended (k_vars k) /\ xPendedTicks v'' = xPendedTicks (k_vars k) /\
    xIdleTaskHandle v'' = xIdleTaskHandle (k_vars k) /\ xTickCount v'' = xTickCount (k_vars k) +u 1 /\
    (xYieldPending v'' = pdFALSE -> r <> pdTRUE) /\ kinv (mkKernel a' v'') /\
    pxDelayedTaskList v'' = pxDelayedTaskList (tick_vars (k_vars k)) /\
    pxOverflowDelayedTaskList v'' = pxOverflowDelayedTaskList (tick_vars (k_vars k))).
  { destruct (tick_vars_frame (k_vars k)) as (F1 & F2 & F3 & F4 & F5 & F6 & _).
    subst v''. destruct (Z.eqb_spec r pdFALSE) as [->|Hne]; simpl; split_and!; try done.
    eapply kinv_vars; [..|exact Hinv']; done. }
  destruct Ev as (E1 & E2 & E3 & E4 & E5 & E6 & E7 & E8 & E9 & E10).
  assert (Hdt : forall t, wakes_at k (xTickCount (k_vars k) +u 1) t = true -> is_Some (tcbs (k_vars k) !! t)).
  { intros t [Hc _]%andb_true_iff. apply bool_decide_eq_true in Hc.
    destruct Hc as [Hc|Hc]; by apply (kc_state _ _ (ki_core _ Hinv)) in Hc as [? _]. }
  split; simpl; try done.
  - destruct k. by eapply woken_pend.
  - intros t p Hc. destruct (ready_tcb _ _ _ _ (ki_core _ Hinv) Hc) as (x & Hx & Hxp). by eapply woken_ready.
  - intros He. rewrite (wk_items _ _ _ _ Hw), He by done. done.
  - intros t w Hwt Hj. destruct k as [h v]. eapply woken_waiting; [exact Hw| | |exact Hwt].
    + destruct (wakes_at _ _ t) eqn:E; [|done]. apply andb_true_iff in E as [_ E%Z.eqb_eq].
      destruct (Hj 1); [lia|]. rewrite <- E. apply Hwt.
    + rewrite E9, E10. apply (tick_vars_frame v).
  - intros Hy0 E0. apply (E7 E0), Hr. by left.
  - intros Hn Hy0. destruct k as [h v]. eapply woken_no_higher; [exact Hw|exact Hn|apply E8|done|done|exact Hy|].
    intros Hal. apply (E7 Hy0), Hr. by right; right.
Qed.

Lemma pended_ticks_wp n : forall k, kinv k -> kpend k -> uxSchedulerSuspended (k_vars k) = 0 ->
  wp (pended_ticks_loop n) (fun _ k' => caught_up (Z.of_nat n) k k') k.
Proof.
  induction n as [|n IH]; intros k Hinv Hp Hs; simpl.
  - wstep. by apply caught_up_refl.
  - wstep. eapply wp_mono; [by apply tick_wp|]. intros r k1 Ht. pose proof (tick_catch_up _ _ _ Hinv Hp Ht) as Hc.
    wstep. set (k2 := mkKernel _ _) in Hc.
    assert (Hw : wp (when (negb (r =? pdFALSE)) (wrv (set_xYieldPending pdTRUE)))
      (fun _ k' => k' = k2) k1).
    { subst k2. destruct k1 as [h1 v1]. destruct (negb _); simpl; by wsteps. }
    eapply wp_mono; [exact Hw|]. intros [] ? ->.
    eapply wp_mono; [apply IH; [apply Hc|apply Hc|by rewrite (cu_suspended _ _ _ Hc)]|].
    intros [] k3 Hc3. replace (Z.of_nat (S n)) with (1 + Z.of_nat n) by lia.
    eapply caught_up_trans; [lia|lia|done|done].
Qed.

(** The pending tasks become ready: nothing else changes. *)
Lemma pend_catch_up h v k' : kinv (mkKernel h v) -> pend_post h v k' -> caught_up 0 (mkKernel h v) k'.
Proof.
  intros Hinv (a' & b & z & -> & Hinv' & Hp' & Hw & y & Hy & Hyf). split; simpl; try done.
  - rewrite Z.add_0_r. symmetry. apply u32_small, (kt_tick _ (ki_time _ Hinv)).
  - intros t p Hc. destruct (ready_tcb _ _ _ _ (ki_core _ Hinv) Hc) as (x & Hx & Hxp). by eapply woken_ready.
  - intros He. rewrite (wk_items _ _ _ _ Hw), He by done. done.
  - intros t w Hwt _. eapply woken_waiting; [exact Hw| |by left|exact Hwt].
    apply bool_decide_eq_false. rewrite (awf_mem _ (kc_wf _ _ (ki_core _ Hinv))). apply Hwt.
  - destruct Hyf as [[-> _]|[-> _]]; done.
  - intros Hn Hz. eapply woken_no_higher; [exact Hw|exact Hn|apply Hinv'|done|done|exact Hy|].
    destruct Hyf as [[_ ?]|[-> _]]; done.
Qed.

(** A context switch moves nothing between lists. *)
Lemma switched_cont k k' i : switched k k' -> cont_of (k_lists k') i = cont_of (k_lists k) i.
Proof. intros (h' & t & p & -> & (_ & E & _) & _). unfold cont_of. simpl. by rewrite E. Qed.

Lemma switched_items k k' l : switched k k' -> items_of (k_lists k') l = items_of (k_lists k) l.
Proof. intros (h' & t & p & -> & [E _] & _). apply E. Qed.

Lemma switched_waiting k k' t w : switched k k' -> still_waiting k t w -> still_waiting k' t w.
Proof.
  intros Hs Hw. unfold still_waiting, waiting. rewrite !(switched_cont _ _ _ Hs).
  destruct Hs as (h' & u & p & -> & (_ & E & _) & _). unfold val_of. simpl. rewrite E. exact Hw.
Qed.

Lemma switched_inv k k' : kinv k -> switched k k' -> kinv k'.
Proof.
  intros Hinv (h' & t & p & -> & Hs & HK & _). split; [done|]. eapply (ktime_vars _ (k_vars k)); [done..|].
  eapply same_cursors_time; [exact Hs|]. destruct k. apply Hinv.
Qed.

Lemma switched_pend k k' : kpend k -> switched k k' -> kpend k'.
Proof. intros Hp Hs t l. rewrite !(switched_cont _ _ _ Hs). apply Hp. Qed.

Lemma kinv_next h v : kinv (mkKernel h v) ->
  kinv (mkKernel h (set_xNextTaskUnblockTime (head_time h (pxDelayedTaskList v)) v)).
Proof.
  intros [HK []]. split; [eapply kcore_vars; [..|exact HK]; done|]. split; simpl in *; try done.
  intros i Hi. split; [by apply kt_now|]. by apply head_time_le.
Qed.

(** xTaskResumeAll when it ends the suspension. *)
Record resumed (k : KA) (r : Z) (k' : KA) : Prop := {
  rs_inv : kinv k';
  rs_pend : kpend k';
  rs_running : uxSchedulerSuspended (k_vars k') = 0 /\ xPendedTicks (k_vars k') = 0 /\
    xYieldPending (k_vars k') = pdFALSE;
  rs_frame : tcbs (k_vars k') = tcbs (k_vars k) /\ xIdleTaskHandle (k_vars k') = xIdleTaskHandle (k_vars k);
  rs_tick : xTickCount (k_vars k') = xTickCount (k_vars k) +u xPendedTicks (k_vars k);
  rs_empty : items_of (k_lists k') xPendingReadyList = [];
  rs_woken t : cont_of (k_lists k) (EventItem t) = Some xPendingReadyList ->
    exists p, cont_of (k_lists k') (StateItem t) = Some (Ready p);
  rs_ready t p : cont_of (k_lists k) (StateItem t) = Some (Ready p) ->
    cont_of (k_lists k') (StateItem t) = Some (Ready p);
  rs_wait t w : still_waiting k t w ->
    (forall j, 1 <= j <= xPendedTicks (k_vars k) -> xTickCount (k_vars k) +u j <> w) -> still_waiting k' t w;
  rs_switch : (r = pdTRUE /\ runs_highest k') \/
    (r = pdFALSE /\ pxCurrentTCB (k_vars k') = pxCurrentTCB (k_vars k) /\ (no_higher k -> no_higher k'))
}.

(** Up to the decision to switch. *)
Record ready_to_run (k k' : KA) : Prop := {
  rr_caught : caught_up (xPendedTicks (k_vars k)) (mkKernel (k_lists k) (set_uxSchedulerSuspended 0 (k_vars k)))
    (mkKernel (k_lists k') (set_xPendedTicks (xPendedTicks (k_vars k)) (k_vars k')));
  rr_pended : xPendedTicks (k_vars k') = 0;
  rr_empty : items_of (k_lists k') xPendingReadyList = [];
  rr_woken t : cont_of (k_lists k) (EventItem t) = Some xPendingReadyList ->
    exists p, cont_of (k_lists k') (StateItem t) = Some (Ready p)
}.

Lemma rr_inv k k' : ready_to_run k k' -> kinv k' /\ kpend k'.
Proof.
  intros [[] _ _ _]. destruct k' as [h' v']. split; [|exact cu_pend0].
  eapply kinv_vars; [..|exact cu_inv0]; done.
Qed.

Lemma resume_finish k k1 : kinv k -> some_ready k -> ready_to_run k k1 ->
  wp (y ← rdv xYieldPending; if negb (y =? pdFALSE) then portYIELD;; mret pdTRUE else mret pdFALSE)
    (resumed k) k1.
Proof.
  intros Hinv Hsome Hrr. destruct (rr_inv _ _ Hrr) as [Hinv1 Hp1]. destruct Hrr as [Hc Hpd He Hwk].
  wsteps. destruct (Z.eqb_spec (xYieldPending (k_vars k1)) pdFALSE) as [Ey|Ey]; simpl; wsteps.
  - destruct Hc. simpl in *. split; try done. right. split_and!; try done.
    intros Hn. exact (cu_higher0 Hn Ey).
  - unfold portYIELD. eapply wp_mono; [apply switch_wp|].
    + apply Hinv1.
    + destruct Hsome as (t & p & Ht). exists t, p. by apply (cu_ready _ _ _ Hc).
    + apply (cu_suspended _ _ _ Hc).
    + intros [] k2 Hsw. wsteps. pose proof (switched_inv _ _ Hinv1 Hsw) as Hinv2. pose proof (switched_pend _ _ Hp1 Hsw) as Hp2.
      assert (Hfr : forall t p, cont_of (k_lists k1) (StateItem t) = Some (Ready p) ->
        cont_of (k_lists k2) (StateItem t) = Some (Ready p)) by (intros; by rewrite (switched_cont _ _ _ Hsw)).
      pose proof (switched_items _ _ xPendingReadyList Hsw) as Hit.
      assert (Hsww := fun t w => switched_waiting _ _ t w Hsw).
      destruct Hsw as (h' & t & p & -> & _ & _ & Hrun & _). destruct Hc. simpl in *. split; simpl; try done.
      * by rewrite Hit.
      * intros t' Ht'. destruct (Hwk _ Ht') as [p' Hp']. eauto.
      * intros t' p' Ht'. apply Hfr. by apply cu_ready0.
      * intros t' w Hwt Hj. apply Hsww. exact (cu_wait0 t' w Hwt Hj).
      * by left.
Qed.

Lemma cu_vars n k h v v' : caught_up n k (mkKernel h v) -> kinv (mkKernel h v') ->
  tcbs v' = tcbs v -> pxCurrentTCB v' = pxCurrentTCB v -> uxSchedulerSuspended v' = uxSchedulerSuspended v ->
  xPendedTicks v' = xPendedTicks v -> xIdleTaskHandle v' = xIdleTaskHandle v -> xTickCount v' = xTickCount v ->
  xYieldPending v' = xYieldPending v -> pxDelayedTaskList v' = pxDelayedTaskList v ->
  pxOverflowDelayedTaskList v' = pxOverflowDelayedTaskList v -> caught_up n k (mkKernel h v').
Proof.
  intros [] Hinv E1 E2 E3 E4 E5 E6 E7 E8 E9. simpl in *.
  split; simpl; rewrite ?E1, ?E2, ?E3, ?E4, ?E5, ?E6, ?E7; try done.
  { intros t w Hw Hj. specialize (cu_wait0 t w Hw Hj). unfold still_waiting, waiting in *. simpl in *.
    by rewrite E8, E9. }
  intros Hn Hy. specialize (cu_higher0 Hn Hy). intros x t p. simpl. rewrite E1, E2. apply cu_higher0.
Qed.

(** The ticks missed are processed and the counter cleared. *)
Lemma missed_ticks_wp k : kinv k -> kpend k -> uxSchedulerSuspended (k_vars k) = 0 -> 0 <= xPendedTicks (k_vars k) ->
  wp (when (0 <? xPendedTicks (k_vars k))
        (pended_ticks_loop (Z.to_nat (xPendedTicks (k_vars k)));; wrv (set_xPendedTicks 0)))
    (fun _ k' => xPendedTicks (k_vars k') = 0 /\ caught_up (xPendedTicks (k_vars k)) k
        (mkKernel (k_lists k') (set_xPendedTicks (xPendedTicks (k_vars k)) (k_vars k')))) k.
Proof.
  intros Hinv Hp Hs Hpd. destruct (Z.ltb_spec 0 (xPendedTicks (k_vars k))) as [Hlt|Hle]; simpl; wsteps.
  - eapply wp_mono; [by apply pended_ticks_wp|]. intros [] k3 Hc. wsteps. split; [done|].
    rewrite Z2Nat.id in Hc by lia. pose proof (cu_pended _ _ _ Hc) as Ep. destruct k3 as [h3 v3]. simpl in *.
    eapply cu_vars; [exact Hc|..]; simpl; try done. eapply kinv_vars; [..|apply Hc]; done.
  - assert (xPendedTicks (k_vars k) = 0) as E by lia. split; [done|]. rewrite E. destruct k as [h v]. simpl in *.
    eapply cu_vars; [by apply caught_up_refl|..]; simpl; try done. eapply kinv_vars; [..|exact Hinv]; done.
Qed.

(** The pending tasks are made ready, and the next wake time is looked up again. *)
Lemma pending_phase_wp h v : kinv (mkKernel h v) -> kpend (mkKernel h v) ->
  wp (len ← onlist (loLength xPendingReadyList);
      pxTCB ← pending_ready_loop (Z.to_nat len) NULL;
      when (negb (pxTCB =? NULL)) prvResetNextTaskUnblockTime)
    (fun _ k' => caught_up 0 (mkKernel h v) k' /\ woken (pending h) v h (k_lists k')) (mkKernel h v).
Proof.
  intros Hinv Hp. wstep. apply wp_length; [by apply (kc_lists _ _ (ki_core _ Hinv))|]. wstep.
  eapply wp_mono; [apply (pending_loop_wp _ _ _ NULL Hinv Hp); by rewrite Nat2Z.id|].
  intros last k1 Hpost. pose proof (pend_catch_up _ _ _ Hinv Hpost) as Hc1.
  destruct Hpost as (a1 & b & y & -> & Hinv1 & Hp1 & Hw1 & _). set (v1 := set_xYieldPending _ _) in *.
  destruct (negb (last =? NULL)); simpl; [|by wstep].
  eapply reset_next_wp; [apply Hinv1|]. split; [|done]. eapply cu_vars; [exact Hc1|by apply kinv_next|done..].
Qed.

(** A sequence of three steps followed by the rest is the three steps as one
    block, followed by the rest. *)
Lemma wp_block3 {A B C} (m : M KA A) (f : A -> M KA B) (g : B -> M KA unit) (r : M KA C) Q k :
  wp (a ← m; b ← f a; g b) (fun _ k' => wp r Q k') k -> wp (a ← m; b ← f a; g b;; r) Q k.
Proof.
  intros ([] & k' & E & Hr). apply bind_inv in E as (a & k1 & E1 & E). apply bind_inv in E as (b & k2 & E2 & E3).
  apply wp_bind. exists a, k1. split; [done|]. apply wp_bind. exists b, k2. split; [done|].
  apply wp_bind. exists tt, k'. done.
Qed.

Lemma resume_all_wp k : kinv k -> kpend k -> some_ready k -> 0 <= xPendedTicks (k_vars k) ->
  uxSchedulerSuspended (k_vars k) = 1 -> 0 < uxCurrentNumberOfTasks (k_vars k) ->
  wp xTaskResumeAll (resumed k) k.
Proof.
  intros Hinv Hp Hsome Hpd Hs Hn. unfold xTaskResumeAll. wsteps. rewrite Hs. change (1 -u 1) with 0.
  rewrite (proj2 (Z.ltb_lt _ _)) by done. simpl.
  destruct k as [h v]. simpl in *. set (v0 := set_uxSchedulerSuspended 0 v).
  assert (Hinv0 : kinv (mkKernel h v0)) by (eapply kinv_vars; [..|exact Hinv]; done).
  apply wp_block3. eapply wp_mono; [by apply pending_phase_wp|]. intros [] k1 [Hc1 Hw1].
  pose proof (cu_pended _ _ _ Hc1) as Epd. simpl in Epd.
  wsteps. eapply wp_mono; [apply missed_ticks_wp; [apply Hc1|apply Hc1|apply (cu_suspended _ _ _ Hc1)|by rewrite Epd]|].
  intros [] k2 [Hpd2 Hc2]. rewrite Epd in Hc2. apply resume_finish; [done|done|].
  pose proof (cu_empty _ _ _ Hc2) as He2. pose proof (cu_ready _ _ _ Hc2) as Hr2. simpl in *.
  split; simpl; try done.
  - exact (caught_up_trans 0 _ _ _ _ (Z.le_refl 0) Hpd Hc1 Hc2).
  - apply He2. rewrite (wk_items _ _ _ _ Hw1) by done. apply elem_of_nil_inv.
    intros i [Hd Hi]%list_elem_of_filter. destruct (event_list_item _ _ xPendingReadyList _ (ki_core _ Hinv0) eq_refl Hi) as (t & x & -> & _).
    simpl in Hd. unfold pending in Hd. by rewrite bool_decide_true in Hd.
  - intros t Ht. destruct (kc_event _ _ (ki_core _ Hinv) _ _ Ht) as [[x Hx] _]. simpl in Hx.
    exists (uxPriority x). apply Hr2. eapply (wk_yes _ _ _ _ Hw1); [|done].
    apply bool_decide_eq_true. by apply (awf_mem _ (kc_wf _ _ (ki_core _ Hinv))).
Qed.

(** Nothing was deferred: only a yield that was asked for takes place. *)
Lemma resume_quiet_wp k : kinv k -> some_ready k -> xPendedTicks (k_vars k) = 0 ->
  items_of (k_lists k) xPendingReadyList = [] ->
  uxSchedulerSuspended (k_vars k) = 1 -> 0 < uxCurrentNumberOfTasks (k_vars k) ->
  wp xTaskResumeAll (fun r k' => let k0 := mkKernel (k_lists k) (set_uxSchedulerSuspended 0 (k_vars k)) in
    (xYieldPending (k_vars k) = pdFALSE /\ r = pdFALSE /\ k' = k0) \/
    (xYieldPending (k_vars k) <> pdFALSE /\ r = pdTRUE /\ switched k0 k')) k.
Proof.
  intros Hinv Hsome Hpd He Hs Hn. unfold xTaskResumeAll. wsteps. rewrite Hs. change (1 -u 1) with 0.
  rewrite (proj2 (Z.ltb_lt _ _)) by done. simpl. destruct k as [h v]. simpl in *. set (v0 := set_uxSchedulerSuspended 0 v).
  assert (Hex : is_Some (a_lists h !! xPendingReadyList)) by by apply (kc_lists _ _ (ki_core _ Hinv)).
  wstep. apply wp_length; [done|]. rewrite He. simpl. wsteps. apply wp_listIS_EMPTY; [done|]. rewrite He. simpl. wsteps.
  change (negb (NULL =? NULL)) with false. cbn [when]. wsteps. rewrite Hpd. cbn [Z.ltb Z.compare when]. wsteps.
  destruct (Z.eqb_spec (xYieldPending v) pdFALSE) as [Ey|Ey]; simpl; wsteps; [by left|].
  unfold portYIELD. eapply wp_mono; [apply switch_wp; [|done|done]|].
  - eapply kcore_vars; [..|apply Hinv]; done.
  - intros [] k' Hsw. wsteps. by right.
Qed.

(** A nested suspension just ends one level. *)
Lemma resume_nested_wp k : 1 < uxSchedulerSuspended (k_vars k) < u32_modulus ->
  wp xTaskResumeAll (fun r k' => r = pdFALSE /\
    k' = mkKernel (k_lists k) (set_uxSchedulerSuspended (uxSchedulerSuspended (k_vars k) - 1) (k_vars k))) k.
Proof.
  intros Hs. unfold xTaskResumeAll. wsteps. rewrite u32_small by u32_lia.
  rewrite (proj2 (Z.eqb_neq _ _)) by (unfold pdFALSE; lia). simpl. by wsteps.
Qed.

End Resume.
