(* ===== verification/KernelDemo.v ===== *)
(** * Concrete kernel states

    [kinv_check] decides the invariant of a concrete state.  [boot] starts the
    kernel the way an application does: it creates tasks with the functions of
    tasks.c, on pointer lists and on abstract lists alike, so the two states
    it ends in are related.  The instances of the theorems are at these
    states. *)

From S2P Require Import Prelude Simulation Config ListC ListSpec ListRefine ListObs ListProps Heap4 Kernel Tasks TaskApi TaskEvents Queue KernelRefine KernelInv KernelSteps SchedProps ResumeProps.

(** ** Deciding the invariant *)

Section Check.
Implicit Types (k : KA) (h : AH) (v : Vars).

Definition item_ok k (i : item) (x : aitem list_id) : bool :=
  match ai_container x with
  | None => true
  | Some l =>
      bool_decide (i ∈ items_of (k_lists k) l) &&
      match i with
      | StateItem t =>
          is_state_list l &&
          match tcbs (k_vars k) !! t with
          | None => false
          | Some y => match l with Ready p => uxPriority y =? p | _ => true end
          end
      | EventItem t => is_event_list l && bool_decide (is_Some (tcbs (k_vars k) !! t))
      | TimerItem _ => is_timer_list l
      end
  end.

Definition list_ok k (l : list_id) (al : alist item) : bool :=
  bool_decide (NoDup (al_items al)) &&
  forallb (fun i => bool_decide (cont_of (k_lists k) i = Some l)) (al_items al) &&
  match al_index al with None => true | Some i => bool_decide (i ∈ al_items al) end &&
  match l with
  | Ready p => bool_decide (al_items al = []) || Z.testbit (uxTopReadyPriority (k_vars k)) p
  | _ => true
  end.

Definition in_prio (p : Z) : bool := (0 <=? p) && (p <? configMAX_PRIORITIES).

Definition tcb_ok k (t : Z) (x : TCB_t) : bool :=
  in_prio (uxPriority x) && in_prio (uxBasePriority x) &&
  match a_items (k_lists k) !! StateItem t, a_items (k_lists k) !! EventItem t with
  | Some i, Some j => (ai_owner i =? t) && (ai_owner j =? t)
  | _, _ => false
  end.

Definition static_lists : list list_id :=
  (Ready <$> seqZ 0 configMAX_PRIORITIES) ++
  [xDelayedTaskList1; xDelayedTaskList2; xPendingReadyList; xTasksWaitingTermination; xSuspendedTaskList].

Definition prio_exact k (p : Z) : bool :=
  negb (Z.testbit (uxTopReadyPriority (k_vars k)) p) || negb (bool_decide (items_of (k_lists k) (Ready p) = [])).

Definition core_check k : bool :=
  forallb (fun p => item_ok k p.1 p.2) (map_to_list (a_items (k_lists k))) &&
  forallb (fun p => list_ok k p.1 p.2) (map_to_list (a_lists (k_lists k))) &&
  forallb (fun p => tcb_ok k p.1 p.2) (map_to_list (tcbs (k_vars k))) &&
  forallb (fun l => bool_decide (is_Some (a_lists (k_lists k) !! l))) static_lists &&
  forallb (prio_exact k) (seqZ 0 configMAX_PRIORITIES) &&
  (bool_decide (pxDelayedTaskList (k_vars k) = xDelayedTaskList1 /\
                pxOverflowDelayedTaskList (k_vars k) = xDelayedTaskList2) ||
   bool_decide (pxDelayedTaskList (k_vars k) = xDelayedTaskList2 /\
                pxOverflowDelayedTaskList (k_vars k) = xDelayedTaskList1)) &&
  ((0 <=? uxTopReadyPriority (k_vars k)) && (uxTopReadyPriority (k_vars k) <? 2 ^ configMAX_PRIORITIES)) &&
  bool_decide (is_Some (tcbs (k_vars k) !! pxCurrentTCB (k_vars k))) &&
  (Z.of_nat (size (a_items (k_lists k))) <? u32_modulus).

Lemma forallb_map {A K} `{Countable K} (f : K -> A -> bool) (m : gmap K A) :
  forallb (fun p => f p.1 p.2) (map_to_list m) = true -> forall i x, m !! i = Some x -> f i x = true.
Proof.
  intros Hf i x Hx. rewrite forallb_forall in Hf. specialize (Hf (i, x)). apply Hf.
  apply list_elem_of_In. by apply elem_of_map_to_list.
Qed.

Lemma forallb_elem {A} (f : A -> bool) (xs : list A) : forallb f xs = true -> forall x, x ∈ xs -> f x = true.
Proof. intros Hf x Hx. rewrite forallb_forall in Hf. apply Hf. by apply list_elem_of_In. Qed.

Lemma in_prio_ok p : in_prio p = true <-> prio_ok p.
Proof. unfold in_prio, prio_ok. rewrite andb_true_iff, Z.leb_le, Z.ltb_lt. done. Qed.

Lemma static_lists_all l : is_static_list l = true -> l ∈ static_lists.
Proof.
  unfold is_static_list. rewrite orb_true_iff, bool_decide_eq_true. intros Hl. apply elem_of_app.
  destruct l as [p| | | | | | | | | |]; destruct Hl as [Hl|Hl]; try done; try (right; set_solver).
  left. apply list_elem_of_fmap. exists p. split; [done|]. apply elem_of_seqZ.
  apply (in_prio_ok p) in Hl. unfold prio_ok in Hl. lia.
Qed.

Section Sound.
Variable k : KA.
Hypothesis Hitems : forall i x, a_items (k_lists k) !! i = Some x -> item_ok k i x = true.
Hypothesis Hlists : forall l al, a_lists (k_lists k) !! l = Some al -> list_ok k l al = true.

Lemma check_cont i l : cont_of (k_lists k) i = Some l -> i ∈ items_of (k_lists k) l /\
  match i with
  | StateItem t => is_state_list l = true /\ exists y, tcbs (k_vars k) !! t = Some y /\
      (forall p, l = Ready p -> uxPriority y = p)
  | EventItem t => is_event_list l = true /\ is_Some (tcbs (k_vars k) !! t)
  | TimerItem _ => is_timer_list l = true
  end.
Proof.
  intros (x & Hx & Hc)%cont_of_some. apply Hitems in Hx. unfold item_ok in Hx. rewrite Hc in Hx.
  apply andb_true_iff in Hx as [Hin%bool_decide_eq_true Hx]. split; [done|].
  destruct i as [t|t|t]; [| |done]; apply andb_true_iff in Hx as [Hl Hx]; split; try done.
  - destruct (tcbs (k_vars k) !! t) as [y|]; [|done]. exists y. split; [done|]. intros p ->. by apply Z.eqb_eq.
  - by apply bool_decide_eq_true in Hx.
Qed.

Lemma check_list l : NoDup (items_of (k_lists k) l) /\
  (forall i, i ∈ items_of (k_lists k) l -> cont_of (k_lists k) i = Some l) /\
  (forall i, index_of (k_lists k) l = Some i -> i ∈ items_of (k_lists k) l) /\
  (forall p, l = Ready p -> items_of (k_lists k) l <> [] -> Z.testbit (uxTopReadyPriority (k_vars k)) p = true).
Proof.
  unfold items_of, index_of. destruct (a_lists (k_lists k) !! l) as [al|] eqn:Hal; simpl.
  - apply Hlists in Hal. unfold list_ok in Hal. rewrite !andb_true_iff in Hal.
    destruct Hal as [[[Hnd%bool_decide_eq_true Hf] Hidx] Hr]. split_and!; [done| | |].
    + intros i Hi. eapply forallb_elem in Hf; [|exact Hi]. by apply bool_decide_eq_true in Hf.
    + intros i Ei. rewrite Ei in Hidx. by apply bool_decide_eq_true in Hidx.
    + intros p -> Hne. rewrite bool_decide_false in Hr by done. done.
  - split_and!; try done; [constructor|set_solver].
Qed.

Lemma check_awf : Z.of_nat (size (a_items (k_lists k))) < u32_modulus -> awf (k_lists k).
Proof.
  intros Hs. split; [| | |done].
  - intros i l. split; [apply check_list|]. intros Hc. by apply check_cont.
  - intros l. apply check_list.
  - intros l. apply check_list.
Qed.
End Sound.

Lemma core_check_sound k : core_check k = true -> kcore none k.
Proof.
  unfold core_check. rewrite !andb_true_iff, !orb_true_iff, !bool_decide_eq_true, Z.leb_le, !Z.ltb_lt.
  intros [[[[[[[[Hi Hl] Ht] Hst] Hex] Hd] Htop] Hcur] Hsz].
  pose proof (forallb_map (item_ok k) _ Hi) as Hi'. pose proof (forallb_map (list_ok k) _ Hl) as Hl'.
  pose proof (forallb_map (tcb_ok k) _ Ht) as Ht'. split; try done.
  - by apply check_awf.
  - intros l Hs%static_lists_all. eapply forallb_elem in Hst; [|exact Hs]. by apply bool_decide_eq_true in Hst.
  - intros t x Hx. apply Ht' in Hx. unfold tcb_ok in Hx. rewrite !andb_true_iff, !in_prio_ok in Hx. by destruct Hx as [Hx _].
  - intros t [x Hx]. apply Ht' in Hx. unfold tcb_ok, owner_of in *. apply andb_true_iff in Hx as [_ Hx].
    destruct (a_items (k_lists k) !! StateItem t), (a_items (k_lists k) !! EventItem t); try done.
    rewrite andb_true_iff, !Z.eqb_eq in Hx. naive_solver.
  - intros t l Hc. destruct (check_cont k Hi' _ _ Hc) as (_ & ? & y & ? & _). eauto.
  - intros t l Hc. destruct (check_cont k Hi' _ _ Hc) as (_ & ? & ?). eauto.
  - intros t l Hc. by destruct (check_cont k Hi' _ _ Hc) as (_ & ?).
  - intros t p x Hc Hx. destruct (check_cont k Hi' _ _ Hc) as (_ & ? & y & ? & Hp). simplify_eq. by apply Hp.
  - intros p. by apply (check_list k Hi' Hl' (Ready p)).
  - intros p Hp _ Hb. assert (Hin : p ∈ seqZ 0 configMAX_PRIORITIES) by (apply elem_of_seqZ; unfold prio_ok in Hp; lia).
    pose proof (forallb_elem _ _ Hex p Hin) as He. unfold prio_exact in He. rewrite Hb in He. simpl in He.
    by apply negb_true_iff, bool_decide_eq_false in He.
Qed.

Fixpoint sorted_check (val : item -> Z) (xs : list item) : bool :=
  match xs with
  | [] => true
  | x :: xs' => forallb (fun y => val x <=? val y) xs' && sorted_check val xs'
  end.

Lemma sorted_check_sound val xs : sorted_check val xs = true -> sorted_by val xs.
Proof.
  induction xs as [|x xs IH]; simpl; [done|]. rewrite andb_true_iff. intros [Hf Hs]. split; [|auto].
  apply Forall_forall. intros y Hy. eapply forallb_elem in Hf; [|exact Hy]. by apply Z.leb_le in Hf.
Qed.

Definition time_check k : bool :=
  let h := k_lists k in let v := k_vars k in
  let now := items_of h (pxDelayedTaskList v) in let later := items_of h (pxOverflowDelayedTaskList v) in
  ((0 <=? xTickCount v) && (xTickCount v <? u32_modulus)) &&
  forallb (fun i => (xTickCount v <? val_of h i) && (val_of h i <=? portMAX_DELAY) &&
                    (xNextTaskUnblockTime v <=? val_of h i)) now &&
  forallb (fun i => (0 <=? val_of h i) && (val_of h i <? xTickCount v)) later &&
  sorted_check (val_of h) now && sorted_check (val_of h) later.

Lemma time_check_sound k : time_check k = true -> ktime k.
Proof.
  unfold time_check. rewrite !andb_true_iff, Z.leb_le, Z.ltb_lt. intros [[[[Ht Hn] Hl] Hs] Hs'].
  split; [exact Ht| | |by apply sorted_check_sound|by apply sorted_check_sound].
  - intros i Hi. eapply forallb_elem in Hn; [|exact Hi].
    rewrite !andb_true_iff, !Z.leb_le, Z.ltb_lt in Hn. tauto.
  - intros i Hi. eapply forallb_elem in Hl; [|exact Hi]. by rewrite andb_true_iff, Z.leb_le, Z.ltb_lt in Hl.
Qed.

Definition pend_check k : bool :=
  forallb (fun p => match p.1 with
    | EventItem t =>
        match ai_container p.2, cont_of (k_lists k) (StateItem t) with
        | None, _ => true
        | Some _, Some (Ready _) => false
        | Some _, Some _ => true
        | Some _, None => false
        end
    | _ => true end) (map_to_list (a_items (k_lists k))).

Lemma pend_check_sound k : pend_check k = true -> kpend k.
Proof.
  intros Hc t l (x & Hx & Hl)%cont_of_some. unfold pend_check in Hc.
  assert (Hin : (EventItem t, x) ∈ map_to_list (a_items (k_lists k))) by by apply elem_of_map_to_list.
  pose proof (forallb_elem _ _ Hc _ Hin) as He. simpl in He. rewrite Hl in He.
  destruct (cont_of (k_lists k) (StateItem t)) as [l'|]; [|done]. exists l'. split; [done|]. by intros p ->.
Qed.

Definition max_check k (z : Z) : bool :=
  forallb (fun p => match ai_container p.2 with Some (Ready q) => q <=? z | _ => true end)
    (map_to_list (a_items (k_lists k))).

Lemma max_check_sound k z : max_check k z = true ->
  forall t p, cont_of (k_lists k) (StateItem t) = Some (Ready p) -> p <= z.
Proof.
  intros Hc t p (x & Hx & Hl)%cont_of_some. unfold max_check in Hc.
  assert (Hin : (StateItem t, x) ∈ map_to_list (a_items (k_lists k))) by by apply elem_of_map_to_list.
  pose proof (forallb_elem _ _ Hc _ Hin) as He. simpl in He. rewrite Hl in He. by apply Z.leb_le.
Qed.

Definition kinv_check k : bool := core_check k && time_check k.
Lemma kinv_check_sound k : kinv_check k = true -> kinv k.
Proof. intros [??]%andb_true_iff. split; [by apply core_check_sound|by apply time_check_sound]. Qed.

End Check.

(** ** A small system

    An idle task (at address 1000), two tasks of priority 3 (at 2000 and
    3000) and one of priority 5 (at 4000). *)

Section Boot.
Context {H : Type} `{!ListOps item list_id H}.
Notation K := (Kernel H).

Definition create (t p : Z) : M K unit :=
  prvInitialiseNewTask 0 None p t (t + 500);; add_new_task t.

Definition boot : M K unit :=
  create 1000 0;; create 2000 3;; create 3000 3;; create 4000 5;;
  wrv (set_xSchedulerRunning pdTRUE);; wrv (set_xIdleTaskHandle 1000);;
  wrv (set_xNextTaskUnblockTime portMAX_DELAY);;
  vTaskSwitchContext.
End Boot.

(** The heap has not been used; static variables have their initial values. *)
Definition vars0 : Vars :=
  mkVars ∅ NULL xDelayedTaskList1 xDelayedTaskList2 0 0 0 0 pdFALSE 0 pdFALSE 0 0 0 NULL 0 ∅
    (replicate 8 (NULL, NULL)) (mkTimerVars ∅ xActiveTimerList1 xActiveTimerList2 NULL NULL 0) ∅ ∅
    (mkHeap4 ∅ NULL 0 0 0 0 0) 0 0 0 [].

Definition ends {A S} (m : M S A) (s : S) : S := from_option snd s (m s).

Definition boot_abs : KA := ends boot (mkKernel (mkAheap ∅ ∅) vars0).
Definition boot_ptr : Kernel (lheap item list_id) := ends boot (mkKernel (mkLheap ∅ ∅) vars0).

(** A script run on both kinds of lists from related states ends in related
    states. *)
Lemma ends_related {A} (m1 : M (Kernel (lheap item list_id)) A) (m2 : M KA A) k1 k2 :
  sim (RK rep) m1 m2 -> RK rep k1 k2 -> bool_decide (is_Some (m2 k2)) = true ->
  RK rep (ends m1 k1) (ends m2 k2).
Proof.
  intros Hs HR [[a k2'] E]%bool_decide_eq_true. destruct (Hs _ _ _ _ HR E) as (k1' & E1 & HR').
  unfold ends. by rewrite E, E1.
Qed.

Lemma start_related : RK rep (mkKernel (mkLheap (∅ : gmap item _) (∅ : gmap list_id _)) vars0)
  (mkKernel (mkAheap ∅ ∅) vars0).
Proof.
  split; [|done]. simpl. split; simpl.
  - split; simpl; unfold items_of, cont_of, index_of; simpl.
    + intros i l. rewrite !lookup_empty. simpl. set_solver.
    + intros l. rewrite lookup_empty. constructor.
    + intros l i. by rewrite lookup_empty.
    + rewrite map_size_empty. u32_lia.
  - intros i. done.
  - intros l al. by rewrite lookup_empty.
Qed.

Lemma boot_sim : sim (RK rep) (boot (H := lheap item list_id)) (boot (H := AH)).
Proof.
  unfold boot, create. repeat sim_step; try apply sim_prvInitialiseNewTask; try apply sim_add_new_task;
    try apply sim_wrv; try apply sim_switch; apply list_c_refines.
Qed.

Lemma boot_related : RK rep boot_ptr boot_abs.
Proof. apply ends_related; [apply boot_sim|apply start_related|by vm_compute]. Qed.

Lemma boot_inv : kinv boot_abs.
Proof. apply kinv_check_sound. by vm_compute. Qed.
Lemma boot_pend : kpend boot_abs.
Proof. apply pend_check_sound. by vm_compute. Qed.
