(* ===== verification/PortDemo.v ===== *)
(** * A concrete board

    The system of [KernelDemo] on a processor: TCBs at 1000 to 5000 (the last
    for a task to be made later), stacks of 40 words from 101000 on, the
    variables of port.c from 8000 on. *)

From S2P Require Import Prelude Config ListC ListSpec ListRefine Kernel Tasks KernelRefine KernelDemo Riscv Port PortSpec PortProps PortTraps PortStart.

Definition demo_tasks : list Z := [1000; 2000; 3000; 4000; 5000].
Definition demo_stack (t : Z) : Z := 100000 + t.
Definition demo_port : list Z := [8000; 8004; 8008].
Definition demo_devices : list Z :=
  [configMTIME_BASE_ADDRESS; configMTIME_BASE_ADDRESS + 4; MTIMECMP 0; MTIMECMP 0 + 4].
Definition on_stack (a t : Z) : bool := (demo_stack t <=? a) && (a <? demo_stack t + 160).

Definition demo_own (a : Z) : owner :=
  if bool_decide (a ∈ demo_tasks) then OTcb
  else if bool_decide (a ∈ demo_port) then OPort
  else if bool_decide (a ∈ demo_devices) then ODevice
  else if (200000 <=? a) && (a <? 200400) then OIsr
  else match List.find (on_stack a) demo_tasks with Some t => OStack t | None => OOther end.

Definition demo_words : list Z := demo_tasks ++ demo_port ++
  (t ← demo_tasks; (fun i => demo_stack t + 4 * i) <$> seqZ 0 40).

(** The clock stops at a million. *)
Definition demo_clock (n : nat) : Z := Z.min (Z.of_nat n) 1000000.

(** What compiled code leaves behind: anything in the temporaries. *)
Definition demo_after_call {H} (k : Kernel H) (c : cpu) : cpu := set_x t0 77 (set_x ra 78 (set_x a0 79 c)).

Lemma demo_board_layout : layout 0 8000 8008 demo_own.
Proof.
  split; [|by repeat constructor|done|by repeat constructor].
  intros a Ha. unfold demo_own in Ha. case_bool_decide as H1; [unfold demo_tasks in H1; set_unfold; lia|].
  case_bool_decide as H2; [unfold demo_port in H2; set_unfold; lia|].
  case_bool_decide as H3.
  { unfold demo_devices, MTIMECMP, configMTIMECMP_BASE_ADDRESS, configMTIME_BASE_ADDRESS, CLINT_ADDR, CLINT_MTIME, CLINT_MTIMECMP in H3. set_unfold. lia. }
  destruct (_ && _) eqn:E; [lia|]. destruct (List.find _ _) as [t|] eqn:Ef; [|done].
  apply find_some in Ef as [Ht Hs]. apply list_elem_of_In in Ht. unfold on_stack, demo_stack in Hs. unfold demo_tasks in Ht. set_unfold. lia.
Qed.

Lemma demo_abi {H} : abi demo_own (@demo_after_call H).
Proof. by split. Qed.

(** The owner of a stack's words. *)
Lemma demo_own_stack t a : t ∈ demo_tasks -> demo_stack t <= a < demo_stack t + 160 -> demo_own a = OStack t.
Proof.
  intros Ht Ha. unfold demo_own, demo_stack in *. unfold demo_tasks in Ht. set_unfold in Ht.
  rewrite !bool_decide_false.
  2: { unfold demo_devices, MTIMECMP, configMTIMECMP_BASE_ADDRESS, configMTIME_BASE_ADDRESS, CLINT_ADDR, CLINT_MTIME, CLINT_MTIMECMP. set_unfold. lia. }
  2: { unfold demo_port. set_unfold. lia. }
  2: { unfold demo_tasks. set_unfold. lia. }
  rewrite (proj2 (andb_false_iff _ _)) by (rewrite Z.leb_gt; lia).
  destruct (List.find _ _) as [u|] eqn:Ef.
  - apply find_some in Ef as [Hu Hs]. apply list_elem_of_In in Hu. unfold demo_tasks, on_stack, demo_stack in *. set_unfold in Hu. f_equal. lia.
  - assert (Hin : In t demo_tasks) by (apply list_elem_of_In; unfold demo_tasks; by set_unfold).
    pose proof (find_none _ _ Ef _ Hin) as Hs. unfold on_stack, demo_stack in Hs. lia.
Qed.

Lemma demo_ram_words a : is_ram (demo_own a) -> a mod 4 = 0 -> a ∈ demo_words.
Proof.
  intros Ha Hal. unfold demo_words. rewrite !elem_of_app. unfold demo_own in Ha.
  case_bool_decide; [by left|]. case_bool_decide; [by right; left|]. case_bool_decide; [done|]. destruct (_ && _); [done|].
  destruct (List.find _ _) as [t|] eqn:Ef; [|done]. apply find_some in Ef as [Ht Hs]. apply list_elem_of_In in Ht. right. right.
  apply list_elem_of_bind. exists t. split; [|done]. apply list_elem_of_fmap. unfold on_stack in Hs.
  assert (Hm : demo_stack t mod 4 = 0). { unfold demo_tasks in Ht. set_unfold. by destruct_or! Ht; subst. }
  apply Z.mod_divide in Hal as [q Hq]; [|done]. apply Z.mod_divide in Hm as [p Hp]; [|done].
  exists (q - p). split; [lia|]. apply elem_of_seqZ. lia.
Qed.

(** ** Running *)

Lemma wp_ends {A S} (m : M S A) (Q : S -> Prop) s : wp m (fun _ => Q) s -> Q (ends m s).
Proof. intros (a & s' & E & HQ). unfold ends. by rewrite E. Qed.
Lemma wp_runs {S} (m : M S unit) (Q : S -> Prop) s : wp m (fun _ => Q) s -> m s = Some (tt, ends m s).
Proof. intros ([] & s' & E & _). unfold ends. by rewrite E. Qed.

Definition cpu0 : cpu := mkCpu (fun _ => 0) 0 0 0 0 0 0 (list_to_map ((fun a => (a, 0)) <$> demo_words)) 0 [].

Lemma demo_created0 : created demo_own cpu0 ∅.
Proof.
  split; [|by intros t [? ?%lookup_empty_Some]|by intros t v ?%lookup_empty_Some|done].
  intros a Ha Hal. pose proof (demo_ram_words a Ha Hal) as Hin. exists 0. apply elem_of_list_to_map.
  - rewrite <- list_fmap_compose. change (fst ∘ _) with (fun a : Z => a). rewrite list_fmap_id. apply (bool_decide_unpack _). by vm_compute.
  - apply list_elem_of_fmap. by exists a.
Qed.

(** The tasks run functions at 10 times their TCB's address, with 7 as their
    parameter. *)
Definition demo_make (t : Z) : M cpu unit := initial_stack 0 t (demo_stack t) 40 (t * 10) 7.
Definition demo_vcpu (t : Z) : vcpu := new_vcpu (t * 10) 7 (top_of_stack (demo_stack t) 40) 0.

Lemma demo_fresh t : t ∈ demo_tasks -> fresh demo_own t (demo_stack t) 40.
Proof.
  intros Ht. split; [| |by unfold demo_tasks in Ht; set_unfold; destruct_or! Ht; subst|done|].
  - split; [unfold demo_own; by rewrite bool_decide_true|]. unfold demo_tasks in Ht. set_unfold. by destruct_or! Ht; subst.
  - intros a Ha. by apply demo_own_stack.
  - unfold demo_stack, demo_tasks in *. set_unfold. lia.
Qed.

Definition cpu4 : cpu := ends (demo_make 1000;; demo_make 2000;; demo_make 3000;; demo_make 4000) cpu0.
Definition V4 : gmap Z vcpu :=
  <[4000 := demo_vcpu 4000]> (<[3000 := demo_vcpu 3000]> (<[2000 := demo_vcpu 2000]> (<[1000 := demo_vcpu 1000]> ∅))).

Lemma demo_make_wp t c V (Q : unit -> cpu -> Prop) : t ∈ demo_tasks -> created demo_own c V -> mstatus c = 0 -> V !! t = None ->
  (forall c', created demo_own c' (<[t := demo_vcpu t]> V) -> mstatus c' = 0 -> Q tt c') -> wp (demo_make t) Q c.
Proof.
  intros Ht Hc Hms HV HQ. eapply wp_mono; [apply (create_wp _ _ _ _ demo_board_layout t (demo_stack t) 40 (t * 10) 7 c V); [done|done|by apply demo_fresh]|].
  cbv beta. rewrite Hms. intros [] c' [Hc' Ems]. by apply HQ.
Qed.

Lemma demo_created : created demo_own cpu4 V4.
Proof.
  unfold cpu4. apply (wp_ends _ (fun c => created demo_own c V4)). apply wp_bind. apply (demo_make_wp _ _ ∅); [by vm_compute; left|exact demo_created0|done|done|]. intros c1 H1 E1.
  apply wp_bind. eapply demo_make_wp; [|exact H1|done|by vm_compute|]; [unfold demo_tasks; set_solver|]. intros c2 H2 E2.
  apply wp_bind. eapply demo_make_wp; [|exact H2|done|by vm_compute|]; [unfold demo_tasks; set_solver|]. intros c3 H3 E3.
  eapply demo_make_wp; [|exact H3|done|by vm_compute|]; [unfold demo_tasks; set_solver|]. intros c4 H4 E4. exact H4.
Qed.

Definition demo_handler : Z := 536870912.
Definition demo_start : M (Kernel (lheap item list_id) * cpu) unit := xPortStartScheduler 0 demo_clock demo_handler 8000 8008 0.

Lemma boot_ptr_current : pxCurrentTCB (k_vars boot_ptr) = 4000.
Proof. by vm_compute. Qed.

(** The board after the start, with the task at 4000 running. *)
Definition cpu5 : cpu := (ends demo_start (boot_ptr, cpu4)).2.
Definition V5 : gmap Z vcpu := <[4000 := enter_first (demo_vcpu 4000)]> V4.

Lemma demo_clock_ok : (forall n, 0 <= demo_clock n < 2 ^ 64) /\ (forall n, demo_clock n <= demo_clock (S n)) /\
  (forall n, demo_clock n / 2 ^ 32 <= demo_clock (reads cpu4) / 2 ^ 32 + Z.of_nat 0).
Proof.
  assert (Hr : forall n, 0 <= demo_clock n <= 1000000) by (intros n; unfold demo_clock; lia).
  split_and!; [intros n; specialize (Hr n); lia|intros n; unfold demo_clock; lia|].
  intros n. rewrite !Z.div_small by (pose proof (Hr n); pose proof (Hr (reads cpu4)); lia). done.
Qed.

Lemma demo_started : virtual 0 demo_handler 8000 8008 demo_own 4000 cpu5 V5 /\ exists n, timer_at 8000 cpu5 (demo_clock n + uxTimerIncrementsForOneTick).
Proof.
  unfold cpu5. apply (wp_ends demo_start (fun s => virtual 0 demo_handler 8000 8008 demo_own 4000 s.2 V5 /\
    exists n, timer_at 8000 s.2 (demo_clock n + uxTimerIncrementsForOneTick))).
  destruct demo_clock_ok as (C1 & C2 & C3). eapply wp_mono; [apply (start_wp _ _ _ _ _ _ demo_board_layout 0 boot_ptr cpu4 V4 (demo_vcpu 4000) C1 C2 C3)|].
  - done.
  - exact demo_created.
  - rewrite boot_ptr_current. by vm_compute.
  - by vm_compute.
  - cbv beta. rewrite boot_ptr_current. intros _ s (_ & Hv & n & _ & Ht). split; [exact Hv|by exists n].
Qed.
