(* ===== verification/SchedTheorems.v ===== *)
(** * Theorems about scheduling

    The statements are about the code on the pointer lists of list.c: [c] is
    such a state, [k] the abstract state it represents, and [on_code m Q c]
    says that [m] runs from [c] without a fault and ends with a result and a
    represented state that satisfy [Q]. *)

From S2P Require Import Prelude Simulation Config ListC ListSpec ListRefine ListObs ListProps Heap4 Kernel Tasks TaskApi TaskEvents Queue KernelRefine KernelInv KernelSteps SchedProps ResumeProps KernelDemo.

Notation CK := (Kernel (lheap item list_id)).

Definition on_code {A} (m : M CK A) (Q : A -> KA -> Prop) (c : CK) : Prop :=
  wp m (fun a c' => exists k', RK rep c' k' /\ Q a k') c.

Section Interrupts.
Implicit Types (k : KA).

(** The state in which the timer interrupt is taken: the scheduler is running. *)
Record running k : Prop := {
  rn_inv : kinv k;
  rn_pend : kpend k;
  rn_ready : some_ready k;
  rn_suspended : uxSchedulerSuspended (k_vars k) = 0
}.

(** The tick count and the number of overflows count the ticks since start-up. *)
Definition clock k (T : Z) : Prop :=
  xTickCount (k_vars k) = T mod u32_modulus /\ xNumOfOverflows (k_vars k) = i32 (T / u32_modulus).

(** One timer interrupt. *)
Record interrupted k k' : Prop := {
  it_running : running k';
  it_tick : xTickCount (k_vars k') = xTickCount (k_vars k) +u 1;
  it_tcbs : tcbs (k_vars k') = tcbs (k_vars k);
  it_pended : xPendedTicks (k_vars k') = xPendedTicks (k_vars k);
  it_wakes t x : waiting k t (xTickCount (k_vars k) +u 1) -> tcbs (k_vars k) !! t = Some x ->
    cont_of (k_lists k') (StateItem t) = Some (Ready (uxPriority x)) /\ cont_of (k_lists k') (EventItem t) = None;
  it_others t : ~ waiting k t (xTickCount (k_vars k) +u 1) ->
    cont_of (k_lists k') (StateItem t) = cont_of (k_lists k) (StateItem t) /\
    cont_of (k_lists k') (EventItem t) = cont_of (k_lists k) (EventItem t);
  it_wait t w : still_waiting k t w -> xTickCount (k_vars k) +u 1 <> w -> still_waiting k' t w;
  it_clock T : clock k T -> clock k' (T + 1)
}.

Lemma wakes_at_waiting k c t : wakes_at k c t = true <-> waiting k t c.
Proof. unfold wakes_at, waiting. by rewrite andb_true_iff, bool_decide_eq_true, Z.eqb_eq. Qed.

Lemma i32_succ q : i32 (i32 q + 1) = i32 (q + 1).
Proof.
  unfold i32. replace ((q + 2147483648) mod 4294967296 - 2147483648 + 1 + 2147483648)
    with ((q + 2147483648) mod 4294967296 + 1) by lia.
  rewrite Zplus_mod_idemp_l. do 2 f_equal. lia.
Qed.

Lemma tick_vars_clock v T :
  xTickCount v = T mod u32_modulus -> xNumOfOverflows v = i32 (T / u32_modulus) ->
  xTickCount (tick_vars v) = (T + 1) mod u32_modulus /\ xNumOfOverflows (tick_vars v) = i32 ((T + 1) / u32_modulus).
Proof.
  intros Ht Ho. rewrite tick_vars_tick, Ht. unfold u32. rewrite Zplus_mod_idemp_l. split; [done|].
  unfold tick_vars. rewrite Ht. unfold u32. rewrite Zplus_mod_idemp_l.
  pose proof (Z.div_mod T u32_modulus ltac:(done)) as E. pose proof (Z.mod_pos_bound T u32_modulus ltac:(done)) as Hb.
  destruct (decide (T mod u32_modulus = u32_modulus - 1)) as [Em|Em].
  - rewrite <- (Z.mod_unique_pos (T + 1) u32_modulus (T / u32_modulus + 1) 0) by u32_lia.
    rewrite <- (Z.div_unique_pos (T + 1) u32_modulus (T / u32_modulus + 1) 0) by u32_lia.
    simpl. rewrite Ho. apply i32_succ.
  - rewrite <- (Z.mod_unique_pos (T + 1) u32_modulus (T / u32_modulus) (T mod u32_modulus + 1)) by u32_lia.
    rewrite <- (Z.div_unique_pos (T + 1) u32_modulus (T / u32_modulus) (T mod u32_modulus + 1)) by u32_lia.
    rewrite (proj2 (Z.eqb_neq _ _)) by u32_lia. simpl. done.
Qed.

Lemma runs_no_higher k : runs_highest k -> no_higher k.
Proof. intros (x & Hx & _ & Hmax) y t p Hy. simplify_eq. apply Hmax. Qed.

(** The tick alone. *)
Lemma tick_interrupted k r k' : running k -> ticked k r k' -> interrupted k k'.
Proof.
  intros [Hinv Hp Hr Hs] Ht. pose proof (tick_catch_up _ _ _ Hinv Hp Ht) as Hc.
  destruct Ht as (a' & n & b & hk & y & -> & Hinv' & Hw & Hy & Hb & Hiff). simpl in *.
  destruct (tick_vars_frame (k_vars k)) as (F1 & F2 & F3 & F4 & F5 & F6 & F7).
  split; simpl; try done.
  - split; simpl; [done| |..].
    + intros t l. apply (cu_pend _ _ _ Hc).
    + destruct Hr as (t & p & Ht). exists t, p. by apply (cu_ready _ _ _ Hc).
    + congruence.
  - intros t x Hwt Hx. eapply (wk_yes _ _ _ _ Hw); [|done]. by apply wakes_at_waiting.
  - intros t Hnw. assert (wakes_at k (xTickCount (k_vars k) +u 1) t = false) as E.
    { destruct (wakes_at _ _ t) eqn:E; [|done]. by apply wakes_at_waiting in E. }
    split; by apply (wk_no _ _ _ _ Hw).
  - intros t w Hwt Hne. destruct k as [h v]. eapply woken_waiting; [exact Hw| |exact F7|exact Hwt].
    destruct (wakes_at _ _ t) eqn:E; [|done]. apply andb_true_iff in E as [_ E%Z.eqb_eq].
    destruct Hne. rewrite <- E. apply Hwt.
  - intros T [Htk Hov]. by apply tick_vars_clock.
Qed.

Lemma switched_interrupted k k1 k2 : interrupted k k1 -> switched k1 k2 -> interrupted k k2.
Proof.
  intros [] Hsw. assert (Hc := fun i => switched_cont _ _ i Hsw). assert (Hsww := fun t w => switched_waiting _ _ t w Hsw).
  pose proof (switched_inv _ _ (rn_inv _ it_running0) Hsw) as Hinv.
  pose proof (switched_pend _ _ (rn_pend _ it_running0) Hsw) as Hp.
  destruct Hsw as (h' & t & p & -> & _ & _ & Hrun & _). destruct it_running0. simpl in *.
  split; simpl; try done.
  - split; try done. destruct rn_ready0 as (u & q & Hu). exists u, q. simpl. by rewrite Hc.
  - intros u x. rewrite !Hc. auto.
  - intros u. rewrite !Hc. auto.
  - intros u w Hu Hne. apply Hsww. auto.
Qed.

(** If the tick asks for no switch, the running task keeps its place. *)
Lemma tick_highest k k' : running k -> ticked k pdFALSE k' -> runs_highest k -> runs_highest k'.
Proof.
  intros Hrun Ht Hhi. pose proof (tick_catch_up _ _ _ (rn_inv _ Hrun) (rn_pend _ Hrun) Ht) as Hc.
  destruct Ht as (a' & n & b & hk & y & -> & Hinv' & Hw & Hy & Hb & Hiff).
  destruct (tick_vars_frame (k_vars k)) as (F1 & F2 & _). pose proof (runs_no_higher _ Hhi) as Hno.
  destruct Hhi as (x & Hx & Hcx & _). simplify_eq. destruct k as [h v]. simpl in *.
  exists y. simpl. rewrite F1, F2. split; [done|]. split; [by eapply (cu_ready _ _ _ Hc)|].
  assert (Hnh : no_higher (mkKernel a' (set_tickHookCalls hk (set_xNextTaskUnblockTime n
    (set_uxTopReadyPriority b (tick_vars v)))))).
  { eapply woken_no_higher; [exact Hw|exact Hno|apply Hinv'|done|done|exact Hy|].
    intros Hal. assert (pdFALSE = pdTRUE) by (apply Hiff; by right; right). done. }
  intros t p Ht. eapply (Hnh y t p); [|done]. simpl. by rewrite F1, F2.
Qed.

Lemma timer_interrupt_wp k : running k ->
  wp timer_interrupt (fun _ k' => interrupted k k' /\ (runs_highest k -> runs_highest k')) k.
Proof.
  intros Hrun. unfold timer_interrupt. wstep.
  eapply wp_mono; [apply tick_wp; apply Hrun|]. intros r k1 Ht. pose proof (tick_interrupted _ _ _ Hrun Ht) as Hi.
  destruct (Z.eqb_spec r pdFALSE) as [->|Hne]; simpl.
  - wstep. split; [done|]. by apply tick_highest.
  - pose proof (it_running _ _ Hi) as [Hinv Hp Hr Hs].
    eapply wp_mono; [apply switch_wp; [apply Hinv|done|done]|]. intros [] k2 Hsw.
    split; [by eapply switched_interrupted|]. intros _. by destruct Hsw as (h' & t & p & -> & _ & _ & ? & _).
Qed.

(** [n] timer interrupts in a row. *)
Fixpoint interrupts {H} `{!ListOps item list_id H} (n : nat) : M (Kernel H) unit :=
  match n with O => mret tt | S n' => timer_interrupt;; interrupts n' end.

Lemma interrupts_sim n : sim (RK rep) (interrupts (H := lheap item list_id) n) (interrupts (H := AH) n).
Proof. induction n as [|n IH]; simpl; repeat sim_step; [apply sim_timer_interrupt; apply _|apply IH]. Qed.

Lemma interrupts_clock n : forall k T, running k -> clock k T ->
  wp (interrupts n) (fun _ k' => running k' /\ clock k' (T + Z.of_nat n) /\ tcbs (k_vars k') = tcbs (k_vars k)) k.
Proof.
  induction n as [|n IH]; intros k T Hrun Hc; simpl.
  - wstep. by rewrite Z.add_0_r.
  - wstep. eapply wp_mono; [by apply timer_interrupt_wp|]. intros [] k1 [Hi _].
    eapply wp_mono; [apply (IH k1 (T + 1)); [apply Hi|by apply Hi]|]. intros [] k2 (Hr2 & Hc2 & Ht2).
    split_and!; [done| |by rewrite Ht2, (it_tcbs _ _ Hi)].
    replace (T + Z.of_nat (S n)) with (T + 1 + Z.of_nat n) by lia. done.
Qed.

(** A waiting task stays where it is until its time comes, and is ready then. *)
Lemma interrupts_wp n : forall k t d, running k -> 0 < d < u32_modulus -> Z.of_nat n <= d ->
  still_waiting k t (xTickCount (k_vars k) +u d) ->
  wp (interrupts n) (fun _ k' => running k' /\ tcbs (k_vars k') = tcbs (k_vars k) /\
    (runs_highest k -> runs_highest k') /\
    if decide (Z.of_nat n = d) then exists p, cont_of (k_lists k') (StateItem t) = Some (Ready p)
    else still_waiting k' t (xTickCount (k_vars k) +u d)) k.
Proof.
  induction n as [|n IH]; intros k t d Hrun Hd Hn Hw; simpl.
  - wstep. split_and!; try done. by rewrite decide_False by lia.
  - wstep. eapply wp_mono; [by apply timer_interrupt_wp|]. intros [] k1 [Hi Hhi1].
    pose proof (it_running _ _ Hi) as Hrun1. destruct (decide (d = 1)) as [->|Hd1].
    + assert (n = O) as -> by lia. simpl. wstep. split_and!; try done; [apply (it_tcbs _ _ Hi)|].
      destruct Hw as [Hw _].
      assert (is_Some (tcbs (k_vars k) !! t)) as [x Hx].
      { destruct Hw as [[Hc|Hc] _]; by apply (kc_state _ _ (ki_core _ (rn_inv _ Hrun))) in Hc as [? _]. }
      exists (uxPriority x). by eapply (it_wakes _ _ Hi).
    + pose proof (kt_tick _ (ki_time _ (rn_inv _ Hrun))) as Htk.
      assert (E : xTickCount (k_vars k) +u d = xTickCount (k_vars k1) +u (d - 1)).
      { rewrite (it_tick _ _ Hi), u32_add_add. f_equal. lia. }
      rewrite E in Hw |- *. eapply wp_mono; [apply (IH k1 t (d - 1) Hrun1); [lia|lia|]|].
      * apply (it_wait _ _ Hi); [done|]. rewrite <- E. intros Heq.
        unfold u32 in Heq. assert (((xTickCount (k_vars k) + d) - (xTickCount (k_vars k) + 1)) mod u32_modulus = 0) as Hz.
        { rewrite Zminus_mod, <- Heq, Z.sub_diag. done. }
        rewrite Z.mod_small in Hz; [lia|]. u32_lia.
      * intros [] k' (Hr' & Ht' & Hh' & Hcase). split_and!; [done|by rewrite Ht', (it_tcbs _ _ Hi)|auto|].
        repeat case_decide; try lia; done.
Qed.

End Interrupts.

(** ** A delay, from the call to the wake-up *)

Section Delay.
Implicit Types (k : KA).

(** A task calls the kernel: it is the running task and ready, nothing is left
    over from a suspension, and another task can run if it blocks. *)
Record calling k : Prop := {
  cl_running : running k;
  cl_pended : xPendedTicks (k_vars k) = 0;
  cl_tasks : 0 < uxCurrentNumberOfTasks (k_vars k);
  cl_ready : exists p, cont_of (k_lists k) (StateItem (pxCurrentTCB (k_vars k))) = Some (Ready p);
  cl_other : exists t p, t <> pxCurrentTCB (k_vars k) /\ cont_of (k_lists k) (StateItem t) = Some (Ready p)
}.

Lemma calling_no_event k : calling k -> cont_of (k_lists k) (EventItem (pxCurrentTCB (k_vars k))) = None.
Proof.
  intros Hc. destruct (cl_ready _ Hc) as [p Hp].
  destruct (cont_of (k_lists k) (EventItem _)) as [l|] eqn:E; [|done].
  destruct (rn_pend _ (cl_running _ Hc) _ _ E) as (l' & Hl' & Hnr). rewrite Hp in Hl'. simplify_eq. by destruct (Hnr p).
Qed.

(** After blocking, the task waits for its time and the others are as before. *)
Lemma blocked_delay k n k' : calling k -> u32_range n -> n <> 0 -> blocked k n false k' ->
  kpend k' /\ some_ready k' /\ still_waiting k' (pxCurrentTCB (k_vars k)) (xTickCount (k_vars k) +u n).
Proof.
  intros Hc Hn Hn0 (a' & x & nx & b & -> & Hx & Hinv & Hpk).
  pose proof (calling_no_event _ Hc) as Hev. destruct Hc as [[Hinv0 Hp _ _] _ _ _ (t & p & Hne & Ht)].
  assert (Hdl : delayed_pair (pxDelayedTaskList (k_vars k)) (pxOverflowDelayedTaskList (k_vars k))) by apply Hinv0.
  split_and!.
  - intros u l. simpl. rewrite !(pk_cont _ _ _ _ _ Hpk). rewrite decide_False by done. intros Hu.
    case_decide as E; [|by apply (Hp u l)]. by simplify_eq.
  - exists t, p. simpl. rewrite (pk_cont _ _ _ _ _ Hpk), decide_False by congruence. done.
  - unfold still_waiting, waiting. simpl. rewrite !(pk_cont _ _ _ _ _ Hpk), (pk_val _ _ _ _ _ Hpk).
    rewrite !decide_True, decide_False by done. rewrite Hev. unfold wait_list.
    split; [|done]. split; [|done]. destruct (_ <? _); [by right|by left].
Qed.

Lemma delay_wp k n : calling k -> u32_range n -> n <> 0 ->
  wp (run (vTaskDelay n)) (fun _ k' => running k' /\ runs_highest k' /\ xTickCount (k_vars k') = xTickCount (k_vars k) /\
    still_waiting k' (pxCurrentTCB (k_vars k)) (xTickCount (k_vars k) +u n)) k.
Proof.
  intros Hc Hn Hn0. unfold vTaskDelay. rewrite (proj2 (Z.ltb_lt _ _)) by u32_lia. cbn.
  set (k1 := mkKernel (k_lists k) (set_uxSchedulerSuspended 1 (k_vars k))).
  assert (Hc0 : kinv k /\ kpend k /\ uxSchedulerSuspended (k_vars k) = 0) by (destruct Hc as [[] _ _ _ _]; done).
  destruct Hc0 as (Hinv & Hp & Hs). destruct (cl_ready _ Hc) as [p Hrdy].
  destruct (kc_cur _ _ (ki_core _ Hinv)) as [x Hx].
  wstep. unfold vTaskSuspendAll. wstep. rewrite Hs. change (0 +u 1) with 1. fold k1.
  assert (Hinv1 : kinv k1) by (destruct k; eapply kinv_vars; [..|exact Hinv]; done).
  wstep. eapply wp_mono; [exact (add_delayed_wp k1 x p n pdFALSE Hinv1 Hx Hrdy Hn Hn0)|].
  intros [] k2 Hb. replace (blocks_forever n pdFALSE) with false in Hb
    by (unfold blocks_forever; by rewrite andb_false_r).
  assert (Hb0 : exists k2', blocked k n false k2' /\ k_lists k2' = k_lists k2 /\
    k_vars k2 = set_uxSchedulerSuspended 1 (k_vars k2')).
  { destruct Hb as (a' & x' & nx & b & -> & Hx' & Hinv2 & Hpk). simpl in *.
    eexists (mkKernel a' (set_xNextTaskUnblockTime nx (set_uxTopReadyPriority b
           (set_tcbs (<[pxCurrentTCB (k_vars k) := set_ucDelayAborted pdFALSE x']> (tcbs (k_vars k))) (k_vars k))))).
    split; [|done]. exists a', x', nx, b. split_and!; try done. eapply kinv_vars; [..|exact Hinv2]; done. }
  destruct Hb0 as (k2' & Hb' & El & Ev).
  destruct (blocked_delay _ _ _ Hc Hn Hn0 Hb') as (Hp2 & Hr2 & Hw2).
  assert (Hfr : kinv k2 /\ xPendedTicks (k_vars k2) = 0 /\ xTickCount (k_vars k2) = xTickCount (k_vars k) /\
    0 < uxCurrentNumberOfTasks (k_vars k2)).
  { destruct Hb as (a' & x' & nx & b & -> & _ & Hinv2 & _). simpl. destruct Hc as [_ ? ? _ _]. done. }
  destruct Hfr as (Hinv2 & Hpd2 & Htk2 & Hnt2).
  assert (Hw2' : still_waiting k2 (pxCurrentTCB (k_vars k)) (xTickCount (k_vars k) +u n)).
  { unfold still_waiting, waiting in *. rewrite <- El, Ev. exact Hw2. }
  wstep. eapply wp_mono; [apply resume_all_wp; [done| | |by rewrite Hpd2|by rewrite Ev|done]|].
  { intros t l. rewrite <- El. apply Hp2. }
  { destruct Hr2 as (t & q & Ht). exists t, q. by rewrite <- El. }
  intros r k3 [Hinv3 Hp3 (Hs3 & Hpd3 & Hy3) _ Htk3 _ _ Hrd3 Hwt3 Hsw3].
  rewrite Hpd2, Z.add_0_r, u32_small in Htk3 by apply Hinv2.
  assert (Hw3 : still_waiting k3 (pxCurrentTCB (k_vars k)) (xTickCount (k_vars k) +u n)).
  { apply Hwt3; [done|]. rewrite Hpd2. lia. }
  assert (Hr3 : some_ready k3).
  { destruct Hr2 as (t & q & Ht). exists t, q. apply Hrd3. by rewrite <- El. }
  destruct Hsw3 as [[-> Hrun3]|[-> _]]; cbn.
  - wstep. split_and!; try done. congruence.
  - wstep. unfold portYIELD. eapply wp_mono; [apply switch_wp; [apply Hinv3|done|done]|]. intros [] k4 Hsw4. wstep.
    pose proof (switched_waiting _ _ _ _ Hsw4 Hw3) as Hw4.
    pose proof (switched_inv _ _ Hinv3 Hsw4). pose proof (switched_pend _ _ Hp3 Hsw4).
    assert (some_ready k4) by (destruct Hr3 as (t & q & Ht); exists t, q; by rewrite (switched_cont _ _ _ Hsw4)).
    destruct Hsw4 as (h' & t & q & -> & _ & _ & Hrun & _). simpl in *. split_and!; try done. congruence.
Qed.

End Delay.

(** ** The theorems *)

Section Theorems.
Implicit Types (c : CK) (k : KA).

(** C7: vTaskSwitchContext, with the scheduler running and some task ready,
    never faults and leaves in pxCurrentTCB a ready task such that no ready
    task has a higher priority.  Among the tasks of that priority it is the
    one after the task that ran last (the cursor of that ready list moves on
    by one, all other cursors stay), no list changes its contents, and the
    invariant of the ready lists and their bitmap is kept. *)
Theorem switch_runs_highest_priority c k :
  RK rep c k -> kcore none k -> some_ready k -> uxSchedulerSuspended (k_vars k) = 0 ->
  on_code vTaskSwitchContext (fun _ k' =>
    runs_highest k' /\ kcore none k' /\ xYieldPending (k_vars k') = pdFALSE /\
    (forall l, items_of (k_lists k') l = items_of (k_lists k) l) /\
    exists p, cursor_next (index_of (k_lists k) (Ready p)) (items_of (k_lists k) (Ready p)) =
        Some (StateItem (pxCurrentTCB (k_vars k'))) /\
      index_of (k_lists k') (Ready p) = Some (StateItem (pxCurrentTCB (k_vars k'))) /\
      forall l, l <> Ready p -> index_of (k_lists k') l = index_of (k_lists k) l) c.
Proof.
  intros HR HK Hr Hs. eapply wp_transfer; [apply sim_switch; apply _|exact HR|].
  eapply wp_mono; [by apply switch_wp|].
  intros [] k' (h' & t & p & -> & [Hit _] & HK' & Hrun & Hcur & Hidx & Hidx'). split_and!; try done. by exists p.
Qed.

(** C4: xTaskIncrementTick, with the scheduler running, advances the tick
    count by one modulo 2^32 and makes ready exactly the tasks that wait in a
    delayed list for the new tick count, also when it wraps and the two delayed
    lists change roles; such a task leaves its event list too, no other task
    moves.  The result asks for a context switch exactly if one is pending, or
    another task shares the priority of the running task, or a task woken has
    at least its priority.  The invariant of the lists is kept. *)
Theorem tick_wakes_exactly_due c k :
  RK rep c k -> kinv k -> uxSchedulerSuspended (k_vars k) = 0 ->
  on_code xTaskIncrementTick (fun r k' =>
    let now := xTickCount (k_vars k) +u 1 in
    kinv k' /\ xTickCount (k_vars k') = now /\ pxCurrentTCB (k_vars k') = pxCurrentTCB (k_vars k) /\
    (forall t x, waiting k t now -> tcbs (k_vars k) !! t = Some x ->
      cont_of (k_lists k') (StateItem t) = Some (Ready (uxPriority x)) /\
      cont_of (k_lists k') (EventItem t) = None) /\
    (forall t, ~ waiting k t now ->
      cont_of (k_lists k') (StateItem t) = cont_of (k_lists k) (StateItem t) /\
      cont_of (k_lists k') (EventItem t) = cont_of (k_lists k) (EventItem t)) /\
    exists y, tcbs (k_vars k) !! pxCurrentTCB (k_vars k) = Some y /\ (r = pdTRUE \/ r = pdFALSE) /\
      (r = pdTRUE <-> xYieldPending (k_vars k) <> pdFALSE \/
        (1 < length (items_of (k_lists k') (Ready (uxPriority y))))%nat \/
        exists t x, waiting k t now /\ tcbs (k_vars k) !! t = Some x /\ uxPriority y <= uxPriority x)) c.
Proof.
  intros HR Hinv Hs. eapply wp_transfer; [apply sim_tick; apply _|exact HR|].
  eapply wp_mono; [by apply tick_wp|].
  intros r k' (a' & n & b & hk & y & -> & Hinv' & Hw & Hy & Hb & Hiff).
  destruct (tick_vars_frame (k_vars k)) as (_ & F2 & _ & _ & _ & F6 & _). simpl. split_and!; try done.
  - intros t x Hwt Hx. eapply (wk_yes _ _ _ _ Hw); [|done]. by apply wakes_at_waiting.
  - intros t Hnw. rewrite <- wakes_at_waiting in Hnw. apply not_true_is_false in Hnw.
    split; by apply (wk_no _ _ _ _ Hw).
  - exists y. split_and!; try done. rewrite Hiff. unfold at_least. setoid_rewrite wakes_at_waiting. done.
Qed.

(** The timer interrupt keeps the scheduling rule: if the running task is a
    ready task of the highest priority before the interrupt, so is the task
    that runs after it.  The invariants are kept and the interrupt never
    faults. *)
Theorem timer_interrupt_keeps_highest c k :
  RK rep c k -> running k -> runs_highest k ->
  on_code timer_interrupt (fun _ k' => running k' /\ runs_highest k' /\
    xTickCount (k_vars k') = xTickCount (k_vars k) +u 1) c.
Proof.
  intros HR Hrun Hhi. eapply wp_transfer; [apply sim_timer_interrupt; apply _|exact HR|].
  eapply wp_mono; [by apply timer_interrupt_wp|]. intros [] k' [Hi Hh]. split_and!; [apply Hi|auto|apply Hi].
Qed.

(** C18: a task that calls vTaskDelay with [d] ticks, 0 < d < 2^32, gives up the
    processor to the most urgent ready task, is in a delayed list after any
    number n < d of timer interrupts, and is in a ready list after exactly d
    of them, whatever the tick count was, wrap-around included. *)
Theorem delay_expires_on_time c k d n :
  RK rep c k -> calling k -> 0 < d < u32_modulus -> Z.of_nat n <= d ->
  on_code (run (vTaskDelay d);; interrupts n) (fun _ k' =>
    let t := pxCurrentTCB (k_vars k) in
    running k' /\ runs_highest k' /\
    if decide (Z.of_nat n = d) then exists p, cont_of (k_lists k') (StateItem t) = Some (Ready p)
    else waiting k' t (xTickCount (k_vars k) +u d)) c.
Proof.
  intros HR Hc Hd Hn. apply (wp_transfer (RK rep) _ (run (vTaskDelay d);; interrupts n) _ c k); [|exact HR|].
  - apply sim_bind; [apply psim_run, psim_vTaskDelay; apply _|intros []; apply interrupts_sim].
  - wstep. eapply wp_mono; [apply delay_wp; [done|u32_lia|lia]|]. intros [] k1 (Hrun & Hhi & Htk & Hw).
    rewrite <- Htk in *. eapply wp_mono; [by apply (interrupts_wp n k1 (pxCurrentTCB (k_vars k)) d)|].
    intros [] k2 (Hrun2 & _ & Hhi2 & Hcase). split_and!; [done|auto|]. case_decide; [done|]. apply Hcase.
Qed.

(** C20: xTaskResumeAll, when it ends a suspension, makes up for everything that
    interrupts deferred: all tasks in xPendingReadyList become ready, the tick
    count advances by all the ticks missed, tasks whose time has not come keep
    waiting, and the processor goes to a more urgent task if there is one: the
    function returns pdTRUE after such a switch, and after pdFALSE no task that
    became ready is more urgent than the caller. *)
Theorem resume_all_catches_up c k :
  RK rep c k -> kinv k -> kpend k -> some_ready k -> 0 <= xPendedTicks (k_vars k) ->
  uxSchedulerSuspended (k_vars k) = 1 -> 0 < uxCurrentNumberOfTasks (k_vars k) ->
  on_code xTaskResumeAll (fun r k' =>
    kinv k' /\ kpend k' /\ uxSchedulerSuspended (k_vars k') = 0 /\ xPendedTicks (k_vars k') = 0 /\
    xTickCount (k_vars k') = xTickCount (k_vars k) +u xPendedTicks (k_vars k) /\
    items_of (k_lists k') xPendingReadyList = [] /\
    (forall t, cont_of (k_lists k) (EventItem t) = Some xPendingReadyList ->
      exists p, cont_of (k_lists k') (StateItem t) = Some (Ready p)) /\
    (forall t w, waiting k t w -> cont_of (k_lists k) (EventItem t) <> Some xPendingReadyList ->
      (forall j, 1 <= j <= xPendedTicks (k_vars k) -> xTickCount (k_vars k) +u j <> w) -> waiting k' t w) /\
    ((r = pdTRUE /\ runs_highest k') \/
     (r = pdFALSE /\ pxCurrentTCB (k_vars k') = pxCurrentTCB (k_vars k) /\ (no_higher k -> no_higher k')))) c.
Proof.
  intros HR Hinv Hp Hr Hpd Hs Hn. eapply wp_transfer; [apply sim_resume_all; apply _|exact HR|].
  eapply wp_mono; [by apply resume_all_wp|].
  intros r k' [Hinv' Hp' (Hs' & Hpd' & Hy') _ Htk He Hwk _ Hwt Hsw]. split_and!; try done.
  intros t w Hw Hne Hj. apply (Hwt t w); [|done]. by split.
Qed.

End Theorems.

(** ** Instances *)

Lemma boot_running : running boot_abs.
Proof.
  split; [exact boot_inv|exact boot_pend| |by vm_compute].
  exists 4000, 5. by vm_compute.
Qed.

Lemma boot_calling : calling boot_abs.
Proof.
  split; [exact boot_running|by vm_compute|by vm_compute|exists 5; by vm_compute|exists 2000, 3].
  split; [by vm_compute|by vm_compute].
Qed.

Lemma boot_current : pxCurrentTCB (k_vars boot_abs) = 4000.
Proof. by vm_compute. Qed.
Lemma boot_tick : xTickCount (k_vars boot_abs) = 0.
Proof. by vm_compute. Qed.

Lemma switch_runs_highest_priority_witness :
  on_code vTaskSwitchContext (fun _ k' => runs_highest k') boot_ptr.
Proof.
  eapply wp_mono; [apply (switch_runs_highest_priority boot_ptr boot_abs)|].
  - exact boot_related.
  - exact (ki_core _ boot_inv).
  - exact (rn_ready _ boot_running).
  - vm_compute. reflexivity.
  - intros [] c' (k' & HR & Hrun & _). exists k'. split; [exact HR|exact Hrun].
Defined.

(** The task at 4000 delays itself for two ticks: after the first tick it is
    waiting, after the second it is ready again. *)
Lemma delay_expires_on_time_witness :
  on_code (run (vTaskDelay 2);; interrupts 1) (fun _ k' => waiting k' 4000 2) boot_ptr /\
  on_code (run (vTaskDelay 2);; interrupts 2) (fun _ k' =>
    exists p, cont_of (k_lists k') (StateItem 4000) = Some (Ready p)) boot_ptr.
Proof.
  split.
  - eapply wp_mono; [apply (delay_expires_on_time boot_ptr boot_abs 2 1); [exact boot_related|exact boot_calling| |]|];
      [vm_compute; done|vm_compute; done|].
    rewrite boot_current, boot_tick. intros [] c' (k' & HR & _ & _ & Hw). exists k'. split; [exact HR|exact Hw].
  - eapply wp_mono; [apply (delay_expires_on_time boot_ptr boot_abs 2 2); [exact boot_related|exact boot_calling| |]|];
      [vm_compute; done|vm_compute; done|].
    rewrite boot_current, boot_tick. intros [] c' (k' & HR & _ & _ & Hw). exists k'. split; [exact HR|exact Hw].
Defined.

Lemma timer_interrupt_keeps_highest_witness : on_code timer_interrupt (fun _ k' => runs_highest k') boot_ptr.
Proof.
  eapply wp_mono; [apply (timer_interrupt_keeps_highest boot_ptr boot_abs)|].
  - exact boot_related.
  - exact boot_running.
  - eexists. split; [vm_compute; reflexivity|]. split; [vm_compute; reflexivity|].
    apply max_check_sound. vm_compute. reflexivity.
  - intros [] c' (k' & HR & _ & Hrun & _). exists k'. split; [exact HR|exact Hrun].
Defined.

(** The task at 4000 is about to be woken by the tick: it has delayed itself
    for one tick, so the tasks at 2000 and 3000 are the ready ones. *)
Definition delayed_script {H} `{!ListOps item list_id H} : M (Kernel H) unit := run (vTaskDelay 1).
Definition delayed_abs : KA := ends delayed_script boot_abs.
Definition delayed_ptr : CK := ends delayed_script boot_ptr.

Lemma delayed_related : RK rep delayed_ptr delayed_abs.
Proof. apply ends_related; [apply psim_run, psim_vTaskDelay; apply _|apply boot_related|by vm_compute]. Qed.
Lemma delayed_inv : kinv delayed_abs.
Proof. apply kinv_check_sound. by vm_compute. Qed.

Lemma tick_wakes_exactly_due_witness :
  on_code xTaskIncrementTick (fun r k' => r = pdTRUE /\
    cont_of (k_lists k') (StateItem 4000) = Some (Ready 5)) delayed_ptr.
Proof.
  eapply wp_mono; [apply (tick_wakes_exactly_due delayed_ptr delayed_abs)|].
  - exact delayed_related.
  - exact delayed_inv.
  - vm_compute. reflexivity.
  - assert (Hw : waiting delayed_abs 4000 (xTickCount (k_vars delayed_abs) +u 1)).
    { split; [left; vm_compute; reflexivity|vm_compute; reflexivity]. }
    intros r c' (k' & HR & _ & _ & _ & Hwk & _ & y & Hy & _ & Hr). exists k'. split; [exact HR|].
    assert (Hx : exists x, tcbs (k_vars delayed_abs) !! 4000 = Some x /\ uxPriority x = 5).
    { eexists. split; [vm_compute; reflexivity|reflexivity]. }
    assert (Hyp : uxPriority y <= 5).
    { vm_compute in Hy. injection Hy as <-. vm_compute. discriminate. }
    destruct Hx as (x & Hx & Hp). split.
    + apply Hr. right. right. exists 4000, x. split; [exact Hw|]. split; [exact Hx|]. rewrite Hp. exact Hyp.
    + rewrite <- Hp. exact (proj1 (Hwk 4000 x Hw Hx)).
Defined.

(** The same with the scheduler suspended for the length of the tick. *)
Definition pended_script {H} `{!ListOps item list_id H} : M (Kernel H) unit :=
  vTaskSuspendAll;; timer_interrupt.
Definition pended_abs : KA := ends pended_script delayed_abs.
Definition pended_ptr : CK := ends pended_script delayed_ptr.

Lemma pended_related : RK rep pended_ptr pended_abs.
Proof.
  apply ends_related; [|apply delayed_related|by vm_compute]. unfold pended_script.
  apply sim_bind; [apply sim_suspend_all|intros ?; apply sim_timer_interrupt; apply _].
Qed.
Lemma pended_inv : kinv pended_abs.
Proof. apply kinv_check_sound. by vm_compute. Qed.

Lemma resume_all_catches_up_witness :
  xPendedTicks (k_vars pended_abs) = 1 /\
  on_code xTaskResumeAll (fun r k' => xTickCount (k_vars k') = 1 /\ xPendedTicks (k_vars k') = 0) pended_ptr.
Proof.
  split; [vm_compute; reflexivity|]. eapply wp_mono; [apply (resume_all_catches_up pended_ptr pended_abs)|].
  - exact pended_related.
  - exact pended_inv.
  - apply pend_check_sound. vm_compute. reflexivity.
  - exists 2000, 3. vm_compute. reflexivity.
  - vm_compute. discriminate.
  - vm_compute. reflexivity.
  - vm_compute. reflexivity.
  - intros r c' (k' & HR & _ & _ & _ & Hpd & Htk & _). exists k'. split; [exact HR|].
    split; [|exact Hpd]. rewrite Htk. vm_compute. reflexivity.
Defined.
