(* ===== verification/PortTheorems.v ===== *)
(** * Results on the port

    Every task has a processor of its own ([PortSpec]): the handler never
    faults, a task goes on where it was stopped with the registers it had, a new
    task starts at its entry, and the tick comes at the right times. *)

From S2P Require Import Prelude Simulation Config ListC ListSpec ListRefine Heap4 Kernel Tasks KernelRefine KernelInv SchedProps ResumeProps KernelDemo SchedTheorems Riscv Port PortSpec PortProps PortTraps PortStart PortDemo.

Section Steps.
Variable mhartid : Z.
Variable mtime : nat -> Z.
Variable lowest_mode : Z.
Variables freertos_risc_v_trap_handler_addr ullNextTime pullMachineTimerCompareRegister xISRStackTop : Z.
Variable own : Z -> owner.
Context {H : Type} `{!ListOps item list_id H}.
Notation K := (Kernel H).
Notation cur k := (pxCurrentTCB (k_vars k)).
Variable after_call : K -> cpu -> cpu.
Variable portasmHANDLE_INTERRUPT : M K unit.
Notation layout := (layout mhartid ullNextTime pullMachineTimerCompareRegister own).
Notation virtual := (virtual mhartid freertos_risc_v_trap_handler_addr ullNextTime pullMachineTimerCompareRegister own).
Notation next_time := (next_time ullNextTime).
Notation time_step := (time_step ullNextTime).
Notation kernel_part := (kernel_part portasmHANDLE_INTERRUPT).
Notation take_trap := (take_trap mhartid mtime lowest_mode freertos_risc_v_trap_handler_addr ullNextTime
  pullMachineTimerCompareRegister xISRStackTop after_call portasmHANDLE_INTERRUPT).
Notation real_step := (real_step mhartid mtime lowest_mode freertos_risc_v_trap_handler_addr ullNextTime
  pullMachineTimerCompareRegister xISRStackTop own after_call portasmHANDLE_INTERRUPT).
Notation abs_step := (abs_step portasmHANDLE_INTERRUPT).

(** The hypotheses on the board, and the relation between the two machines. *)
Record board : Prop := {
  bd_layout : layout;
  bd_mode : 0 <= lowest_mode <= 3;
  bd_abi : abi own after_call
}.
Context (Hb : board).

Definition related (s : K * cpu * gset Z) (V : gmap Z vcpu) : Prop := dom V = s.2 /\ virtual (cur s.1.1) s.1.2 V.

Lemma own_work_virtual (k k' : K) c c' V : cur k' = cur k -> own_work own (cur k) c c' -> virtual (cur k) c V ->
  virtual (cur k') c' (<[cur k := vcpu_of c']> V).
Proof.
  intros -> [Wm Ws Wr Wst Wg Wt Wv Wc] [Hsu Htcb Hsus Hrun Hroom Hst]. set (t := cur k) in *.
  assert (Ht : tcb_word own t) by (apply Htcb; eauto). destruct (bd_layout Hb) as [_ Hp _ _]. rewrite !Forall_cons in Hp.
  destruct Hp as ((P1 & _) & (P2 & _) & (P3 & _) & _).
  assert (Wp : forall a, own a = OPort -> mem c' !! a = mem c !! a) by (intros a E; apply Wm; by rewrite E).
  split; [| | | |done|done].
  - destruct Hsu as [Sr Sc [z Sz] Sv]. split; [|by rewrite Wp|exists z; revert Sz; apply next_time_mem; by apply Wp|by rewrite Wv].
    intros a Ha Hal. destruct (decide (own a = OStack t)) as [E|E]; [by apply Ws, Sr|by rewrite Wm; [apply Sr|..]].
  - intros u Hu. destruct (decide (u = t)) as [->|]; [done|]. apply Htcb. by rewrite lookup_insert_ne in Hu.
  - intros u v Hu Hne. rewrite lookup_insert_ne in Hu by done. assert (Htu : tcb_word own u) by eauto.
    eapply suspended_mem; [done| | |by apply Hsus].
    + apply Wm; destruct Htu as [-> _]; done.
    + intros a Ha _. apply Wm; rewrite Ha; [done|congruence].
  - by rewrite lookup_insert_eq.
Qed.

Definition take_trap_run e k c V Q := take_trap_wp mhartid mtime lowest_mode freertos_risc_v_trap_handler_addr ullNextTime
  pullMachineTimerCompareRegister xISRStackTop own after_call portasmHANDLE_INTERRUPT
  (bd_layout Hb) (bd_mode Hb) (bd_abi Hb) e k c V Q.

(** Making a task, whatever else the kernel does. *)
Lemma create_related t p d code params k c T V k' c' : related (k, c, T) V -> t ∉ T -> fresh own t p d -> cur k' = cur k ->
  initial_stack mhartid t p d code params c = Some (tt, c') ->
  let V' := <[t := new_vcpu code params (top_of_stack p d) (mstatus c)]> (<[cur k := vcpu_of c']> V) in
  related (k', c', {[t]} ∪ T) V' /\ (forall z, next_time (mem c) z -> next_time (mem c') z) /\ mtimecmp c' = mtimecmp c /\
  consts c c' /\ forall u, u <> cur k -> is_Some (V !! u) -> V' !! u = V !! u.
Proof.
  intros [Hdom Hv] Hnt [Ht Ho Hp Hd Hu] Ecur Hrun V'. subst V'. cbn [fst snd] in *.
  pose proof (ly_port _ _ _ _ (bd_layout Hb)) as Hpo. rewrite !Forall_cons in Hpo. destruct Hpo as ((P1 & _) & (P2 & _) & (P3 & _) & _).
  assert (Hroom := vi_room _ _ _ _ _ _ _ _ Hv). pose proof Hv as [Hsu Htcb Hsus Hrn _ Hst].
  assert (Hw := initial_stack_wp _ _ _ _ (bd_layout Hb) t p d code params c Ht Ho Hp Hd Hu (su_ram _ _ _ _ _ _ Hsu) Hst).
  destruct Hw as (u2 & c2 & E & Hsu2 & Hm2 & Hs2 & Hc2 & Hcs2 & Hsp2 & Hst2 & Hpc2). rewrite Hrun in E. injection E as <- <-.
  set (top := top_of_stack p d) in *. assert (Hts : t <> cur k) by (intros ->; apply Hnt; rewrite <- Hdom; apply elem_of_dom; eauto).
  assert (Hvt : V !! t = None) by (apply not_elem_of_dom; by rewrite Hdom).
  assert (Hwp : forall a, own a = OPort -> mem c' !! a = mem c !! a).
  { intros a Ha. apply Hm2; [by rewrite Ha|]. intros ->. destruct Ht as [Ht _]. congruence. }
  split; [split|split_and!].
  + cbn [fst snd]. rewrite !dom_insert_L, <- Hdom. assert (cur k ∈ dom V) by (apply elem_of_dom; eauto). set_solver.
  + cbn [fst snd]. rewrite Ecur. split.
    * destruct Hsu as [Sr Sc [z Sz] Sv]. split; [auto|by rewrite Hwp|exists z; revert Sz; apply next_time_mem; by apply Hwp|].
      destruct Hc2 as (_ & _ & ->). done.
    * intros w Hx. destruct (decide (w = t)) as [->|Hwt]; [done|]. rewrite lookup_insert_ne in Hx by done.
      destruct (decide (w = cur k)) as [->|]; [apply Htcb; eauto|]. rewrite lookup_insert_ne in Hx by done. by apply Htcb.
    * intros w v Hx Hne. destruct (decide (w = t)) as [->|Hwt]; [rewrite lookup_insert_eq in Hx; by injection Hx as <-|].
      rewrite !lookup_insert_ne in Hx by done. assert (Htw : tcb_word own w) by eauto.
      eapply suspended_mem; [done| | |by apply Hsus].
      { apply Hm2; [destruct Htw as [-> _]; done|done]. }
      { intros a Ha _. apply Hm2; [congruence|]. intros ->. destruct Ht as [Ht _]. congruence. }
    * rewrite lookup_insert_ne by done. by rewrite lookup_insert_eq.
    * by rewrite Hsp2.
    * by rewrite Hst2.
  + intros z. apply next_time_mem; by apply Hwp.
  + done.
  + done.
  + intros w Hw Hvw. rewrite lookup_insert_ne by (intros ->; rewrite Hvt in Hvw; by destruct Hvw). by rewrite lookup_insert_ne.
Qed.

Lemma real_step_related a s s' V : real_step a s s' -> related s V ->
  exists V', abs_step a (s.1.1, V) (s'.1.1, V') /\ related s' V' /\
    match a with Trap e => V' = alter (leave e) (cur s.1.1) V /\ time_step e s.1.2 s'.1.2 /\ consts s.1.2 s'.1.2 | _ =>
      (forall z, next_time (mem s.1.2) z -> next_time (mem s'.1.2) z) /\ mtimecmp s'.1.2 = mtimecmp s.1.2 /\ consts s.1.2 s'.1.2 /\
      forall t, t <> cur s.1.1 -> is_Some (V !! t) -> V' !! t = V !! t end.
Proof.
  pose proof (ly_port _ _ _ _ (bd_layout Hb)) as Hp. rewrite !Forall_cons in Hp. destruct Hp as ((P1 & _) & (P2 & _) & (P3 & _) & _).
  intros Hst [Hdom Hv]. destruct Hst as [k c k' c' T Ecur Hw|e k c k' c' T _ (u & k1 & Hk & Hin) Htr|t p d code params k c k' c' T Ecur Hnt Hf Hrun];
    cbn [fst snd] in *.
  - exists (<[cur k := vcpu_of c']> V). split; [by constructor|]. pose proof Hw as [Wm _ _ _ Wg Wt Wv Wc]. split; [split|split_and!].
    + cbn [fst snd]. rewrite dom_insert_L, <- Hdom. assert (cur k ∈ dom V) by (apply elem_of_dom; rewrite (vi_running _ _ _ _ _ _ _ _ Hv); eauto). set_solver.
    + by apply (own_work_virtual k k' c c').
    + intros z. apply next_time_mem; apply Wm; rewrite ?P1, ?P2; done.
    + done.
    + done.
    + intros t Ht _. by rewrite lookup_insert_ne.
  - assert (Hwp : wp (kernel_part e) (fun _ k2 => is_Some (V !! cur k2) /\ kernel_part e k = Some (u, k2)) k).
    { exists u, k1. split; [done|]. split; [|done]. apply elem_of_dom. by rewrite Hdom. }
    destruct (take_trap_run e k c V (fun k2 => kernel_part e k = Some (u, k2)) Hv Hwp) as (u2 & s2 & E & E2 & Hv2 & Hc2 & Ht2).
    rewrite Htr in E. injection E as <- <-. cbn [fst snd] in *. destruct u. exists (alter (leave e) (cur k) V).
    split; [by constructor|]. split; [split; [by rewrite dom_alter_L|done]|done].
  - eexists. split; [by eapply ab_create; [|apply not_elem_of_dom; rewrite Hdom]|].
    destruct (create_related t p d code params k c T V k' c') as (HR & Hn & Hc1 & Hcs & Ho); [by split|done..|]. by split_and!.
Qed.

(** What the task [t] finds when it is selected. *)
Lemma stays s s' V t v : rtc (without mhartid mtime lowest_mode freertos_risc_v_trap_handler_addr ullNextTime
    pullMachineTimerCompareRegister xISRStackTop own after_call portasmHANDLE_INTERRUPT t) s s' ->
  related s V -> V !! t = Some v -> exists V', related s' V' /\ V' !! t = Some v /\ consts s.1.2 s'.1.2.
Proof.
  intros Hst. revert V. induction Hst as [s|s1 s2 s3 (Hcur & a & H12) _ IH]; intros V HR Hv; [by exists V|].
  destruct (real_step_related _ _ _ _ H12 HR) as (V2 & _ & HR2 & Ha).
  assert (Hv2 : V2 !! t = Some v /\ consts s1.1.2 s2.1.2).
  { destruct a; [destruct Ha as (_ & _ & Hc & Ho)|destruct Ha as (-> & _ & Hc)|destruct Ha as (_ & _ & Hc & Ho)]; (split; [|done]);
      [rewrite Ho by eauto|rewrite lookup_alter_ne by done|rewrite Ho by eauto]; done. }
  destruct Hv2 as [Hv2 Hc]. destruct (IH _ HR2 Hv2) as (V3 & HR3 & Hv3 & Hc3). exists V3. split_and!; [done..|]. by etrans.
Qed.

Lemma selected s s' V t v e : real_step (Trap e) s s' -> related s V -> V !! t = Some v -> cur s.1.1 <> t -> cur s'.1.1 = t ->
  vcpu_of s'.1.2 = v /\ consts s.1.2 s'.1.2.
Proof.
  intros Hst HR Hv Hne Ht. destruct (real_step_related _ _ _ _ Hst HR) as (V2 & _ & [_ Hv2] & -> & _ & Hc). split; [|done].
  pose proof (vi_running _ _ _ _ _ _ _ _ Hv2) as E. rewrite Ht, lookup_alter_ne, Hv in E by done. by apply (inj Some) in E.
Qed.

Lemma ticks_timer n s s' V z : with_ticks mhartid mtime lowest_mode freertos_risc_v_trap_handler_addr ullNextTime
    pullMachineTimerCompareRegister xISRStackTop own after_call portasmHANDLE_INTERRUPT n s s' ->
  related s V -> timer_at ullNextTime s.1.2 z ->
  timer_at ullNextTime s'.1.2 (z + Z.of_nat n * uxTimerIncrementsForOneTick) /\
  (0 <= z -> z + Z.of_nat n * uxTimerIncrementsForOneTick < 2 ^ 64 ->
   exists new, mtimecmp s'.1.2 = new ++ mtimecmp s.1.2 /\ Forall (fun w => z <= w) new).
Proof.
  intros Hst. revert V z. induction Hst as [s|n a s1 s2 s3 H12 _ IH]; intros V z HR [Hn Hc].
  - split; [by rewrite Z.add_0_r|]. intros _ _. by exists [].
  - destruct (real_step_related _ _ _ _ H12 HR) as (V2 & _ & HR2 & Ha).
    assert (Hkeep : (forall z, next_time (mem s1.1.2) z -> next_time (mem s2.1.2) z) -> mtimecmp s2.1.2 = mtimecmp s1.1.2 ->
      timer_at ullNextTime s3.1.2 (z + Z.of_nat n * uxTimerIncrementsForOneTick) /\
      (0 <= z -> z + Z.of_nat n * uxTimerIncrementsForOneTick < 2 ^ 64 ->
       exists new, mtimecmp s3.1.2 = new ++ mtimecmp s1.1.2 /\ Forall (fun w => z <= w) new)).
    { intros Hn2 E. rewrite <- E. apply (IH V2 z HR2). split; [by apply Hn2|by rewrite E]. }
    destruct (decide (a = Trap Tick)) as [->|Hne].
    + destruct Ha as (_ & Hts & _). destruct (Hts _ Hn) as [Hn2 Ecs]. set (i := uxTimerIncrementsForOneTick) in *.
      assert (Hn2' : next_time (mem s2.1.2) (u64 (z + i + i))) by (unfold u64 in *; by rewrite Zplus_mod_idemp_l in Hn2).
      destruct (IH V2 (z + i) HR2) as [H1 H2]; [split; [done|by rewrite Ecs]|]. replace (z + Z.of_nat (S n) * i) with (z + i + Z.of_nat n * i) by lia.
      split; [done|]. intros Hz Hlt. assert (0 <= i) by done. destruct H2 as (new & Enew & Hnew); [lia|done|].
      exists (new ++ cmp_updates (u64 (z + i)) (hd 0 (mtimecmp s1.1.2))). split; [by rewrite Enew, Ecs, (assoc_L (++))|].
      apply Forall_app. split; [eapply Forall_impl; [exact Hnew|]; intros w Hw; cbv beta in *; lia|].
      rewrite Hc, !u64_small by lia. unfold cmp_updates. assert (Hhalf : forall y, y <= y / 2 ^ 32 * 2 ^ 32 + (2 ^ 32 - 1)).
      { intros y. pose proof (Z.div_mod y (2 ^ 32) ltac:(done)). pose proof (Z.mod_pos_bound y (2 ^ 32) ltac:(done)). lia. }
      repeat apply Forall_cons_2; [lia|specialize (Hhalf (z + i)); lia|apply Hhalf|by apply Forall_nil].
    + destruct a as [|[| |]|]; [|by destruct Hne|..]; unfold PortSpec.time_step in Ha; apply Hkeep; tauto.
Qed.

(** C13: the simulation: whatever the real machine does, the abstract machine can do,
    in which each task has a processor of its own, kept apart from the others'
    and resumed where it was left; the handler runs the kernel's function for
    the trap and nothing else. *)
Theorem tasks_have_own_processors a s s' V : real_step a s s' -> related s V ->
  exists V', abs_step a (s.1.1, V) (s'.1.1, V') /\ related s' V'.
Proof. intros Hst HR. destruct (real_step_related _ _ _ _ Hst HR) as (V' & ? & ? & _). eauto. Qed.

(** The handler runs to its end whenever the kernel's function does, with that
    function's effect on the kernel, and leaves the processor to the task that
    has been selected. *)
Theorem trap_never_faults e k c T V : related (k, c, T) V -> wp (kernel_part e) (fun _ k' => cur k' ∈ T) k ->
  wp (take_trap (cause_of e)) (fun _ s => kernel_part e k = Some (tt, s.1) /\
    exists V', related (s.1, s.2, T) V' /\ V' !! cur s.1 = Some (vcpu_of s.2)) (k, c).
Proof.
  intros [Hdom Hv] ([] & k1 & Hk & Hin). eapply wp_mono; [apply (take_trap_run e k c V (fun k2 => kernel_part e k = Some (tt, k2)) Hv)|].
  - exists tt, k1. split; [done|]. split; [|done]. apply elem_of_dom. by rewrite Hdom.
  - cbv beta. intros _ s (E & Hv2 & _). split; [done|]. exists (alter (leave e) (cur k) V). split; [split; [by rewrite dom_alter_L|done]|apply Hv2].
Qed.

(** C12: a task that is interrupted or yields goes on, whatever the others and the
    kernel do until it is selected again, with all the registers it had, its
    interrupts enabled or not as before, and at the instruction at which it was
    stopped, or after its ecall. *)
Theorem context_switch_roundtrip e e' s0 s1 s2 s3 V : related s0 V -> real_step (Trap e) s0 s1 ->
  rtc (without mhartid mtime lowest_mode freertos_risc_v_trap_handler_addr ullNextTime pullMachineTimerCompareRegister
         xISRStackTop own after_call portasmHANDLE_INTERRUPT (cur s0.1.1)) s1 s2 ->
  cur s2.1.1 <> cur s0.1.1 -> real_step (Trap e') s2 s3 -> cur s3.1.1 = cur s0.1.1 ->
  vcpu_of s3.1.2 = leave e (vcpu_of s0.1.2) /\ consts s0.1.2 s3.1.2.
Proof.
  intros HR H01 H12 Hne H23 E. pose proof HR as [_ Hv]. destruct (real_step_related _ _ _ _ H01 HR) as (V1 & _ & HR1 & -> & _ & Hc1).
  destruct (stays _ _ _ (cur s0.1.1) (leave e (vcpu_of s0.1.2)) H12 HR1) as (V2 & HR2 & Hv2 & Hc2).
  { by rewrite lookup_alter_eq, (vi_running _ _ _ _ _ _ _ _ Hv). }
  destruct (selected _ _ _ _ _ _ H23 HR2 Hv2 Hne E) as [Ev Hc3]. split; [done|]. etrans; [exact Hc1|]. by etrans.
Qed.

(** C15: the compare register is programmed for the exact time of every tick, without
    drift and across carries between its halves; and, short of the end of
    64-bit time, it is at no moment of its updates below the time of a tick
    that has been. *)
Theorem ticks_come_on_time n s s' V z :
  with_ticks mhartid mtime lowest_mode freertos_risc_v_trap_handler_addr ullNextTime
    pullMachineTimerCompareRegister xISRStackTop own after_call portasmHANDLE_INTERRUPT n s s' ->
  related s V -> timer_at ullNextTime s.1.2 z ->
  timer_at ullNextTime s'.1.2 (z + Z.of_nat n * uxTimerIncrementsForOneTick) /\
  (0 <= z -> z + Z.of_nat n * uxTimerIncrementsForOneTick < 2 ^ 64 ->
   exists new, mtimecmp s'.1.2 = new ++ mtimecmp s.1.2 /\ Forall (fun w => z <= w) new).
Proof. apply ticks_timer. Qed.

(** C16: a new task starts, when it is first selected, at its function, with its
    parameter in a0, on its own aligned stack, with interrupts enabled; the
    return address is 0. *)
Theorem new_task_starts_at_its_entry e t pxStack ulStackDepth pxTaskCode pvParameters k c T V k1 c1 s2 s3 :
  related (k, c, T) V -> t ∉ T -> fresh own t pxStack ulStackDepth -> cur k1 = cur k ->
  initial_stack mhartid t pxStack ulStackDepth pxTaskCode pvParameters c = Some (tt, c1) ->
  rtc (without mhartid mtime lowest_mode freertos_risc_v_trap_handler_addr ullNextTime pullMachineTimerCompareRegister
         xISRStackTop own after_call portasmHANDLE_INTERRUPT t) (k1, c1, {[t]} ∪ T) s2 ->
  cur s2.1.1 <> t -> real_step (Trap e) s2 s3 -> cur s3.1.1 = t ->
  let c3 := s3.1.2 in
  pc c3 = pxTaskCode /\ get_x a0 c3 = pvParameters /\ get_x ra c3 = 0 /\ has_bits (mstatus c3) MSTATUS_MIE = true /\
  (16 | get_x sp c3) /\ pxStack <= get_x sp c3 - portCONTEXT_SIZE /\ get_x sp c3 < pxStack + 4 * ulStackDepth.
Proof.
  intros HR Hnt Hf Ecur Hrun H12 Hne H23 E c3.
  destruct (create_related _ _ _ _ _ _ _ _ _ _ _ HR Hnt Hf Ecur Hrun) as (HR1 & _).
  destruct (stays _ _ _ _ _ H12 HR1 (lookup_insert_eq _ _ _)) as (V2 & HR2 & Hv2 & _).
  destruct (selected _ _ _ _ _ _ H23 HR2 Hv2 Hne E) as [Ev _]. fold c3 in Ev.
  pose proof (fr_size _ _ _ _ Hf). assert (0 <= pxStack). { apply (ly_u32 _ _ _ _ (bd_layout Hb)). rewrite (fr_own _ _ _ _ Hf) by lia. done. }
  destruct (top_bounds pxStack ulStackDepth) as (B1 & B2 & B3); [done|apply Hf..|].
  assert (Esp : get_x sp c3 = top_of_stack pxStack ulStackDepth) by exact (f_equal v_sp Ev). rewrite Esp.
  split; [exact (f_equal v_pc Ev)|]. split; [by injection (f_equal (fun v => v_regs v !! 6%nat) Ev)|].
  split; [by injection (f_equal (fun v => v_regs v !! 0%nat) Ev)|]. split; [|unfold portCONTEXT_SIZE, portWORD_SIZE; split_and!; [done|lia..]].
  pose proof (f_equal v_status Ev) as Es. cbn [v_status vcpu_of new_vcpu] in Es. apply (f_equal (fun z => has_bits z MSTATUS_MIE)) in Es.
  rewrite resumed_mie, initial_mpie in Es. rewrite <- Es. symmetry. apply has_status.
Qed.

(** C17: xPortStartScheduler starts the task that is current, at its entry and with
    interrupts enabled, leaves the others ready to be selected, and programs the
    first tick for one period after a time that the clock has shown during the
    call, however its two halves were read. *)
Theorem scheduler_starts_first_task fuel k c V v :
  (forall n, 0 <= mtime n < 2 ^ 64) -> (forall n, mtime n <= mtime (S n)) ->
  (forall n, mtime n / 2 ^ 32 <= mtime (reads c) / 2 ^ 32 + Z.of_nat fuel) -> u32_range freertos_risc_v_trap_handler_addr ->
  created own c V -> V !! cur k = Some v -> has_bits (v_status v) MSTATUS_MIE = true ->
  wp (xPortStartScheduler mhartid mtime freertos_risc_v_trap_handler_addr ullNextTime pullMachineTimerCompareRegister fuel)
    (fun _ s => s.1 = k /\ vcpu_of s.2 = enter_first v /\ related (s.1, s.2, dom V) (<[cur k := enter_first v]> V) /\
       exists n, (reads c <= n)%nat /\ timer_at ullNextTime s.2 (mtime n + uxTimerIncrementsForOneTick)) (k, c).
Proof.
  intros Hclk Hmono Hf Hh Hcr Hv Hie. eapply wp_mono; [by apply (start_wp _ _ _ _ _ _ (bd_layout Hb) fuel k c V v)|].
  cbv beta. intros _ [k' c'] (-> & Hvi & Ht). cbn [fst snd] in *. split; [done|]. split; [|split; [split; [|done]|done]].
  - pose proof (vi_running _ _ _ _ _ _ _ _ Hvi) as E. rewrite lookup_insert_eq in E. by apply (inj Some) in E.
  - cbn [fst snd]. rewrite dom_insert_L. assert (cur k ∈ dom V) by (apply elem_of_dom; eauto). set_solver.
Qed.
End Steps.

(** ** With the scheduler *)

Section Scheduler.
Variable mhartid : Z.
Variable mtime : nat -> Z.
Variable lowest_mode : Z.
Variables freertos_risc_v_trap_handler_addr ullNextTime pullMachineTimerCompareRegister xISRStackTop : Z.
Variable own : Z -> owner.
Variable after_call : CK -> cpu -> cpu.
Variable portasmHANDLE_INTERRUPT : M CK unit.
Notation board := (board mhartid lowest_mode ullNextTime pullMachineTimerCompareRegister own after_call).
Notation related := (related mhartid freertos_risc_v_trap_handler_addr ullNextTime pullMachineTimerCompareRegister own).
Notation take_trap := (take_trap mhartid mtime lowest_mode freertos_risc_v_trap_handler_addr ullNextTime
  pullMachineTimerCompareRegister xISRStackTop after_call portasmHANDLE_INTERRUPT).
Notation kernel_part := (kernel_part portasmHANDLE_INTERRUPT).
Implicit Types (ks : KA).

Lemma switched_running k k' : running k -> switched k k' -> running k' /\ runs_highest k' /\ tcbs (k_vars k') = tcbs (k_vars k).
Proof.
  intros [Hi Hp (u & q & Hu) Hs] Hsw. pose proof (switched_inv _ _ Hi Hsw). pose proof (switched_pend _ _ Hp Hsw).
  assert (Hc := fun i => switched_cont _ _ i Hsw). destruct Hsw as (h' & t & p & -> & _ & _ & Hrun & _).
  split; [|done]. split; try done. exists u, q. simpl. by rewrite Hc.
Qed.

Lemma kernel_part_wp e ks : e <> External -> running ks -> runs_highest ks ->
  wp (PortSpec.kernel_part (fault : M KA unit) e) (fun _ k' => running k' /\ runs_highest k' /\ tcbs (k_vars k') = tcbs (k_vars ks)) ks.
Proof.
  intros He Hr Hh. destruct e; [| |done]; cbn [PortSpec.kernel_part].
  - eapply wp_mono; [by apply timer_interrupt_wp|]. intros u k' [Hi Hh']. split_and!; [apply Hi|auto|apply Hi].
  - eapply wp_mono; [apply switch_wp; [apply Hr|apply Hr|apply Hr]|]. intros u k'. by apply switched_running.
Qed.

Lemma sim_kernel_part e : e <> External -> sim (RK rep) (kernel_part e) (PortSpec.kernel_part (fault : M KA unit) e).
Proof. intros He. destruct e; [apply sim_timer_interrupt; apply _|apply sim_switch; apply _|done]. Qed.

(** C14: the machine as a whole: a tick or a yield leaves the processor to a most
    urgent ready task of the kernel, with exactly the registers that task had
    when it was last interrupted or gave way; the registers of the task that
    stopped, and of all others, are kept. *)
Theorem scheduling_traps_run_most_urgent e kc ks c T V : board -> e <> External -> RK rep kc ks -> running ks -> runs_highest ks ->
  related (kc, c, T) V -> (forall t, is_Some (tcbs (k_vars ks) !! t) -> t ∈ T) ->
  let V' := alter (leave e) (pxCurrentTCB (k_vars ks)) V in
  wp (take_trap (cause_of e)) (fun _ s => exists ks', RK rep s.1 ks' /\ running ks' /\ runs_highest ks' /\
    related (s.1, s.2, T) V' /\ V' !! pxCurrentTCB (k_vars ks') = Some (vcpu_of s.2)) (kc, c).
Proof.
  intros Hb He HR Hr Hh [Hdom Hv] HT V'. assert (Ec : pxCurrentTCB (k_vars kc) = pxCurrentTCB (k_vars ks)) by (by destruct HR as [_ ->]).
  pose proof (wp_transfer _ _ _ _ _ _ (sim_kernel_part e He) HR (kernel_part_wp e ks He Hr Hh)) as Hk.
  eapply wp_mono; [apply (take_trap_run mhartid mtime lowest_mode freertos_risc_v_trap_handler_addr ullNextTime
    pullMachineTimerCompareRegister xISRStackTop own after_call portasmHANDLE_INTERRUPT Hb e kc c V
    (fun k1 => exists ks', RK rep k1 ks' /\ running ks' /\ runs_highest ks') Hv)|].
  - eapply wp_mono; [exact Hk|]. cbv beta. intros u k1 (ks' & HR' & Hr' & Hh' & Et). split; [|by exists ks'].
    apply elem_of_dom. rewrite Hdom. apply HT. rewrite <- Et. destruct HR' as [_ ->]. destruct Hh' as (x & Hx & _). eauto.
  - cbv beta. intros _ s ((ks' & HR' & Hr' & Hh') & Hv' & _). rewrite Ec in Hv'. exists ks'. unfold V'.
    do 3 (split; [done|]). split; [split; [cbn [snd]; by rewrite dom_alter_L|done]|]. destruct HR' as [_ <-]. apply Hv'.
Qed.
End Scheduler.

(** ** Instances *)

Notation demo_ext := (mret tt : M CK unit).
Notation demo_trap := (take_trap 0 demo_clock 0 demo_handler 8000 8008 200384 demo_after_call demo_ext).
Notation demo_step := (real_step 0 demo_clock 0 demo_handler 8000 8008 200384 demo_own demo_after_call demo_ext).
Notation demo_rel := (related 0 demo_handler 8000 8008 demo_own).
Notation demo_T := (dom V5).

Lemma demo_board : board 0 0 8000 8008 demo_own (@demo_after_call (lheap item list_id)).
Proof. split; [exact demo_board_layout|done|exact demo_abi]. Qed.

Lemma ends_wp {S} (m : M S unit) (Q : S -> Prop) s : bool_decide (is_Some (m s)) = true -> Q (ends m s) -> wp m (fun _ => Q) s.
Proof. intros [[[] s'] E]%bool_decide_eq_true HQ. exists tt, s'. unfold ends in HQ. by rewrite E in HQ. Qed.

(** Taking a trap. *)
Lemma demo_trap_step e k c T V : demo_rel (k, c, T) V -> (e <> Yield -> has_bits (mstatus c) MSTATUS_MIE = true) ->
  wp (kernel_part demo_ext e) (fun _ k' => pxCurrentTCB (k_vars k') ∈ T) k ->
  let k' := ends (kernel_part demo_ext e) k in let c' := (ends (demo_trap (cause_of e)) (k, c)).2 in
  demo_step (Trap e) (k, c, T) (k', c', T) /\ demo_rel (k', c', T) (alter (leave e) (pxCurrentTCB (k_vars k)) V).
Proof.
  intros HR Hie Hk k' c'. pose proof HR as [Hdom Hv]. cbn [fst snd] in *.
  assert (Hk2 : wp (kernel_part demo_ext e) (fun _ k2 => is_Some (V !! pxCurrentTCB (k_vars k2)) /\ k2 = k') k).
  { pose proof Hk as ([] & k2 & E & Hin). exists tt, k2. split; [done|]. split; [apply elem_of_dom; by rewrite Hdom|]. unfold k', ends. by rewrite E. }
  pose proof (take_trap_run 0 demo_clock 0 demo_handler 8000 8008 200384 demo_own _ demo_ext demo_board e k c V _ Hv Hk2) as Hw.
  pose proof Hw as ([] & [k2 c2] & E & Ek & Hv2 & _ & _). cbn [fst snd] in *. rewrite Ek in E, Hv2.
  assert (Ec : c' = c2) by (unfold c', ends; by rewrite E). rewrite Ec. split; [by apply rs_trap|]. split; [cbn [snd]; by rewrite dom_alter_L|exact Hv2].
Qed.

Lemma demo_related (k : CK) : pxCurrentTCB (k_vars k) = 4000 -> demo_rel (k, cpu5, demo_T) V5.
Proof. intros E. split; [done|]. cbn [fst snd]. rewrite E. apply demo_started. Qed.
Lemma demo_status (k : CK) c V : demo_rel (k, c, demo_T) V -> (exists v, V !! pxCurrentTCB (k_vars k) = Some v /\ has_bits (v_status v) MSTATUS_MIE = true) ->
  has_bits (mstatus c) MSTATUS_MIE = true.
Proof.
  intros [_ Hv] (v & E & Hie). pose proof (vi_running _ _ _ _ _ _ _ _ Hv) as E2. cbn [fst snd] in E2. rewrite E in E2. apply (inj Some) in E2.
  rewrite <- has_status. rewrite E2 in Hie. exact Hie.
Qed.

(** The task at 4000 puts itself to sleep for a tick, and wakes up. *)
Definition kA : CK := ends (prvAddCurrentTaskToDelayedList 1 pdFALSE) boot_ptr.
Definition kB : CK := ends (kernel_part demo_ext Yield) kA.
Definition kC : CK := ends (kernel_part demo_ext Tick) kB.
Definition cB : cpu := (ends (demo_trap (cause_of Yield)) (kA, cpu5)).2.
Definition cC : cpu := (ends (demo_trap (cause_of Tick)) (kB, cB)).2.

Lemma demo_yields : demo_step (Trap Yield) (kA, cpu5, demo_T) (kB, cB, demo_T) /\ demo_rel (kB, cB, demo_T) (alter (leave Yield) 4000 V5).
Proof.
  assert (EA : pxCurrentTCB (k_vars kA) = 4000) by (by vm_compute). rewrite <- EA.
  apply demo_trap_step; [by apply demo_related|done|]. apply ends_wp; [by vm_compute|]. apply (bool_decide_unpack _). by vm_compute.
Qed.

Lemma demo_wakes : demo_step (Trap Tick) (kB, cB, demo_T) (kC, cC, demo_T) /\ pxCurrentTCB (k_vars kB) <> 4000 /\ pxCurrentTCB (k_vars kC) = 4000.
Proof.
  destruct demo_yields as [_ HR]. split; [|split; by vm_compute]. apply (demo_trap_step Tick kB cB demo_T (alter (leave Yield) 4000 V5)); [exact HR| |].
  - intros _. apply (demo_status kB _ _ HR). eexists. split; [vm_compute; reflexivity|by vm_compute].
  - apply ends_wp; [by vm_compute|]. apply (bool_decide_unpack _). by vm_compute.
Qed.

(** The run, with its states abstract. *)
Lemma demo_run : exists k0 c0 k1 c1 k2 c2 n, demo_rel (k0, c0, demo_T) V5 /\ timer_at 8000 c0 (demo_clock n + uxTimerIncrementsForOneTick) /\
  wp (kernel_part demo_ext Yield) (fun _ k' => pxCurrentTCB (k_vars k') ∈ demo_T) k0 /\
  demo_step (Trap Yield) (k0, c0, demo_T) (k1, c1, demo_T) /\ demo_rel (k1, c1, demo_T) (alter (leave Yield) 4000 V5) /\
  demo_step (Trap Tick) (k1, c1, demo_T) (k2, c2, demo_T) /\
  pxCurrentTCB (k_vars k0) = 4000 /\ pxCurrentTCB (k_vars k1) <> 4000 /\ pxCurrentTCB (k_vars k2) = 4000.
Proof.
  destruct demo_started as [_ [n Hn]]. exists kA, cpu5, kB, cB, kC, cC, n. destruct demo_yields as [Y1 Y2]. destruct demo_wakes as (W1 & W2 & W3).
  split; [apply demo_related; by vm_compute|]. split; [exact Hn|]. split; [|split; [exact Y1|]; split; [exact Y2|]; split; [exact W1|]; split; [by vm_compute|split; [exact W2|exact W3]]].
  apply ends_wp; [by vm_compute|]. apply (bool_decide_unpack _). by vm_compute.
Qed.

Lemma context_switch_roundtrip_witness : exists (k0 : CK) c0 (k2 : CK) c2, demo_rel (k0, c0, demo_T) V5 /\
  pxCurrentTCB (k_vars k2) = 4000 /\ vcpu_of c2 = leave Yield (vcpu_of c0).
Proof.
  destruct demo_run as (k0 & c0 & k1 & c1 & k2 & c2 & n & HR & _ & _ & H01 & _ & H12 & E0 & E1 & E2).
  exists k0, c0, k2, c2. split; [exact HR|]. split; [exact E2|].
  refine (proj1 (context_switch_roundtrip 0 demo_clock 0 demo_handler 8000 8008 200384 demo_own demo_after_call demo_ext demo_board
    Yield Tick (k0, c0, demo_T) (k1, c1, demo_T) (k1, c1, demo_T) (k2, c2, demo_T) V5 HR H01 (rtc_refl _ _) _ H12 _)); cbn [fst snd]; rewrite E0; [exact E1|exact E2].
Defined.

Lemma tasks_have_own_processors_witness : exists k1 c1 k2 c2 V', demo_step (Trap Tick) (k1, c1, demo_T) (k2, c2, demo_T) /\
  abs_step demo_ext (Trap Tick) (k1, alter (leave Yield) 4000 V5) (k2, V') /\ demo_rel (k2, c2, demo_T) V'.
Proof.
  destruct demo_run as (k0 & c0 & k1 & c1 & k2 & c2 & n & _ & _ & _ & _ & HR & H12 & _). exists k1, c1, k2, c2.
  destruct (tasks_have_own_processors 0 demo_clock 0 demo_handler 8000 8008 200384 demo_own demo_after_call demo_ext demo_board
    (Trap Tick) (k1, c1, demo_T) (k2, c2, demo_T) (alter (leave Yield) 4000 V5) H12 HR) as (V' & Ha & HR').
  exists V'. split; [exact H12|]. split; [exact Ha|exact HR'].
Defined.

Lemma trap_never_faults_witness : exists (k0 : CK) c0, demo_rel (k0, c0, demo_T) V5 /\
  wp (demo_trap (cause_of Yield)) (fun _ s => kernel_part demo_ext Yield k0 = Some (tt, s.1)) (k0, c0).
Proof.
  destruct demo_run as (k0 & c0 & k1 & c1 & k2 & c2 & n & HR & _ & Hk & _). exists k0, c0. split; [exact HR|].
  eapply wp_mono; [exact (trap_never_faults 0 demo_clock 0 demo_handler 8000 8008 200384 demo_own demo_after_call demo_ext demo_board Yield k0 c0 demo_T V5 HR Hk)|].
  intros u s [E _]. exact E.
Defined.

(** The tick after the start programs the compare register one period on. *)
Lemma ticks_come_on_time_witness : exists k1 c1 k2 c2 z, demo_step (Trap Tick) (k1, c1, demo_T) (k2, c2, demo_T) /\
  timer_at 8000 c1 z /\ timer_at 8000 c2 (z + 1000).
Proof.
  destruct demo_run as (k0 & c0 & k1 & c1 & k2 & c2 & n & HR & Hn & _ & H01 & HR1 & H12 & _).
  exists k1, c1, k2, c2, (demo_clock n + uxTimerIncrementsForOneTick).
  destruct (ticks_come_on_time 0 demo_clock 0 demo_handler 8000 8008 200384 demo_own demo_after_call demo_ext demo_board
    0 (k0, c0, demo_T) (k1, c1, demo_T) V5 (demo_clock n + uxTimerIncrementsForOneTick)
    (wt_step _ _ _ _ _ _ _ _ _ _ 0 (Trap Yield) _ _ _ H01 (wt_none _ _ _ _ _ _ _ _ _ _ _)) HR Hn) as [T1 _].
  rewrite Z.add_0_r in T1.
  destruct (ticks_come_on_time 0 demo_clock 0 demo_handler 8000 8008 200384 demo_own demo_after_call demo_ext demo_board
    1 (k1, c1, demo_T) (k2, c2, demo_T) _ (demo_clock n + uxTimerIncrementsForOneTick)
    (wt_step _ _ _ _ _ _ _ _ _ _ 0 (Trap Tick) _ _ _ H12 (wt_none _ _ _ _ _ _ _ _ _ _ _)) HR1 T1) as [T2 _].
  split; [exact H12|]. split; [exact T1|exact T2].
Defined.

(** The running task makes a task at 5000, of the highest priority, and yields
    to it. *)
Definition kD : CK := ends (create 5000 6) boot_ptr.
Definition kE : CK := ends (kernel_part demo_ext Yield) kD.
Definition cD : cpu := ends (demo_make 5000) cpu5.
Definition cE : cpu := (ends (demo_trap (cause_of Yield)) (kD, cD)).2.
Notation demo_T' := ({[5000]} ∪ demo_T).

Lemma demo_fresh5 : fresh demo_own 5000 (demo_stack 5000) 40.
Proof. apply demo_fresh. unfold demo_tasks. set_solver. Qed.

Lemma demo_makes : demo_make 5000 cpu5 = Some (tt, cD).
Proof.
  destruct demo_started as [[Hsu _ _ _ _ Hst] _]. apply (wp_runs (demo_make 5000) (fun _ => True)).
  destruct demo_fresh5 as [Ht Ho Hp Hd Hu].
  eapply wp_mono; [exact (initial_stack_wp _ _ _ _ demo_board_layout 5000 (demo_stack 5000) 40 (5000 * 10) 7 cpu5 Ht Ho Hp Hd Hu (su_ram _ _ _ _ _ _ Hsu) Hst)|]. done.
Qed.

Lemma demo_created_run : exists (k : CK) c (k1 : CK) c1 (k2 : CK) c2, demo_rel (k, c, demo_T) V5 /\ pxCurrentTCB (k_vars k1) = pxCurrentTCB (k_vars k) /\
  demo_make 5000 c = Some (tt, c1) /\ demo_step (Trap Yield) (k1, c1, demo_T') (k2, c2, demo_T') /\
  pxCurrentTCB (k_vars k1) <> 5000 /\ pxCurrentTCB (k_vars k2) = 5000.
Proof.
  exists boot_ptr, cpu5, kD, cD, kE, cE.
  assert (HR : demo_rel (boot_ptr, cpu5, demo_T) V5) by (apply demo_related; by vm_compute).
  assert (Ecur : pxCurrentTCB (k_vars kD) = pxCurrentTCB (k_vars boot_ptr)) by (by vm_compute).
  split; [exact HR|]. split; [exact Ecur|]. split; [exact demo_makes|]. split; [|split; [by vm_compute|by vm_compute]].
  destruct (create_related _ _ _ _ _ _ _ demo_board 5000 (demo_stack 5000) 40 (5000 * 10) 7 boot_ptr cpu5 demo_T V5 kD cD HR) as [HR1 _].
  - apply (bool_decide_unpack _). by vm_compute.
  - exact demo_fresh5.
  - exact Ecur.
  - exact demo_makes.
  - refine (proj1 (demo_trap_step Yield kD cD _ _ HR1 _ _)); [done|].
    apply ends_wp; [by vm_compute|]. apply elem_of_union_l, elem_of_singleton. by vm_compute.
Qed.

Lemma new_task_starts_at_its_entry_witness : exists (k2 : CK) c2, pxCurrentTCB (k_vars k2) = 5000 /\ pc c2 = 50000 /\ get_x a0 c2 = 7.
Proof.
  destruct demo_created_run as (k & c & k1 & c1 & k2 & c2 & HR & Ecur & Hm & Hst & Hne & E). exists k2, c2. split; [exact E|].
  destruct (new_task_starts_at_its_entry 0 demo_clock 0 demo_handler 8000 8008 200384 demo_own demo_after_call demo_ext demo_board
    Yield 5000 (demo_stack 5000) 40 (5000 * 10) 7 k c demo_T V5 k1 c1 (k1, c1, demo_T') (k2, c2, demo_T') HR) as (Hpc & Ha & _).
  - apply (bool_decide_unpack _). vm_compute. exact I.
  - exact demo_fresh5.
  - exact Ecur.
  - exact Hm.
  - apply rtc_refl.
  - exact Hne.
  - exact Hst.
  - exact E.
  - split; [exact Hpc|exact Ha].
Defined.

Lemma scheduler_starts_first_task_witness :
  wp demo_start (fun _ s => pc s.2 = 40000 /\ has_bits (mstatus s.2) MSTATUS_MIE = true) (boot_ptr, cpu4).
Proof.
  destruct demo_clock_ok as (C1 & C2 & C3).
  eapply wp_mono; [apply (scheduler_starts_first_task 0 demo_clock 0 demo_handler 8000 8008 demo_own demo_after_call
    demo_board 0 boot_ptr cpu4 V4 (demo_vcpu 4000) C1 C2 C3)|].
  - split; vm_compute; [discriminate|reflexivity].
  - exact demo_created.
  - vm_compute. reflexivity.
  - vm_compute. reflexivity.
  - intros u s (_ & Ev & _). split; [exact (f_equal v_pc Ev)|]. rewrite <- has_status.
    etransitivity; [exact (f_equal (fun v => has_bits (v_status v) MSTATUS_MIE) Ev)|vm_compute; reflexivity].
Defined.

Lemma demo_highest : runs_highest boot_abs.
Proof. eexists. split; [by vm_compute|]. split; [by vm_compute|]. apply max_check_sound. by vm_compute. Qed.
Lemma demo_all t : is_Some (tcbs (k_vars boot_abs) !! t) -> t ∈ demo_T.
Proof.
  intros Ht%elem_of_dom. assert (Hs : dom (tcbs (k_vars boot_abs)) ⊆ demo_T) by (apply (bool_decide_unpack _); by vm_compute). by apply Hs.
Qed.

Lemma scheduling_traps_run_most_urgent_witness :
  wp (demo_trap (cause_of Tick)) (fun _ s => exists ks', RK rep s.1 ks' /\ runs_highest ks' /\
    alter (leave Tick) (pxCurrentTCB (k_vars boot_abs)) V5 !! pxCurrentTCB (k_vars ks') = Some (vcpu_of s.2)) (boot_ptr, cpu5).
Proof.
  eapply wp_mono; [apply (scheduling_traps_run_most_urgent 0 demo_clock 0 demo_handler 8000 8008 200384 demo_own demo_after_call
    demo_ext Tick boot_ptr boot_abs cpu5 demo_T V5 demo_board)|].
  - discriminate.
  - exact boot_related.
  - exact boot_running.
  - exact demo_highest.
  - exact (demo_related boot_ptr boot_ptr_current).
  - exact demo_all.
  - intros u s (ks' & H1 & _ & H3 & _ & H5). exists ks'. split; [exact H1|]. split; [exact H3|exact H5].
Defined.
