(* ===== verification/SuspendProps.v ===== *)
(** * Bodies that run with the scheduler suspended

    Many functions do their work between vTaskSuspendAll and xTaskResumeAll.
    When no interrupt comes in between, resuming only makes up for a yield
    that was asked for: [settled] says that nothing but the running task has
    changed, and a most urgent ready task runs again. *)

From S2P Require Import Prelude Simulation Config ListC ListSpec ListRefine ListObs ListProps Heap4 Kernel Tasks TaskApi TaskEvents Queue KernelRefine KernelInv KernelSteps SchedProps ResumeProps KernelDemo SchedTheorems.

Section Suspended.
Implicit Types (h : AH) (v : Vars) (k : KA).

(** A yield is owed, or a most urgent task runs. *)
Definition yield_due k : Prop := xYieldPending (k_vars k) <> pdFALSE \/ runs_highest k.

(** The scheduler is running and has nothing to catch up with. *)
Record quiet k : Prop := {
  qt_running : running k;
  qt_pended : xPendedTicks (k_vars k) = 0;
  qt_pending : items_of (k_lists k) xPendingReadyList = [];
  qt_tasks : 0 < uxCurrentNumberOfTasks (k_vars k)
}.

(** The scheduler is suspended, and has nothing to catch up with but a yield. *)
Record at_rest k : Prop := {
  ar_inv : kinv k;
  ar_pend : kpend k;
  ar_ready : some_ready k;
  ar_suspended : uxSchedulerSuspended (k_vars k) = 1;
  ar_pended : xPendedTicks (k_vars k) = 0;
  ar_pending : items_of (k_lists k) xPendingReadyList = [];
  ar_tasks : 0 < uxCurrentNumberOfTasks (k_vars k)
}.

(** Nothing but the running task, and whether the scheduler is suspended. *)
Record settled k k' : Prop := {
  st_cont i : cont_of (k_lists k') i = cont_of (k_lists k) i;
  st_val i : val_of (k_lists k') i = val_of (k_lists k) i;
  st_items l : items_of (k_lists k') l = items_of (k_lists k) l;
  st_lists l : is_Some (a_lists (k_lists k') !! l) <-> is_Some (a_lists (k_lists k) !! l);
  st_vars : exists cur y s, k_vars k' = set_pxCurrentTCB cur (set_xYieldPending y (set_uxSchedulerSuspended s (k_vars k)))
}.

(** The state in which the body begins. *)
Definition suspended k : KA := mkKernel (k_lists k) (set_uxSchedulerSuspended 1 (k_vars k)).

Lemma quiet_suspended k : quiet k -> at_rest (suspended k).
Proof. intros [[Hinv Hp Hr Hs] Hpd He Hn]. split; try done. destruct k. eapply kinv_vars; [..|exact Hinv]; done. Qed.

Lemma suspend_wp (Q : unit -> KA -> Prop) k : uxSchedulerSuspended (k_vars k) = 0 ->
  Q tt (suspended k) -> wp vTaskSuspendAll Q k.
Proof. intros Hs HQ. unfold vTaskSuspendAll. wsteps. by rewrite Hs. Qed.

(** The state a switch leaves behind. *)
Lemma switched_settled k k' : at_rest k ->
  switched (mkKernel (k_lists k) (set_uxSchedulerSuspended 0 (k_vars k))) k' ->
  settled k k' /\ quiet k' /\ runs_highest k'.
Proof.
  intros [Hinv Hp Hr Hs Hpd He Hn] Hsw. destruct k as [h1 v1]. cbn [k_lists k_vars] in *. set (k0 := mkKernel _ _) in Hsw.
  assert (Hinv0 : kinv k0) by (eapply kinv_vars; [..|exact Hinv]; done).
  pose proof (switched_inv _ _ Hinv0 Hsw) as Hinv2. pose proof (switched_pend k0 k' Hp Hsw) as Hp2.
  pose proof (fun i => switched_cont _ _ i Hsw) as Hc2. pose proof (fun l => switched_items _ _ l Hsw) as Hi2.
  destruct Hsw as (h2 & cur & p & -> & (_ & Ei & Hls) & _ & Hhi & _). split; [|split; [|done]].
  - split; [exact Hc2| |exact Hi2|exact Hls|by eexists _, _, _]. intros i. unfold val_of. simpl. by rewrite Ei.
  - split; [|exact Hpd|by rewrite Hi2|exact Hn]. split; [done|done| |done].
    destruct Hr as (t & q & Ht). exists t, q. by rewrite Hc2.
Qed.

Lemma resume_settles k : at_rest k -> yield_due k ->
  wp xTaskResumeAll (fun _ k' => settled k k' /\ quiet k' /\ runs_highest k') k.
Proof.
  intros Hr Hd. pose proof Hr as [Hinv Hp Hsome Hs Hpd He Hn]. eapply wp_mono; [by apply resume_quiet_wp|].
  intros r k' [(Hy & -> & ->)|(Hy & -> & Hsw)]; [|by apply switched_settled]. destruct Hd as [Hd|Hd]; [done|].
  destruct k as [h v]. cbn [k_lists k_vars] in *. split; [|split; [|exact Hd]].
  - split; try done. simpl. exists (pxCurrentTCB v), (xYieldPending v), 0. by destruct v.
  - split; try done. split; try done. eapply kinv_vars; [..|exact Hinv]; done.
Qed.

(** The running task has stopped being ready: it resumes the scheduler and
    gives way, and one switch takes place. *)
Lemma resume_and_yield_wp k : at_rest k ->
  wp (r ← xTaskResumeAll; if r =? pdFALSE then portYIELD else mret tt)
    (fun _ k' => settled k k' /\ quiet k' /\ runs_highest k') k.
Proof.
  intros Hr. pose proof Hr as [Hinv Hp Hsome Hs Hpd He Hn]. wstep. eapply wp_mono; [by apply resume_quiet_wp|].
  intros r k' [(Hy & -> & ->)|(Hy & -> & Hsw)]; simpl.
  - unfold portYIELD. eapply wp_mono; [apply switch_wp|].
    + destruct k. eapply kcore_vars; [..|apply Hinv]; done.
    + exact Hsome.
    + done.
    + intros [] k2 Hsw. by apply switched_settled.
  - wstep. by apply switched_settled.
Qed.

(** A body that leaves no more behind than a yield to make. *)
Lemma suspended_wp {A B} (m : M KA A) (f : A -> Z -> M KA B) (Q : B -> KA -> Prop) (I : A -> KA -> Prop) k : quiet k ->
  (forall a k' k'', I a k' -> settled k' k'' -> I a k'') ->
  wp m (fun a k' => I a k' /\ at_rest k' /\ yield_due k') (suspended k) ->
  (forall a r k', I a k' -> quiet k' -> runs_highest k' -> wp (f a r) Q k') ->
  wp (vTaskSuspendAll;; a ← m; r ← xTaskResumeAll; f a r) Q k.
Proof.
  intros Hq HI Hm HQ. wstep. apply suspend_wp; [apply Hq|]. wstep. eapply wp_mono; [exact Hm|].
  intros a k1 (HI1 & Hr & Hd). wstep. eapply wp_mono; [by apply resume_settles|].
  intros r k2 (Hst & Hq2 & Hhi2). apply HQ; [by eapply HI|done|done].
Qed.

(** ** Yielding *)

Lemma resumed_suspended k : uxSchedulerSuspended (k_vars k) = 0 ->
  mkKernel (k_lists (suspended k)) (set_uxSchedulerSuspended 0 (k_vars (suspended k))) = k.
Proof. destruct k as [h v]. simpl. intros Hs. f_equal. destruct v. simpl in *. by subst. Qed.

Lemma suspended_settled k k' : settled (suspended k) k' -> settled k k'.
Proof. intros [? ? ? ? (cur & y & s & Ev)]. split; try done. exists cur, y, s. rewrite Ev. by destruct k as [h []]. Qed.

Lemma yield_wp k : quiet k -> wp portYIELD (fun _ k' => settled k k' /\ quiet k' /\ runs_highest k') k.
Proof.
  intros Hq. pose proof (qt_running _ Hq) as [Hinv _ Hr Hs]. eapply wp_mono; [by apply switch_wp; [apply Hinv|..]|].
  intros [] k' Hsw. rewrite <- (resumed_suspended k Hs) in Hsw.
  destruct (switched_settled _ _ (quiet_suspended _ Hq) Hsw) as (Hst & ? & ?). split; [by apply suspended_settled|done].
Qed.

(** ** The running task blocks *)

(** Blocking leaves the others where they were: the running task waits, so the
    event list it may be in is no longer in the way. *)
Lemma blocked_pend k n b k' : (forall t l, t <> pxCurrentTCB (k_vars k) -> cont_of (k_lists k) (EventItem t) = Some l ->
    exists l', cont_of (k_lists k) (StateItem t) = Some l' /\ forall p, l' <> Ready p) ->
  kinv k -> blocked k n b k' -> kpend k'.
Proof.
  intros Hp Hinv (a' & x & nx & z & -> & Hx & _ & Hpk) t l. simpl. rewrite !(pk_cont _ _ _ _ _ Hpk).
  rewrite (decide_False (P := EventItem t = _)) by done. intros Ht. case_decide as E.
  - eexists. split; [done|]. unfold wait_list. intros p. destruct (kc_delayed _ _ (ki_core _ Hinv)) as [[-> ->]|[-> ->]];
      destruct b; [done| |done|]; by destruct (_ <? _).
  - apply (Hp t l); [congruence|done].
Qed.

Lemma no_item_empty k l : kinv k -> (forall i, cont_of (k_lists k) i <> Some l) -> items_of (k_lists k) l = [].
Proof. intros Hinv Hn. apply elem_of_nil_inv. intros i Hi%(awf_mem _ (kc_wf _ _ (ki_core _ Hinv))). by apply (Hn i). Qed.

(** The task that is to run instead. *)
Definition other_ready k : Prop :=
  exists t p, t <> pxCurrentTCB (k_vars k) /\ cont_of (k_lists k) (StateItem t) = Some (Ready p).

Lemma blocked_rest k n b k' : at_rest k -> other_ready k -> blocked k n b k' -> at_rest k'.
Proof.
  intros [Hinv Hp Hr Hs Hpd He Hn] (t & p & Hne & Ht) Hb.
  assert (Hp' : kpend k') by (eapply blocked_pend; [|exact Hinv|exact Hb]; intros u l _; by apply Hp).
  destruct Hb as (a' & x & nx & z & -> & Hx & Hinv' & Hpk). split; try done.
  - exists t, p. simpl. by rewrite (pk_cont _ _ _ _ _ Hpk), decide_False by congruence.
  - apply no_item_empty; [done|]. intros i. simpl. rewrite (pk_cont _ _ _ _ _ Hpk). case_decide.
    + intros [= E]. revert E. unfold wait_list. destruct (kc_delayed _ _ (ki_core _ Hinv)) as [[-> ->]|[-> ->]];
      destruct b; [done| |done|]; by destruct (_ <? _).
    + intros E%(awf_mem _ (kc_wf _ _ (ki_core _ Hinv))). rewrite He in E. set_solver.
Qed.

(** vTaskDelay, called with nothing to catch up with. *)
Lemma delay_quiet_wp k x p n : quiet k -> other_ready k -> tcbs (k_vars k) !! pxCurrentTCB (k_vars k) = Some x ->
  cont_of (k_lists k) (StateItem (pxCurrentTCB (k_vars k))) = Some (Ready p) -> u32_range n -> n <> 0 ->
  wp (run (vTaskDelay n)) (fun _ k' => quiet k' /\ runs_highest k' /\
    exists k1, blocked (suspended k) n false k1 /\ settled k1 k') k.
Proof.
  intros Hq Ho Hx Hc Hn Hn0. unfold vTaskDelay. rewrite (proj2 (Z.ltb_lt _ _)) by u32_lia. cbn.
  pose proof (quiet_suspended _ Hq) as Hr0. wstep. apply suspend_wp; [apply Hq|]. wstep.
  eapply wp_mono; [exact (add_delayed_wp (suspended k) x p n pdFALSE (ar_inv _ Hr0) Hx Hc Hn Hn0)|].
  intros [] k1 Hb. replace (blocks_forever n pdFALSE) with false in Hb by (unfold blocks_forever; by rewrite andb_false_r).
  pose proof (blocked_rest _ _ _ _ Hr0 Ho Hb) as Hr1. wstep.
  eapply wp_mono; [exact (wp_bind_inv _ _ _ _ (resume_and_yield_wp _ Hr1))|].
  cbv beta. intros r k2 Hw. destruct (r =? pdFALSE); cbn.
  - wstep. eapply wp_mono; [exact Hw|]. intros [] k3 (Hst & Hq3 & Hh3). wstep. split_and!; eauto.
  - apply wp_ret. destruct Hw as ([] & k3 & [= <-] & Hst & Hq3 & Hh3). split_and!; eauto.
Qed.

End Suspended.
