(* ===== verification/Interrupts.v ===== *)
(** * Interrupts between the blocks of a program

    A function of the kernel that is a sequence of blocks can be interrupted
    between them.  [interleave] runs it so; while the scheduler is suspended,
    timer interrupts only count. *)

From S2P Require Import Prelude Simulation Config ListC ListSpec Kernel Tasks KernelInv KernelSteps SchedProps ResumeProps SchedTheorems SuspendProps.

Section Interleaving.
Context {S : Type}.
Implicit Types (isr : M S unit) (isrs : list (M S unit)).

(** Before the blocks of [p], those of [isrs] run, one before each. *)
Fixpoint interleave {A} isrs (p : prog S A) : M S A :=
  match p with
  | Done a => mret a
  | Atomic m k => hd (mret tt) isrs;; x ← m; interleave (tl isrs) (k x)
  end.

(** One interrupt, before the block number [i]. *)
Definition at_block (i : nat) isr : list (M S unit) := replicate i (mret tt) ++ [isr].

Lemma interleave_nil {A} (p : prog S A) (Q : A -> S -> Prop) s : wp (run p) Q s -> wp (interleave [] p) Q s.
Proof.
  intros (a & s' & E & HQ). exists a, s'. split; [|done]. revert s E. induction p as [b|X m k IH]; intros s E; [done|].
  apply bind_inv in E as (x & s1 & Em & E). simpl. unfold mbind, M_bind. cbn. rewrite Em. by apply IH.
Qed.

Lemma interleave_step {A B} isr isrs (m : M S A) (f : A -> prog S B) (Q : B -> S -> Prop) s :
  wp isr (fun _ s1 => wp m (fun a s2 => wp (interleave isrs (f a)) Q s2) s1) s ->
  wp (interleave (isr :: isrs) (atomic m ≫= f)) Q s.
Proof.
  intros H. apply wp_bind. cbn [hd tl]. eapply wp_mono; [exact H|]. cbv beta. intros _ s1 H1. by apply wp_bind.
Qed.

Lemma interleave_skip {A B} isrs (m : M S A) (f : A -> prog S B) (Q : B -> S -> Prop) s :
  wp m (fun a s2 => wp (interleave isrs (f a)) Q s2) s -> wp (interleave (mret tt :: isrs) (atomic m ≫= f)) Q s.
Proof. intros H. by apply interleave_step, wp_ret. Qed.

(** The last interrupt; the rest runs without. *)
Lemma interleave_last {A B} isr (m : M S A) (f : A -> prog S B) (Q : B -> S -> Prop) s :
  wp isr (fun _ s1 => wp (run (atomic m ≫= f)) Q s1) s -> wp (interleave [isr] (atomic m ≫= f)) Q s.
Proof.
  intros H. apply interleave_step. eapply wp_mono; [exact H|]. cbv beta. intros _ s1 H1.
  eapply wp_mono; [exact (wp_bind_inv _ _ _ _ H1)|]. cbv beta. intros a s2. apply interleave_nil.
Qed.
End Interleaving.

Lemma sim_interleave {S1 S2 A} (R : S1 -> S2 -> Prop) isrs1 isrs2 (p1 : prog S1 A) (p2 : prog S2 A) :
  Forall2 (sim R) isrs1 isrs2 -> psim R p1 p2 -> sim R (interleave isrs1 p1) (interleave isrs2 p2).
Proof.
  revert isrs1 isrs2 p1. induction p2 as [a|X m2 k2 IH]; intros isrs1 isrs2 p1 Hi Hp; simpl in Hp; [subst p1; apply sim_ret|].
  destruct Hp as (m1 & k1 & -> & Hm & Hk). simpl. apply sim_bind; [|intros _; apply sim_bind; [done|intros x; apply IH; [|done]]].
  - destruct Hi; [apply sim_ret|done].
  - by destruct Hi.
Qed.

Lemma sim_at_block {S1 S2} (R : S1 -> S2 -> Prop) i (m1 : M S1 unit) (m2 : M S2 unit) :
  sim R m1 m2 -> Forall2 (sim R) (at_block i m1) (at_block i m2).
Proof. intros Hm. unfold at_block. induction i as [|i IH]; simpl; constructor; [done|by constructor|apply sim_ret|done]. Qed.

(** ** Ticks while the scheduler is suspended *)

Section Pended.
Implicit Types (k : KA).

Definition pended (n : nat) k k' : Prop := exists hk, k' = mkKernel (k_lists k)
  (set_tickHookCalls hk (set_xPendedTicks (xPendedTicks (k_vars k) + Z.of_nat n) (k_vars k))).

Lemma pending_interrupts n : forall k, uxSchedulerSuspended (k_vars k) <> 0 -> 0 <= xPendedTicks (k_vars k) ->
  xPendedTicks (k_vars k) + Z.of_nat n < u32_modulus -> wp (interrupts n) (fun _ k' => pended n k k') k.
Proof.
  induction n as [|n IH]; intros k Hs H0 Hlt; simpl interrupts.
  - apply wp_ret. exists (tickHookCalls (k_vars k)). destruct k as [h v]. simpl. rewrite Z.add_0_r. by destruct v.
  - unfold timer_interrupt, xTaskIncrementTick, vApplicationTickHook. wsteps. rewrite (proj2 (Z.eqb_neq _ _)) by done. wsteps.
    change (negb (pdFALSE =? pdFALSE)) with false. cbn [when]. wsteps.
    eapply wp_mono; [apply IH; simpl; [done|rewrite u32_small by u32_lia; lia|rewrite u32_small by u32_lia; lia]|].
    cbv beta. intros _ k' [hk ->]. exists hk. rewrite Nat2Z.inj_succ. simpl. rewrite u32_small by u32_lia.
    by replace (xPendedTicks (k_vars k) + 1 + Z.of_nat n) with (xPendedTicks (k_vars k) + Z.succ (Z.of_nat n)) by lia.
Qed.

Lemma pended_add n1 n2 k k1 k2 : pended n1 k k1 -> pended n2 k1 k2 -> pended (n1 + n2) k k2.
Proof.
  intros [hk1 ->] [hk2 ->]. exists hk2. simpl. rewrite Nat2Z.inj_add. by rewrite Z.add_assoc.
Qed.

(** The end of a suspension in which ticks came. *)
Lemma resume_pended_wp n k k1 : quiet k -> runs_highest k -> Z.of_nat n < u32_modulus -> pended n (suspended k) k1 ->
  wp xTaskResumeAll (fun _ k' => running k' /\ runs_highest k' /\ xTickCount (k_vars k') = xTickCount (k_vars k) +u Z.of_nat n) k1.
Proof.
  intros [[Hi Hp Hr Hs] Hpd _ Hn] Hh Hlt [hk ->]. unfold suspended. destruct k as [h v]. simpl in *. rewrite Hpd. set (v1 := set_tickHookCalls _ _).
  assert (Hi1 : kinv (mkKernel h v1)) by (eapply kinv_vars; [..|exact Hi]; done).
  eapply wp_mono; [apply resume_all_wp; [exact Hi1|exact Hp|exact Hr|simpl; lia|done|exact Hn]|].
  cbv beta. intros r k' [Hi' Hp' (Hs' & _ & _) [Ht' _] Htk _ _ Hrdy _ Hsw]. simpl in *.
  assert (Hh' : runs_highest k').
  { destruct Hsw as [[_ ?]|(_ & Hcur & Hno)]; [done|]. destruct Hh as (x & Hx & Hxr & Hmax). simpl in *.
    assert (Hno' : no_higher k') by (apply Hno; intros y t p Hy; simpl in *; simplify_eq; apply Hmax).
    exists x. rewrite Ht', Hcur. split; [done|]. split; [by apply Hrdy|]. intros t p Ht. apply (Hno' x t p); [by rewrite Ht', Hcur|done]. }
  split; [|done]. split; [done|done| |done]. destruct Hr as (t & p & Ht). exists t, p. by apply Hrdy.
Qed.
End Pended.
