(* ===== verification/HeapCallTheorems.v ===== *)
(** * The allocators and the tick

    pvPortMalloc suspends the scheduler while it works on the heap, so a timer
    interrupt in the middle neither lets another task in nor gets lost. *)

From S2P Require Import Prelude Simulation Config ListC ListSpec ListRefine Kernel Tasks KernelRefine KernelInv KernelSteps SchedProps ResumeProps KernelDemo SchedTheorems SuspendProps Interrupts HeapCalls Heap1.

Implicit Types (kc : CK) (ks : KA).

(** A step of the kernel in a pair of states. *)
Lemma wp_kernel {S A} (m1 : M CK A) (m2 : M KA A) (P : A -> KA -> Prop) (Q : A -> CK * S -> Prop) kc ks s :
  sim (RK rep) m1 m2 -> RK rep kc ks -> wp m2 P ks -> (forall a kc' ks', RK rep kc' ks' -> P a ks' -> Q a (kc', s)) ->
  wp (on_fst m1) Q (kc, s).
Proof.
  intros Hs HR Hw HQ. apply wp_on_fst. eapply wp_mono; [exact (wp_transfer _ _ _ _ _ _ Hs HR Hw)|]. cbv beta.
  intros a kc' (ks' & HR' & HP). by apply (HQ a kc' ks').
Qed.

(** ** The result *)

(** C31: pvPortMalloc, with any number of timer interrupts while it works on the
    heap: the work is done as without them, every tick is made up for, and when
    the call returns a most urgent ready task runs. *)
Theorem malloc_makes_up_ticks {S} (work : M S Z) n1 n2 kc ks s (Q : Z -> S -> Prop) : RK rep kc ks -> quiet ks -> runs_highest ks ->
  Z.of_nat (n1 + n2) < u32_modulus -> wp work Q s ->
  wp (interleave [mret tt; on_fst (interrupts n1); on_fst (interrupts n2)] (malloc_call work)) (fun p st => Q p st.2 /\ exists ks', RK rep st.1 ks' /\
    running ks' /\ runs_highest ks' /\ xTickCount (k_vars ks') = xTickCount (k_vars ks) +u Z.of_nat (n1 + n2)) (kc, s).
Proof.
  intros HR Hq Hh Hlt Hwork. pose proof Hq as [[Hi Hp Hr Hs] Hpd _ _]. unfold malloc_call. apply interleave_skip.
  eapply (wp_kernel _ _ (fun _ k => k = suspended ks)); [apply sim_suspend_all|exact HR|by apply suspend_wp|].
  cbv beta. intros _ kc1 ? HR1 ->. apply interleave_step.
  eapply (wp_kernel _ _ (fun _ k => pended n1 (suspended ks) k)); [apply interrupts_sim|exact HR1| |].
  { apply pending_interrupts; simpl; rewrite ?Hpd; [done|lia|lia]. }
  cbv beta. intros _ kc2 ks2 HR2 Hp2. apply wp_on_snd. eapply wp_mono; [exact Hwork|]. cbv beta. intros p s' HQ. cbn [fst]. apply interleave_step.
  eapply (wp_kernel _ _ (fun _ k => pended n2 ks2 k)); [apply interrupts_sim|exact HR2| |].
  { pose proof Hp2 as [hk ->]. apply pending_interrupts; simpl; rewrite ?Hpd; [done|lia|lia]. }
  cbv beta. intros _ kc3 ks3 HR3 Hp3. eapply wp_kernel; [apply sim_resume_all; apply _|exact HR3| |].
  { eapply resume_pended_wp; [exact Hq|exact Hh|exact Hlt|]. by eapply pended_add. }
  cbv beta. intros _ kc4 ks4 HR4 (Hr4 & Hh4 & Ht4). apply interleave_nil. destruct (p =? NULL).
  - apply wp_run_bind, wp_run_atomic.
    eapply (wp_kernel _ _ (fun _ k => running k /\ runs_highest k /\ xTickCount (k_vars k) = xTickCount (k_vars ks4))); [apply sim_malloc_failed|exact HR4| |].
    { unfold vApplicationMallocFailedHook. wsteps. destruct ks4 as [h v]. destruct Hr4 as [I P R Sx]. split; [|done]. split; try done.
      eapply kinv_vars; [..|exact I]; done. }
    cbv beta. intros _ kc5 ks5 HR5 (Hr5 & Hh5 & Ht5). apply wp_run_ret. split; [done|]. exists ks5. split_and!; [done..|]. congruence.
  - apply wp_run_ret. split; [done|]. by exists ks4.
Qed.

(** ** An instance: a request of heap_1.c during which three ticks come *)

Lemma boot_quiet : quiet boot_abs.
Proof.
  split.
  - exact boot_running.
  - by vm_compute.
  - by vm_compute.
  - by vm_compute.
Qed.
Lemma boot_highest : runs_highest boot_abs.
Proof. eexists. split; [by vm_compute|]. split; [by vm_compute|]. apply max_check_sound. by vm_compute. Qed.

Lemma demo_work : wp (Heap1.pvPortMalloc_suspended 2147483648 (aligned_size 100)) (fun p _ => p = 2147483664) heap1_boot.
Proof. eexists _, _. split; [by vm_compute|done]. Qed.

Lemma malloc_makes_up_ticks_witness :
  wp (interleave [mret tt; on_fst (interrupts 1); on_fst (interrupts 2)] (Heap1.pvPortMalloc 2147483648 100)) (fun p st => p = 2147483664 /\ exists ks',
    RK rep st.1 ks' /\ runs_highest ks' /\ xTickCount (k_vars ks') = xTickCount (k_vars boot_abs) +u 3) (boot_ptr, heap1_boot).
Proof.
  eapply wp_mono; [exact (malloc_makes_up_ticks _ 1 2 boot_ptr boot_abs heap1_boot _ boot_related boot_quiet boot_highest eq_refl demo_work)|].
  intros p st (Hp & ks' & HR & _ & Hh & Ht). split; [exact Hp|]. exists ks'. split; [exact HR|]. split; [exact Hh|exact Ht].
Defined.
