(* ===== verification/PriorityProps.v ===== *)
(** * Priorities that change

    vTaskPrioritySet, xTaskPriorityInherit and xTaskPriorityDisinherit change
    the priority of a task and, if it is ready, move it to the ready list of
    its new priority: the invariant of the lists and their bitmap is kept.
    vTaskPriorityDisinheritAfterTimeout clears the wrong bit when it empties a
    ready list: the bit of the old priority stays set. *)

From S2P Require Import Prelude Simulation Config ListC ListSpec ListRefine ListObs ListProps Heap4 Kernel Tasks TaskApi TaskEvents Queue KernelRefine KernelInv KernelSteps SchedProps ResumeProps KernelDemo SchedTheorems.

Section Priority.
Implicit Types (X : Z -> Prop) (h : AH) (v : Vars) (k : KA).

Definition put_tcb (t : Z) (y : TCB_t) v : Vars := set_tcbs (<[t := y]> (tcbs v)) v.

(** A task whose TCB is now [y] is in the ready list of its priority if it was
    ready; nothing else has moved. *)
Definition relocated (t : Z) (y : TCB_t) h h' : Prop :=
  (forall i, i <> StateItem t -> cont_of h' i = cont_of h i) /\
  ((exists p, cont_of h (StateItem t) = Some (Ready p)) /\ cont_of h' (StateItem t) = Some (Ready (uxPriority y)) \/
   (forall p, cont_of h (StateItem t) <> Some (Ready p)) /\ cont_of h' (StateItem t) = cont_of h (StateItem t)).

(** The value of an event item changes. *)
Definition event_value (t : Z) h h' : Prop :=
  awf h' /\ (forall l, items_of h' l = items_of h l) /\ (forall j, cont_of h' j = cont_of h j) /\
  (forall j, j <> EventItem t -> val_of h' j = val_of h j) /\
  (forall j, owner_of h' j = owner_of h j) /\
  (forall j, is_Some (a_items h' !! j) <-> is_Some (a_items h !! j)) /\
  (forall l, is_Some (a_lists h' !! l) <-> is_Some (a_lists h !! l)).

Lemma event_value_core X h h' v t : event_value t h h' -> kcore X (mkKernel h v) -> kcore X (mkKernel h' v).
Proof. intros (?&?&?&?&?&?&?) HK. by eapply kcore_values. Qed.

Lemma event_value_inv h h' v t : event_value t h h' -> kinv (mkKernel h v) -> kinv (mkKernel h' v).
Proof.
  intros He [HK HT]. split; [by eapply event_value_core|]. destruct (delayed_state_list _ _ HK) as [Hd1 Hd2].
  destruct He as (?&Hit&?&Hv&?&?&?).
  assert (Hni : forall l, is_state_list l = true -> EventItem t ∉ items_of h l).
  { intros l Hl Hin. by destruct (state_list_item _ _ _ _ HK Hl Hin) as (u & x & ? & _). }
  eapply (ktime_value _ _ _ (EventItem t) (val_of h' (EventItem t))); [exact HT|by apply Hni|by apply Hni|done|].
  intros j. case_decide; [by subst|auto].
Qed.

Lemma event_value_pend h h' v v' t : event_value t h h' -> kpend (mkKernel h v) -> kpend (mkKernel h' v').
Proof. intros (?&?&Hc&_) Hp u l. simpl. rewrite !Hc. apply Hp. Qed.

Lemma set_value_event (Q : unit -> KA -> Prop) h v t z :
  awf h -> is_Some (a_items h !! EventItem t) ->
  (forall h', event_value t h h' -> val_of h' (EventItem t) = z -> Q tt (mkKernel h' v)) ->
  wp (onlist (loSetValue (EventItem t) z)) Q (mkKernel h v).
Proof.
  intros Hwf Hi HQ. apply wp_set_value; [done|done|]. intros a' ? ? ? Hv ? ? Hls. apply HQ.
  - split_and!; try done.
    + intros j Hj. by rewrite Hv, decide_False.
    + intros l. by rewrite Hls.
  - by rewrite Hv, decide_True.
Qed.

Lemma event_value_refl h t : awf h -> event_value t h h.
Proof. done. Qed.

Lemma set_event_value_wp (Q : unit -> KA -> Prop) h v t z :
  awf h -> is_Some (a_items h !! EventItem t) ->
  (forall h', event_value t h h' -> Q tt (mkKernel h' v)) ->
  wp (set_event_value t z) Q (mkKernel h v).
Proof.
  intros Hwf Hi HQ. unfold set_event_value. wstep. apply wp_get_value; [done|]. destruct (_ =? 0); simpl.
  - apply set_value_event; [done|done|]. auto.
  - wstep. apply HQ. by apply event_value_refl.
Qed.

(** ** Moving between ready lists *)

(** A task that is in no list enters the ready list of its new TCB [y]. *)
Lemma readd_core X a1 v a2 t x y xs1 xs2 b :
  kcore X (mkKernel a1 (set_uxTopReadyPriority b v)) -> tcbs v !! t = Some x -> cont_of a1 (StateItem t) = None ->
  prio_ok (uxPriority y) -> prio_ok (uxBasePriority y) ->
  moved a1 a2 (StateItem t) (Ready (uxPriority y)) (Some (Ready (uxPriority y))) (xs1 ++ StateItem t :: xs2) ->
  kcore (except X (uxPriority y)) (mkKernel a2 (record_ready (uxPriority y) (set_uxTopReadyPriority b (put_tcb t y v)))).
Proof.
  intros HK Hx Hc Hy1 Hy2 M2.
  eapply (kcore_insert_ready _ a1 (set_uxTopReadyPriority b (put_tcb t y v)) a2 t y); [|simpl; by rewrite lookup_insert_eq|exact M2].
  apply (kcore_vars _ _ (put_tcb t y (set_uxTopReadyPriority b v))); [done..|].
  eapply kcore_tcb; [exact HK|exact Hx|done|done|]. intros q. by rewrite Hc.
Qed.

Lemma relocated_moves h a1 a1' a2 t y p xs :
  cont_of h (StateItem t) = Some (Ready p) ->
  (forall i, i <> StateItem t -> cont_of a1 i = cont_of h i) -> event_value t a1 a1' ->
  moved a1' a2 (StateItem t) (Ready (uxPriority y)) (Some (Ready (uxPriority y))) xs -> relocated t y h a2.
Proof.
  intros Hc M1 (_&_&He&_) M2. split.
  - intros i Hi. rewrite (mv_cont _ _ _ _ _ _ M2), decide_False, He by done. by apply M1.
  - left. split; [eauto|]. by rewrite (mv_cont _ _ _ _ _ _ M2), decide_True.
Qed.

Lemma moved_others h a1 i l c xs j : moved h a1 i l c xs -> j <> i -> cont_of a1 j = cont_of h j.
Proof. intros M Hj. by rewrite (mv_cont _ _ _ _ _ _ M), decide_False. Qed.

Lemma relocate_time v a1 a2 t q xs v' :
  ktime (mkKernel a1 v) -> delayed_pair (pxDelayedTaskList v) (pxOverflowDelayedTaskList v) ->
  moved a1 a2 (StateItem t) (Ready q) (Some (Ready q)) xs ->
  xTickCount v' = xTickCount v -> xNextTaskUnblockTime v' = xNextTaskUnblockTime v ->
  pxDelayedTaskList v' = pxDelayedTaskList v -> pxOverflowDelayedTaskList v' = pxOverflowDelayedTaskList v ->
  ktime (mkKernel a2 v').
Proof.
  intros HT Hd M2 E1 E2 E3 E4. apply (ktime_vars _ v); [done..|].
  eapply ktime_insert_other; [exact HT|..|exact M2];
    destruct Hd as [[E5 E6]|[E5 E6]]; rewrite ?E5, ?E6; done.
Qed.

Lemma relocated_pend h h' v v' t y : relocated t y h h' -> kpend (mkKernel h v) -> kpend (mkKernel h' v').
Proof.
  intros [Ho Hs] Hp u l. simpl. rewrite Ho by done. intros Hu. destruct (Hp _ _ Hu) as (l' & Hl' & Hnr). simpl in Hl'.
  destruct (decide (u = t)) as [->|].
  - destruct Hs as [[[p Hc] _]|[_ ->]]; [|by exists l']. rewrite Hc in Hl'. simplify_eq. by destruct (Hnr p).
  - exists l'. by rewrite Ho by congruence.
Qed.

Lemma record_reset p b : prio_ok p ->
  portRECORD_READY_PRIORITY p (portRESET_READY_PRIORITY_bits p b) = portRECORD_READY_PRIORITY p b.
Proof.
  intros Hp. apply Z.bits_inj'. intros q Hq. rewrite !testbit_record, testbit_reset by done.
  destruct (Z.testbit b q); simpl; [|done]. by case_bool_decide.
Qed.

(** A stale bit is harmless where no statement depends on it. *)
Definition stale (r p : Z) : Z -> Prop := fun q => r <> p /\ q = p.

Lemma kcore_also X h v : kcore none (mkKernel h v) -> kcore X (mkKernel h v).
Proof. apply kcore_weaken. by intros ? []. Qed.

(** Clearing the bit of [r] and then setting the one of the new priority. *)
Lemma reset_then_record n r x y a1 v t :
  kcore (also none (uxPriority x)) (mkKernel a1 v) -> prio_ok (uxPriority x) -> prio_ok r ->
  (r = uxPriority x \/ r = uxPriority y) -> n = Z.of_nat (length (items_of a1 (Ready (uxPriority x)))) ->
  exists b, record_ready (uxPriority y) (reset_if (n =? 0) r (put_tcb t y v)) =
      record_ready (uxPriority y) (set_uxTopReadyPriority b (put_tcb t y v)) /\
    kcore (stale r (uxPriority x)) (mkKernel a1 (set_uxTopReadyPriority b v)).
Proof.
  intros HK Hp Hr Hrr Hn. destruct (decide (r = uxPriority x)) as [->|Hne].
  - exists (uxTopReadyPriority (reset_if (n =? 0) (uxPriority x) v)). split; [by destruct (n =? 0)|].
    pose proof (reset_if_core _ _ _ _ _ HK Hp Hn) as HK'. apply kcore_also.
    eapply kcore_vars; [..|exact HK']; by destruct (n =? 0).
  - destruct Hrr as [|Hrr]; [done|]. exists (uxTopReadyPriority v). split.
    + destruct (n =? 0); [|by destruct v]. unfold record_ready, reset_if, reset_ready. simpl. rewrite <- Hrr.
      by rewrite record_reset.
    + eapply kcore_vars; [..|eapply kcore_weaken; [|exact HK]]; try done. intros q [[]| ->]. done.
Qed.

(** What move_ready_task needs: the invariant held before the priority of [t]
    was changed from [uxPriority x]. *)
Lemma move_ready_wp (Q : unit -> KA -> Prop) h v t x y r :
  kinv (mkKernel h v) -> tcbs v !! t = Some x -> prio_ok (uxPriority y) -> prio_ok (uxBasePriority y) ->
  prio_ok r -> (r = uxPriority x \/ r = uxPriority y) ->
  (forall h' b, ktime (mkKernel h' (set_uxTopReadyPriority b (put_tcb t y v))) ->
    kcore (fun p => stale r (uxPriority x) p /\ exists q, cont_of h (StateItem t) = Some (Ready q))
      (mkKernel h' (set_uxTopReadyPriority b (put_tcb t y v))) ->
    relocated t y h h' -> Q tt (mkKernel h' (set_uxTopReadyPriority b (put_tcb t y v)))) ->
  wp (move_ready_task t (uxPriority x) r) Q (mkKernel h (put_tcb t y v)).
Proof.
  intros [HK HT] Hx Hy1 Hy2 Hr Hrr HQ. destruct (kc_prio _ _ HK _ _ Hx) as [Hp _].
  destruct (kc_item _ _ HK t) as (Hi & _); [simpl; eauto|]. simpl in Hi.
  unfold move_ready_task. wstep. apply wp_ready_list; [done|]. wstep. apply wp_contained; [done|].
  case_bool_decide as Hc.
  - wstep. eapply wp_remove; [apply (kc_wf _ _ HK)|exact Hc|]. intros a1 M1.
    set (n := Z.of_nat _). wstep. apply wp_reset_when.
    pose proof (kcore_remove_ready _ _ _ _ _ _ HK M1) as HK1.
    assert (Hn : n = Z.of_nat (length (items_of a1 (Ready (uxPriority x))))).
    { by rewrite (mv_items _ _ _ _ _ _ M1), decide_True. }
    assert (Ey : tcbs (reset_if (n =? 0) r (put_tcb t y v)) !! t = Some y).
    { destruct (n =? 0); simpl; by rewrite lookup_insert_eq. }
    eapply wp_add_ready_raw; [apply (mv_wf _ _ _ _ _ _ M1)|exact Ey|done|by apply (mv_dom _ _ _ _ _ _ M1)|
      by rewrite (mv_cont _ _ _ _ _ _ M1), decide_True|by apply (ready_list_exists _ _ _ HK1)|].
    intros a2 xs1 xs2 _ _ M2. destruct (reset_then_record n r x y a1 v t HK1 Hp Hr Hrr Hn) as (b & Eb & HK2).
    assert (Hc1 : cont_of a1 (StateItem t) = None) by by rewrite (mv_cont _ _ _ _ _ _ M1), decide_True.
    pose proof (readd_core _ _ _ _ _ _ _ _ _ _ HK2 Hx Hc1 Hy1 Hy2 M2) as HK3.
    assert (Hrel : relocated t y h a2).
    { eapply relocated_moves; [exact Hc|intros i; by eapply moved_others|by apply event_value_refl, M1|exact M2]. }
    rewrite Eb. apply (HQ a2 (portRECORD_READY_PRIORITY (uxPriority y) b)); [|by eapply kcore_weaken; [|exact HK3]; intros q []; eauto|done].
    eapply relocate_time; [eapply ktime_remove; [exact HT|exact M1]|apply (kc_delayed _ _ HK)|exact M2|done..].
  - wstep. replace (put_tcb t y v) with (set_uxTopReadyPriority (uxTopReadyPriority v) (put_tcb t y v)) by (by destruct v).
    assert (Hnr : forall p, cont_of h (StateItem t) <> Some (Ready p)).
    { intros p Hc'. apply Hc. by rewrite (kc_ready _ _ HK _ _ _ Hc' Hx). }
    apply HQ.
    + eapply ktime_vars; [..|exact HT]; done.
    + apply kcore_also. apply (kcore_vars _ _ (put_tcb t y v)); [done..|].
      eapply kcore_tcb; [exact HK|exact Hx|done|done|]. intros p Hc'. by destruct (Hnr p).
    + split; [done|]. right. done.
Qed.

Lemma move_ready_inv (Q : unit -> KA -> Prop) h v t x y :
  kinv (mkKernel h v) -> tcbs v !! t = Some x -> prio_ok (uxPriority y) -> prio_ok (uxBasePriority y) ->
  (forall h' b, kinv (mkKernel h' (set_uxTopReadyPriority b (put_tcb t y v))) -> relocated t y h h' ->
    Q tt (mkKernel h' (set_uxTopReadyPriority b (put_tcb t y v)))) ->
  wp (move_ready_task t (uxPriority x) (uxPriority x)) Q (mkKernel h (put_tcb t y v)).
Proof.
  intros Hinv Hx Hy1 Hy2 HQ. pose proof (kc_prio _ _ (ki_core _ Hinv) _ _ Hx) as [Hp _].
  eapply move_ready_wp; [exact Hinv|exact Hx|done|done|done|by left|].
  intros h' b HT HK Hrel. apply HQ; [|done]. split; [|done]. eapply kcore_weaken; [|exact HK]. by intros p [[] _].
Qed.

Lemma relocated_event h h1 h' t y : event_value t h h1 -> relocated t y h1 h' -> relocated t y h h'.
Proof.
  intros (_&_&Hc&_) [Ho Hs]. split.
  - intros i Hi. rewrite Ho by done. apply Hc.
  - setoid_rewrite Hc in Hs. done.
Qed.

(** The task is alone in its ready list and the bit that is reset is that of
    its new priority: the list is left empty and its bit set. *)
Lemma move_alone_wp h v t x y :
  kinv (mkKernel h v) -> tcbs v !! t = Some x -> items_of h (Ready (uxPriority x)) = [StateItem t] ->
  prio_ok (uxPriority y) -> uxPriority y <> uxPriority x ->
  wp (move_ready_task t (uxPriority x) (uxPriority y)) (fun _ k' =>
    awf (k_lists k') /\ items_of (k_lists k') (Ready (uxPriority x)) = [] /\
    (forall l, l <> Ready (uxPriority x) -> l <> Ready (uxPriority y) -> items_of (k_lists k') l = items_of h l) /\
    (forall l, is_Some (a_lists (k_lists k') !! l) <-> is_Some (a_lists h !! l)) /\
    (forall i, is_Some (a_items (k_lists k') !! i) <-> is_Some (a_items h !! i)) /\
    k_vars k' = record_ready (uxPriority y) (reset_ready (uxPriority y) (put_tcb t y v)) /\
    relocated t y h (k_lists k')) (mkKernel h (put_tcb t y v)).
Proof.
  intros [HK HT] Hx Hal Hy Hne. destruct (kc_prio _ _ HK _ _ Hx) as [Hp _].
  destruct (kc_item _ _ HK t) as (Hi & _); [simpl; eauto|]. simpl in Hi.
  assert (Hc : cont_of h (StateItem t) = Some (Ready (uxPriority x))) by (apply (awf_mem _ (kc_wf _ _ HK)); simpl; rewrite Hal; by left).
  unfold move_ready_task. wstep. apply wp_ready_list; [done|]. wstep. apply wp_contained; [done|].
  rewrite bool_decide_true by done. wstep. eapply wp_remove; [apply (kc_wf _ _ HK)|exact Hc|]. intros a1 M1.
  assert (Ed : drop_elem (StateItem t) (items_of h (Ready (uxPriority x))) = []) by (rewrite Hal; unfold drop_elem; by rewrite filter_cons, decide_False, filter_nil by (intros Hn; by apply Hn)).
  rewrite Ed in M1 |- *. wstep. apply wp_reset_when. change (Z.of_nat (length (@nil item)) =? 0) with true. cbn [reset_if].
  pose proof (kcore_remove_ready _ _ _ _ _ _ HK ltac:(rewrite Ed; exact M1)) as HK1.
  eapply wp_add_ready_raw; [apply (mv_wf _ _ _ _ _ _ M1)|simpl; by rewrite lookup_insert_eq|done|by apply (mv_dom _ _ _ _ _ _ M1)|
    by rewrite (mv_cont _ _ _ _ _ _ M1), decide_True|by apply (ready_list_exists _ _ _ HK1)|].
  intros a2 xs1 xs2 _ _ M2. cbn [k_lists k_vars]. split_and!; [apply M2| | | | |done|].
  - rewrite (mv_items _ _ _ _ _ _ M2), decide_False by congruence. by rewrite (mv_items _ _ _ _ _ _ M1), decide_True.
  - intros l H1 H2. by rewrite (mv_items _ _ _ _ _ _ M2), (mv_items _ _ _ _ _ _ M1), !decide_False.
  - intros l. by rewrite (mv_lists _ _ _ _ _ _ M2), (mv_lists _ _ _ _ _ _ M1).
  - intros i. by rewrite (mv_dom _ _ _ _ _ _ M2), (mv_dom _ _ _ _ _ _ M1).
  - eapply relocated_moves; [exact Hc|intros i; by eapply moved_others|by apply event_value_refl, M1|exact M2].
Qed.

(** ** vTaskPrioritySet *)

(** The TCB after the priority has been set: an inherited priority stays. *)
Definition new_tcb (x : TCB_t) (p : Z) : TCB_t :=
  set_uxBasePriority p (if uxBasePriority x =? uxPriority x then set_uxPriority p x else x).

Definition clip (p : Z) : Z := if configMAX_PRIORITIES <=? p then configMAX_PRIORITIES - 1 else p.

Definition handle_task v (xTask : Z) : Z := if xTask =? NULL then pxCurrentTCB v else xTask.

Lemma wp_handle (Q : Z -> KA -> Prop) k x : Q (handle_task (k_vars k) x) k -> wp (prvGetTCBFromHandle x) Q k.
Proof. intros HQ. unfold prvGetTCBFromHandle, handle_task in *. destruct (x =? NULL); by wsteps. Qed.

Lemma clip_ok p : 0 <= p -> prio_ok (clip p).
Proof. unfold clip, prio_ok. intros. destruct (Z.leb_spec configMAX_PRIORITIES p); unfold configMAX_PRIORITIES in *; lia. Qed.

Definition yield_needed (t cur pc base p : Z) : bool :=
  if base <? p then negb (t =? cur) && (pc <=? p) else t =? cur.

(** The state before the decision to yield. *)
Definition reprioritised k (t : Z) (x : TCB_t) (p : Z) (k' : KA) : Prop :=
  exists h' b, k' = mkKernel h' (set_uxTopReadyPriority b (put_tcb t (new_tcb x p) (k_vars k))) /\ kinv k' /\
    relocated t (new_tcb x p) (k_lists k) h'.

Lemma priority_set_split k t x p xTask :
  kinv k -> handle_task (k_vars k) xTask = t -> tcbs (k_vars k) !! t = Some x -> 0 <= p ->
  forall Q : unit -> KA -> Prop,
  (uxBasePriority x = clip p -> Q tt k) ->
  (forall y k', tcbs (k_vars k) !! pxCurrentTCB (k_vars k) = Some y -> uxBasePriority x <> clip p ->
    reprioritised k t x (clip p) k' ->
    wp (when (yield_needed t (pxCurrentTCB (k_vars k)) (uxPriority y) (uxBasePriority x) (clip p)) portYIELD) Q k') ->
  wp (vTaskPrioritySet xTask p) Q k.
Proof.
  destruct k as [h v]. intros Hinv Ht Hx Hp Q Hsame Hnew. simpl in *. pose proof (ki_core _ Hinv) as HK.
  unfold vTaskPrioritySet. fold (clip p). wstep. apply wp_handle. simpl. rewrite Ht. wsteps.
  destruct (Z.eqb_spec (uxBasePriority x) (clip p)) as [E|Hne]; simpl; [wstep; auto|].
  destruct (kc_cur _ _ HK) as [y Hy]. simpl in Hy. destruct (kc_prio _ _ HK _ _ Hx) as [Hp1 Hp2].
  wsteps.
  assert (Hyield : forall Q' : bool -> KA -> Prop,
    Q' (yield_needed t (pxCurrentTCB v) (uxPriority y) (uxBasePriority x) (clip p)) (mkKernel h v) ->
    wp (if uxBasePriority x <? clip p then
          if negb (t =? pxCurrentTCB v) then pc ← rd_tcb (pxCurrentTCB v) uxPriority; mret (pc <=? clip p)
          else mret false
        else mret (t =? pxCurrentTCB v)) Q' (mkKernel h v)).
  { intros Q' HQ'. unfold yield_needed in HQ'. destruct (_ <? _); [destruct (t =? _)|]; simpl in *; wsteps; done. }
  apply (Hyield (fun b k' => _)). wsteps.
  set (x1 := if uxBasePriority x =? uxPriority x then set_uxPriority (clip p) x else x).
  set (v1 := set_tcbs _ v). eapply wp_wr_tcb; [simpl; by rewrite lookup_insert_eq|].
  assert (Ev : set_tcbs (<[t := set_uxBasePriority (clip p) x1]> (tcbs v1)) v1 = put_tcb t (new_tcb x (clip p)) v).
  { unfold v1, put_tcb, new_tcb. simpl. by rewrite insert_insert_eq. }
  cbn [k_lists k_vars]. fold x1. rewrite Ev. wstep. apply set_event_value_wp; [apply (kc_wf _ _ HK)|by apply (kc_item _ _ HK t); simpl; rewrite Hx|].
  intros h1 He. wstep. eapply move_ready_inv; [by eapply event_value_inv|exact Hx| |simpl; by apply clip_ok|].
  { unfold new_tcb. simpl. destruct (uxBasePriority x =? uxPriority x); simpl; [by apply clip_ok|done]. }
  intros h' b Hinv' Hrel. apply (Hnew y); [done|done|]. exists h', b. split; [done|]. split; [done|].
  by eapply relocated_event.
Qed.

Lemma reprioritised_ready k t x p k' u q : reprioritised k t x p k' -> u <> t ->
  cont_of (k_lists k') (StateItem u) = Some (Ready q) -> cont_of (k_lists k) (StateItem u) = Some (Ready q).
Proof. intros (h' & b & -> & _ & [Ho _]) Hne. simpl. by rewrite Ho by congruence. Qed.

Lemma reprioritised_some_ready k t x p k' : some_ready k -> reprioritised k t x p k' -> some_ready k'.
Proof.
  intros (u & q & Hu) (h' & b & -> & _ & [Ho Hs]). destruct (decide (u = t)) as [->|Hne].
  - destruct Hs as [[_ Hc]|[Hno _]]; [by exists t, (uxPriority (new_tcb x p))|]. by destruct (Hno q).
  - exists u, q. simpl. by rewrite Ho by congruence.
Qed.

(** If no yield is needed the running task is still the most urgent one. *)
Lemma reprioritised_highest k t x y p k' : kinv k -> tcbs (k_vars k) !! t = Some x ->
  tcbs (k_vars k) !! pxCurrentTCB (k_vars k) = Some y -> uxBasePriority x <> p ->
  yield_needed t (pxCurrentTCB (k_vars k)) (uxPriority y) (uxBasePriority x) p = false ->
  runs_highest k -> reprioritised k t x p k' -> runs_highest k'.
Proof.
  intros Hinv Hx Hy Hne Hyn (z & Hz & Hcur & Hmax) Hrp. assert (z = y) as -> by congruence.
  pose proof (fun u q => reprioritised_ready _ _ _ _ _ u q Hrp) as Hoth.
  destruct Hrp as (h' & b & -> & Hinv' & [Ho Hs]). unfold runs_highest. simpl. cbn [k_lists] in Hoth.
  assert (Hup : uxPriority (new_tcb x p) = if uxBasePriority x =? uxPriority x then p else uxPriority x)
    by (unfold new_tcb; by destruct (_ =? _)).
  unfold yield_needed in Hyn. destruct (Z.eqb_spec t (pxCurrentTCB (k_vars k))) as [->|Htc]; simpl in Hyn.
  - assert (x = y) as -> by congruence. destruct (Z.ltb_spec (uxBasePriority y) p); [|done].
    exists (new_tcb y p). rewrite lookup_insert_eq. split; [done|].
    destruct Hs as [[_ Hc]|[Hno _]]; [|by destruct (Hno _ Hcur)]. split; [done|].
    intros u q Hu. destruct (decide (u = pxCurrentTCB (k_vars k))) as [->|Hu'].
    + rewrite Hc in Hu. assert (q = uxPriority (new_tcb y p)) as -> by congruence. done.
    + specialize (Hmax u q (Hoth u q Hu' Hu)). rewrite Hup. destruct (Z.eqb_spec (uxBasePriority y) (uxPriority y)); lia.
  - exists y. rewrite lookup_insert_ne by congruence. split; [done|]. rewrite Ho by congruence. split; [done|].
    intros u q Hu. destruct (decide (u = t)) as [->|Hu']; [|exact (Hmax u q (Hoth u q Hu' Hu))].
    destruct Hs as [[[p0 Hc0] Hc]|[Hno Hc]]; rewrite Hc in Hu; [|by destruct (Hno q)].
    assert (q = uxPriority (new_tcb x p)) as -> by congruence. rewrite Hup. specialize (Hmax t p0 Hc0). rewrite <- (kc_ready _ _ (ki_core _ Hinv) _ _ _ Hc0 Hx) in Hmax.
    destruct (Z.eqb_spec (uxBasePriority x) (uxPriority x)); [|done].
    destruct (Z.ltb_spec (uxBasePriority x) p); [apply Z.leb_gt in Hyn|]; lia.
Qed.

(** ** Inheritance *)

(** The TCB [y] is written for [t], which is moved if it is ready. *)
Definition retcb k (t : Z) (y : TCB_t) (k' : KA) : Prop :=
  exists h' b, k' = mkKernel h' (set_uxTopReadyPriority b (put_tcb t y (k_vars k))) /\ kinv k' /\
    relocated t y (k_lists k) h'.

Lemma inherit_wp k t x y :
  kinv k -> t <> NULL -> tcbs (k_vars k) !! t = Some x -> tcbs (k_vars k) !! pxCurrentTCB (k_vars k) = Some y ->
  wp (xTaskPriorityInherit t) (fun r k' =>
    if uxPriority x <? uxPriority y then r = pdTRUE /\ retcb k t (set_uxPriority (uxPriority y) x) k'
    else r = (if uxBasePriority x <? uxPriority y then pdTRUE else pdFALSE) /\ k' = k) k.
Proof.
  destruct k as [h v]. intros Hinv Hnull Hx Hy. simpl in *. pose proof (ki_core _ Hinv) as HK.
  destruct (kc_prio _ _ HK _ _ Hx) as [Hpx Hbx]. destruct (kc_prio _ _ HK _ _ Hy) as [Hpy _].
  destruct (kc_item _ _ HK t) as (Hi1 & Hi2 & _); [simpl; eauto|]. simpl in *.
  unfold xTaskPriorityInherit. rewrite (proj2 (Z.eqb_neq _ _)) by done. simpl. wsteps.
  destruct (uxPriority x <? uxPriority y); [|wsteps; done]. wstep.
  apply set_event_value_wp; [apply (kc_wf _ _ HK)|done|]. intros h1 He.
  pose proof (event_value_inv _ _ _ _ He Hinv) as Hinv1. pose proof (ki_core _ Hinv1) as HK1.
  assert (Ec : cont_of h1 (StateItem t) = cont_of h (StateItem t)) by apply He.
  wstep. apply wp_ready_list; [done|]. wstep. apply wp_contained; [by apply He|]. wstep. set (y' := set_uxPriority _ x).
  rewrite Ec. case_bool_decide as Hc.
  - wstep. eapply wp_remove; [apply (kc_wf _ _ HK1)|by rewrite Ec|]. intros a1 M1. wstep. apply wp_reset_when.
    assert (Hn : Z.of_nat (length (drop_elem (StateItem t) (items_of h1 (Ready (uxPriority x))))) =
      Z.of_nat (length (items_of a1 (Ready (uxPriority x))))) by (by rewrite (mv_items _ _ _ _ _ _ M1), decide_True).
    pose proof (reset_if_core _ _ _ _ _ (kcore_remove_ready _ _ _ _ _ _ HK1 M1) Hpx Hn) as HK2.
    set (n := Z.of_nat _) in *. destruct (reset_if_shape (n =? 0) (uxPriority x) v) as [b Eb]. rewrite Eb in *.
    wstep. wstep. fold y'.
    assert (Hc1 : cont_of a1 (StateItem t) = None) by by rewrite (mv_cont _ _ _ _ _ _ M1), decide_True.
    eapply (wp_add_ready_raw _ a1 (set_uxTopReadyPriority b (put_tcb t y' v)) t y');
      [apply M1|simpl; by rewrite lookup_insert_eq|done|by apply (mv_dom _ _ _ _ _ _ M1), He|done|
       by apply (ready_list_exists _ _ _ HK2)|].
    intros a2 xs1 xs2 _ _ M2. wstep. split; [done|].
    exists a2, (portRECORD_READY_PRIORITY (uxPriority y) b). split; [done|]. split; [split|].
    + eapply kcore_weaken; [apply except_none|]. exact (readd_core _ _ _ _ _ _ y' _ _ _ HK2 Hx Hc1 Hpy Hbx M2).
    + eapply relocate_time; [eapply ktime_remove; [apply Hinv1|exact M1]|apply (kc_delayed _ _ HK)|exact M2|done..].
    + eapply relocated_event; [exact He|].
      eapply relocated_moves; [by rewrite Ec|intros i; by eapply moved_others|by apply event_value_refl, M1|exact M2].
  - wsteps. split; [done|]. exists h1, (uxTopReadyPriority v). split; [by destruct v|].
    assert (Hnr : forall p, cont_of h (StateItem t) <> Some (Ready p)).
    { intros p Hc'. apply Hc. by rewrite (kc_ready _ _ HK _ _ _ Hc' Hx). }
    split; [split|].
    + apply (kcore_vars _ _ (put_tcb t y' v)); [done..|].
      eapply kcore_tcb; [exact HK1|exact Hx|done|done|]. intros p. rewrite Ec. intros Hc'. by destruct (Hnr p).
    + eapply ktime_vars; [..|apply Hinv1]; done.
    + split; [intros i _; apply He|]. by right.
Qed.

(** A running holder gives a mutex back. *)
Lemma disinherit_wp k t x :
  kinv k -> t <> NULL -> tcbs (k_vars k) !! t = Some x ->
  cont_of (k_lists k) (StateItem t) = Some (Ready (uxPriority x)) ->
  let x1 := set_uxMutexesHeld (uxMutexesHeld x -u 1) x in
  wp (xTaskPriorityDisinherit t) (fun r k' =>
    if negb (uxPriority x =? uxBasePriority x) && (uxMutexesHeld x -u 1 =? 0)
    then r = pdTRUE /\ retcb k t (set_uxPriority (uxBasePriority x) x1) k'
    else r = pdFALSE /\ k' = mkKernel (k_lists k) (put_tcb t x1 (k_vars k)) /\ kinv k') k.
Proof.
  destruct k as [h v]. intros Hinv Hnull Hx Hc x1. simpl in *. pose proof (ki_core _ Hinv) as HK.
  destruct (kc_prio _ _ HK _ _ Hx) as [Hpx Hbx].
  destruct (kc_item _ _ HK t) as (Hi1 & Hi2 & _); [simpl; eauto|]. simpl in *.
  assert (HK0 : kcore none (mkKernel h (put_tcb t x1 v))).
  { eapply kcore_tcb; [exact HK|exact Hx|done|done|]. intros p Hp. simpl. congruence. }
  assert (Ex : tcbs (put_tcb t x1 v) !! t = Some x1) by (simpl; by rewrite lookup_insert_eq).
  unfold xTaskPriorityDisinherit. rewrite (proj2 (Z.eqb_neq _ _)) by done. simpl. wstep. wstep. fold (put_tcb t x1 v).
  wsteps. destruct (negb _ && _).
  2:{ wstep. split; [done|]. split; [done|]. split; [done|]. eapply ktime_vars; [..|apply Hinv]; done. }
  set (y' := set_uxPriority (uxBasePriority x) x1).
  wstep. eapply wp_remove; [apply (kc_wf _ _ HK)|exact Hc|]. intros a1 M1. wstep. apply wp_reset_when.
  assert (Hn : Z.of_nat (length (drop_elem (StateItem t) (items_of h (Ready (uxPriority x))))) =
    Z.of_nat (length (items_of a1 (Ready (uxPriority x))))) by (by rewrite (mv_items _ _ _ _ _ _ M1), decide_True).
  pose proof (reset_if_core _ _ _ _ _ (kcore_remove_ready _ _ _ _ _ _ HK0 M1) Hpx Hn) as HK2.
  set (n := Z.of_nat _) in *. destruct (reset_if_shape (n =? 0) (uxPriority x) (put_tcb t x1 v)) as [b Eb].
  change (set_tcbs _ v) with (put_tcb t x1 v). rewrite Eb in *.
  wstep. eapply wp_wr_tcb; [exact Ex|]. wstep. cbn [k_lists k_vars].
  replace (set_tcbs _ _) with (set_uxTopReadyPriority b (put_tcb t y' v))
    by (unfold put_tcb; simpl; by rewrite insert_insert_eq).
  apply set_value_event; [apply M1|by apply (mv_dom _ _ _ _ _ _ M1)|]. intros a1' He _.
  assert (Hc1 : cont_of a1' (StateItem t) = None).
  { destruct He as (_&_&->&_). by rewrite (mv_cont _ _ _ _ _ _ M1), decide_True. }
  pose proof (event_value_core _ _ _ _ _ He HK2) as HK3.
  wstep. eapply (wp_add_ready_raw _ a1' (set_uxTopReadyPriority b (put_tcb t y' v)) t y');
    [apply He|simpl; by rewrite lookup_insert_eq|done|by apply He, (mv_dom _ _ _ _ _ _ M1)|done|
     by apply (ready_list_exists _ _ _ HK3)|].
  intros a2 xs1 xs2 _ _ M2. wstep. split; [done|].
  exists a2, (portRECORD_READY_PRIORITY (uxBasePriority x) b). split; [done|]. split; [split|].
  - eapply kcore_weaken; [apply except_none|].
    pose proof (readd_core _ _ _ _ _ _ y' _ _ _ HK3 Ex Hc1 Hbx Hbx M2) as HK4.
    eapply kcore_vars; [..|exact HK4]; try done. unfold put_tcb. simpl. by rewrite insert_insert_eq.
  - assert (Hinv1 : kinv (mkKernel a1' (set_uxTopReadyPriority b (put_tcb t x1 v)))).
    { eapply event_value_inv; [exact He|]. split; [done|]. apply (ktime_vars _ v); [done..|].
      eapply ktime_remove; [apply Hinv|exact M1]. }
    eapply relocate_time; [apply Hinv1|apply (kc_delayed _ _ HK)|exact M2|done..].
  - eapply relocated_moves; [exact Hc|intros i; by eapply moved_others|exact He|exact M2].
Qed.

End Priority.
