(* ===== verification/PriorityTheorems.v ===== *)
(** * Theorems about priorities and priority inheritance

    On the pointer lists of list.c, with the conventions of [SchedTheorems]. *)

From S2P Require Import Prelude Simulation Config ListC ListSpec ListRefine ListObs ListProps Heap4 Kernel Tasks TaskApi TaskEvents Queue KernelRefine KernelInv KernelSteps SchedProps ResumeProps KernelDemo SchedTheorems PriorityProps.

Section PriorityTheorems.
Implicit Types (c : CK) (k : KA).

Lemma yield_highest k (b : bool) : kinv k -> kpend k -> some_ready k -> uxSchedulerSuspended (k_vars k) = 0 ->
  (b = false -> runs_highest k) ->
  wp (when b portYIELD) (fun _ k' => kinv k' /\ kpend k' /\ runs_highest k' /\
    tcbs (k_vars k') = tcbs (k_vars k) /\ forall i, cont_of (k_lists k') i = cont_of (k_lists k) i) k.
Proof.
  intros Hinv Hp Hr Hs Hb. destruct b; simpl; [|wstep; by split_and!; auto].
  eapply wp_mono; [apply switch_wp; [apply Hinv|done|done]|]. intros [] k' Hsw. split_and!.
  - by eapply switched_inv.
  - by eapply switched_pend.
  - by destruct Hsw as (h' & t & p & -> & _ & _ & ? & _).
  - by destruct Hsw as (h' & t & p & -> & _).
  - intros i. by apply switched_cont.
Qed.

(** VTaskPrioritySet changes the base priority of the task, and the priority
    in use unless it is inherited, to the value asked for (clipped to the highest
    one); a ready task is moved to the ready list of its new priority, no other
    task moves.  If the running task was one of the most urgent ready tasks
    before the call, the one that runs afterwards is. *)
Theorem priority_set_reschedules c k xTask t x p :
  RK rep c k -> running k -> runs_highest k ->
  t = (if xTask =? NULL then pxCurrentTCB (k_vars k) else xTask) -> tcbs (k_vars k) !! t = Some x -> 0 <= p ->
  on_code (vTaskPrioritySet xTask p) (fun _ k' =>
    let y := if uxBasePriority x =? clip p then x else new_tcb x (clip p) in
    kinv k' /\ kpend k' /\ runs_highest k' /\ tcbs (k_vars k') = <[t := y]> (tcbs (k_vars k)) /\
    (forall i, i <> StateItem t -> cont_of (k_lists k') i = cont_of (k_lists k) i) /\
    (forall q, cont_of (k_lists k) (StateItem t) = Some (Ready q) ->
      cont_of (k_lists k') (StateItem t) = Some (Ready (uxPriority y)))) c.
Proof.
  intros HR [Hinv Hp Hr Hs] Hhi -> Hx H0. fold (handle_task (k_vars k) xTask) in *. set (t := handle_task _ _) in *.
  eapply wp_transfer; [apply sim_vTaskPrioritySet; apply _|exact HR|].
  eapply priority_set_split; [done|done|exact Hx|done| |].
  - intros E. rewrite (proj2 (Z.eqb_eq _ _)) by done. split_and!; try done.
    + by rewrite insert_id.
    + intros q Hq. by rewrite (kc_ready _ _ (ki_core _ Hinv) _ _ _ Hq Hx).
  - intros y k1 Hy Hne Hrp. rewrite (proj2 (Z.eqb_neq _ _)) by done.
    pose proof (reprioritised_some_ready _ _ _ _ _ Hr Hrp) as Hr1.
    pose proof (fun b => reprioritised_highest _ _ _ _ _ _ Hinv Hx Hy Hne b Hhi Hrp) as Hhi1.
    destruct Hrp as (h' & b & -> & Hinv1 & Hrel).
    eapply wp_mono; [apply yield_highest; [done|by destruct k; eapply relocated_pend|done|done|exact Hhi1]|].
    intros [] k2 (Hinv2 & Hp2 & Hhi2 & Et & Ec). split_and!; try done.
    + intros i Hi. rewrite Ec. by apply Hrel.
    + intros q Hq. rewrite Ec. destruct Hrel as [_ [[_ ?]|[Hno _]]]; [done|]. by destruct (Hno q).
Qed.

(** When a task is about to wait for a mutex, xTaskPriorityInherit gives the
    holder at least the priority of the waiting task: the holder's priority
    becomes the larger of the two, its base priority stays, a ready holder is
    in the ready list of its new priority and nothing else moves.  The result
    says whether the holder runs with a priority above its base because of
    this task. *)
Theorem inherit_raises_holder c k t x y :
  RK rep c k -> kinv k -> kpend k -> t <> NULL -> tcbs (k_vars k) !! t = Some x ->
  tcbs (k_vars k) !! pxCurrentTCB (k_vars k) = Some y -> uxBasePriority x <= uxPriority x ->
  on_code (xTaskPriorityInherit t) (fun r k' =>
    let z := set_uxPriority (Z.max (uxPriority x) (uxPriority y)) x in
    kinv k' /\ kpend k' /\ tcbs (k_vars k') = <[t := z]> (tcbs (k_vars k)) /\
    r = (if uxBasePriority x <? uxPriority y then pdTRUE else pdFALSE) /\
    (forall i, i <> StateItem t -> cont_of (k_lists k') i = cont_of (k_lists k) i) /\
    (forall q, cont_of (k_lists k) (StateItem t) = Some (Ready q) ->
      cont_of (k_lists k') (StateItem t) = Some (Ready (uxPriority z)))) c.
Proof.
  intros HR Hinv Hp Hn Hx Hy Hb. eapply wp_transfer; [apply sim_xTaskPriorityInherit; apply _|exact HR|].
  eapply wp_mono; [by eapply inherit_wp|]. intros r k'.
  destruct (Z.ltb_spec (uxPriority x) (uxPriority y)) as [Hlt|Hge].
  - intros [-> (h' & b & -> & Hinv' & Hrel)]. rewrite Z.max_r by lia. simpl. split_and!; try done.
    + by destruct k; eapply relocated_pend.
    + by rewrite (proj2 (Z.ltb_lt _ _)) by lia.
    + apply Hrel.
    + intros q Hq. destruct Hrel as [_ [[_ ?]|[Hno _]]]; [done|]. by destruct (Hno q).
  - intros [-> ->]. rewrite Z.max_l by lia.
    assert (Ex : set_uxPriority (uxPriority x) x = x) by (by destruct x). rewrite Ex.
    split_and!; try done.
    + by rewrite insert_id.
    + intros q Hq. by rewrite (kc_ready _ _ (ki_core _ Hinv) _ _ _ Hq Hx).
Qed.

(** When a running task gives back the only mutex it holds,
    xTaskPriorityDisinherit returns it to its base priority, in the ready list
    of that priority, with the invariant kept; while it holds other mutexes
    an inherited priority stays.  The result tells whether the priority
    changed. *)
Theorem disinherit_restores_base c k t x :
  RK rep c k -> kinv k -> kpend k -> t <> NULL -> tcbs (k_vars k) !! t = Some x ->
  cont_of (k_lists k) (StateItem t) = Some (Ready (uxPriority x)) -> 1 <= uxMutexesHeld x < u32_modulus ->
  on_code (xTaskPriorityDisinherit t) (fun r k' =>
    let back := negb (uxPriority x =? uxBasePriority x) && (uxMutexesHeld x =? 1) in
    let z := set_uxPriority (if back then uxBasePriority x else uxPriority x)
               (set_uxMutexesHeld (uxMutexesHeld x - 1) x) in
    kinv k' /\ kpend k' /\ tcbs (k_vars k') = <[t := z]> (tcbs (k_vars k)) /\
    r = (if back then pdTRUE else pdFALSE) /\
    cont_of (k_lists k') (StateItem t) = Some (Ready (uxPriority z)) /\
    (forall i, i <> StateItem t -> cont_of (k_lists k') i = cont_of (k_lists k) i)) c.
Proof.
  intros HR Hinv Hp Hn Hx Hc Hh. eapply wp_transfer; [apply sim_xTaskPriorityDisinherit; apply _|exact HR|].
  eapply wp_mono; [by eapply disinherit_wp|]. intros r k'. rewrite u32_small by u32_lia.
  replace (uxMutexesHeld x - 1 =? 0) with (uxMutexesHeld x =? 1)
    by (destruct (Z.eqb_spec (uxMutexesHeld x) 1), (Z.eqb_spec (uxMutexesHeld x - 1) 0); lia || done).
  destruct (negb _ && _); simpl.
  - intros [-> (h' & b & -> & Hinv' & Hrel)]. split_and!; try done.
    + by destruct k; eapply relocated_pend.
    + destruct Hrel as [_ [[_ ?]|[Hno _]]]; [done|]. by destruct (Hno (uxPriority x)).
    + apply Hrel.
  - intros (-> & -> & Hinv'). split_and!; try done.
Qed.

(** The protocol as a whole: a ready task that runs at its base priority and
    holds one mutex inherits the priority of a more urgent task and, giving
    the mutex back, has its old priority again and is in the same ready list
    as before; all other tasks are where they were. *)
Theorem inherit_disinherit_roundtrip c k t x y :
  RK rep c k -> kinv k -> kpend k -> t <> NULL -> tcbs (k_vars k) !! t = Some x ->
  tcbs (k_vars k) !! pxCurrentTCB (k_vars k) = Some y -> uxPriority x < uxPriority y ->
  uxPriority x = uxBasePriority x -> uxMutexesHeld x = 1 ->
  cont_of (k_lists k) (StateItem t) = Some (Ready (uxPriority x)) ->
  on_code (xTaskPriorityInherit t;; xTaskPriorityDisinherit t) (fun r k' =>
    r = pdTRUE /\ kinv k' /\ kpend k' /\
    tcbs (k_vars k') = <[t := set_uxMutexesHeld 0 x]> (tcbs (k_vars k)) /\
    forall i, cont_of (k_lists k') i = cont_of (k_lists k) i) c.
Proof.
  intros HR Hinv Hp Hn Hx Hy Hlt Hb Hh Hc.
  apply (wp_transfer (RK rep) _ (xTaskPriorityInherit t;; xTaskPriorityDisinherit t) _ c k); [|exact HR|].
  { apply sim_bind; [apply sim_xTaskPriorityInherit; apply _|intros ?; apply sim_xTaskPriorityDisinherit; apply _]. }
  wstep. eapply wp_mono; [by eapply inherit_wp|]. intros r1 k1. rewrite (proj2 (Z.ltb_lt _ _)) by done.
  intros [_ (h1 & b1 & -> & Hinv1 & Hrel1)].
  assert (Hc1 : cont_of h1 (StateItem t) = Some (Ready (uxPriority y))).
  { destruct Hrel1 as [_ [[_ ?]|[Hno _]]]; [done|]. by destruct (Hno (uxPriority x)). }
  eapply wp_mono; [eapply disinherit_wp; [done|done|simpl; by rewrite lookup_insert_eq|exact Hc1]|].
  intros r2 k2. simpl. rewrite Hh. rewrite (proj2 (Z.eqb_neq _ _)) by lia. simpl.
  intros [-> (h2 & b2 & -> & Hinv2 & Hrel2)]. split_and!; try done.
  - eapply (relocated_pend h1 h2 (k_vars k)); [exact Hrel2|]. by destruct k; eapply relocated_pend.
  - simpl. rewrite insert_insert_eq. f_equal. destruct x. simpl in *. by subst.
  - intros i. simpl in *. destruct (decide (i = StateItem t)) as [->|Hi].
    + destruct Hrel2 as [_ [[_ ->]|[Hno _]]]; [simpl; rewrite Hc, <- Hb; done|]. by destruct (Hno (uxPriority y)).
    + rewrite (proj1 Hrel2), (proj1 Hrel1) by done. done.
Qed.

Lemma stale_ok k p r u : kcore (stale r p) k -> cont_of (k_lists k) (StateItem u) = Some (Ready p) -> kcore none k.
Proof.
  intros HK Hu. eapply (kcore_keep none p).
  - eapply kcore_weaken; [|exact HK]. intros q [_ ->]. by right.
  - intros E. apply (awf_mem _ (kc_wf _ _ HK)) in Hu. rewrite E in Hu. set_solver.
Qed.

(** The wait for a mutex times out: if the holder holds no other mutex,
    vTaskPriorityDisinheritAfterTimeout gives it the larger of its base
    priority and the highest priority still waiting, and moves it if it is
    ready.  The invariant is kept as long as another ready task has the
    priority the holder had, or the holder is not ready: see
    [mutex_timeout_breaks_next_switch] for the other case. *)
Theorem timeout_disinherit c k t x w :
  RK rep c k -> kinv k -> kpend k -> t <> NULL -> tcbs (k_vars k) !! t = Some x -> prio_ok w ->
  uxMutexesHeld x = 1 ->
  (exists u, u <> t /\ cont_of (k_lists k) (StateItem u) = Some (Ready (uxPriority x))) \/
  (forall q, cont_of (k_lists k) (StateItem t) <> Some (Ready q)) ->
  on_code (vTaskPriorityDisinheritAfterTimeout t w) (fun _ k' =>
    let z := set_uxPriority (Z.max (uxBasePriority x) w) x in
    kinv k' /\ kpend k' /\ tcbs (k_vars k') = <[t := z]> (tcbs (k_vars k)) /\
    (forall i, i <> StateItem t -> cont_of (k_lists k') i = cont_of (k_lists k) i) /\
    (forall q, cont_of (k_lists k) (StateItem t) = Some (Ready q) ->
      cont_of (k_lists k') (StateItem t) = Some (Ready (uxPriority z)))) c.
Proof.
  intros HR Hinv Hp Hn Hx Hw Hh Hor.
  eapply wp_transfer; [apply sim_vTaskPriorityDisinheritAfterTimeout; apply _|exact HR|].
  destruct k as [h v]. simpl in *. pose proof (ki_core _ Hinv) as HK. destruct (kc_prio _ _ HK _ _ Hx) as [Hpx Hbx].
  unfold vTaskPriorityDisinheritAfterTimeout. rewrite (proj2 (Z.eqb_neq _ _)) by done. simpl. wsteps.
  set (pu := if _ <? _ then w else _).
  assert (Epu : pu = Z.max (uxBasePriority x) w) by (subst pu; destruct (Z.ltb_spec (uxBasePriority x) w); lia).
  rewrite Hh, andb_true_r. destruct (Z.eqb_spec (uxPriority x) pu) as [E|Hne]; simpl.
  - wstep. rewrite <- Epu, <- E. assert (Ex : set_uxPriority (uxPriority x) x = x) by (by destruct x). rewrite Ex.
    split_and!; try done.
    + by rewrite insert_id.
    + intros q Hq. by rewrite (kc_ready _ _ HK _ _ _ Hq Hx).
  - rewrite <- Epu. set (y := set_uxPriority pu x).
    assert (Hpu : prio_ok pu) by (subst pu; by destruct (_ <? _)).
    wsteps. apply set_event_value_wp; [apply (kc_wf _ _ HK)|by apply (kc_item _ _ HK t); simpl; rewrite Hx|].
    intros h1 He. pose proof (event_value_inv _ _ _ _ He Hinv) as Hinv1.
    eapply (move_ready_wp _ h1 v t x y pu Hinv1 Hx Hpu Hbx Hpu); [by right|].
    intros h' b HT HK' Hrel. pose proof (relocated_event _ _ _ _ _ He Hrel) as Hrel'. split_and!.
    + split; [|done]. destruct Hor as [(u & Hu & Hcu)|Hno].
      * apply (stale_ok _ (uxPriority x) pu u); [by eapply kcore_weaken; [|exact HK']; intros q []|].
        simpl. rewrite (proj1 Hrel' (StateItem u)) by congruence. exact Hcu.
      * eapply kcore_weaken; [|exact HK']. intros q [_ [q' Hq']]. destruct He as (_&_&Ec&_). rewrite Ec in Hq'.
        by destruct (Hno q').
    + by eapply (relocated_pend h).
    + done.
    + apply Hrel'.
    + intros q Hq. destruct Hrel' as [_ [[_ ?]|[Hno _]]]; [done|]. by destruct (Hno q).
Qed.







End PriorityTheorems.

(** ** A time-out that corrupts the ready lists

    The holder of a mutex (at 2000, base priority 1) inherits priority 3 from
    a task (at 3000) that waits for the mutex with a time-out of two ticks;
    the holder then raises the priority of the waiting task to 5. *)

Section Corruption.
Context {H : Type} `{!ListOps item list_id H}.

Definition mutex_setup : M (Kernel H) unit :=
  create 1000 0;; create 2000 1;;
  wrv (set_xSchedulerRunning pdTRUE);; wrv (set_xIdleTaskHandle 1000);;
  wrv (set_xNextTaskUnblockTime portMAX_DELAY);; vTaskSwitchContext;;
  prvInitialiseNewQueue 0 (fun _ => 0) 1 0 1 9000;; run (prvInitialiseMutex 9000);;
  run (xQueueSemaphoreTake 1 9000 0);;
  create 3000 3;; yield_to_new_task 3000.

(** The first round of the waiting task's xQueueSemaphoreTake: it blocks. *)
Definition mutex_wait : M (Kernel H) q_locals :=
  r ← run (xQueueSemaphoreTake_iter 9000 (mkLocals 2 None pdFALSE));
  match r with inl l => mret l | inr _ => fault end.

(** It times out at a higher priority. *)
Definition mutex_expired : M (Kernel H) q_locals :=
  mutex_setup;;
  l ← mutex_wait;
  vTaskPrioritySet 3000 5;;
  interrupts 2;;
  mret l.

(** The second round, after the time-out. *)
Definition mutex_timeout : M (Kernel H) (q_locals + Z) :=
  l ← mutex_expired;
  run (xQueueSemaphoreTake_iter 9000 l).
End Corruption.

(** The ready list of each priority, and the bits of uxTopReadyPriority. *)
Definition ready_ptr (c : CK) : list nat :=
  (fun p => from_option (fun l => Z.to_nat (uxNumberOfItems l)) O (h_lists (k_lists c) !! Ready p)) <$> seqZ 0 7.

(** The whole execution, from start-up and with legal calls only: the waiting
    task times out, xQueueSemaphoreTake returns errQUEUE_EMPTY with bit 3 of
    uxTopReadyPriority set although no task of priority 3 is ready, and the
    kernel faults when the task then delays itself. *)
Example mutex_timeout_corrupts_ready_lists :
  exists c : CK,
    mutex_timeout (mkKernel (mkLheap ∅ ∅) vars0) = Some (inr errQUEUE_EMPTY, c) /\
    pxCurrentTCB (k_vars c) = 3000 /\
    ready_ptr c = [1; 1; 0; 0; 0; 1; 0]%nat /\
    Z.testbit (uxTopReadyPriority (k_vars c)) 3 = true /\
    run (vTaskDelay 1) c = None.
Proof. eexists. split; [vm_compute; reflexivity|]. split_and!; vm_compute; reflexivity. Qed.

(** ** Instances *)

(** The same start, up to the point where the mutex holder has inherited. *)
Definition mutex_abs : KA := ends mutex_setup (mkKernel (mkAheap ∅ ∅) vars0).
Definition mutex_ptr : CK := ends mutex_setup (mkKernel (mkLheap ∅ ∅) vars0).

Lemma mutex_setup_sim : sim (RK rep) (mutex_setup (H := lheap item list_id)) (mutex_setup (H := AH)).
Proof.
  unfold mutex_setup, create. repeat sim_step; try apply sim_prvInitialiseNewTask; try apply sim_add_new_task;
    try apply sim_wrv; try apply sim_switch; try apply sim_prvInitialiseNewQueue; try apply sim_yield_to_new_task;
    try (apply psim_run; first [apply psim_prvInitialiseMutex|apply psim_xQueueSemaphoreTake]); apply list_c_refines.
Qed.

Lemma mutex_related : RK rep mutex_ptr mutex_abs.
Proof. apply ends_related; [apply mutex_setup_sim|apply start_related|by vm_compute]. Qed.
Lemma mutex_inv : kinv mutex_abs.
Proof. apply kinv_check_sound. by vm_compute. Qed.
Lemma mutex_pend : kpend mutex_abs.
Proof. apply pend_check_sound. by vm_compute. Qed.
Lemma mutex_running : running mutex_abs.
Proof. split; [exact mutex_inv|exact mutex_pend|exists 3000, 3; by vm_compute|by vm_compute]. Qed.
Lemma mutex_highest : runs_highest mutex_abs.
Proof.
  eexists. split; [by vm_compute|]. split; [by vm_compute|]. apply max_check_sound. by vm_compute.
Qed.

(** The TCBs of the holder and of the running task. *)
Definition holder_tcb : TCB_t := mkTCB 1 2500 [0] 0 2 0 1 1 0 0 0 0.
Definition waiter_tcb : TCB_t := mkTCB 3 3500 [0] 0 3 0 3 0 0 0 0 0.
Lemma holder_lookup : tcbs (k_vars mutex_abs) !! 2000 = Some holder_tcb.
Proof. vm_compute. reflexivity. Qed.
Lemma waiter_lookup : tcbs (k_vars mutex_abs) !! pxCurrentTCB (k_vars mutex_abs) = Some waiter_tcb.
Proof. vm_compute. reflexivity. Qed.

(** The running task lowers its own priority to 0: the task at 2000 runs. *)
Lemma priority_set_reschedules_witness :
  on_code (vTaskPrioritySet NULL 0) (fun _ k' => runs_highest k') mutex_ptr.
Proof.
  eapply wp_mono; [apply (priority_set_reschedules mutex_ptr mutex_abs NULL (pxCurrentTCB (k_vars mutex_abs)) waiter_tcb 0)|].
  - exact mutex_related.
  - exact mutex_running.
  - exact mutex_highest.
  - reflexivity.
  - exact waiter_lookup.
  - lia.
  - intros [] c' (k' & HR & _ & _ & Hhi & _). exists k'. split; [exact HR|exact Hhi].
Defined.

Lemma inherit_raises_holder_witness :
  on_code (xTaskPriorityInherit 2000) (fun r k' => r = pdTRUE /\
    cont_of (k_lists k') (StateItem 2000) = Some (Ready 3)) mutex_ptr.
Proof.
  eapply wp_mono; [apply (inherit_raises_holder mutex_ptr mutex_abs 2000 holder_tcb waiter_tcb)|].
  - exact mutex_related.
  - exact mutex_inv.
  - exact mutex_pend.
  - discriminate.
  - exact holder_lookup.
  - exact waiter_lookup.
  - simpl. lia.
  - intros r c' (k' & HR & _ & _ & _ & Hr & _ & Hc). exists k'. split; [exact HR|]. split; [exact Hr|].
    apply (Hc 1). vm_compute. reflexivity.
Defined.

Lemma inherit_disinherit_roundtrip_witness :
  on_code (xTaskPriorityInherit 2000;; xTaskPriorityDisinherit 2000) (fun r k' => r = pdTRUE /\
    tcbs (k_vars k') !! 2000 = Some (set_uxMutexesHeld 0 holder_tcb)) mutex_ptr.
Proof.
  eapply wp_mono; [apply (inherit_disinherit_roundtrip mutex_ptr mutex_abs 2000 holder_tcb waiter_tcb)|].
  - exact mutex_related.
  - exact mutex_inv.
  - exact mutex_pend.
  - discriminate.
  - exact holder_lookup.
  - exact waiter_lookup.
  - simpl. lia.
  - reflexivity.
  - reflexivity.
  - vm_compute. reflexivity.
  - intros r c' (k' & HR & Hr & _ & _ & Ht & _). exists k'. split; [exact HR|]. split; [exact Hr|].
    rewrite Ht. apply lookup_insert_eq.
Defined.

(** The state after the inheritance: the holder has priority 3 and is ready
    with the task at 3000. *)
Definition inherited_abs : KA := ends (xTaskPriorityInherit 2000) mutex_abs.
Definition inherited_ptr : CK := ends (xTaskPriorityInherit 2000) mutex_ptr.
Lemma inherited_related : RK rep inherited_ptr inherited_abs.
Proof. apply ends_related; [apply sim_xTaskPriorityInherit; apply _|apply mutex_related|by vm_compute]. Qed.
Lemma inherited_inv : kinv inherited_abs.
Proof. apply kinv_check_sound. by vm_compute. Qed.
Lemma inherited_pend : kpend inherited_abs.
Proof. apply pend_check_sound. by vm_compute. Qed.
Lemma inherited_holder : tcbs (k_vars inherited_abs) !! 2000 = Some (set_uxPriority 3 holder_tcb).
Proof. vm_compute. reflexivity. Qed.

Lemma disinherit_restores_base_witness :
  on_code (xTaskPriorityDisinherit 2000) (fun r k' => r = pdTRUE /\
    cont_of (k_lists k') (StateItem 2000) = Some (Ready 1)) inherited_ptr.
Proof.
  eapply wp_mono; [apply (disinherit_restores_base inherited_ptr inherited_abs 2000 (set_uxPriority 3 holder_tcb))|].
  - exact inherited_related.
  - exact inherited_inv.
  - exact inherited_pend.
  - discriminate.
  - exact inherited_holder.
  - vm_compute. reflexivity.
  - vm_compute. split; [discriminate|reflexivity].
  - intros r c' (k' & HR & _ & _ & _ & Hr & Hc & _). exists k'. split; [exact HR|]. split; [exact Hr|exact Hc].
Defined.

Lemma timeout_disinherit_witness :
  on_code (vTaskPriorityDisinheritAfterTimeout 2000 0) (fun _ k' =>
    cont_of (k_lists k') (StateItem 2000) = Some (Ready 1)) inherited_ptr.
Proof.
  eapply wp_mono; [apply (timeout_disinherit inherited_ptr inherited_abs 2000 (set_uxPriority 3 holder_tcb) 0)|].
  - exact inherited_related.
  - exact inherited_inv.
  - exact inherited_pend.
  - discriminate.
  - exact inherited_holder.
  - split; vm_compute; [discriminate|reflexivity].
  - reflexivity.
  - left. exists 3000. split; [discriminate|vm_compute; reflexivity].
  - intros r c' (k' & HR & _ & _ & _ & _ & Hc). exists k'. split; [exact HR|].
    apply (Hc 3). vm_compute. reflexivity.
Defined.


