(* ===== verification/TimeoutTheorems.v ===== *)
(** * Time-outs and periodic wake times

    The blocking functions measure how long they have waited with
    vTaskSetTimeOutState and xTaskCheckForTimeOut, xTaskDelayUntil computes
    its wake times from the previous one: both with a tick count that wraps.
    Here they are compared with time that does not. *)

From S2P Require Import Prelude Simulation Config ListC ListSpec ListRefine ListObs ListProps Heap4 Kernel Tasks TaskApi TaskEvents Queue KernelRefine KernelInv KernelSteps SchedProps ResumeProps KernelDemo SchedTheorems.

Section Timeout.
Implicit Types (c : CK) (k : KA).

(** The time-out state taken at time [T]. *)
Definition timeout_at (T : Z) : TimeOut_t := mkTimeOut (i32 (T / u32_modulus)) (T mod u32_modulus).

Lemma i32_inj_succ q : i32 (q + 1) <> i32 q.
Proof.
  unfold i32. intros E. assert ((q + 1 + 2147483648) mod 4294967296 = (q + 2147483648) mod 4294967296) as E' by lia.
  pose proof (Z.div_mod (q + 1 + 2147483648) 4294967296 ltac:(done)).
  pose proof (Z.div_mod (q + 2147483648) 4294967296 ltac:(done)). lia.
Qed.

(** Two times less than 2^32 apart: the elapsed time, and when the overflow
    count and the tick count together show a full turn. *)
Lemma elapsed_exact T0 T1 : T0 <= T1 < T0 + u32_modulus ->
  T1 mod u32_modulus -u T0 mod u32_modulus = T1 - T0 /\
  (i32 (T1 / u32_modulus) <> i32 (T0 / u32_modulus) -> T1 mod u32_modulus < T0 mod u32_modulus).
Proof.
  intros HT. split.
  - unfold u32. rewrite <- Zminus_mod. apply Z.mod_small. lia.
  - intros Hne. pose proof (Z.div_mod T0 u32_modulus ltac:(done)). pose proof (Z.div_mod T1 u32_modulus ltac:(done)).
    pose proof (Z.mod_pos_bound T0 u32_modulus ltac:(done)). pose proof (Z.mod_pos_bound T1 u32_modulus ltac:(done)).
    destruct (decide (T1 / u32_modulus = T0 / u32_modulus)) as [E|]; [by rewrite E in Hne|]. u32_lia.
Qed.

Lemma check_timeout_wp k x T0 T1 n :
  tcbs (k_vars k) !! pxCurrentTCB (k_vars k) = Some x -> ucDelayAborted x = pdFALSE ->
  clock k T1 -> T0 <= T1 < T0 + u32_modulus -> 0 <= n < portMAX_DELAY ->
  wp (xTaskCheckForTimeOut (timeout_at T0) n) (fun r k' =>
    r = (if n <=? T1 - T0 then (pdTRUE, timeout_at T0, 0) else (pdFALSE, timeout_at T1, n - (T1 - T0))) /\ k' = k) k.
Proof.
  intros Hx Ha [Htk Hov] HT Hn. destruct (elapsed_exact _ _ HT) as [Hel Hturn].
  unfold xTaskCheckForTimeOut. wsteps. rewrite Ha, Htk. simpl. rewrite Hel.
  rewrite (proj2 (Z.eqb_neq n _)) by lia. wsteps. rewrite Hov.
  assert (E : negb (i32 (T1 / u32_modulus) =? i32 (T0 / u32_modulus)) && (T0 mod u32_modulus <=? T1 mod u32_modulus) = false).
  { destruct (Z.eqb_spec (i32 (T1 / u32_modulus)) (i32 (T0 / u32_modulus))) as [|Hne]; [done|]. simpl.
    apply Z.leb_gt. by apply Hturn. }
  rewrite E. destruct (Z.ltb_spec (T1 - T0) n) as [Hlt|Hge].
  - rewrite (proj2 (Z.leb_gt _ _)) by lia. unfold vTaskInternalSetTimeOutState. wsteps. rewrite Htk, Hov.
    rewrite u32_small by (unfold portMAX_DELAY in *; u32_lia). done.
  - rewrite (proj2 (Z.leb_le _ _)) by lia. wsteps. done.
Qed.

(** C39: a wait measured with vTaskSetTimeOutState and xTaskCheckForTimeOut is
    exact: after [m] timer interrupts, m < 2^32, a time-out of [n] ticks has
    expired exactly if n <= m, and otherwise the ticks left to wait are n - m
    and the time-out state is restarted, whatever the tick count and the
    number of its overflows were, wrap-arounds included. *)
Theorem timeout_counts_ticks c k n m :
  RK rep c k -> running k -> xNumOfOverflows (k_vars k) = i32 (xNumOfOverflows (k_vars k)) ->
  (forall t x, tcbs (k_vars k) !! t = Some x -> ucDelayAborted x = pdFALSE) ->
  0 <= n < portMAX_DELAY -> Z.of_nat m < u32_modulus ->
  on_code (s ← vTaskSetTimeOutState; interrupts m;; r ← xTaskCheckForTimeOut s n; mret (s, r)) (fun r k' =>
    let '(s, (expired, s', rest)) := r in
    if n <=? Z.of_nat m then expired = pdTRUE /\ rest = 0
    else expired = pdFALSE /\ rest = n - Z.of_nat m /\
      s' = mkTimeOut (xNumOfOverflows (k_vars k')) (xTickCount (k_vars k'))) c.
Proof.
  intros HR Hrun Hov Hab Hn Hm.
  apply (wp_transfer (RK rep) _ (s ← vTaskSetTimeOutState; interrupts m;; r ← xTaskCheckForTimeOut s n; mret (s, r)) _ c k);
    [|exact HR|].
  { repeat sim_step; [apply sim_vTaskSetTimeOutState|apply interrupts_sim|apply sim_xTaskCheckForTimeOut]. }
  pose proof (kt_tick _ (ki_time _ (rn_inv _ Hrun))) as Htk.
  set (T := xNumOfOverflows (k_vars k) * u32_modulus + xTickCount (k_vars k)).
  assert (Hdiv : T / u32_modulus = xNumOfOverflows (k_vars k)) by (symmetry; apply (Z.div_unique_pos _ _ _ (xTickCount (k_vars k))); [exact Htk|unfold T; ring]).
  assert (Hmod : T mod u32_modulus = xTickCount (k_vars k)) by (symmetry; apply (Z.mod_unique_pos _ _ (xNumOfOverflows (k_vars k))); [exact Htk|unfold T; ring]).
  assert (Hclk : clock k T) by (split; [by rewrite Hmod|by rewrite Hdiv]).
  unfold vTaskSetTimeOutState. wsteps.
  replace (mkTimeOut _ _) with (timeout_at T) by (unfold timeout_at; by rewrite Hdiv, Hmod, <- Hov).
  eapply wp_mono; [by apply interrupts_clock|]. intros [] k1 (Hrun1 & Hclk1 & Ht1).
  destruct (kc_cur _ _ (ki_core _ (rn_inv _ Hrun1))) as [x Hx]. pose proof Hx as Hx0. rewrite Ht1 in Hx0.
  wstep. eapply wp_mono; [apply (check_timeout_wp k1 x T (T + Z.of_nat m)); [done|by eapply Hab|done|lia|done]|].
  intros r k2 [-> ->]. wstep. replace (T + Z.of_nat m - T) with (Z.of_nat m) by lia.
  destruct (n <=? Z.of_nat m); [done|]. split_and!; try done. unfold timeout_at.
  by destruct Hclk1 as [-> ->].
Qed.

(** ** xTaskDelayUntil *)

(** XTaskDelayUntil waits exactly if the next wake time, [inc] ticks after
    the previous one, lies in the future: with [T0] the true time of the
    previous wake-up and [T1] the true time of the call, less than 2^32 ticks
    later, the test it makes on the wrapped tick counts is T1 < T0 + inc, and
    the ticks it then waits for are T0 + inc - T1. *)
Theorem delay_until_exact T0 T1 inc :
  T0 <= T1 < T0 + u32_modulus -> 0 < inc < u32_modulus ->
  should_delay (T1 mod u32_modulus) (T0 mod u32_modulus) (T0 mod u32_modulus +u inc) = (T1 <? T0 + inc) /\
  (T1 < T0 + inc -> (T0 mod u32_modulus +u inc) -u T1 mod u32_modulus = T0 + inc - T1).
Proof.
  intros HT Hi. pose proof (Z.div_mod T0 u32_modulus ltac:(done)) as D0. pose proof (Z.div_mod T1 u32_modulus ltac:(done)) as D1.
  pose proof (Z.mod_pos_bound T0 u32_modulus ltac:(done)) as B0. pose proof (Z.mod_pos_bound T1 u32_modulus ltac:(done)) as B1.
  split.
  - unfold should_delay. set (p := T0 mod u32_modulus) in *. set (now := T1 mod u32_modulus) in *.
    assert (Hq : T1 / u32_modulus = T0 / u32_modulus /\ p <= now \/ T1 / u32_modulus = T0 / u32_modulus + 1 /\ now < p)
      by u32_lia.
    assert (Hw : p +u inc = p + inc /\ p + inc < u32_modulus \/ p +u inc = p + inc - u32_modulus /\ u32_modulus <= p + inc).
    { destruct (decide (p + inc < u32_modulus)); [left; rewrite u32_small by u32_lia; lia|].
      right. rewrite u32_wrap_once by u32_lia. lia. }
    apply eq_true_iff_eq. rewrite Z.ltb_lt.
    destruct (Z.ltb_spec now p); rewrite ?andb_true_iff, ?orb_true_iff, !Z.ltb_lt; u32_lia.
  - intros Hlt. unfold u32. rewrite Zplus_mod_idemp_l, <- Zminus_mod. apply Z.mod_small. lia.
Qed.

End Timeout.

Lemma timeout_counts_ticks_witness :
  on_code (s ← vTaskSetTimeOutState; interrupts 3;; r ← xTaskCheckForTimeOut s 5; mret (s, r)) (fun r k' =>
    let '(s, (expired, s', rest)) := r in expired = pdFALSE /\ rest = 2) boot_ptr.
Proof.
  eapply wp_mono; [apply (timeout_counts_ticks boot_ptr boot_abs 5 3)|].
  - exact boot_related.
  - exact boot_running.
  - vm_compute. reflexivity.
  - assert (Hall : forallb (fun p => ucDelayAborted p.2 =? pdFALSE) (map_to_list (tcbs (k_vars boot_abs))) = true)
      by (vm_compute; reflexivity).
    intros t x Hx. apply Z.eqb_eq. exact (forallb_map (fun _ x => ucDelayAborted x =? pdFALSE) _ Hall t x Hx).
  - vm_compute. split; [discriminate|reflexivity].
  - vm_compute. reflexivity.
  - intros [s [[e s'] l]] c' (k' & HR & Hr). exists k'. split; [exact HR|]. destruct Hr as (He & Hl & _).
    split; [exact He|exact Hl].
Defined.

(** The tick count has wrapped between the previous wake-up and the call. *)
Lemma delay_until_exact_witness :
  should_delay 5 4294967290 (4294967290 +u 20) = true /\ (4294967290 +u 20) -u 5 = 9.
Proof.
  destruct (delay_until_exact 4294967290 4294967301 20) as [H1 H2]; [unfold u32_modulus; lia|unfold u32_modulus; lia|].
  split; [exact H1|]. apply H2. lia.
Defined.
