(* ===== verification/EventProps.v ===== *)
(** * Waking tasks that wait for an event

    What xTaskRemoveFromEventList and its variants do to the scheduler's
    state: with the scheduler running, the task at the head of an event list
    becomes ready; with the scheduler suspended, it is left in
    xPendingReadyList.  [served] is the outcome of waking the first task of a
    list and giving way to it. *)

From S2P Require Import Prelude Simulation Config ListC ListSpec ListRefine ListObs ListProps Heap4 Kernel Tasks TaskApi TaskEvents Queue KernelRefine KernelInv KernelSteps SchedProps ResumeProps KernelDemo SchedTheorems PriorityProps PriorityTheorems.

Section Events.
Implicit Types (h : AH) (v : Vars) (k : KA).

(** Setting [xYieldPending] if the woken task is more urgent. *)
Definition note_higher v (x y : TCB_t) : Vars :=
  if uxPriority y <? uxPriority x then set_xYieldPending pdTRUE v else v.

Lemma note_higher_shape v x y : exists z, note_higher v x y = set_xYieldPending z v.
Proof.
  unfold note_higher. destruct (_ <? _); [by eexists|]. exists (xYieldPending v). by destruct v.
Qed.

Lemma note_if_higher_wp (Q : bool -> KA -> Prop) h v t x y :
  tcbs v !! t = Some x -> tcbs v !! pxCurrentTCB v = Some y ->
  Q (uxPriority y <? uxPriority x) (mkKernel h (note_higher v x y)) -> wp (note_if_higher t) Q (mkKernel h v).
Proof.
  intros Hx Hy HQ. unfold note_if_higher, note_higher in *. wsteps.
  destruct (uxPriority y <? uxPriority x); simpl; by wsteps.
Qed.

(** A task whose event item is in no list, or has just left its list, becomes
    ready. *)
Lemma make_ready_wp (Q : unit -> KA -> Prop) h v t x l :
  kinv (mkKernel h v) -> tcbs v !! t = Some x -> cont_of h (StateItem t) = Some l -> cont_of h (EventItem t) = None ->
  (forall a', kinv (mkKernel a' (record_ready (uxPriority x) v)) -> woken (Z.eqb t) v h a' ->
    Q tt (mkKernel a' (record_ready (uxPriority x) v))) ->
  wp (listREMOVE (StateItem t);; prvAddTaskToReadyList t) Q (mkKernel h v).
Proof.
  intros [HK HT] Hx Hl He HQ. wstep. eapply wp_listREMOVE; [apply (kc_wf _ _ HK)|exact Hl|]. intros a1 M1.
  pose proof (kcore_remove _ _ _ _ _ _ HK M1) as HK1.
  eapply wp_add_ready; [exact HK1|exact Hx|by rewrite (mv_cont _ _ _ _ _ _ M1), decide_True|].
  intros a2 xs1 xs2 _ _ M2 HK2%(kcore_weaken _ none).
  2: { intros p [[Hf|El] Hne]; [done|]. rewrite El in Hl. destruct Hne. symmetry. exact (kc_ready _ _ HK _ _ _ Hl Hx). }
  assert (Hw : woken (Z.eqb t) v h a2).
  { eapply gone_woken; [exact Hx|by right|by apply gone_refl; [apply (kc_wf _ _ HK)|]| |exact M2].
    eapply moved_gone; [apply (kc_wf _ _ HK)|exact Hl|exact M1]. }
  apply HQ; [|done]. split; [done|].
  eapply woken_time; [exact Hw|exact HT|apply (kc_delayed _ _ HK)|done..].
Qed.

(** The event item leaves its list. *)
Lemma unlink_event_wp (Q : unit -> KA -> Prop) h v t l :
  kinv (mkKernel h v) -> cont_of h (EventItem t) = Some l ->
  (forall a', kinv (mkKernel a' v) -> gone (EventItem t) h a' -> Q tt (mkKernel a' v)) ->
  wp (listREMOVE (EventItem t)) Q (mkKernel h v).
Proof.
  intros [HK HT] Hl HQ. eapply wp_listREMOVE; [apply (kc_wf _ _ HK)|exact Hl|]. intros a1 M1. apply HQ.
  - split; [|by eapply ktime_remove]. eapply kcore_remove_other; [exact HK|exact M1|].
    by eapply (event_not_ready _ _ _ _ HK).
  - eapply moved_gone; [apply (kc_wf _ _ HK)|exact Hl|exact M1].
Qed.

(** Unlinking the event item first makes no difference to what is woken. *)
Lemma gone_then_woken v h a1 a2 t : gone (EventItem t) h a1 -> woken (Z.eqb t) v a1 a2 -> woken (Z.eqb t) v h a2.
Proof.
  intros [] []. split.
  - exact wk_yes.
  - intros i Hi. rewrite wk_no by done. rewrite gn_cont. apply of_task_eqb in Hi as [_ Hi]. by rewrite decide_False.
  - intros i. by rewrite wk_val, gn_val.
  - intros l Hl. rewrite wk_items, gn_items by done. unfold drop_elem. rewrite list_filter_filter.
    apply list_filter_iff. intros i. rewrite of_task_eqb. tauto.
  - intros l. by rewrite wk_lists, gn_lists.
  - intros i. by rewrite wk_dom, gn_dom.
  - intros i. by rewrite wk_owner, gn_owner.
  - auto.
Qed.

(** The head of an event list, and where its task is. *)
Lemma event_head k l i xs : kinv k -> kpend k -> is_event_list l = true -> items_of (k_lists k) l = i :: xs ->
  exists t x l', i = EventItem t /\ tcbs (k_vars k) !! t = Some x /\ owner_of (k_lists k) (EventItem t) = t /\
    cont_of (k_lists k) (EventItem t) = Some l /\ cont_of (k_lists k) (StateItem t) = Some l' /\ forall p, l' <> Ready p.
Proof.
  intros Hinv Hp Hl E. pose proof (ki_core _ Hinv) as HK.
  assert (Hi : i ∈ items_of (k_lists k) l) by (rewrite E; set_solver).
  destruct (event_list_item _ _ _ _ HK Hl Hi) as (t & x & -> & Hx).
  destruct (kc_item _ _ HK t) as (_ & _ & _ & How); [eauto|].
  pose proof (proj1 (awf_mem _ (kc_wf _ _ HK) _ _) Hi) as Hc. destruct (Hp _ _ Hc) as (l' & Hl' & Hnr).
  exists t, x, l'. done.
Qed.

(** ** With the scheduler running *)

Lemma remove_from_event_list_wp k l t x y xs :
  kinv k -> kpend k -> uxSchedulerSuspended (k_vars k) = 0 -> is_event_list l = true ->
  items_of (k_lists k) l = EventItem t :: xs -> tcbs (k_vars k) !! t = Some x ->
  tcbs (k_vars k) !! pxCurrentTCB (k_vars k) = Some y ->
  wp (xTaskRemoveFromEventList l) (fun r k' => exists a',
    k' = mkKernel a' (note_higher (record_ready (uxPriority x) (k_vars k)) x y) /\
    r = (if uxPriority y <? uxPriority x then pdTRUE else pdFALSE) /\
    kinv k' /\ kpend k' /\ woken (Z.eqb t) (k_vars k) (k_lists k) a') k.
Proof.
  intros Hinv Hp Hs Hl E Hx Hy. destruct (event_head _ _ _ _ Hinv Hp Hl E) as (t' & x' & l' & [= <-] & Hx' & How & Hc & Hl' & Hnr).
  simplify_eq. destruct k as [h v]. simpl in *. unfold xTaskRemoveFromEventList. wstep.
  eapply wp_head_owner; [apply (kc_wf _ _ (ki_core _ Hinv))|exact E|]. rewrite How. wstep.
  eapply unlink_event_wp; [exact Hinv|exact Hc|]. intros a1 Hinv1 G1. wstep. unfold ready_or_pend. wsteps. rewrite Hs.
  cbn [Z.eqb]. change (0 =? pdFALSE) with true. cbn iota.
  eapply make_ready_wp; [exact Hinv1|exact Hx| | |].
  { by rewrite (gn_cont _ _ _ G1), decide_False. }
  { by rewrite (gn_cont _ _ _ G1), decide_True. }
  intros a2 Hinv2 Hw. wstep. eapply note_if_higher_wp; [exact Hx|exact Hy|]. wstep. exists a2.
  pose proof (gone_then_woken _ _ _ _ _ G1 Hw) as Hw'. destruct (note_higher_shape (record_ready (uxPriority x) v) x y) as [z Ez].
  split_and!; try done.
  - rewrite Ez. eapply kinv_vars; [..|exact Hinv2]; done.
  - eapply woken_pend; [exact Hw'|exact Hp|]. intros u <-%Z.eqb_eq. eauto.
Qed.

(** ** With the scheduler suspended *)

(** The first task of [l] is left to xTaskResumeAll. *)
Record deferred (t : Z) (h a' : AH) : Prop := {
  df_cont i : cont_of a' i = if decide (i = EventItem t) then Some xPendingReadyList else cont_of h i;
  df_val i : val_of a' i = val_of h i;
  df_items l : l <> xPendingReadyList -> items_of a' l = drop_elem (EventItem t) (items_of h l);
  df_lists l : is_Some (a_lists a' !! l) <-> is_Some (a_lists h !! l)
}.

Lemma deferred_pend h v v' a' t l : deferred t h a' -> cont_of h (EventItem t) = Some l ->
  kpend (mkKernel h v) -> kpend (mkKernel a' v').
Proof.
  intros [] Hl Hp u l'. simpl. rewrite !df_cont0. rewrite (decide_False (P := StateItem u = EventItem t)) by done.
  case_decide as E; [|apply Hp]. simplify_eq. intros _. by apply (Hp t l).
Qed.

Lemma remove_suspended_wp k l t x y xs :
  kinv k -> kpend k -> uxSchedulerSuspended (k_vars k) <> 0 -> is_event_list l = true ->
  items_of (k_lists k) l = EventItem t :: xs -> tcbs (k_vars k) !! t = Some x ->
  tcbs (k_vars k) !! pxCurrentTCB (k_vars k) = Some y ->
  wp (xTaskRemoveFromEventList l) (fun r k' => exists a', k' = mkKernel a' (note_higher (k_vars k) x y) /\
    r = (if uxPriority y <? uxPriority x then pdTRUE else pdFALSE) /\
    kinv k' /\ kpend k' /\ deferred t (k_lists k) a') k.
Proof.
  intros Hinv Hp Hs Hl E Hx Hy. destruct (event_head _ _ _ _ Hinv Hp Hl E) as (t' & x' & l' & [= <-] & Hx' & How & Hc & Hl' & Hnr).
  simplify_eq. destruct k as [h v]. simpl in *. unfold xTaskRemoveFromEventList. wstep.
  eapply wp_head_owner; [apply (kc_wf _ _ (ki_core _ Hinv))|exact E|]. rewrite How. wstep.
  eapply unlink_event_wp; [exact Hinv|exact Hc|]. intros a1 Hinv1 G1. wstep. unfold ready_or_pend. wsteps.
  rewrite (proj2 (Z.eqb_neq _ _)) by done. pose proof (ki_core _ Hinv1) as HK1.
  apply wp_insert_end; [apply (kc_wf _ _ HK1)|by apply (kc_item _ _ HK1 t); simpl; rewrite Hx|
    by rewrite (gn_cont _ _ _ G1), decide_True|by apply (kc_lists _ _ HK1)|].
  intros a2 xs1 xs2 _ _ M2 _. wstep. eapply note_if_higher_wp; [exact Hx|exact Hy|]. wstep. exists a2.
  destruct (note_higher_shape v x y) as [z Ez].
  assert (Hd : deferred t h a2).
  { split.
    - intros i. rewrite (mv_cont _ _ _ _ _ _ M2), (gn_cont _ _ _ G1). by repeat case_decide.
    - intros i. by rewrite (mv_val _ _ _ _ _ _ M2), (gn_val _ _ _ G1).
    - intros l2 Hne. by rewrite (mv_items _ _ _ _ _ _ M2), decide_False, (gn_items _ _ _ G1).
    - intros l2. by rewrite (mv_lists _ _ _ _ _ _ M2), (gn_lists _ _ _ G1). }
  split_and!; try done.
  - rewrite Ez. apply (kinv_vars a2 v); try done. split.
    + eapply kcore_insert_other; [exact HK1| |exact M2]. simpl. split; [eauto|done].
    + destruct (not_delayed _ _ xPendingReadyList HK1) as [N1 N2]; [done|done|].
      eapply ktime_insert_other; [apply Hinv1|exact N1|exact N2|exact M2].
  - by eapply deferred_pend.
Qed.

(** ** Waking the first task and giving way to it *)

(** The first task waiting in [l], if any, has become ready, and nothing else
    has moved; a most urgent ready task runs if one did before. *)
Record served (l : list_id) k k' : Prop := {
  sv_running : running k';
  sv_highest : runs_highest k -> runs_highest k';
  sv_preempts t xs x y : items_of (k_lists k) l = EventItem t :: xs -> tcbs (k_vars k) !! t = Some x ->
    tcbs (k_vars k) !! pxCurrentTCB (k_vars k) = Some y -> uxPriority y < uxPriority x -> runs_highest k';
  sv_vars : exists cur y b, k_vars k' = set_pxCurrentTCB cur (set_xYieldPending y (set_uxTopReadyPriority b (k_vars k)));
  sv_wakes t xs x : items_of (k_lists k) l = EventItem t :: xs -> tcbs (k_vars k) !! t = Some x ->
    cont_of (k_lists k') (StateItem t) = Some (Ready (uxPriority x)) /\ cont_of (k_lists k') (EventItem t) = None;
  sv_others i : match items_of (k_lists k) l with EventItem t :: _ => of_task (Z.eqb t) i = false | _ => True end ->
    cont_of (k_lists k') i = cont_of (k_lists k) i;
  sv_values i : val_of (k_lists k') i = val_of (k_lists k) i;
  sv_lists l' : is_Some (a_lists (k_lists k') !! l') <-> is_Some (a_lists (k_lists k) !! l');
  sv_timers : same_timers k k'
}.

Lemma served_none l k : running k -> items_of (k_lists k) l = [] -> served l k k.
Proof.
  intros Hrun E. split; try done; [by rewrite E| |by rewrite E].
  exists (pxCurrentTCB (k_vars k)), (xYieldPending (k_vars k)), (uxTopReadyPriority (k_vars k)). by destruct (k_vars k).
Qed.

(** The task [t] has become ready, and nothing else has moved; a most urgent
    ready task runs if one did before, or if [t] is more urgent than the
    running task was. *)
Record roused (t : Z) k k' : Prop := {
  rs_running : running k';
  rs_highest : runs_highest k -> runs_highest k';
  rs_preempts x y : tcbs (k_vars k) !! t = Some x -> tcbs (k_vars k) !! pxCurrentTCB (k_vars k) = Some y ->
    uxPriority y < uxPriority x -> runs_highest k';
  rs_vars : exists cur y b, k_vars k' = set_pxCurrentTCB cur (set_xYieldPending y (set_uxTopReadyPriority b (k_vars k)));
  rs_wakes x : tcbs (k_vars k) !! t = Some x ->
    cont_of (k_lists k') (StateItem t) = Some (Ready (uxPriority x)) /\ cont_of (k_lists k') (EventItem t) = None;
  rs_others i : of_task (Z.eqb t) i = false -> cont_of (k_lists k') i = cont_of (k_lists k) i;
  rs_values i : val_of (k_lists k') i = val_of (k_lists k) i;
  rs_lists l' : is_Some (a_lists (k_lists k') !! l') <-> is_Some (a_lists (k_lists k) !! l');
  rs_timers : same_timers k k'
}.

Lemma roused_served l t xs k k' : items_of (k_lists k) l = EventItem t :: xs -> roused t k k' -> served l k k'.
Proof.
  intros E []. split; try done.
  - intros t' xs' x y E'. rewrite E in E'. injection E' as <- <-. apply rs_preempts0.
  - intros t' xs' x E'. rewrite E in E'. injection E' as <- <-. apply rs_wakes0.
  - intros i. rewrite E. apply rs_others0.
Qed.

(** Waking a task that is not more urgent changes nothing about who should run. *)
Lemma woken_no_change h v t x y a' z : tcbs v !! t = Some x -> tcbs v !! pxCurrentTCB v = Some y ->
  woken (Z.eqb t) v h a' -> uxPriority x <= uxPriority y -> runs_highest (mkKernel h v) ->
  runs_highest (mkKernel a' (set_xYieldPending z (record_ready (uxPriority x) v))).
Proof.
  intros Hx Hy Hw Hge Hhi. pose proof (runs_no_higher _ Hhi) as Hno. destruct Hhi as (y' & Hy' & Hcy & _).
  simpl in *. simplify_eq. exists y. simpl. split; [done|]. split.
  - eapply woken_ready; [exact Hw|exact Hcy|exact Hy|done].
  - intros u p Hu. destruct (decide (u = t)) as [->|Hne].
    { destruct (wk_yes _ _ _ _ Hw t x (Z.eqb_refl t) Hx) as [E _]. rewrite E in Hu. by simplify_eq. }
    rewrite (wk_no _ _ _ _ Hw) in Hu by (apply of_task_eqb; split; congruence). by apply (Hno y u p).
Qed.

(** A task has been woken; yield, at least if it is more urgent. *)
Lemma woken_yield_wp k t x y a' z (b : bool) :
  running k -> tcbs (k_vars k) !! t = Some x -> tcbs (k_vars k) !! pxCurrentTCB (k_vars k) = Some y ->
  let k1 := mkKernel a' (set_xYieldPending z (record_ready (uxPriority x) (k_vars k))) in
  kinv k1 -> kpend k1 -> woken (Z.eqb t) (k_vars k) (k_lists k) a' -> (uxPriority y < uxPriority x -> b = true) ->
  wp (when b portYIELD) (fun _ k' => roused t k k') k1.
Proof.
  intros Hrun Hx Hy k1 Hinv1 Hp1 Hw Hb.
  assert (Hrun1 : running k1).
  { split; [done|done| |apply Hrun]. exists t, (uxPriority x). by apply (wk_yes _ _ _ _ Hw); [apply Z.eqb_refl|]. }
  assert (Hst : same_timers k k1) by (destruct k as [h v]; by eapply woken_timers; [apply (rn_inv _ Hrun)|..]).
  assert (Hyes : forall x', tcbs (k_vars k) !! t = Some x' ->
    cont_of a' (StateItem t) = Some (Ready (uxPriority x')) /\ cont_of a' (EventItem t) = None)
    by (intros x'; by apply (wk_yes _ _ _ _ Hw), Z.eqb_refl).
  destruct b; simpl.
  - unfold portYIELD. eapply wp_mono; [apply switch_wp; [apply Hinv1|apply Hrun1|apply Hrun1]|].
    intros [] k2 Hsw. pose proof (switched_inv _ _ Hinv1 Hsw) as Hinv2. pose proof (switched_pend _ _ Hp1 Hsw) as Hp2.
    pose proof (fun i => switched_cont _ _ i Hsw) as Hc. destruct Hsw as (h' & u & p & -> & Hsb & HK' & Hhi & _).
    pose proof Hsb as (_ & Eit & Hls). split; try done.
    + split; [done|done| |apply Hrun]. destruct (rn_ready _ Hrun1) as (w & q & Hwq). exists w, q. by rewrite Hc.
    + by eexists _, _, _.
    + intros x' Hx'. rewrite !Hc. by apply Hyes.
    + intros i Hi. rewrite Hc. by apply (wk_no _ _ _ _ Hw).
    + intros i. unfold val_of. simpl. rewrite Eit. apply (wk_val _ _ _ _ Hw).
    + intros l. rewrite Hls. apply (wk_lists _ _ _ _ Hw).
    + eapply same_timers_trans; [exact Hst|]. by apply same_cursors_timers; [apply HK'|..].
  - assert (Hge : uxPriority x <= uxPriority y) by (destruct (Z_lt_le_dec (uxPriority y) (uxPriority x)) as [Hlt|]; [by specialize (Hb Hlt)|done]).
    apply wp_ret. split; try done.
    + intros Hhi. destruct k as [h v]. by eapply woken_no_change.
    + intros x' y' Hx' Hy' Hlt. simplify_eq. lia.
    + exists (pxCurrentTCB (k_vars k)), z, (portRECORD_READY_PRIORITY (uxPriority x) (uxTopReadyPriority (k_vars k))).
      by destruct (k_vars k).
    + intros i. apply (wk_no _ _ _ _ Hw).
    + apply (wk_val _ _ _ _ Hw).
    + apply (wk_lists _ _ _ _ Hw).
Qed.

Lemma wake_and_yield_wp l k : running k -> is_event_list l = true -> is_Some (a_lists (k_lists k) !! l) ->
  wp (b ← wake_first l; when b portYIELD) (fun _ k' => served l k k') k.
Proof.
  intros Hrun Hl Hex. pose proof (rn_inv _ Hrun) as Hinv. unfold wake_first. wsteps. destruct k as [h v]. simpl in Hex.
  apply wp_listIS_EMPTY; [done|]. destruct (items_of h l) as [|i xs] eqn:E.
  { rewrite bool_decide_true by done. wsteps. simpl. wstep. by apply served_none. }
  rewrite bool_decide_false by done. set (k := mkKernel h v) in *.
  destruct (event_head k l i xs Hinv (rn_pend _ Hrun) Hl E) as (t & x & l' & -> & Hx & _).
  destruct (kc_cur _ _ (ki_core _ Hinv)) as [y Hy]. wsteps.
  eapply wp_mono; [eapply (remove_from_event_list_wp k l t x y xs); try done; apply Hrun|].
  intros r k1 (a' & -> & -> & Hinv1 & Hp1 & Hw). wstep.
  destruct (note_higher_shape (record_ready (uxPriority x) (k_vars k)) x y) as [z Ez]. rewrite Ez in *.
  eapply wp_mono; [eapply (woken_yield_wp k t x y a' z _ Hrun Hx Hy Hinv1 Hp1 Hw)|].
  - intros Hlt. by rewrite (proj2 (Z.ltb_lt _ _) Hlt).
  - intros [] k2 Hrs. by eapply roused_served.
Qed.

End Events.
