(* ===== verification/QueueData.v ===== *)
(** * The ring buffer of a queue

    The storage area of a queue is a ring of slots of [uxItemSize] bytes.
    [ring q xs]: the queue object [q] holds the items [xs], oldest first.
    prvCopyDataToQueue and prvCopyDataFromQueue append, prepend, overwrite and
    take items of that sequence, and never copy outside the storage area. *)

From S2P Require Import Prelude Config ListC ListSpec Heap4 Kernel Tasks TaskApi TaskEvents Queue.

(** ** Storage as a sequence of slots *)

Section Slots.
Implicit Types (slots : list (list Z)) (item : list Z).

Lemma length_concat_slots slots sz : Forall (fun s => length s = sz) slots ->
  length (concat slots) = (length slots * sz)%nat.
Proof. induction 1 as [|s slots Hs _ IH]; simpl; [done|]. rewrite length_app, IH. lia. Qed.

Lemma concat_at slots sz i s : Forall (fun s => length s = sz) slots -> slots !! i = Some s ->
  exists st1 st2, concat slots = st1 ++ s ++ st2 /\ length st1 = (i * sz)%nat /\ length s = sz /\
    forall s', length s' = sz -> concat (<[i := s']> slots) = st1 ++ s' ++ st2.
Proof.
  intros Hall Hs. pose proof (list_elem_of_split_length _ _ _ Hs) as (s1 & s2 & -> & ->).
  apply Forall_app in Hall as [H1 [H2 H3]%Forall_cons].
  exists (concat s1), (concat s2). rewrite concat_app. simpl. split_and!; [done|by apply length_concat_slots|done|].
  intros s' _. rewrite insert_app_r_alt by lia. rewrite Nat.sub_diag. simpl. rewrite concat_app. done.
Qed.

Lemma copy_out_slot slots sz i s : Forall (fun s => length s = sz) slots -> slots !! i = Some s ->
  copy_out (concat slots) (Z.of_nat i * Z.of_nat sz) (Z.of_nat sz) = Some s.
Proof.
  intros Hall Hs. destruct (concat_at _ _ _ _ Hall Hs) as (st1 & st2 & -> & H1 & H2 & _).
  unfold copy_out. rewrite !length_app.
  rewrite (proj2 (Z.leb_le _ _)) by lia. rewrite (proj2 (Z.leb_le _ _)) by lia. simpl.
  replace (Z.to_nat (Z.of_nat i * Z.of_nat sz)) with (length st1) by lia.
  rewrite drop_app_length. rewrite Nat2Z.id. rewrite take_app_length' by done. done.
Qed.

Lemma copy_in_slot slots sz i item : Forall (fun s => length s = sz) slots -> (i < length slots)%nat ->
  (sz <= length item)%nat ->
  copy_in (concat slots) (Z.of_nat i * Z.of_nat sz) (Z.of_nat sz) item = Some (concat (<[i := take sz item]> slots)).
Proof.
  intros Hall Hi Hitem. destruct (lookup_lt_is_Some_2 _ _ Hi) as [s Hs].
  destruct (concat_at _ _ _ _ Hall Hs) as (st1 & st2 & -> & H1 & H2 & Hins).
  rewrite Hins by (rewrite length_take; lia). unfold copy_in. rewrite !length_app.
  rewrite !(proj2 (Z.leb_le _ _)) by lia. simpl.
  replace (Z.to_nat (Z.of_nat i * Z.of_nat sz)) with (length st1) by lia.
  rewrite take_app_length, Nat2Z.id. f_equal. f_equal. f_equal.
  replace (Z.to_nat (Z.of_nat i * Z.of_nat sz + Z.of_nat sz)) with (length (st1 ++ s)) by (rewrite length_app; lia).
  by rewrite app_assoc, drop_app_length.
Qed.

Lemma insert_slots slots sz i s : Forall (fun s => length s = sz) slots -> length s = sz ->
  Forall (fun s => length s = sz) (<[i := s]> slots).
Proof. intros. by apply Forall_insert. Qed.

End Slots.

(** ** Positions in the ring *)

Definition wrap (n i : nat) : nat := i mod n.

Lemma wrap_lt n i : (0 < n)%nat -> (wrap n i < n)%nat.
Proof. intros. apply Nat.mod_upper_bound. lia. Qed.

Lemma wrap_small n i : (i < n)%nat -> wrap n i = i.
Proof. apply Nat.mod_small. Qed.

Lemma wrap_add n i j : (0 < n)%nat -> wrap n (wrap n i + j) = wrap n (i + j).
Proof. intros. unfold wrap. rewrite Nat.Div0.add_mod_idemp_l. done. Qed.

(** Fewer than [n] steps apart: different slots. *)
Lemma wrap_ne n i j : (0 < n)%nat -> (i < j < i + n)%nat -> wrap n i <> wrap n j.
Proof.
  intros Hn Hij E. unfold wrap in E. pose proof (Nat.div_mod_eq i n). pose proof (Nat.div_mod_eq j n).
  assert (n * (j / n) = n * (i / n) + (j - i))%nat by lia.
  assert (j / n = i / n \/ i / n < j / n)%nat as [E'|Hlt] by (pose proof (Nat.Div0.div_le_mono i j n); lia).
  - rewrite E' in *. lia.
  - nia.
Qed.

(** ** The representation *)

(** The storage area lies above address 0 by at least one item, so that
    pointers into it can step below it. *)
Record ring (q : Queue_t) (xs : list (list Z)) : Prop := mkRing {
  rg_n : 0 < uxLength q;
  rg_sz : 0 < uxItemSize q;
  rg_head : uxItemSize q <= pcHead q;
  rg_mem : pcHead q + uxLength q * uxItemSize q < u32_modulus;
  rg_tail : pcTail q = pcHead q + uxLength q * uxItemSize q;
  rg_count : uxMessagesWaiting q = Z.of_nat (length xs);
  rg_full : Z.of_nat (length xs) <= uxLength q;
  rg_slots : exists (slots : list (list Z)) (r : nat),
    let n := Z.to_nat (uxLength q) in
    let sz := Z.to_nat (uxItemSize q) in
    storage q = concat slots /\ Forall (fun s => length s = sz) slots /\ length slots = n /\ (r < n)%nat /\
    pcReadFrom q = pcHead q + Z.of_nat r * uxItemSize q /\
    pcWriteTo q = pcHead q + Z.of_nat (wrap n (r + 1 + length xs)) * uxItemSize q /\
    forall j x, xs !! j = Some x -> slots !! wrap n (r + 1 + j) = Some x
}.

(** Stepping a pointer forward by one slot. *)
Lemma step_forward (head n sz : Z) (i : nat) : 0 <= head -> 0 < n -> 0 < sz -> head + n * sz < u32_modulus ->
  (Z.of_nat i < n) ->
  (let p := head + Z.of_nat i * sz +u sz in if head + n * sz <=? p then head else p) =
  head + Z.of_nat (wrap (Z.to_nat n) (i + 1)) * sz.
Proof.
  intros Hh Hn Hs Hm Hi. assert (Hle : Z.of_nat (i + 1) * sz <= n * sz) by nia.
  rewrite u32_small by (unfold u32_range; nia). cbn zeta.
  destruct (decide (Z.of_nat (i + 1) = n)) as [E|Hne].
  - replace (wrap (Z.to_nat n) (i + 1)) with O by (unfold wrap; replace (i + 1)%nat with (Z.to_nat n) by lia; by rewrite Nat.Div0.mod_same).
    rewrite (proj2 (Z.leb_le _ _)) by nia. lia.
  - rewrite wrap_small by lia. rewrite (proj2 (Z.leb_gt _ _)) by nia. lia.
Qed.

(** ... and backward. *)
Lemma step_backward (head n sz : Z) (i : nat) : 0 <= head -> 0 < n -> 0 < sz -> head + n * sz < u32_modulus ->
  (Z.of_nat i < n) -> sz <= head \/ (0 < i)%nat ->
  (let p := head + Z.of_nat i * sz -u sz in if p <? head then head + n * sz -u sz else p) =
  head + Z.of_nat (wrap (Z.to_nat n) (i + (Z.to_nat n - 1))) * sz.
Proof.
  intros Hh Hn Hs Hm Hi Hb. rewrite u32_small by (unfold u32_range; nia). cbn zeta.
  destruct i as [|i].
  - rewrite (proj2 (Z.ltb_lt _ _)) by nia. rewrite u32_small by (unfold u32_range; nia).
    rewrite wrap_small by lia. nia.
  - rewrite (proj2 (Z.ltb_ge _ _)) by nia.
    replace (S i + (Z.to_nat n - 1))%nat with (i + 1 * Z.to_nat n)%nat by lia.
    unfold wrap. rewrite Nat.Div0.mod_add, Nat.mod_small by lia. nia.
Qed.

(** ** The operations *)

Lemma lookup_snoc_cases {A} (xs : list A) y j x : (xs ++ [y]) !! j = Some x ->
  xs !! j = Some x \/ (j = length xs /\ x = y).
Proof.
  intros Hj. apply lookup_app_Some in Hj as [|[Hle Hj]]; [by left|].
  apply list_lookup_singleton_Some in Hj as [? ->]. right. split; [lia|done].
Qed.

(** Everything but the positions, the count and the bytes. *)
Definition same_queue (q q' : Queue_t) : Prop :=
  pcHead q' = pcHead q /\ u_word0 q' = u_word0 q /\ uxLength q' = uxLength q /\ uxItemSize q' = uxItemSize q /\
  cRxLock q' = cRxLock q /\ cTxLock q' = cTxLock q.

Section Ops.
Implicit Types (q : Queue_t) (xs : list (list Z)) (item : list Z).

(** A new item behind the others. *)
Lemma copy_to_back q xs item :
  ring q xs -> Z.of_nat (length xs) < uxLength q -> uxItemSize q <= Z.of_nat (length item) ->
  exists q', copy_to q item queueSEND_TO_BACK = Some q' /\ same_queue q q' /\
    ring q' (xs ++ [take (Z.to_nat (uxItemSize q)) item]).
Proof.
  intros [Hn Hsz Hh Hm Ht Hc Hf (slots & r & Hst & Hall & Hlen & Hr & Hrd & Hwr & Hlive)] Hroom Hitem.
  set (n := Z.to_nat (uxLength q)) in *. set (sz := Z.to_nat (uxItemSize q)) in *.
  set (w := wrap n (r + 1 + length xs)) in *. assert (Hw : (w < n)%nat) by (apply wrap_lt; lia).
  assert (Ecopy : copy_in (storage q) (pcWriteTo q - pcHead q) (uxItemSize q) item = Some (concat (<[w := take sz item]> slots))).
  { rewrite Hst, Hwr. replace (uxItemSize q) with (Z.of_nat sz) by lia.
    replace (pcHead q + Z.of_nat w * Z.of_nat sz - pcHead q) with (Z.of_nat w * Z.of_nat sz) by lia.
    apply copy_in_slot; [done|lia|lia]. }
  unfold copy_to. simpl. rewrite Ecopy. simpl. eexists. split; [done|]. split; [done|].
  rewrite Hwr, Ht, step_forward by (done || lia).
  split; simpl; try done.
  - rewrite Hc, length_app. simpl. rewrite u32_small by (unfold u32_range; nia). lia.
  - rewrite length_app. simpl. lia.
  - exists (<[w := take sz item]> slots), r. fold n sz. split_and!; try done.
    + apply insert_slots; [done|]. rewrite length_take. lia.
    + by rewrite length_insert.
    + rewrite length_app. simpl. unfold w. rewrite wrap_add by lia. by rewrite Nat.add_assoc.
    + intros j x [Hj|[-> ->]]%lookup_snoc_cases.
      * apply lookup_lt_Some in Hj as Hj'. rewrite list_lookup_insert_ne; [by apply Hlive|].
        intros E. symmetry in E. revert E. apply wrap_ne; lia.
      * apply list_lookup_insert_eq. lia.
Qed.

(** A new item before the others. *)
Lemma copy_to_front q xs item :
  ring q xs -> Z.of_nat (length xs) < uxLength q -> uxItemSize q <= Z.of_nat (length item) ->
  exists q', copy_to q item queueSEND_TO_FRONT = Some q' /\ same_queue q q' /\
    ring q' (take (Z.to_nat (uxItemSize q)) item :: xs).
Proof.
  intros [Hn Hsz Hh Hm Ht Hc Hf (slots & r & Hst & Hall & Hlen & Hr & Hrd & Hwr & Hlive)] Hroom Hitem.
  set (n := Z.to_nat (uxLength q)) in *. set (sz := Z.to_nat (uxItemSize q)) in *.
  assert (Ecopy : copy_in (storage q) (pcReadFrom q - pcHead q) (uxItemSize q) item = Some (concat (<[r := take sz item]> slots))).
  { rewrite Hst, Hrd. replace (uxItemSize q) with (Z.of_nat sz) by lia.
    replace (pcHead q + Z.of_nat r * Z.of_nat sz - pcHead q) with (Z.of_nat r * Z.of_nat sz) by lia.
    apply copy_in_slot; [done|lia|lia]. }
  unfold copy_to. simpl. rewrite Ecopy. simpl. eexists. split; [done|]. split; [done|].
  rewrite Hrd, Ht. rewrite step_backward by (lia || (by left)).
  set (r' := wrap n (r + (n - 1))).
  assert (Hr' : forall j, wrap n (r' + 1 + j) = wrap n (r + j)).
  { intros j. unfold r'. rewrite <- Nat.add_assoc, wrap_add by lia.
    replace (r + (n - 1) + (1 + j))%nat with (r + j + 1 * n)%nat by lia. unfold wrap. by rewrite Nat.Div0.mod_add. }
  split; simpl; try done.
  - rewrite Hc. rewrite u32_small by (unfold u32_range; nia). lia.
  - lia.
  - exists (<[r := take sz item]> slots), r'. fold n sz. split_and!; try done.
    + apply insert_slots; [done|]. rewrite length_take. lia.
    + by rewrite length_insert.
    + apply wrap_lt. lia.
    + rewrite Hr', Hwr. by rewrite <- Nat.add_assoc.
    + intros [|j] x Hj; rewrite Hr'; simpl in Hj.
      * simplify_eq. rewrite Nat.add_0_r, wrap_small by lia. apply list_lookup_insert_eq. lia.
      * apply lookup_lt_Some in Hj as Hj'. replace (r + S j)%nat with (r + 1 + j)%nat by lia.
        rewrite list_lookup_insert_ne; [by apply Hlive|].
        rewrite <- (wrap_small n r) at 1 by lia. apply wrap_ne; lia.
Qed.

(** The only slot of a mailbox is written whether or not it holds an item. *)
Lemma copy_to_overwrite q xs item :
  ring q xs -> uxLength q = 1 -> uxItemSize q <= Z.of_nat (length item) ->
  exists q', copy_to q item queueOVERWRITE = Some q' /\ same_queue q q' /\
    ring q' [take (Z.to_nat (uxItemSize q)) item].
Proof.
  intros [Hn Hsz Hh Hm Ht Hc Hf (slots & r & Hst & Hall & Hlen & Hr & Hrd & Hwr & Hlive)] H1 Hitem.
  rewrite H1 in *. simpl in Hr. assert (r = O) as -> by lia. set (sz := Z.to_nat (uxItemSize q)) in *.
  assert (Ecopy : copy_in (storage q) (pcReadFrom q - pcHead q) (uxItemSize q) item = Some (concat (<[O := take sz item]> slots))).
  { rewrite Hst, Hrd. replace (uxItemSize q) with (Z.of_nat sz) by lia.
    replace (pcHead q + Z.of_nat 0 * Z.of_nat sz - pcHead q) with (Z.of_nat 0 * Z.of_nat sz) by lia.
    apply copy_in_slot; [done|lia|lia]. }
  unfold copy_to. simpl. rewrite Ecopy. simpl. eexists. split; [done|]. split; [done|].
  rewrite Hrd, Ht. pose proof (step_backward (pcHead q) 1 (uxItemSize q) 0 ltac:(lia) ltac:(lia) Hsz Hm ltac:(lia) ltac:(by left)) as Eb.
  cbn zeta in Eb. rewrite Eb.
  assert (Ecnt : (if 0 <? uxMessagesWaiting q then uxMessagesWaiting q -u 1 else uxMessagesWaiting q) +u 1 = 1).
  { destruct (Z.ltb_spec 0 (uxMessagesWaiting q)) as [Hlt|Hge].
    - assert (uxMessagesWaiting q = 1) as -> by lia. done.
    - assert (uxMessagesWaiting q = 0) as -> by lia. done. }
  split; simpl; rewrite ?H1; try done.
  exists (<[O := take sz item]> slots), O. simpl. fold sz. split_and!; try done.
  - apply insert_slots; [done|]. rewrite length_take. lia.
  - by rewrite length_insert.
  - intros [|j] x Hj; simpl in Hj; [|done]. simplify_eq. apply list_lookup_insert_eq. lia.
Qed.

(** The oldest item is read; [xQueueReceive] then lowers the count, [xQueuePeek]
    puts the read position back. *)
Lemma copy_from_ring q x xs : ring q (x :: xs) ->
  exists q', copy_from q = Some (x, q') /\ same_queue q q' /\ storage q' = storage q /\
    ring (set_uxMessagesWaiting (uxMessagesWaiting q -u 1) q') xs /\
    set_pcReadFrom (pcReadFrom q) q' = q.
Proof.
  intros [Hn Hsz Hh Hm Ht Hc Hf (slots & r & Hst & Hall & Hlen & Hr & Hrd & Hwr & Hlive)].
  set (n := Z.to_nat (uxLength q)) in *. set (sz := Z.to_nat (uxItemSize q)) in *.
  set (r' := wrap n (r + 1)).
  pose proof (Hlive O x eq_refl) as Hx. rewrite Nat.add_0_r in Hx. fold r' in Hx.
  unfold copy_from. rewrite (proj2 (Z.eqb_neq _ _)) by lia. simpl.
  rewrite Hrd, Ht. pose proof (step_forward (pcHead q) (uxLength q) (uxItemSize q) r ltac:(lia) Hn Hsz Hm ltac:(lia)) as Ef.
  cbn zeta in Ef. rewrite Ef. fold n r'.
  assert (Ecopy : copy_out (storage q) (pcHead q + Z.of_nat r' * uxItemSize q - pcHead q) (uxItemSize q) = Some x).
  { rewrite Hst. replace (uxItemSize q) with (Z.of_nat sz) by lia.
    replace (pcHead q + Z.of_nat r' * Z.of_nat sz - pcHead q) with (Z.of_nat r' * Z.of_nat sz) by lia.
    by apply copy_out_slot. }
  rewrite Ecopy. simpl. eexists. split; [done|]. split; [done|]. split; [done|]. split.
  - split; simpl; try done.
    + rewrite Hc. simpl. rewrite u32_small by (simpl in Hf; unfold u32_range; nia). lia.
    + simpl in Hf. lia.
    + exists slots, r'. fold n sz. split_and!; try done.
      * apply wrap_lt. lia.
      * rewrite Hwr. unfold r'. rewrite <- (Nat.add_assoc (wrap n (r + 1))), wrap_add by lia. done.
      * intros j y Hj. unfold r'. rewrite <- Nat.add_assoc, wrap_add by lia.
        replace (r + 1 + (1 + j))%nat with (r + 1 + S j)%nat by lia. by apply Hlive.
  - destruct q. simpl in *. unfold set_pcReadFrom, set_u_word1, pcReadFrom in *. simpl in *. by subst.
Qed.

(** A fresh or reset queue is empty. *)
Lemma reset_ring q : 0 < uxLength q -> 0 < uxItemSize q -> uxItemSize q <= pcHead q ->
  pcHead q + uxLength q * uxItemSize q < u32_modulus ->
  Z.of_nat (length (storage q)) = uxLength q * uxItemSize q -> ring (reset_fields q) [].
Proof.
  intros Hn Hsz Hh Hm Hlen. assert (0 < uxLength q * uxItemSize q) by nia.
  assert (uxLength q < u32_modulus /\ uxItemSize q < u32_modulus) as [??] by nia.
  assert (Ht : pcHead q +u u32 (uxLength q * uxItemSize q) = pcHead q + uxLength q * uxItemSize q).
  { rewrite (u32_small (uxLength q * uxItemSize q)) by (unfold u32_range; lia). apply u32_small. unfold u32_range. lia. }
  assert (Hr : pcHead q +u u32 ((uxLength q -u 1) * uxItemSize q) = pcHead q + (uxLength q - 1) * uxItemSize q).
  { rewrite (u32_small (uxLength q - 1)) by (unfold u32_range; lia).
    rewrite (u32_small ((uxLength q - 1) * uxItemSize q)) by (unfold u32_range; nia). apply u32_small. unfold u32_range. nia. }
  split; simpl; try done.
  - lia.
  - set (sz := Z.to_nat (uxItemSize q)). set (n := Z.to_nat (uxLength q)).
    assert (Hsplit : forall m st, length st = (m * sz)%nat ->
      exists slots, st = concat slots /\ Forall (fun s : list Z => length s = sz) slots /\ length slots = m).
    { induction m as [|m IH]; intros st Hst.
      - exists []. destruct st; [done|]. simpl in Hst. lia.
      - destruct (IH (drop sz st)) as (slots & E & Hall & Hl); [rewrite length_drop; lia|].
        exists (take sz st :: slots). simpl. rewrite <- E, take_drop. split_and!; [done| |lia].
        constructor; [rewrite length_take; lia|done]. }
    destruct (Hsplit n (storage q)) as (slots & Hst & Hall & Hl); [lia|].
    exists slots, (n - 1)%nat. split_and!; try done; [lia|rewrite Hr; f_equal; f_equal; lia|].
    replace (n - 1 + 1 + 0)%nat with n by lia. unfold wrap. rewrite Nat.Div0.mod_same. lia.
Qed.

End Ops.
