(* ===== verification/QueueTheorems.v ===== *)
(** * Queues deliver items in order, and wake who waits for them

    [ring x xs] ([QueueData]) says that the queue object [x] holds the items
    [xs].  The calls are made with the scheduler running; the statements are
    about the code on the pointer lists, as in [SchedTheorems]. *)

From S2P Require Import Prelude Simulation History Config ListC ListSpec ListRefine ListObs ListProps Heap4 Kernel Tasks TaskApi TaskEvents Queue KernelRefine KernelInv KernelSteps SchedProps ResumeProps KernelDemo SchedTheorems PriorityProps PriorityTheorems EventProps QueueData.

Section Queues.
Implicit Types (k : KA) (c : CK) (x : Queue_t) (xs : list (list Z)) (it : list Z).

(** The kernel with the queue at [q] replaced. *)
Definition with_queue (q : Z) x k : KA :=
  mkKernel (k_lists k) (set_queues (<[q := x]> (queues (k_vars k))) (k_vars k)).

Lemma wp_rd_queue {A} q (f : Queue_t -> A) (Q : A -> KA -> Prop) k x :
  queues (k_vars k) !! q = Some x -> Q (f x) k -> wp (rd_queue q f) Q k.
Proof. intros Hx HQ. exists (f x), k. unfold rd_queue. by rewrite Hx. Qed.

Lemma wp_wr_queue q g (Q : unit -> KA -> Prop) k x :
  queues (k_vars k) !! q = Some x -> Q tt (with_queue q (g x) k) -> wp (wr_queue q g) Q k.
Proof.
  intros Hx HQ. apply wp_bind. eapply wp_rd_queue; [exact Hx|]. apply wp_wrv.
  replace (alter g q (queues (k_vars k))) with (<[q := g x]> (queues (k_vars k))); [done|].
  apply map_eq. intros j. rewrite lookup_alter, lookup_insert. case_decide; subst; [by rewrite Hx|done].
Qed.

Lemma lookup_with_queue q x k : queues (k_vars (with_queue q x k)) !! q = Some x.
Proof. apply lookup_insert_eq. Qed.

Lemma with_queue_twice q x y k : with_queue q y (with_queue q x k) = with_queue q y k.
Proof. unfold with_queue. simpl. by rewrite insert_insert_eq. Qed.

Lemma with_queue_running q x k : running k -> running (with_queue q x k).
Proof.
  intros [Hinv Hp Hr Hs]. split; [|exact Hp|exact Hr|exact Hs]. destruct k as [h v].
  apply (kinv_vars h v); done.
Qed.

(** Replacing a queue moves no task. *)
Lemma with_queue_highest q x k : runs_highest k -> runs_highest (with_queue q x k).
Proof. by destruct k. Qed.
Lemma with_queue_items q x k l : items_of (k_lists (with_queue q x k)) l = items_of (k_lists k) l.
Proof. done. Qed.
Lemma with_queue_tcbs q x k : tcbs (k_vars (with_queue q x k)) = tcbs (k_vars k).
Proof. done. Qed.

(** The queue at [q] is [x], and its lists exist. *)
Record has_queue (q : Z) x k : Prop := {
  hq_queue : queues (k_vars k) !! q = Some x;
  hq_send : is_Some (a_lists (k_lists k) !! xTasksWaitingToSend q);
  hq_receive : is_Some (a_lists (k_lists k) !! xTasksWaitingToReceive q)
}.

Lemma with_queue_has q x y k : has_queue q x k -> has_queue q y (with_queue q y k).
Proof. intros []. split; [apply lookup_with_queue|done|done]. Qed.

Lemma served_has q l x k k' : served l k k' -> has_queue q x k -> has_queue q x k'.
Proof.
  intros [_ _ _ (cur & y & b & Ev) _ _ _ Hl] [Hq Hs Hr]. split; [by rewrite Ev|by apply Hl|by apply Hl].
Qed.

(** ** Sending *)

(** Where a new item goes. *)
Definition put (pos : Z) it xs : list (list Z) :=
  if pos =? queueSEND_TO_BACK then xs ++ [it] else if pos =? queueOVERWRITE then [it] else it :: xs.

(** There is room, or the item replaces the only one. *)
Definition has_room (pos : Z) x xs : Prop :=
  (pos = queueSEND_TO_BACK \/ pos = queueSEND_TO_FRONT) /\ Z.of_nat (length xs) < uxLength x \/
  pos = queueOVERWRITE /\ uxLength x = 1.

Lemma copy_to_put x xs it pos : ring x xs -> has_room pos x xs -> uxItemSize x <= Z.of_nat (length it) ->
  exists x', copy_to x it pos = Some x' /\ same_queue x x' /\ ring x' (put pos (take (Z.to_nat (uxItemSize x)) it) xs).
Proof.
  intros Hr [[[->| ->] Hroom]|[-> H1]] Hit.
  - by apply copy_to_back.
  - by apply copy_to_front.
  - by eapply copy_to_overwrite.
Qed.

Lemma room_test pos x xs : ring x xs -> has_room pos x xs ->
  (uxMessagesWaiting x <? uxLength x) || (pos =? queueOVERWRITE) = true.
Proof.
  intros Hr [[_ Hroom]|[-> _]]; [|by rewrite orb_true_r]. rewrite (rg_count _ _ Hr).
  by rewrite (proj2 (Z.ltb_lt _ _)).
Qed.

(** The item is copied into a queue whose items have a size. *)
Lemma copy_data_wp q x x' it pos (Q : Z -> KA -> Prop) k :
  queues (k_vars k) !! q = Some x -> uxItemSize x <> 0 -> copy_to x it pos = Some x' ->
  Q pdFALSE (with_queue q x' k) -> wp (prvCopyDataToQueue q it pos) Q k.
Proof.
  intros Hx Hsz E HQ. unfold prvCopyDataToQueue, upd_queue. wstep. eapply wp_rd_queue; [exact Hx|].
  cbn [id]. rewrite (proj2 (Z.eqb_neq _ _)) by done. wsteps. eapply wp_rd_queue; [exact Hx|]. wstep.
  eapply wp_lift_opt; [exact E|]. eapply wp_wr_queue; [exact Hx|]. by wstep.
Qed.

(** The end of the critical section of xQueueGenericSend. *)
Lemma wake_receiver_wp q k : running k -> is_Some (a_lists (k_lists k) !! xTasksWaitingToReceive q) ->
  wp (e ← listIS_EMPTY (xTasksWaitingToReceive q);
      if negb e then b ← wake_first (xTasksWaitingToReceive q); when b portYIELD
      else when (negb (pdFALSE =? pdFALSE)) portYIELD)
    (fun _ k' => served (xTasksWaitingToReceive q) k k') k.
Proof.
  intros Hrun Hl. wstep. destruct k as [h v]. apply wp_listIS_EMPTY; [exact Hl|]. case_bool_decide as E; simpl.
  - wstep. by apply served_none.
  - by apply wake_and_yield_wp.
Qed.

Lemma send_room_wp q x xs it pos k l : running k -> has_queue q x k -> ring x xs -> has_room pos x xs ->
  uxItemSize x <= Z.of_nat (length it) ->
  wp (send_try q it pos l) (fun r k' => r = inr pdPASS /\ exists x', same_queue x x' /\
    ring x' (put pos (take (Z.to_nat (uxItemSize x)) it) xs) /\
    served (xTasksWaitingToReceive q) (with_queue q x' k) k') k.
Proof.
  intros Hrun Hq Hr Hroom Hit. pose proof (rg_sz _ _ Hr) as Hsz.
  destruct (copy_to_put _ _ _ _ Hr Hroom Hit) as (x' & E & Hsame & Hr').
  unfold send_try. wstep. eapply wp_rd_queue; [apply Hq|]. wstep. eapply wp_rd_queue; [apply Hq|].
  rewrite (room_test _ _ _ Hr Hroom). wstep. eapply copy_data_wp; [apply Hq|lia|exact E|].
  apply wp_bind2. eapply wp_mono; [apply wake_receiver_wp; [by apply with_queue_running|apply Hq]|].
  intros [] k' Hsv. wstep. split; [done|]. by exists x'.
Qed.

(** What a sender that cannot proceed and does not want to wait gets. *)
Lemma send_full_wp q x it pos k l : has_queue q x k -> uxLength x <= uxMessagesWaiting x -> pos <> queueOVERWRITE ->
  l_ticks l = 0 -> wp (send_try q it pos l) (fun r k' => r = inr errQUEUE_FULL /\ k' = k) k.
Proof.
  intros Hq Hfull Hpos Hl. unfold send_try. wstep. eapply wp_rd_queue; [apply Hq|]. wstep. eapply wp_rd_queue; [apply Hq|].
  rewrite (proj2 (Z.ltb_ge _ _)), (proj2 (Z.eqb_neq _ _)) by done. simpl. unfold or_wait. rewrite Hl. simpl. by wstep.
Qed.

(** A blocking function that is done in its first round. *)
Lemma first_round_wp {L X} (body : L -> prog KA (L + X)) (m : M KA (L + X)) f n l (Q : L + X -> KA -> Prop) k r :
  body l = (y ← atomic m; f y) -> (forall y, f (inr y) = mret (inr y)) ->
  wp m (fun y k' => y = inr r /\ Q (inr r) k') k -> wp (run (iterate (S n) body l)) Q k.
Proof.
  intros Eb Ef (y & k' & E & -> & HQ). simpl. rewrite Eb. exists (inr r), k'. split; [|done].
  rewrite run_bind. unfold mbind, M_bind, prog_mbind. simpl. unfold mbind, M_bind. rewrite E.
  rewrite Ef. done.
Qed.

(** ** Receiving *)

Lemma receive_item_wp q x y xs k l : running k -> has_queue q x k -> ring x (y :: xs) ->
  wp (receive_try q l) (fun r k' => r = inr (pdPASS, y) /\ exists x', same_queue x x' /\ ring x' xs /\
    served (xTasksWaitingToSend q) (with_queue q x' k) k') k.
Proof.
  intros Hrun Hq Hr. destruct (copy_from_ring _ _ _ Hr) as (x1 & E & Hsame & _ & Hr1 & _).
  unfold receive_try, prvCopyDataFromQueue. wstep. eapply wp_rd_queue; [apply Hq|].
  rewrite (proj2 (Z.ltb_lt _ _)) by (rewrite (rg_count _ _ Hr); simpl; lia). wsteps.
  eapply wp_rd_queue; [apply Hq|]. wstep. eapply wp_lift_opt; [exact E|]. cbn beta iota. wstep.
  eapply wp_wr_queue; [apply Hq|]. wsteps. eapply wp_wr_queue; [apply lookup_with_queue|].
  rewrite with_queue_twice. set (x' := set_uxMessagesWaiting _ x1) in *.
  apply wp_bind2. eapply wp_mono; [apply wake_and_yield_wp; [by apply with_queue_running|done|apply Hq]|].
  intros [] k' Hsv. wstep. split; [done|]. by exists x'.
Qed.

Lemma peek_item_wp q x y xs k l : running k -> has_queue q x k -> ring x (y :: xs) ->
  wp (peek_try q l) (fun r k' => r = inr (pdPASS, y) /\ served (xTasksWaitingToReceive q) (with_queue q x k) k') k.
Proof.
  intros Hrun Hq Hr. destruct (copy_from_ring _ _ _ Hr) as (x1 & E & Hsame & _ & _ & Eback).
  unfold peek_try, prvCopyDataFromQueue. wstep. eapply wp_rd_queue; [apply Hq|].
  rewrite (proj2 (Z.ltb_lt _ _)) by (rewrite (rg_count _ _ Hr); simpl; lia). wsteps.
  eapply wp_rd_queue; [apply Hq|]. wsteps. eapply wp_rd_queue; [apply Hq|]. wstep. eapply wp_lift_opt; [exact E|]. cbn beta iota. wstep.
  eapply wp_wr_queue; [apply Hq|]. wsteps. eapply wp_wr_queue; [apply lookup_with_queue|].
  rewrite with_queue_twice. unfold id in *. rewrite Eback.
  apply wp_bind2. eapply wp_mono; [apply wake_and_yield_wp; [by apply with_queue_running|done|apply Hq]|].
  intros [] k' Hsv. by wstep.
Qed.

Lemma receive_empty_wp q x k l : queues (k_vars k) !! q = Some x -> uxMessagesWaiting x <= 0 -> l_ticks l = 0 ->
  wp (receive_try q l) (fun r k' => r = inr (errQUEUE_EMPTY, []) /\ k' = k) k /\
  wp (peek_try q l) (fun r k' => r = inr (errQUEUE_EMPTY, []) /\ k' = k) k.
Proof.
  intros Hq He Hl. split.
  - unfold receive_try. wstep. eapply wp_rd_queue; [apply Hq|]. rewrite (proj2 (Z.ltb_ge _ _)) by done.
    wstep. unfold or_wait. rewrite Hl. simpl. by wsteps.
  - unfold peek_try. wstep. eapply wp_rd_queue; [apply Hq|]. rewrite (proj2 (Z.ltb_ge _ _)) by done.
    wstep. unfold or_wait. rewrite Hl. simpl. by wsteps.
Qed.

(** ** The functions, with the queue ready for them *)

Lemma send_wp q x xs it pos ticks n k : running k -> has_queue q x k -> ring x xs -> has_room pos x xs ->
  uxItemSize x <= Z.of_nat (length it) ->
  wp (run (xQueueGenericSend (S n) q it ticks pos)) (fun r k' => r = inr pdPASS /\ exists x', same_queue x x' /\
    ring x' (put pos (take (Z.to_nat (uxItemSize x)) it) xs) /\
    served (xTasksWaitingToReceive q) (with_queue q x' k) k') k.
Proof.
  intros Hrun Hq Hr Hroom Hit. eapply first_round_wp; [done|done|].
  eapply wp_mono; [by apply send_room_wp|]. by intros r k' [-> Hx'].
Qed.

Lemma receive_wp q x y xs ticks n k : running k -> has_queue q x k -> ring x (y :: xs) ->
  wp (run (xQueueReceive (S n) q ticks)) (fun r k' => r = inr (pdPASS, y) /\ exists x', same_queue x x' /\ ring x' xs /\
    served (xTasksWaitingToSend q) (with_queue q x' k) k') k.
Proof.
  intros Hrun Hq Hr. eapply first_round_wp; [done|done|].
  eapply wp_mono; [by eapply receive_item_wp|]. by intros r k' [-> Hx'].
Qed.

Lemma peek_wp q x y xs ticks n k : running k -> has_queue q x k -> ring x (y :: xs) ->
  wp (run (xQueuePeek (S n) q ticks)) (fun r k' => r = inr (pdPASS, y) /\
    served (xTasksWaitingToReceive q) (with_queue q x k) k') k.
Proof.
  intros Hrun Hq Hr. eapply first_round_wp; [done|done|].
  eapply wp_mono; [by eapply peek_item_wp|]. by intros r k' [-> Hx'].
Qed.

Lemma send_full_now_wp q x it pos n k : has_queue q x k -> uxLength x <= uxMessagesWaiting x -> pos <> queueOVERWRITE ->
  wp (run (xQueueGenericSend (S n) q it 0 pos)) (fun r k' => r = inr errQUEUE_FULL /\ k' = k) k.
Proof.
  intros Hq Hfull Hpos. eapply first_round_wp; [done|done|].
  eapply wp_mono; [by eapply send_full_wp|]. by intros r k' [-> ->].
Qed.

Lemma receive_empty_now_wp q x n k : queues (k_vars k) !! q = Some x -> uxMessagesWaiting x <= 0 ->
  wp (run (xQueueReceive (S n) q 0)) (fun r k' => r = inr (errQUEUE_EMPTY, []) /\ k' = k) k /\
  wp (run (xQueuePeek (S n) q 0)) (fun r k' => r = inr (errQUEUE_EMPTY, []) /\ k' = k) k.
Proof.
  intros Hq He. destruct (receive_empty_wp q x k (mkLocals 0 None pdFALSE) Hq He eq_refl) as [H1 H2].
  split; (eapply first_round_wp; [done|done|]); [eapply wp_mono; [exact H1|]|eapply wp_mono; [exact H2|]]; by intros r k' [-> ->].
Qed.

(** Sending to a queue that has room (at the back, at the front, or over
    the item of a queue of length one) stores a copy of the item there, at
    once and whatever time-out was given, and returns pdPASS; the first task
    waiting to receive from the queue, and no other task, becomes ready, and if
    a most urgent ready task was running one is afterwards. *)
Theorem queue_send_delivers c k q x xs it pos ticks n :
  RK rep c k -> running k -> has_queue q x k -> ring x xs -> has_room pos x xs ->
  uxItemSize x <= Z.of_nat (length it) ->
  on_code (run (xQueueGenericSend (S n) q it ticks pos)) (fun r k' => r = inr pdPASS /\
    exists x', same_queue x x' /\ ring x' (put pos (take (Z.to_nat (uxItemSize x)) it) xs) /\
      served (xTasksWaitingToReceive q) (with_queue q x' k) k') c.
Proof.
  intros HR Hrun Hq Hr Hroom Hit. eapply wp_transfer; [|exact HR|by apply send_wp].
  apply psim_run, psim_xQueueGenericSend, list_c_refines.
Qed.

(** Receiving from a queue that holds items returns the oldest one and
    removes it, whatever time-out was given; the first task waiting to send to
    the queue, and no other, becomes ready, and if a most urgent ready task was
    running one is afterwards. *)
Theorem queue_receive_takes_oldest c k q x y xs ticks n :
  RK rep c k -> running k -> has_queue q x k -> ring x (y :: xs) ->
  on_code (run (xQueueReceive (S n) q ticks)) (fun r k' => r = inr (pdPASS, y) /\
    exists x', same_queue x x' /\ ring x' xs /\ served (xTasksWaitingToSend q) (with_queue q x' k) k') c.
Proof.
  intros HR Hrun Hq Hr. eapply wp_transfer; [|exact HR|by eapply receive_wp].
  apply psim_run, psim_xQueueReceive, list_c_refines.
Qed.

(** ** Histories *)

Inductive q_op := QSend (it : list Z) (pos : Z) | QReceive | QPeek.

(** A call that does not wait: what it returns and the item it hands out. *)
Definition q_call {H} `{!ListOps item list_id H} (q : Z) (op : q_op) : M (Kernel H) (option (Z * list Z)) :=
  match op with
  | QSend it pos => r ← run (xQueueGenericSend 1 q it 0 pos); mret (match r with inr e => Some (e, []) | inl _ => None end)
  | QReceive => r ← run (xQueueReceive 1 q 0); mret (match r with inr e => Some e | inl _ => None end)
  | QPeek => r ← run (xQueuePeek 1 q 0); mret (match r with inr e => Some e | inl _ => None end)
  end.

(** A queue of at most [len] items of [sz] bytes. *)
Definition item_fifo (len sz : Z) xs (op : q_op) : list (list Z) * option (Z * list Z) :=
  match op with
  | QSend it pos =>
      if (Z.of_nat (length xs) <? len) || (pos =? queueOVERWRITE)
      then (put pos (take (Z.to_nat sz) it) xs, Some (pdPASS, [])) else (xs, Some (errQUEUE_FULL, []))
  | QReceive => match xs with y :: xs' => (xs', Some (pdPASS, y)) | [] => (xs, Some (errQUEUE_EMPTY, [])) end
  | QPeek => match xs with y :: _ => (xs, Some (pdPASS, y)) | [] => (xs, Some (errQUEUE_EMPTY, [])) end
  end.

(** Items are long enough; only a queue of length one is overwritten. *)
Definition q_op_ok (len sz : Z) (op : q_op) : Prop :=
  match op with
  | QSend it pos => sz <= Z.of_nat (length it) /\
      (pos = queueSEND_TO_BACK \/ pos = queueSEND_TO_FRONT \/ pos = queueOVERWRITE /\ len = 1)
  | _ => True
  end.

(** The queue at [q] holds [xs] in a running system. *)
Definition queue_holds (q len sz : Z) k xs : Prop :=
  running k /\ exists x, has_queue q x k /\ ring x xs /\ uxLength x = len /\ uxItemSize x = sz.

(** What a call that does not wait does to the kernel: nothing, or the queue is
    [x'] now and a task has been woken. *)
Definition queue_step (q : Z) x' k k' : Prop :=
  k' = k \/ exists l, is_event_list l = true /\ served l (with_queue q x' k) k'.

Lemma queue_step_served q x' k k' l : is_event_list l = true -> served l (with_queue q x' k) k' -> queue_step q x' k k'.
Proof. intros Hl Hsv. right. by exists l. Qed.

Lemma item_fifo_served q x xs k op : running k -> has_queue q x k -> ring x xs -> q_op_ok (uxLength x) (uxItemSize x) op ->
  let s := item_fifo (uxLength x) (uxItemSize x) xs op in
  wp (q_call q op) (fun r k' => r = s.2 /\
    exists x', same_queue x x' /\ ring x' s.1 /\ queue_step q x' k k' /\ has_queue q x' k') k.
Proof.
  intros Hrun Hq Hr Hop s. subst s.
  assert (Hsame : exists x', same_queue x x' /\ ring x' xs /\ queue_step q x' k k /\ has_queue q x' k).
  { exists x. split; [done|]. split; [done|]. split; [by left|done]. }
  assert (Hstep : forall l x' k' ys, is_event_list l = true -> same_queue x x' -> ring x' ys -> served l (with_queue q x' k) k' ->
    exists x', same_queue x x' /\ ring x' ys /\ queue_step q x' k k' /\ has_queue q x' k').
  { intros l x' k' ys Hl Hsq Hr' Hsv. exists x'. split_and!; [done|done|by eapply queue_step_served|].
    eapply served_has; [exact Hsv|]. by eapply with_queue_has. }
  destruct op as [it pos| |]; cbn [q_call item_fifo].
  - destruct Hop as [Hit Hpos].
    assert (has_room pos x xs \/ (uxLength x <= Z.of_nat (length xs) /\ pos <> queueOVERWRITE)) as [Hroom|Hno].
    { unfold has_room. destruct (Z_lt_le_dec (Z.of_nat (length xs)) (uxLength x)).
      - left. destruct Hpos as [?|[?|?]]; tauto.
      - destruct Hpos as [->|[->|[-> ?]]]; [right; split; [done|by unfold queueSEND_TO_BACK, queueOVERWRITE]..|left; tauto]. }
    + pose proof (room_test _ _ _ Hr Hroom) as Et. rewrite (rg_count _ _ Hr) in Et. rewrite Et. cbn [fst snd].
      wstep. eapply wp_mono; [by apply send_wp|]. intros r k' (-> & x' & Hsq & Hr' & Hsv). wstep. split; [done|].
      by eapply Hstep; [|done|done|exact Hsv].
    + rewrite (proj2 (Z.ltb_ge _ _)), (proj2 (Z.eqb_neq _ _)) by apply Hno. cbn [orb fst snd].
      wstep. eapply wp_mono; [eapply send_full_now_wp; [exact Hq|rewrite (rg_count _ _ Hr)|]; apply Hno|].
      intros r k' [-> ->]. by wstep.
  - wstep. destruct xs as [|y xs]; cbn [fst snd].
    + eapply wp_mono; [apply (receive_empty_now_wp q x 0 k (hq_queue _ _ _ Hq)); by rewrite (rg_count _ _ Hr)|]. intros r k' [-> ->]. by wstep.
    + eapply wp_mono; [by eapply receive_wp|]. intros r k' (-> & x' & Hsq & Hr' & Hsv). wstep. split; [done|].
      by eapply Hstep; [|done|done|exact Hsv].
  - wstep. destruct xs as [|y xs]; cbn [fst snd].
    + eapply wp_mono; [apply (receive_empty_now_wp q x 0 k (hq_queue _ _ _ Hq)); by rewrite (rg_count _ _ Hr)|]. intros r k' [-> ->]. by wstep.
    + eapply wp_mono; [by eapply peek_wp|]. intros r k' (-> & Hsv). wstep. split; [done|].
      by eapply Hstep; [|done|exact Hr|exact Hsv].
Qed.

Lemma queue_step_running q x' k k' : running k -> queue_step q x' k k' -> running k' /\ (runs_highest k -> runs_highest k').
Proof.
  intros Hrun [->|(l & _ & Hsv)]; [done|]. split; [apply Hsv|]. intros Hhi. apply (sv_highest _ _ _ Hsv).
  by apply with_queue_highest.
Qed.

Lemma item_fifo_step q len sz k xs op : queue_holds q len sz k xs -> q_op_ok len sz op ->
  wp (q_call q op) (fun r k' => r = (item_fifo len sz xs op).2 /\
    queue_holds q len sz k' (item_fifo len sz xs op).1 /\ (runs_highest k -> runs_highest k')) k.
Proof.
  intros [Hrun (x & Hq & Hr & <- & <-)] Hop. eapply wp_mono; [by apply item_fifo_served|].
  intros r k' (-> & x' & (_ & _ & El & Es & _) & Hr' & Hst & Hq'). split; [done|].
  destruct (queue_step_running _ _ _ _ Hrun Hst) as [Hrun' Hhi]. split; [|exact Hhi].
  split; [done|]. by exists x'.
Qed.

Lemma q_call_sim q op : sim (RK rep) (q_call (H := lheap item list_id) q op) (q_call (H := AH) q op).
Proof.
  destruct op as [it pos| |]; cbn [q_call]; (apply sim_bind; [|intros ?; apply sim_ret]); apply psim_run;
    [apply psim_xQueueGenericSend|apply psim_xQueueReceive|apply psim_xQueuePeek]; apply list_c_refines.
Qed.

(** C5: every sequence of sends (to the back, to the front, or overwriting),
    receives and peeks that do not wait behaves as a bounded first-in
    first-out queue of items: a send to a full queue fails and changes
    nothing, a receive or a peek returns the oldest item, or an error when
    the queue is empty; tasks woken along the way may run, and a most urgent
    ready task is running after every call if one was before. *)
Theorem queue_is_bounded_fifo c k q x xs ops :
  RK rep c k -> running k -> runs_highest k -> has_queue q x k -> ring x xs ->
  Forall (q_op_ok (uxLength x) (uxItemSize x)) ops ->
  on_code (calls (q_call q) ops) (fun rs k' =>
    rs = (spec_calls (item_fifo (uxLength x) (uxItemSize x)) xs ops).2 /\ running k' /\ runs_highest k' /\
    exists x', queues (k_vars k') !! q = Some x' /\
      ring x' (spec_calls (item_fifo (uxLength x) (uxItemSize x)) xs ops).1) c.
Proof.
  intros HR Hrun Hhi Hq Hr Hops.
  apply (wp_transfer (RK rep) _ (calls (q_call q) ops) _ c k); [|exact HR|].
  { apply sim_calls. intros op. apply q_call_sim. }
  eapply wp_mono; [apply (calls_refine _ (item_fifo (uxLength x) (uxItemSize x))
    (fun k s => queue_holds q (uxLength x) (uxItemSize x) k s /\ runs_highest k) (q_op_ok (uxLength x) (uxItemSize x))); [|split; [split|]|exact Hops]|].
  - intros k1 s op [HI Hh] Hop. eapply wp_mono; [by apply item_fifo_step|]. intros r k' (-> & HI' & Hh'). auto.
  - done.
  - by exists x.
  - done.
  - intros rs k' [-> [[Hrun' (x' & Hq' & Hr' & _)] Hh']]. split_and!; try done. exists x'. split; [apply Hq'|done].
Qed.

End Queues.

(** ** Instances *)

(** A queue of two items of four bytes (at 9000) and a semaphore that counts
    to two (at 9500). *)
Definition queue_setup {H} `{!ListOps item list_id H} : M (Kernel H) unit :=
  boot;;
  prvInitialiseNewQueue 0 (fun _ => 0) 2 4 0 9000;;
  prvInitialiseNewQueue 0 (fun _ => 0) 2 0 queueQUEUE_TYPE_COUNTING_SEMAPHORE 9500.

(** The most urgent task waits to receive from the queue. *)
Definition queue_waiting {H} `{!ListOps item list_id H} : M (Kernel H) unit :=
  queue_setup;; run (xQueueReceive_iter 9000 (mkLocals 10 None pdFALSE));; mret tt.

(** An item is in the queue. *)
Definition queue_filled {H} `{!ListOps item list_id H} : M (Kernel H) unit :=
  queue_setup;; run (xQueueGenericSend 1 9000 [1; 2; 3; 4] 0 queueSEND_TO_BACK);; mret tt.

Definition queue_abs : KA := ends queue_waiting (mkKernel (mkAheap ∅ ∅) vars0).
Definition queue_ptr : CK := ends queue_waiting (mkKernel (mkLheap ∅ ∅) vars0).
Definition filled_abs : KA := ends queue_filled (mkKernel (mkAheap ∅ ∅) vars0).
Definition filled_ptr : CK := ends queue_filled (mkKernel (mkLheap ∅ ∅) vars0).

Lemma queue_setup_sim : sim (RK rep) (queue_setup (H := lheap item list_id)) (queue_setup (H := AH)).
Proof.
  unfold queue_setup. apply sim_bind; [apply boot_sim|intros []].
  repeat sim_step; apply sim_prvInitialiseNewQueue, list_c_refines.
Qed.

Lemma queue_related : RK rep queue_ptr queue_abs.
Proof.
  apply ends_related; [|apply start_related|by vm_compute]. apply sim_bind; [apply queue_setup_sim|intros []].
  repeat sim_step. apply psim_run. apply psim_xQueueReceive_iter, list_c_refines.
Qed.
Lemma filled_related : RK rep filled_ptr filled_abs.
Proof.
  apply ends_related; [|apply start_related|by vm_compute]. apply sim_bind; [apply queue_setup_sim|intros []].
  repeat sim_step. apply psim_run. apply psim_xQueueGenericSend, list_c_refines.
Qed.

Lemma queue_running : running queue_abs.
Proof.
  split; [apply kinv_check_sound; by vm_compute|apply pend_check_sound; by vm_compute|exists 3000, 3; by vm_compute|by vm_compute].
Qed.
Lemma filled_running : running filled_abs.
Proof.
  split; [apply kinv_check_sound; by vm_compute|apply pend_check_sound; by vm_compute|exists 3000, 3; by vm_compute|by vm_compute].
Qed.
Lemma queue_highest : runs_highest queue_abs.
Proof. eexists. split; [by vm_compute|]. split; [by vm_compute|]. apply max_check_sound. by vm_compute. Qed.
Lemma filled_highest : runs_highest filled_abs.
Proof. eexists. split; [by vm_compute|]. split; [by vm_compute|]. apply max_check_sound. by vm_compute. Qed.

Definition empty_queue : Queue_t := mkQueue 9080 9080 9088 9084 0 2 4 (-1) (-1) 0 0 (replicate 8 0).
Definition one_item_queue : Queue_t := mkQueue 9080 9084 9088 9084 1 2 4 (-1) (-1) 0 0 [1; 2; 3; 4; 0; 0; 0; 0].
Definition empty_semaphore : Queue_t := mkQueue 9500 9500 9500 9500 0 2 0 (-1) (-1) 0 2 [].
Definition waiter_tcb5 : TCB_t := mkTCB 5 4500 [0] 0 4 0 5 0 0 0 0 0.

Lemma queue_has : has_queue 9000 empty_queue queue_abs.
Proof. split; [vm_compute; reflexivity|vm_compute; eauto|vm_compute; eauto]. Qed.
Lemma filled_has : has_queue 9000 one_item_queue filled_abs.
Proof. split; [vm_compute; reflexivity|vm_compute; eauto|vm_compute; eauto]. Qed.
Lemma semaphore_has : has_queue 9500 empty_semaphore queue_abs.
Proof. split; [vm_compute; reflexivity|vm_compute; eauto|vm_compute; eauto]. Qed.

Lemma empty_queue_ring : ring empty_queue [].
Proof. apply (reset_ring empty_queue); try done; simpl; unfold u32_modulus; lia. Qed.
Lemma one_item_ring : ring one_item_queue [[1; 2; 3; 4]].
Proof.
  destruct (copy_to_back empty_queue [] [1; 2; 3; 4] empty_queue_ring) as (x & E & _ & Hr); [done|done|].
  vm_compute in E. by injection E as <-.
Qed.

Lemma queue_waiter : tcbs (k_vars queue_abs) !! 4000 = Some waiter_tcb5.
Proof. vm_compute. reflexivity. Qed.
Lemma queue_waiting_list : items_of (k_lists queue_abs) (xTasksWaitingToReceive 9000) = [EventItem 4000].
Proof. vm_compute. reflexivity. Qed.

(** The waiting task becomes ready. *)
Lemma queue_send_delivers_witness :
  on_code (run (xQueueGenericSend 1 9000 [1; 2; 3; 4] 0 queueSEND_TO_BACK)) (fun r k' => r = inr pdPASS /\ runs_highest k' /\ cont_of (k_lists k') (StateItem 4000) = Some (Ready 5)) queue_ptr.
Proof.
  eapply wp_mono; [apply (queue_send_delivers queue_ptr queue_abs 9000 empty_queue [] [1; 2; 3; 4] queueSEND_TO_BACK 0 0)|].
  - exact queue_related.
  - exact queue_running.
  - exact queue_has.
  - exact empty_queue_ring.
  - left. split; [left; reflexivity|reflexivity].
  - simpl. lia.
  - intros r c' (k' & HR & Hr & x' & _ & _ & Hsv). exists k'. split; [exact HR|]. split; [exact Hr|].
    split; [exact (sv_highest _ _ _ Hsv (with_queue_highest _ _ _ queue_highest))|].
    apply (sv_wakes _ _ _ Hsv 4000 [] waiter_tcb5); [rewrite with_queue_items; exact queue_waiting_list|rewrite with_queue_tcbs; exact queue_waiter].
Defined.

Lemma queue_receive_takes_oldest_witness :
  on_code (run (xQueueReceive 1 9000 0)) (fun r k' => r = inr (pdPASS, [1; 2; 3; 4]) /\ runs_highest k') filled_ptr.
Proof.
  eapply wp_mono; [apply (queue_receive_takes_oldest filled_ptr filled_abs 9000 one_item_queue [1; 2; 3; 4] [] 0 0)|].
  - exact filled_related.
  - exact filled_running.
  - exact filled_has.
  - exact one_item_ring.
  - intros r c' (k' & HR & Hr & x' & _ & _ & Hsv). exists k'. split; [exact HR|]. split; [exact Hr|].
    exact (sv_highest _ _ _ Hsv (with_queue_highest _ _ _ filled_highest)).
Defined.

(** The third send finds the queue full; the last receive finds it empty. *)
Lemma queue_is_bounded_fifo_witness :
  on_code (calls (q_call 9000) [QSend [5; 6; 7; 8] queueSEND_TO_FRONT; QSend [9; 9; 9; 9] queueSEND_TO_BACK; QReceive; QPeek; QReceive; QReceive])
    (fun rs _ => rs = [Some (pdPASS, []); Some (errQUEUE_FULL, []); Some (pdPASS, [5; 6; 7; 8]);
      Some (pdPASS, [1; 2; 3; 4]); Some (pdPASS, [1; 2; 3; 4]); Some (errQUEUE_EMPTY, [])]) filled_ptr.
Proof.
  eapply wp_mono; [apply (queue_is_bounded_fifo filled_ptr filled_abs 9000 one_item_queue [[1; 2; 3; 4]])|].
  - exact filled_related.
  - exact filled_running.
  - exact filled_highest.
  - exact filled_has.
  - exact one_item_ring.
  - repeat constructor; simpl; auto; lia.
  - intros rs c' (k' & HR & Hr & _). exists k'. split; [exact HR|exact Hr].
Defined.
