(* ===== verification/SemaphoreTheorems.v ===== *)
(** * Semaphores count

    A semaphore is a queue without item data: the number of its items is its
    count, which gives and takes keep between 0 and its maximum. *)

From S2P Require Import Prelude Simulation History Config ListC ListSpec ListRefine ListObs ListProps Heap4 Kernel Tasks TaskApi TaskEvents Queue KernelRefine KernelInv KernelSteps SchedProps ResumeProps KernelDemo SchedTheorems PriorityProps PriorityTheorems EventProps QueueData QueueTheorems.

Section Semaphores.
Implicit Types (k : KA) (c : CK) (x : Queue_t).

(** [x] is a counting (or binary) semaphore with count [n]. *)
Record sem x (n : Z) : Prop := {
  sm_size : uxItemSize x = 0;
  sm_type : uxQueueType x <> queueQUEUE_IS_MUTEX;
  sm_count : uxMessagesWaiting x = n;
  sm_range : 0 <= n <= uxLength x;
  sm_width : uxLength x < u32_modulus
}.

Lemma sem_set x n m : sem x n -> 0 <= m <= uxLength x -> sem (set_uxMessagesWaiting m x) m.
Proof. intros [] Hm. by split. Qed.

(** Giving copies nothing and counts one more. *)
Lemma give_room_wp q x n l k : running k -> has_queue q x k -> sem x n -> n < uxLength x ->
  wp (send_try q [] queueSEND_TO_BACK l) (fun r k' => r = inr pdPASS /\
    served (xTasksWaitingToReceive q) (with_queue q (set_uxMessagesWaiting (n + 1) x) k) k') k.
Proof.
  intros Hrun Hq [Hsz Hty Hc Hr Hw] Hroom. unfold send_try. wstep. eapply wp_rd_queue; [apply Hq|].
  wstep. eapply wp_rd_queue; [apply Hq|]. rewrite Hc, (proj2 (Z.ltb_lt _ _)) by done. cbn [orb]. wstep.
  unfold prvCopyDataToQueue. wstep. eapply wp_rd_queue; [apply Hq|]. unfold id. rewrite Hsz. cbn [Z.eqb]. wstep.
  rewrite (proj2 (Z.eqb_neq _ _)) by done. wsteps. eapply wp_wr_queue; [apply Hq|]. wstep.
  rewrite Hc, u32_small by (unfold u32_range; lia).
  apply wp_bind2. eapply wp_mono; [apply wake_receiver_wp; [by apply with_queue_running|apply Hq]|].
  intros [] k' Hsv. by wstep.
Qed.

Lemma take_some_wp q x n l k : running k -> has_queue q x k -> sem x n -> 0 < n ->
  wp (take_try q l) (fun r k' => r = inr pdPASS /\
    served (xTasksWaitingToSend q) (with_queue q (set_uxMessagesWaiting (n - 1) x) k) k') k.
Proof.
  intros Hrun Hq [Hsz Hty Hc Hr Hw] Hpos. unfold take_try. wstep. eapply wp_rd_queue; [apply Hq|].
  rewrite Hc, (proj2 (Z.ltb_lt _ _)) by done. wstep. eapply wp_wr_queue; [apply Hq|].
  rewrite u32_small by (unfold u32_range; lia). wstep. eapply wp_rd_queue; [apply lookup_with_queue|].
  wstep. change (uxQueueType (set_uxMessagesWaiting (n - 1) x)) with (uxQueueType x).
  rewrite (proj2 (Z.eqb_neq _ _)) by done. wstep.
  apply wp_bind2. eapply wp_mono; [apply wake_and_yield_wp; [by apply with_queue_running|done|apply Hq]|].
  intros [] k' Hsv. by wstep.
Qed.

Lemma take_none_wp q x l k : has_queue q x k -> uxMessagesWaiting x <= 0 -> l_ticks l = 0 ->
  wp (take_try q l) (fun r k' => r = inr errQUEUE_EMPTY /\ k' = k) k.
Proof.
  intros Hq He Hl. unfold take_try. wstep. eapply wp_rd_queue; [apply Hq|].
  rewrite (proj2 (Z.ltb_ge _ _)) by done. unfold or_wait. rewrite Hl. simpl. by wstep.
Qed.

(** ** Histories *)

Inductive sem_op := SemGive | SemTake.

(** xSemaphoreGive and xSemaphoreTake without a wait. *)
Definition sem_call {H} `{!ListOps item list_id H} (q : Z) (op : sem_op) : M (Kernel H) (option Z) :=
  r ← run (match op with
           | SemGive => xQueueGenericSend 1 q [] 0 queueSEND_TO_BACK
           | SemTake => xQueueSemaphoreTake 1 q 0 end);
  mret (match r with inr e => Some e | inl _ => None end).

(** A counter between 0 and [max]. *)
Definition counter (max n : Z) (op : sem_op) : Z * option Z :=
  match op with
  | SemGive => if n <? max then (n + 1, Some pdPASS) else (n, Some errQUEUE_FULL)
  | SemTake => if 0 <? n then (n - 1, Some pdPASS) else (n, Some errQUEUE_EMPTY)
  end.

Definition sem_holds (q max : Z) k (n : Z) : Prop :=
  running k /\ runs_highest k /\ exists x, has_queue q x k /\ sem x n /\ uxLength x = max.

Lemma counter_served q x n k op : running k -> has_queue q x k -> sem x n ->
  let s := counter (uxLength x) n op in
  wp (sem_call q op) (fun r k' => r = s.2 /\
    exists x', sem x' s.1 /\ same_queue x x' /\ queue_step q x' k k' /\ has_queue q x' k') k.
Proof.
  intros Hrun Hq Hs s. subst s. unfold sem_call. wstep. pose proof Hs as [_ _ Hc Hr _].
  assert (Hsame : exists x', sem x' n /\ same_queue x x' /\ queue_step q x' k k /\ has_queue q x' k).
  { exists x. split; [done|]. split; [done|]. split; [by left|done]. }
  assert (Hstep : forall l m k', is_event_list l = true -> 0 <= m <= uxLength x ->
    served l (with_queue q (set_uxMessagesWaiting m x) k) k' ->
    exists x', sem x' m /\ same_queue x x' /\ queue_step q x' k k' /\ has_queue q x' k').
  { intros l m k' Hl Hm Hsv. exists (set_uxMessagesWaiting m x). split_and!; [by eapply sem_set|done|by eapply queue_step_served|].
    eapply served_has; [exact Hsv|]. by eapply with_queue_has. }
  destruct op; cbn [counter].
  - destruct (Z.ltb_spec n (uxLength x)).
    + eapply first_round_wp; [done|done|]. eapply wp_mono; [by eapply give_room_wp|].
      intros r k' [-> Hsv]. split; [done|]. wstep. split; [done|]. eapply Hstep; [| |exact Hsv]; [done|]. cbn [fst]. lia.
    + eapply wp_mono; [eapply send_full_now_wp; [exact Hq|rewrite Hc; lia|done]|]. intros r k' [-> ->]. by wstep.
  - destruct (Z.ltb_spec 0 n).
    + eapply first_round_wp; [done|done|]. eapply wp_mono; [by eapply take_some_wp|].
      intros r k' [-> Hsv]. split; [done|]. wstep. split; [done|]. eapply Hstep; [| |exact Hsv]; [done|]. cbn [fst]. lia.
    + eapply first_round_wp; [done|done|]. eapply wp_mono; [eapply take_none_wp; [exact Hq|rewrite Hc; lia|done]|].
      intros r k' [-> ->]. split; [done|]. by wstep.
Qed.

Lemma counter_step q max k n op : sem_holds q max k n ->
  wp (sem_call q op) (fun r k' => r = (counter max n op).2 /\ sem_holds q max k' (counter max n op).1) k.
Proof.
  intros (Hrun & Hhi & x & Hq & Hs & <-). eapply wp_mono; [by apply counter_served|].
  intros r k' (-> & x' & Hs' & (_ & _ & El & _) & Hst & Hq'). split; [done|].
  destruct (queue_step_running _ _ _ _ Hrun Hst) as [Hrun' Hhi']. split_and!; [done|auto|by exists x'].
Qed.

Lemma sem_call_sim q op : sim (RK rep) (sem_call (H := lheap item list_id) q op) (sem_call (H := AH) q op).
Proof.
  apply sim_bind; [|intros ?; apply sim_ret]. apply psim_run.
  destruct op; [apply psim_xQueueGenericSend|apply psim_xQueueSemaphoreTake]; apply list_c_refines.
Qed.

(** C21: every sequence of gives and takes that do not wait makes a semaphore
    behave as a counter between 0 and its maximum: a give at the maximum and a
    take at 0 fail and change nothing, the count neither wraps nor leaves its
    range, and after every call a most urgent ready task is running. *)
Theorem semaphore_is_bounded_counter c k q x n ops :
  RK rep c k -> running k -> runs_highest k -> has_queue q x k -> sem x n ->
  on_code (calls (sem_call q) ops) (fun rs k' =>
    rs = (spec_calls (counter (uxLength x)) n ops).2 /\ running k' /\ runs_highest k' /\
    exists x', queues (k_vars k') !! q = Some x' /\ sem x' (spec_calls (counter (uxLength x)) n ops).1) c.
Proof.
  intros HR Hrun Hhi Hq Hs. apply (wp_transfer (RK rep) _ (calls (sem_call q) ops) _ c k); [|exact HR|].
  { apply sim_calls. intros op. apply sem_call_sim. }
  eapply wp_mono; [apply (calls_refine _ (counter (uxLength x)) (sem_holds q (uxLength x)) (fun _ => True))|].
  - intros k1 s op HI _. by apply counter_step.
  - split_and!; [done|done|by exists x].
  - by apply Forall_true.
  - intros rs k' [-> (Hrun' & Hh' & x' & Hq' & Hs' & _)]. split_and!; try done. exists x'. split; [apply Hq'|done].
Qed.

End Semaphores.


Lemma semaphore_is_bounded_counter_witness :
  on_code (calls (sem_call 9500) [SemTake; SemGive; SemGive; SemGive; SemTake])
    (fun rs k' => rs = [Some errQUEUE_EMPTY; Some pdPASS; Some pdPASS; Some errQUEUE_FULL; Some pdPASS] /\ runs_highest k') queue_ptr.
Proof.
  eapply wp_mono; [apply (semaphore_is_bounded_counter queue_ptr queue_abs 9500 empty_semaphore 0)|].
  - exact queue_related.
  - exact queue_running.
  - exact queue_highest.
  - exact semaphore_has.
  - split; simpl; unfold u32_modulus; try lia; discriminate.
  - intros rs c' (k' & HR & Hr & _ & Hh & _). exists k'. split; [exact HR|]. split; [exact Hr|exact Hh].
Defined.
