(* ===== verification/BlockProps.v ===== *)
(** * Waiting for a queue

    A round of a blocking function of queue.c that cannot proceed suspends the
    scheduler, locks the queue, looks at its time-out, and either gives up or
    puts the running task into the queue's list of waiting tasks and gives
    way.  The lemmas follow the steps the three functions share. *)

From S2P Require Import Prelude Simulation Config ListC ListSpec ListRefine ListObs ListProps Heap4 Kernel Tasks TaskApi TaskEvents Queue KernelRefine KernelInv Frames KernelSteps SchedProps ResumeProps KernelDemo SchedTheorems SuspendProps PriorityProps PriorityTheorems EventProps QueueData QueueTheorems.

Section Blocking.
Implicit Types (k : KA) (v : Vars) (h : AH).

(** ** Locks *)

Definition unlocked (x : Queue_t) : Prop := cRxLock x = queueUNLOCKED /\ cTxLock x = queueUNLOCKED.
Definition locked (x : Queue_t) : Queue_t := set_cTxLock queueLOCKED_UNMODIFIED (set_cRxLock queueLOCKED_UNMODIFIED x).

Lemma lock_wp q x (Q : unit -> KA -> Prop) k : queues (k_vars k) !! q = Some x -> unlocked x ->
  Q tt (with_queue q (locked x) k) -> wp (prvLockQueue q) Q k.
Proof.
  intros Hx [Hr Ht] HQ. unfold prvLockQueue. wstep. eapply wp_wr_queue; [exact Hx|].
  eapply wp_wr_queue; [apply lookup_with_queue|]. rewrite with_queue_twice, Hr. simpl. rewrite Ht. exact HQ.
Qed.

(** Nothing happened while the queue was locked: nobody is woken. *)
Lemma unlock_wp q x (Q : unit -> KA -> Prop) k : queues (k_vars k) !! q = Some (locked x) -> unlocked x ->
  Q tt (with_queue q x k) -> wp (run (prvUnlockQueue q)) Q k.
Proof.
  intros Hx [Hr Ht] HQ. apply wp_run_bind, wp_run_atomic. unfold unlock_tx. wstep. eapply wp_rd_queue; [exact Hx|]. simpl.
  wsteps. eapply wp_wr_queue; [exact Hx|]. apply wp_run_atomic. unfold unlock_rx. wstep.
  eapply wp_rd_queue; [apply lookup_with_queue|]. simpl. wsteps. eapply wp_wr_queue; [apply lookup_with_queue|].
  rewrite with_queue_twice. replace (set_cRxLock _ _) with x; [exact HQ|]. destruct x. simpl in *. by subst.
Qed.

Lemma with_queue_queues q x y k : queues (k_vars k) !! q = Some x ->
  <[q := x]> (<[q := y]> (queues (k_vars k))) = queues (k_vars k).
Proof. intros Hx. by rewrite insert_insert_eq, insert_id. Qed.

(** Replacing a queue, or the note that a delay was aborted, leaves the
    scheduler as it is. *)
Lemma with_queue_rest q x k : at_rest k -> at_rest (with_queue q x k).
Proof. intros []. split; try done. destruct k as [h v]. by apply (kinv_vars h v). Qed.

Definition unaborted (y : TCB_t) k : KA :=
  mkKernel (k_lists k) (put_tcb (pxCurrentTCB (k_vars k)) (set_ucDelayAborted pdFALSE y) (k_vars k)).

Lemma unaborted_rest y k : at_rest k -> tcbs (k_vars k) !! pxCurrentTCB (k_vars k) = Some y -> at_rest (unaborted y k).
Proof.
  intros [[HK HT] ? ? ? ? ? ?] Hy. split; try done. destruct k as [h v]. simpl in *.
  destruct (kc_prio _ _ HK _ _ Hy). split; [|by eapply ktime_vars; [..|exact HT]].
  eapply kcore_tcb; [exact HK|exact Hy|done|done|]. intros p Hp. exact (kc_ready _ _ HK _ _ _ Hp Hy).
Qed.

Lemma unaborted_highest y k : tcbs (k_vars k) !! pxCurrentTCB (k_vars k) = Some y -> runs_highest k -> runs_highest (unaborted y k).
Proof.
  intros Hy (z & Hz & Hc & Hm). simplify_eq. eexists. split; [apply lookup_insert_eq|]. done.
Qed.

(** ** The time-out *)

Definition waits_on (l : q_locals) : Prop := u32_range (l_ticks l) /\ l_ticks l <> 0 /\ is_Some (l_timeout l).

Lemma check_wp k y l : tcbs (k_vars k) !! pxCurrentTCB (k_vars k) = Some y -> waits_on l ->
  wp (check_timeout l) (fun r k' => (k' = k \/ k' = unaborted y k) /\ l_inherited r.2 = l_inherited l /\
    (r.1 = false -> k' = k /\ waits_on r.2)) k.
Proof.
  intros Hy (Hr & Hn & [to Hto]). unfold check_timeout. wstep. eapply wp_lift_opt; [exact Hto|].
  unfold xTaskCheckForTimeOut. wsteps. destruct (Z.eqb_spec (ucDelayAborted y) pdFALSE) as [Ha|Ha]; simpl.
  2: { wsteps. split; [by right|done]. }
  destruct (Z.eqb_spec (l_ticks l) portMAX_DELAY) as [Em|Em]; wsteps; simpl.
  { split; [by left|]. split; [done|]. intros _. split; [done|]. split; [done|]. split; [done|]. simpl. eauto. }
  destruct (_ && _); wsteps; [split; [by left|done]|]. destruct (Z.ltb_spec (xTickCount (k_vars k) -u xTimeOnEntering to) (l_ticks l)) as [Hlt|Hge].
  - unfold vTaskInternalSetTimeOutState. wsteps. split; [by left|]. split; [done|]. intros _. split; [done|].
    pose proof (u32_spec (xTickCount (k_vars k) - xTimeOnEntering to)) as He.
    split; [simpl; apply u32_spec|]. simpl. split; [|eauto]. rewrite u32_small by u32_lia. lia.
  - wsteps. split; [by left|done].
Qed.

(** A time-out that has just begun has not expired. *)
Lemma check_now_wp k y l : tcbs (k_vars k) !! pxCurrentTCB (k_vars k) = Some y -> ucDelayAborted y = pdFALSE ->
  u32_range (l_ticks l) -> l_ticks l <> 0 ->
  l_timeout l = Some (mkTimeOut (xNumOfOverflows (k_vars k)) (xTickCount (k_vars k))) ->
  wp (check_timeout l) (fun r k' => r = (false, l) /\ k' = k) k.
Proof.
  intros Hy Ha Hr Hn Hto. unfold check_timeout. wstep. eapply wp_lift_opt; [exact Hto|].
  unfold xTaskCheckForTimeOut. wsteps. rewrite Ha. simpl. destruct (Z.eqb_spec (l_ticks l) portMAX_DELAY) as [Em|Em]; wsteps; simpl.
  { split; [|done]. rewrite <- Hto. by destruct l. }
  rewrite Z.eqb_refl. simpl. rewrite Z.sub_diag. change (u32 0) with 0. rewrite (proj2 (Z.ltb_lt _ _)) by u32_lia.
  unfold vTaskInternalSetTimeOutState. wsteps. rewrite Z.sub_0_r, u32_small by done. split; [|done].
  rewrite <- Hto. by destruct l.
Qed.

(** ** Waiting in an event list *)

Definition waits_forever (n : Z) : bool := n =? portMAX_DELAY.

(** The running task is in the event list [l], behind those of the same
    priority, and waits [n] ticks. *)
Record placed_on (l : list_id) (n : Z) k k' : Prop := {
  po_cont i : cont_of (k_lists k') i =
    if decide (i = EventItem (pxCurrentTCB (k_vars k))) then Some l
    else if decide (i = StateItem (pxCurrentTCB (k_vars k))) then Some (wait_list (k_vars k) n (waits_forever n))
    else cont_of (k_lists k) i;
  po_val i : val_of (k_lists k') i =
    if decide (i = StateItem (pxCurrentTCB (k_vars k))) then
      if waits_forever n then val_of (k_lists k) (StateItem (pxCurrentTCB (k_vars k))) else xTickCount (k_vars k) +u n
    else val_of (k_lists k) i;
  po_items : items_of (k_lists k') l = insert_sorted (val_of (k_lists k)) (val_of (k_lists k) (EventItem (pxCurrentTCB (k_vars k))))
    (EventItem (pxCurrentTCB (k_vars k))) (items_of (k_lists k) l);
  po_lists l' : is_Some (a_lists (k_lists k') !! l') <-> is_Some (a_lists (k_lists k) !! l');
  po_vars : exists y nx b, tcbs (k_vars k) !! pxCurrentTCB (k_vars k) = Some y /\ k_vars k' = set_xNextTaskUnblockTime nx (set_uxTopReadyPriority b
    (put_tcb (pxCurrentTCB (k_vars k)) (set_ucDelayAborted pdFALSE y) (k_vars k)))
}.

(** The running task is ready and in no event list. *)
Definition current_ready k : Prop := exists y p, tcbs (k_vars k) !! pxCurrentTCB (k_vars k) = Some y /\
  cont_of (k_lists k) (StateItem (pxCurrentTCB (k_vars k))) = Some (Ready p) /\
  cont_of (k_lists k) (EventItem (pxCurrentTCB (k_vars k))) = None.

(** Its event item enters the list. *)
Lemma enter_list_wp (Q : unit -> KA -> Prop) h v l : kinv (mkKernel h v) -> current_ready (mkKernel h v) -> is_event_list l = true ->
  is_Some (a_lists h !! l) -> (forall t, val_of h (EventItem t) <= portMAX_DELAY) ->
  (forall a1, kinv (mkKernel a1 v) -> moved h a1 (EventItem (pxCurrentTCB v)) l (Some l)
     (insert_sorted (val_of h) (val_of h (EventItem (pxCurrentTCB v))) (EventItem (pxCurrentTCB v)) (items_of h l)) ->
     Q tt (mkKernel a1 v)) ->
  wp (onlist (loInsert l (EventItem (pxCurrentTCB v)))) Q (mkKernel h v).
Proof.
  intros [HK HT] (y & p & Hy & Hc & He) Hl Hex Hval HQ. cbn [k_vars k_lists] in *.
  apply wp_insert; [apply (kc_wf _ _ HK)|apply (kc_item _ _ HK (pxCurrentTCB v)); simpl; eauto|done|done|apply Hval| |].
  - apply Forall_forall. intros i Hi. destruct (event_list_item _ _ l i HK Hl Hi) as (t & _ & -> & _). apply Hval.
  - intros a1 M. apply HQ; [|exact M]. split.
    + destruct (insert_sorted_split (val_of h) (val_of h (EventItem (pxCurrentTCB v))) (EventItem (pxCurrentTCB v)) (items_of h l))
        as (xs1 & xs2 & _ & E & _). rewrite E in M. eapply kcore_insert_other; [exact HK| |exact M]. simpl. split; [eauto|done].
    + destruct (not_delayed _ _ l HK) as [N1 N2]; [by intros ->|by intros ->|]. by eapply ktime_insert_other.
Qed.

Lemma place_wp k l n : at_rest k -> current_ready k -> other_ready k -> is_event_list l = true -> l <> xPendingReadyList ->
  is_Some (a_lists (k_lists k) !! l) -> (forall t, val_of (k_lists k) (EventItem t) <= portMAX_DELAY) ->
  u32_range n -> n <> 0 ->
  wp (vTaskPlaceOnEventList l n) (fun _ k' => at_rest k' /\ placed_on l n k k') k.
Proof.
  intros Hr Hcur (u & q & Hne & Hu) Hl Hnp Hex Hval Hn Hn0. destruct k as [h v]. cbn [k_vars k_lists] in *.
  unfold vTaskPlaceOnEventList. wsteps. apply enter_list_wp; [apply Hr|done|done|done|done|].
  intros a1 Hinv1 M. pose proof Hcur as (y & p & Hy & Hc & He). cbn [k_vars k_lists] in *.
  pose proof (fun i => mv_cont _ _ _ _ _ _ M i) as Hc1.
  eapply wp_mono; [apply (add_delayed_wp _ y p n pdTRUE Hinv1 Hy); [simpl; by rewrite Hc1, decide_False|done|done]|].
  intros [] k' Hb. unfold blocks_forever in Hb. change (negb (pdTRUE =? pdFALSE)) with true in Hb. rewrite andb_true_r in Hb.
  assert (Hp' : kpend k').
  { eapply blocked_pend; [|exact Hinv1|exact Hb]. intros t l'. simpl. rewrite !Hc1. intros Ht.
    rewrite !decide_False by congruence. apply (ar_pend _ Hr). }
  destruct Hb as (a' & x & nx & b & -> & Hx & Hinv' & Hpk). cbn [k_vars k_lists] in *.
  assert (Hwl : forall f, is_event_list (wait_list v n f) = false /\ forall p, wait_list v n f <> Ready p).
  { intros f. unfold wait_list. destruct (kc_delayed _ _ (ki_core _ Hinv1)) as [[E1 E2]|[E1 E2]]; simpl in E1, E2;
      rewrite E1, E2; destruct f; [done| |done|]; by destruct (_ <? _). }
  assert (Hcont : forall i, cont_of a' i = if decide (i = EventItem (pxCurrentTCB v)) then Some l
    else if decide (i = StateItem (pxCurrentTCB v)) then Some (wait_list v n (waits_forever n)) else cont_of h i).
  { intros i. rewrite (pk_cont _ _ _ _ _ Hpk), Hc1. by repeat case_decide; subst. }
  split.
  - destruct Hr as [Hinv ? ? ? ? Hpe ?]. split; try done.
    + exists u, q. simpl. by rewrite Hcont, !decide_False by congruence.
    + apply no_item_empty; [done|]. intros i. simpl. rewrite Hcont. case_decide; [congruence|]. case_decide.
      * intros [= E]. destruct (Hwl (waits_forever n)) as [Hw _]. by rewrite E in Hw.
      * intros E%(awf_mem _ (kc_wf _ _ (ki_core _ Hinv))). rewrite Hpe in E. set_solver.
  - split; cbn [k_vars k_lists].
    + exact Hcont.
    + intros i. rewrite (pk_val _ _ _ _ _ Hpk), !(mv_val _ _ _ _ _ _ M). done.
    + rewrite (pk_items _ _ _ _ _ Hpk).
      * by rewrite (mv_items _ _ _ _ _ _ M), decide_True.
      * intros E. destruct (Hwl (waits_forever n)) as [Hw _]. unfold waits_forever in Hw. by rewrite <- E, Hl in Hw.
      * intros p' ->. done.
    + intros l'. by rewrite (pk_lists _ _ _ _ _ Hpk), (mv_lists _ _ _ _ _ _ M).
    + by exists x, nx, b.
Qed.

(** ** Rounds *)

(** The caller has given up: nothing has moved. *)
Record gave_up k k' : Prop := {
  gu_quiet : quiet k';
  gu_highest : runs_highest k';
  gu_frame : frame k k';
  gu_cont i : cont_of (k_lists k') i = cont_of (k_lists k) i
}.

(** The caller waits in [l]; another task runs. *)
Record went_to_wait (l : list_id) (n : Z) k k' : Prop := {
  ww_quiet : quiet k';
  ww_highest : runs_highest k';
  ww_frame : frame k k';
  ww_cont i : cont_of (k_lists k') i =
    if decide (i = EventItem (pxCurrentTCB (k_vars k))) then Some l
    else if decide (i = StateItem (pxCurrentTCB (k_vars k))) then Some (wait_list (k_vars k) n (waits_forever n))
    else cont_of (k_lists k) i;
  ww_val i : val_of (k_lists k') i =
    if decide (i = StateItem (pxCurrentTCB (k_vars k))) then
      if waits_forever n then val_of (k_lists k) (StateItem (pxCurrentTCB (k_vars k))) else xTickCount (k_vars k) +u n
    else val_of (k_lists k) i;
  ww_items : items_of (k_lists k') l = insert_sorted (val_of (k_lists k)) (val_of (k_lists k) (EventItem (pxCurrentTCB (k_vars k))))
    (EventItem (pxCurrentTCB (k_vars k))) (items_of (k_lists k) l);
  ww_time : xTickCount (k_vars k') = xTickCount (k_vars k) /\ xNumOfOverflows (k_vars k') = xNumOfOverflows (k_vars k) /\
    pxDelayedTaskList (k_vars k') = pxDelayedTaskList (k_vars k) /\
    pxOverflowDelayedTaskList (k_vars k') = pxOverflowDelayedTaskList (k_vars k);
  ww_tcbs : exists y, tcbs (k_vars k) !! pxCurrentTCB (k_vars k) = Some y /\
    tcbs (k_vars k') = <[pxCurrentTCB (k_vars k) := set_ucDelayAborted pdFALSE y]> (tcbs (k_vars k))
}.

(** The kernel with the scheduler suspended and the queue locked. *)
Definition locked_at (q : Z) (x : Queue_t) k : KA := with_queue q (locked x) (suspended k).

Lemma locked_rest q x k : quiet k -> at_rest (locked_at q x k).
Proof. intros Hq. by apply with_queue_rest, quiet_suspended. Qed.

Lemma block_wp {A} q x l n (r : A) k : quiet k -> current_ready k -> other_ready k -> is_event_list l = true ->
  l <> xPendingReadyList -> is_Some (a_lists (k_lists k) !! l) -> (forall t, val_of (k_lists k) (EventItem t) <= portMAX_DELAY) ->
  u32_range n -> n <> 0 -> queues (k_vars k) !! q = Some x -> unlocked x ->
  wp (run (atomic (vTaskPlaceOnEventList l n);; prvUnlockQueue q;; resume_and_yield;; mret r))
    (fun r' k' => r' = r /\ went_to_wait l n k k') (locked_at q x k).
Proof.
  intros Hq Hcur Hoth Hl Hnp Hex Hval Hn Hn0 Hx Hu. pose proof (locked_rest q x k Hq) as Hr.
  apply wp_run_bind, wp_run_atomic. eapply wp_mono; [by apply place_wp|]. intros [] k1 [Hr1 [Hco Hva Hit Hls (y & nx & b & Hy & Ev)]].
  cbn [k_vars k_lists locked_at with_queue suspended] in Hco, Hva, Hit, Hls, Hy, Ev.
  apply wp_run_bind. eapply unlock_wp; [rewrite Ev; apply lookup_insert_eq|done|].
  apply wp_run_bind. unfold resume_and_yield. apply wp_run_bind, wp_run_atomic.
  eapply wp_mono; [exact (wp_bind_inv _ _ _ _ (resume_and_yield_wp _ (with_queue_rest q x k1 Hr1)))|]. cbv beta. intros z k2 Hw.
  assert (Hw' : wp (run (if z =? pdFALSE then atomic portYIELD else mret tt)) (fun _ k' =>
    settled (with_queue q x k1) k' /\ quiet k' /\ runs_highest k') k2) by (destruct (z =? pdFALSE); [by apply wp_run_atomic|exact Hw]).
  eapply wp_mono; [exact Hw'|]. intros [] k3 ([Sc Sv Si Sl (cur & yp & s & Es)] & Hq3 & Hh3). apply wp_run_ret.
  cbn [k_vars k_lists with_queue] in Sc, Sv, Si, Sl, Es. split; [done|]. split; try done.
  - split; [split|].
    + intros l'. by rewrite Sl, Hls.
    + intros t. right. by rewrite Sv, Hva, decide_False.
    + rewrite Es, Ev. split; try done; [by apply with_queue_queues|]. intros t. by eapply (note_of_insert _ _ _ y).
  - intros i. by rewrite Sc, Hco.
  - intros i. by rewrite Sv, Hva.
  - by rewrite Si, Hit.
  - by rewrite Es, Ev.
  - exists y. split; [done|]. by rewrite Es, Ev.
Qed.

Lemma give_up_wp {A} q x (p : prog KA A) (Q : A -> KA -> Prop) k kc : quiet k -> runs_highest k -> queues (k_vars k) !! q = Some x -> unlocked x ->
  (kc = locked_at q x k \/ exists y, tcbs (k_vars k) !! pxCurrentTCB (k_vars k) = Some y /\ kc = unaborted y (locked_at q x k)) ->
  (forall k', gave_up k k' -> wp (run p) Q k') ->
  wp (run (prvUnlockQueue q;; atomic xTaskResumeAll;; p)) Q kc.
Proof.
  intros Hq Hhi Hx Hu Hkc HQ. pose proof (locked_rest q x k Hq) as Hr.
  assert (Hc : at_rest kc /\ runs_highest kc /\ k_lists kc = k_lists k /\ queues (k_vars kc) = <[q := locked x]> (queues (k_vars k)) /\
    same_objects (k_vars k) (set_queues (queues (k_vars k)) (k_vars kc))).
  { destruct Hkc as [->|(y & Hy & ->)]; [done|]. split_and!; [by apply unaborted_rest|by apply unaborted_highest|done|done|].
    split; try done. intros t. by eapply note_of_insert. }
  destruct Hc as (Hrc & Hhc & El & Eq & Eo). apply wp_run_bind. eapply unlock_wp; [rewrite Eq; apply lookup_insert_eq|done|].
  apply wp_run_bind, wp_run_atomic. eapply wp_mono; [apply resume_settles; [by apply with_queue_rest|right; by apply with_queue_highest]|].
  intros z k3 ([Sc Sv Si Sl (cur & yp & s & Es)] & Hq3 & Hh3). cbn [k_vars k_lists with_queue] in Sc, Sv, Si, Sl, Es.
  apply HQ. rewrite El in Sc, Sv, Sl. split; [done|done| |exact Sc]. split; [split|].
  - exact Sl.
  - intros t. right. apply Sv.
  - rewrite Es. destruct Eo as [_ Eg En Ei Et Er]. split; [|exact Eg|exact En|exact Ei|exact Et|exact Er]. simpl. rewrite Eq. by apply with_queue_queues.
Qed.

(** The steps up to the look at the time-out. *)
Lemma lock_and_check_wp {A} q x l (f : bool * q_locals -> prog KA A) (Q : A -> KA -> Prop) k : quiet k -> queues (k_vars k) !! q = Some x -> unlocked x ->
  waits_on l ->
  (forall r kc, (kc = locked_at q x k \/ exists y, tcbs (k_vars k) !! pxCurrentTCB (k_vars k) = Some y /\ kc = unaborted y (locked_at q x k)) ->
    l_inherited r.2 = l_inherited l -> (r.1 = false -> kc = locked_at q x k /\ waits_on r.2) -> wp (run (f r)) Q kc) ->
  wp (run (atomic vTaskSuspendAll;; atomic (prvLockQueue q);; r ← atomic (check_timeout l); f r)) Q k.
Proof.
  intros Hq Hx Hu Hw HQ. destruct (kc_cur _ _ (ki_core _ (rn_inv _ (qt_running _ Hq)))) as [y Hy].
  apply wp_run_bind, wp_run_atomic, suspend_wp; [apply Hq|].
  apply wp_run_bind, wp_run_atomic. eapply lock_wp; [exact Hx|done|]. apply wp_run_bind, wp_run_atomic.
  eapply wp_mono; [apply (check_wp _ y); [exact Hy|done]|]. intros r kc (Hkc & Hi & Hf). apply HQ; [|done|done].
  destruct Hkc as [->| ->]; [by left|right; eauto].
Qed.

End Blocking.
