(* ===== verification/WaitTheorems.v ===== *)
(** * Rounds of the blocking queue functions

    What one round of xQueueGenericSend, xQueueReceive, xQueuePeek and
    xQueueSemaphoreTake does when no interrupt comes in the middle: it
    succeeds, gives up, or puts the caller to sleep in the queue's list of
    waiting tasks. *)

From S2P Require Import Prelude Simulation History Config ListC ListSpec ListRefine ListObs ListProps Heap4 Kernel Tasks TaskApi TaskEvents Queue KernelRefine KernelInv Frames KernelSteps SchedProps ResumeProps KernelDemo SchedTheorems SuspendProps PriorityProps PriorityTheorems EventProps QueueData QueueTheorems SemaphoreTheorems BlockProps.

Section Rounds.
Implicit Types (k : KA) (x : Queue_t).

(** The running task may wait for the queue at [q]. *)
Record can_wait (q : Z) x k : Prop := {
  cw_quiet : quiet k;
  cw_highest : runs_highest k;
  cw_current : current_ready k;
  cw_other : other_ready k;
  cw_queue : has_queue q x k;
  cw_unlocked : unlocked x;
  cw_values t : val_of (k_lists k) (EventItem t) <= portMAX_DELAY
}.

(** The time of entry into a blocking function. *)
Definition entry_time k : TimeOut_t := mkTimeOut (xNumOfOverflows (k_vars k)) (xTickCount (k_vars k)).

Definition started (l : q_locals) k : q_locals :=
  mkLocals (l_ticks l) (Some (from_option id (entry_time k) (l_timeout l))) (l_inherited l).

Lemma or_wait_wp (Q : q_locals + Z -> KA -> Prop) err l k :
  (l_ticks l = 0 -> Q (inr err) k) -> (l_ticks l <> 0 -> Q (inl (started l k)) k) -> wp (or_wait err l) Q k.
Proof.
  intros H0 H1. unfold or_wait, started in *. destruct (Z.eqb_spec (l_ticks l) 0) as [E|E]; [wstep; auto|].
  destruct (l_timeout l) as [to|] eqn:Et; simpl in *.
  - wstep. specialize (H1 E). destruct l. simpl in *. rewrite Et. exact H1.
  - unfold vTaskInternalSetTimeOutState. wsteps. by apply H1.
Qed.

Lemma started_waits l k : u32_range (l_ticks l) -> l_ticks l <> 0 -> waits_on (started l k).
Proof. intros. split; [done|]. split; [done|]. unfold started. simpl. eauto. Qed.

(** What a round leaves behind if it does not succeed. *)
Inductive unsuccessful {R} (lst : list_id) (err : R) k : q_locals + R -> KA -> Prop :=
  | round_failed k' : gave_up k k' -> unsuccessful lst err k (inr err) k'
  | round_again l k' : gave_up k k' -> unsuccessful lst err k (inl l) k'
  | round_waits l k' : went_to_wait lst (l_ticks l) k k' -> waits_on l -> unsuccessful lst err k (inl l) k'.

Lemma gave_up_refl k : quiet k -> runs_highest k -> gave_up k k.
Proof. by split. Qed.

Lemma gave_up_queue q x k k' : gave_up k k' -> has_queue q x k -> has_queue q x k'.
Proof.
  intros [_ _ [[Hl _] [Eq _ _ _]] _] []. split; [by rewrite Eq|by apply Hl|by apply Hl].
Qed.

Lemma wp_run_read {A B} (m : M KA A) (f : A -> prog KA B) a (Q : B -> KA -> Prop) k :
  wp m (fun a' k' => a' = a /\ k' = k) k -> wp (run (f a)) Q k -> wp (run (x ← atomic m; f x)) Q k.
Proof.
  intros Hm HQ. apply wp_run_bind, wp_run_atomic. eapply wp_mono; [exact Hm|]. by intros a' k' [-> ->].
Qed.

Lemma is_empty_wp q x k : queues (k_vars k) !! q = Some x ->
  wp (prvIsQueueEmpty q) (fun b k' => b = (uxMessagesWaiting x =? 0) /\ k' = k) k.
Proof. intros Hx. unfold prvIsQueueEmpty. wstep. eapply wp_rd_queue; [exact Hx|]. by wstep. Qed.

Lemma is_full_wp q x k : queues (k_vars k) !! q = Some x ->
  wp (prvIsQueueFull q) (fun b k' => b = (uxMessagesWaiting x =? uxLength x) /\ k' = k) k.
Proof.
  intros Hx. unfold prvIsQueueFull. wstep. eapply wp_rd_queue; [exact Hx|]. wstep. eapply wp_rd_queue; [exact Hx|]. by wstep.
Qed.

(** ** Receiving from an empty queue *)

Lemma receive_wait_wp q x l k : can_wait q x k -> uxMessagesWaiting x = 0 -> waits_on l ->
  wp (run (receive_wait q l)) (unsuccessful (xTasksWaitingToReceive q) (errQUEUE_EMPTY, []) k) k.
Proof.
  intros [Hq Hhi Hcur Hoth Hx Hu Hval] He Hl. unfold receive_wait.
  apply (lock_and_check_wp q x); [done|apply Hx|done|done|]. intros [[|] l'] kc Hkc Hi Hf; cbn [fst snd] in *.
  - apply (give_up_wp q x _ _ k); [done|done|apply Hx|done|done|]. intros k' Hg.
    pose proof (gave_up_queue _ _ _ _ Hg Hx) as Hx'. eapply wp_run_read; [apply is_empty_wp, Hx'|].
    rewrite He. cbn. apply wp_ret. by apply round_failed.
  - destruct (Hf eq_refl) as [-> Hl']. eapply wp_run_read; [eapply is_empty_wp, lookup_with_queue|].
    change (uxMessagesWaiting (locked x)) with (uxMessagesWaiting x). rewrite He. cbn [Z.eqb].
    eapply wp_mono; [apply (block_wp q x _ _ _ k); try done; [apply Hx|apply Hl'|apply Hl'|apply Hx]|].
    intros r k' [-> Hw]. by apply round_waits.
Qed.

(** A round whose critical section ends without success. *)
Lemma failed_try_wp {R} (m : M KA (q_locals + R)) (f : q_locals + R -> prog KA (q_locals + R)) lst err l k :
  quiet k -> runs_highest k -> u32_range (l_ticks l) ->
  (forall Q : q_locals + R -> KA -> Prop, (l_ticks l = 0 -> Q (inr err) k) -> (l_ticks l <> 0 -> Q (inl (started l k)) k) -> wp m Q k) ->
  f (inr err) = mret (inr err) ->
  (waits_on (started l k) -> wp (run (f (inl (started l k)))) (unsuccessful lst err k) k) ->
  wp (run (r ← atomic m; f r)) (unsuccessful lst err k) k.
Proof.
  intros Hq Hhi Hl Hm Ef Hw. apply wp_run_bind, wp_run_atomic, Hm.
  - intros _. rewrite Ef. apply wp_run_ret. apply round_failed. by apply gave_up_refl.
  - intros H0. apply Hw. by apply started_waits.
Qed.

(** The message on an empty queue, in the form the receiving functions return it. *)
Lemma receive_or_wait_wp (Q : q_locals + (Z * list Z) -> KA -> Prop) l k :
  (l_ticks l = 0 -> Q (inr (errQUEUE_EMPTY, [])) k) -> (l_ticks l <> 0 -> Q (inl (started l k)) k) ->
  wp (r ← or_wait errQUEUE_EMPTY l; mret (match r with inl l => inl l | inr e => inr (e, []) end)) Q k.
Proof. intros H0 H1. wstep. apply or_wait_wp; intros; wstep; auto. Qed.

Lemma receive_round_wp q x xs l k : can_wait q x k -> ring x xs -> u32_range (l_ticks l) ->
  wp (run (xQueueReceive_iter q l)) (fun r k' =>
    match xs with
    | y :: xs' => r = inr (pdPASS, y) /\ exists x', same_queue x x' /\ ring x' xs' /\
        served (xTasksWaitingToSend q) (with_queue q x' k) k'
    | [] => unsuccessful (xTasksWaitingToReceive q) (errQUEUE_EMPTY, []) k r k'
    end) k.
Proof.
  intros Hw Hr Hl. pose proof Hw as [Hq Hhi _ _ Hx _ _]. pose proof (rg_count _ _ Hr) as Hn. unfold xQueueReceive_iter.
  destruct xs as [|y xs].
  - apply (failed_try_wp _ _ _ _ l); [done|done|done| |done|intros Hl'; by apply (receive_wait_wp q x)].
    intros Q H0 H1. unfold receive_try. wstep. eapply wp_rd_queue; [apply Hx|]. rewrite Hn. cbn [length Z.of_nat Z.ltb Z.compare].
    by apply receive_or_wait_wp.
  - apply wp_run_bind, wp_run_atomic. eapply wp_mono; [eapply receive_item_wp; [apply Hq|done|done]|].
    intros r k' [-> Hx']. by apply wp_run_ret.
Qed.

Lemma peek_round_wp q x xs l k : can_wait q x k -> ring x xs -> u32_range (l_ticks l) ->
  wp (run (xQueuePeek_iter q l)) (fun r k' =>
    match xs with
    | y :: _ => r = inr (pdPASS, y) /\ served (xTasksWaitingToReceive q) (with_queue q x k) k'
    | [] => unsuccessful (xTasksWaitingToReceive q) (errQUEUE_EMPTY, []) k r k'
    end) k.
Proof.
  intros Hw Hr Hl. pose proof Hw as [Hq Hhi _ _ Hx _ _]. pose proof (rg_count _ _ Hr) as Hn. unfold xQueuePeek_iter.
  destruct xs as [|y xs].
  - apply (failed_try_wp _ _ _ _ l); [done|done|done| |done|intros Hl'; by apply (receive_wait_wp q x)].
    intros Q H0 H1. unfold peek_try. wstep. eapply wp_rd_queue; [apply Hx|]. rewrite Hn. cbn [length Z.of_nat Z.ltb Z.compare].
    by apply receive_or_wait_wp.
  - apply wp_run_bind, wp_run_atomic. eapply wp_mono; [eapply peek_item_wp; [apply Hq|done|done]|].
    intros r k' [-> Hx']. by apply wp_run_ret.
Qed.

(** ** Sending to a full queue *)

Lemma send_round_wp q x xs it pos l k : can_wait q x k -> ring x xs -> u32_range (l_ticks l) ->
  uxItemSize x <= Z.of_nat (length it) ->
  has_room pos x xs \/ uxLength x = Z.of_nat (length xs) /\ pos <> queueOVERWRITE ->
  wp (run (xQueueGenericSend_iter q it pos l)) (fun r k' =>
    r = inr pdPASS /\ (exists x', same_queue x x' /\ ring x' (put pos (take (Z.to_nat (uxItemSize x)) it) xs) /\
       served (xTasksWaitingToReceive q) (with_queue q x' k) k') \/
    uxLength x = Z.of_nat (length xs) /\ unsuccessful (xTasksWaitingToSend q) errQUEUE_FULL k r k') k.
Proof.
  intros Hw Hr Hl Hit Hroom. pose proof Hw as [Hq Hhi Hcur Hoth Hx Hu Hval]. pose proof (rg_count _ _ Hr) as Hn.
  unfold xQueueGenericSend_iter. destruct Hroom as [Hroom|[Hfull Hpos]].
  - apply wp_run_bind, wp_run_atomic. eapply wp_mono; [eapply send_room_wp; [apply Hq|done|done|done|done]|].
    intros r k' [-> Hx']. apply wp_run_ret. by left.
  - eapply wp_mono; [|intros r k' Hun; right; split; [exact Hfull|exact Hun]].
    apply (failed_try_wp _ _ _ _ l); [done|done|done| |done|].
    + intros Q H0 H1. unfold send_try. wstep. eapply wp_rd_queue; [apply Hx|]. wstep. eapply wp_rd_queue; [apply Hx|].
      rewrite Hn, Hfull, Z.ltb_irrefl, (proj2 (Z.eqb_neq pos _)) by done. by apply or_wait_wp.
    + intros Hl'. apply (lock_and_check_wp q x); [done|apply Hx|done|done|]. intros [[|] l'] kc Hkc Hi Hf; cbn [fst snd] in *.
      * apply (give_up_wp q x _ _ k); [done|done|apply Hx|done|done|]. intros k' Hg. apply wp_run_ret. by apply round_failed.
      * destruct (Hf eq_refl) as [-> Hw']. eapply wp_run_read; [eapply is_full_wp, lookup_with_queue|].
        change (uxMessagesWaiting (locked x)) with (uxMessagesWaiting x). change (uxLength (locked x)) with (uxLength x).
        rewrite Hn, Hfull, Z.eqb_refl.
        eapply wp_mono; [apply (block_wp q x _ _ _ k); try done; [apply Hx|apply Hw'|apply Hw'|apply Hx]|].
        intros r k' [-> Hww]. by apply round_waits.
Qed.

(** ** Taking a semaphore *)

(** A semaphore that is not a mutex has no holder to raise. *)
Lemma take_round_wp q x n l k : can_wait q x k -> sem x n -> u32_range (l_ticks l) -> l_inherited l = pdFALSE ->
  wp (run (xQueueSemaphoreTake_iter q l)) (fun r k' =>
    0 < n /\ r = inr pdPASS /\ served (xTasksWaitingToSend q) (with_queue q (set_uxMessagesWaiting (n - 1) x) k) k' \/
    n = 0 /\ unsuccessful (xTasksWaitingToReceive q) errQUEUE_EMPTY k r k' /\
      forall l', r = inl l' -> l_inherited l' = pdFALSE) k.
Proof.
  intros Hw Hs Hl Hin. pose proof Hw as [Hq Hhi Hcur Hoth Hx Hu Hval]. pose proof Hs as [_ Hty Hn Hr _].
  destruct (decide (0 < n)) as [Hpos|Hz].
  - apply wp_run_bind, wp_run_atomic. eapply wp_mono; [eapply take_some_wp; [apply Hq|done|done|done]|].
    intros r k' [-> Hx']. apply wp_run_ret. by left.
  - assert (n = 0) as -> by lia. unfold xQueueSemaphoreTake_iter. apply wp_run_bind, wp_run_atomic. unfold take_try.
    wstep. eapply wp_rd_queue; [apply Hx|]. rewrite Hn. cbn [Z.ltb Z.compare]. apply or_wait_wp.
    { intros _. apply wp_run_ret. right. split; [done|]. split; [|done]. apply round_failed. by apply gave_up_refl. }
    intros H0. pose proof (started_waits l k Hl H0) as Hl'.
    apply (lock_and_check_wp q x); [done|apply Hx|done|done|]. intros [[|] l'] kc Hkc Hi Hf; cbn [fst snd] in *.
    + apply (give_up_wp q x _ _ k); [done|done|apply Hx|done|done|]. intros k' Hg.
      pose proof (gave_up_queue _ _ _ _ Hg Hx) as Hx'. eapply wp_run_read; [apply is_empty_wp, Hx'|].
      rewrite Hn. cbn [Z.eqb]. rewrite Hi. cbn [started l_inherited]. rewrite Hin. cbn [negb Z.eqb pdFALSE].
      apply wp_ret. right. split; [done|]. split; [by apply round_failed|done].
    + destruct (Hf eq_refl) as [-> Hw']. eapply wp_run_read; [eapply is_empty_wp, lookup_with_queue|].
      change (uxMessagesWaiting (locked x)) with (uxMessagesWaiting x). rewrite Hn. cbn [Z.eqb].
      apply wp_run_read with (a := l').
      { unfold inherit_for_mutex. wstep. eapply wp_rd_queue; [apply lookup_with_queue|].
        change (uxQueueType (locked x)) with (uxQueueType x). rewrite (proj2 (Z.eqb_neq _ _)) by done. by wstep. }
      eapply wp_mono; [apply (block_wp q x _ _ _ k); try done; [apply Hx|apply Hw'|apply Hw'|apply Hx]|].
      intros r k' [-> Hww]. right. split; [done|]. split; [by apply round_waits|]. intros l2 [= <-]. by rewrite Hi.
Qed.

End Rounds.
