(* ===== verification/NotifyProps.v ===== *)
(** * Notifications

    What the functions of direct-to-task notifications do to the scheduler's
    state: waiting for a notification puts the running task to sleep without
    an event list, and a notification wakes the task it is for, wherever it
    sleeps. *)

From S2P Require Import Prelude Simulation Config ListC ListSpec ListRefine ListObs ListProps Heap4 Kernel Tasks TaskApi TaskEvents Queue KernelRefine KernelInv Frames KernelSteps SchedProps ResumeProps KernelDemo SchedTheorems SuspendProps PriorityProps PriorityTheorems EventProps QueueData QueueTheorems BlockProps.

Section Notify.
Implicit Types (k : KA) (h : AH) (v : Vars) (x y z : TCB_t).

(** ** TCBs whose priorities stay *)

Definition with_tcb (t : Z) y k : KA := mkKernel (k_lists k) (put_tcb t y (k_vars k)).

Definition same_priority x y : Prop := uxPriority y = uxPriority x /\ uxBasePriority y = uxBasePriority x.

Lemma with_tcb_inv k t x y : kinv k -> tcbs (k_vars k) !! t = Some x -> same_priority x y -> kinv (with_tcb t y k).
Proof.
  intros [HK HT] Hx [Hp Hb]. destruct k as [h v]. unfold with_tcb. cbn [k_lists k_vars] in *. destruct (kc_prio _ _ HK _ _ Hx).
  split; [|by eapply ktime_vars; [..|exact HT]].
  eapply kcore_tcb; [exact HK|exact Hx|by rewrite Hp|by rewrite Hb|]. intros p Hc. rewrite Hp. exact (kc_ready _ _ HK _ _ _ Hc Hx).
Qed.

Lemma with_tcb_running k t x y : running k -> tcbs (k_vars k) !! t = Some x -> same_priority x y -> running (with_tcb t y k).
Proof. intros [] ? ?. split; try done. by eapply with_tcb_inv. Qed.

Lemma with_tcb_quiet k t x y : quiet k -> tcbs (k_vars k) !! t = Some x -> same_priority x y -> quiet (with_tcb t y k).
Proof. intros [] ? ?. split; [by eapply with_tcb_running|done..]. Qed.

Lemma with_tcb_highest k t x y : tcbs (k_vars k) !! t = Some x -> same_priority x y -> runs_highest k ->
  runs_highest (with_tcb t y k).
Proof.
  intros Hx [Hp _] (w & Hw & Hc & Hm). unfold runs_highest, with_tcb. cbn [k_lists k_vars]. simpl.
  destruct (decide (t = pxCurrentTCB (k_vars k))) as [->|Hne].
  - exists y. simplify_eq. by rewrite lookup_insert_eq, Hp.
  - exists w. by rewrite lookup_insert_ne.
Qed.

(** ** Notifying *)

(** The TCB after a notification. *)
Definition notified (value : Z) (act : eNotifyAction) x : TCB_t :=
  set_ulNotifiedValue (notify_action act value (ucNotifyState x) (ulNotifiedValue x)).1
    (set_ucNotifyState taskNOTIFICATION_RECEIVED x).

Lemma notified_priority value act x : same_priority x (notified value act x).
Proof. done. Qed.

Definition awaits_note x : bool := ucNotifyState x =? taskWAITING_NOTIFICATION.

(** A task that waits for a notification is in no event list. *)
Record notifiable (t : Z) x k : Prop := {
  nb_tcb : tcbs (k_vars k) !! t = Some x;
  nb_placed : is_Some (cont_of (k_lists k) (StateItem t));
  nb_event : awaits_note x = true -> cont_of (k_lists k) (EventItem t) = None
}.

Lemma rouse_wp (Q : unit -> KA -> Prop) k t x : running k -> tcbs (k_vars k) !! t = Some x ->
  is_Some (cont_of (k_lists k) (StateItem t)) -> cont_of (k_lists k) (EventItem t) = None ->
  (forall a', let k' := mkKernel a' (record_ready (uxPriority x) (k_vars k)) in
    kinv k' -> kpend k' -> woken (Z.eqb t) (k_vars k) (k_lists k) a' -> Q tt k') ->
  wp (listREMOVE (StateItem t);; prvAddTaskToReadyList t) Q k.
Proof.
  intros Hrun Hx [l Hl] He HQ. destruct k as [h v]. cbn [k_lists k_vars] in *.
  eapply make_ready_wp; [apply Hrun|exact Hx|exact Hl|exact He|]. intros a' Hinv Hw. apply HQ; [done| |done].
  eapply woken_pend; [exact Hw|apply Hrun|]. intros u <-%Z.eqb_eq. eauto.
Qed.

Lemma set_yield_id v : set_xYieldPending (xYieldPending v) v = v.
Proof. by destruct v. Qed.

(** The running task gives way to the task it has woken. *)
Lemma rouse_yield_wp {A} (r : A) k t x : running k -> tcbs (k_vars k) !! t = Some x ->
  is_Some (cont_of (k_lists k) (StateItem t)) -> cont_of (k_lists k) (EventItem t) = None ->
  wp ((listREMOVE (StateItem t);; prvAddTaskToReadyList t;;
       p ← rd_tcb t uxPriority; cur ← rdv pxCurrentTCB; pc ← rd_tcb cur uxPriority; when (pc <? p) portYIELD);; mret r)
    (fun r' k' => r' = r /\ roused t k k') k.
Proof.
  intros Hrun Hx Hl He. destruct (kc_cur _ _ (ki_core _ (rn_inv _ Hrun))) as [y Hy].
  wstep. apply wp_bind2. eapply rouse_wp; [done|exact Hx|done|done|]. intros a' k1 Hinv1 Hp1 Hw. wsteps.
  eapply (wp_mono _ (fun _ k' => roused t k k')); [|intros [] k' Hr; wsteps; split; [done|exact Hr]].
  subst k1. rewrite <- (set_yield_id (record_ready _ _)) in Hinv1, Hp1 |- *.
  eapply (woken_yield_wp k t x y); [done..|]. by intros ->%Z.ltb_lt.
Qed.

Lemma notify_wp k t x value act : running k -> notifiable t x k ->
  wp (xTaskGenericNotify t value act) (fun r k' =>
    r = ((notify_action act value (ucNotifyState x) (ulNotifiedValue x)).2, ulNotifiedValue x) /\
    if awaits_note x then roused t (with_tcb t (notified value act x) k) k' else k' = with_tcb t (notified value act x) k) k.
Proof.
  intros Hrun [Hx Hl He]. unfold xTaskGenericNotify. wsteps. unfold awaits_note in *.
  destruct (notify_action _ _ _ _) as [new ret] eqn:E. wstep. eapply wp_wr_tcb; [simpl; apply lookup_insert_eq|].
  cbn [k_lists k_vars]. match goal with |- wp _ _ ?k0 => replace k0 with (with_tcb t (notified value act x) k) end.
  2: { unfold with_tcb, put_tcb, notified. rewrite E. cbn [k_lists k_vars]. simpl. by rewrite insert_insert_eq. }
  pose proof (with_tcb_running _ _ _ _ Hrun Hx (notified_priority value act x)) as Hrun1.
  destruct (ucNotifyState x =? taskWAITING_NOTIFICATION).
  - apply rouse_yield_wp with (x := notified value act x); [done|apply lookup_insert_eq|exact Hl|exact (He eq_refl)].
  - wsteps. done.
Qed.

(** In an interrupt handler the switch comes at the end. *)
Lemma rouse_isr_wp (Q : bool -> KA -> Prop) k t x : running k -> tcbs (k_vars k) !! t = Some x ->
  is_Some (cont_of (k_lists k) (StateItem t)) -> cont_of (k_lists k) (EventItem t) = None ->
  (forall b k1, wp (portEND_SWITCHING_ISR b) (fun _ k' => roused t k k') k1 -> Q b k1) ->
  wp (ready_or_pend t;; note_if_higher t) Q k.
Proof.
  intros Hrun Hx Hl He HQ. destruct (kc_cur _ _ (ki_core _ (rn_inv _ Hrun))) as [y Hy].
  unfold ready_or_pend. wsteps. rewrite (rn_suspended _ Hrun). change (0 =? pdFALSE) with true. cbn iota.
  eapply rouse_wp; [done|exact Hx|done|done|]. intros a' k1 Hinv1 Hp1 Hw. subst k1.
  eapply note_if_higher_wp; [exact Hx|exact Hy|].
  destruct (note_higher_shape (record_ready (uxPriority x) (k_vars k)) x y) as [z Ez]. rewrite Ez. apply HQ.
  unfold portEND_SWITCHING_ISR. apply (woken_yield_wp k t x y); try done.
  - destruct k as [h v]. by eapply kinv_vars; [..|exact Hinv1].
  - by intros ->%Z.ltb_lt.
Qed.

Lemma no_switch_wp k : wp (portEND_SWITCHING_ISR false) (fun _ k' => k' = k) k.
Proof. unfold portEND_SWITCHING_ISR, when. by wstep. Qed.

Lemma notify_isr_wp k t x value act : running k -> notifiable t x k ->
  wp (r ← xTaskGenericNotifyFromISR t value act; portEND_SWITCHING_ISR r.2) (fun _ k' =>
    if awaits_note x then roused t (with_tcb t (notified value act x) k) k' else k' = with_tcb t (notified value act x) k) k.
Proof.
  intros Hrun [Hx Hl He]. unfold xTaskGenericNotifyFromISR. wsteps. unfold awaits_note in *.
  destruct (notify_action _ _ _ _) as [new ret] eqn:E. wstep. eapply wp_wr_tcb; [simpl; apply lookup_insert_eq|].
  cbn [k_lists k_vars]. match goal with |- wp _ _ ?k0 => replace k0 with (with_tcb t (notified value act x) k) end.
  2: { unfold with_tcb, put_tcb, notified. rewrite E. cbn [k_lists k_vars]. simpl. by rewrite insert_insert_eq. }
  pose proof (with_tcb_running _ _ _ _ Hrun Hx (notified_priority value act x)) as Hrun1. wstep.
  destruct (ucNotifyState x =? taskWAITING_NOTIFICATION).
  - apply (rouse_isr_wp _ _ _ (notified value act x)); [done|apply lookup_insert_eq|exact Hl|exact (He eq_refl)|].
    intros b k1 Hw. by wstep.
  - wsteps. apply no_switch_wp.
Qed.

Lemma give_isr_wp k t x : running k -> notifiable t x k ->
  wp (b ← vTaskGenericNotifyGiveFromISR t; portEND_SWITCHING_ISR b) (fun _ k' =>
    if awaits_note x then roused t (with_tcb t (notified 0 eIncrement x) k) k' else k' = with_tcb t (notified 0 eIncrement x) k) k.
Proof.
  intros Hrun [Hx Hl He]. unfold vTaskGenericNotifyGiveFromISR. wsteps. unfold awaits_note in *.
  eapply wp_wr_tcb; [simpl; apply lookup_insert_eq|].
  cbn [k_lists k_vars]. match goal with |- wp _ _ ?k0 => replace k0 with (with_tcb t (notified 0 eIncrement x) k) end.
  2: { unfold with_tcb, put_tcb, notified. cbn [k_lists k_vars]. simpl. by rewrite insert_insert_eq. }
  pose proof (with_tcb_running _ _ _ _ Hrun Hx (notified_priority 0 eIncrement x)) as Hrun1.
  destruct (ucNotifyState x =? taskWAITING_NOTIFICATION).
  - apply (rouse_isr_wp _ _ _ (notified 0 eIncrement x)); [done|apply lookup_insert_eq|exact Hl|exact (He eq_refl)|done].
  - wsteps. apply no_switch_wp.
Qed.

(** ** Waiting *)

Lemma blocked_suspended k n b k' : blocked k n b k' -> blocked (suspended k) n b (suspended k').
Proof.
  intros (a' & x & nx & z & -> & Hx & Hinv & Hpk). destruct k as [h v]. exists a', x, nx, z.
  split; [by destruct v|]. split; [done|]. split; [by eapply kinv_vars; [..|exact Hinv]|exact Hpk].
Qed.

Lemma rest_quiet k : at_rest (suspended k) -> uxSchedulerSuspended (k_vars k) = 0 -> quiet k.
Proof.
  intros [Hinv Hp Hr _ Hpd He Hn] Hs. split; try done. split; try done. destruct k as [h v].
  by eapply kinv_vars; [..|exact Hinv].
Qed.

Lemma blocked_quiet k n b k' : quiet k -> other_ready k -> blocked k n b k' -> quiet k'.
Proof.
  intros Hq Ho Hb. apply rest_quiet.
  - by eapply blocked_rest; [apply quiet_suspended| |apply blocked_suspended].
  - destruct Hb as (a' & x & nx & z & -> & _). apply Hq.
Qed.

(** The running task went to sleep, in no event list. *)
Record dozed (n : Z) k k' : Prop := {
  dz_quiet : quiet k';
  dz_highest : runs_highest k';
  dz_frame : frame k k';
  dz_cont i : cont_of (k_lists k') i =
    if decide (i = StateItem (pxCurrentTCB (k_vars k))) then Some (wait_list (k_vars k) n (waits_forever n))
    else cont_of (k_lists k) i;
  dz_val i : val_of (k_lists k') i =
    if decide (i = StateItem (pxCurrentTCB (k_vars k))) then
      if waits_forever n then val_of (k_lists k) (StateItem (pxCurrentTCB (k_vars k))) else xTickCount (k_vars k) +u n
    else val_of (k_lists k) i;
  dz_time : xTickCount (k_vars k') = xTickCount (k_vars k) /\ xNumOfOverflows (k_vars k') = xNumOfOverflows (k_vars k) /\
    pxDelayedTaskList (k_vars k') = pxDelayedTaskList (k_vars k) /\
    pxOverflowDelayedTaskList (k_vars k') = pxOverflowDelayedTaskList (k_vars k);
  dz_tcbs : exists y, tcbs (k_vars k) !! pxCurrentTCB (k_vars k) = Some y /\
    tcbs (k_vars k') = <[pxCurrentTCB (k_vars k) := set_ucDelayAborted pdFALSE y]> (tcbs (k_vars k))
}.

Lemma sleep_wp k n : quiet k -> current_ready k -> other_ready k -> u32_range n -> n <> 0 ->
  wp (prvAddCurrentTaskToDelayedList n pdTRUE;; portYIELD) (fun _ k' => dozed n k k') k.
Proof.
  intros Hq (y & p & Hy & Hc & _) Ho Hn Hn0.
  eapply (wp_mono _ (fun _ k' => (exists k1, blocked k n (waits_forever n) k1 /\ settled k1 k' /\ quiet k' /\ runs_highest k') /\ frame k k')).
  - apply wp_keeps; [apply keeps_bind; [apply keeps_add_delayed|intros _; apply keeps_yield]|].
    wstep. eapply wp_mono; [by eapply add_delayed_wp; [apply Hq|..]|]. intros [] k1 Hb.
    unfold blocks_forever in Hb. change (negb (pdTRUE =? pdFALSE)) with true in Hb. rewrite andb_true_r in Hb.
    pose proof (blocked_quiet _ _ _ _ Hq Ho Hb) as Hq1. eapply wp_mono; [by apply yield_wp|]. eauto.
  - intros [] k' [(k1 & (a' & x & nx & b & -> & Hx & _ & Hpk) & [Sc Sv Si Sl (cur & yp & s & Es)] & Hq' & Hh') Hf].
    cbn [k_lists k_vars] in *. split; try done.
    + intros i. by rewrite Sc, (pk_cont _ _ _ _ _ Hpk).
    + intros i. by rewrite Sv, (pk_val _ _ _ _ _ Hpk).
    + by rewrite Es.
    + exists x. by rewrite Es.
Qed.

(** The first half of ulTaskNotifyTake. *)
Inductive take_waits (n : Z) x k : KA -> Prop :=
  | take_at_once : ulNotifiedValue x <> 0 -> take_waits n x k k
  | take_refused : ulNotifiedValue x = 0 -> n = 0 ->
      take_waits n x k (with_tcb (pxCurrentTCB (k_vars k)) (set_ucNotifyState taskWAITING_NOTIFICATION x) k)
  | take_sleeps k' : ulNotifiedValue x = 0 -> n <> 0 ->
      dozed n (with_tcb (pxCurrentTCB (k_vars k)) (set_ucNotifyState taskWAITING_NOTIFICATION x) k) k' -> take_waits n x k k'.

Lemma sleep_waiting_wp n x y k : quiet k -> current_ready k -> other_ready k -> u32_range n ->
  tcbs (k_vars k) !! pxCurrentTCB (k_vars k) = Some x -> same_priority x y ->
  let k1 := with_tcb (pxCurrentTCB (k_vars k)) y k in
  wp (if 0 <? n then prvAddCurrentTaskToDelayedList n pdTRUE;; portYIELD else mret tt)
    (fun _ k' => n = 0 /\ k' = k1 \/ n <> 0 /\ dozed n k1 k') k1.
Proof.
  intros Hq (y' & p & Hy & Hc & He) (u & q & Hne & Hu) Hn Hx Hxy k1.
  destruct (Z.ltb_spec 0 n) as [Hlt|Hge].
  - eapply wp_mono; [apply sleep_wp|].
    + by eapply with_tcb_quiet.
    + exists y, p. split; [apply lookup_insert_eq|]. done.
    + by exists u, q.
    + done.
    + lia.
    + intros [] k' Hs. right. split; [lia|exact Hs].
  - wstep. left. unfold u32_range in Hn. split; [lia|done].
Qed.

Lemma take_wait_wp n x k : quiet k -> current_ready k -> other_ready k -> u32_range n ->
  tcbs (k_vars k) !! pxCurrentTCB (k_vars k) = Some x ->
  wp (notify_take_wait n) (fun _ k' => take_waits n x k k') k.
Proof.
  intros Hq Hcur Ho Hn Hx. unfold notify_take_wait. wsteps. destruct (Z.eqb_spec (ulNotifiedValue x) 0) as [E|E].
  - wsteps. eapply wp_mono; [exact (sleep_waiting_wp n x (set_ucNotifyState taskWAITING_NOTIFICATION x) k Hq Hcur Ho Hn Hx ltac:(done))|].
    intros [] k' [[E0 ->]|[E0 Hs]]; [by apply take_refused|by apply take_sleeps].
  - wstep. by apply take_at_once.
Qed.

(** The second half: take what is there. *)
Definition taken (clear : Z) x : TCB_t :=
  set_ucNotifyState taskNOT_WAITING_NOTIFICATION
    (set_ulNotifiedValue (if ulNotifiedValue x =? 0 then 0 else if clear =? pdFALSE then ulNotifiedValue x -u 1 else 0) x).

Lemma take_finish_wp clear x k : tcbs (k_vars k) !! pxCurrentTCB (k_vars k) = Some x ->
  wp (notify_take_finish clear) (fun r k' => r = ulNotifiedValue x /\ k' = with_tcb (pxCurrentTCB (k_vars k)) (taken clear x) k) k.
Proof.
  intros Hx. unfold notify_take_finish, taken. wsteps. destruct (Z.eqb_spec (ulNotifiedValue x) 0) as [E|E]; simpl.
  - wsteps. split; [done|]. by replace (set_ulNotifiedValue 0 x) with x by (rewrite <- E; by destruct x).
  - wsteps. eapply wp_wr_tcb; [apply lookup_insert_eq|]. wsteps. split; [done|].
    unfold with_tcb, put_tcb. cbn [k_lists k_vars]. simpl. rewrite insert_insert_eq. by destruct (clear =? pdFALSE).
Qed.

(** xTaskNotifyWait, the same way: it looks at the state rather than at the
    value. *)
Definition wait_begun (clear : Z) x : TCB_t :=
  set_ucNotifyState taskWAITING_NOTIFICATION (set_ulNotifiedValue (Z.land (ulNotifiedValue x) (Z.lnot clear)) x).

Inductive wait_waits (clear n : Z) x k : KA -> Prop :=
  | wait_at_once : ucNotifyState x = taskNOTIFICATION_RECEIVED -> wait_waits clear n x k k
  | wait_refused : ucNotifyState x <> taskNOTIFICATION_RECEIVED -> n = 0 ->
      wait_waits clear n x k (with_tcb (pxCurrentTCB (k_vars k)) (wait_begun clear x) k)
  | wait_sleeps k' : ucNotifyState x <> taskNOTIFICATION_RECEIVED -> n <> 0 ->
      dozed n (with_tcb (pxCurrentTCB (k_vars k)) (wait_begun clear x) k) k' -> wait_waits clear n x k k'.

Lemma wait_wait_wp clear n x k : quiet k -> current_ready k -> other_ready k -> u32_range n ->
  tcbs (k_vars k) !! pxCurrentTCB (k_vars k) = Some x ->
  wp (notify_wait_wait clear n) (fun _ k' => wait_waits clear n x k k') k.
Proof.
  intros Hq Hcur Ho Hn Hx. unfold notify_wait_wait. wsteps. destruct (Z.eqb_spec (ucNotifyState x) taskNOTIFICATION_RECEIVED) as [E|E]; simpl.
  - wstep. by apply wait_at_once.
  - wsteps. eapply wp_wr_tcb; [apply lookup_insert_eq|].
    pose proof (sleep_waiting_wp n x (wait_begun clear x) k Hq Hcur Ho Hn Hx ltac:(done)) as Hw.
    unfold with_tcb, put_tcb in Hw. cbn [k_lists k_vars]. simpl. rewrite insert_insert_eq.
    eapply wp_mono; [exact Hw|]. intros [] k' [[E0 ->]|[E0 Hs]]; [by apply wait_refused|by apply wait_sleeps].
Qed.

Definition wait_ended (clear : Z) x : TCB_t :=
  set_ucNotifyState taskNOT_WAITING_NOTIFICATION
    (if ucNotifyState x =? taskNOTIFICATION_RECEIVED
     then set_ulNotifiedValue (Z.land (ulNotifiedValue x) (Z.lnot clear)) x else x).

Lemma wait_finish_wp clear x k : tcbs (k_vars k) !! pxCurrentTCB (k_vars k) = Some x ->
  wp (notify_wait_finish clear) (fun r k' =>
    r = (if ucNotifyState x =? taskNOTIFICATION_RECEIVED then pdTRUE else pdFALSE, ulNotifiedValue x) /\
    k' = with_tcb (pxCurrentTCB (k_vars k)) (wait_ended clear x) k) k.
Proof.
  intros Hx. unfold notify_wait_finish, wait_ended. wsteps. destruct (ucNotifyState x =? taskNOTIFICATION_RECEIVED); simpl; wsteps; [|done].
  eapply wp_wr_tcb; [apply lookup_insert_eq|]. wsteps. split; [done|].
  unfold with_tcb, put_tcb. cbn [k_lists k_vars]. simpl. by rewrite insert_insert_eq.
Qed.

(** ** Clearing *)

Definition handle_tcb k (t : Z) x : Prop := tcbs (k_vars k) !! handle_task (k_vars k) t = Some x.

Lemma state_clear_wp t x k : handle_tcb k t x -> wp (xTaskGenericNotifyStateClear t) (fun r k' =>
  if ucNotifyState x =? taskNOTIFICATION_RECEIVED
  then r = pdPASS /\ k' = with_tcb (handle_task (k_vars k) t) (set_ucNotifyState taskNOT_WAITING_NOTIFICATION x) k
  else r = pdFAIL /\ k' = k) k.
Proof.
  intros Hx. unfold xTaskGenericNotifyStateClear. wstep. apply wp_handle. unfold handle_tcb in Hx. wsteps.
  destruct (_ =? _); by wsteps.
Qed.

Lemma value_clear_wp t bits x k : handle_tcb k t x -> wp (ulTaskGenericNotifyValueClear t bits) (fun r k' =>
  r = ulNotifiedValue x /\
  k' = with_tcb (handle_task (k_vars k) t) (set_ulNotifiedValue (Z.land (ulNotifiedValue x) (Z.lnot bits)) x) k) k.
Proof.
  intros Hx. unfold ulTaskGenericNotifyValueClear. wstep. apply wp_handle. unfold handle_tcb in Hx. wsteps. done.
Qed.
End Notify.
