(* ===== verification/ControlProps.v ===== *)
(** * Suspending, resuming and waking tasks

    What vTaskSuspend, vTaskResume, xTaskResumeFromISR and xTaskAbortDelay do
    to the scheduler's state.  A suspended task is in xSuspendedTaskList and in no
    event list; the other two functions take a task from wherever it waits to
    its ready list. *)

From S2P Require Import Prelude Simulation Config ListC ListSpec ListRefine ListObs ListProps Heap4 Kernel Tasks TaskApi TaskEvents Queue KernelRefine KernelInv Frames KernelSteps SchedProps ResumeProps KernelDemo SchedTheorems SuspendProps PriorityProps PriorityTheorems EventProps QueueData QueueTheorems BlockProps NotifyProps.

Section Control.
Implicit Types (k : KA) (h : AH) (v : Vars) (x y z : TCB_t).

(** ** Suspension *)

(** A suspended task does not wait for a notification any more. *)
Definition calmed x : TCB_t :=
  if ucNotifyState x =? taskWAITING_NOTIFICATION then set_ucNotifyState taskNOT_WAITING_NOTIFICATION x else x.

Lemma calmed_priority x : same_priority x (calmed x).
Proof. unfold calmed. by destruct (_ =? _). Qed.

(** The items of [t] are where a suspended task has them; nothing else has moved. *)
Record aside (t : Z) h h' : Prop := {
  ad_cont i : cont_of h' i =
    if decide (i = StateItem t) then Some xSuspendedTaskList else if decide (i = EventItem t) then None else cont_of h i;
  ad_val i : val_of h' i = val_of h i;
  ad_lists l : is_Some (a_lists h' !! l) <-> is_Some (a_lists h !! l)
}.

(** The state item leaves its list, whichever that is, and the bitmap is
    brought up to date. *)
Lemma unlink_state_wp (Q : unit -> KA -> Prop) h v t x l : kinv (mkKernel h v) -> tcbs v !! t = Some x ->
  cont_of h (StateItem t) = Some l ->
  (forall a' b, kinv (mkKernel a' (set_uxTopReadyPriority b v)) -> gone (StateItem t) h a' ->
    Q tt (mkKernel a' (set_uxTopReadyPriority b v))) ->
  wp (n ← onlist (loRemove (StateItem t));
      if n =? 0 then p ← rd_tcb t uxPriority; taskRESET_READY_PRIORITY p else mret tt) Q (mkKernel h v).
Proof.
  intros [HK HT] Hx Hl HQ. wstep. eapply wp_remove; [apply (kc_wf _ _ HK)|exact Hl|]. intros a1 M1.
  assert (G1 : gone (StateItem t) h a1) by (eapply moved_gone; [apply (kc_wf _ _ HK)|exact Hl|exact M1]).
  pose proof (kcore_remove _ _ _ _ _ _ HK M1) as HK1. destruct (kc_prio _ _ HK _ _ Hx) as [Hp _].
  assert (Hrdy : forall p, l = Ready p -> p = uxPriority x) by (intros p ->; symmetry; exact (kc_ready _ _ HK _ _ _ Hl Hx)).
  assert (Hfin : forall v', (exists b, v' = set_uxTopReadyPriority b v) -> kcore none (mkKernel a1 v') -> Q tt (mkKernel a1 v')).
  { intros v' [b ->] HK2. apply HQ; [|done]. split; [done|]. eapply ktime_vars; [..|eapply ktime_remove; [exact HT|exact M1]]; done. }
  destruct (Z.eqb_spec (Z.of_nat (length (drop_elem (StateItem t) (items_of h l)))) 0) as [E|E].
  - wstep. wstep. eapply wp_taskRESET; [exact HK1|done|]. intros b HK2. apply Hfin.
    + apply reset_if_shape.
    + eapply kcore_weaken; [|exact HK2]. intros p [[Hf|Ep] Hne]; [done|]. by destruct Hne; auto.
  - wstep. apply Hfin; [exists (uxTopReadyPriority v); by destruct v|].
    destruct (decide (l = Ready (uxPriority x))) as [El|Hne].
    + subst l. apply (kcore_keep _ (uxPriority x)).
      * eapply kcore_weaken; [|exact HK1]. intros p [Hf|[= ->]]; [done|by right].
      * cbn [k_lists]. rewrite (mv_items _ _ _ _ _ _ M1), decide_True by done. intros En. rewrite En in E. by destruct E.
    + eapply kcore_weaken; [|exact HK1]. intros p [Hf|Ep]; [done|]. destruct Hne. by rewrite <- (Hrdy p).
Qed.

(** The first critical section of vTaskSuspend. *)
Lemma suspend_unlink_wp (Q : Z -> KA -> Prop) h v t0 x : let t := handle_task v t0 in
  kinv (mkKernel h v) -> tcbs v !! t = Some x -> is_Some (cont_of h (StateItem t)) ->
  (forall h' b, let k' := mkKernel h' (set_uxTopReadyPriority b (put_tcb t (calmed x) v)) in
    kinv k' -> aside t h h' -> Q t k') ->
  wp (suspend_unlink t0) Q (mkKernel h v).
Proof.
  intros t Hinv Hx [l Hl] HQ. unfold suspend_unlink. wstep. apply wp_handle. cbn [k_vars]. fold t.
  apply wp_bind2. eapply unlink_state_wp; [exact Hinv|exact Hx|exact Hl|]. intros a1 b Hinv1 G1.
  destruct (kc_item _ _ (ki_core _ Hinv1) t) as (Hsi & Hei & _); [eauto|]. cbn [k_lists] in Hsi, Hei.
  wstep. apply wp_container; [exact Hei|].
  assert (Hev : forall a2, kinv (mkKernel a2 (set_uxTopReadyPriority b v)) -> gone (EventItem t) a1 a2 ->
    wp (onlist (loInsertEnd xSuspendedTaskList (StateItem t));;
        wr_tcb t (fun x => if ucNotifyState x =? taskWAITING_NOTIFICATION then set_ucNotifyState taskNOT_WAITING_NOTIFICATION x else x);;
        mret t) Q (mkKernel a2 (set_uxTopReadyPriority b v))).
  { intros a2 [HK2 HT2] G2. wstep. apply wp_insert_end; [apply (kc_wf _ _ HK2)|by apply (gn_dom _ _ _ G2)| | |].
    - by rewrite (gn_cont _ _ _ G2), decide_False, (gn_cont _ _ _ G1), decide_True.
    - by apply (state_list_exists _ _ _ HK2).
    - intros a3 xs1 xs2 _ _ M3 _. wstep. eapply wp_wr_tcb; [exact Hx|]. fold (calmed x). wstep. apply HQ.
      + apply (with_tcb_inv (mkKernel a3 (set_uxTopReadyPriority b v)) t x); [|exact Hx|apply calmed_priority]. split.
        * eapply kcore_insert_other; [exact HK2| |exact M3]. simpl. split; [eauto|done].
        * eapply ktime_insert_other; [exact HT2|..|exact M3]; by apply (not_delayed _ _ _ HK2).
      + split.
        * intros j. rewrite (mv_cont _ _ _ _ _ _ M3), (gn_cont _ _ _ G2), (gn_cont _ _ _ G1). by repeat case_decide.
        * intros j. by rewrite (mv_val _ _ _ _ _ _ M3), (gn_val _ _ _ G2), (gn_val _ _ _ G1).
        * intros l'. by rewrite (mv_lists _ _ _ _ _ _ M3), (gn_lists _ _ _ G2), (gn_lists _ _ _ G1). }
  destruct (cont_of a1 (EventItem t)) as [le|] eqn:Ee.
  - wstep. eapply unlink_event_wp; [exact Hinv1|exact Ee|]. intros a2 Hinv2 G2. by apply Hev.
  - wstep. wstep. apply Hev; [done|]. apply gone_refl; [apply (kc_wf _ _ (ki_core _ Hinv1))|exact Ee].
Qed.

Lemma suspend_reset_wp (Q : unit -> KA -> Prop) h v : kinv (mkKernel h v) ->
  (forall n, kinv (mkKernel h (set_xNextTaskUnblockTime n v)) -> Q tt (mkKernel h (set_xNextTaskUnblockTime n v))) ->
  wp suspend_reset Q (mkKernel h v).
Proof.
  intros Hinv HQ. unfold suspend_reset. wstep. wstep. cbn [k_vars]. destruct (xSchedulerRunning v =? pdFALSE); simpl.
  - wstep. replace v with (set_xNextTaskUnblockTime (xNextTaskUnblockTime v) v) by (by destruct v). apply HQ. by destruct v.
  - eapply reset_next_wp; [apply Hinv|]. apply HQ. destruct Hinv as [HK []]. split; [by eapply kcore_vars; [..|exact HK]|].
    split; try done. intros i Hi. split; [by apply kt_now|]. simpl. by apply head_time_le.
Qed.

(** Another task can run. *)
Definition ready_besides (t : Z) k : Prop := exists u p, u <> t /\ cont_of (k_lists k) (StateItem u) = Some (Ready p).

Lemma aside_pend h h' v v' t : aside t h h' -> kpend (mkKernel h v) -> kpend (mkKernel h' v').
Proof.
  intros [Hc _ _] Hp u l. simpl. rewrite !Hc. rewrite (decide_False (P := EventItem u = StateItem t)) by done.
  case_decide as E; [done|]. rewrite (decide_False (P := StateItem u = EventItem t)) by done.
  case_decide; [by simplify_eq|]. apply Hp.
Qed.

Lemma aside_quiet h h' v v' t : aside t h h' -> kinv (mkKernel h' v') -> ready_besides t (mkKernel h v) ->
  uxSchedulerSuspended v' = uxSchedulerSuspended v -> xPendedTicks v' = xPendedTicks v ->
  uxCurrentNumberOfTasks v' = uxCurrentNumberOfTasks v -> quiet (mkKernel h v) -> quiet (mkKernel h' v').
Proof.
  intros Ha Hinv' (u & p & Hne & Hu) E1 E2 E3 [[Hinv Hp Hr Hs] Hpd He Hn]. simpl in *. split; simpl; [|congruence| |congruence].
  - split; simpl; [done|by eapply aside_pend| |congruence]. exists u, p. simpl. rewrite (ad_cont _ _ _ Ha).
    by rewrite !decide_False by congruence.
  - apply (no_item_empty (mkKernel h' v')); [done|]. intros i. simpl. rewrite (ad_cont _ _ _ Ha). case_decide; [done|]. case_decide; [done|].
    intros Hc%(awf_mem _ (kc_wf _ _ (ki_core _ Hinv))). simpl in Hc. rewrite He in Hc. set_solver.
Qed.

(** The task [t] is suspended; a most urgent task runs if one did before. *)
Record set_aside (t : Z) x k k' : Prop := {
  sa_quiet : quiet k';
  sa_highest : runs_highest k -> runs_highest k';
  sa_lists : aside t (k_lists k) (k_lists k');
  sa_vars : exists cur yp n b,
    k_vars k' = set_pxCurrentTCB cur (set_xYieldPending yp (set_xNextTaskUnblockTime n
      (set_uxTopReadyPriority b (put_tcb t (calmed x) (k_vars k)))))
}.

Lemma suspend_wp_task t0 x k : let t := handle_task (k_vars k) t0 in
  quiet k -> xSchedulerRunning (k_vars k) <> pdFALSE -> tcbs (k_vars k) !! t = Some x ->
  is_Some (cont_of (k_lists k) (StateItem t)) -> ready_besides t k ->
  wp (run (vTaskSuspend t0)) (fun _ k' => set_aside t x k k') k.
Proof.
  destruct k as [h v]. intros t Hq Hsr Hx Hc Hr. cbn [k_lists k_vars] in *. unfold vTaskSuspend.
  apply wp_run_bind, wp_run_atomic. eapply suspend_unlink_wp; [apply Hq|exact Hx|exact Hc|]. fold t. intros h' b k1 Hinv1 Ha.
  apply wp_run_bind, wp_run_atomic. apply suspend_reset_wp; [exact Hinv1|]. intros n Hinv2.
  set (k2 := mkKernel h' (set_xNextTaskUnblockTime n _)) in *. assert (Hq2 : quiet k2) by by eapply aside_quiet.
  apply wp_run_atomic. unfold suspend_switch. wstep. wstep. cbn [k_vars]. simpl.
  destruct (Z.eqb_spec t (pxCurrentTCB v)) as [Et|Et].
  - wsteps. rewrite (proj2 (Z.eqb_neq (xSchedulerRunning v) pdFALSE) Hsr). cbn [negb].
    eapply wp_mono; [apply yield_wp; exact Hq2|]. intros [] k3 ([Sc Sv Si Sl (cur & yp & s & Es)] & Hq3 & Hh3).
    cbn [k2 k_lists k_vars] in *. split; [done|done| |].
    + split; cbn [k_lists].
      * intros i. rewrite Sc. apply (ad_cont _ _ _ Ha).
      * intros i. rewrite Sv. apply (ad_val _ _ _ Ha).
      * intros l. rewrite Sl. apply (ad_lists _ _ _ Ha).
    + exists cur, yp, n, b. rewrite Es. cbn [k_vars]. pose proof (rn_suspended _ (qt_running _ Hq3)) as Hs3. rewrite Es in Hs3. simpl in Hs3. subst s.
      pose proof (rn_suspended _ (qt_running _ Hq)) as Hs. simpl in Hs. rewrite <- Hs. by destruct v.
  - wstep. split; [done| |exact Ha|].
    + intros (z & Hz & Hcz & Hm). cbn [k_lists k_vars] in *. exists z. simpl. rewrite lookup_insert_ne by done.
      split; [done|]. rewrite (ad_cont _ _ _ Ha), !decide_False by congruence. split; [done|].
      intros u p. rewrite (ad_cont _ _ _ Ha). case_decide; [done|]. rewrite decide_False by done. apply Hm.
    + exists (pxCurrentTCB v), (xYieldPending v), n, b. by destruct v.
Qed.

(** ** Resumption *)

(** Is [t] suspended, in the eyes of vTaskResume? *)
Definition looks_suspended (t : Z) k : bool :=
  bool_decide (cont_of (k_lists k) (StateItem t) = Some xSuspendedTaskList) &&
  bool_decide (cont_of (k_lists k) (EventItem t) = None).

Lemma looks_suspended_true t k : looks_suspended t k = true ->
  cont_of (k_lists k) (StateItem t) = Some xSuspendedTaskList /\ cont_of (k_lists k) (EventItem t) = None.
Proof. unfold looks_suspended. by rewrite andb_true_iff, !bool_decide_eq_true. Qed.

Lemma is_suspended_wp (Q : bool -> KA -> Prop) k t : kinv k -> is_Some (tcbs (k_vars k) !! t) ->
  Q (looks_suspended t k) k -> wp (prvTaskIsTaskSuspended t) Q k.
Proof.
  intros Hinv Ht HQ. destruct (kc_item _ _ (ki_core _ Hinv) t Ht) as (Hs & He & _). destruct k as [h v]. cbn [k_lists k_vars] in *.
  unfold prvTaskIsTaskSuspended, looks_suspended in *. cbn [k_lists] in HQ. wstep. apply wp_contained; [done|].
  destruct (bool_decide (cont_of h (StateItem t) = _)); [|by wstep]. wstep. apply wp_contained; [done|].
  destruct (decide (cont_of h (EventItem t) = Some xPendingReadyList)) as [E|E].
  - rewrite bool_decide_true by done. rewrite bool_decide_false in HQ by congruence. by wstep.
  - rewrite bool_decide_false by done. wstep. apply wp_container; [done|]. by wstep.
Qed.

Definition can_resume (t : Z) k : bool :=
  negb (t =? pxCurrentTCB (k_vars k)) && negb (t =? NULL) && looks_suspended t k.

Lemma resume_task_wp t x k : running k -> tcbs (k_vars k) !! t = Some x ->
  wp (vTaskResume t) (fun _ k' => if can_resume t k then roused t k k' else k' = k) k.
Proof.
  intros Hrun Hx. destruct (kc_cur _ _ (ki_core _ (rn_inv _ Hrun))) as [y Hy]. unfold vTaskResume, can_resume. wstep. wstep.
  destruct (_ && _); [|by wstep]. cbn [andb]. wstep. apply is_suspended_wp; [apply Hrun|eauto|].
  destruct (looks_suspended t k) eqn:E; [|by wstep]. apply looks_suspended_true in E as [Hs He].
  apply wp_bind2. eapply rouse_wp; [done|exact Hx|eauto|done|]. intros a' k1 Hinv1 Hp1 Hw. wsteps.
  subst k1. rewrite <- (set_yield_id (record_ready _ _)) in Hinv1, Hp1 |- *.
  eapply (woken_yield_wp k t x y); [done..|]. intros ?. apply Z.leb_le. lia.
Qed.

(** In an interrupt handler the switch comes at the end. *)
Lemma resume_isr_wp t x k : running k -> tcbs (k_vars k) !! t = Some x ->
  wp (r ← xTaskResumeFromISR t; portEND_SWITCHING_ISR (negb (r =? pdFALSE)))
    (fun _ k' => if looks_suspended t k then roused t k k' else k' = k) k.
Proof.
  intros Hrun Hx. destruct (kc_cur _ _ (ki_core _ (rn_inv _ Hrun))) as [y Hy]. unfold xTaskResumeFromISR. wstep. wstep.
  apply is_suspended_wp; [apply Hrun|eauto|].
  destruct (looks_suspended t k) eqn:E; [|wstep; apply no_switch_wp]. apply looks_suspended_true in E as [Hs He].
  wstep. wstep. rewrite (rn_suspended _ Hrun). change (0 =? pdFALSE) with true. cbn iota. wsteps.
  assert (Hpost : forall yp, let k1 := mkKernel (k_lists k) (set_xYieldPending yp (k_vars k)) in
    wp (listREMOVE (StateItem t);; prvAddTaskToReadyList t;; mret (if uxPriority y <=? uxPriority x then pdTRUE else pdFALSE))
      (fun r => wp (portEND_SWITCHING_ISR (negb (r =? pdFALSE))) (fun _ k' => roused t k k')) k1).
  { intros yp k1. assert (Hrun1 : running k1).
    { destruct Hrun. split; try done. destruct k as [h v]. by eapply kinv_vars; [..|exact rn_inv]. }
    apply wp_bind2. eapply (rouse_wp _ k1 t x); [done|exact Hx|eauto|done|]. intros a' k2 Hinv2 Hp2 Hw. wstep. unfold portEND_SWITCHING_ISR.
    subst k2. change (record_ready (uxPriority x) (k_vars k1)) with (set_xYieldPending yp (record_ready (uxPriority x) (k_vars k))) in Hinv2, Hp2 |- *.
    apply (woken_yield_wp k t x y); [done..| |].
    - by eapply woken_ext; [| |exact Hw].
    - intros Hlt. by rewrite (proj2 (Z.leb_le _ _)) by lia. }
  destruct (uxPriority y <=? uxPriority x); simpl.
  - wstep. exact (Hpost pdTRUE).
  - wstep. destruct k as [h v]. specialize (Hpost (xYieldPending v)). cbn [k_lists k_vars] in *. rewrite set_yield_id in Hpost. exact Hpost.
Qed.

(** ** Ending a wait early *)

(** The TCB of a task whose wait has been ended: it is told, if it waited for
    an event. *)
Definition told k t x : TCB_t :=
  match cont_of (k_lists k) (EventItem t) with Some _ => set_ucDelayAborted pdTRUE x | None => x end.

Lemma told_priority k t x : same_priority x (told k t x).
Proof. unfold told. by destruct (cont_of _ _). Qed.

(** [t] was waiting and is ready. *)
Definition aborted (t : Z) x k k' : Prop := exists a' yp b,
  k' = mkKernel a' (set_xYieldPending yp (set_uxTopReadyPriority b (put_tcb t (told k t x) (k_vars k)))) /\
  woken (Z.eqb t) (put_tcb t (told k t x) (k_vars k)) (k_lists k) a'.

(** [t] waits: for a time, for an event, or for a notification. *)
Definition is_blocked (t : Z) x k : Prop := exists l, cont_of (k_lists k) (StateItem t) = Some l /\ (forall p, l <> Ready p) /\
  (l = xSuspendedTaskList -> cont_of (k_lists k) (EventItem t) = None -> awaits_note x = true).

Lemma task_state_wp (Q : eTaskState -> KA -> Prop) k t x : kinv k -> tcbs (k_vars k) !! t = Some x ->
  (forall st, (st = eBlocked -> is_blocked t x k) -> Q st k) ->
  wp (eTaskGetState t) Q k.
Proof.
  intros Hinv Hx HQ. destruct (kc_item _ _ (ki_core _ Hinv) t) as (Hs & He & _); [eauto|].
  pose proof (kc_delayed _ _ (ki_core _ Hinv)) as Hd. destruct k as [h v]. cbn [k_lists k_vars] in *.
  unfold eTaskGetState. wsteps. destruct (t =? pxCurrentTCB v); [wstep; by apply HQ|].
  wsteps. apply wp_container; [done|]. wsteps. destruct (decide _) as [Hdl|_].
  - wstep. apply HQ. intros _. destruct Hdl as [Hdl|Hdl]; eexists; (split; [exact Hdl|]);
      destruct Hd as [[E1 E2]|[E1 E2]]; by rewrite ?E1, ?E2.
  - destruct (decide _) as [Hsus|_].
    + wstep. apply wp_container; [done|]. destruct (cont_of h (EventItem t)) eqn:Ee; wsteps; apply HQ; intros E.
      * exists xSuspendedTaskList. split_and!; [done|done|]. cbn [k_lists]. congruence.
      * exists xSuspendedTaskList. split_and!; [done|done|]. intros _ _. unfold awaits_note. by destruct (_ =? _).
    + destruct (decide _); wstep; by apply HQ.
Qed.

(** Both items have left their lists, and the task enters its ready list. *)
Lemma unlink_both_wp {A} (f : M KA A) (Q : A -> KA -> Prop) h v t x l : kinv (mkKernel h v) -> tcbs v !! t = Some x ->
  cont_of h (StateItem t) = Some l -> (forall p, l <> Ready p) ->
  let v' := put_tcb t (told (mkKernel h v) t x) v in
  (forall a', kinv (mkKernel a' (record_ready (uxPriority x) v')) -> woken (Z.eqb t) v' h a' ->
    wp f Q (mkKernel a' (record_ready (uxPriority x) v'))) ->
  wp (listREMOVE (StateItem t);; c ← onlist (loContainer (EventItem t));
      (match c with
       | Some _ => listREMOVE (EventItem t);; wr_tcb t (set_ucDelayAborted pdTRUE)
       | None => mret tt
       end);; prvAddTaskToReadyList t;; f) Q (mkKernel h v).
Proof.
  intros Hinv Hx Hl Hnr v' HQ. pose proof Hinv as [HK HT]. wstep. eapply wp_listREMOVE; [apply (kc_wf _ _ HK)|exact Hl|]. intros a1 M1.
  assert (G1 : gone (StateItem t) h a1) by (eapply moved_gone; [apply (kc_wf _ _ HK)|exact Hl|exact M1]).
  assert (Hinv1 : kinv (mkKernel a1 v)).
  { split; [by eapply kcore_remove_other|]. by eapply ktime_remove. }
  wstep. apply wp_container; [apply (gn_dom _ _ _ G1), (kc_item _ _ HK t); simpl; eauto|].
  assert (Hy : tcbs v' !! t = Some (told (mkKernel h v) t x)) by apply lookup_insert_eq.
  assert (Hpri : uxPriority (told (mkKernel h v) t x) = uxPriority x) by apply told_priority.
  assert (Hadd : forall a2, kinv (mkKernel a2 v') -> gone (EventItem t) a1 a2 -> wp (prvAddTaskToReadyList t;; f) Q (mkKernel a2 v')).
  { intros a2 [HK2 HT2] G2. apply wp_bind. eapply wp_add_ready; [exact HK2|exact Hy|by rewrite (gn_cont _ _ _ G2), decide_False, (gn_cont _ _ _ G1), decide_True|].
    intros a3 xs1 xs2 _ _ M3 HK3%(kcore_weaken _ none); [|apply except_none]. rewrite Hpri in M3, HK3 |- *.
    assert (Hw : woken (Z.eqb t) v' h a3).
    { eapply gone_woken; [exact Hy|by left|exact G1|exact G2|rewrite Hpri; exact M3]. }
    apply HQ; [|done]. split; [done|]. eapply woken_time; [exact Hw|by eapply ktime_vars; [..|exact HT]|apply (kc_delayed _ _ HK)|done..]. }
  pose proof (gn_cont _ _ _ G1 (EventItem t)) as Ee. rewrite decide_False in Ee by done. rewrite Ee.
  unfold told in *. cbn [k_lists] in *. destruct (cont_of h (EventItem t)) as [le|] eqn:El.
  - apply wp_bind, wp_bind. eapply unlink_event_wp; [exact Hinv1|by rewrite Ee|]. intros a2 Hinv2 G2.
    eapply wp_wr_tcb; [exact Hx|]. apply Hadd; [|done].
    by apply (with_tcb_inv (mkKernel a2 v) t x).
  - wstep. wstep. assert (Ev : v' = v) by (unfold v', put_tcb; rewrite insert_id by done; by destruct v).
    rewrite Ev in *. apply Hadd; [done|]. apply gone_refl; [apply (kc_wf _ _ (ki_core _ Hinv1))|by rewrite Ee].
Qed.

Lemma abort_body_wp t x k : at_rest k -> yield_due k -> tcbs (k_vars k) !! t = Some x ->
  wp (abort_delay_suspended t) (fun r k' => at_rest k' /\ yield_due k' /\
    (r = pdFAIL /\ k' = k \/ r = pdPASS /\ is_blocked t x k /\ aborted t x k k')) k.
Proof.
  intros Hr Hd Hx. pose proof Hr as [Hinv Hp Hsome Hs Hpd He Hn]. destruct (kc_cur _ _ (ki_core _ Hinv)) as [y Hy].
  unfold abort_delay_suspended. wstep. eapply task_state_wp; [exact Hinv|exact Hx|]. intros st Hst.
  destruct (decide (st = eBlocked)) as [Eb|_]; [|wstep; split_and!; auto].
  pose proof (Hst Eb) as Hib. destruct (Hst Eb) as (l & Hl & Hnr & _). destruct k as [h v]. cbn [k_lists k_vars] in *.
  eapply unlink_both_wp; [exact Hinv|exact Hx|exact Hl|exact Hnr|]. intros a' Hinv' Hw.
  set (k0 := mkKernel h v) in *. set (x' := told k0 t x) in *. set (v' := put_tcb t x' v) in *.
  assert (Hx' : tcbs v' !! t = Some x') by apply lookup_insert_eq.
  assert (Hpri : uxPriority x' = uxPriority x) by apply told_priority.
  assert (exists y', tcbs v' !! pxCurrentTCB v' = Some y' /\ uxPriority y' = uxPriority y) as (y' & Hy' & Epy).
  { simpl. destruct (decide (t = pxCurrentTCB v)) as [->|Hne]; [simplify_eq; by eexists|]. exists y. by rewrite lookup_insert_ne. }
  wstep. eapply wp_rd_tcb; [exact Hx'|]. wstep. wstep. wstep. eapply wp_rd_tcb; [exact Hy'|].
  assert (Hfin : forall yp, (xYieldPending v <> pdFALSE -> yp <> pdFALSE) -> (uxPriority y' < uxPriority x' -> yp <> pdFALSE) ->
    let k1 := mkKernel a' (set_xYieldPending yp (record_ready (uxPriority x) v')) in
    at_rest k1 /\ yield_due k1 /\ (pdPASS = pdFAIL /\ k1 = k0 \/ pdPASS = pdPASS /\ is_blocked t x k0 /\ aborted t x k0 k1)).
  { intros yp Hyp Hlt k1. split; [|split].
    - split; try done.
      + by eapply kinv_vars; [..|exact Hinv'].
      + eapply (woken_pend _ v'); [exact Hw| |intros u <-%Z.eqb_eq; eauto]. exact Hp.
      + exists t, (uxPriority x'). by apply (wk_yes _ _ _ _ Hw); [apply Z.eqb_refl|].
      + simpl. rewrite (wk_items _ _ _ _ Hw) by done. by rewrite He.
    - destruct (Z_lt_le_dec (uxPriority y') (uxPriority x')) as [?|Hge]; [left; by apply Hlt|].
      destruct Hd as [Hd|Hd]; [left; by apply Hyp|right]. unfold k1. rewrite <- Hpri. eapply woken_no_change; [exact Hx'|exact Hy'|exact Hw|done|].
      apply (with_tcb_highest k0 t x x'); [exact Hx|apply told_priority|exact Hd].
    - right. split; [done|]. split; [done|]. by exists a', yp, (portRECORD_READY_PRIORITY (uxPriority x) (uxTopReadyPriority v')). }
  wstep. destruct (Z.ltb_spec (uxPriority y') (uxPriority x')) as [Hlt|Hge]; simpl.
  - wstep. wstep. by apply (Hfin pdTRUE).
  - wstep. wstep. rewrite <- (set_yield_id (record_ready _ _)). apply (Hfin (xYieldPending v)); [done|lia].
Qed.

(** With nothing to catch up with. *)
Lemma abort_delay_wp t x k : quiet k -> runs_highest k -> tcbs (k_vars k) !! t = Some x ->
  wp (run (xTaskAbortDelay t)) (fun r k' => quiet k' /\ runs_highest k' /\ exists k1,
    (r = pdFAIL /\ k1 = suspended k \/ r = pdPASS /\ is_blocked t x k /\ aborted t x (suspended k) k1) /\ settled k1 k') k.
Proof.
  intros Hq Hhi Hx. unfold xTaskAbortDelay. apply wp_run_bind, wp_run_atomic, suspend_wp; [apply Hq|].
  apply wp_run_bind, wp_run_atomic. eapply wp_mono; [apply abort_body_wp; [by apply quiet_suspended|by right|exact Hx]|].
  intros r k1 (Hr & Hd & Hres). apply wp_run_bind, wp_run_atomic. eapply wp_mono; [by apply resume_settles|].
  intros r' k2 (Hst & Hq2 & Hh2). apply wp_run_ret. eauto 6.
Qed.
End Control.
