(* ===== verification/EventGroupProps.v ===== *)
(** * Waking the tasks that wait for event bits

    vTaskRemoveFromUnorderedEventList hands a waiting task the bits of the
    group in the value of its event item and makes it ready, although the
    scheduler is suspended.  [answered d z]: this has happened to the tasks for
    which [d] holds. *)

From S2P Require Import Prelude Simulation Config ListC ListSpec ListRefine ListObs ListProps Heap4 Kernel Tasks TaskApi TaskEvents Queue EventGroups KernelRefine KernelInv KernelSteps SchedProps ResumeProps KernelDemo SchedTheorems PriorityProps PriorityTheorems SuspendProps EventProps.

Section Answers.
Implicit Types (h : AH) (v : Vars) (k : KA) (d : Z -> bool).

Record answered d (z : Z) v h (a' : AH) : Prop := {
  an_yes t x : d t = true -> tcbs v !! t = Some x ->
    cont_of a' (StateItem t) = Some (Ready (uxPriority x)) /\ cont_of a' (EventItem t) = None /\
    val_of a' (EventItem t) = z;
  an_no i : of_task d i = false -> cont_of a' i = cont_of h i /\ val_of a' i = val_of h i;
  an_items l : (forall p, l <> Ready p) ->
    items_of a' l = filter (fun i => of_task d i = false) (items_of h l);
  an_lists l : is_Some (a_lists a' !! l) <-> is_Some (a_lists h !! l)
}.

Lemma answered_refl z v h : answered (fun _ => false) z v h h.
Proof. split; try done. intros l _. symmetry. apply filter_keep_all. by intros [] _. Qed.

Lemma answered_trans d1 d2 z v h1 h2 h3 : answered d1 z v h1 h2 -> answered d2 z v h2 h3 ->
  answered (fun t => d1 t || d2 t) z v h1 h3.
Proof.
  intros [] []. split.
  - intros t x Hd Hx. destruct (d2 t) eqn:E2; [by apply an_yes1|]. rewrite orb_false_r in Hd.
    destruct (an_no1 (StateItem t) E2) as [-> _]. destruct (an_no1 (EventItem t) E2) as [-> ->]. by apply an_yes0.
  - intros i. rewrite of_task_orb. intros [H1 H2]%orb_false_iff.
    destruct (an_no1 _ H2) as [-> ->]. by apply an_no0.
  - intros l Hl. rewrite an_items1, an_items0 by done. rewrite list_filter_filter.
    apply list_filter_iff. intros i. rewrite of_task_orb, orb_false_iff. tauto.
  - intros l. by rewrite an_lists1.
Qed.

Lemma answered_ext d d' z v v' h a' : (forall t, d t = d' t) -> tcbs v' = tcbs v -> answered d z v h a' -> answered d' z v' h a'.
Proof.
  intros E Ev []. split; try done.
  - intros t x. rewrite <- E, Ev. auto.
  - intros i. rewrite <- (of_task_ext d d') by done. auto.
  - intros l Hl. rewrite an_items0 by done. apply list_filter_iff. intros i. by rewrite (of_task_ext d d').
Qed.

(** The value is written, then the task is woken. *)
Lemma answered_one t z v h h1 a' : event_value t h h1 -> val_of h1 (EventItem t) = z -> woken (Z.eqb t) v h1 a' ->
  answered (Z.eqb t) z v h a'.
Proof.
  intros (?&Hit&Hco&Hva&_&_&Hls) Hz []. split.
  - intros u x <-%Z.eqb_eq Hx. destruct (wk_yes t x) as [??]; [apply Z.eqb_refl|done|]. by rewrite wk_val.
  - intros i Hi. rewrite wk_no, wk_val by done. rewrite Hco. split; [done|]. apply Hva. by apply of_task_eqb in Hi as [_ Hi].
  - intros l Hl. by rewrite wk_items, Hit.
  - intros l. by rewrite wk_lists, Hls.
Qed.

Lemma note_yield_due h v t x y a' : tcbs v !! t = Some x -> tcbs v !! pxCurrentTCB v = Some y ->
  woken (Z.eqb t) v h a' -> yield_due (mkKernel h v) ->
  yield_due (mkKernel a' (note_higher (record_ready (uxPriority x) v) x y)).
Proof.
  intros Hx Hy Hw Hd. destruct (Z.ltb_spec (uxPriority y) (uxPriority x)) as [Hlt|Hge].
  - left. simpl. unfold note_higher. by rewrite (proj2 (Z.ltb_lt _ _)).
  - destruct Hd as [Hd|Hd]; [left|right].
    + simpl. unfold note_higher. by rewrite (proj2 (Z.ltb_ge _ _)).
    + destruct (note_higher_shape (record_ready (uxPriority x) v) x y) as [z ->]. by eapply woken_no_change.
Qed.

(** What the steps of a walk over the waiting tasks have in common. *)
Record answering d (z : Z) k k' : Prop := {
  as_vars : exists y b, k_vars k' = set_xYieldPending y (set_uxTopReadyPriority b (k_vars k));
  as_inv : kinv k';
  as_pend : kpend k';
  as_due : yield_due k -> yield_due k';
  as_lists : answered d z (k_vars k) (k_lists k) (k_lists k')
}.

Lemma answering_refl z k : kinv k -> kpend k -> answering (fun _ => false) z k k.
Proof.
  intros Hinv Hp. split; try done; [|apply answered_refl].
  exists (xYieldPending (k_vars k)), (uxTopReadyPriority (k_vars k)). by destruct (k_vars k).
Qed.

Lemma answering_trans d1 d2 z k1 k2 k3 : answering d1 z k1 k2 -> answering d2 z k2 k3 ->
  answering (fun t => d1 t || d2 t) z k1 k3.
Proof.
  intros [(y & b & Ev) _ _ D1 A1] [(y' & b' & Ev') ? ? D2 A2]. split; auto.
  - exists y', b'. by rewrite Ev', Ev.
  - eapply answered_trans; [exact A1|]. eapply answered_ext; [..|exact A2]; [done|by rewrite Ev].
Qed.

Lemma answering_ext d d' z k k' : (forall t, d t = d' t) -> answering d z k k' -> answering d' z k k'.
Proof. intros E []. split; auto. by eapply answered_ext. Qed.

Lemma event_value_highest h h' v t : event_value t h h' -> runs_highest (mkKernel h v) -> runs_highest (mkKernel h' v).
Proof. intros (_&_&Hc&_) (x & Hx & Hcx & Hm). exists x. simpl in *. rewrite Hc. split_and!; try done. intros u p. rewrite Hc. apply Hm. Qed.

Lemma remove_unordered_wp k t l z : kinv k -> kpend k -> cont_of (k_lists k) (EventItem t) = Some l ->
  wp (vTaskRemoveFromUnorderedEventList (EventItem t) z)
    (fun _ k' => answering (Z.eqb t) (Z.lor z taskEVENT_LIST_ITEM_VALUE_IN_USE) k k') k.
Proof.
  intros Hinv Hp Hl. destruct k as [h v]. simpl in *. pose proof (ki_core _ Hinv) as HK.
  destruct (kc_event _ _ HK _ _ Hl) as [[x Hx] _]. destruct (kc_cur _ _ HK) as [y Hy]. simpl in Hx, Hy.
  destruct (kc_item _ _ HK t) as (_ & Hei & _ & How); [eauto|]. destruct (Hp _ _ Hl) as (l' & Hl' & Hnr). simpl in Hl'.
  unfold vTaskRemoveFromUnorderedEventList. wstep. apply set_value_event; [apply HK|done|]. intros h1 Hev Hz.
  pose proof (event_value_inv _ _ _ _ Hev Hinv) as Hinv1. pose proof (event_value_pend _ _ _ v _ Hev Hp) as Hp1.
  pose proof Hev as (_&_&Hc&_&Ho&Hi&_).
  wstep. apply wp_get_owner; [by apply Hi|]. simpl in How. rewrite Ho, How.
  wstep. eapply unlink_event_wp; [exact Hinv1|by rewrite Hc|]. intros a1 Hinv2 G1.
  apply wp_bind2. eapply make_ready_wp; [exact Hinv2|exact Hx| | |].
  { by rewrite (gn_cont _ _ _ G1), decide_False, Hc. }
  { by rewrite (gn_cont _ _ _ G1), decide_True. }
  intros a2 Hinv3 Hw. wstep. eapply note_if_higher_wp; [exact Hx|exact Hy|]. wstep.
  pose proof (gone_then_woken _ _ _ _ _ G1 Hw) as Hw'. destruct (note_higher_shape (record_ready (uxPriority x) v) x y) as [yp Ez].
  split.
  - simpl. rewrite Ez. by eexists _, _.
  - rewrite Ez. eapply kinv_vars; [..|exact Hinv3]; done.
  - eapply woken_pend; [exact Hw'|exact Hp1|]. intros u <-%Z.eqb_eq. eauto.
  - intros Hd. eapply note_yield_due; [exact Hx|exact Hy|exact Hw'|]. destruct Hd as [Hd|Hd]; [by left|right].
    by eapply event_value_highest.
  - by eapply answered_one.
Qed.

(** ** Walking the list of an event group *)

Lemma wp_head_entry (Q : node item list_id -> KA -> Prop) h v l : is_Some (a_lists h !! l) ->
  Q (node_of l (head (items_of h l))) (mkKernel h v) -> wp (onlist (loHeadEntry l)) Q (mkKernel h v).
Proof.
  intros [al Hal] HQ. unfold items_of in HQ. rewrite Hal in HQ. eapply wp_onlist; [|exact HQ].
  simpl. unfold aHeadEntry, a_rd_list, mbind, M_bind. by rewrite Hal.
Qed.

Lemma wp_next (Q : node item list_id -> KA -> Prop) h v l i ys xs : awf h -> items_of h l = ys ++ i :: xs ->
  Q (node_of l (head xs)) (mkKernel h v) -> wp (onlist (loNext (NItem i))) Q (mkKernel h v).
Proof.
  intros Hwf E HQ. assert (Hi : i ∈ items_of h l) by (rewrite E; set_solver).
  destruct (items_of_exists _ _ _ Hi) as (al & Hal & E'). apply (awf_mem _ Hwf), cont_of_some in Hi as (x & Hx & Hc).
  pose proof (awf_nodup _ Hwf l) as Hnd. eapply wp_onlist; [|exact HQ].
  simpl. unfold aNext, a_rd_item, a_rd_list, lift_opt, mbind, M_bind. rewrite Hx, Hc, Hal, <- E', E.
  rewrite E in Hnd. rewrite succ_of_split; [done|]. by apply NoDup_notin_app in Hnd as [??].
Qed.

Lemma wp_rd_group {A} e (f : EventGroup_t -> A) (Q : A -> KA -> Prop) k g :
  event_groups (k_vars k) !! e = Some g -> Q (f g) k -> wp (rd_group e f) Q k.
Proof. intros Hx HQ. exists (f g), k. unfold rd_group, mbind, M_bind. simpl. by rewrite Hx. Qed.

(** The kernel with the event group at [e] replaced. *)
Definition with_group (e : Z) (g : EventGroup_t) k : KA :=
  mkKernel (k_lists k) (set_event_groups (<[e := g]> (event_groups (k_vars k))) (k_vars k)).

Lemma wp_wr_group e f (Q : unit -> KA -> Prop) k g :
  event_groups (k_vars k) !! e = Some g -> Q tt (with_group e (f g) k) -> wp (wr_group e f) Q k.
Proof.
  intros Hx HQ. apply wp_bind. eapply wp_rd_group; [exact Hx|]. apply wp_wrv.
  replace (alter f e (event_groups (k_vars k))) with (<[e := f g]> (event_groups (k_vars k))); [done|].
  apply map_eq. intros j. rewrite lookup_alter, lookup_insert. case_decide; subst; [by rewrite Hx|done].
Qed.

Lemma with_group_inv e g k : kinv k -> kinv (with_group e g k).
Proof. destruct k as [h v]. apply (kinv_vars h v); done. Qed.

(** The tasks of [xs] that wait for what [bits] has, and the bits to clear for
    them. *)
Definition satisfied h (bits : Z) (xs : list item) (t : Z) : bool :=
  bool_decide (EventItem t ∈ xs) && wait_matches (val_of h (EventItem t)) bits.
Definition to_clear h (bits : Z) (xs : list item) : Z -> Z :=
  fold_left (fun acc i => if wait_matches (val_of h i) bits then Z.lor acc (clears (val_of h i)) else acc) xs.

Lemma to_clear_ext h h' bits xs z : (forall i, i ∈ xs -> val_of h' i = val_of h i) -> to_clear h' bits xs z = to_clear h bits xs z.
Proof.
  unfold to_clear. revert z. induction xs as [|i xs IH]; intros z Hv; [done|]. simpl. rewrite Hv by set_solver.
  apply IH. intros j Hj. apply Hv. set_solver.
Qed.

Lemma to_clear_cons h bits i xs z : to_clear h bits (i :: xs) z =
  to_clear h bits xs (if wait_matches (val_of h i) bits then Z.lor z (clears (val_of h i)) else z).
Proof. done. Qed.

Lemma satisfied_cons h bits t xs u : EventItem t ∉ xs ->
  satisfied h bits (EventItem t :: xs) u =
  ((t =? u) && wait_matches (val_of h (EventItem t)) bits) || satisfied h bits xs u.
Proof.
  intros Hn. unfold satisfied. destruct (Z.eqb_spec t u) as [<-|Hne]; simpl.
  - rewrite bool_decide_true by set_solver. rewrite (bool_decide_false (EventItem t ∈ xs)) by done. by rewrite orb_false_r.
  - f_equal. apply bool_decide_ext. set_solver.
Qed.

(** The walk: from any position of the list, every satisfied task from there
    on is answered, and no other. *)
Lemma set_bits_loop_wp e g xs : forall fuel ys z k, kinv k -> kpend k ->
  event_groups (k_vars k) !! e = Some g -> items_of (k_lists k) (xTasksWaitingForBits e) = ys ++ xs ->
  (length xs <= fuel)%nat ->
  wp (set_bits_loop fuel e (node_of (xTasksWaitingForBits e) (head xs)) z) (fun r k' =>
    r = to_clear (k_lists k) (uxEventBits g) xs z /\
    answering (satisfied (k_lists k) (uxEventBits g) xs)
      (Z.lor (Z.lor (uxEventBits g) eventUNBLOCKED_DUE_TO_BIT_SET) taskEVENT_LIST_ITEM_VALUE_IN_USE) k k') k.
Proof.
  induction xs as [|i xs IH]; intros fuel ys z k Hinv Hp Hg E Hf.
  { destruct fuel; simpl; rewrite decide_True by done; wstep; (split; [done|]); by eapply answering_ext; [|by apply answering_refl]. }
  destruct fuel as [|fuel]; [simpl in Hf; lia|]. pose proof (ki_core _ Hinv) as HK. pose proof (kc_wf _ _ HK) as Hwf.
  assert (Hi : i ∈ items_of (k_lists k) (xTasksWaitingForBits e)) by (rewrite E; set_solver).
  destruct (event_list_item _ _ (xTasksWaitingForBits e) _ HK eq_refl Hi) as (t & x & -> & Hx).
  apply (awf_mem _ Hwf) in Hi. pose proof (awf_nodup _ Hwf (xTasksWaitingForBits e)) as Hnd. rewrite E in Hnd.
  apply NoDup_notin_app in Hnd as [Hny Hn].
  assert (Hot : forall j, j ∈ ys \/ j ∈ xs -> of_task (Z.eqb t) j = false).
  { intros j Hj. destruct (event_list_item _ _ (xTasksWaitingForBits e) j HK eq_refl) as (u & _ & -> & _); [rewrite E; set_solver|].
    apply of_task_eqb. split; [done|]. intros [= ->]. tauto. }
  destruct k as [h v]. simpl in Hi, E, Hg. cbn [head node_of set_bits_loop]. wstep.
  eapply wp_next; [exact Hwf|exact E|]. wstep.
  apply wp_get_value; [apply (kc_item _ _ HK t); simpl; eauto|]. wstep. eapply wp_rd_group; [exact Hg|].
  destruct (wait_matches (val_of h (EventItem t)) (uxEventBits g)) eqn:Em.
  - wstep. eapply wp_mono; [by eapply remove_unordered_wp|]. intros [] k1 A1.
    destruct (as_vars _ _ _ _ A1) as (y & b & Ev). pose proof (as_lists _ _ _ _ A1) as L1. simpl in L1, Ev.
    eapply wp_mono; [apply (IH fuel ys); [apply A1|apply A1|by rewrite Ev| |simpl in Hf; lia]|].
    { rewrite (an_items _ _ _ _ _ L1), E by done. rewrite filter_app, filter_cons_False by (simpl; by rewrite Z.eqb_refl).
      f_equal; apply filter_keep_all; auto. }
    intros r k2 [-> A2]. split.
    + rewrite to_clear_cons. simpl. rewrite Em. apply to_clear_ext. intros j Hj. apply (an_no _ _ _ _ _ L1). auto.
    + eapply answering_ext; [|eapply answering_trans; [exact A1|exact A2]]. intros u. simpl.
      rewrite satisfied_cons by done. rewrite Em, andb_true_r. unfold satisfied.
      destruct (Z.eqb_spec t u) as [<-|Hne]; [done|]. simpl. f_equal. f_equal.
      apply (an_no _ _ _ _ _ L1). simpl. by apply Z.eqb_neq.
  - eapply wp_mono; [apply (IH fuel (ys ++ [EventItem t])); [done|done|done|simpl; rewrite E, <- app_assoc; done|simpl in Hf; lia]|].
    intros r k2 [-> A2]. split; [by rewrite to_clear_cons; simpl; rewrite Em|]. eapply answering_ext; [|exact A2]. intros u.
    cbn [k_lists]. by rewrite satisfied_cons, Em, andb_false_r.
Qed.

End Answers.
