(* ===== verification/EventGroupTheorems.v ===== *)
(** * Event groups wake exactly the tasks whose condition holds

    The encoding of a wait in the value of an event item, xEventGroupSetBits
    as a whole, and the release of all waiting tasks when a group is
    deleted. *)

From S2P Require Import Prelude Simulation Config ListC ListSpec ListRefine ListObs ListProps Heap4 Kernel Tasks TaskApi TaskEvents Queue EventGroups KernelRefine DriversRefine KernelInv KernelSteps SchedProps ResumeProps KernelDemo SchedTheorems PriorityProps PriorityTheorems SuspendProps EventProps EventGroupProps.

(** ** The encoding of a wait *)

Section Encoding.

(** The top byte of an event item value is for control bits. *)
Lemma mask_bit n : 0 <= n -> Z.testbit eventEVENT_BITS_CONTROL_BYTES n = bool_decide (24 <= n < 32).
Proof.
  intros Hn. change eventEVENT_BITS_CONTROL_BYTES with (Z.shiftl (Z.ones 8) 24). rewrite Z.shiftl_spec by done.
  case_bool_decide; [apply Z.ones_spec_low; lia|]. destruct (decide (n < 24)); [by apply Z.testbit_neg_r; lia|apply Z.ones_spec_high; lia].
Qed.

Lemma low_bits b n : 0 <= b < 2 ^ 24 -> 24 <= n -> Z.testbit b n = false.
Proof.
  intros Hb Hn. destruct (decide (b = 0)) as [->|]; [apply Z.testbit_0_l|].
  apply Z.bits_above_log2; [lia|]. apply Z.lt_le_trans with 24; [|done]. apply Z.log2_lt_pow2; lia.
Qed.

Lemma control_part b c : 0 <= b < 2 ^ 24 -> Z.land c eventEVENT_BITS_CONTROL_BYTES = c ->
  Z.land (Z.lor b c) eventEVENT_BITS_CONTROL_BYTES = c /\
  Z.land (Z.lor b c) (Z.lnot eventEVENT_BITS_CONTROL_BYTES) = b.
Proof.
  intros Hb Hc. assert (H0 : Z.land b eventEVENT_BITS_CONTROL_BYTES = 0).
  { apply Z.bits_inj'. intros n Hn. rewrite Z.land_spec, Z.bits_0, mask_bit by done.
    case_bool_decide; [|by rewrite andb_false_r]. by rewrite low_bits by lia. }
  split.
  - by rewrite Z.land_lor_distr_l, H0, Hc.
  - rewrite Z.land_lor_distr_l, <- Hc, <- Z.land_assoc, Z.land_lnot_diag, Z.land_0_r, Z.lor_0_r.
    rewrite <- Z.ldiff_land. apply Z.bits_inj'. intros n Hn. rewrite Z.ldiff_spec, mask_bit by done.
    case_bool_decide; [by rewrite low_bits by lia|by rewrite andb_true_r].
Qed.

(** The value a waiting task leaves in its event item.  The test a setter of bits
    makes on it is the test the waiting task itself makes. *)
Definition stored (b clear all : Z) : Z := Z.lor (wait_value b clear all) taskEVENT_LIST_ITEM_VALUE_IN_USE.

Lemma wait_is_stored b clear all bits : 0 <= b < 2 ^ 24 ->
  (wait_matches (stored b clear all) bits = true <-> prvTestWaitCondition bits b all = pdTRUE) /\
  clears (stored b clear all) = (if clear =? pdFALSE then 0 else b).
Proof.
  intros Hb. unfold stored, wait_value, wait_matches, clears, prvTestWaitCondition. rewrite <- Z.lor_assoc.
  destruct (Z.eqb_spec clear pdFALSE) as [->|Hc], (Z.eqb_spec all pdFALSE) as [->|Ha]; cbn [negb];
    match goal with |- context [Z.lor b ?c] => destruct (control_part b c Hb eq_refl) as [-> ->] end;
    (split; [|done]); simpl; rewrite (Z.land_comm bits b); by destruct (_ =? _).
Qed.

End Encoding.

(** ** What a waiting task asks for *)

(** The arguments of xEventGroupWaitBits. *)
Record wish := mkWish { w_bits : Z; w_clear : Z; w_all : Z }.

(** All of the bits, or at least one of them. *)
Definition met (bits : Z) (w : wish) : Prop :=
  if w_all w =? pdFALSE
  then exists i, Z.testbit (w_bits w) i = true /\ Z.testbit bits i = true
  else forall i, Z.testbit (w_bits w) i = true -> Z.testbit bits i = true.

(** The tasks in the list of the group, with what they have asked for. *)
Definition wishes (h : AH) (e : Z) (ws : list (Z * wish)) : Prop :=
  items_of h (xTasksWaitingForBits e) = (EventItem ∘ fst) <$> ws /\
  Forall (fun tw => 0 <= w_bits tw.2 < 2 ^ 24 /\ val_of h (EventItem tw.1) = stored (w_bits tw.2) (w_clear tw.2) (w_all tw.2)) ws.

Lemma land_some a b : Z.land a b <> 0 <-> exists i, Z.testbit a i = true /\ Z.testbit b i = true.
Proof.
  split.
  - intros Hne. destruct (Z_lt_le_dec (Z.land a b) 0) as [Hn|Hp].
    + destruct (Z.bits_iff_neg_ex (Z.land a b)) as [[k Hk] _]; [done|]. exists (k + 1 + Z.abs k). rewrite <- andb_true_iff, <- Z.land_spec. apply Hk. lia.
    + exists (Z.log2 (Z.land a b)). rewrite <- andb_true_iff, <- Z.land_spec. apply Z.bit_log2. lia.
  - intros (i & Ha & Hb) E. pose proof (Z.land_spec a b i) as Hl. by rewrite E, Z.bits_0, Ha, Hb in Hl.
Qed.

Lemma land_all a b : Z.land a b = a <-> forall i, Z.testbit a i = true -> Z.testbit b i = true.
Proof.
  split.
  - intros E i Ha. rewrite <- E, Z.land_spec in Ha. by apply andb_true_iff in Ha as [_ ?].
  - intros H. apply Z.bits_inj'. intros i _. rewrite Z.land_spec. specialize (H i). destruct (Z.testbit a i); simpl; auto.
Qed.

(** The test of the setter is the condition the task has asked for. *)
Lemma met_stored bits w : 0 <= w_bits w < 2 ^ 24 ->
  wait_matches (stored (w_bits w) (w_clear w) (w_all w)) bits = true <-> met bits w.
Proof.
  intros Hb. rewrite (proj1 (wait_is_stored _ (w_clear w) (w_all w) bits Hb)). unfold prvTestWaitCondition, met.
  destruct (w_all w =? pdFALSE).
  - rewrite Z.land_comm, <- land_some. by destruct (Z.eqb_spec (Z.land (w_bits w) bits) 0).
  - rewrite Z.land_comm, <- land_all. by destruct (Z.eqb_spec (Z.land (w_bits w) bits) (w_bits w)).
Qed.

Lemma to_clear_bit h bits xs i : forall z, Z.testbit (to_clear h bits xs z) i = true <->
  Z.testbit z i = true \/ exists j, j ∈ xs /\ wait_matches (val_of h j) bits = true /\ Z.testbit (clears (val_of h j)) i = true.
Proof.
  induction xs as [|j xs IH]; intros z; [set_solver|]. rewrite to_clear_cons, IH. setoid_rewrite elem_of_cons.
  destruct (wait_matches (val_of h j) bits) eqn:E; rewrite ?Z.lor_spec, ?orb_true_iff; naive_solver congruence.
Qed.

(** ** Setting bits *)

Section SetBits.
Implicit Types (k : KA) (c : CK) (g : EventGroup_t).

Lemma set_bits_suspended_wp e g bits k : kinv k -> kpend k -> event_groups (k_vars k) !! e = Some g ->
  is_Some (a_lists (k_lists k) !! xTasksWaitingForBits e) ->
  let b := Z.lor (uxEventBits g) bits in let xs := items_of (k_lists k) (xTasksWaitingForBits e) in
  wp (set_bits_suspended e bits) (fun _ k' => exists k1,
    answering (satisfied (k_lists k) b xs)
      (Z.lor (Z.lor b eventUNBLOCKED_DUE_TO_BIT_SET) taskEVENT_LIST_ITEM_VALUE_IN_USE)
      (with_group e (set_uxEventBits b g) k) k1 /\
    k' = with_group e (set_uxEventBits (Z.land b (Z.lnot (to_clear (k_lists k) b xs 0))) g) k1) k.
Proof.
  intros Hinv Hp Hg Hl b xs. destruct k as [h v]. unfold set_bits_suspended. wstep.
  apply wp_head_entry; [done|]. wstep. eapply wp_wr_group; [exact Hg|]. fold b. wstep.
  apply wp_length; [done|]. cbn [k_lists]. fold xs. wstep. set (k0 := with_group _ _ _).
  eapply wp_mono; [apply (set_bits_loop_wp e (set_uxEventBits b g) xs _ [] 0 k0); try done|].
  - eapply kinv_vars; [..|exact Hinv]; done.
  - apply lookup_insert_eq.
  - by rewrite Nat2Z.id.
  - intros r k1 [-> A1]. eapply wp_wr_group.
    + destruct (as_vars _ _ _ _ A1) as (y & bb & ->). apply lookup_insert_eq.
    + by exists k1.
Qed.

(** What setting bits leaves behind: [ts] says which tasks are woken. *)
Record bits_set (e : Z) g (ts : Z -> bool) (given : Z) k k' : Prop := {
  bs_vars : exists cur y b s, k_vars k' = set_event_groups (<[e := g]> (event_groups (k_vars k)))
    (set_pxCurrentTCB cur (set_xYieldPending y (set_uxTopReadyPriority b (set_uxSchedulerSuspended s (k_vars k)))));
  bs_lists l : is_Some (a_lists (k_lists k') !! l) <-> is_Some (a_lists (k_lists k) !! l);
  bs_woken t x : ts t = true -> tcbs (k_vars k) !! t = Some x ->
    cont_of (k_lists k') (StateItem t) = Some (Ready (uxPriority x)) /\
    cont_of (k_lists k') (EventItem t) = None /\ val_of (k_lists k') (EventItem t) = given;
  bs_others i : of_task ts i = false ->
    cont_of (k_lists k') i = cont_of (k_lists k) i /\ val_of (k_lists k') i = val_of (k_lists k) i
}.

(** Settling only changes who runs. *)
Lemma settled_vars v G (c1 y1 b s1 c2 y2 s2 : Z) :
  set_pxCurrentTCB c2 (set_xYieldPending y2 (set_uxSchedulerSuspended s2 (set_event_groups G
    (set_pxCurrentTCB c1 (set_xYieldPending y1 (set_uxTopReadyPriority b (set_uxSchedulerSuspended s1 v))))))) =
  set_event_groups G (set_pxCurrentTCB c2 (set_xYieldPending y2 (set_uxTopReadyPriority b (set_uxSchedulerSuspended s2 v)))).
Proof. by destruct v. Qed.
Lemma answered_vars v G G' (y b s : Z) :
  set_event_groups G (set_xYieldPending y (set_uxTopReadyPriority b (set_event_groups G' (set_uxSchedulerSuspended s v)))) =
  set_event_groups G (set_pxCurrentTCB (pxCurrentTCB v) (set_xYieldPending y (set_uxTopReadyPriority b (set_uxSchedulerSuspended s v)))).
Proof. by destruct v. Qed.

Lemma bits_set_settled e g ts z k k1 k2 : bits_set e g ts z k k1 -> settled k1 k2 -> bits_set e g ts z k k2.
Proof.
  intros [(? & ? & ? & ? & E1)] [Hc Hv _ Hl (? & ? & ? & E2)].
  split; intros; rewrite ?Hc, ?Hv, ?Hl; auto. rewrite E2, E1, settled_vars. do 4 eexists. reflexivity.
Qed.

(** A walk over waiting tasks leaves only a yield behind. *)
Lemma answering_rest d z k k' : answering d z k k' -> at_rest k -> at_rest k'.
Proof.
  intros [(y & b & Ev) ? ? _ A] [Hinv Hp (t & p & Ht) Hs Hpd He Hn]. split; try done; try (by rewrite Ev).
  - exists t. destruct (d t) eqn:E.
    + destruct (ready_tcb _ _ _ _ (ki_core _ Hinv) Ht) as (x & Hx & _). exists (uxPriority x).
      by apply (an_yes _ _ _ _ _ A t x).
    + exists p. by destruct (an_no _ _ _ _ _ A (StateItem t) E) as [-> _].
  - by rewrite (an_items _ _ _ _ _ A), He.
Qed.

Lemma with_group_rest e g k : at_rest k -> at_rest (with_group e g k).
Proof. intros []. split; try done. by apply with_group_inv. Qed.

Lemma set_bits_wp e g bits k : quiet k -> runs_highest k -> event_groups (k_vars k) !! e = Some g ->
  is_Some (a_lists (k_lists k) !! xTasksWaitingForBits e) ->
  let b := Z.lor (uxEventBits g) bits in let xs := items_of (k_lists k) (xTasksWaitingForBits e) in
  let left := Z.land b (Z.lnot (to_clear (k_lists k) b xs 0)) in
  wp (run (xEventGroupSetBits e bits)) (fun r k' => r = left /\ quiet k' /\ runs_highest k' /\
    bits_set e (set_uxEventBits left g) (satisfied (k_lists k) b xs)
      (Z.lor (Z.lor b eventUNBLOCKED_DUE_TO_BIT_SET) taskEVENT_LIST_ITEM_VALUE_IN_USE) k k') k.
Proof.
  intros Hq Hhi Hg Hl b xs left. cbn. pose proof (quiet_suspended _ Hq) as Hr0.
  apply (suspended_wp (set_bits_suspended e bits) (fun _ _ => r ← rd_group e uxEventBits; mret r) _ (fun _ k' =>
    bits_set e (set_uxEventBits left g) (satisfied (k_lists k) b xs)
      (Z.lor (Z.lor b eventUNBLOCKED_DUE_TO_BIT_SET) taskEVENT_LIST_ITEM_VALUE_IN_USE) k k')); [done| | |].
  - intros _ k1 k2 Hb. by apply bits_set_settled.
  - eapply wp_mono; [apply (set_bits_suspended_wp e g bits (suspended k) (ar_inv _ Hr0) (ar_pend _ Hr0) Hg Hl)|].
    intros [] k' (k1 & A1 & ->). pose proof (answering_rest _ _ _ _ A1 (with_group_rest _ _ _ Hr0)) as Hr1.
    destruct A1 as [(y & bb & Ev) Hinv1 Hp1 Hd1 L1]. split; [|split; [by apply with_group_rest|apply Hd1; by right]].
    split; [|apply (an_lists _ _ _ _ _ L1)| |].
    + unfold with_group, suspended in *. cbn [k_vars k_lists] in *. rewrite Ev, answered_vars.
      cbn [event_groups set_event_groups set_xYieldPending set_uxTopReadyPriority set_uxSchedulerSuspended].
      rewrite insert_insert_eq. do 4 eexists. reflexivity.
    + intros t x Ht Hx. by apply (an_yes _ _ _ _ _ L1).
    + intros i Hi. by apply (an_no _ _ _ _ _ L1).
  - intros [] r k' Hb Hq' Hh'. wstep.
    destruct (bs_vars _ _ _ _ _ _ Hb) as (? & ? & ? & ? & Ev). eapply wp_rd_group; [rewrite Ev; apply lookup_insert_eq|]. by wstep.
Qed.

(** C6: xEventGroupSetBits wakes exactly the tasks in the group's list whose
    wish, as they gave it to xEventGroupWaitBits, is met by the bits the group
    then has: one of the bits waited for, or all of them if they asked for all.
    It makes those tasks ready and hands each of them the bits in the value of
    its event item, and moves no other task; it takes from the group exactly
    the bits that tasks woken asked to clear, and returns what is left; the
    scheduler is running again afterwards and a most urgent ready task runs. *)
Theorem event_set_wakes_satisfied c k e g bits ws :
  RK rep c k -> quiet k -> runs_highest k -> event_groups (k_vars k) !! e = Some g ->
  is_Some (a_lists (k_lists k) !! xTasksWaitingForBits e) -> wishes (k_lists k) e ws ->
  let b := Z.lor (uxEventBits g) bits in
  on_code (run (xEventGroupSetBits e bits)) (fun r k' => quiet k' /\ runs_highest k' /\
    (forall i, Z.testbit r i = true <-> Z.testbit b i = true /\
      ~ exists t w, (t, w) ∈ ws /\ met b w /\ w_clear w <> pdFALSE /\ Z.testbit (w_bits w) i = true) /\
    exists woken, (forall t, woken t = true <-> exists w, (t, w) ∈ ws /\ met b w) /\
      bits_set e (set_uxEventBits r g) woken
        (Z.lor (Z.lor b eventUNBLOCKED_DUE_TO_BIT_SET) taskEVENT_LIST_ITEM_VALUE_IN_USE) k k') c.
Proof.
  intros HR Hq Hhi Hg Hl [Hi Hws] b. rewrite Forall_forall in Hws.
  assert (Hmet : forall t w, (t, w) ∈ ws -> wait_matches (val_of (k_lists k) (EventItem t)) b = true <-> met b w).
  { intros t w Hin. destruct (Hws _ Hin) as [Hb E]. simpl in Hb, E. rewrite E. by apply met_stored. }
  eapply wp_transfer; [apply psim_run, psim_xEventGroupSetBits, list_c_refines|exact HR|].
  eapply wp_mono; [by apply (set_bits_wp e g bits)|]. cbv beta zeta. fold b. intros r k' (-> & Hq' & Hh' & Hset). split; [done|]. split; [done|].
  split; [intros i|eexists; split; [|exact Hset]].
  - rewrite <- Z.ldiff_land, Z.ldiff_spec, andb_true_iff, negb_true_iff, <- not_true_iff_false, to_clear_bit, Z.bits_0.
    apply and_iff_compat_l, not_iff_compat. rewrite Hi. split.
    + intros [|(j & ((t & w) & -> & Hin)%list_elem_of_fmap & Hm & Hc)]; [done|]. exists t, w. split; [done|]. simpl in Hm, Hc. split; [exact (proj1 (Hmet t w Hin) Hm)|].
      destruct (Hws _ Hin) as [Hb E]. simpl in Hb, E. rewrite E, (proj2 (wait_is_stored _ _ _ 0 Hb)) in Hc.
      destruct (Z.eqb_spec (w_clear w) pdFALSE); [by rewrite Z.bits_0 in Hc|done].
    + intros (t & w & Hin & Hm & Hc & Hbit). right. exists (EventItem t). split; [apply list_elem_of_fmap; by exists (t, w)|]. split; [exact (proj2 (Hmet t w Hin) Hm)|].
      destruct (Hws _ Hin) as [Hb E]. simpl in Hb, E. by rewrite E, (proj2 (wait_is_stored _ _ _ 0 Hb)), (proj2 (Z.eqb_neq _ _)).
  - intros t. unfold satisfied. rewrite andb_true_iff, bool_decide_eq_true, Hi. split.
    + intros [((u & w) & [= ->] & Hin)%list_elem_of_fmap Hm]. exists w. split; [done|]. exact (proj1 (Hmet u w Hin) Hm).
    + intros (w & Hin & Hm). split; [apply list_elem_of_fmap; by exists (t, w)|exact (proj2 (Hmet t w Hin) Hm)].
Qed.

(** ** Deleting a group *)

Definition waits_for (xs : list item) (t : Z) : bool := bool_decide (EventItem t ∈ xs).

Lemma release_loop_wp e xs : forall fuel k, kinv k -> kpend k ->
  is_Some (a_lists (k_lists k) !! xTasksWaitingForBits e) -> items_of (k_lists k) (xTasksWaitingForBits e) = xs ->
  (length xs <= fuel)%nat ->
  wp (release_loop fuel e) (fun _ k' =>
    answering (waits_for xs) (Z.lor eventUNBLOCKED_DUE_TO_BIT_SET taskEVENT_LIST_ITEM_VALUE_IN_USE) k k') k.
Proof.
  induction xs as [|i xs IH]; intros fuel k Hinv Hp Hl E Hf; destruct k as [h v]; cbn [k_lists] in *.
  { destruct fuel; cbn [release_loop]; wstep; (apply wp_length; [done|]); rewrite (proj2 (Z.ltb_ge _ _)) by (by rewrite E); wstep; by apply answering_refl. }
  destruct fuel as [|fuel]; [simpl in Hf; lia|]. pose proof (ki_core _ Hinv) as HK. pose proof (kc_wf _ _ HK) as Hwf.
  assert (Hi : i ∈ items_of h (xTasksWaitingForBits e)) by (rewrite E; set_solver).
  destruct (event_list_item _ _ (xTasksWaitingForBits e) _ HK eq_refl Hi) as (t & x & -> & Hx).
  apply (awf_mem _ Hwf) in Hi. pose proof (awf_nodup _ Hwf (xTasksWaitingForBits e)) as Hnd. cbn [k_lists] in *.
  rewrite E in Hnd. apply NoDup_cons in Hnd as [Hn _].
  cbn [release_loop]. wstep. apply wp_length; [done|]. rewrite (proj2 (Z.ltb_lt _ _)) by (rewrite E; simpl; lia).
  wstep. apply wp_head_entry; [done|]. rewrite E. cbn [head node_of]. wstep.
  eapply wp_mono; [by eapply (remove_unordered_wp (mkKernel h v))|]. intros [] k1 A1. pose proof (as_lists _ _ _ _ A1) as L1.
  eapply wp_mono; [apply (IH fuel k1); [apply A1|apply A1|by apply (an_lists _ _ _ _ _ L1)| |simpl in Hf; lia]|].
  - rewrite (an_items _ _ _ _ _ L1) by done. cbn [k_lists]. rewrite E, filter_cons_False by (simpl; by rewrite Z.eqb_refl).
    apply filter_keep_all. intros j Hj. apply of_task_eqb.
    destruct (event_list_item _ _ (xTasksWaitingForBits e) j HK eq_refl) as (u & _ & -> & _); [simpl; rewrite E; set_solver|].
    split; [done|]. by intros [= ->].
  - intros [] k2 A2. eapply answering_ext; [|eapply answering_trans; [exact A1|exact A2]]. intros u. unfold waits_for. simpl.
    destruct (Z.eqb_spec t u) as [<-|Hne]; simpl; [rewrite bool_decide_true; [done|set_solver]|].
    apply bool_decide_ext. set_solver.
Qed.

(** The loop that empties the list of a group being deleted ends: it makes
    ready every task that waits for the group and no other, with an event
    value that says so and carries no bits, and leaves the list empty. *)
Theorem group_delete_releases_all c k e :
  RK rep c k -> kinv k -> kpend k -> is_Some (a_lists (k_lists k) !! xTasksWaitingForBits e) ->
  on_code (release_all e) (fun _ k' =>
    items_of (k_lists k') (xTasksWaitingForBits e) = [] /\
    answering (waits_for (items_of (k_lists k) (xTasksWaitingForBits e)))
      (Z.lor eventUNBLOCKED_DUE_TO_BIT_SET taskEVENT_LIST_ITEM_VALUE_IN_USE) k k') c.
Proof.
  intros HR Hinv Hp Hl. eapply wp_transfer; [apply sim_release_all, list_c_refines|exact HR|].
  unfold release_all. destruct k as [h v]. wstep. apply wp_length; [done|].
  eapply wp_mono; [apply release_loop_wp; [done|done|done|reflexivity|by rewrite Nat2Z.id]|].
  intros [] k' A. split; [|exact A]. rewrite (an_items _ _ _ _ _ (as_lists _ _ _ _ A)) by done.
  apply elem_of_nil_inv. intros i [Hd Hi]%list_elem_of_filter.
  destruct (event_list_item _ _ (xTasksWaitingForBits e) i (ki_core _ Hinv) eq_refl Hi) as (t & _ & -> & _).
  simpl in Hd. unfold waits_for in Hd. by rewrite bool_decide_true in Hd.
Qed.

End SetBits.

(** ** Instances *)

(** A group at 9700; the most urgent task waits for the bits 0 and 2 both, to
    be cleared when it is woken, the next one for the bit 1. *)
Definition event_setup {H} `{!ListOps item list_id H} : M (Kernel H) unit :=
  boot;;
  wrv (fun v => set_event_groups (<[9700 := mkEventGroup 0 0]> (event_groups v)) v);;
  onlist (loInitialise (xTasksWaitingForBits 9700));;
  vTaskSuspendAll;; wait_bits_suspended 9700 5 pdTRUE pdTRUE 10;; xTaskResumeAll;; portYIELD;;
  vTaskSuspendAll;; wait_bits_suspended 9700 2 pdFALSE pdFALSE 10;; xTaskResumeAll;; portYIELD.

Definition event_abs : KA := ends event_setup (mkKernel (mkAheap ∅ ∅) vars0).
Definition event_ptr : CK := ends event_setup (mkKernel (mkLheap ∅ ∅) vars0).

Lemma event_related : RK rep event_ptr event_abs.
Proof.
  apply ends_related; [|apply start_related|by vm_compute]. apply sim_bind; [apply boot_sim|intros []].
  repeat sim_step; try apply sim_wait_bits_suspended; try apply sim_resume_all; try apply sim_wrv;
    try apply sim_switch; try apply sim_onlist, lr_initialise; apply list_c_refines.
Qed.

Lemma event_quiet : quiet event_abs.
Proof.
  split; [|by vm_compute|by vm_compute|by vm_compute].
  split; [apply kinv_check_sound; by vm_compute|apply pend_check_sound; by vm_compute|exists 1000, 0; by vm_compute|by vm_compute].
Qed.
Lemma event_highest : runs_highest event_abs.
Proof. eexists. split; [by vm_compute|]. split; [by vm_compute|]. apply max_check_sound. by vm_compute. Qed.
Lemma event_group : event_groups (k_vars event_abs) !! 9700 = Some (mkEventGroup 0 0).
Proof. vm_compute. reflexivity. Qed.
Lemma event_list_exists : is_Some (a_lists (k_lists event_abs) !! xTasksWaitingForBits 9700).
Proof. vm_compute. eauto. Qed.
Lemma event_waiter : tcbs (k_vars event_abs) !! 4000 = Some (mkTCB 5 4500 [0] 0 4 0 5 0 0 0 0 0).
Proof. vm_compute. reflexivity. Qed.
Definition event_wishes : list (Z * wish) := [(4000, mkWish 5 pdTRUE pdTRUE); (2000, mkWish 2 pdFALSE pdFALSE)].
Lemma event_waiting : wishes (k_lists event_abs) 9700 event_wishes.
Proof.
  split; [vm_compute; reflexivity|]. unfold event_wishes. rewrite !Forall_cons, Forall_nil. split_and!; done || (simpl; lia) || (vm_compute; reflexivity).
Qed.

(** Bits 0, 2 and 3 are set: the first task, which waits for the bits 0 and 2, is
    woken, and its bits are cleared; bit 3 stays. *)
Lemma event_set_wakes_satisfied_witness :
  on_code (run (xEventGroupSetBits 9700 13)) (fun r k' => Z.testbit r 3 = true /\ Z.testbit r 0 <> true /\ runs_highest k' /\
    cont_of (k_lists k') (StateItem 4000) = Some (Ready 5)) event_ptr.
Proof.
  eapply wp_mono; [apply (event_set_wakes_satisfied event_ptr event_abs 9700 (mkEventGroup 0 0) 13 event_wishes)|].
  - exact event_related.
  - exact event_quiet.
  - exact event_highest.
  - exact event_group.
  - exact event_list_exists.
  - exact event_waiting.
  - change (Z.lor (uxEventBits (mkEventGroup 0 0)) 13) with 13.
    assert (Hm : met 13 (mkWish 5 pdTRUE pdTRUE)) by exact (proj1 (land_all 5 13) eq_refl).
    intros r c' (k' & HR & _ & Hh & Hr & woken & Hw & Hb). exists k'. split; [exact HR|]. split; [|split; [|split; [exact Hh|]]].
    + apply Hr. split; [reflexivity|]. intros (t & w & Hin & _ & Hc & Hbit). unfold event_wishes in Hin.
      apply elem_of_cons in Hin as [[= -> ->]|[[= -> ->]|Hin%elem_of_nil]%elem_of_cons]; [discriminate Hbit|discriminate Hbit|contradiction].
    + intros H0. apply Hr in H0 as [_ H0]. apply H0. exists 4000, (mkWish 5 pdTRUE pdTRUE). split; [left|]. split; [exact Hm|]. split; [discriminate|reflexivity].
    + refine (proj1 (bs_woken _ _ _ _ _ _ Hb 4000 _ _ event_waiter)). apply Hw. exists (mkWish 5 pdTRUE pdTRUE). split; [left|exact Hm].
Defined.

Lemma event_waits : waits_for (items_of (k_lists event_abs) (xTasksWaitingForBits 9700)) 4000 = true.
Proof. vm_compute. reflexivity. Qed.

Lemma group_delete_releases_all_witness :
  on_code (release_all 9700) (fun _ k' => items_of (k_lists k') (xTasksWaitingForBits 9700) = [] /\
    cont_of (k_lists k') (StateItem 4000) = Some (Ready 5)) event_ptr.
Proof.
  eapply wp_mono; [apply (group_delete_releases_all event_ptr event_abs 9700)|].
  - exact event_related.
  - exact (rn_inv _ (qt_running _ event_quiet)).
  - exact (rn_pend _ (qt_running _ event_quiet)).
  - exact event_list_exists.
  - intros [] c' (k' & HR & He & A). exists k'. split; [exact HR|]. split; [exact He|].
    exact (proj1 (an_yes _ _ _ _ _ (as_lists _ _ _ _ A) 4000 _ event_waits event_waiter)).
Defined.
