(* ===== verification/TimerProps.v ===== *)
(** * Active timers and their expiry times

    [tinv]: the two timer lists are sorted and hold timers.  The lemmas follow
    the timer task from the insertion of one timer to the end of an epoch,
    comparing the wrapped tick counts of the code with true times. *)

From S2P Require Import Prelude Simulation Config ListC ListSpec ListRefine ListObs ListProps Heap4 Kernel Tasks TaskApi TaskEvents Queue EventGroups Bytes Timers KernelRefine DriversRefine KernelInv KernelSteps.

(** ** Expiry times *)

(** A period of [P] ticks that began at time [C], looked at at time [N]: the
    tests prvInsertTimerInActiveList makes on the wrapped counts. *)
Lemma expiry_cases C N P : C <= N < C + u32_modulus -> 0 < P < u32_modulus ->
  let next := (C mod u32_modulus) +u P in let now := N mod u32_modulus in let cmd := C mod u32_modulus in
  next = (C + P) mod u32_modulus /\
  (if next <=? now then P <=? now -u cmd else (now <? cmd) && (cmd <=? next)) = (C + P <=? N) /\
  (N < C + P -> (next <=? now) = negb ((C + P) / u32_modulus =? N / u32_modulus)).
Proof.
  intros HN HP next now cmd.
  assert (E : next = (C + P) mod u32_modulus) by (unfold next, u32; by rewrite Zplus_mod_idemp_l).
  assert (D : now -u cmd = N - C) by (unfold now, cmd, u32; rewrite <- Zminus_mod; apply Z.mod_small; lia).
  split; [done|]. rewrite D.
  pose proof (Z.div_mod C u32_modulus ltac:(done)) as D0. pose proof (Z.div_mod N u32_modulus ltac:(done)) as D1.
  pose proof (Z.div_mod (C + P) u32_modulus ltac:(done)) as D2. rewrite <- E in D2. fold cmd in D0. fold now in D1.
  pose proof (Z.mod_pos_bound C u32_modulus ltac:(done)) as B0. pose proof (Z.mod_pos_bound N u32_modulus ltac:(done)) as B1.
  pose proof (Z.mod_pos_bound (C + P) u32_modulus ltac:(done)) as B2. rewrite <- E in B2. fold cmd in B0. fold now in B1.
  generalize dependent (C / u32_modulus). generalize dependent (N / u32_modulus). generalize dependent ((C + P) / u32_modulus).
  clearbody next now cmd. clear E D. intros q2 D2 q1 D1 q0 D0.
  assert (Hq1 : q1 = q0 \/ q1 = q0 + 1) by u32_lia. assert (Hq2 : q2 = q0 \/ q2 = q0 + 1) by u32_lia. split.
  - apply eq_true_iff_eq. destruct (Z.leb_spec next now); rewrite ?andb_true_iff, ?Z.leb_le, ?Z.ltb_lt; u32_lia.
  - intros Hlt. apply eq_true_iff_eq. rewrite negb_true_iff, Z.leb_le, Z.eqb_neq. u32_lia.
Qed.

Section TimerLists.
Implicit Types (h : AH) (v : Vars) (k : KA) (x : Timer_t).

Definition the_timers k : gmap Z Timer_t := timers (timer_vars (k_vars k)).
Definition current k : list_id := pxCurrentTimerList (timer_vars (k_vars k)).
Definition overflow k : list_id := pxOverflowTimerList (timer_vars (k_vars k)).

Record tinv k : Prop := {
  ti_wf : awf (k_lists k);
  ti_pair : current k = xActiveTimerList1 /\ overflow k = xActiveTimerList2 \/
            current k = xActiveTimerList2 /\ overflow k = xActiveTimerList1;
  ti_lists l : is_timer_list l = true -> is_Some (a_lists (k_lists k) !! l);
  ti_item t x : the_timers k !! t = Some x -> is_Some (a_items (k_lists k) !! TimerItem t);
  ti_mem i l : is_timer_list l = true -> i ∈ items_of (k_lists k) l ->
    exists t x, i = TimerItem t /\ the_timers k !! t = Some x /\ owner_of (k_lists k) (TimerItem t) = t /\
      0 <= val_of (k_lists k) (TimerItem t) <= portMAX_DELAY;
  ti_sorted l : is_timer_list l = true -> sorted_by (val_of (k_lists k)) (items_of (k_lists k) l);
  ti_period t x : the_timers k !! t = Some x -> 0 < xTimerPeriodInTicks x < u32_modulus
}.

Lemma ti_current k : tinv k -> is_timer_list (current k) = true /\ is_timer_list (overflow k) = true /\ current k <> overflow k.
Proof. intros []. by destruct ti_pair0 as [[-> ->]|[-> ->]]. Qed.

Lemma same_timers_inv k k' : same_timers k k' -> tinv k -> tinv k'.
Proof.
  intros [] []. unfold the_timers, current, overflow in *. split; unfold the_timers, current, overflow; try rewrite sa_vars; auto.
  - intros t x Ht. eauto.
  - intros i l Hl. rewrite sa_items by done. intros Hi. destruct (ti_mem0 i l Hl Hi) as (t & x & -> & Hx & Ho & Hv).
    exists t, x. by rewrite sa_owner, sa_val.
  - intros l Hl. rewrite sa_items by done. eapply sorted_by_ext; [|by apply ti_sorted0]. intros i Hi.
    destruct (ti_mem0 i l Hl Hi) as (t & x & -> & _). by rewrite sa_val.
Qed.

Lemma wp_rd_timer {A} t (f : Timer_t -> A) (Q : A -> KA -> Prop) k x :
  the_timers k !! t = Some x -> Q (f x) k -> wp (rd_timer t f) Q k.
Proof. intros Hx HQ. exists (f x), k. unfold rd_timer, rdt, mbind, M_bind. simpl. unfold the_timers in Hx. by rewrite Hx. Qed.

(** The kernel with a timer replaced. *)
Definition with_timer (t : Z) x k : KA :=
  mkKernel (k_lists k) (set_timer_vars (set_timers (<[t := x]> (the_timers k)) (timer_vars (k_vars k))) (k_vars k)).

Lemma wp_wr_timer t g (Q : unit -> KA -> Prop) k x :
  the_timers k !! t = Some x -> Q tt (with_timer t (g x) k) -> wp (wr_timer t g) Q k.
Proof.
  intros Hx HQ. apply wp_bind. eapply wp_rd_timer; [exact Hx|]. apply wp_wrv.
  replace (alter g t (timers (timer_vars (k_vars k)))) with (<[t := g x]> (the_timers k)); [done|].
  apply map_eq. intros j. unfold the_timers in *. rewrite lookup_alter, lookup_insert. case_decide; subst; [by rewrite Hx|done].
Qed.

Lemma with_timer_inv t x y k : tinv k -> the_timers k !! t = Some x -> xTimerPeriodInTicks y = xTimerPeriodInTicks x ->
  tinv (with_timer t y k).
Proof.
  intros [] Hx Hp. split; try done; unfold the_timers; simpl.
  - intros u z. rewrite lookup_insert. case_decide; [subst; eauto|]. apply ti_item0.
  - intros i l Hl Hi. destruct (ti_mem0 i l Hl Hi) as (u & z & -> & Hz & ?). exists u.
    rewrite lookup_insert. case_decide; [subst|]; eauto.
  - intros u z. rewrite lookup_insert. case_decide; [|apply ti_period0]. subst. intros [= <-]. rewrite Hp. eauto.
Qed.

Lemma wp_set_owner (Q : unit -> KA -> Prop) h v i o :
  awf h -> is_Some (a_items h !! i) ->
  (forall a', awf a' -> (forall l, items_of a' l = items_of h l) -> (forall j, cont_of a' j = cont_of h j) ->
    (forall j, val_of a' j = val_of h j) -> (forall j, owner_of a' j = if decide (j = i) then o else owner_of h j) ->
    (forall j, is_Some (a_items a' !! j) <-> is_Some (a_items h !! j)) -> a_lists a' = a_lists h ->
    Q tt (mkKernel a' v)) ->
  wp (onlist (loSetOwner i o)) Q (mkKernel h v).
Proof.
  intros Hwf [y Hy] HQ. set (a' := mkAheap (<[i := mkAitem (ai_value y) o (ai_container y)]> (a_items h)) (a_lists h)).
  assert (Hc : forall j, cont_of a' j = cont_of h j).
  { intros j. unfold cont_of. simpl. rewrite lookup_insert. case_decide; subst; [by rewrite Hy|done]. }
  eapply (wp_onlist _ _ _ tt a').
  { simpl. unfold aSetOwner, a_rd_item, mbind, M_bind. by rewrite Hy. }
  apply HQ; try done.
  - destruct Hwf as [Hm Hn Hi Hs]. split; try done; simpl.
    + intros j l. rewrite Hc. apply Hm.
    + by rewrite map_size_insert_Some by eauto.
  - intros j. unfold val_of. simpl. rewrite lookup_insert. case_decide; subst; [by rewrite Hy|done].
  - intros j. unfold owner_of. simpl. rewrite lookup_insert. repeat case_decide; congruence || done.
  - intros j. simpl. apply is_Some_insert_same. eauto.
Qed.

(** ** Inserting a timer *)

(** The timer [t], which was in no list, has the expiry time [z]; it is in the
    list [c] if there is one. *)
Record placed (t z : Z) (c : option list_id) k k' : Prop := {
  pl_inv : tinv k';
  pl_vars : k_vars k' = k_vars k;
  pl_cont i : cont_of (k_lists k') i = if decide (i = TimerItem t) then c else cont_of (k_lists k) i;
  pl_items l : items_of (k_lists k') l = if decide (c = Some l)
    then insert_sorted (val_of (k_lists k')) z (TimerItem t) (items_of (k_lists k) l) else items_of (k_lists k) l;
  pl_val i : val_of (k_lists k') i = if decide (i = TimerItem t) then z else val_of (k_lists k) i
}.

Lemma set_expiry_wp (Q : unit -> KA -> Prop) k t x z : tinv k -> the_timers k !! t = Some x ->
  cont_of (k_lists k) (TimerItem t) = None -> 0 <= z <= portMAX_DELAY ->
  (forall k', placed t z None k k' -> owner_of (k_lists k') (TimerItem t) = t ->
    is_Some (a_items (k_lists k') !! TimerItem t) -> Q tt k') ->
  wp (onlist (loSetValue (TimerItem t) z);; onlist (loSetOwner (TimerItem t) t)) Q k.
Proof.
  intros Ht Hx Hc Hz HQ. pose proof (ti_item _ Ht _ _ Hx) as Hi. destruct k as [h v]. cbn [k_lists] in *.
  wstep. apply wp_set_value; [apply Ht|done|]. intros h1 Hwf1 It1 Co1 Va1 Ow1 Do1 Li1.
  apply wp_set_owner; [done|by apply Do1|]. intros h2 Hwf2 It2 Co2 Va2 Ow2 Do2 Li2.
  assert (Hn : forall l, TimerItem t ∉ items_of h l) by (intros l Hin; apply (awf_mem _ (ti_wf _ Ht)) in Hin; simpl in *; congruence).
  apply HQ; [|by simpl; rewrite Ow2, decide_True|by apply Do2, Do1]. destruct Ht. split; simpl; try done.
  - split; simpl; try done.
    + intros l Hl. rewrite Li2, Li1. auto.
    + intros u y Hu. apply Do2, Do1. eauto.
    + intros i l Hl. rewrite It2, It1. intros Hin. destruct (ti_mem0 i l Hl Hin) as (u & y & -> & Hy & Ho & Hv).
      exists u, y. rewrite Ow2, Ow1, Va2, Va1. repeat case_decide; [simplify_eq|]; done.
    + intros l Hl. rewrite It2, It1. eapply sorted_by_ext; [|by apply ti_sorted0]. intros i Hin. simpl.
      rewrite Va2, Va1, decide_False; [done|]. intros ->. by apply (Hn l).
  - intros i. rewrite Co2, Co1. case_decide; [by subst|done].
  - intros l. by rewrite It2, It1.
  - intros i. by rewrite Va2, Va1.
Qed.

Lemma insert_sorted_ext {A} (val val' : A -> Z) (z : Z) (i : A) (xs : list A) : (forall j, j ∈ xs -> val j = val' j) ->
  insert_sorted val z i xs = insert_sorted val' z i xs.
Proof.
  induction xs as [|j xs IH]; intros Hv; [done|]. simpl. rewrite (Hv j) by set_solver. rewrite IH; [done|]. set_solver.
Qed.

Lemma insert_wp (Q : unit -> KA -> Prop) k t x l : tinv k -> the_timers k !! t = Some x ->
  cont_of (k_lists k) (TimerItem t) = None -> is_timer_list l = true ->
  0 <= val_of (k_lists k) (TimerItem t) <= portMAX_DELAY -> owner_of (k_lists k) (TimerItem t) = t ->
  (forall k', placed t (val_of (k_lists k) (TimerItem t)) (Some l) k k' -> Q tt k') ->
  wp (onlist (loInsert l (TimerItem t))) Q k.
Proof.
  intros Ht Hx Hc Hl Hz Hown HQ. pose proof (ti_item _ Ht _ _ Hx) as Hi. destruct k as [h v]. cbn [k_lists] in *.
  apply wp_insert; [apply Ht|done|done|by apply (ti_lists _ Ht)|apply Hz| |].
  { apply Forall_forall. intros j Hj. by destruct (ti_mem _ Ht j l Hl Hj) as (u & y & -> & _ & _ & _ & ?). }
  intros a' M. pose proof (mv_val _ _ _ _ _ _ M) as Hv. apply HQ. split; simpl; try done.
  - destruct Ht, M. split; simpl; try done.
    + intros l' Hl'. apply mv_lists. auto.
    + intros u y Hu. apply mv_dom. eauto.
    + intros i l' Hl'. rewrite mv_items. case_decide as E.
      * subst l'. rewrite elem_of_insert_sorted. intros [->|Hin]; [exists t, x; by rewrite Hv, mv_owner|].
        destruct (ti_mem0 i l Hl Hin) as (u & y & -> & ?). exists u, y. by rewrite Hv, mv_owner.
      * intros Hin. destruct (ti_mem0 i l' Hl' Hin) as (u & y & -> & ?). exists u, y. by rewrite Hv, mv_owner.
    + intros l' Hl'. rewrite mv_items. apply (sorted_by_ext (val_of h)); [intros; by rewrite Hv|].
      case_decide; [|by apply ti_sorted0]. subst. apply insert_sorted_sorted. by apply ti_sorted0.
  - intros i. by rewrite (mv_cont _ _ _ _ _ _ M).
  - intros l'. rewrite (mv_items _ _ _ _ _ _ M). repeat case_decide; simplify_eq; try done.
    apply insert_sorted_ext. intros i _. by rewrite Hv.
  - intros i. rewrite Hv. case_decide; [by subst|done].
Qed.

Lemma placed_trans t z c k k1 k2 : placed t z None k k1 -> placed t z c k1 k2 -> placed t z c k k2.
Proof.
  intros [_ E1 C1 I1 V1] [T2 E2 C2 I2 V2]. split; [done|congruence| | |].
  - intros i. rewrite C2, C1. by case_decide.
  - intros l. rewrite I2, I1. done.
  - intros i. rewrite V2, V1. by case_decide.
Qed.

(** The list for an expiry time [E] seen from [N]. *)
Definition list_for k (E N : Z) : list_id := if E / u32_modulus =? N / u32_modulus then current k else overflow k.

(** The decision the code takes on wrapped counts is the one on true times. *)
Lemma insert_timer_wp k t x C N : tinv k -> the_timers k !! t = Some x -> cont_of (k_lists k) (TimerItem t) = None ->
  C <= N < C + u32_modulus -> let E := C + xTimerPeriodInTicks x in
  wp (prvInsertTimerInActiveList t (C mod u32_modulus +u xTimerPeriodInTicks x) (N mod u32_modulus) (C mod u32_modulus))
    (fun r k' => r = (if E <=? N then pdTRUE else pdFALSE) /\
      placed t (E mod u32_modulus) (if E <=? N then None else Some (list_for k E N)) k k') k.
Proof.
  intros Ht Hx Hc HN E. pose proof (ti_period _ Ht _ _ Hx) as HP.
  destruct (expiry_cases C N _ HN HP) as (En & Et & El). fold E in En, Et, El. rewrite En in *.
  pose proof (Z.mod_pos_bound E u32_modulus ltac:(done)) as HE. unfold prvInsertTimerInActiveList.
  apply wp_bind2. eapply set_expiry_wp; [done|exact Hx|done|unfold portMAX_DELAY; u32_lia|].
  intros k1 P1 Ow1 Do1. assert (Hx1 : the_timers k1 !! t = Some x) by (unfold the_timers; by rewrite (pl_vars _ _ _ _ _ P1)).
  assert (Hins : forall l, is_timer_list l = true -> E <=? N = false -> l = list_for k E N ->
    wp (onlist (loInsert l (TimerItem t));; mret pdFALSE) (fun r k' => r = (if E <=? N then pdTRUE else pdFALSE) /\
      placed t (E mod u32_modulus) (if E <=? N then None else Some (list_for k E N)) k k') k1).
  { intros l Hl -> ->. wstep. pose proof (pl_val _ _ _ _ _ P1 (TimerItem t)) as Hv. rewrite decide_True in Hv by done.
    eapply insert_wp; [apply P1|exact Hx1|by rewrite (pl_cont _ _ _ _ _ P1), decide_True|done|rewrite Hv; unfold portMAX_DELAY; u32_lia|done|].
    rewrite Hv. intros k2 P2. wstep. split; [done|]. by eapply placed_trans. }
  destruct (ti_current _ Ht) as (Hcu & Hov & _).
  assert (Elist : current k1 = current k /\ overflow k1 = overflow k) by (unfold current, overflow; by rewrite (pl_vars _ _ _ _ _ P1)).
  destruct Elist as [Ecu Eov].
  destruct (E mod u32_modulus <=? N mod u32_modulus) eqn:Ele.
  - wstep. eapply wp_rd_timer; [exact Hx1|]. rewrite Et. destruct (E <=? N) eqn:EN.
    + wstep. split; [done|exact P1].
    + wstep. unfold rdt. wstep. fold (overflow k1). rewrite Eov. apply Hins; [done|done|].
      specialize (El ltac:(by apply Z.leb_gt)). unfold list_for. by destruct (_ =? _).
  - rewrite Et. destruct (E <=? N) eqn:EN.
    + wstep. split; [done|exact P1].
    + wstep. unfold rdt. wstep. fold (current k1). rewrite Ecu. apply Hins; [done|done|].
      specialize (El ltac:(by apply Z.leb_gt)). unfold list_for. by destruct (_ =? _).
Qed.

(** ** Catching up with missed periods *)

(** Calls [cs] have been made, and the timer [t], which was in no list, has
    the expiry time [z] and is in the list [c] if there is one; the other
    timers are where they were. *)
Record fired (t z : Z) (c : option list_id) (cs : list (Z * Z * Z)) k k' : Prop := {
  fi_inv : tinv k';
  fi_vars : timer_vars (k_vars k') = timer_vars (k_vars k);
  fi_calls : callbacks (k_vars k') = callbacks (k_vars k) ++ cs;
  fi_cont u : cont_of (k_lists k') (TimerItem u) = if decide (u = t) then c else cont_of (k_lists k) (TimerItem u);
  fi_items l : is_timer_list l = true -> items_of (k_lists k') l = if decide (c = Some l)
    then insert_sorted (val_of (k_lists k')) z (TimerItem t) (items_of (k_lists k) l) else items_of (k_lists k) l;
  fi_val u : val_of (k_lists k') (TimerItem u) = if decide (u = t) then z else val_of (k_lists k) (TimerItem u)
}.

Lemma placed_fired t z c k k' : placed t z c k k' -> fired t z c [] k k'.
Proof.
  intros []. split; try done; rewrite ?pl_vars0; try done; [by rewrite app_nil_r|..]; intros u.
  - rewrite pl_cont0. repeat case_decide; simplify_eq; done.
  - rewrite pl_val0. repeat case_decide; simplify_eq; done.
Qed.

Lemma fired_trans t z z' c cs cs' k k1 k2 : fired t z None cs k k1 -> fired t z' c cs' k1 k2 -> fired t z' c (cs ++ cs') k k2.
Proof.
  intros [_ V1 K1 C1 I1 L1] [T2 V2 K2 C2 I2 L2]. split; [done|congruence|by rewrite K2, K1, app_assoc| | |].
  - intros u. rewrite C2, C1. by case_decide.
  - intros l Hl. rewrite I2, I1 by done. done.
  - intros u. rewrite L2, L1. by case_decide.
Qed.

Section Calls.
Variables addrSet addrClear : Z.
Variable app : Z -> Z -> Z -> prog KA unit.

(** The functions of timers are the application's, and leave the timers
    alone. *)
Hypothesis app_timers : forall f a b k, awf (k_lists k) -> wp (run (app f a b)) (fun _ k' => same_timers k k') k.

(** Calls are noted; otherwise the timers are unchanged. *)
Definition noted (cs : list (Z * Z * Z)) k k' : Prop :=
  exists k0, same_timers k0 k' /\ k0 = mkKernel (k_lists k) (set_callbacks (callbacks (k_vars k) ++ cs) (k_vars k)).

Definition own_function x : Prop := pxCallbackFunction x <> addrSet /\ pxCallbackFunction x <> addrClear.

Lemma call_wp t x k : awf (k_lists k) -> own_function x ->
  wp (run (call addrSet addrClear app (pxCallbackFunction x) t 0)) (fun _ k' => noted [(pxCallbackFunction x, t, 0)] k k') k.
Proof.
  intros Hwf [Hs Hc]. unfold call. cbn. wstep. wstep. rewrite !(proj2 (Z.eqb_neq _ _)) by done.
  eapply wp_mono; [by apply app_timers|]. intros [] k' Hk. by eexists.
Qed.

Lemma noted_fired t z cs ds k k1 k2 : fired t z None cs k k1 -> noted ds k1 k2 -> fired t z None (cs ++ ds) k k2.
Proof.
  intros [T1 V1 K1 C1 I1 L1] (k0 & S & ->). pose proof S as []. simpl in *. split; [|congruence| | | |].
  - apply (same_timers_inv _ _ S). destruct T1. by split.
  - by rewrite sa_calls, K1, app_assoc.
  - intros u. by rewrite sa_cont, C1.
  - intros l Hl. by rewrite sa_items, I1 by done.
  - intros u. by rewrite sa_val, L1.
Qed.

Lemma list_for_same k k' E N : timer_vars (k_vars k') = timer_vars (k_vars k) -> list_for k' E N = list_for k E N.
Proof. intros Ev. unfold list_for, current, overflow. by rewrite Ev. Qed.

(** prvReloadTimer calls the function once for every further period that has
    ended, and leaves the timer with the first expiry time in the future. *)
Lemma reload_wp t x N : own_function x -> forall fuel X k, tinv k -> the_timers k !! t = Some x ->
  cont_of (k_lists k) (TimerItem t) = None -> X <= N < X + u32_modulus ->
  let P := xTimerPeriodInTicks x in let m := (N - X) / P in let E := X + (m + 1) * P in
  m <= Z.of_nat fuel ->
  wp (run (prvReloadTimer addrSet addrClear app fuel t (X mod u32_modulus) (N mod u32_modulus)))
    (fun _ k' => fired t (E mod u32_modulus) (Some (list_for k E N)) (replicate (Z.to_nat m) (pxCallbackFunction x, t, 0)) k k') k.
Proof.
  intros Hown. induction fuel as [|fuel IH]; intros X k Ht Hx Hc HN P m E Hf;
    pose proof (ti_period _ Ht _ _ Hx) as HP; fold P in HP; pose proof (Z.div_pos (N - X) P ltac:(lia) ltac:(lia)) as Hm; fold m in Hm;
    pose proof (Z.div_mod (N - X) P ltac:(lia)) as Hd; fold m in Hd; pose proof (Z.mod_pos_bound (N - X) P ltac:(lia)) as Hb.
  - assert (Em : m = 0) by lia. assert (Hlt : N < X + P) by nia. cbn [prvReloadTimer].
    apply wp_run_bind, wp_run_atomic. wstep. eapply wp_rd_timer; [exact Hx|].
    eapply wp_mono; [by eapply insert_timer_wp|]. intros r k' [-> Hp]. fold P in Hp |- *. destruct (Z.leb_spec (X + P) N); [lia|].
    change (negb (pdFALSE =? pdFALSE)) with false. cbn iota. apply wp_run_ret. rewrite Em. apply placed_fired. replace E with (X + P) by (unfold E; rewrite Em; ring). exact Hp.
  - cbn [prvReloadTimer]. apply wp_run_bind, wp_run_atomic. wstep. eapply wp_rd_timer; [exact Hx|].
    eapply wp_mono; [by eapply insert_timer_wp|]. intros r k1 [-> Hp]. fold P in Hp |- *.
    destruct (Z.leb_spec (X + P) N) as [Hle|Hgt].
    + change (negb (pdTRUE =? pdFALSE)) with true. cbn iota. apply placed_fired in Hp as F1.
      assert (Hx1 : the_timers k1 !! t = Some x) by (unfold the_timers; by rewrite (fi_vars _ _ _ _ _ _ F1)).
      apply wp_run_bind, wp_run_atomic. eapply wp_rd_timer; [exact Hx1|]. apply wp_run_bind, wp_run_atomic.
      eapply wp_rd_timer; [exact Hx1|]. apply wp_run_bind. eapply wp_mono; [apply call_wp; [apply F1|done]|]. intros [] k2 Hn.
      pose proof (noted_fired _ _ _ _ _ _ _ F1 Hn) as F2.
      assert (Hx2 : the_timers k2 !! t = Some x) by (unfold the_timers; by rewrite (fi_vars _ _ _ _ _ _ F2)).
      replace (X mod u32_modulus +u xTimerPeriodInTicks x) with ((X + P) mod u32_modulus) by (unfold u32; by rewrite Zplus_mod_idemp_l).
      assert (Em : (N - (X + P)) / P = m - 1) by (symmetry; apply (Z.div_unique_pos _ _ _ ((N - X) mod P)); lia).
      eapply wp_mono; [apply (IH (X + P) k2); [apply F2|done|by rewrite (fi_cont _ _ _ _ _ _ F2), decide_True|lia|fold P; lia]|].
      intros [] k3 F3. fold P in F3. rewrite Em in F3. replace (X + P + (m - 1 + 1) * P) with E in F3 by (unfold E; ring).
      rewrite (list_for_same _ _ _ _ (fi_vars _ _ _ _ _ _ F2)) in F3.
      replace (replicate (Z.to_nat m) (pxCallbackFunction x, t, 0)) with
        ([(pxCallbackFunction x, t, 0)] ++ replicate (Z.to_nat (m - 1)) (pxCallbackFunction x, t, 0)).
      * by eapply fired_trans.
      * replace (Z.to_nat m) with (S (Z.to_nat (m - 1))) by nia. done.
    + assert (Em : m = 0) by nia. change (negb (pdFALSE =? pdFALSE)) with false. cbn iota. apply wp_run_ret. rewrite Em. apply placed_fired.
      replace E with (X + P) by (unfold E; rewrite Em; ring). exact Hp.
Qed.

(** ** Expiry *)

Definition auto x : bool := negb (Z.land (ucStatus x) tmrSTATUS_IS_AUTORELOAD =? 0).

(** The further periods that have ended at time [N] when a timer that expired
    at time [X] is looked at; its next expiry time; what it is afterwards. *)
Definition missed x (X N : Z) : Z := if auto x then (N - X) / xTimerPeriodInTicks x else 0.
Definition next_expiry x (X N : Z) : Z := X + (missed x X N + 1) * xTimerPeriodInTicks x.
Definition after_expiry x : Timer_t := if auto x then x else clear_flag tmrSTATUS_IS_ACTIVE x.
Definition calls_for x (t X N : Z) : list (Z * Z * Z) := replicate (S (Z.to_nat (missed x X N))) (pxCallbackFunction x, t, 0).

(** The timer [t] has expired at time [X], seen at time [N]. *)
Record expired (t : Z) x (X N : Z) k k' : Prop := {
  ex_inv : tinv k';
  ex_current : current k' = current k;
  ex_overflow : overflow k' = overflow k;
  ex_timers : the_timers k' = <[t := after_expiry x]> (the_timers k);
  ex_calls : callbacks (k_vars k') = callbacks (k_vars k) ++ calls_for x t X N;
  ex_cont u : cont_of (k_lists k') (TimerItem u) = if decide (u = t)
    then (if auto x then Some (list_for k (next_expiry x X N) N) else None) else cont_of (k_lists k) (TimerItem u);
  ex_items l : is_timer_list l = true -> (auto x = true -> l <> list_for k (next_expiry x X N) N) ->
    items_of (k_lists k') l = drop_elem (TimerItem t) (items_of (k_lists k) l);
  ex_val u : u <> t -> val_of (k_lists k') (TimerItem u) = val_of (k_lists k) (TimerItem u)
}.

Lemma reload_and_call_wp n t x X N k : tinv k -> the_timers k !! t = Some x -> own_function x ->
  cont_of (k_lists k) (TimerItem t) = None -> X <= N < X + u32_modulus -> missed x X N <= Z.of_nat n ->
  wp (run (reload_and_call addrSet addrClear app n t (X mod u32_modulus) (N mod u32_modulus))) (fun _ k' => expired t x X N k k') k.
Proof.
  intros Ht Hx Hown Hc HN Hn. unfold reload_and_call.
  assert (Hni : forall l, TimerItem t ∉ items_of (k_lists k) l) by (intros l Hin; apply (awf_mem _ (ti_wf _ Ht)) in Hin; congruence).
  apply wp_run_bind, wp_run_atomic. eapply wp_rd_timer; [exact Hx|]. apply wp_run_bind. fold (auto x).
  destruct (auto x) eqn:Ea.
  - unfold missed in Hn. rewrite Ea in Hn. eapply wp_mono; [by apply reload_wp|]. intros [] k1 F1.
    assert (Hx1 : the_timers k1 !! t = Some x) by (unfold the_timers; by rewrite (fi_vars _ _ _ _ _ _ F1)).
    apply wp_run_bind, wp_run_atomic. eapply wp_rd_timer; [exact Hx1|].
    eapply wp_mono; [apply call_wp; [apply F1|done]|]. intros [] k2 (k0 & S & ->).
    assert (T2 : tinv k2) by (apply (same_timers_inv _ _ S); destruct (fi_inv _ _ _ _ _ _ F1); by split).
    destruct F1 as [T1 V1 K1 C1 I1 L1], S. simpl in *. unfold current, overflow, the_timers in *.
    split; unfold current, overflow, the_timers; try rewrite sa_vars, V1; try done.
    + unfold after_expiry. by rewrite Ea, insert_id.
    + rewrite sa_calls, K1, <- app_assoc. f_equal. unfold calls_for, missed. rewrite Ea. by rewrite <- replicate_cons_app.
    + intros u. rewrite sa_cont, C1. unfold next_expiry, missed. by rewrite Ea.
    + intros l Hl Hne. rewrite sa_items, I1 by done. rewrite decide_False; [symmetry; by apply drop_elem_notin|].
      intros [= <-]. apply Hne; [done|]. unfold next_expiry, missed. by rewrite Ea.
    + intros u Hu. by rewrite sa_val, L1, decide_False.
  - apply wp_run_atomic. eapply wp_wr_timer; [exact Hx|]. apply wp_run_bind, wp_run_atomic.
    assert (T1 : tinv (with_timer t (clear_flag tmrSTATUS_IS_ACTIVE x) k)) by by eapply with_timer_inv.
    eapply wp_rd_timer; [apply lookup_insert_eq|].
    eapply wp_mono; [apply (call_wp t (clear_flag tmrSTATUS_IS_ACTIVE x)); [apply T1|done]|]. intros [] k2 (k0 & S & ->).
    assert (T2 : tinv k2) by (apply (same_timers_inv _ _ S); destruct T1; by split).
    destruct S. simpl in *. split; unfold current, overflow, the_timers; try rewrite sa_vars; try done.
    + unfold after_expiry. by rewrite Ea.
    + rewrite sa_calls. unfold calls_for, missed. by rewrite Ea.
    + intros u. rewrite sa_cont, Ea. case_decide; [by subst|done].
    + intros l Hl _. rewrite sa_items by done. symmetry. by apply drop_elem_notin.
Qed.

Lemma drop_elem_head (i : item) xs : NoDup (i :: xs) -> drop_elem i (i :: xs) = xs.
Proof.
  intros [Hn _]%NoDup_cons. unfold drop_elem. rewrite filter_cons_False by (intros Hne; by apply Hne).
  by apply (drop_elem_notin i xs).
Qed.

(** The timer [t] is in no list; nothing else has changed. *)
Record timer_out (t : Z) k k' : Prop := {
  to_inv : tinv k';
  to_vars : k_vars k' = k_vars k;
  to_cont : cont_of (k_lists k') (TimerItem t) = None;
  to_others u : u <> t -> cont_of (k_lists k') (TimerItem u) = cont_of (k_lists k) (TimerItem u);
  to_items l : items_of (k_lists k') l = drop_elem (TimerItem t) (items_of (k_lists k) l);
  to_val i : val_of (k_lists k') i = val_of (k_lists k) i
}.

Lemma gone_timer_out h v a' t : tinv (mkKernel h v) -> gone (TimerItem t) h a' -> timer_out t (mkKernel h v) (mkKernel a' v).
Proof.
  intros Ht G. split; simpl; try done; try apply G.
  - destruct Ht, G. split; simpl; try done.
    + intros l Hl. apply gn_lists. auto.
    + intros w y Hy. apply gn_dom. eauto.
    + intros i l Hl. rewrite gn_items. intros [_ Hi]%list_elem_of_filter.
      destruct (ti_mem0 i l Hl Hi) as (w & y & -> & ?). exists w, y. by rewrite gn_owner, gn_val.
    + intros l Hl. rewrite gn_items. apply (sorted_by_ext (val_of h)); [intros; by rewrite gn_val|]. apply sorted_by_drop. auto.
  - by rewrite (gn_cont _ _ _ G), decide_True.
  - intros u Hu. rewrite (gn_cont _ _ _ G), decide_False; [done|congruence].
Qed.

(** The first timer of the current list is taken out of it. *)
Lemma take_expired_wp (Q : Z -> KA -> Prop) k t xs : tinv k -> items_of (k_lists k) (current k) = TimerItem t :: xs ->
  (forall k', timer_out t k k' -> Q t k') -> wp take_expired Q k.
Proof.
  intros Ht E HQ. destruct (ti_current _ Ht) as (Hcu & _ & _).
  assert (Hin : TimerItem t ∈ items_of (k_lists k) (current k)) by (rewrite E; set_solver).
  destruct (ti_mem _ Ht _ _ Hcu Hin) as (u & x & [= <-] & Hx & Ho & _). pose proof (ti_wf _ Ht) as Hwf.
  apply (awf_mem _ Hwf) in Hin. destruct k as [h v]. unfold take_expired, rdt. wstep. wstep. wstep.
  eapply wp_head_owner; [exact Hwf|exact E|]. simpl in Ho. rewrite Ho. wstep.
  eapply wp_remove; [exact Hwf|exact Hin|]. intros a' M. wstep.
  apply HQ, gone_timer_out; [done|]. by eapply moved_gone.
Qed.

(** Before a command is carried out, the timer leaves the list it is in. *)
Lemma unlink_timer_wp (Q : unit -> KA -> Prop) k t x : tinv k -> the_timers k !! t = Some x ->
  (forall k', timer_out t k k' -> Q tt k') -> wp (unlink_timer t) Q k.
Proof.
  intros Ht Hx HQ. pose proof (ti_item _ Ht _ _ Hx) as Hi. pose proof (ti_wf _ Ht) as Hwf. destruct k as [h v]. unfold unlink_timer.
  wstep. apply wp_container; [done|]. destruct (cont_of h (TimerItem t)) as [l|] eqn:E.
  - eapply wp_listREMOVE; [done|exact E|]. intros a' M. apply HQ, gone_timer_out; [done|]. by eapply moved_gone.
  - wstep. apply HQ, gone_timer_out; [done|]. by apply gone_refl.
Qed.

Lemma process_expired_wp n t x xs X N k : tinv k -> items_of (k_lists k) (current k) = TimerItem t :: xs ->
  the_timers k !! t = Some x -> own_function x -> X <= N < X + u32_modulus -> missed x X N <= Z.of_nat n ->
  wp (run (prvProcessExpiredTimer addrSet addrClear app n (X mod u32_modulus) (N mod u32_modulus)))
    (fun _ k' => expired t x X N k k') k.
Proof.
  intros Ht E Hx Hown HN Hn. unfold prvProcessExpiredTimer. apply wp_run_bind, wp_run_atomic.
  eapply take_expired_wp; [done|exact E|]. intros k1 [T1 V1 C1 C1' I1 L1].
  eapply wp_mono; [apply (reload_and_call_wp n t x X N k1); try done; unfold the_timers; by rewrite V1|].
  intros [] k2 [T2 Cu2 Ov2 Ti2 Ca2 Co2 It2 Va2].
  assert (El : forall E N, list_for k1 E N = list_for k E N) by (intros; apply list_for_same; by rewrite V1).
  assert (Ev : current k1 = current k /\ overflow k1 = overflow k /\ the_timers k1 = the_timers k)
    by (unfold current, overflow, the_timers; by rewrite V1).
  destruct Ev as (E1 & E2 & E3). split; [done|congruence|congruence|congruence|by rewrite Ca2, V1| | |].
  - intros u. rewrite Co2, El. case_decide; [done|auto].
  - intros l Hl Hne. rewrite It2, I1; [|done|by rewrite El]. unfold drop_elem. rewrite list_filter_filter.
    apply list_filter_iff. tauto.
  - intros u Hu. rewrite Va2 by done. apply L1.
Qed.

(** ** The end of an epoch *)

(** The last tick before the count wraps. *)
Definition epoch_end : Z := u32_modulus - 1.

Lemma epoch_list k x X : 0 <= X <= epoch_end -> 0 < xTimerPeriodInTicks x < u32_modulus -> auto x = true ->
  list_for k (next_expiry x X epoch_end) epoch_end = overflow k.
Proof.
  intros HX HP Ha. unfold next_expiry, missed, list_for. rewrite Ha. set (P := xTimerPeriodInTicks x) in *.
  pose proof (Z.div_mod (epoch_end - X) P ltac:(lia)) as Hd. pose proof (Z.mod_pos_bound (epoch_end - X) P ltac:(lia)) as Hb.
  replace ((X + ((epoch_end - X) / P + 1) * P) / u32_modulus) with 1; [done|].
  apply (Z.div_unique_pos _ _ _ (X + ((epoch_end - X) / P + 1) * P - u32_modulus)); [|ring].
  replace (X + ((epoch_end - X) / P + 1) * P) with (epoch_end - (epoch_end - X) mod P + P) by lia. unfold epoch_end in *. lia.
Qed.

Definition calls_of k (t : Z) : list (Z * Z * Z) :=
  match the_timers k !! t with
  | Some x => calls_for x t (val_of (k_lists k) (TimerItem t)) epoch_end
  | None => []
  end.

(** Where a timer of the current list is when all of them have expired. *)
Definition place_after k (t : Z) : option list_id :=
  match the_timers k !! t with Some x => if auto x then Some (overflow k) else None | None => None end.

(** All timers [ts] of the current list have expired. *)
Record epoch_over (ts : list Z) k k' : Prop := {
  eo_inv : tinv k';
  eo_current : current k' = current k;
  eo_overflow : overflow k' = overflow k;
  eo_empty : items_of (k_lists k') (current k) = [];
  eo_calls : callbacks (k_vars k') = callbacks (k_vars k) ++ concat (calls_of k <$> ts);
  eo_timers u : the_timers k' !! u = if decide (u ∈ ts) then after_expiry <$> the_timers k !! u else the_timers k !! u;
  eo_cont u : cont_of (k_lists k') (TimerItem u) = if decide (u ∈ ts) then place_after k u else cont_of (k_lists k) (TimerItem u)
}.

(** Each timer of the list is one whose missed periods the fuel [n] covers. *)
Definition covered (n : nat) (ts : list Z) k : Prop := forall t x, t ∈ ts -> the_timers k !! t = Some x ->
  own_function x /\ missed x (val_of (k_lists k) (TimerItem t)) epoch_end <= Z.of_nat n.

Lemma covered_nil n k : covered n [] k.
Proof using Type. intros t x Ht. apply elem_of_nil in Ht. destruct Ht. Qed.
Lemma covered_cons n t x ts k : the_timers k !! t = Some x -> own_function x ->
  missed x (val_of (k_lists k) (TimerItem t)) epoch_end <= Z.of_nat n -> covered n ts k -> covered n (t :: ts) k.
Proof using Type. intros Hx Ho Hm Hc u y [->|Hu]%elem_of_cons Hy; [|exact (Hc u y Hu Hy)]. rewrite Hx in Hy. injection Hy as <-. exact (conj Ho Hm). Qed.

Lemma epoch_step t x ts k k1 k2 : the_timers k !! t = Some x -> t ∉ ts ->
  expired t x (val_of (k_lists k) (TimerItem t)) epoch_end k k1 ->
  (auto x = true -> list_for k (next_expiry x (val_of (k_lists k) (TimerItem t)) epoch_end) epoch_end = overflow k) ->
  epoch_over ts k1 k2 -> epoch_over (t :: ts) k k2.
Proof.
  intros Hx Hn [T1 Cu1 Ov1 Ti1 Ca1 Co1 It1 Va1] Hl [T2 Cu2 Ov2 Em2 Ca2 Ti2 Co2].
  assert (Hsame : forall u, u <> t -> the_timers k1 !! u = the_timers k !! u) by (intros u Hu; by rewrite Ti1, lookup_insert_ne).
  split; [done|congruence|congruence|by rewrite <- Cu1| | |].
  - rewrite Ca2, Ca1, <- app_assoc, fmap_cons. cbn [concat].
    replace (calls_of k t) with (calls_for x t (val_of (k_lists k) (TimerItem t)) epoch_end) by (unfold calls_of; by rewrite Hx).
    do 3 f_equal. apply list_fmap_ext. intros i u Hu%list_elem_of_lookup_2. assert (u <> t) by (intros ->; done).
    unfold calls_of. rewrite Hsame, Va1 by done. done.
  - intros u. rewrite Ti2. destruct (decide (u = t)) as [->|Hne].
    + rewrite decide_False by done. rewrite decide_True by set_solver. by rewrite Ti1, lookup_insert_eq, Hx.
    + rewrite Hsame by done. repeat case_decide; set_solver.
  - intros u. rewrite Co2, Co1. unfold place_after. destruct (decide (u = t)) as [->|Hne].
    + rewrite (decide_False (P := t ∈ ts)) by done. rewrite (decide_True (P := t ∈ t :: ts)) by set_solver. rewrite Hx.
      destruct (auto x); [|done]. by rewrite Hl.
    + rewrite Hsame, Ov1 by done. repeat case_decide; set_solver.
Qed.

Lemma head_time_wp (Q : option Z -> KA -> Prop) k : tinv k ->
  Q (match items_of (k_lists k) (current k) with [] => None | i :: _ => Some (val_of (k_lists k) i) end) k ->
  wp (l ← rdt pxCurrentTimerList; e ← listIS_EMPTY l;
      if e : bool then mret None else v ← onlist (loHeadValue l); mret (Some v)) Q k.
Proof.
  intros Ht HQ. destruct (ti_current _ Ht) as (Hcu & _). pose proof (ti_lists _ Ht _ Hcu) as Hex.
  destruct k as [h v]. unfold rdt. wstep. wstep. wstep. apply wp_listIS_EMPTY; [exact Hex|]. unfold current in *. simpl in *.
  destruct (items_of h (pxCurrentTimerList (timer_vars v))) as [|i xs] eqn:E.
  - rewrite bool_decide_true by done. by wstep.
  - rewrite bool_decide_false by done. wstep. apply wp_head_value; [apply (ti_wf _ Ht)|exact Hex|]. rewrite E. by wstep.
Qed.

Lemma expire_all_wp n ts : forall fuel k, tinv k -> items_of (k_lists k) (current k) = TimerItem <$> ts ->
  (length ts <= fuel)%nat -> covered n ts k ->
  wp (run (expire_all_loop addrSet addrClear app fuel n)) (fun _ k' => epoch_over ts k k') k.
Proof.
  induction ts as [|t ts IH]; intros fuel k Ht E Hf Hcov; destruct (ti_current _ Ht) as (Hcu & Hov & Hne);
    pose proof (ti_lists _ Ht _ Hcu) as Hex.
  { assert (Hgoal : epoch_over [] k k) by (split; try done; by rewrite app_nil_r).
    destruct fuel; cbn [expire_all_loop]; apply wp_run_bind, wp_run_atomic, head_time_wp; try done; rewrite E; by apply wp_run_ret. }
  destruct fuel as [|fuel]; [simpl in Hf; lia|]. simpl in E.
  assert (Hin : TimerItem t ∈ items_of (k_lists k) (current k)) by (rewrite E; set_solver).
  destruct (ti_mem _ Ht _ _ Hcu Hin) as (u & x & [= <-] & Hx & Ho & Hv).
  destruct (Hcov t x) as [Hown Hmiss]; [set_solver|done|]. pose proof (ti_period _ Ht _ _ Hx) as HP.
  pose proof (awf_nodup _ (ti_wf _ Ht) (current k)) as Hnd. rewrite E in Hnd.
  assert (Hnt : t ∉ ts) by (intros Hts; apply NoDup_cons in Hnd as [Hnd _]; apply Hnd, list_elem_of_fmap; eauto).
  set (X := val_of (k_lists k) (TimerItem t)) in *.
  assert (HX : 0 <= X <= epoch_end) by (unfold epoch_end, portMAX_DELAY in *; u32_lia).
  cbn [expire_all_loop]. apply wp_run_bind, wp_run_atomic, head_time_wp; try done. rewrite E. fold X. apply wp_run_bind.
  rewrite <- (Z.mod_small X u32_modulus) at 1 by (unfold epoch_end in HX; lia).
  change tmrMAX_TIME_BEFORE_OVERFLOW with (epoch_end mod u32_modulus).
  eapply wp_mono; [apply (process_expired_wp n t x (TimerItem <$> ts) X epoch_end k); try done; unfold epoch_end in *; lia|].
  intros [] k1 Hexp. assert (Hlf : auto x = true -> list_for k (next_expiry x X epoch_end) epoch_end = overflow k) by (by apply epoch_list).
  eapply wp_mono; [apply (IH fuel k1)|].
  - apply Hexp.
  - rewrite (ex_current _ _ _ _ _ _ Hexp), (ex_items _ _ _ _ _ _ Hexp), E; [by apply drop_elem_head|done|].
    intros Ha. by rewrite (Hlf Ha).
  - simpl in Hf. lia.
  - intros u y Hu. assert (u <> t) by (intros ->; done).
    rewrite (ex_timers _ _ _ _ _ _ Hexp), lookup_insert_ne, (ex_val _ _ _ _ _ _ Hexp) by done. apply Hcov. set_solver.
  - intros [] k2 Hover. by eapply epoch_step.
Qed.

End Calls.
End TimerLists.
