(* ===== verification/TimerTheorems.v ===== *)
(** * Software timers fire when they should

    A timer is inserted by true time although the tick count wraps; a timer
    that fell behind is called once for each period it missed; when the tick
    count wraps, all timers of the old epoch expire; a start command reaches
    the timer task through its queue and arms the timer.

    The application's callbacks are a parameter: they do the same on pointer
    lists and on abstract lists, and leave the timers alone. *)

From S2P Require Import Prelude Simulation Config ListC ListSpec ListRefine ListObs ListProps Heap4 Kernel Tasks TaskApi TaskEvents Queue EventGroups Bytes Timers KernelRefine DriversRefine KernelInv KernelSteps SchedProps ResumeProps KernelDemo SchedTheorems EventProps QueueData QueueTheorems TimerProps.

(** C24: prvInsertTimerInActiveList decides by true time: for a timer whose
    period began at time [C], looked at at time [N] less than 2^32 ticks
    later, it returns pdTRUE and inserts nothing exactly if the period has
    ended (C + period <= N); otherwise the timer enters, at its sorted place
    and with its wrapped expiry time, the current list if it expires before the
    tick count wraps next and the overflow list if it expires after. *)
Theorem timer_insert_exact c k t x C N :
  RK rep c k -> tinv k -> the_timers k !! t = Some x -> cont_of (k_lists k) (TimerItem t) = None ->
  C <= N < C + u32_modulus -> let E := C + xTimerPeriodInTicks x in
  on_code (prvInsertTimerInActiveList t (C mod u32_modulus +u xTimerPeriodInTicks x) (N mod u32_modulus) (C mod u32_modulus))
    (fun r k' => r = (if E <=? N then pdTRUE else pdFALSE) /\
      placed t (E mod u32_modulus) (if E <=? N then None else Some (list_for k E N)) k k') c.
Proof.
  intros HR Ht Hx Hc HN E. eapply wp_transfer; [apply sim_prvInsertTimerInActiveList, list_c_refines|exact HR|].
  by apply insert_timer_wp.
Qed.

Lemma take_words (a b c d : list Z) : length a = 4%nat -> length b = 4%nat -> length c = 4%nat -> length d = 4%nat ->
  let bs := a ++ b ++ c ++ d in
  take 4 bs = a /\ take 4 (drop 4 bs) = b /\ take 4 (drop 8 bs) = c /\ take 4 (drop 12 bs) = d.
Proof.
  intros Ha Hb Hc Hd. destruct a as [|? [|? [|? [|? [|]]]]], b as [|? [|? [|? [|? [|]]]]], c as [|? [|? [|? [|? [|]]]]],
    d as [|? [|? [|? [|? [|]]]]]; done.
Qed.

Lemma length_message m : length (message_bytes m) = 16%nat.
Proof. unfold message_bytes. by rewrite !length_app, !length_le_split. Qed.

Lemma message_words m : message_of (message_bytes m) =
  mkMessage (i32 (u32 (xMessageID m))) (u32 (m_word1 m)) (u32 (m_word2 m)) (u32 (m_word3 m)).
Proof.
  unfold message_of, message_bytes.
  destruct (take_words _ _ _ _ (length_le_split 4 (xMessageID m)) (length_le_split 4 (m_word1 m))
    (length_le_split 4 (m_word2 m)) (length_le_split 4 (m_word3 m))) as (-> & -> & -> & ->).
  by rewrite !le_word.
Qed.

(** A command survives the timer queue: a message with a signed command
    identifier and three unsigned words takes the 16 bytes of a queue item and
    is read back as it was written. *)
Theorem timer_message_roundtrip m :
  -2147483648 <= xMessageID m < 2147483648 -> u32_range (m_word1 m) -> u32_range (m_word2 m) -> u32_range (m_word3 m) ->
  Z.of_nat (length (message_bytes m)) = sizeof_DaemonTaskMessage_t /\ message_of (message_bytes m) = m.
Proof.
  intros Hid H1 H2 H3. rewrite length_message, message_words, !(u32_small (m_word1 m)), !(u32_small (m_word2 m)), !(u32_small (m_word3 m)) by done.
  split; [done|]. destruct m as [id w1 w2 w3]. simpl in *. f_equal. unfold i32, u32. rewrite Zplus_mod_idemp_l. rewrite Z.mod_small; u32_lia.
Qed.

Lemma timer_message_roundtrip_witness :
  message_of (message_bytes (mkMessage tmrCOMMAND_EXECUTE_CALLBACK 4096 4294967295 7)) =
  mkMessage tmrCOMMAND_EXECUTE_CALLBACK 4096 4294967295 7.
Proof. apply (timer_message_roundtrip (mkMessage tmrCOMMAND_EXECUTE_CALLBACK 4096 4294967295 7)); simpl; unfold u32_range, u32_modulus, tmrCOMMAND_EXECUTE_CALLBACK; lia. Defined.

Section Fire.
Variables addrSet addrClear : Z.
Variable app1 : Z -> Z -> Z -> prog CK unit.
Variable app2 : Z -> Z -> Z -> prog KA unit.
Hypothesis app_sim : forall f a b, psim (RK rep) (app1 f a b) (app2 f a b).
Hypothesis app_timers : forall f a b k, awf (k_lists k) -> wp (run (app2 f a b)) (fun _ k' => same_timers k k') k.

(** PrvReloadTimer ends: for an auto-reload timer that expired at time [X]
    and is looked at at time [N], with fuel for the (N - X) / period periods
    that have also ended, it calls the timer's function once for each of them
    and leaves the timer in a list with the first expiry time after [N]. *)
Theorem timer_reload_catches_up c k t x X N fuel :
  RK rep c k -> tinv k -> the_timers k !! t = Some x -> own_function addrSet addrClear x ->
  cont_of (k_lists k) (TimerItem t) = None -> X <= N < X + u32_modulus ->
  let P := xTimerPeriodInTicks x in let m := (N - X) / P in let E := X + (m + 1) * P in
  m <= Z.of_nat fuel ->
  on_code (run (prvReloadTimer addrSet addrClear app1 fuel t (X mod u32_modulus) (N mod u32_modulus))) (fun _ k' =>
    N < E <= N + P /\
    fired t (E mod u32_modulus) (Some (list_for k E N)) (replicate (Z.to_nat m) (pxCallbackFunction x, t, 0)) k k') c.
Proof.
  intros HR Ht Hx Hown Hc HN P m E Hf. eapply wp_transfer; [apply psim_run, psim_prvReloadTimer; [apply list_c_refines|exact app_sim]|exact HR|].
  eapply wp_mono; [by apply (reload_wp addrSet addrClear app2)|]. intros [] k' F. split; [|exact F].
  pose proof (ti_period _ Ht _ _ Hx) as HP. fold P in HP.
  pose proof (Z.div_mod (N - X) P ltac:(lia)). pose proof (Z.mod_pos_bound (N - X) P ltac:(lia)). unfold E, m. nia.
Qed.

(** C23: when the tick count has wrapped, prvSwitchTimerLists ends with the two
    lists swapped and the list of the old epoch empty: the function of every
    timer in it has been called, in the order of the list, once and once more
    for every further period of an auto-reload timer that ended before the
    wrap; auto-reload timers are in the list of the new epoch and the others in
    none, marked as stopped; no other timer has moved. *)
Theorem timer_wrap_expires_all c k n ts :
  RK rep c k -> tinv k -> items_of (k_lists k) (current k) = TimerItem <$> ts -> covered addrSet addrClear n ts k ->
  on_code (run (prvSwitchTimerLists addrSet addrClear app1 n)) (fun _ k' =>
    tinv k' /\ current k' = overflow k /\ overflow k' = current k /\ items_of (k_lists k') (overflow k') = [] /\
    callbacks (k_vars k') = callbacks (k_vars k) ++ concat (calls_of k <$> ts) /\
    (forall u, the_timers k' !! u = if decide (u ∈ ts) then after_expiry <$> the_timers k !! u else the_timers k !! u) /\
    (forall u, cont_of (k_lists k') (TimerItem u) =
      if decide (u ∈ ts) then place_after k u else cont_of (k_lists k) (TimerItem u))) c.
Proof.
  intros HR Ht E Hcov. eapply wp_transfer; [apply psim_run, psim_prvSwitchTimerLists; [apply list_c_refines|exact app_sim]|exact HR|].
  destruct (ti_current _ Ht) as (Hcu & _). pose proof (ti_lists _ Ht _ Hcu) as Hex.
  unfold prvSwitchTimerLists. apply wp_run_bind, wp_run_atomic. unfold rdt. wstep. wstep. destruct k as [h v].
  apply wp_length; [exact Hex|]. fold (current (mkKernel h v)). cbn [k_lists] in E. rewrite E. apply wp_run_bind.
  eapply wp_mono; [apply (expire_all_wp addrSet addrClear app2 app_timers n ts); [done|done| |done]|].
  { rewrite Nat2Z.id. by rewrite length_fmap. }
  intros [] k1 [T1 Cu1 Ov1 Em1 Ca1 Ti1 Co1]. apply wp_run_atomic. unfold wrt. wstep.
  split_and!; try done.
  - destruct T1. unfold current, overflow, the_timers in *. split; simpl; try done. tauto.
  - change (items_of (k_lists k1) (current k1) = []). by rewrite Cu1.
Qed.

(** ** From the command to the armed timer *)

Variable xStart : Z.

(** The timer queue is at [q], empty, and made for messages. *)
Record timer_queue (q : Z) k : Prop := {
  tq_queue : xTimerQueue (timer_vars (k_vars k)) = q;
  tq_null : q <> NULL;
  tq_obj : exists y, has_queue q y k /\ ring y [] /\ uxItemSize y = sizeof_DaemonTaskMessage_t
}.

(** The command is in the queue; nothing about timers has changed. *)
Lemma start_sends_wp q junk t ticks k n : running k -> timer_queue q k ->
  wp (run (xTimerStart (S n) junk t ticks)) (fun r k' => r = inr (pdPASS, false) /\ running k' /\ same_timers k k' /\
    xTickCount (k_vars k') = xTickCount (k_vars k) /\
    exists y, has_queue q y k' /\ ring y [message_bytes (mkMessage tmrCOMMAND_START (xTickCount (k_vars k)) t junk)] /\
      uxItemSize y = sizeof_DaemonTaskMessage_t) k.
Proof.
  intros Hrun [Hq Hn (y & Hy & Hr & Hs)]. unfold xTimerStart, xTaskGetTickCount. apply wp_run_bind, wp_run_atomic, wp_rdv.
  unfold xTimerGenericCommand. apply wp_run_bind, wp_run_atomic, wp_rdv. rewrite Hq, (proj2 (Z.eqb_neq _ _)) by done.
  cbn [negb]. cbv zeta. change (tmrCOMMAND_START <? tmrFIRST_FROM_ISR_COMMAND) with true. cbn iota.
  set (msg := message_bytes _). assert (Hlen : length msg = 16%nat) by apply length_message. apply wp_run_bind, wp_run_atomic.
  assert (Hst : wp xTaskGetSchedulerState (fun _ k' => k' = k) k) by (unfold xTaskGetSchedulerState; wstep; wstep; destruct (_ =? _); by wsteps).
  eapply wp_mono; [exact Hst|]. intros st k' ->. apply wp_run_bind.
  eapply wp_mono; [apply (send_wp q y [] msg queueSEND_TO_BACK); [done|done|done| |]|].
  - left. split; [by left|]. apply Hr.
  - by rewrite Hs, Hlen.
  - intros r k' (-> & x' & Hsq & Hr' & Hsv). apply wp_run_ret. split; [done|]. split; [apply Hsv|].
    pose proof (sv_timers _ _ _ Hsv) as Hst'. destruct (sv_vars _ _ _ Hsv) as (cur & yp & b & Ev). split_and!.
    + eapply same_timers_trans; [|exact Hst']. by split.
    + by rewrite Ev.
    + exists x'. split; [|split].
      * eapply served_has; [exact Hsv|]. by eapply with_queue_has.
      * rewrite Hs in Hr'. rewrite take_ge in Hr'; [exact Hr'|]. by rewrite Hlen.
      * destruct Hsq as (_&_&_&?&_). congruence.
Qed.

(** The time is sampled in the epoch of the last sample. *)
Lemma sample_wp n (Q : Z * Z -> KA -> Prop) k : xLastTime (timer_vars (k_vars k)) <= xTickCount (k_vars k) ->
  Q (xTickCount (k_vars k), pdFALSE)
    (mkKernel (k_lists k) (set_timer_vars (set_xLastTime (xTickCount (k_vars k)) (timer_vars (k_vars k))) (k_vars k))) ->
  wp (run (prvSampleTimeNow addrSet addrClear app2 n)) Q k.
Proof.
  intros Hl HQ. unfold prvSampleTimeNow, xTaskGetTickCount. apply wp_run_bind, wp_run_atomic, wp_rdv.
  apply wp_run_bind, wp_run_atomic, wp_rdv. rewrite (proj2 (Z.ltb_ge _ _)) by done. apply wp_run_bind, wp_run_ret.
  apply wp_run_bind, wp_run_atomic, wp_wrv, wp_run_ret. exact HQ.
Qed.

(** What a start command that came at the present time [T] leaves. *)
Record armed (t : Z) (x : Timer_t) (T : Z) k k' : Prop := {
  ad_inv : tinv k';
  ad_timers : the_timers k' = <[t := set_flag tmrSTATUS_IS_ACTIVE x]> (the_timers k);
  ad_calls : callbacks (k_vars k') = callbacks (k_vars k);
  ad_place : cont_of (k_lists k') (TimerItem t) = Some (list_for k (T + xTimerPeriodInTicks x) T);
  ad_expiry : val_of (k_lists k') (TimerItem t) = (T + xTimerPeriodInTicks x) mod u32_modulus;
  ad_others u : u <> t -> cont_of (k_lists k') (TimerItem u) = cont_of (k_lists k) (TimerItem u)
}.

Lemma process_start_wp n t x k : tinv k -> the_timers k !! t = Some x -> u32_range (xTickCount (k_vars k)) ->
  xLastTime (timer_vars (k_vars k)) <= xTickCount (k_vars k) ->
  wp (run (process_command xStart addrSet addrClear app2 n tmrCOMMAND_START (xTickCount (k_vars k)) t))
    (fun _ k' => armed t x (xTickCount (k_vars k)) k k' /\ queues (k_vars k') = queues (k_vars k) /\
      xTimerQueue (timer_vars (k_vars k')) = xTimerQueue (timer_vars (k_vars k))) k.
Proof.
  intros Ht Hx HT Hl. set (T := xTickCount (k_vars k)) in *. unfold process_command.
  apply wp_run_bind, wp_run_atomic. eapply unlink_timer_wp; [done|exact Hx|]. intros k1 [T1 V1 C1 O1 _ _].
  apply wp_run_bind. apply sample_wp; [by rewrite V1|]. cbn beta iota. rewrite V1. fold T.
  change (is_start tmrCOMMAND_START) with true. cbn iota. set (k2 := mkKernel _ _). unfold start_timer.
  assert (T2 : tinv k2) by (destruct T1; unfold the_timers, current, overflow in *; rewrite V1 in *; by split).
  assert (Hx2 : the_timers k2 !! t = Some x) by exact Hx.
  set (y := set_flag tmrSTATUS_IS_ACTIVE x). apply wp_run_bind, wp_run_atomic. eapply wp_wr_timer; [exact Hx2|]. fold y.
  set (k3 := with_timer t y k2). assert (T3 : tinv k3) by by eapply with_timer_inv.
  assert (Hx3 : the_timers k3 !! t = Some y) by apply lookup_insert_eq.
  apply wp_run_bind, wp_run_atomic. wstep. eapply wp_rd_timer; [exact Hx3|].
  replace T with (T mod u32_modulus) by (by apply Z.mod_small).
  pose proof (ti_period _ T3 _ _ Hx3) as HP.
  eapply wp_mono; [apply (insert_timer_wp k3 t y T T); [done|done|exact C1|lia]|].
  intros r k4 [-> Hp]. rewrite (proj2 (Z.leb_gt _ _)) in * by lia. change (negb (pdFALSE =? pdFALSE)) with false. cbn iota.
  apply wp_run_ret. rewrite (Z.mod_small T) by done. destruct Hp as [T4 V4 C4 _ L4]. split; [|by rewrite V4]. split; try done.
  - unfold the_timers. by rewrite V4.
  - by rewrite V4.
  - by rewrite C4, decide_True.
  - by rewrite L4, decide_True.
  - intros u Hu. rewrite C4, decide_False by congruence. by apply O1.
Qed.

(** The timer task takes the only message out of its queue and obeys it. *)
Lemma receive_start_wp n q t x junk y k : running k -> tinv k -> the_timers k !! t = Some x -> u32_range t ->
  xLastTime (timer_vars (k_vars k)) <= xTickCount (k_vars k) ->
  xTimerQueue (timer_vars (k_vars k)) = q -> has_queue q y k ->
  ring y [message_bytes (mkMessage tmrCOMMAND_START (xTickCount (k_vars k)) t junk)] ->
  wp (run (prvProcessReceivedCommands xStart addrSet addrClear app2 (S (S n))))
    (fun r k' => r = inr tt /\ armed t x (xTickCount (k_vars k)) k k') k.
Proof.
  intros Hrun Ht Hx Hu Hl Hq Hy Hr. pose proof (kt_tick _ (ki_time _ (rn_inv _ Hrun))) as HT.
  unfold prvProcessReceivedCommands. generalize (S (S n)) at 2 as n0. intros n0. cbn [iterate]. apply wp_run_bind.
  unfold prvProcessReceivedCommands_iter at 1. apply wp_run_bind, wp_run_atomic, wp_rdv. rewrite Hq. apply wp_run_bind.
  eapply wp_mono; [eapply (receive_wp q y _ [] tmrNO_DELAY 0 k); done|].
  intros r k1 (-> & y1 & Hsq & Hr1 & Hsv). change (negb (pdPASS =? pdFAIL)) with true. cbn iota zeta. rewrite message_words.
  cbn [xMessageID m_word1 m_word2 m_word3]. change (i32 (u32 tmrCOMMAND_START)) with tmrCOMMAND_START.
  rewrite !u32_small by done. change (tmrCOMMAND_START <? 0) with false. cbn iota.
  destruct (sv_vars _ _ _ Hsv) as (cur & yp & b & Ev). pose proof (sv_timers _ _ _ Hsv) as Hst.
  assert (Hst' : same_timers k k1) by (eapply same_timers_trans; [|exact Hst]; by split).
  pose proof (same_timers_inv _ _ Hst' Ht) as T1. pose proof (sa_vars _ _ Hst') as Etv.
  assert (ET : xTickCount (k_vars k) = xTickCount (k_vars k1)) by by rewrite Ev. rewrite ET in *.
  apply wp_run_bind. eapply wp_mono.
  { apply (process_start_wp n0 t x k1); [done|unfold the_timers; by rewrite Etv|done|by rewrite Etv]. }
  intros [] k2 (Ha & Eq & Etq). apply wp_run_ret. cbn [iterate]. apply wp_run_bind.
  unfold prvProcessReceivedCommands_iter at 1. apply wp_run_bind, wp_run_atomic, wp_rdv.
  rewrite Etq, Etv, Hq. apply wp_run_bind.
  eapply wp_mono; [apply (receive_empty_now_wp q y1 0 k2)|].
  - rewrite Eq, Ev. apply lookup_with_queue.
  - by rewrite (rg_count _ _ Hr1).
  - intros r k' [-> ->]. change (negb (errQUEUE_EMPTY =? pdFAIL)) with false. cbn iota. apply wp_run_ret, wp_run_ret.
    split; [done|]. destruct Ha as [A1 A2 A3 A4 A5 A6]. split; try done.
    + rewrite A2. unfold the_timers. by rewrite Etv.
    + by rewrite A3, (sa_calls _ _ Hst').
    + by rewrite A4, (list_for_same _ _ _ _ Etv).
    + intros u Hu'. rewrite A6 by done. apply (sa_cont _ _ Hst').
Qed.

(** C22: starting a timer arms it: xTimerStart sends the command without
    waiting to a timer queue that is empty, and when the timer task then
    processes the queue, both calls return, the timer is marked active and
    is in the list for its expiry time, one period from now, whether it was
    active before or not; no function is called and no other timer moves. *)
Theorem timer_start_arms c k q t x junk ticks n m :
  RK rep c k -> running k -> tinv k -> timer_queue q k -> the_timers k !! t = Some x -> u32_range t ->
  xLastTime (timer_vars (k_vars k)) <= xTickCount (k_vars k) ->
  on_code (r1 ← run (xTimerStart (S m) junk t ticks);
           r2 ← run (prvProcessReceivedCommands xStart addrSet addrClear app1 (S (S n))); mret (r1, r2))
    (fun r k' => r = (inr (pdPASS, false), inr tt) /\ armed t x (xTickCount (k_vars k)) k k') c.
Proof.
  intros HR Hrun Ht Htq Hx Hu Hl.
  apply (wp_transfer (RK rep) _ (r1 ← run (xTimerStart (S m) junk t ticks);
           r2 ← run (prvProcessReceivedCommands xStart addrSet addrClear app2 (S (S n))); mret (r1, r2)) _ c k); [|exact HR|].
  { apply sim_bind; [apply psim_run, psim_xTimerStart, list_c_refines|intros r1].
    apply sim_bind; [apply psim_run, psim_prvProcessReceivedCommands; [apply list_c_refines|exact app_sim]|intros r2; apply sim_ret]. }
  wstep. eapply wp_mono; [by apply (start_sends_wp q)|]. intros r1 k1 (-> & Hrun1 & Hst & ET & y & Hy & Hr & _).
  pose proof (sa_vars _ _ Hst) as Etv. rewrite <- ET in *. wstep.
  eapply wp_mono; [apply (receive_start_wp n q t x junk y k1); try done|].
  - by eapply same_timers_inv.
  - unfold the_timers. by rewrite Etv.
  - by rewrite Etv.
  - rewrite Etv. apply Htq.
  - intros r2 k2 [-> [A1 A2 A3 A4 A5 A6]]. wstep. split; [done|]. split; try done.
    + rewrite A2. unfold the_timers. by rewrite Etv.
    + by rewrite A3, (sa_calls _ _ Hst).
    + by rewrite A4, (list_for_same _ _ _ _ Etv).
    + intros u Hu'. rewrite A6 by done. apply (sa_cont _ _ Hst).
Qed.

End Fire.

(** ** Instances *)

Definition timer_item_check (k : KA) (i : item) : bool :=
  match i with
  | TimerItem t => bool_decide (is_Some (the_timers k !! t)) && (owner_of (k_lists k) i =? t) &&
                   (0 <=? val_of (k_lists k) i) && (val_of (k_lists k) i <=? portMAX_DELAY)
  | _ => false
  end.

Definition timer_list_check (k : KA) (l : list_id) : bool :=
  bool_decide (is_Some (a_lists (k_lists k) !! l)) && forallb (timer_item_check k) (items_of (k_lists k) l) &&
  sorted_check (val_of (k_lists k)) (items_of (k_lists k) l).

Definition tinv_check (k : KA) : bool :=
  bool_decide (current k = xActiveTimerList1 /\ overflow k = xActiveTimerList2) &&
  timer_list_check k xActiveTimerList1 && timer_list_check k xActiveTimerList2 &&
  forallb (fun p => bool_decide (is_Some (a_items (k_lists k) !! TimerItem p.1)) &&
    (0 <? xTimerPeriodInTicks p.2) && (xTimerPeriodInTicks p.2 <? u32_modulus)) (map_to_list (the_timers k)).

Lemma tinv_check_sound (k : KA) : awf (k_lists k) -> tinv_check k = true -> tinv k.
Proof.
  intros Hwf. unfold tinv_check. rewrite !andb_true_iff, bool_decide_eq_true. intros [[[Hp H1] H2] Ht].
  assert (Hl : forall l, is_timer_list l = true -> timer_list_check k l = true) by (by intros []).
  assert (Hl' : forall l, is_timer_list l = true -> is_Some (a_lists (k_lists k) !! l) /\
    forallb (timer_item_check k) (items_of (k_lists k) l) = true /\ sorted_by (val_of (k_lists k)) (items_of (k_lists k) l)).
  { intros l Hli%Hl. unfold timer_list_check in Hli. rewrite !andb_true_iff, bool_decide_eq_true in Hli.
    destruct Hli as [[? ?] ?%sorted_check_sound]. done. }
  pose proof (forallb_map (fun t x => bool_decide (is_Some (a_items (k_lists k) !! TimerItem t)) &&
    (0 <? xTimerPeriodInTicks x) && (xTimerPeriodInTicks x <? u32_modulus)) _ Ht) as Ht'.
  split; [done|by left|intros l Hli; by apply Hl'| | |intros l Hli; by apply Hl'|].
  - intros t x Hx%Ht'. rewrite !andb_true_iff, bool_decide_eq_true in Hx. apply Hx.
  - intros i l Hli Hi. destruct (Hl' l Hli) as (_ & Hf & _). pose proof (forallb_elem _ _ Hf i Hi) as Hc.
    destruct i as [t|t|t]; try done. unfold timer_item_check in Hc.
    rewrite !andb_true_iff, bool_decide_eq_true, Z.eqb_eq, !Z.leb_le in Hc. destruct Hc as [[[[x Hx] ?] ?] ?]. by exists t, x.
  - intros t x Hx%Ht'. rewrite !andb_true_iff, !Z.ltb_lt in Hx. lia.
Qed.

(** A timer queue, an auto-reload timer of period 2^31 that expires at time
    10, a one-shot timer that expires at time 5, and one that is stopped. *)
Definition timer_setup {H} `{!ListOps item list_id H} : M (Kernel H) unit :=
  boot;;
  onlist (loInitialise xActiveTimerList1);; onlist (loInitialise xActiveTimerList2);;
  prvInitialiseNewQueue 0 (fun _ => 0) 10 sizeof_DaemonTaskMessage_t 0 6000;;
  wrt (set_xTimerQueue 6000);;
  run (prvInitialiseNewTimer 0 0 0 0 (fun _ => 0) 0 2147483648 pdTRUE 0 800 7000 0);;
  run (prvInitialiseNewTimer 0 0 0 0 (fun _ => 0) 0 5 pdFALSE 0 900 7100 0);;
  run (prvInitialiseNewTimer 0 0 0 0 (fun _ => 0) 0 7 pdFALSE 0 900 7200 0);;
  prvInsertTimerInActiveList 7000 10 0 0;; prvInsertTimerInActiveList 7100 5 0 0;; mret tt.

Definition timer_abs : KA := ends timer_setup (mkKernel (mkAheap ∅ ∅) vars0).
Definition timer_ptr : CK := ends timer_setup (mkKernel (mkLheap ∅ ∅) vars0).

Lemma timer_related : RK rep timer_ptr timer_abs.
Proof.
  apply ends_related; [|apply start_related|by vm_compute]. apply sim_bind; [apply boot_sim|intros []].
  repeat sim_step; try apply sim_prvInitialiseNewQueue; try apply sim_wrt; try apply sim_prvInsertTimerInActiveList;
    try apply sim_onlist, lr_initialise; try (apply psim_run; apply psim_prvInitialiseNewTimer); apply list_c_refines.
Qed.

Lemma timer_running : running timer_abs.
Proof.
  split; [apply kinv_check_sound; by vm_compute|apply pend_check_sound; by vm_compute|exists 4000, 5; by vm_compute|by vm_compute].
Qed.
Lemma timer_inv : tinv timer_abs.
Proof. apply tinv_check_sound; [apply (kc_wf _ _ (ki_core _ (rn_inv _ timer_running)))|by vm_compute]. Qed.

Definition auto_timer : Timer_t := mkTimer 0 2147483648 0 800 0 4.
Definition one_shot_timer : Timer_t := mkTimer 0 5 0 900 0 0.
Definition stopped_timer : Timer_t := mkTimer 0 7 0 900 0 0.
Definition timer_message_queue : Queue_t := mkQueue 6080 6080 6240 6224 0 10 16 (-1) (-1) 0 0 (replicate 160 0).

Lemma auto_lookup : the_timers timer_abs !! 7000 = Some auto_timer.
Proof. vm_compute. reflexivity. Qed.
Lemma one_shot_lookup : the_timers timer_abs !! 7100 = Some one_shot_timer.
Proof. vm_compute. reflexivity. Qed.
Lemma stopped_lookup : the_timers timer_abs !! 7200 = Some stopped_timer.
Proof. vm_compute. reflexivity. Qed.
Lemma stopped_out : cont_of (k_lists timer_abs) (TimerItem 7200) = None.
Proof. vm_compute. reflexivity. Qed.
Lemma timer_queue_ready : timer_queue 6000 timer_abs.
Proof.
  split; [vm_compute; reflexivity|discriminate|]. exists timer_message_queue. split; [|split; [|reflexivity]].
  - split; [vm_compute; reflexivity|vm_compute; eauto|vm_compute; eauto].
  - apply (reset_ring timer_message_queue); try done; simpl; unfold u32_modulus; lia.
Qed.
Lemma timer_last : xLastTime (timer_vars (k_vars timer_abs)) <= xTickCount (k_vars timer_abs).
Proof. vm_compute. discriminate. Qed.

(** Callbacks that use nothing of the kernel. *)
Definition no_app {S} (f a b : Z) : prog S unit := mret tt.
Lemma no_app_sim (f a b : Z) : psim (RK (rep (item := item) (list_id := list_id))) (no_app f a b) (no_app f a b).
Proof. apply psim_ret. Qed.
Lemma no_app_timers (f a b : Z) (k : KA) : awf (k_lists k) -> wp (run (no_app f a b)) (fun _ k' => same_timers k k') k.
Proof. intros _. apply wp_run_ret, same_timers_refl. Qed.

(** A period of 7 that began at 2^32 - 3, looked at 5 ticks later: it ends
    after the wrap, in the current epoch. *)
Lemma timer_insert_exact_witness :
  on_code (prvInsertTimerInActiveList 7200 4 2 4294967293) (fun r k' => r = pdFALSE /\
    cont_of (k_lists k') (TimerItem 7200) = Some (current timer_abs)) timer_ptr.
Proof.
  eapply wp_mono; [apply (timer_insert_exact timer_ptr timer_abs 7200 stopped_timer 4294967293 4294967298)|].
  - exact timer_related.
  - exact timer_inv.
  - exact stopped_lookup.
  - exact stopped_out.
  - unfold u32_modulus. lia.
  - intros r c' (k' & HR & Hr & Hp). exists k'. split; [exact HR|]. split; [exact Hr|].
    exact (pl_cont _ _ _ _ _ Hp (TimerItem 7200)).
Defined.

(** Looked at 17 ticks after it expired, two further periods have ended. *)
Lemma timer_reload_catches_up_witness :
  on_code (run (prvReloadTimer 100 200 no_app 2 7200 4294967290 11)) (fun _ k' =>
    callbacks (k_vars k') = callbacks (k_vars timer_abs) ++ [(900, 7200, 0); (900, 7200, 0)] /\
    val_of (k_lists k') (TimerItem 7200) = 15) timer_ptr.
Proof.
  eapply wp_mono; [apply (timer_reload_catches_up 100 200 no_app no_app no_app_sim no_app_timers timer_ptr timer_abs
    7200 stopped_timer 4294967290 4294967307 2)|].
  - exact timer_related.
  - exact timer_inv.
  - exact stopped_lookup.
  - split; discriminate.
  - exact stopped_out.
  - unfold u32_modulus. lia.
  - vm_compute. discriminate.
  - intros [] c' (k' & HR & _ & F). exists k'. split; [exact HR|]. split; [exact (fi_calls _ _ _ _ _ _ F)|].
    exact (fi_val _ _ _ _ _ _ F 7200).
Defined.

Lemma timer_expired_list : items_of (k_lists timer_abs) (current timer_abs) = TimerItem <$> [7100; 7000].
Proof. vm_compute. reflexivity. Qed.
Lemma timer_covered : covered 100 200 1 [7100; 7000] timer_abs.
Proof.
  eapply covered_cons; [exact one_shot_lookup|split; discriminate|vm_compute; discriminate|].
  eapply covered_cons; [exact auto_lookup|split; discriminate|vm_compute; discriminate|apply covered_nil].
Qed.
Lemma timer_wrap_calls : concat (calls_of timer_abs <$> [7100; 7000]) = [(900, 7100, 0); (800, 7000, 0); (800, 7000, 0)].
Proof. vm_compute. reflexivity. Qed.

(** The one-shot timer is called once, the auto-reload timer twice. *)
Lemma timer_wrap_expires_all_witness :
  on_code (run (prvSwitchTimerLists 100 200 no_app 1)) (fun _ k' =>
    callbacks (k_vars k') = callbacks (k_vars timer_abs) ++ [(900, 7100, 0); (800, 7000, 0); (800, 7000, 0)] /\
    current k' = overflow timer_abs) timer_ptr.
Proof.
  eapply wp_mono; [apply (timer_wrap_expires_all 100 200 no_app no_app no_app_sim no_app_timers timer_ptr timer_abs 1 [7100; 7000])|].
  - exact timer_related.
  - exact timer_inv.
  - exact timer_expired_list.
  - exact timer_covered.
  - rewrite timer_wrap_calls. intros [] c' (k' & HR & _ & Hc & _ & _ & Hcb & _). exists k'.
    split; [exact HR|]. split; [exact Hcb|exact Hc].
Defined.

Lemma timer_start_arms_witness :
  on_code (r1 ← run (xTimerStart 1 0 7200 0); r2 ← run (prvProcessReceivedCommands 0 100 200 no_app 2); mret (r1, r2))
    (fun r k' => r = (inr (pdPASS, false), inr tt) /\
      the_timers k' !! 7200 = Some (set_flag tmrSTATUS_IS_ACTIVE stopped_timer)) timer_ptr.
Proof.
  eapply wp_mono; [apply (timer_start_arms 100 200 no_app no_app no_app_sim 0 timer_ptr timer_abs 6000 7200
    stopped_timer 0 0 0 0)|].
  - exact timer_related.
  - exact timer_running.
  - exact timer_inv.
  - exact timer_queue_ready.
  - exact stopped_lookup.
  - unfold u32_range, u32_modulus. lia.
  - exact timer_last.
  - intros r c' (k' & HR & Hr & Ha). exists k'. split; [exact HR|]. split; [exact Hr|].
    rewrite (ad_timers _ _ _ _ _ Ha). apply lookup_insert_eq.
Defined.
