(* ===== verification/StreamData.v ===== *)
(** * The bytes in a stream buffer

    [stream x xs]: the stream buffer object [x] holds the bytes [xs], oldest
    first, from [xTail] on around the ring.  The data operations of
    stream_buffer.c append to and remove from [xs]; in a message buffer the
    bytes are the encoding of a sequence of messages. *)

From S2P Require Import Prelude Config Kernel Queue QueueData Bytes StreamBuffers.

(** ** Copies, place by place *)

Lemma copy_in_at st off n (item : list Z) : (off + n <= length st)%nat -> (n <= length item)%nat ->
  exists st', copy_in st (Z.of_nat off) (Z.of_nat n) item = Some st' /\ length st' = length st /\
  forall i, st' !! i = if decide (off <= i < off + n)%nat then item !! (i - off)%nat else st !! i.
Proof.
  intros H1 H2. unfold copy_in. rewrite !(proj2 (Z.leb_le _ _)) by lia. simpl. eexists. split; [done|].
  rewrite <- Nat2Z.inj_add, !Nat2Z.id. split.
  - rewrite !length_app, !length_take, length_drop. lia.
  - intros i. case_decide as Hi.
    + rewrite lookup_app_r by (rewrite length_take; lia). rewrite length_take, Nat.min_l by lia.
      rewrite lookup_app_l by (rewrite length_take; lia). by rewrite lookup_take_lt by lia.
    + destruct (decide (i < off)%nat).
      * rewrite lookup_app_l by (rewrite length_take; lia). by rewrite lookup_take_lt by lia.
      * rewrite lookup_app_r by (rewrite length_take; lia). rewrite length_take, Nat.min_l by lia.
        rewrite lookup_app_r by (rewrite length_take; lia). rewrite length_take, Nat.min_l by lia.
        rewrite lookup_drop. f_equal. lia.
Qed.

Lemma copy_out_at (st : list Z) off n : (off + n <= length st)%nat ->
  exists bs, copy_out st (Z.of_nat off) (Z.of_nat n) = Some bs /\ length bs = n /\
  forall j, (j < n)%nat -> bs !! j = st !! (off + j)%nat.
Proof.
  intros H1. unfold copy_out. rewrite !(proj2 (Z.leb_le _ _)) by lia. simpl. eexists. split; [done|].
  rewrite !Nat2Z.id. split.
  - rewrite length_take, length_drop. lia.
  - intros j Hj. rewrite lookup_take_lt by lia. by rewrite lookup_drop.
Qed.

(** ** Around the ring *)

Section Ring.
Implicit Types (x : StreamBuffer_t) (bs xs data : list Z) (h t n j : nat).

Definition size_of x : nat := Z.to_nat (xLength x).

Lemma wrap_cases L h j : (h < L)%nat -> (j <= L)%nat ->
  (h + j < L /\ wrap L (h + j) = h + j)%nat \/ (L <= h + j /\ wrap L (h + j) = h + j - L)%nat.
Proof.
  intros Hh Hj. destruct (decide (h + j < L)%nat); [left; split; [done|by apply wrap_small]|].
  right. split; [lia|]. unfold wrap. replace (h + j)%nat with (h + j - L + 1 * L)%nat by lia.
  rewrite Nat.Div0.mod_add, Nat.mod_small by lia. lia.
Qed.

(** A position in a buffer of at most 2^31 bytes moves forward. *)
Lemma advance (L h n : nat) : (h < L)%nat -> (n <= L)%nat -> 2 * Z.of_nat L <= u32_modulus ->
  (let p := Z.of_nat h +u Z.of_nat n in if Z.of_nat L <=? p then p -u Z.of_nat L else p) = Z.of_nat (wrap L (h + n)).
Proof.
  intros Hh Hn HL. rewrite u32_small by (unfold u32_range; lia). cbn zeta.
  destruct (wrap_cases L h n Hh Hn) as [[H1 ->]|[H1 ->]].
  - rewrite (proj2 (Z.leb_gt _ _)) by lia. lia.
  - rewrite (proj2 (Z.leb_le _ _)) by lia. rewrite u32_small by (unfold u32_range; lia). lia.
Qed.

(** What it takes for a buffer to be one. *)
Record sized x : Prop := mkSized {
  sz_pos : 0 < xLength x;
  sz_max : 2 * xLength x <= u32_modulus;
  sz_bytes : length (bytes x) = size_of x
}.

(** Writing [n] bytes from position [h]: the places reached from [h] in fewer
    than [n] steps change. *)
Lemma write_bytes x data h n : sized x -> (h < size_of x)%nat -> (n <= size_of x)%nat -> (n <= length data)%nat ->
  exists bs, prvWriteBytesToBuffer x data (Z.of_nat n) (Z.of_nat h) =
      Some (set_bytes bs x, Z.of_nat (wrap (size_of x) (h + n))) /\
    length bs = size_of x /\
    forall j, (j < size_of x)%nat -> bs !! wrap (size_of x) (h + j) =
      if decide (j < n)%nat then data !! j else bytes x !! wrap (size_of x) (h + j).
Proof.
  intros [Hpos Hmax Hlen] Hh Hn Hd. set (L := size_of x) in *. unfold prvWriteBytesToBuffer.
  assert (EL : xLength x = Z.of_nat L) by (unfold L, size_of; lia). rewrite EL in *.
  rewrite (u32_small (Z.of_nat L - Z.of_nat h)) by (unfold u32_range; lia).
  set (first := Nat.min (L - h) n).
  replace (Z.min (Z.of_nat L - Z.of_nat h) (Z.of_nat n)) with (Z.of_nat first) by lia.
  destruct (copy_in_at (bytes x) h first data) as (st1 & E1 & L1 & P1); [lia|lia|]. rewrite E1. simpl.
  pose proof (advance L h n Hh Hn Hmax) as Hadv. cbn zeta in Hadv.
  destruct (Z.ltb_spec (Z.of_nat first) (Z.of_nat n)) as [Hlt|Hge].
  - destruct (copy_in_at st1 0 (n - first) (drop first data)) as (st2 & E2 & L2 & P2);
      [lia|rewrite length_drop; lia|].
    rewrite Nat2Z.id, <- Nat2Z.inj_sub by lia. change 0 with (Z.of_nat 0). rewrite E2. simpl. rewrite Hadv.
    exists st2. split; [done|]. split; [lia|]. intros j Hj. rewrite P2, P1.
    destruct (wrap_cases L h j Hh ltac:(lia)) as [[Hw ->]|[Hw ->]].
    + rewrite decide_False by lia. destruct (decide (j < n)%nat).
      * rewrite decide_True by lia. f_equal. lia.
      * rewrite decide_False by lia. done.
    + destruct (decide (j < n)%nat).
      * rewrite decide_True by lia. rewrite lookup_drop. f_equal. lia.
      * rewrite !decide_False by lia. done.
  - simpl. rewrite Hadv. exists st1. split; [done|]. split; [lia|]. intros j Hj. rewrite P1.
    destruct (wrap_cases L h j Hh ltac:(lia)) as [[Hw ->]|[Hw ->]]; repeat case_decide; try lia; f_equal; lia.
Qed.

Lemma read_bytes x t n : sized x -> (t < size_of x)%nat -> (n <= size_of x)%nat ->
  exists bs, prvReadBytesFromBuffer x (Z.of_nat n) (Z.of_nat t) =
      Some (bs, Z.of_nat (wrap (size_of x) (t + n))) /\
    length bs = n /\ forall j, (j < n)%nat -> bs !! j = bytes x !! wrap (size_of x) (t + j).
Proof.
  intros [Hpos Hmax Hlen] Hh Hn. set (L := size_of x) in *. unfold prvReadBytesFromBuffer.
  assert (EL : xLength x = Z.of_nat L) by (unfold L, size_of; lia). rewrite EL in *.
  rewrite (u32_small (Z.of_nat L - Z.of_nat t)) by (unfold u32_range; lia).
  set (first := Nat.min (L - t) n).
  replace (Z.min (Z.of_nat L - Z.of_nat t) (Z.of_nat n)) with (Z.of_nat first) by lia.
  destruct (copy_out_at (bytes x) t first) as (b1 & E1 & L1 & P1); [lia|]. rewrite E1. simpl.
  pose proof (advance L t n Hh Hn Hmax) as Hadv. cbn zeta in Hadv.
  destruct (Z.ltb_spec (Z.of_nat first) (Z.of_nat n)) as [Hlt|Hge].
  - destruct (copy_out_at (bytes x) 0 (n - first)) as (b2 & E2 & L2 & P2); [lia|].
    rewrite <- Nat2Z.inj_sub by lia. change 0 with (Z.of_nat 0). rewrite E2. simpl. rewrite Hadv.
    exists (b1 ++ b2). split; [done|]. rewrite length_app. split; [lia|]. intros j Hj.
    destruct (wrap_cases L t j Hh ltac:(lia)) as [[Hw ->]|[Hw ->]].
    + rewrite lookup_app_l by lia. apply P1. lia.
    + rewrite lookup_app_r by lia. rewrite P2 by lia. f_equal. lia.
  - simpl. rewrite Hadv, app_nil_r. exists b1. split; [done|]. split; [lia|]. intros j Hj.
    rewrite P1 by lia. f_equal. destruct (wrap_cases L t j Hh ltac:(lia)) as [[Hw ->]|[Hw ->]]; lia.
Qed.

(** The bytes [xs] lie in [bs] from position [t] on. *)
Definition lies bs (L t : nat) xs : Prop := forall j b, xs !! j = Some b -> bs !! wrap L (t + j) = Some b.

Lemma lies_app bs L t xs ys : (0 < L)%nat ->
  lies bs L t (xs ++ ys) <-> lies bs L t xs /\ lies bs L (wrap L (t + length xs)) ys.
Proof.
  intros HL. split.
  - intros Hl. split; intros j b Hj.
    + apply Hl. apply lookup_app_l_Some. done.
    + rewrite wrap_add by done. rewrite <- Nat.add_assoc. apply Hl. rewrite lookup_app_r by lia. rewrite <- Hj. f_equal. lia.
  - intros [H1 H2] j b [Hj|[Hle Hj]]%lookup_app_Some; [by apply H1|]. apply H2 in Hj.
    rewrite wrap_add in Hj by done. by replace (t + length xs + (j - length xs))%nat with (t + j)%nat in Hj by lia.
Qed.

(** Writing behind [xs] keeps [xs] if there is room. *)
Lemma write_keeps L bs bs' t xs n data : (t < L)%nat -> (length xs + n <= L)%nat -> (n <= length data)%nat ->
  lies bs L t xs ->
  (forall j, (j < L)%nat -> bs' !! wrap L (wrap L (t + length xs) + j) =
      if decide (j < n)%nat then data !! j else bs !! wrap L (wrap L (t + length xs) + j)) ->
  lies bs' L t (xs ++ take n data).
Proof.
  intros Ht Hroom Hd Hl Hw. apply lies_app; [lia|]. split.
  - intros j b Hj. apply lookup_lt_Some in Hj as Hlt. destruct (decide (n = L)) as [->|Hne].
    { lia. }
    specialize (Hw (L - length xs + j)%nat). rewrite wrap_add in Hw by lia.
    replace (t + length xs + (L - length xs + j))%nat with (t + j + 1 * L)%nat in Hw by lia.
    assert (E : wrap L (t + j + 1 * L) = wrap L (t + j)) by apply Nat.Div0.mod_add.
    rewrite E in Hw. rewrite Hw by lia. rewrite decide_False by lia. by apply Hl.
  - intros j b [Hj Hlt]%lookup_take_Some. rewrite Hw by lia. by rewrite decide_True.
Qed.

(** ** The representation *)

Record stream x xs : Prop := mkStream {
  sm_sized : sized x;
  sm_tail : 0 <= xTail x < xLength x;
  sm_head : xHead x = Z.of_nat (wrap (size_of x) (Z.to_nat (xTail x) + length xs));
  sm_room : (length xs < size_of x)%nat;
  sm_bytes : lies (bytes x) (size_of x) (Z.to_nat (xTail x)) xs
}.

Lemma bytes_in_buffer x xs : stream x xs -> prvBytesInBuffer x = Z.of_nat (length xs).
Proof.
  intros [[Hpos Hmax _] Ht Hh Hr _]. unfold prvBytesInBuffer. rewrite Hh. unfold size_of in *.
  destruct (wrap_cases (Z.to_nat (xLength x)) (Z.to_nat (xTail x)) (length xs)) as [[H1 ->]|[H1 ->]]; [lia|lia| |].
  - unfold u32. rewrite Zminus_mod_idemp_l.
    replace (xLength x + Z.of_nat (Z.to_nat (xTail x) + length xs) - xTail x) with (xLength x + Z.of_nat (length xs)) by lia.
    rewrite (Z.mod_small (xLength x + _)) by (unfold u32_modulus in *; lia).
    rewrite (proj2 (Z.leb_le _ _)) by lia. rewrite Z.mod_small by (unfold u32_modulus in *; lia). lia.
  - unfold u32. rewrite Zminus_mod_idemp_l.
    replace (xLength x + Z.of_nat (Z.to_nat (xTail x) + length xs - Z.to_nat (xLength x)) - xTail x)
      with (Z.of_nat (length xs)) by lia.
    rewrite Z.mod_small by (unfold u32_modulus in *; lia). rewrite (proj2 (Z.leb_gt _ _)) by lia. done.
Qed.

Lemma spaces_in_buffer x xs : stream x xs -> spaces_available x = xLength x - 1 - Z.of_nat (length xs).
Proof.
  intros [[Hpos Hmax _] Ht Hh Hr _]. unfold spaces_available. rewrite Hh. unfold size_of in *.
  rewrite (u32_small (xLength x + xTail x)) by (unfold u32_range; lia).
  destruct (wrap_cases (Z.to_nat (xLength x)) (Z.to_nat (xTail x)) (length xs)) as [[H1 ->]|[H1 ->]]; [lia|lia| |].
  - unfold u32. rewrite !Zminus_mod_idemp_l.
    replace (xLength x + xTail x - Z.of_nat (Z.to_nat (xTail x) + length xs) - 1) with (xLength x - 1 - Z.of_nat (length xs)) by lia.
    rewrite (Z.mod_small (xLength x - 1 - Z.of_nat (length xs))) by (unfold u32_modulus in *; lia).
    rewrite (proj2 (Z.leb_gt _ _)) by lia. done.
  - unfold u32. rewrite !Zminus_mod_idemp_l.
    replace (xLength x + xTail x - Z.of_nat (Z.to_nat (xTail x) + length xs - Z.to_nat (xLength x)) - 1)
      with (xLength x + (xLength x - 1 - Z.of_nat (length xs))) by lia.
    rewrite (Z.mod_small (xLength x + _)) by (unfold u32_modulus in *; lia).
    rewrite (proj2 (Z.leb_le _ _)) by lia. rewrite Z.mod_small by (unfold u32_modulus in *; lia). lia.
Qed.

(** A new or reset buffer is empty. *)
Lemma fresh_stream p contents len trigger flags : 0 < len -> 2 * len <= u32_modulus -> Z.of_nat (length contents) = len ->
  stream (prvInitialiseNewStreamBuffer p contents len trigger flags) [].
Proof.
  intros Hpos Hmax Hlen. split; simpl; [|lia| | |by intros j b].
  - split; unfold size_of; simpl; lia.
  - unfold wrap, size_of. simpl. rewrite Nat.mod_small by lia. done.
  - unfold size_of. simpl. lia.
Qed.

(** ** The operations *)

(** Everything but the two positions and the bytes. *)
Definition same_stream x x' : Prop :=
  xLength x' = xLength x /\ xTriggerLevelBytes x' = xTriggerLevelBytes x /\
  xTaskWaitingToReceive x' = xTaskWaitingToReceive x /\ xTaskWaitingToSend x' = xTaskWaitingToSend x /\
  pucBuffer x' = pucBuffer x /\ ucFlags x' = ucFlags x /\ uxStreamBufferNumber x' = uxStreamBufferNumber x.

Lemma same_stream_refl x : same_stream x x.
Proof. done. Qed.

Lemma same_stream_trans x y z : same_stream x y -> same_stream y z -> same_stream x z.
Proof. unfold same_stream. intuition congruence. Qed.

Lemma write_stream x xs data n : stream x xs -> (length xs + n < size_of x)%nat -> (n <= length data)%nat ->
  exists bs (h : Z), prvWriteBytesToBuffer x data (Z.of_nat n) (xHead x) = Some (set_bytes bs x, h) /\
    stream (set_xHead h (set_bytes bs x)) (xs ++ take n data) /\ stream (set_bytes bs x) xs.
Proof.
  intros [Hsz Ht Hh Hr Hl] Hn Hd. pose proof Hsz as [Hpos Hmax Hlen].
  assert (Htl : (Z.to_nat (xTail x) < size_of x)%nat) by (unfold size_of; lia).
  destruct (write_bytes x data (wrap (size_of x) (Z.to_nat (xTail x) + length xs)) n) as (bs & E & Lb & P);
    [done|apply wrap_lt; lia|lia|done|].
  rewrite Hh, E. exists bs, (Z.of_nat (wrap (size_of x) (wrap (size_of x) (Z.to_nat (xTail x) + length xs) + n))).
  assert (Hl' : lies bs (size_of x) (Z.to_nat (xTail x)) (xs ++ take n data)) by (eapply write_keeps; eauto; lia).
  split; [done|]. split; split; simpl; try done.
  - rewrite wrap_add by lia. rewrite length_app, length_take, Nat.min_l by lia. by rewrite Nat.add_assoc.
  - unfold size_of in *. simpl. rewrite length_app, length_take. lia.
  - by apply lies_app in Hl' as [? _]; [|lia].
Qed.

Lemma read_stream x xs n : stream x xs -> (n <= length xs)%nat ->
  exists t : Z, prvReadBytesFromBuffer x (Z.of_nat n) (xTail x) = Some (take n xs, t) /\
    stream (set_xTail t x) (drop n xs).
Proof.
  intros [Hsz Ht Hh Hr Hl] Hn. pose proof Hsz as [Hpos Hmax Hlen].
  assert (Htl : (Z.to_nat (xTail x) < size_of x)%nat) by (unfold size_of; lia).
  destruct (read_bytes x (Z.to_nat (xTail x)) n) as (bs & E & Lb & P); [done|done|lia|].
  rewrite Z2Nat.id in E by lia. exists (Z.of_nat (wrap (size_of x) (Z.to_nat (xTail x) + n))). split.
  - rewrite E. do 2 f_equal. apply list_eq. intros j. destruct (decide (j < n)%nat) as [Hj|Hj].
    + rewrite P by done. rewrite lookup_take_lt by done.
      destruct (lookup_lt_is_Some_2 xs j) as [b Hb]; [lia|]. rewrite Hb. by apply Hl.
    + rewrite !lookup_ge_None_2; [done|rewrite length_take; lia|lia].
  - pose proof (wrap_lt (size_of x) (Z.to_nat (xTail x) + n) ltac:(lia)) as Hw.
    rewrite <- (take_drop n xs) in Hl. apply lies_app in Hl as [_ Hl]; [|lia].
    rewrite length_take, Nat.min_l in Hl by lia.
    split; simpl; try done; unfold size_of in *; simpl; rewrite ?Nat2Z.id; [lia| | |done].
    + rewrite Hh. rewrite wrap_add by lia. rewrite length_drop. do 2 f_equal. lia.
    + rewrite length_drop. lia.
Qed.

(** A stream buffer takes as much as there is room for. *)
Lemma write_stream_message x xs data : stream x xs -> is_message_buffer x = false ->
  let n := Z.min (Z.of_nat (length data)) (xLength x - 1 - Z.of_nat (length xs)) in
  exists x', prvWriteMessageToBuffer x data (Z.of_nat (length data)) (spaces_available x) (Z.of_nat (length data)) = Some (x', n) /\
    same_stream x x' /\ stream x' (xs ++ take (Z.to_nat n) data).
Proof.
  intros Hs Hm n. pose proof Hs as [[Hpos _ _] _ _ Hr _]. unfold prvWriteMessageToBuffer. rewrite Hm.
  rewrite (spaces_in_buffer _ _ Hs). simpl. fold n. unfold size_of in Hr.
  destruct (Z.eqb_spec n 0) as [E|Hne]; simpl.
  - exists x. rewrite E. simpl. by rewrite app_nil_r.
  - destruct (write_stream x xs data (Z.to_nat n)) as (bs & h & E & H1 & _); [done|unfold size_of; lia|lia|].
    rewrite Z2Nat.id in E by lia. rewrite E. simpl. eexists. split; [done|]. by split.
Qed.

Lemma read_stream_message x xs (room : Z) : stream x xs -> is_message_buffer x = false -> 0 <= room ->
  exists x', prvReadMessageFromBuffer x room (prvBytesInBuffer x) = Some (take (Z.to_nat room) xs, x') /\
    same_stream x x' /\ stream x' (drop (Z.to_nat room) xs).
Proof.
  intros Hs Hm Hroom. unfold prvReadMessageFromBuffer. rewrite Hm, (bytes_in_buffer _ _ Hs). simpl.
  set (n := Z.min room (Z.of_nat (length xs))).
  assert (Etake : take (Z.to_nat room) xs = take (Z.to_nat n) xs /\ drop (Z.to_nat room) xs = drop (Z.to_nat n) xs).
  { destruct (Z.le_gt_cases room (Z.of_nat (length xs))); [by replace n with room by lia|].
    replace (Z.to_nat n) with (length xs) by lia. rewrite !take_ge, !drop_ge by lia. done. }
  destruct Etake as [-> ->]. destruct (Z.eqb_spec n 0) as [E|Hne]; simpl.
  - rewrite E. simpl. exists x. done.
  - destruct (read_stream x xs (Z.to_nat n)) as (t & E & H1); [done|lia|].
    rewrite Z2Nat.id in E by lia. rewrite E. simpl. eexists. split; [done|]. by split.
Qed.

(** ** Messages *)

Definition frame (m : list Z) : list Z := le_split 4 (Z.of_nat (length m)) ++ m.
Definition frames (ms : list (list Z)) : list Z := concat (frame <$> ms).

Lemma length_frame m : length (frame m) = (4 + length m)%nat.
Proof. unfold frame. by rewrite length_app, length_le_split. Qed.

Lemma frames_snoc ms m : frames (ms ++ [m]) = frames ms ++ frame m.
Proof. unfold frames. rewrite fmap_app, concat_app. simpl. by rewrite app_nil_r. Qed.

Record messages x (ms : list (list Z)) : Prop := mkMessages {
  mg_stream : stream x (frames ms);
  mg_flag : is_message_buffer x = true;
  mg_nonempty : Forall (fun m => m <> []) ms
}.

Lemma write_ignores_head x data (n p h : Z) :
  prvWriteBytesToBuffer (set_xHead h x) data n p =
  '(y, q) ← prvWriteBytesToBuffer x data n p; Some (set_xHead h y, q).
Proof.
  unfold prvWriteBytesToBuffer. simpl. destruct (copy_in (bytes x) p _ data) as [b1|]; simpl; [|done].
  by destruct (if _ <? n then _ else _).
Qed.

(** A message is written whole, behind its length, or not at all. *)
Lemma write_message x ms m : messages x ms -> Z.of_nat (length m) + 4 < u32_modulus -> m <> [] ->
  exists x' r, prvWriteMessageToBuffer x m (Z.of_nat (length m)) (spaces_available x)
      (Z.of_nat (length m) +u sbBYTES_TO_STORE_MESSAGE_LENGTH) = Some (x', r) /\ same_stream x x' /\
    if Z.of_nat (length m) + 4 <=? xLength x - 1 - Z.of_nat (length (frames ms))
    then r = Z.of_nat (length m) /\ messages x' (ms ++ [m]) else r = 0 /\ x' = x.
Proof.
  intros [Hs Hf Hne] Hlen Hm. unfold prvWriteMessageToBuffer, sbBYTES_TO_STORE_MESSAGE_LENGTH.
  rewrite Hf, (spaces_in_buffer _ _ Hs), u32_small by (unfold u32_range; lia).
  destruct (Z.leb_spec (Z.of_nat (length m) + 4) (xLength x - 1 - Z.of_nat (length (frames ms)))) as [Hle|Hgt].
  - pose proof (sm_room _ _ Hs) as Hr.
    destruct (write_stream x (frames ms) (le_split 4 (Z.of_nat (length m))) 4) as (b1 & h1 & E1 & S1 & _);
      [done|unfold size_of in *; lia|by rewrite length_le_split|].
    change (Z.of_nat 4) with 4 in E1. rewrite E1. cbn [mbind option_bind].
    assert (length m <> 0%nat) by (by destruct m). rewrite (proj2 (Z.eqb_neq _ _)) by lia. cbn [negb].
    destruct (write_stream _ _ m (length m) S1) as (b2 & h2 & E2 & S2 & _).
    { rewrite length_app, length_take, length_le_split. unfold size_of in *. simpl. lia. }
    { done. }
    rewrite write_ignores_head in E2. cbn [xHead set_xHead] in E2.
    destruct (prvWriteBytesToBuffer (set_bytes b1 x) m (Z.of_nat (length m)) h1) as [[y q]|]; [|done].
    cbn [mbind option_bind] in E2. apply (inj Some), pair_eq in E2 as [Ey ->]. cbn [mbind option_bind]. exists (set_xHead h2 y), (Z.of_nat (length m)). split; [done|].
    assert (Ey' : set_xHead h2 y = set_xHead h2 (set_bytes b2 (set_xHead h1 (set_bytes b1 x)))).
    { rewrite <- Ey. by destruct y. }
    rewrite Ey'. split; [done|]. split; [done|]. split; [|done|].
    + rewrite frames_snoc. unfold frame. rewrite take_ge, (take_ge m) in S2 by (rewrite ?length_le_split; lia).
      by rewrite app_assoc.
    + apply Forall_app. split; [done|]. by constructor.
  - simpl. exists x, 0. done.
Qed.

(** The next message is read whole, if the reader has room for it. *)
Lemma read_message x m ms (room : Z) : messages x (m :: ms) ->
  exists bs x', prvReadMessageFromBuffer x room (prvBytesInBuffer x) = Some (bs, x') /\ same_stream x x' /\
    if Z.of_nat (length m) <=? room then bs = m /\ messages x' ms else bs = [] /\ x' = x.
Proof.
  intros [Hs Hf Hne]. unfold prvReadMessageFromBuffer, sbBYTES_TO_STORE_MESSAGE_LENGTH. rewrite Hf, (bytes_in_buffer _ _ Hs).
  pose proof Hs as [[Hpos Hmax _] _ _ Hr _]. unfold size_of in Hr.
  assert (Elen : length (frames (m :: ms)) = (4 + length m + length (frames ms))%nat).
  { unfold frames. rewrite fmap_cons, concat_cons, length_app, length_frame. done. }
  destruct (read_stream x (frames (m :: ms)) 4 Hs) as (t & E & S1); [lia|].
  change (Z.of_nat 4) with 4 in E. rewrite E. cbn [mbind option_bind].
  assert (Ehd : take 4 (frames (m :: ms)) = le_split 4 (Z.of_nat (length m)) /\
                drop 4 (frames (m :: ms)) = m ++ frames ms).
  { unfold frames, frame. rewrite fmap_cons, concat_cons, <- app_assoc.
    by rewrite take_app_length', drop_app_length' by (by rewrite length_le_split). }
  destruct Ehd as [Eh Ed]. rewrite Eh, le_word, u32_small by (unfold u32_range; lia). rewrite Ed in S1.
  rewrite u32_small by (unfold u32_range; lia).
  apply Forall_cons in Hne as [Hm Hms]. assert (length m <> 0%nat) by (by destruct m).
  destruct (Z.leb_spec (Z.of_nat (length m)) room) as [Hle|Hgt].
  - rewrite (proj2 (Z.ltb_ge _ _)) by lia. rewrite Z.min_l by lia. rewrite (proj2 (Z.eqb_neq _ _)) by lia. cbn [negb].
    destruct (read_stream _ _ (length m) S1) as (t' & E' & S2); [rewrite length_app; lia|].
    change (prvReadBytesFromBuffer (set_xTail t x)) with (prvReadBytesFromBuffer x) in E'. cbn [xTail set_xTail] in E'.
    rewrite E'. cbn [mbind option_bind]. rewrite take_app_length. rewrite drop_app_length in S2.
    exists m, (set_xTail t' x). split; [done|]. split; [done|]. split; [done|].
    by replace (set_xTail t' (set_xTail t x)) with (set_xTail t' x) in S2 by done.
  - rewrite (proj2 (Z.ltb_lt _ _)) by lia. rewrite Z.min_l by lia. simpl. exists [], x. done.
Qed.

End Ring.
