(* ===== verification/StreamTheorems.v ===== *)
(** * Stream and message buffers deliver what was sent, in order

    A stream buffer is a bounded queue of bytes and a message buffer a bounded
    queue of messages, for every sequence of sends and receives. *)

From S2P Require Import Prelude History Config ListC ListSpec Heap4 Kernel Tasks TaskApi TaskEvents Queue QueueData Bytes StreamBuffers StreamData KernelInv KernelSteps KernelDemo.

Section Streams.
Context {H : Type} `{!ListOps item list_id H}.
Notation K := (Kernel H).
Implicit Types (k : K) (x : StreamBuffer_t).

(** The kernel with the stream buffer at [b] replaced. *)
Definition with_stream (b : Z) x k : K :=
  mkKernel (k_lists k) (set_stream_buffers (<[b := x]> (stream_buffers (k_vars k))) (k_vars k)).

Lemma wp_rd_stream {A} b (f : StreamBuffer_t -> A) (Q : A -> K -> Prop) k x :
  stream_buffers (k_vars k) !! b = Some x -> Q (f x) k -> wp (rd_stream b f) Q k.
Proof.
  intros Hx HQ. apply wp_bind, wp_rdv. apply wp_bind. eapply wp_lift_opt; [exact Hx|]. by apply wp_ret.
Qed.

Lemma wp_wr_stream b g (Q : unit -> K -> Prop) k x :
  stream_buffers (k_vars k) !! b = Some x -> Q tt (with_stream b (g x) k) -> wp (wr_stream b g) Q k.
Proof.
  intros Hx HQ. apply wp_bind. eapply wp_rd_stream; [exact Hx|]. apply wp_wrv.
  replace (alter g b (stream_buffers (k_vars k))) with (<[b := g x]> (stream_buffers (k_vars k))); [done|].
  apply map_eq. intros j. rewrite lookup_alter, lookup_insert. case_decide; subst; [by rewrite Hx|done].
Qed.

Lemma wp_upd_stream {A} b (f : StreamBuffer_t -> option (A * StreamBuffer_t)) (Q : A -> K -> Prop) k x a y :
  stream_buffers (k_vars k) !! b = Some x -> f x = Some (a, y) -> Q a (with_stream b y k) -> wp (upd_stream b f) Q k.
Proof.
  intros Hx Hf HQ. apply wp_bind. eapply wp_rd_stream; [exact Hx|]. apply wp_bind. eapply wp_lift_opt; [exact Hf|].
  apply wp_bind. eapply wp_wr_stream; [exact Hx|]. by apply wp_ret.
Qed.

Lemma lookup_with_stream b x k : stream_buffers (k_vars (with_stream b x k)) !! b = Some x.
Proof. apply lookup_insert_eq. Qed.

Lemma with_stream_twice b x y k : with_stream b y (with_stream b x k) = with_stream b y k.
Proof. unfold with_stream. simpl. by rewrite insert_insert_eq. Qed.

Lemma with_stream_id b x k : stream_buffers (k_vars k) !! b = Some x -> with_stream b x k = k.
Proof. intros Hx. destruct k as [h v]. unfold with_stream. simpl in *. rewrite insert_id by done. by destruct v. Qed.

(** ** One call, with no task waiting on the other side *)

Lemma send_isr_wp b k x data n x' :
  stream_buffers (k_vars k) !! b = Some x -> xTaskWaitingToReceive x = NULL -> same_stream x x' ->
  prvWriteMessageToBuffer x data (Z.of_nat (length data)) (spaces_available x)
    (if is_message_buffer x then Z.of_nat (length data) +u sbBYTES_TO_STORE_MESSAGE_LENGTH else Z.of_nat (length data))
    = Some (x', n) ->
  wp (xStreamBufferSendFromISR b data (Z.of_nat (length data))) (fun r k' => r = (n, false) /\ k' = with_stream b x' k) k.
Proof.
  intros Hx Hw Hsame E. unfold xStreamBufferSendFromISR, xStreamBufferSpacesAvailable.
  wstep. eapply wp_rd_stream; [exact Hx|]. wstep. eapply wp_rd_stream; [exact Hx|].
  wstep. eapply wp_upd_stream; [exact Hx|by rewrite E|].
  wstep. eapply wp_rd_stream; [apply lookup_with_stream|].
  destruct (_ && _); [|by wstep]. wstep. unfold sbSEND_COMPLETE_FROM_ISR.
  wstep. eapply wp_rd_stream; [apply lookup_with_stream|].
  assert (xTaskWaitingToReceive x' = NULL) as -> by (destruct Hsame as (_ & _ & -> & _); done). simpl. by wsteps.
Qed.

Lemma receive_isr_wp b k x room bs x' :
  stream_buffers (k_vars k) !! b = Some x -> xTaskWaitingToSend x = NULL -> same_stream x x' ->
  (if length_bytes x <? prvBytesInBuffer x
   then prvReadMessageFromBuffer x room (prvBytesInBuffer x) = Some (bs, x') else bs = [] /\ x' = x) ->
  wp (xStreamBufferReceiveFromISR b room) (fun r k' => r = (bs, false) /\ k' = with_stream b x' k) k.
Proof.
  intros Hx Hw Hsame E. unfold xStreamBufferReceiveFromISR, xStreamBufferBytesAvailable.
  wstep. eapply wp_rd_stream; [exact Hx|]. wstep. eapply wp_rd_stream; [exact Hx|].
  destruct (_ <? _).
  - wstep. eapply wp_upd_stream; [exact Hx|exact E|]. destruct (negb _); [|by wstep].
    wstep. unfold sbRECEIVE_COMPLETED_FROM_ISR. wstep. eapply wp_rd_stream; [apply lookup_with_stream|].
    assert (xTaskWaitingToSend x' = NULL) as -> by (destruct Hsame as (_ & _ & _ & -> & _); done). simpl. by wsteps.
  - destruct E as [-> ->]. wstep. by rewrite with_stream_id.
Qed.

(** ** Histories *)

Inductive sb_op := SbSend (data : list Z) | SbReceive (room : Z).

(** A call from an interrupt: what it returns and the bytes it hands out. *)
Definition sb_call (b : Z) (op : sb_op) : M K (Z * list Z) :=
  match op with
  | SbSend data => '(n, _) ← xStreamBufferSendFromISR b data (Z.of_nat (length data)); mret (n, [])
  | SbReceive room => '(bs, _) ← xStreamBufferReceiveFromISR b room; mret (Z.of_nat (length bs), bs)
  end.

Definition sb_op_ok (op : sb_op) : Prop :=
  match op with
  | SbSend data => 0 < Z.of_nat (length data) < u32_modulus - 4
  | SbReceive room => 0 <= room < u32_modulus
  end.

(** A queue of at most [cap] bytes: a send takes as many bytes as there is
    room for, a receive hands out as many as are asked for. *)
Definition byte_fifo (cap : Z) (xs : list Z) (op : sb_op) : list Z * (Z * list Z) :=
  match op with
  | SbSend data =>
      let n := Z.min (Z.of_nat (length data)) (cap - Z.of_nat (length xs)) in
      (xs ++ take (Z.to_nat n) data, (n, []))
  | SbReceive room =>
      (drop (Z.to_nat room) xs, (Z.of_nat (length (take (Z.to_nat room) xs)), take (Z.to_nat room) xs))
  end.

(** A queue of messages, each of which takes four bytes more than its length:
    a send is all or nothing, a receive hands out the oldest message if there
    is room for it. *)
Definition message_fifo (cap : Z) (ms : list (list Z)) (op : sb_op) : list (list Z) * (Z * list Z) :=
  match op with
  | SbSend m =>
      if Z.of_nat (length m) + 4 <=? cap - Z.of_nat (length (frames ms))
      then (ms ++ [m], (Z.of_nat (length m), [])) else (ms, (0, []))
  | SbReceive room =>
      match ms with
      | m :: ms' => if Z.of_nat (length m) <=? room then (ms', (Z.of_nat (length m), m)) else (ms, (0, []))
      | [] => (ms, (0, []))
      end
  end.

(** Only the stream buffer at [b] differs from [k0]; it is one of capacity
    [cap] with nobody waiting, and [rep] says what it holds. *)
Definition holds {S} (rep : StreamBuffer_t -> S -> Prop) (b cap : Z) (k0 k : K) (s : S) : Prop :=
  exists x, k = with_stream b x k0 /\ rep x s /\ xLength x = cap + 1 /\
    xTaskWaitingToReceive x = NULL /\ xTaskWaitingToSend x = NULL.

Definition bytes_held x (xs : list Z) : Prop := stream x xs /\ is_message_buffer x = false.

Lemma is_message_same x x' : same_stream x x' -> is_message_buffer x' = is_message_buffer x.
Proof. unfold is_message_buffer. by intros (_ & _ & _ & _ & _ & -> & _). Qed.

Lemma byte_fifo_step b cap k0 k xs op : holds bytes_held b cap k0 k xs -> sb_op_ok op ->
  wp (sb_call b op) (fun r k' => r = (byte_fifo cap xs op).2 /\ holds bytes_held b cap k0 k' (byte_fifo cap xs op).1) k.
Proof.
  intros (x & -> & [Hs Hm] & Hcap & Hwr & Hws) Hop. destruct op as [data|room]; simpl.
  - destruct (write_stream_message x xs data Hs Hm) as (x' & E & Hsame & Hs').
    wstep. eapply wp_mono; [eapply (send_isr_wp b _ x); [apply lookup_with_stream|done|exact Hsame|rewrite Hm; exact E]|].
    intros r k' [-> ->]. wstep. replace (xLength x - 1) with cap in * by lia. split; [done|].
    rewrite with_stream_twice. exists x'. pose proof (is_message_same _ _ Hsame). unfold same_stream, bytes_held in *. intuition congruence.
  - destruct (read_stream_message x xs room Hs Hm) as (x' & E & Hsame & Hs'); [apply Hop|].
    assert (Hgo : exists y, wp (xStreamBufferReceiveFromISR b room)
      (fun r k' => r = (take (Z.to_nat room) xs, false) /\ k' = with_stream b y (with_stream b x k0)) (with_stream b x k0) /\
      same_stream x y /\ stream y (drop (Z.to_nat room) xs)).
    { destruct (Z.ltb_spec (length_bytes x) (prvBytesInBuffer x)) as [Hlt|Hge].
      - exists x'. split; [|done]. eapply receive_isr_wp; [apply lookup_with_stream|done|exact Hsame|].
        by rewrite (proj2 (Z.ltb_lt _ _)).
      - assert (xs = []) as ->.
        { unfold length_bytes in Hge. rewrite Hm, (bytes_in_buffer _ _ Hs) in Hge. destruct xs; [done|simpl in *; lia]. }
        exists x. rewrite take_nil, drop_nil in *. split; [|done].
        eapply receive_isr_wp; [apply lookup_with_stream|done|apply same_stream_refl|].
        by rewrite (proj2 (Z.ltb_ge _ _)). }
    destruct Hgo as (y & Hwp & Hsy & Hy). wstep. eapply wp_mono; [exact Hwp|]. intros r k' [-> ->]. wstep.
    split; [done|]. rewrite with_stream_twice. exists y.
    pose proof (is_message_same _ _ Hsy). unfold same_stream, bytes_held in *. intuition congruence.
Qed.

Lemma message_fifo_step b cap k0 k ms op : holds messages b cap k0 k ms -> sb_op_ok op ->
  wp (sb_call b op) (fun r k' => r = (message_fifo cap ms op).2 /\ holds messages b cap k0 k' (message_fifo cap ms op).1) k.
Proof.
  intros (x & -> & Hms & Hcap & Hwr & Hws) Hop. pose proof (mg_flag _ _ Hms) as Hm. pose proof (mg_stream _ _ Hms) as Hs.
  destruct op as [m|room]; simpl in Hop |- *.
  - destruct (write_message x ms m Hms) as (x' & r & E & Hsame & Hres); [lia|intros ->; simpl in Hop; lia|].
    wstep. eapply wp_mono; [eapply (send_isr_wp b _ x); [apply lookup_with_stream|done|exact Hsame|rewrite Hm; exact E]|].
    intros r' k' [-> ->]. wstep. replace (xLength x - 1) with cap in * by lia.
    rewrite with_stream_twice. unfold same_stream in Hsame.
    destruct (_ <=? _); simpl; destruct Hres as [-> Hx']; (split; [done|]); exists x'; subst; intuition congruence.
  - destruct ms as [|m ms].
    + wstep. eapply wp_mono; [eapply (receive_isr_wp b _ x room []); [apply lookup_with_stream|done|apply same_stream_refl|]|].
      { rewrite (bytes_in_buffer _ _ Hs). unfold length_bytes. rewrite Hm. done. }
      intros r k' [-> ->]. wstep. split; [done|]. rewrite with_stream_twice. exists x. done.
    + destruct (read_message x m ms room Hms) as (bs & x' & E & Hsame & Hres).
      wstep. eapply wp_mono; [eapply (receive_isr_wp b _ x room bs); [apply lookup_with_stream|done|exact Hsame|]|].
      { rewrite (proj2 (Z.ltb_lt _ _)); [exact E|]. rewrite (bytes_in_buffer _ _ Hs). unfold length_bytes, frames.
        rewrite Hm, fmap_cons, concat_cons, length_app, length_frame. pose proof (mg_nonempty _ _ Hms) as Hne.
        apply Forall_cons in Hne as [Hne _]. unfold sbBYTES_TO_STORE_MESSAGE_LENGTH. destruct m; [done|simpl; lia]. }
      intros r k' [-> ->]. wstep. rewrite with_stream_twice. unfold same_stream in Hsame.
      destruct (_ <=? _); simpl; destruct Hres as [-> Hx']; (split; [done|]); exists x'; subst; intuition congruence.
Qed.

(** C25: every sequence of sends and receives on a stream buffer, in any order
    and of any sizes, behaves as a bounded first-in first-out queue of bytes:
    each send takes as many bytes as there is room for and returns their
    number, each receive hands out the oldest bytes, up to what is asked for,
    and nothing else in the kernel changes, around the end of the ring and
    when it is empty or full alike. *)
Theorem stream_buffer_is_byte_fifo b x xs cap k ops :
  stream_buffers (k_vars k) !! b = Some x -> stream x xs -> is_message_buffer x = false -> xLength x = cap + 1 ->
  xTaskWaitingToReceive x = NULL -> xTaskWaitingToSend x = NULL -> Forall sb_op_ok ops ->
  wp (calls (sb_call b) ops) (fun rs k' => rs = (spec_calls (byte_fifo cap) xs ops).2 /\
    exists x', k' = with_stream b x' k /\ stream x' (spec_calls (byte_fifo cap) xs ops).1) k.
Proof.
  intros Hx Hs Hm Hcap Hwr Hws Hops.
  eapply wp_mono; [apply (calls_refine _ (byte_fifo cap) (holds bytes_held b cap k) sb_op_ok); [|exists x|done]|].
  - intros k1 xs1 op. apply byte_fifo_step.
  - rewrite with_stream_id by done. unfold bytes_held. done.
  - intros rs k' [-> (x' & -> & [Hx' _] & _)]. split; [done|]. by exists x'.
Qed.

(** C26: every sequence of sends and receives on a message buffer behaves as a
    bounded first-in first-out queue of messages: a message is stored whole,
    with four bytes for its length, or not at all; a receive hands out the
    oldest message exactly as it was sent, or nothing when the reader's buffer
    is too small for it, in which case the message stays. *)
Theorem message_buffer_is_message_fifo b x ms cap k ops :
  stream_buffers (k_vars k) !! b = Some x -> messages x ms -> xLength x = cap + 1 ->
  xTaskWaitingToReceive x = NULL -> xTaskWaitingToSend x = NULL -> Forall sb_op_ok ops ->
  wp (calls (sb_call b) ops) (fun rs k' => rs = (spec_calls (message_fifo cap) ms ops).2 /\
    exists x', k' = with_stream b x' k /\ messages x' (spec_calls (message_fifo cap) ms ops).1) k.
Proof.
  intros Hx Hms Hcap Hwr Hws Hops.
  eapply wp_mono; [apply (calls_refine _ (message_fifo cap) (holds messages b cap k) sb_op_ok); [|exists x|done]|].
  - intros k1 ms1 op. apply message_fifo_step.
  - rewrite with_stream_id by done. done.
  - intros rs k' [-> (x' & -> & Hx' & _)]. split; [done|]. by exists x'.
Qed.

End Streams.

(** ** Concrete histories *)

(** Buffers for ten bytes, at address 4900. *)
Definition demo_buffer (flags : Z) : StreamBuffer_t :=
  prvInitialiseNewStreamBuffer 4936 (replicate 11 0) 11 1 flags.
Definition demo_stream (flags : Z) : KA :=
  with_stream 4900 (demo_buffer flags) (mkKernel (mkAheap ∅ ∅) vars0).

Lemma demo_empty flags : stream (demo_buffer flags) [].
Proof. by apply fresh_stream. Qed.

(** The third send goes around the end of the ring and finds room for eight of
    its nine bytes. *)
Lemma stream_buffer_is_byte_fifo_witness :
  wp (calls (sb_call 4900) [SbSend [1; 2; 3]; SbReceive 1; SbSend [4; 5; 6; 7; 8; 9; 10; 11; 12]; SbReceive 20])
    (fun rs _ => rs = [(3, []); (1, [1]); (8, []); (10, [2; 3; 4; 5; 6; 7; 8; 9; 10; 11])]) (demo_stream 0).
Proof.
  eapply wp_mono; [apply (stream_buffer_is_byte_fifo 4900 (demo_buffer 0) [] 10)|].
  - apply lookup_with_stream.
  - apply demo_empty.
  - reflexivity.
  - reflexivity.
  - reflexivity.
  - reflexivity.
  - repeat constructor; simpl; unfold u32_modulus; lia.
  - intros rs k' [-> _]. reflexivity.
Defined.

(** The second message does not fit behind the first; the first receive has
    too little room. *)
Lemma message_buffer_is_message_fifo_witness :
  wp (calls (sb_call 4900) [SbSend [1; 2; 3]; SbSend [4]; SbReceive 2; SbReceive 3; SbReceive 3; SbSend [4]])
    (fun rs _ => rs = [(3, []); (0, []); (0, []); (3, [1; 2; 3]); (0, []); (1, [])]) (demo_stream 1).
Proof.
  eapply wp_mono; [apply (message_buffer_is_message_fifo 4900 (demo_buffer 1) [] 10)|].
  - apply lookup_with_stream.
  - split; [apply demo_empty|reflexivity|constructor].
  - reflexivity.
  - reflexivity.
  - reflexivity.
  - repeat constructor; simpl; unfold u32_modulus; lia.
  - intros rs k' [-> _]. reflexivity.
Defined.
