(* ===== verification/System.v ===== *)
(** * The system as a whole

    The tasks of an application share queues, semaphores and event groups,
    notify one another, delay themselves, change priorities, suspend and
    resume tasks and yield, and interrupts come: [step] is one such
    event, whatever task is running.  [system k] puts the invariants of the
    parts together; the lemmas here show that the calls about queues,
    priorities and event groups, and ticks, keep it. *)

From S2P Require Import Prelude Simulation History Config ListC ListSpec ListRefine ListObs ListProps Heap4 Kernel Tasks TaskApi TaskEvents Queue EventGroups KernelRefine DriversRefine KernelInv Frames KernelSteps SchedProps ResumeProps KernelDemo SchedTheorems SuspendProps PriorityProps PriorityTheorems EventProps QueueData QueueTheorems SemaphoreTheorems BlockProps WaitTheorems NotifyProps ControlProps EventGroupProps EventGroupTheorems.

(** ** Events *)

Inductive event :=
  | Tick
  | Yield
  | Delay (n : Z)
  | UseQueue (q : Z) (op : q_op)
  | UseSemaphore (q : Z) (op : sem_op)
  | SendRound (q : Z) (it : list Z) (pos : Z) (l : q_locals)
  | ReceiveRound (q : Z) (l : q_locals)
  | PeekRound (q : Z) (l : q_locals)
  | TakeRound (q : Z) (l : q_locals)
  | SetPriority (t p : Z)
  | SetBits (e bits : Z)
  | NotifyTake (n : Z)
  | NotifyTakeEnd (clear : Z)
  | NotifyWait (bits n : Z)
  | NotifyWaitEnd (bits : Z)
  | Notify (t value : Z) (act : eNotifyAction)
  | NotifyFromISR (t value : Z) (act : eNotifyAction)
  | NotifyGiveFromISR (t : Z)
  | NotifyStateClear (t : Z)
  | NotifyValueClear (t bits : Z)
  | Suspend (t : Z)
  | Resume (t : Z)
  | ResumeFromISR (t : Z)
  | AbortDelay (t : Z).

(** What happens.  The two halves of a wait for a notification are events of
    their own, so that anything can come in between; an interrupt handler
    ends with a switch if the call it made asks for one. *)
Definition perform {H} `{!ListOps item list_id H} (ev : event) : M (Kernel H) unit :=
  match ev with
  | Tick => timer_interrupt
  | Yield => portYIELD
  | Delay n => run (vTaskDelay n)
  | UseQueue q op => q_call q op;; mret tt
  | UseSemaphore q op => sem_call q op;; mret tt
  | SendRound q it pos l => run (xQueueGenericSend_iter q it pos l);; mret tt
  | ReceiveRound q l => run (xQueueReceive_iter q l);; mret tt
  | PeekRound q l => run (xQueuePeek_iter q l);; mret tt
  | TakeRound q l => run (xQueueSemaphoreTake_iter q l);; mret tt
  | SetPriority t p => vTaskPrioritySet t p
  | SetBits e bits => run (xEventGroupSetBits e bits);; mret tt
  | NotifyTake n => notify_take_wait n
  | NotifyTakeEnd clear => notify_take_finish clear;; mret tt
  | NotifyWait bits n => notify_wait_wait bits n
  | NotifyWaitEnd bits => notify_wait_finish bits;; mret tt
  | Notify t value act => xTaskGenericNotify t value act;; mret tt
  | NotifyFromISR t value act => r ← xTaskGenericNotifyFromISR t value act; portEND_SWITCHING_ISR r.2
  | NotifyGiveFromISR t => b ← vTaskGenericNotifyGiveFromISR t; portEND_SWITCHING_ISR b
  | NotifyStateClear t => xTaskGenericNotifyStateClear t;; mret tt
  | NotifyValueClear t bits => ulTaskGenericNotifyValueClear t bits;; mret tt
  | Suspend t => run (vTaskSuspend t)
  | Resume t => vTaskResume t
  | ResumeFromISR t => r ← xTaskResumeFromISR t; portEND_SWITCHING_ISR (negb (r =? pdFALSE))
  | AbortDelay t => run (xTaskAbortDelay t);; mret tt
  end.

(** A queue for items, and one that only counts. *)
Definition holds_items (v : Vars) (q : Z) (P : Queue_t -> Prop) : Prop :=
  exists x, queues v !! q = Some x /\ 0 < uxItemSize x /\ P x.
Definition counts (v : Vars) (q : Z) : Prop :=
  exists x, queues v !! q = Some x /\ uxItemSize x = 0 /\ uxQueueType x <> queueQUEUE_IS_MUTEX.

(** The running task is not in the middle of a wait for a notification. *)
Definition between_calls (v : Vars) : Prop := forall n, note_of v (pxCurrentTCB v) <> Some (n, taskWAITING_NOTIFICATION).

(** The running task may wait, with these locals. *)
Definition may_wait (v : Vars) (l : q_locals) : Prop :=
  pxCurrentTCB v <> xIdleTaskHandle v /\ u32_range (l_ticks l) /\ between_calls v.

(** What an application may ask for: the objects exist, and the idle task
    neither waits nor is suspended. *)
Definition allowed (v : Vars) (ev : event) : Prop :=
  match ev with
  | Tick | Yield => True
  | Delay n => u32_range n /\ pxCurrentTCB v <> xIdleTaskHandle v
  | UseQueue q op => holds_items v q (fun x => q_op_ok (uxLength x) (uxItemSize x) op)
  | UseSemaphore q _ => counts v q
  | SendRound q it pos l => holds_items v q (fun x => q_op_ok (uxLength x) (uxItemSize x) (QSend it pos)) /\ may_wait v l
  | ReceiveRound q l | PeekRound q l => holds_items v q (fun _ => True) /\ may_wait v l
  | TakeRound q l => counts v q /\ may_wait v l /\ l_inherited l = pdFALSE
  | SetPriority t p => is_Some (tcbs v !! handle_task v t) /\ 0 <= p
  | SetBits e bits => is_Some (event_groups v !! e) /\ u32_range bits
  | NotifyTake n | NotifyWait _ n => u32_range n /\ pxCurrentTCB v <> xIdleTaskHandle v
  | NotifyTakeEnd _ | NotifyWaitEnd _ => True
  | Notify t _ _ | NotifyFromISR t _ _ | NotifyGiveFromISR t | Resume t | ResumeFromISR t | AbortDelay t => is_Some (tcbs v !! t)
  | NotifyStateClear t | NotifyValueClear t _ => is_Some (tcbs v !! handle_task v t)
  | Suspend t => is_Some (tcbs v !! handle_task v t) /\ handle_task v t <> xIdleTaskHandle v
  end.

Definition step (c c' : CK) : Prop := exists ev, allowed (k_vars c) ev /\ perform ev c = Some (tt, c').

Section System.
Implicit Types (k : KA) (c : CK) (g : EventGroup_t).

(** The tasks that are known to be suspended. *)
Context {D : Z -> Prop}.

(** ** The invariant *)

(** A queue holds items in its ring, or is a semaphore or a mutex. *)
Definition queue_ok x : Prop :=
  unlocked x /\
  ((exists xs, ring x xs) \/ (exists n, sem x n) \/ uxItemSize x = 0 /\ uxQueueType x = queueQUEUE_IS_MUTEX).

Definition idle_ready k : Prop := exists p, cont_of (k_lists k) (StateItem (xIdleTaskHandle (k_vars k))) = Some (Ready p).

(** The items of [t] are where a suspended task has them. *)
Definition shelved (t : Z) k : Prop :=
  cont_of (k_lists k) (StateItem t) = Some xSuspendedTaskList /\ cont_of (k_lists k) (EventItem t) = None.

(** Every task is in some list; one that waits for a notification is in no event
    list; the tasks of [D] are suspended. *)
Definition tasks_ok k : Prop := forall t n s, note_of (k_vars k) t = Some (n, s) ->
  is_Some (cont_of (k_lists k) (StateItem t)) /\
  (s = taskWAITING_NOTIFICATION -> cont_of (k_lists k) (EventItem t) = None) /\
  (D t -> s <> taskWAITING_NOTIFICATION /\ shelved t k).

(** The data are well formed ... *)
Record sound k : Prop := {
  sd_quiet : quiet k;
  sd_idle : idle_ready k;
  sd_queues q x : queues (k_vars k) !! q = Some x -> queue_ok x /\ has_queue q x k;
  sd_groups e g : event_groups (k_vars k) !! e = Some g ->
    u32_range (uxEventBits g) /\ is_Some (a_lists (k_lists k) !! xTasksWaitingForBits e);
  sd_values t : val_of (k_lists k) (EventItem t) <= portMAX_DELAY;
  sd_tasks : tasks_ok k;
  sd_known t : D t -> is_Some (tcbs (k_vars k) !! t);
  sd_started : xSchedulerRunning (k_vars k) <> pdFALSE
}.

(** ... and the right task runs. *)
Record system k : Prop := { sy_sound : sound k; sy_highest : runs_highest k }.

Lemma sy_quiet k : system k -> quiet k.
Proof. intros Hs. apply Hs. Qed.
Lemma sy_idle k : system k -> idle_ready k.
Proof. intros Hs. apply Hs. Qed.
Lemma sy_queues k q x : system k -> queues (k_vars k) !! q = Some x -> queue_ok x /\ has_queue q x k.
Proof. intros Hs. apply Hs. Qed.

(** Tasks stay in lists, no task enters an event list while it waits for a
    notification, and the tasks of [D] stay suspended. *)
Definition tasks_stay k k' : Prop := forall t n s, note_of (k_vars k) t = Some (n, s) ->
  (is_Some (cont_of (k_lists k) (StateItem t)) -> is_Some (cont_of (k_lists k') (StateItem t))) /\
  (s = taskWAITING_NOTIFICATION -> cont_of (k_lists k) (EventItem t) = None -> cont_of (k_lists k') (EventItem t) = None) /\
  (D t -> shelved t k -> shelved t k').

Lemma stay_ok k k' : tasks_ok k -> (forall t, note_of (k_vars k') t = note_of (k_vars k) t) -> tasks_stay k k' -> tasks_ok k'.
Proof.
  intros Hok Hn Hst t n s Ht. rewrite Hn in Ht. destruct (Hok _ _ _ Ht) as (Hs & He & Hd), (Hst _ _ _ Ht) as (Hs' & He' & Hd').
  split; [auto|]. split; [intros E; auto|]. intros HD. destruct (Hd HD). auto.
Qed.

Lemma same_cont_stay k k' : (forall i, cont_of (k_lists k') i = cont_of (k_lists k) i) -> tasks_stay k k'.
Proof. intros Hc t n s _. unfold shelved. by rewrite !Hc. Qed.

Lemma stay_trans k1 k2 k3 : frame k1 k2 -> tasks_stay k1 k2 -> tasks_stay k2 k3 -> tasks_stay k1 k3.
Proof.
  intros [_ Hf] H1 H2 t n s Ht. destruct (H1 _ _ _ Ht) as (S1 & E1 & D1).
  destruct (H2 t n s) as (S2 & E2 & D2); [by rewrite (so_notes _ _ Hf)|]. split_and!; auto.
Qed.

Lemma note_tcb v t n s : note_of v t = Some (n, s) -> is_Some (tcbs v !! t).
Proof. unfold note_of. destruct (tcbs v !! t); [eauto|done]. Qed.

Lemma note_dom v t : is_Some (note_of v t) <-> is_Some (tcbs v !! t).
Proof. unfold note_of. by rewrite fmap_is_Some. Qed.

(** A task that becomes ready stays in a list, and leaves its event list. *)
Lemma readied_stay k k' (d : Z -> bool) :
  (forall t, d t = true -> is_Some (tcbs (k_vars k) !! t) ->
    is_Some (cont_of (k_lists k') (StateItem t)) /\ cont_of (k_lists k') (EventItem t) = None) ->
  (forall t, d t = true -> D t -> ~ shelved t k) ->
  (forall i, of_task d i = false -> cont_of (k_lists k') i = cont_of (k_lists k) i) -> tasks_stay k k'.
Proof.
  intros Hyes Hd Hno t n s Ht%note_tcb. unfold shelved in *. destruct (d t) eqn:E.
  - destruct (Hyes _ E Ht). split_and!; auto. intros HD Hsh. by destruct (Hd t E HD).
  - by rewrite !Hno.
Qed.

(** What the scheduler's functions keep. *)
Lemma sound_frame k k' : sound k -> frame k k' -> quiet k' -> idle_ready k' -> tasks_stay k k' -> sound k'.
Proof.
  intros [_ _ Hq Hg Hv Ht Hk Hsr] [[Hl Hva] [Eq Eg _ _ En Er]] ? ? ?.
  split; try done; [| | |by eapply stay_ok| |by rewrite Er].
  - intros q x Hx. rewrite Eq in Hx. destruct (Hq _ _ Hx) as [? []]. split; [done|].
    split; [by rewrite Eq|by apply Hl|by apply Hl].
  - intros e g He. rewrite Eg in He. destruct (Hg _ _ He). split; [done|by apply Hl].
  - intros t. destruct (Hva t) as [?| ->]; [done|apply Hv].
  - intros t HD. apply note_dom. rewrite En. by apply note_dom, Hk.
Qed.

Lemma system_frame k k' : system k -> frame k k' -> quiet k' -> runs_highest k' -> idle_ready k' -> tasks_stay k k' -> system k'.
Proof. intros [Hs _] ? ? ? ? ?. split; [by eapply sound_frame|done]. Qed.

Lemma settled_idle k k' : settled k k' -> idle_ready k -> idle_ready k'.
Proof. intros [Hc _ _ _ (? & ? & ? & Ev)] [p Hp]. exists p. rewrite Ev, Hc. exact Hp. Qed.

(** ** Each event *)

Lemma tick_quiet k k' : quiet k -> frame k k' -> interrupted k k' -> quiet k'.
Proof.
  intros [Hrun Hpd He Hn] [_ [_ _ En _ _ _]] Hi. pose proof (it_running _ _ Hi) as Hrun'.
  pose proof (ki_core _ (rn_inv _ Hrun)) as HK. pose proof (ki_core _ (rn_inv _ Hrun')) as HK'.
  split; [done|by rewrite (it_pended _ _ Hi)| |by rewrite En].
  apply no_item_empty; [apply Hrun'|]. intros [t|t|t] Hc.
  - by destruct (kc_state _ _ HK' _ _ Hc).
  - destruct (wakes_at k (xTickCount (k_vars k) +u 1) t) eqn:E.
    + apply wakes_at_waiting in E. assert (is_Some (tcbs (k_vars k) !! t)) as [x Hx].
      { destruct E as [[Hw|Hw] _]; by apply (kc_state _ _ HK) in Hw as [? _]. }
      destruct (it_wakes _ _ Hi _ _ E Hx) as [_ Hno]. by rewrite Hno in Hc.
    + destruct (it_others _ _ Hi t) as [_ Hs]; [intros Hw%wakes_at_waiting; congruence|]. rewrite Hs in Hc.
      apply (awf_mem _ (kc_wf _ _ HK)) in Hc. rewrite He in Hc. set_solver.
  - by apply (kc_timer _ _ HK') in Hc.
Qed.

(** Ticks leave ready tasks where they are. *)
Definition still_ready k k' : Prop := forall u p, cont_of (k_lists k) (StateItem u) = Some (Ready p) ->
  cont_of (k_lists k') (StateItem u) = Some (Ready p).

Lemma tick_ready k k' : running k -> interrupted k k' -> still_ready k k'.
Proof.
  intros Hrun Hi u p Hu. destruct (it_others _ _ Hi u) as [-> _]; [|done]. intros [Hw _].
  destruct (kc_delayed _ _ (ki_core _ (rn_inv _ Hrun))) as [[E1 E2]|[E1 E2]]; rewrite E1, E2, Hu in Hw; by destruct Hw.
Qed.

Lemma tick_idle k k' : running k -> frame k k' -> interrupted k k' -> idle_ready k -> idle_ready k'.
Proof. intros Hrun [_ [_ _ _ Ei _ _]] Hi [p Hp]. exists p. rewrite Ei. by eapply tick_ready. Qed.

Lemma tick_stay k k' : running k -> interrupted k k' -> tasks_stay k k'.
Proof.
  intros Hrun Hi t n s [x Hx]%note_tcb. destruct (wakes_at k (xTickCount (k_vars k) +u 1) t) eqn:E.
  - apply wakes_at_waiting in E. pose proof (it_wakes _ _ Hi _ _ E Hx) as [Es Ee]. rewrite Es, Ee. split_and!; [eauto|done|].
    intros _ [Hsh _]. destruct E as [Hw _]. rewrite Hsh in Hw.
    destruct (kc_delayed _ _ (ki_core _ (rn_inv _ Hrun))) as [[E1 E2]|[E1 E2]]; rewrite E1, E2 in Hw; by destruct Hw.
  - unfold shelved. destruct (it_others _ _ Hi t) as [-> ->]; [|done]. intros Hw%wakes_at_waiting. congruence.
Qed.

Lemma system_tick_wp k : system k -> wp timer_interrupt (fun _ k' => system k' /\ frame k k' /\ interrupted k k') k.
Proof.
  intros Hs. pose proof (qt_running _ (sy_quiet _ Hs)) as Hrun.
  eapply wp_mono; [apply wp_keeps; [apply keeps_timer_interrupt|by apply timer_interrupt_wp]|].
  intros [] k' [[Hi Hhi] Hf]. split; [|done]. eapply system_frame; [exact Hs|exact Hf| |apply Hhi, Hs| |].
  - by eapply tick_quiet; [apply Hs|..].
  - by eapply tick_idle; [| | |apply Hs].
  - by eapply tick_stay.
Qed.

Lemma tick_system k : system k -> wp timer_interrupt (fun _ k' => system k') k.
Proof. intros Hs. eapply wp_mono; [by apply system_tick_wp|]. by intros [] k' [? _]. Qed.

Lemma yield_system k : system k -> wp portYIELD (fun _ k' => system k') k.
Proof.
  intros Hs. eapply wp_mono; [apply wp_keeps; [apply keeps_yield|apply yield_wp, Hs]|].
  intros [] k' [(Hst & Hq & Hhi) Hf]. eapply system_frame; [exact Hs|exact Hf|done|done| |apply same_cont_stay, Hst].
  eapply settled_idle; [exact Hst|apply Hs].
Qed.

(** The running task is ready, and so is the idle task. *)
Lemma system_current k : system k -> exists x, tcbs (k_vars k) !! pxCurrentTCB (k_vars k) = Some x /\
  cont_of (k_lists k) (StateItem (pxCurrentTCB (k_vars k))) = Some (Ready (uxPriority x)).
Proof. intros Hs. destruct (sy_highest _ Hs) as (x & Hx & Hc & _). eauto. Qed.

(** The running task is in no event list. *)
Lemma current_event k : system k -> cont_of (k_lists k) (EventItem (pxCurrentTCB (k_vars k))) = None.
Proof.
  intros Hs. destruct (system_current _ Hs) as (x & _ & Hc).
  destruct (cont_of (k_lists k) (EventItem _)) as [l|] eqn:E; [|done].
  destruct (rn_pend _ (qt_running _ (sy_quiet _ Hs)) _ _ E) as (l' & Hl' & Hnr). rewrite Hc in Hl'. simplify_eq.
  by destruct (Hnr (uxPriority x)).
Qed.

Lemma system_current_ready k : system k -> current_ready k.
Proof.
  intros Hs. destruct (system_current _ Hs) as (x & Hx & Hc). exists x, (uxPriority x).
  split_and!; [done|done|by apply current_event].
Qed.

Lemma delay_system k n : system k -> u32_range n -> pxCurrentTCB (k_vars k) <> xIdleTaskHandle (k_vars k) ->
  wp (run (vTaskDelay n)) (fun _ k' => system k') k.
Proof.
  intros Hs Hn Hni. destruct (decide (n = 0)) as [->|Hn0].
  { cbn. wstep. eapply wp_mono; [by apply yield_system|]. intros [] k' Hs'. by wstep. }
  destruct (system_current _ Hs) as (x & Hx & Hc). destruct (sy_idle _ Hs) as [p Hp].
  eapply wp_mono; [apply wp_keeps; [apply pkeeps_run, keeps_delay|eapply delay_quiet_wp; [apply Hs|..]]|]; try done.
  - exists (xIdleTaskHandle (k_vars k)), p. done.
  - intros [] k' [(Hq & Hhi & k1 & (a' & y & nx & b & -> & _ & _ & Hpk) & Hst) Hf].
    eapply system_frame; [exact Hs|exact Hf|done|done| |].
    + eapply settled_idle; [exact Hst|]. exists p.
      simpl. rewrite (pk_cont _ _ _ _ _ Hpk), decide_False by (intros [= E]; apply Hni; symmetry; exact E). exact Hp.
    + intros t m s _. unfold shelved. rewrite !(st_cont _ _ Hst). simpl. rewrite !(pk_cont _ _ _ _ _ Hpk).
      rewrite (decide_False (P := EventItem t = _)) by done. case_decide as E; [|eauto]. split_and!; [eauto|done|].
      injection E as ->. rewrite Hc. by intros _ [? _].
Qed.

(** ** Queues *)

Lemma head_event k l t xs : kinv k -> is_event_list l = true -> items_of (k_lists k) l = EventItem t :: xs ->
  is_Some (tcbs (k_vars k) !! t).
Proof.
  intros Hinv Hl E. destruct (event_list_item _ _ l (EventItem t) (ki_core _ Hinv) Hl) as (u & x & [= <-] & Hx); [rewrite E; set_solver|eauto].
Qed.

(** A woken task does not stop being ready, and is not left pending. *)
Lemma served_ready l k k' u p : running k -> is_event_list l = true -> served l k k' ->
  cont_of (k_lists k) (StateItem u) = Some (Ready p) -> exists p', cont_of (k_lists k') (StateItem u) = Some (Ready p').
Proof.
  intros Hrun Hl Hsv Hu. destruct (items_of (k_lists k) l) as [|[t|t|t] xs] eqn:E;
    try (exists p; rewrite (sv_others _ _ _ Hsv); [done|by rewrite E]).
  destruct (decide (t = u)) as [->|Hne].
  - destruct (head_event _ _ _ _ (rn_inv _ Hrun) Hl E) as [x Hx]. exists (uxPriority x). by apply (sv_wakes _ _ _ Hsv u xs x E Hx).
  - exists p. rewrite (sv_others _ _ _ Hsv); [done|]. rewrite E. simpl. by apply Z.eqb_neq.
Qed.

Lemma served_quiet l k k' : quiet k -> is_event_list l = true -> served l k k' -> quiet k'.
Proof.
  intros [Hrun Hpd He Hn] Hl Hsv. pose proof (ki_core _ (rn_inv _ Hrun)) as HK. destruct (sv_vars _ _ _ Hsv) as (cur & y & b & Ev).
  assert (Hold : forall i, cont_of (k_lists k) i <> Some xPendingReadyList).
  { intros i Hc%(awf_mem _ (kc_wf _ _ HK)). rewrite He in Hc. set_solver. }
  split; [apply Hsv|by rewrite Ev| |by rewrite Ev]. apply no_item_empty; [apply (sv_running _ _ _ Hsv)|].
  intros i Hc. destruct (items_of (k_lists k) l) as [|[t|t|t] xs] eqn:E;
    try (rewrite (sv_others _ _ _ Hsv) in Hc; [by apply (Hold i)|by rewrite E]).
  destruct (of_task (Z.eqb t) i) eqn:Ei.
  - destruct (head_event _ _ _ _ (rn_inv _ Hrun) Hl E) as [x Hx]. destruct (sv_wakes _ _ _ Hsv t xs x E Hx) as [H1 H2].
    destruct i as [u|u|u]; simpl in Ei; try done; apply Z.eqb_eq in Ei as <-; congruence.
  - rewrite (sv_others _ _ _ Hsv) in Hc; [by apply (Hold i)|]. by rewrite E.
Qed.

Lemma with_queue_quiet q x k : quiet k -> quiet (with_queue q x k).
Proof. intros [Hrun ? ? ?]. split; [by apply with_queue_running|done|done|done]. Qed.

Lemma served_stay l k k' : running k -> is_event_list l = true -> served l k k' -> tasks_stay k k'.
Proof.
  intros Hrun Hl Hsv. destruct (items_of (k_lists k) l) as [|[t|t|t] xs] eqn:E;
    try (apply same_cont_stay; intros i; rewrite (sv_others _ _ _ Hsv); [done|by rewrite E]).
  apply (readied_stay _ _ (Z.eqb t)).
  - intros u <-%Z.eqb_eq [x Hx]. destruct (sv_wakes _ _ _ Hsv t xs x E Hx) as [-> ->]. eauto.
  - intros u <-%Z.eqb_eq _ [_ Hno]. apply (not_elem_of_nil (EventItem t)).
    assert (Hin : EventItem t ∈ items_of (k_lists k) l) by (rewrite E; set_solver).
    apply (awf_mem _ (kc_wf _ _ (ki_core _ (rn_inv _ Hrun)))) in Hin. congruence.
  - intros i Hi. apply (sv_others _ _ _ Hsv). by rewrite E.
Qed.

Lemma served_sound q x x' l k k' : sound k -> queues (k_vars k) !! q = Some x -> queue_ok x' -> is_event_list l = true ->
  served l (with_queue q x' k) k' -> has_queue q x' k' -> sound k'.
Proof.
  intros Hs Hx Hok Hl Hsv Hq. set (k1 := with_queue q x' k) in *.
  pose proof (with_queue_quiet q x' k (sd_quiet _ Hs)) as Hq1. fold k1 in Hq1.
  destruct (sv_vars _ _ _ Hsv) as (cur & y & b & Ev). split.
  - by eapply served_quiet.
  - destruct (sd_idle _ Hs) as [p Hp]. unfold idle_ready. rewrite Ev. simpl.
    eapply (served_ready l k1); [apply Hq1|done|done|exact Hp].
  - intros q' z Hz. rewrite Ev in Hz. simpl in Hz. destruct (decide (q' = q)) as [->|Hne].
    + rewrite lookup_insert_eq in Hz. by simplify_eq.
    + rewrite lookup_insert_ne in Hz by done. destruct (sd_queues _ Hs _ _ Hz) as [? []]. split; [done|].
      split; [by rewrite Ev; simpl; rewrite lookup_insert_ne|by apply (sv_lists _ _ _ Hsv)|by apply (sv_lists _ _ _ Hsv)].
  - intros e g He. rewrite Ev in He. destruct (sd_groups _ Hs _ _ He). split; [done|by apply (sv_lists _ _ _ Hsv)].
  - intros t. rewrite (sv_values _ _ _ Hsv). apply (sd_values _ Hs).
  - eapply stay_ok; [exact (sd_tasks _ Hs)|by intros t; rewrite Ev|]. by eapply (served_stay l k1); [apply Hq1|..].
  - rewrite Ev. apply (sd_known _ Hs).
  - rewrite Ev. apply (sd_started _ Hs).
Qed.

Lemma queue_step_system q x x' k k' : system k -> queues (k_vars k) !! q = Some x -> queue_ok x' ->
  queue_step q x' k k' -> has_queue q x' k' -> system k'.
Proof.
  intros [Hs Hhi] Hx Hok [->|(l & Hl & Hsv)] Hq; [done|]. split; [by eapply served_sound|].
  apply (sv_highest _ _ _ Hsv). by apply with_queue_highest.
Qed.

Lemma same_unlocked x x' : same_queue x x' -> unlocked x -> unlocked x'.
Proof. unfold unlocked. by intros (_ & _ & _ & _ & -> & ->). Qed.

(** What kind of queue it is. *)
Lemma items_ring k q P : system k -> holds_items (k_vars k) q P ->
  exists x xs, P x /\ has_queue q x k /\ unlocked x /\ ring x xs.
Proof.
  intros Hs (x & Hx & Hsz & HP). destruct (sy_queues _ _ _ Hs Hx) as [[Hu Hok] Hq]. exists x.
  destruct Hok as [[xs Hr]|[[n []]|[? _]]]; [by exists xs|lia|lia].
Qed.
Lemma counts_sem k q : system k -> counts (k_vars k) q -> exists x n, has_queue q x k /\ unlocked x /\ sem x n.
Proof.
  intros Hs (x & Hx & Hsz & Hty). destruct (sy_queues _ _ _ Hs Hx) as [[Hu Hok] Hq]. exists x.
  destruct Hok as [[xs []]|[[n Hn]|[_ ?]]]; [lia|by exists n|done].
Qed.

Lemma queue_system k q op : system k -> allowed (k_vars k) (UseQueue q op) -> wp (q_call q op) (fun _ k' => system k') k.
Proof.
  intros Hs Ha. destruct (items_ring _ _ _ Hs Ha) as (x & xs & Hop & Hq & Hu & Hr).
  eapply wp_mono; [by apply item_fifo_served; [apply Hs|..]|]. intros r k' (_ & x' & Hsq & Hr' & Hst & Hq').
  eapply queue_step_system; [done|apply Hq| |done|done]. split; [by eapply same_unlocked|]. left. eauto.
Qed.

Lemma semaphore_system k q op : system k -> counts (k_vars k) q -> wp (sem_call q op) (fun _ k' => system k') k.
Proof.
  intros Hs Ha. destruct (counts_sem _ _ Hs Ha) as (x & n & Hq & Hu & Hn).
  eapply wp_mono; [by apply counter_served; [apply Hs|..]|]. intros r k' (_ & x' & Hx' & Hsq & Hst & Hq').
  eapply queue_step_system; [done|apply Hq| |done|done]. split; [by eapply same_unlocked|]. right. left. eauto.
Qed.

(** ** Waiting *)

Lemma system_can_wait k q x : system k -> pxCurrentTCB (k_vars k) <> xIdleTaskHandle (k_vars k) -> has_queue q x k -> unlocked x ->
  can_wait q x k.
Proof.
  intros Hs Hni Hq Hu. destruct (sy_idle _ Hs) as [p Hp].
  split; try done; [apply Hs|apply Hs|by apply system_current_ready| |apply Hs].
  by exists (xIdleTaskHandle (k_vars k)), p.
Qed.

Lemma gave_up_system k k' : system k -> gave_up k k' -> system k'.
Proof.
  intros Hs [Hq Hhi Hf Hc]. destruct (sy_idle _ Hs) as [p Hp].
  eapply system_frame; [done|done|done|done| |by apply same_cont_stay]. exists p.
  destruct Hf as [_ [_ _ _ -> _ _]]. by rewrite Hc.
Qed.

Lemma waited_stay l n k k' : current_ready k -> between_calls (k_vars k) -> went_to_wait l n k k' -> tasks_stay k k'.
Proof.
  intros (y & p & _ & Hc & _) Hbc Hw t m s Ht. unfold shelved. rewrite !(ww_cont _ _ _ _ Hw).
  rewrite (decide_False (P := StateItem t = EventItem _)) by done.
  rewrite (decide_False (P := EventItem t = StateItem _)) by done. destruct (decide (t = pxCurrentTCB (k_vars k))) as [->|Hne].
  - rewrite !decide_True, Hc by done. split_and!; [eauto|intros ->; by destruct (Hbc m)|by intros _ [? _]].
  - by rewrite !decide_False by congruence.
Qed.

Lemma unsuccessful_system {R} lst (err : R) k r k' : system k -> pxCurrentTCB (k_vars k) <> xIdleTaskHandle (k_vars k) ->
  between_calls (k_vars k) -> unsuccessful lst err k r k' -> system k'.
Proof.
  intros Hs Hni Hbc Hun. destruct (sy_idle _ Hs) as [p Hp].
  destruct Hun as [k' Hg|l k' Hg|l k' Hw _]; [by eapply gave_up_system|by eapply gave_up_system|].
  pose proof (waited_stay _ _ _ _ (system_current_ready _ Hs) Hbc Hw) as Hst. destruct Hw as [Hq Hhi Hf Hc _ _ _ _].
  eapply system_frame; [done|done|done|done| |done].
  exists p. destruct Hf as [_ [_ _ _ -> _ _]]. rewrite Hc, !decide_False by congruence. done.
Qed.

Lemma served_system k q x x' l k' : system k -> has_queue q x k -> unlocked x -> same_queue x x' ->
  (exists xs, ring x' xs) \/ (exists n, sem x' n) -> is_event_list l = true -> served l (with_queue q x' k) k' -> system k'.
Proof.
  intros Hs Hq Hu Hsq Hok Hl Hsv. eapply (queue_step_system q x x' k k'); [done|apply Hq| | |].
  - split; [by eapply same_unlocked|]. destruct Hok; [by left|by right; left].
  - right. by exists l.
  - eapply served_has; [exact Hsv|]. by eapply with_queue_has.
Qed.

Lemma send_round_system k q it pos l : system k -> allowed (k_vars k) (SendRound q it pos l) ->
  wp (run (xQueueGenericSend_iter q it pos l)) (fun _ k' => system k') k.
Proof.
  intros Hs [Ha (Hni & Hl & Hbc)]. destruct (items_ring _ _ _ Hs Ha) as (x & xs & [Hit Hpos] & Hq & Hu & Hr).
  eapply wp_mono; [apply (send_round_wp q x xs); [by apply system_can_wait|done|done|done|]|].
  - pose proof (rg_full _ _ Hr). unfold has_room. destruct (decide (uxLength x = Z.of_nat (length xs))) as [E|E].
    + destruct Hpos as [->|[->|[-> ?]]]; [right; split; [done|by unfold queueSEND_TO_BACK, queueOVERWRITE]..|left; tauto].
    + left. destruct Hpos as [?|[?|?]]; [left; split; [tauto|lia]..|tauto].
  - intros r k' [(_ & x' & Hsq & Hr' & Hsv)|[_ Hun]].
    + by eapply served_system; [| | | |left; eauto| |exact Hsv].
    + by eapply unsuccessful_system.
Qed.

Lemma receive_round_system k q l : system k -> allowed (k_vars k) (ReceiveRound q l) ->
  wp (run (xQueueReceive_iter q l)) (fun _ k' => system k') k.
Proof.
  intros Hs [Ha (Hni & Hl & Hbc)]. destruct (items_ring _ _ _ Hs Ha) as (x & xs & _ & Hq & Hu & Hr).
  eapply wp_mono; [apply (receive_round_wp q x xs); [by apply system_can_wait|done|done]|].
  intros r k' Hres. destruct xs as [|y xs]; [by eapply unsuccessful_system|]. destruct Hres as (_ & x' & Hsq & Hr' & Hsv).
  by eapply served_system; [| | | |left; eauto| |exact Hsv].
Qed.

Lemma peek_round_system k q l : system k -> allowed (k_vars k) (PeekRound q l) ->
  wp (run (xQueuePeek_iter q l)) (fun _ k' => system k') k.
Proof.
  intros Hs [Ha (Hni & Hl & Hbc)]. destruct (items_ring _ _ _ Hs Ha) as (x & xs & _ & Hq & Hu & Hr).
  eapply wp_mono; [apply (peek_round_wp q x xs); [by apply system_can_wait|done|done]|].
  intros r k' Hres. destruct xs as [|y xs]; [by eapply unsuccessful_system|]. destruct Hres as (_ & Hsv).
  by eapply served_system; [| | | |left; eauto| |exact Hsv].
Qed.

Lemma take_round_system k q l : system k -> allowed (k_vars k) (TakeRound q l) ->
  wp (run (xQueueSemaphoreTake_iter q l)) (fun _ k' => system k') k.
Proof.
  intros Hs (Ha & (Hni & Hl & Hbc) & Hin). destruct (counts_sem _ _ Hs Ha) as (x & n & Hq & Hu & Hn).
  eapply wp_mono; [apply (take_round_wp q x n); [by apply system_can_wait|done|done|done]|].
  intros r k' [(Hpos & _ & Hsv)|(_ & Hun & _)]; [|by eapply unsuccessful_system].
  eapply served_system; [done|exact Hq|done| |right; exists (n - 1)| |exact Hsv]; [done| |done].
  apply (sem_set x n); [done|]. destruct Hn. lia.
Qed.

(** ** Priorities *)

Lemma relocated_quiet k h' b t x y : quiet k -> tcbs (k_vars k) !! t = Some x ->
  let k' := mkKernel h' (set_uxTopReadyPriority b (put_tcb t y (k_vars k))) in
  kinv k' -> relocated t y (k_lists k) h' -> some_ready k' -> quiet k'.
Proof.
  intros [[Hinv Hp Hr Hs] Hpd He Hn] Hx k' Hinv' Hrel Hr'. split; [|done| |done].
  - split; [done|destruct k; by eapply relocated_pend|done|done].
  - assert (Hold : forall i, cont_of (k_lists k) i <> Some xPendingReadyList).
    { intros i Hc%(awf_mem _ (kc_wf _ _ (ki_core _ Hinv))). rewrite He in Hc. set_solver. }
    apply no_item_empty; [done|]. intros i. simpl. destruct (decide (i = StateItem t)) as [->|Hne].
    + destruct Hrel as [_ [[_ ->]|[_ ->]]]; [done|apply Hold].
    + destruct Hrel as [Ho _]. rewrite Ho by done. apply Hold.
Qed.

Lemma relocated_ready t y h h' u p : relocated t y h h' -> cont_of h (StateItem u) = Some (Ready p) ->
  exists p', cont_of h' (StateItem u) = Some (Ready p').
Proof.
  intros [Ho Hs] Hu. destruct (decide (u = t)) as [->|Hne]; [|exists p; by rewrite Ho by congruence].
  destruct Hs as [[_ ->]|[Hno _]]; [eauto|]. by destruct (Hno p).
Qed.

Lemma relocated_stay t y k k' : relocated t y (k_lists k) (k_lists k') -> tasks_stay k k'.
Proof.
  intros [Ho Hs] u n s _. unfold shelved. rewrite (Ho (EventItem u)) by done.
  destruct (decide (u = t)) as [->|Hne]; [|by rewrite Ho by congruence].
  destruct Hs as [[[p Hp] ->]|[_ ->]]; [|done]. rewrite Hp. split_and!; [eauto|done|by intros _ [? _]].
Qed.

Lemma priority_system k t p : system k -> is_Some (tcbs (k_vars k) !! handle_task (k_vars k) t) -> 0 <= p ->
  wp (vTaskPrioritySet t p) (fun _ k' => system k') k.
Proof.
  intros Hs [x Hx] Hp. pose proof (sy_quiet _ Hs) as Hq. pose proof (qt_running _ Hq) as Hrun.
  eapply wp_mono with (P := fun _ k' => (quiet k' /\ runs_highest k' /\ idle_ready k' /\ tasks_stay k k') /\ frame k k').
  2: { intros [] k' [(? & ? & ? & ?) ?]. by eapply system_frame. }
  apply wp_keeps; [apply keeps_priority_set|].
  eapply priority_set_split; [apply Hrun|done|exact Hx|done| |].
  - intros _. split_and!; [done|apply Hs|apply Hs|by apply same_cont_stay].
  - intros y k1 Hy Hne Hrp. pose proof (reprioritised_some_ready _ _ _ _ _ (rn_ready _ Hrun) Hrp) as Hr1.
    pose proof (fun b => reprioritised_highest _ _ _ _ _ _ (rn_inv _ Hrun) Hx Hy Hne b (sy_highest _ Hs) Hrp) as Hhi1.
    destruct Hrp as (h' & b & -> & Hinv1 & Hrel). set (k1 := mkKernel _ _) in *.
    assert (Hq1 : quiet k1) by by eapply relocated_quiet.
    assert (Hi1 : idle_ready k1) by (destruct (sy_idle _ Hs) as [q Hi]; by eapply relocated_ready).
    assert (Ht1 : tasks_stay k k1) by by eapply relocated_stay.
    destruct (yield_needed _ _ _ _ _); simpl.
    + eapply wp_mono; [by apply yield_wp|]. intros [] k2 (Hst & Hq2 & Hh2). split_and!; [done|done|by eapply settled_idle|].
      intros u n s Hu. unfold shelved. rewrite !(st_cont _ _ Hst). by apply (Ht1 u n s).
    + wstep. split_and!; [done|by apply Hhi1|done|done].
Qed.

(** ** Event groups *)

Lemma satisfied_tcb k e bits t : kinv k -> satisfied (k_lists k) bits (items_of (k_lists k) (xTasksWaitingForBits e)) t = true ->
  is_Some (tcbs (k_vars k) !! t).
Proof.
  intros Hinv [Hi%bool_decide_eq_true _]%andb_prop.
  destruct (event_list_item _ _ (xTasksWaitingForBits e) _ (ki_core _ Hinv) eq_refl Hi) as (u & x & [= <-] & Hx). eauto.
Qed.

Lemma bits_system k e bits : system k -> is_Some (event_groups (k_vars k) !! e) -> u32_range bits ->
  wp (run (xEventGroupSetBits e bits)) (fun _ k' => system k') k.
Proof.
  intros Hs [g Hg] Hb. destruct (sd_groups _ (sy_sound _ Hs) _ _ Hg) as [Hgb Hl].
  eapply wp_mono; [by apply set_bits_wp; [apply Hs|apply Hs|..]|]. intros r k' (_ & Hq & Hhi & Hbs).
  set (ts := satisfied _ _ _) in Hbs. pose proof (rn_inv _ (qt_running _ (sy_quiet _ Hs))) as Hinv.
  destruct (bs_vars _ _ _ _ _ _ Hbs) as (cur & y & b & s & Ev). split; [|done]. split; [done| | | | | | |].
  - destruct (sy_idle _ Hs) as [p Hp]. unfold idle_ready. rewrite Ev. cbn.
    destruct (ts (xIdleTaskHandle (k_vars k))) eqn:E.
    + destruct (satisfied_tcb _ _ _ _ Hinv E) as [x Hx]. exists (uxPriority x). by apply (bs_woken _ _ _ _ _ _ Hbs).
    + exists p. destruct (bs_others _ _ _ _ _ _ Hbs (StateItem (xIdleTaskHandle (k_vars k)))) as [-> _]; [exact E|exact Hp].
  - intros q x Hx. rewrite Ev in Hx. destruct (sy_queues _ _ _ Hs Hx) as [? []]. split; [done|].
    split; [by rewrite Ev|by apply (bs_lists _ _ _ _ _ _ Hbs)|by apply (bs_lists _ _ _ _ _ _ Hbs)].
  - intros e' g' He. rewrite Ev in He. cbn in He. destruct (decide (e' = e)) as [->|Hne].
    + rewrite lookup_insert_eq in He. simplify_eq. split; [apply land_range, lor_range; done|by apply (bs_lists _ _ _ _ _ _ Hbs)].
    + rewrite lookup_insert_ne in He by done. destruct (sd_groups _ (sy_sound _ Hs) _ _ He). split; [done|by apply (bs_lists _ _ _ _ _ _ Hbs)].
  - intros t. destruct (ts t) eqn:E.
    + destruct (satisfied_tcb _ _ _ _ Hinv E) as [x Hx]. destruct (bs_woken _ _ _ _ _ _ Hbs t x E Hx) as (_ & _ & ->).
      assert (Hr : u32_range (Z.lor (Z.lor (Z.lor (uxEventBits g) bits) eventUNBLOCKED_DUE_TO_BIT_SET) taskEVENT_LIST_ITEM_VALUE_IN_USE))
        by (repeat apply lor_range; done). unfold portMAX_DELAY. destruct Hr. unfold u32_modulus in *. lia.
    + destruct (bs_others _ _ _ _ _ _ Hbs (EventItem t) E) as [_ ->]. apply (sd_values _ (sy_sound _ Hs)).
  - eapply stay_ok; [exact (sd_tasks _ (sy_sound _ Hs))|by intros t; rewrite Ev|]. apply (readied_stay _ _ ts).
    + intros t Ht [x Hx]. destruct (bs_woken _ _ _ _ _ _ Hbs t x Ht Hx) as (-> & -> & _). eauto.
    + intros t [Hin%bool_decide_eq_true _]%andb_prop _ [_ Hno]. apply (awf_mem _ (kc_wf _ _ (ki_core _ Hinv))) in Hin. congruence.
    + intros i Hi. by destruct (bs_others _ _ _ _ _ _ Hbs i Hi).
  - rewrite Ev. apply (sd_known _ (sy_sound _ Hs)).
  - rewrite Ev. apply (sd_started _ (sy_sound _ Hs)).
Qed.

End System.

#[global] Arguments tasks_ok : clear implicits.
#[global] Arguments tasks_stay : clear implicits.
#[global] Arguments sound : clear implicits.
#[global] Arguments system : clear implicits.

Definition nobody (t : Z) : Prop := False.
