(* ===== verification/SystemTasks.v ===== *)
(** * The system as a whole: notifications, suspension and ended waits

    The remaining events of [System] keep its invariant. *)

From S2P Require Import Prelude Simulation History Config ListC ListSpec ListRefine ListObs ListProps Heap4 Kernel Tasks TaskApi TaskEvents Queue EventGroups KernelRefine DriversRefine KernelInv Frames KernelSteps SchedProps ResumeProps KernelDemo SchedTheorems SuspendProps PriorityProps PriorityTheorems EventProps QueueData QueueTheorems SemaphoreTheorems BlockProps WaitTheorems NotifyProps ControlProps EventGroupProps EventGroupTheorems System.

Section SystemTasks.
Implicit Types (k : KA) (x y : TCB_t).
Context {D : Z -> Prop}.
Notation tasks_ok := (System.tasks_ok D).
Notation tasks_stay := (System.tasks_stay D).
Notation sound := (System.sound D).
Notation system := (System.system D).

Lemma note_of_tcb v t x : tcbs v !! t = Some x -> note_of v t = Some (ulNotifiedValue x, ucNotifyState x).
Proof. intros Hx. unfold note_of. by rewrite Hx. Qed.

Lemma tasks_notifiable k t x : tasks_ok k -> tcbs (k_vars k) !! t = Some x -> notifiable t x k.
Proof.
  intros Hok Hx. destruct (Hok _ _ _ (note_of_tcb _ _ _ Hx)) as (Hs & He & _). split; [done|done|].
  intros E%Z.eqb_eq. auto.
Qed.

(** ** A TCB changes *)

Lemma with_tcb_frame t x y k : tcbs (k_vars k) !! t = Some x ->
  ulNotifiedValue y = ulNotifiedValue x -> ucNotifyState y = ucNotifyState x -> frame k (with_tcb t y k).
Proof.
  intros Hx En Es. split; [done|]. split; try done. intros u. by eapply note_of_insert.
Qed.

(** A task of [D] does not wait for a notification. *)
Lemma waits_spared k t x : tasks_ok k -> tcbs (k_vars k) !! t = Some x -> awaits_note x = true -> ~ D t.
Proof.
  intros Hok Hx E%Z.eqb_eq HD. destruct (Hok _ _ _ (note_of_tcb _ _ _ Hx)) as (_ & _ & Hd). by destruct (Hd HD).
Qed.

Lemma with_tcb_sound t x y k : sound k -> tcbs (k_vars k) !! t = Some x -> same_priority x y ->
  (awaits_note y = true -> cont_of (k_lists k) (EventItem t) = None /\ ~ D t) -> sound (with_tcb t y k).
Proof.
  intros [Hq Hi Hqs Hg Hv Ht Hk Hsr] Hx Hp He. split; try done.
  - by eapply with_tcb_quiet.
  - intros q z Hz. destruct (Hqs _ _ Hz) as [? []]. by split.
  - intros u n s. destruct (decide (u = t)) as [->|Hne].
    + unfold note_of. simpl. rewrite lookup_insert_eq. intros [= _ <-].
      destruct (Ht _ _ _ (note_of_tcb _ _ _ Hx)) as (Hs & _ & Hd). unfold awaits_note in He.
      split; [done|]. split; [intros E; apply He; by rewrite E|]. intros HD. destruct (Hd HD) as [_ Hsh]. split; [|done].
      intros E. by destruct (proj2 (He (proj2 (Z.eqb_eq _ _) E))).
    + intros Hu. apply (Ht u n s). unfold note_of in *. simpl in Hu. by rewrite lookup_insert_ne in Hu.
  - intros u HD. simpl. rewrite lookup_insert. case_decide; [eauto|by apply Hk].
Qed.

Lemma with_tcb_system t x y k : system k -> tcbs (k_vars k) !! t = Some x -> same_priority x y ->
  (awaits_note y = true -> cont_of (k_lists k) (EventItem t) = None /\ ~ D t) -> system (with_tcb t y k).
Proof. intros [Hs Hhi] ? ? ?. split; [by eapply with_tcb_sound|by eapply with_tcb_highest]. Qed.

(** ** A task becomes ready *)

Lemma roused_frame t k k' : roused t k k' -> frame k k'.
Proof.
  intros Hr. destruct (rs_vars _ _ _ Hr) as (cur & y & b & Ev). split.
  - split; [apply (rs_lists _ _ _ Hr)|]. intros u. right. apply (rs_values _ _ _ Hr).
  - rewrite Ev. by split.
Qed.

Lemma roused_stay t k k' : ~ D t -> roused t k k' -> tasks_stay k k'.
Proof.
  intros HD Hr. apply (readied_stay _ _ (Z.eqb t)); [| |apply (rs_others _ _ _ Hr)].
  - intros u <-%Z.eqb_eq [x Hx]. destruct (rs_wakes _ _ _ Hr _ Hx) as [-> ->]. eauto.
  - by intros u <-%Z.eqb_eq.
Qed.

Lemma roused_quiet t k k' : quiet k -> is_Some (tcbs (k_vars k) !! t) -> roused t k k' -> quiet k'.
Proof.
  intros [Hrun Hpd He Hn] [x Hx] Hr. destruct (rs_vars _ _ _ Hr) as (cur & y & b & Ev).
  split; [apply Hr|by rewrite Ev| |by rewrite Ev]. apply no_item_empty; [apply (rs_running _ _ _ Hr)|].
  intros i Hc. destruct (of_task (Z.eqb t) i) eqn:Ei.
  - destruct (rs_wakes _ _ _ Hr _ Hx) as [H1 H2]. destruct i as [u|u|u]; simpl in Ei; try done; apply Z.eqb_eq in Ei as <-; congruence.
  - rewrite (rs_others _ _ _ Hr) in Hc by done. apply (awf_mem _ (kc_wf _ _ (ki_core _ (rn_inv _ Hrun)))) in Hc. rewrite He in Hc. set_solver.
Qed.

Lemma roused_idle t k k' : is_Some (tcbs (k_vars k) !! t) -> roused t k k' -> idle_ready k -> idle_ready k'.
Proof.
  intros [x Hx] Hr [p Hp]. destruct (rs_vars _ _ _ Hr) as (cur & y & b & Ev). unfold idle_ready. rewrite Ev. simpl.
  destruct (decide (xIdleTaskHandle (k_vars k) = t)) as [->|Hne].
  - exists (uxPriority x). by apply (rs_wakes _ _ _ Hr).
  - exists p. rewrite (rs_others _ _ _ Hr); [done|]. apply of_task_eqb. split; congruence.
Qed.

Lemma roused_sound t k k' : sound k -> is_Some (tcbs (k_vars k) !! t) -> ~ D t -> roused t k k' -> sound k'.
Proof.
  intros Hs Ht HD Hr. eapply sound_frame; [exact Hs|by eapply roused_frame|by eapply roused_quiet; [apply Hs|..]|
    by eapply roused_idle; [..|apply Hs]|by eapply roused_stay].
Qed.

Lemma roused_system t k k' : system k -> is_Some (tcbs (k_vars k) !! t) -> ~ D t -> roused t k k' -> system k'.
Proof. intros [Hs Hhi] Ht HD Hr. split; [by eapply roused_sound|by apply (rs_highest _ _ _ Hr)]. Qed.

(** ** Notifications *)

Lemma notified_system t x value act k k' : system k -> tcbs (k_vars k) !! t = Some x ->
  (if awaits_note x then roused t (with_tcb t (notified value act x) k) k' else k' = with_tcb t (notified value act x) k) ->
  system k'.
Proof.
  intros Hs Hx Hk. assert (Hs1 : system (with_tcb t (notified value act x) k)).
  { eapply with_tcb_system; [done|exact Hx|done|]. intros E. unfold awaits_note, notified in E. by vm_compute in E. }
  destruct (awaits_note x) eqn:E; [|by subst]. eapply roused_system; [exact Hs1| | |exact Hk].
  - simpl. rewrite lookup_insert_eq. eauto.
  - eapply waits_spared; [apply Hs|exact Hx|done].
Qed.

Lemma notify_system k t value act : system k -> is_Some (tcbs (k_vars k) !! t) ->
  wp (xTaskGenericNotify t value act) (fun _ k' => system k') k.
Proof.
  intros Hs [x Hx]. eapply wp_mono; [apply (notify_wp k t x); [apply Hs|apply tasks_notifiable; [apply Hs|exact Hx]]|].
  intros r k' [_ Hk]. by eapply notified_system.
Qed.

Lemma notify_isr_system k t value act : system k -> is_Some (tcbs (k_vars k) !! t) ->
  wp (r ← xTaskGenericNotifyFromISR t value act; portEND_SWITCHING_ISR r.2) (fun _ k' => system k') k.
Proof.
  intros Hs [x Hx]. eapply wp_mono; [apply (notify_isr_wp k t x); [apply Hs|apply tasks_notifiable; [apply Hs|exact Hx]]|].
  cbv beta. intros r k' Hk. by eapply notified_system.
Qed.

Lemma give_isr_system k t : system k -> is_Some (tcbs (k_vars k) !! t) ->
  wp (b ← vTaskGenericNotifyGiveFromISR t; portEND_SWITCHING_ISR b) (fun _ k' => system k') k.
Proof.
  intros Hs [x Hx]. eapply wp_mono; [apply (give_isr_wp k t x); [apply Hs|apply tasks_notifiable; [apply Hs|exact Hx]]|].
  cbv beta. intros r k' Hk. by eapply notified_system.
Qed.

Lemma current_waits k : system k -> pxCurrentTCB (k_vars k) <> xIdleTaskHandle (k_vars k) -> current_ready k /\ other_ready k.
Proof.
  intros Hs Hni. destruct (sy_idle _ Hs) as [p Hp]. split; [by apply (system_current_ready (D := D))|].
  by exists (xIdleTaskHandle (k_vars k)), p.
Qed.

Lemma current_spared k : system k -> ~ D (pxCurrentTCB (k_vars k)).
Proof.
  intros Hs HD. destruct (system_current _ Hs) as (x & Hx & Hc).
  destruct (sd_tasks _ (sy_sound _ Hs) _ _ _ (note_of_tcb _ _ _ Hx)) as (_ & _ & Hd). destruct (Hd HD) as [_ [Hsh _]]. congruence.
Qed.

Lemma slept_system n k k' : system k -> pxCurrentTCB (k_vars k) <> xIdleTaskHandle (k_vars k) -> dozed n k k' -> system k'.
Proof.
  intros Hs Hni [Hq Hhi Hf Hc _ _ _]. destruct (sy_idle _ Hs) as [p Hp]. pose proof (current_spared _ Hs) as Hcs.
  eapply system_frame; [done|exact Hf|done|done| |].
  - exists p. destruct Hf as [_ [_ _ _ -> _ _]]. rewrite Hc, decide_False by congruence. done.
  - intros t m s _. unfold shelved. rewrite !Hc. rewrite (decide_False (P := EventItem t = _)) by done.
    case_decide; [simplify_eq; split_and!; eauto; done|done].
Qed.

(** The running task's TCB changes in a way that does not matter here. *)
Lemma own_tcb_system k x y : system k -> tcbs (k_vars k) !! pxCurrentTCB (k_vars k) = Some x -> same_priority x y ->
  system (with_tcb (pxCurrentTCB (k_vars k)) y k).
Proof. intros Hs Hx Hp. eapply with_tcb_system; [done|exact Hx|done|]. intros _. split; [by apply (current_event (D := D))|by apply current_spared]. Qed.

Lemma take_system k n : system k -> u32_range n -> pxCurrentTCB (k_vars k) <> xIdleTaskHandle (k_vars k) ->
  wp (notify_take_wait n) (fun _ k' => system k') k.
Proof.
  intros Hs Hn Hni. destruct (system_current _ Hs) as (x & Hx & _). destruct (current_waits _ Hs Hni).
  eapply wp_mono; [apply (take_wait_wp n x); [apply Hs|done..]|]. intros [] k' [?|? ?|k2 ? ? Hsl]; [done|by eapply own_tcb_system|].
  eapply slept_system; [| |exact Hsl]; [by eapply own_tcb_system|exact Hni].
Qed.

Lemma wait_system k bits n : system k -> u32_range n -> pxCurrentTCB (k_vars k) <> xIdleTaskHandle (k_vars k) ->
  wp (notify_wait_wait bits n) (fun _ k' => system k') k.
Proof.
  intros Hs Hn Hni. destruct (system_current _ Hs) as (x & Hx & _). destruct (current_waits _ Hs Hni).
  eapply wp_mono; [apply (wait_wait_wp bits n x); [apply Hs|done..]|]. intros [] k' [?|? ?|k2 ? ? Hsl]; [done|by eapply own_tcb_system|].
  eapply slept_system; [| |exact Hsl]; [by eapply own_tcb_system|exact Hni].
Qed.

Lemma take_end_system k clear : system k -> wp (notify_take_finish clear) (fun _ k' => system k') k.
Proof.
  intros Hs. destruct (system_current _ Hs) as (x & Hx & _). eapply wp_mono; [by apply take_finish_wp|].
  intros r k' [_ ->]. by eapply own_tcb_system.
Qed.

Lemma wait_end_system k bits : system k -> wp (notify_wait_finish bits) (fun _ k' => system k') k.
Proof.
  intros Hs. destruct (system_current _ Hs) as (x & Hx & _). eapply wp_mono; [by apply wait_finish_wp|].
  intros r k' [_ ->]. eapply own_tcb_system; [done|exact Hx|]. unfold wait_ended. by destruct (_ =? _).
Qed.

Lemma state_clear_system k t : system k -> is_Some (tcbs (k_vars k) !! handle_task (k_vars k) t) ->
  wp (xTaskGenericNotifyStateClear t) (fun _ k' => system k') k.
Proof.
  intros Hs [x Hx]. eapply wp_mono; [by apply state_clear_wp|]. intros r k'. cbv beta.
  destruct (ucNotifyState x =? taskNOTIFICATION_RECEIVED); intros [_ ->]; [|done].
  eapply with_tcb_system; [done|exact Hx|done|done].
Qed.

Lemma value_clear_system k t bits : system k -> is_Some (tcbs (k_vars k) !! handle_task (k_vars k) t) ->
  wp (ulTaskGenericNotifyValueClear t bits) (fun _ k' => system k') k.
Proof.
  intros Hs [x Hx]. eapply wp_mono; [by apply value_clear_wp|]. intros r k' [_ ->].
  eapply with_tcb_system; [done|exact Hx|done|]. pose proof (sd_tasks _ (sy_sound _ Hs)) as Hok.
  destruct (tasks_notifiable _ _ _ Hok Hx) as [_ _ He]. intros E. split; [by apply He|]. by eapply waits_spared.
Qed.

(** ** Suspension *)

(** Less is known of the tasks of a smaller set. *)
Lemma system_weaken (D' : Z -> Prop) k : (forall t, D' t -> D t) -> system k -> System.system D' k.
Proof.
  intros Hsub [[Hq Hi Hqs Hg Hv Ht Hk Hsr] Hhi]. split; [|done]. split; try done; [|by auto].
  intros t n s Hn. destruct (Ht _ _ _ Hn) as (? & ? & ?). auto.
Qed.

(** The suspended task joins those of [D]. *)
Lemma suspend_system k t : system k -> is_Some (tcbs (k_vars k) !! handle_task (k_vars k) t) ->
  handle_task (k_vars k) t <> xIdleTaskHandle (k_vars k) ->
  wp (run (vTaskSuspend t)) (fun _ k' => System.system (fun u => D u \/ u = handle_task (k_vars k) t) k') k.
Proof.
  intros Hs [x Hx] Hni. destruct (sy_idle _ Hs) as [p Hp]. pose proof (sd_tasks _ (sy_sound _ Hs)) as Hok.
  destruct (tasks_notifiable _ _ _ Hok Hx) as [_ Hpl _].
  eapply wp_mono; [apply (suspend_wp_task t x); [apply Hs|apply Hs|exact Hx|exact Hpl|by exists (xIdleTaskHandle (k_vars k)), p]|].
  cbv beta. set (t' := handle_task (k_vars k) t) in *. intros [] k' [Hq Hhi [Hc Hv Hl] (cur & yp & n & b & Ev)].
  split; [|by apply Hhi, Hs]. split; [done| | | | | | |by rewrite Ev; apply Hs].
  - exists p. rewrite Ev. simpl. rewrite Hc, !decide_False by congruence. exact Hp.
  - intros q z Hz. rewrite Ev in Hz. destruct (sy_queues _ _ _ Hs Hz) as [? []]. split; [done|]. split; [by rewrite Ev|by apply Hl|by apply Hl].
  - intros e g He. rewrite Ev in He. destruct (sd_groups _ (sy_sound _ Hs) _ _ He). split; [done|by apply Hl].
  - intros u. rewrite Hv. apply (sd_values _ (sy_sound _ Hs)).
  - intros u m s. unfold note_of, shelved. rewrite Ev. simpl. rewrite !Hc. rewrite (decide_False (P := EventItem u = StateItem t')) by done.
    rewrite (decide_False (P := StateItem u = EventItem t')) by done. destruct (decide (u = t')) as [->|Hne].
    + rewrite lookup_insert_eq, !decide_True by done. intros [= _ <-]. split_and!; [eauto|done|]. intros _. split; [|done].
      unfold calmed. by destruct (Z.eqb_spec (ucNotifyState x) taskWAITING_NOTIFICATION).
    + rewrite lookup_insert_ne, !decide_False by congruence. intros Hu. destruct (Hok u m s Hu) as (? & ? & Hd).
      split_and!; [done|done|]. by intros [HD|?]; [apply Hd|].
  - intros u HD. rewrite Ev. simpl. rewrite lookup_insert. case_decide; [eauto|].
    destruct HD as [HD|?]; [by apply (sd_known _ (sy_sound _ Hs))|congruence].
Qed.

Lemma resume_system k t : system k -> ~ D t -> is_Some (tcbs (k_vars k) !! t) -> wp (vTaskResume t) (fun _ k' => system k') k.
Proof.
  intros Hs HD [x Hx]. eapply wp_mono; [by apply (resume_task_wp t x); [apply Hs|]|]. intros [] k'.
  destruct (can_resume t k); [|by intros ->]. intros Hr. by eapply roused_system.
Qed.

Lemma resume_isr_system k t : system k -> ~ D t -> is_Some (tcbs (k_vars k) !! t) ->
  wp (r ← xTaskResumeFromISR t; portEND_SWITCHING_ISR (negb (r =? pdFALSE))) (fun _ k' => system k') k.
Proof.
  intros Hs HD [x Hx]. eapply wp_mono; [by apply (resume_isr_wp t x); [apply Hs|]|]. intros [] k'.
  destruct (looks_suspended t k); [|by intros ->]. intros Hr. by eapply roused_system.
Qed.

Lemma told_note k t x : ulNotifiedValue (told k t x) = ulNotifiedValue x /\ ucNotifyState (told k t x) = ucNotifyState x.
Proof. unfold told. by destruct (cont_of _ _). Qed.

Lemma abort_system k t : system k -> is_Some (tcbs (k_vars k) !! t) -> wp (run (xTaskAbortDelay t)) (fun _ k' => system k') k.
Proof.
  intros Hs [x Hx]. destruct (sy_idle _ Hs) as [p Hp].
  eapply wp_mono; [by apply (abort_delay_wp t x); [apply Hs|apply Hs|]|].
  intros r k' (Hq & Hhi & k1 & [(_ & ->)|(_ & Hib & a' & yp & b & -> & Hw)] & Hst).
  - pose proof (suspended_settled _ _ Hst) as Hst'. destruct Hst' as [Hc Hv _ Hl (cur & y & s & Ev)].
    eapply system_frame; [exact Hs| |done|done| |by apply same_cont_stay].
    + split; [by split; auto|]. rewrite Ev. by split.
    + exists p. rewrite Ev, Hc. exact Hp.
  - destruct Hst as [Hc Hv _ Hl (cur & y & s & Ev)]. cbn [k_lists k_vars suspended] in *.
    destruct (told_note (suspended k) t x) as [E1 E2].
    eapply system_frame; [exact Hs| |done|done| |].
    + split.
      * split; [intros l; by rewrite Hl, (wk_lists _ _ _ _ Hw)|]. intros u. right. by rewrite Hv, (wk_val _ _ _ _ Hw).
      * rewrite Ev. split; try done. intros u. by eapply note_of_insert.
    + unfold idle_ready. rewrite Ev. simpl. destruct (decide (xIdleTaskHandle (k_vars k) = t)) as [->|Hne].
      * eexists. rewrite Hc. by apply (wk_yes _ _ _ _ Hw); [apply Z.eqb_refl|apply lookup_insert_eq].
      * exists p. rewrite Hc, (wk_no _ _ _ _ Hw); [done|]. apply of_task_eqb. split; congruence.
    + apply (readied_stay _ _ (Z.eqb t)).
      * intros u <-%Z.eqb_eq _. rewrite !Hc. destruct (wk_yes _ _ _ _ Hw t _ (Z.eqb_refl t) (lookup_insert_eq _ _ _)) as [-> ->]. eauto.
      * intros u <-%Z.eqb_eq HD [Hss Hse]. destruct Hib as (l & Hl' & _ & Hn). rewrite Hss in Hl'. injection Hl' as <-.
        by apply (waits_spared k t x); [apply Hs|exact Hx|apply Hn|].
      * intros i Hi. by rewrite Hc, (wk_no _ _ _ _ Hw).
Qed.

End SystemTasks.
