(* ===== verification/SystemTheorems.v ===== *)
(** * Every reachable state is well formed

    Every event of [System] keeps the invariant of the system, so it holds in
    all reachable states, none of which has a call that faults. *)

From S2P Require Import Prelude Simulation History Config ListC ListSpec ListRefine ListObs ListProps Heap4 Kernel Tasks TaskApi TaskEvents Queue EventGroups KernelRefine DriversRefine KernelInv Frames KernelSteps SchedProps ResumeProps KernelDemo SchedTheorems SuspendProps PriorityProps PriorityTheorems EventProps QueueData QueueTheorems SemaphoreTheorems BlockProps WaitTheorems NotifyProps ControlProps EventGroupProps EventGroupTheorems System SystemTasks.

(** The event does not resume a task of [D]. *)
Definition spares (D : Z -> Prop) (ev : event) : Prop :=
  match ev with Resume t | ResumeFromISR t => ~ D t | _ => True end.

(** A step that does not. *)
Definition step_sparing (D : Z -> Prop) (c c' : CK) : Prop :=
  exists ev, allowed (k_vars c) ev /\ spares D ev /\ perform ev c = Some (tt, c').

(** Nothing is known of who is suspended. *)
Notation system := (System.system nobody).
Notation sound := (System.sound nobody).

Section System.
Implicit Types (k : KA) (c : CK) (D : Z -> Prop).

(** ** All of them *)

Lemma perform_system D k ev : System.system D k -> allowed (k_vars k) ev -> spares D ev ->
  wp (perform ev) (fun _ k' => System.system D k') k.
Proof.
  intros Hs Ha Hsp. destruct ev as [| |n|q op|q op|q it pos l|q l|q l|q l|t p|e bits|n|cl|bits n|bits|t v act|t v act|t|t|t bits|t|t|t|t]; cbn [perform].
  - by eapply tick_system.
  - by eapply yield_system.
  - destruct Ha. by eapply delay_system.
  - wstep. eapply wp_mono; [by eapply queue_system|]. intros r k' ?. by wstep.
  - wstep. eapply wp_mono; [by eapply semaphore_system|]. intros r k' ?. by wstep.
  - wstep. eapply wp_mono; [by eapply send_round_system|]. intros r k' ?. by wstep.
  - wstep. eapply wp_mono; [by eapply receive_round_system|]. intros r k' ?. by wstep.
  - wstep. eapply wp_mono; [by eapply peek_round_system|]. intros r k' ?. by wstep.
  - wstep. eapply wp_mono; [by eapply take_round_system|]. intros r k' ?. by wstep.
  - destruct Ha. by eapply priority_system.
  - destruct Ha. wstep. eapply wp_mono; [by eapply bits_system|]. intros r k' ?. by wstep.
  - destruct Ha. by eapply take_system.
  - wstep. eapply wp_mono; [by eapply take_end_system|]. intros r k' ?. by wstep.
  - destruct Ha. by eapply wait_system.
  - wstep. eapply wp_mono; [by eapply wait_end_system|]. intros r k' ?. by wstep.
  - wstep. eapply wp_mono; [by eapply notify_system|]. intros r k' ?. by wstep.
  - by eapply notify_isr_system.
  - by eapply give_isr_system.
  - wstep. eapply wp_mono; [by eapply state_clear_system|]. intros r k' ?. by wstep.
  - wstep. eapply wp_mono; [by eapply value_clear_system|]. intros r k' ?. by wstep.
  - destruct Ha. eapply wp_mono; [by eapply suspend_system|]. intros [] k' Hk.
    eapply system_weaken; [|exact Hk]. intros u ?. by left.
  - by eapply resume_system.
  - by eapply resume_isr_system.
  - wstep. eapply wp_mono; [by eapply abort_system|]. intros r k' ?. by wstep.
Qed.

Lemma perform_sim ev : sim (RK rep) (perform (H := lheap item list_id) ev) (perform (H := AH) ev).
Proof.
  destruct ev as [| |n|q op|q op|q it pos l|q l|q l|q l|t p|e bits|n|cl|bits n|bits|t v act|t v act|t|t|t bits|t|t|t|t]; cbn [perform].
  - apply sim_timer_interrupt, list_c_refines.
  - apply sim_yield, list_c_refines.
  - apply psim_run, psim_vTaskDelay, list_c_refines.
  - apply sim_bind; [apply q_call_sim|intros ?; apply sim_ret].
  - apply sim_bind; [apply sem_call_sim|intros ?; apply sim_ret].
  - apply sim_bind; [apply psim_run, psim_xQueueGenericSend_iter, list_c_refines|intros ?; apply sim_ret].
  - apply sim_bind; [apply psim_run, psim_xQueueReceive_iter, list_c_refines|intros ?; apply sim_ret].
  - apply sim_bind; [apply psim_run, psim_xQueuePeek_iter, list_c_refines|intros ?; apply sim_ret].
  - apply sim_bind; [apply psim_run, psim_xQueueSemaphoreTake_iter, list_c_refines|intros ?; apply sim_ret].
  - apply sim_vTaskPrioritySet, list_c_refines.
  - apply sim_bind; [apply psim_run, psim_xEventGroupSetBits, list_c_refines|intros ?; apply sim_ret].
  - apply sim_notify_take_wait, list_c_refines.
  - apply sim_bind; [apply sim_notify_take_finish; apply _|intros ?; apply sim_ret].
  - apply sim_notify_wait_wait, list_c_refines.
  - apply sim_bind; [apply sim_notify_wait_finish; apply _|intros ?; apply sim_ret].
  - apply sim_bind; [apply sim_xTaskGenericNotify; apply _|intros ?; apply sim_ret].
  - apply sim_bind; [apply sim_xTaskGenericNotifyFromISR; apply _|intros ?; apply sim_end_switching; apply _].
  - apply sim_bind; [apply sim_vTaskGenericNotifyGiveFromISR; apply _|intros ?; apply sim_end_switching; apply _].
  - apply sim_bind; [unfold xTaskGenericNotifyStateClear; solve_sim|intros ?; apply sim_ret].
  - apply sim_bind; [unfold ulTaskGenericNotifyValueClear; solve_sim|intros ?; apply sim_ret].
  - apply psim_run, psim_vTaskSuspend, list_c_refines.
  - apply sim_vTaskResume, list_c_refines.
  - apply sim_bind; [apply sim_xTaskResumeFromISR; apply _|intros ?; apply sim_end_switching; apply _].
  - apply sim_bind; [apply psim_run, psim_xTaskAbortDelay, list_c_refines|intros ?; apply sim_ret].
Qed.

Lemma perform_code D c k ev : RK rep c k -> System.system D k -> allowed (k_vars c) ev -> spares D ev ->
  wp (perform ev) (fun _ c' => exists k', RK rep c' k' /\ System.system D k') c.
Proof.
  intros HR Hs Ha Hsp. eapply wp_transfer; [apply perform_sim|exact HR|]. apply perform_system; [done| |done].
  destruct HR as [_ E]. by rewrite <- E.
Qed.

Lemma reachable_sparing D c k c' : RK rep c k -> System.system D k -> rtc (step_sparing D) c c' ->
  exists k', RK rep c' k' /\ System.system D k'.
Proof.
  intros HR Hs Hst. revert k HR Hs. induction Hst as [c|c1 c2 c3 (ev & Ha & Hsp & E) _ IH]; intros k HR Hs; [by exists k|].
  destruct (perform_code _ _ _ _ HR Hs Ha Hsp) as ([] & c2' & E' & k2 & HR2 & Hs2). rewrite E in E'. simplify_eq. by eapply IH.
Qed.

Lemma spares_nobody ev : spares nobody ev.
Proof. destruct ev; try exact I; intros []. Qed.

Lemma step_spares_nobody c c' : step c c' -> step_sparing nobody c c'.
Proof. intros (ev & Ha & E). exists ev. split; [done|]. split; [apply spares_nobody|done]. Qed.

Lemma reachable_system c k c' : RK rep c k -> system k -> rtc step c c' ->
  exists k', RK rep c' k' /\ system k'.
Proof.
  intros HR Hs Hst. eapply reachable_sparing; [exact HR|done|]. eapply rtc_subrel; [|exact Hst]. intros c1 c2. apply step_spares_nobody.
Qed.

(** C1: in every state that ticks and calls of the tasks can lead to from a
    well-formed one, in any order, the task that runs is ready and no ready
    task is more urgent, the lists and their bitmap agree, every queue holds
    the items of a ring (or counts, as a semaphore), and the scheduler is
    running with nothing left to catch up with. *)
Theorem reachable_runs_most_urgent c k c' :
  RK rep c k -> system k -> rtc step c c' -> exists k', RK rep c' k' /\ system k'.
Proof. apply reachable_system. Qed.

(** C8: no call faults: in every such state, whatever the running task is
    allowed to ask for, and a tick, is carried out to its end without
    following a bad pointer, leaving a buffer or missing the exit of a loop,
    and leads to such a state again. *)
Theorem calls_never_fault c k c' ev :
  RK rep c k -> system k -> rtc step c c' -> allowed (k_vars c') ev ->
  on_code (perform ev) (fun _ k' => system k') c'.
Proof. intros HR Hs Hst Ha. destruct (reachable_system _ _ _ HR Hs Hst) as (k' & HR' & Hs'). by apply (perform_code nobody _ k'); [..|apply spares_nobody]. Qed.

End System.

(** ** Instances *)

(** The demo kernel with its queue, its semaphore and an event group; the most
    urgent task waits to receive from the queue. *)
Definition system_setup {H} `{!ListOps item list_id H} : M (Kernel H) unit :=
  queue_waiting;;
  wrv (fun v => set_event_groups (<[9700 := mkEventGroup 0 0]> (event_groups v)) v);;
  onlist (loInitialise (xTasksWaitingForBits 9700)).

Definition system_abs : KA := ends system_setup (mkKernel (mkAheap ∅ ∅) vars0).
Definition system_ptr : CK := ends system_setup (mkKernel (mkLheap ∅ ∅) vars0).

Definition value_check (k : KA) : bool :=
  forallb (fun p => ai_value p.2 <=? portMAX_DELAY) (map_to_list (a_items (k_lists k))).

Lemma value_check_sound k : value_check k = true -> forall i, val_of (k_lists k) i <= portMAX_DELAY.
Proof.
  intros Hc i. unfold val_of. destruct (a_items (k_lists k) !! i) as [x|] eqn:Hx; [|done]. unfold value_check in Hc.
  assert (Hin : (i, x) ∈ map_to_list (a_items (k_lists k))) by by apply elem_of_map_to_list.
  pose proof (forallb_elem _ _ Hc _ Hin) as He. by apply Z.leb_le.
Qed.

(** A property of all entries of a concrete map. *)
Lemma entries_forall {A} (m : gmap Z A) (es : list (Z * A)) (P : Z -> A -> Prop) :
  map_to_list m = es -> Forall (fun e => P e.1 e.2) es -> forall i x, m !! i = Some x -> P i x.
Proof.
  intros <- Hall i x Hx%elem_of_map_to_list. by apply (proj1 (Forall_forall _ _) Hall (i, x)).
Qed.

Lemma system_related : RK rep system_ptr system_abs.
Proof.
  apply ends_related; [|apply start_related|by vm_compute]. apply sim_bind.
  - apply sim_bind; [apply queue_setup_sim|intros []]. repeat sim_step. apply psim_run, psim_xQueueReceive_iter, list_c_refines.
  - intros []. apply sim_bind; [apply sim_wrv|intros []]. apply sim_onlist, lr_initialise.
Qed.

(** Every task is in a list, and in no event list if it waits for a
    notification. *)
Definition tasks_check (k : KA) : bool :=
  forallb (fun p =>
    negb (bool_decide (cont_of (k_lists k) (StateItem p.1) = None)) &&
    (negb (awaits_note p.2) || bool_decide (cont_of (k_lists k) (EventItem p.1) = None))) (map_to_list (tcbs (k_vars k))).

Lemma tasks_check_sound k : tasks_check k = true -> tasks_ok nobody k.
Proof.
  intros Hc t n s. unfold note_of. destruct (tcbs (k_vars k) !! t) as [x|] eqn:Hx; [|done]. intros [= _ <-].
  assert (Hin : (t, x) ∈ map_to_list (tcbs (k_vars k))) by by apply elem_of_map_to_list.
  pose proof (forallb_elem _ _ Hc _ Hin) as [Hs He]%andb_prop. cbn [fst snd] in Hs, He. split; [|split; [|by intros []]].
  - apply negb_true_iff, bool_decide_eq_false in Hs. destruct (cont_of _ _); [eauto|done].
  - intros E. unfold awaits_note in He. rewrite E, Z.eqb_refl in He. by apply bool_decide_eq_true in He.
Qed.

(** The parts of the invariant that can be computed. *)
Definition system_check (k : KA) : bool :=
  let v := k_vars k in
  kinv_check k && pend_check k && value_check k && tasks_check k && negb (xSchedulerRunning v =? pdFALSE) &&
  bool_decide (uxSchedulerSuspended v = 0 /\ xPendedTicks v = 0 /\ 0 < uxCurrentNumberOfTasks v) &&
  bool_decide (items_of (k_lists k) xPendingReadyList = []) &&
  match tcbs v !! pxCurrentTCB v with
  | Some x => bool_decide (cont_of (k_lists k) (StateItem (pxCurrentTCB v)) = Some (Ready (uxPriority x))) && max_check k (uxPriority x)
  | None => false
  end &&
  match cont_of (k_lists k) (StateItem (xIdleTaskHandle v)) with Some (Ready _) => true | _ => false end.

Lemma checked_system k : system_check k = true ->
  (forall q x, queues (k_vars k) !! q = Some x -> queue_ok x /\ has_queue q x k) ->
  (forall e g, event_groups (k_vars k) !! e = Some g -> u32_range (uxEventBits g) /\ is_Some (a_lists (k_lists k) !! xTasksWaitingForBits e)) ->
  system k.
Proof.
  unfold system_check. rewrite !andb_true_iff, !bool_decide_eq_true. intros [[[[[[[[Hi Hp] Hv] Ht] Hrun] (Hs & Hpd & Hn)] He] Hc] Hidle] Hq Hg.
  destruct (tcbs (k_vars k) !! pxCurrentTCB (k_vars k)) as [x|] eqn:Hx; [|done]. apply andb_true_iff in Hc as [Hc%bool_decide_eq_true Hm].
  split; [|exists x; split; [done|]; split; [done|]; by apply max_check_sound]. split; [split|..]; try done.
  - split; [by apply kinv_check_sound|by apply pend_check_sound|do 2 eexists; exact Hc|done].
  - unfold idle_ready. revert Hidle. destruct (cont_of _ (StateItem (xIdleTaskHandle _))) as [[]|]; try done. intros _. by eexists.
  - intros t. by apply value_check_sound.
  - by apply tasks_check_sound.
  - by apply negb_true_iff, Z.eqb_neq in Hrun.
Qed.

Lemma system_demo : system system_abs.
Proof.
  apply checked_system; [by vm_compute|..].
  - eapply entries_forall; [vm_compute; reflexivity|].
    constructor; [|constructor; [|constructor]]; cbn [fst snd]; (split; [|split; vm_compute; eauto]).
    + split; [by split|]. right. left. exists 0. split; simpl; unfold u32_modulus; try lia; discriminate.
    + split; [by split|]. left. exists []. exact empty_queue_ring.
  - eapply entries_forall; [vm_compute; reflexivity|]. constructor; [|constructor]. cbn [fst snd].
    split; [split; simpl; unfold u32_modulus; lia|vm_compute; eauto].
Qed.

(** A task sends to the queue, which wakes the waiting one; that one delays
    itself; a tick comes. *)
Definition demo_sent : CK := ends (perform (UseQueue 9000 (QSend [1; 2; 3; 4] queueSEND_TO_BACK))) system_ptr.
Definition demo_delayed : CK := ends (perform (Delay 5)) demo_sent.
Definition demo_ticked : CK := ends (perform Tick) demo_delayed.

Lemma performed ev (c : CK) : allowed (k_vars c) ev -> bool_decide (is_Some (perform ev c)) = true ->
  step c (ends (perform ev) c).
Proof.
  intros Ha [[[] c'] E]%bool_decide_eq_true. exists ev. split; [done|]. unfold ends. by rewrite E.
Qed.

Lemma demo_steps : rtc step system_ptr demo_ticked.
Proof.
  eapply rtc_l; [apply (performed (UseQueue 9000 (QSend [1; 2; 3; 4] queueSEND_TO_BACK)))|].
  - exists empty_queue. split; [vm_compute; reflexivity|]. split; [by vm_compute|]. split; [by vm_compute|by left].
  - by vm_compute.
  - eapply rtc_l; [apply (performed (Delay 5))|].
    + split; [unfold u32_range, u32_modulus; lia|]. vm_compute. discriminate.
    + by vm_compute.
    + eapply rtc_l; [apply (performed Tick); [exact I|by vm_compute]|]. apply rtc_refl.
Qed.

Lemma reachable_runs_most_urgent_witness :
  exists k', RK rep demo_ticked k' /\ system k' /\ pxCurrentTCB (k_vars k') = 2000.
Proof.
  destruct (reachable_runs_most_urgent system_ptr system_abs demo_ticked) as (k' & HR & Hs).
  - exact system_related.
  - exact system_demo.
  - exact demo_steps.
  - exists k'. split; [exact HR|]. split; [exact Hs|]. destruct HR as [_ <-]. vm_compute. reflexivity.
Defined.

Lemma calls_never_fault_witness : on_code (perform (SetBits 9700 3)) (fun _ k' => system k') demo_ticked.
Proof.
  apply (calls_never_fault system_ptr system_abs demo_ticked (SetBits 9700 3)).
  - exact system_related.
  - exact system_demo.
  - exact demo_steps.
  - split; [vm_compute; eauto|unfold u32_range, u32_modulus; lia].
Defined.
