(* ===== verification/SleepProps.v ===== *)
(** * Sleeping through ticks

    A task that waits stays where it is through the ticks before its time is
    up, and is ready after the last one; whether it also waits for an event
    makes no difference to that. *)

From S2P Require Import Prelude Simulation History Config ListC ListSpec ListRefine ListObs ListProps Heap4 Kernel Tasks TaskApi TaskEvents Queue KernelRefine DriversRefine KernelInv Frames KernelSteps SchedProps ResumeProps KernelDemo SchedTheorems SuspendProps PriorityProps PriorityTheorems TimeoutTheorems EventProps QueueData QueueTheorems SemaphoreTheorems BlockProps WaitTheorems NotifyProps ControlProps System SystemTasks SystemTheorems.

Section Sleep.
Implicit Types (k : KA).

(** [t] is more urgent than all other tasks. *)
Definition most_urgent t k : Prop := exists y, tcbs (k_vars k) !! t = Some y /\
  forall u z, u <> t -> tcbs (k_vars k) !! u = Some z -> uxPriority z < uxPriority y.

Lemma most_urgent_runs t y k : kinv k -> runs_highest k -> most_urgent t k -> tcbs (k_vars k) !! t = Some y ->
  cont_of (k_lists k) (StateItem t) = Some (Ready (uxPriority y)) -> pxCurrentTCB (k_vars k) = t.
Proof.
  intros Hinv (z & Hz & Hc & Hmax) (y' & Hy' & Hlt) Hy Ht. simplify_eq. destruct (decide (pxCurrentTCB (k_vars k) = t)) as [|Hne]; [done|].
  pose proof (Hlt _ _ Hne Hz). pose proof (Hmax _ _ Ht). lia.
Qed.

(** [t] waits, for [n] more ticks. *)
Definition asleep t (n : Z) k : Prop :=
  n = portMAX_DELAY /\ cont_of (k_lists k) (StateItem t) = Some xSuspendedTaskList \/
  0 < n < portMAX_DELAY /\ still_waiting k t (xTickCount (k_vars k) +u n).

(** [t] waits in the list [l], alone, and for [n] more ticks. *)
Record sleeps t l n k : Prop := {
  sl_alone i : cont_of (k_lists k) i = Some l <-> i = EventItem t;
  sl_time : asleep t n k
}.

Definition ticks_left (n : Z) (m : nat) : Z := if n =? portMAX_DELAY then n else n - Z.of_nat m.

Lemma alone_items t l k : kinv k -> (forall i, cont_of (k_lists k) i = Some l <-> i = EventItem t) -> items_of (k_lists k) l = [EventItem t].
Proof.
  intros Hinv Ha. pose proof (kc_wf _ _ (ki_core _ Hinv)) as Hwf. pose proof (awf_nodup _ Hwf l) as Hnd.
  assert (Hm : forall i, i ∈ items_of (k_lists k) l <-> i = EventItem t) by (intros i; by rewrite (awf_mem _ Hwf), Ha).
  destruct (items_of (k_lists k) l) as [|i [|j xs]]; [|f_equal; apply Hm; set_solver|].
  - by assert (EventItem t ∈ @nil item) as ?%elem_of_nil by by apply Hm.
  - assert (i = EventItem t) as -> by (apply Hm; set_solver). assert (j = EventItem t) as -> by (apply Hm; set_solver).
    apply NoDup_cons in Hnd as [Hnd _]. set_solver.
Qed.

(** A task that has just been put to sleep. *)
Lemma parked_asleep t n k k' w : cont_of (k_lists k') (StateItem t) = Some (wait_list (k_vars k) n (waits_forever n)) ->
  val_of (k_lists k') (StateItem t) = (if waits_forever n then w else xTickCount (k_vars k) +u n) ->
  cont_of (k_lists k') (EventItem t) <> Some xPendingReadyList ->
  xTickCount (k_vars k') = xTickCount (k_vars k) ->
  pxDelayedTaskList (k_vars k') = pxDelayedTaskList (k_vars k) ->
  pxOverflowDelayedTaskList (k_vars k') = pxOverflowDelayedTaskList (k_vars k) ->
  u32_range n -> n <> 0 -> asleep t n k'.
Proof.
  unfold waits_forever, wait_list. intros Hc Hv He Et Ed Eo Hn Hn0.
  destruct (Z.eqb_spec n portMAX_DELAY) as [->|Hne]; [by left|]. right. unfold portMAX_DELAY in *. split; [u32_lia|].
  split; [|done]. split; [|by rewrite Hv, Et]. rewrite Hc, Ed, Eo. destruct (_ <? _); [by right|by left].
Qed.

Lemma went_sleeps l n k k' : quiet k' -> l <> xPendingReadyList -> u32_range n -> n <> 0 -> items_of (k_lists k) l = [] ->
  went_to_wait l n k k' -> sleeps (pxCurrentTCB (k_vars k)) l n k'.
Proof.
  intros Hq Hnp Hn Hn0 He [_ _ _ Hco Hva Hit (Et & _ & Ed & Eo) _]. pose proof (ki_core _ (rn_inv _ (qt_running _ Hq))) as HK'. split.
  - intros i. rewrite <- (awf_mem _ (kc_wf _ _ HK')), Hit, He. simpl. set_solver.
  - eapply parked_asleep; [by rewrite Hco, decide_False, decide_True|by rewrite Hva, decide_True| |done..].
    rewrite Hco, decide_True by done. congruence.
Qed.

Lemma dozed_asleep n k k' : cont_of (k_lists k) (EventItem (pxCurrentTCB (k_vars k))) = None -> u32_range n -> n <> 0 ->
  dozed n k k' -> asleep (pxCurrentTCB (k_vars k)) n k'.
Proof.
  intros He Hn Hn0 [_ _ _ Hco Hva (Et & _ & Ed & Eo) _].
  eapply parked_asleep; [by rewrite Hco, decide_True|by rewrite Hva, decide_True| |done..].
  by rewrite Hco, decide_False, He.
Qed.

(** A tick before the last one passes it by. *)
Lemma asleep_not_due t n k : running k -> asleep t n k -> n <> 1 -> ~ waiting k t (xTickCount (k_vars k) +u 1).
Proof.
  intros Hrun Ha Hn1 [Hw Hv]. destruct Ha as [[_ Hc]|[Hn [[_ Hv'] _]]].
  - destruct (kc_delayed _ _ (ki_core _ (rn_inv _ Hrun))) as [[E1 E2]|[E1 E2]]; rewrite E1, E2, Hc in Hw; by destruct Hw.
  - rewrite Hv' in Hv. unfold portMAX_DELAY in *. pose proof (kt_tick _ (ki_time _ (rn_inv _ Hrun))).
    apply u32_add_inj in Hv; u32_lia.
Qed.

Lemma tick_asleep t n k k' : running k -> interrupted k k' -> asleep t n k -> n <> 1 -> asleep t (ticks_left n 1) k'.
Proof.
  intros Hrun Hi Ha Hn1. pose proof (asleep_not_due _ _ _ Hrun Ha Hn1) as Hnw. unfold ticks_left.
  destruct Ha as [[-> Hc]|[Hn Hw]].
  - left. rewrite Z.eqb_refl. split; [done|]. destruct (it_others _ _ Hi t Hnw) as [-> _]. done.
  - right. rewrite (proj2 (Z.eqb_neq n _)) by lia. split; [lia|]. rewrite (it_tick _ _ Hi), u32_add_add.
    replace (1 + (n - Z.of_nat 1)) with n by lia. apply (it_wait _ _ Hi _ _ Hw).
    unfold portMAX_DELAY in *. pose proof (kt_tick _ (ki_time _ (rn_inv _ Hrun))). intros E. apply u32_add_inj in E; u32_lia.
Qed.

Lemma tick_sleeps t l n k k' : running k -> running k' -> is_event_list l = true -> interrupted k k' ->
  sleeps t l n k -> n <> 1 -> sleeps t l (ticks_left n 1) k'.
Proof.
  intros Hrun Hrun' Hl Hi Hsl Hn1. pose proof (ki_core _ (rn_inv _ Hrun)) as HK. pose proof (ki_core _ (rn_inv _ Hrun')) as HK'.
  pose proof (asleep_not_due _ _ _ Hrun (sl_time _ _ _ _ Hsl) Hn1) as Hnw.
  split; [|by eapply tick_asleep; [..|exact (sl_time _ _ _ _ Hsl)|]].
  intros i. rewrite <- (sl_alone _ _ _ _ Hsl). destruct i as [u|u|u].
  - split; intros Hc; exfalso; [destruct (kc_state _ _ HK' _ _ Hc) as [_ Hs]|destruct (kc_state _ _ HK _ _ Hc) as [_ Hs]]; by destruct l.
  - destruct (wakes_at k (xTickCount (k_vars k) +u 1) u) eqn:E.
    + apply wakes_at_waiting in E. assert (u <> t) by (by intros ->). assert (is_Some (tcbs (k_vars k) !! u)) as [x Hx].
      { destruct E as [[Hw|Hw] _]; by apply (kc_state _ _ HK) in Hw as [? _]. }
      destruct (it_wakes _ _ Hi _ _ E Hx) as [_ ->]. split; [done|]. intros [= ?]%(sl_alone _ _ _ _ Hsl). done.
    + destruct (it_others _ _ Hi u) as [_ ->]; [intros Hw%wakes_at_waiting; congruence|done].
  - split; intros Hc; exfalso; [apply (kc_timer _ _ HK') in Hc|apply (kc_timer _ _ HK) in Hc]; by destruct l.
Qed.

(** What a tick before the last one keeps, several of them keep. *)
Lemma ticks_through (I : Z -> KA -> Prop) m :
  (forall k k' n, system k -> system k' -> interrupted k k' -> I n k -> n <> 1 -> I (ticks_left n 1) k') ->
  (forall k n, I n k -> n <= portMAX_DELAY) -> forall k n, system k -> I n k -> n = portMAX_DELAY \/ Z.of_nat m < n ->
  wp (interrupts m) (fun _ k' => system k' /\ frame k k' /\ tcbs (k_vars k') = tcbs (k_vars k) /\ I (ticks_left n m) k' /\
    still_ready k k') k.
Proof.
  intros Hstep Hmax. induction m as [|m IH]; intros k n Hs HI Hm; simpl.
  - wstep. split_and!; try done; [|by intros u p]. unfold ticks_left. case_match; [done|]. by rewrite Z.sub_0_r.
  - wstep. eapply wp_mono; [by eapply system_tick_wp|]. intros [] k1 (Hs1 & Hf1 & Hi1).
    assert (HI1 : I (ticks_left n 1) k1).
    { apply (Hstep k k1); try done. intros ->. destruct Hm as [Hm|Hm]; [done|lia]. }
    eapply wp_mono; [apply (IH k1 (ticks_left n 1) Hs1 HI1)|].
    + unfold ticks_left. destruct (Z.eqb_spec n portMAX_DELAY); [by left|right; lia].
    + intros [] k2 (Hs2 & Hf2 & Ht2 & HI2 & Hr2). split_and!; [done|by etrans|by rewrite Ht2, (it_tcbs _ _ Hi1)| |].
      2: { intros u p Hu. apply Hr2. by apply (tick_ready _ _ (qt_running _ (sy_quiet _ Hs)) Hi1). }
      replace (ticks_left n (S m)) with (ticks_left (ticks_left n 1) m); [done|]. unfold ticks_left.
      destruct (Z.eqb_spec n portMAX_DELAY) as [->|Hne]; [by rewrite Z.eqb_refl|]. destruct (Z.eqb_spec (n - Z.of_nat 1) portMAX_DELAY); [|lia].
      pose proof (Hmax _ _ HI). lia.
Qed.

Lemma asleep_max t k n : asleep t n k -> n <= portMAX_DELAY.
Proof. intros [[-> _]|[? _]]; lia. Qed.

Lemma asleep_through t m k n : system k -> asleep t n k -> n = portMAX_DELAY \/ Z.of_nat m < n ->
  wp (interrupts m) (fun _ k' => system k' /\ frame k k' /\ tcbs (k_vars k') = tcbs (k_vars k) /\ asleep t (ticks_left n m) k' /\
    still_ready k k') k.
Proof.
  apply (ticks_through (fun n k => asleep t n k)); [|intros ??; apply asleep_max].
  intros k1 k2 n' Hs1 Hs2 Hi. apply tick_asleep; [apply (qt_running _ (sy_quiet _ Hs1))|done].
Qed.

Lemma sleeps_through t l m : is_event_list l = true -> forall k n, system k -> sleeps t l n k ->
  n = portMAX_DELAY \/ Z.of_nat m < n ->
  wp (interrupts m) (fun _ k' => system k' /\ frame k k' /\ tcbs (k_vars k') = tcbs (k_vars k) /\ sleeps t l (ticks_left n m) k' /\
    still_ready k k') k.
Proof.
  intros Hl. apply (ticks_through (fun n k => sleeps t l n k)).
  - intros k1 k2 n' Hs1 Hs2 Hi. apply tick_sleeps; [apply (qt_running _ (sy_quiet _ Hs1))|apply (qt_running _ (sy_quiet _ Hs2))|done..].
  - intros k n []. by eapply asleep_max.
Qed.

(** The last tick makes it ready. *)
Lemma asleep_until t m : forall k T, system k -> asleep t (Z.of_nat (S m)) k ->
  Z.of_nat (S m) < portMAX_DELAY -> clock k T ->
  wp (interrupts (S m)) (fun _ k' => system k' /\ frame k k' /\ tcbs (k_vars k') = tcbs (k_vars k) /\ clock k' (T + Z.of_nat (S m)) /\
    exists y, tcbs (k_vars k') !! t = Some y /\ cont_of (k_lists k') (StateItem t) = Some (Ready (uxPriority y))) k.
Proof.
  induction m as [|m IH]; intros k T Hs Hsl Hm Hclk; cbn [interrupts]; wstep;
    (eapply wp_mono; [by eapply system_tick_wp|]); intros [] k1 (Hs1 & Hf1 & Hi1).
  - wstep. destruct Hsl as [[E _]|[_ [Hw _]]]; [done|].
    assert (is_Some (tcbs (k_vars k) !! t)) as [x Hx].
    { destruct Hw as [[Hc|Hc] _]; by apply (kc_state _ _ (ki_core _ (rn_inv _ (qt_running _ (sy_quiet _ Hs))))) in Hc as [? _]. }
    split_and!; [done|done|apply (it_tcbs _ _ Hi1)|by apply (it_clock _ _ Hi1)|]. exists x. rewrite (it_tcbs _ _ Hi1).
    split; [done|]. by apply (it_wakes _ _ Hi1).
  - assert (Hsl1 : asleep t (Z.of_nat (S m)) k1).
    { replace (Z.of_nat (S m)) with (ticks_left (Z.of_nat (S (S m))) 1).
      - eapply tick_asleep; [apply (qt_running _ (sy_quiet _ Hs))|done..|lia].
      - unfold ticks_left. destruct (Z.eqb_spec (Z.of_nat (S (S m))) portMAX_DELAY); lia. }
    eapply wp_mono; [apply (IH k1 (T + 1) Hs1 Hsl1); [lia|by apply (it_clock _ _ Hi1)]|].
    intros [] k2 (Hs2 & Hf2 & Ht2 & Hc2 & Hy2). split_and!; [done|by etrans|by rewrite Ht2, (it_tcbs _ _ Hi1)| |done].
    by replace (T + Z.of_nat (S (S m))) with (T + 1 + Z.of_nat (S m)) by lia.
Qed.

(** Only priorities matter. *)
Lemma priorities_urgent t k k' : (forall u, uxPriority <$> tcbs (k_vars k') !! u = uxPriority <$> tcbs (k_vars k) !! u) ->
  most_urgent t k -> most_urgent t k'.
Proof.
  intros Hp (y & Hy & Hlt). pose proof (Hp t) as Ht. rewrite Hy in Ht. destruct (tcbs (k_vars k') !! t) as [y'|] eqn:Hy'; [|done].
  injection Ht as Ep. exists y'. split; [done|]. intros u z' Hu Hz'. pose proof (Hp u) as Ez. rewrite Hz' in Ez.
  destruct (tcbs (k_vars k) !! u) as [z|] eqn:Hz; [|done]. injection Ez as Ez. rewrite Ez, Ep. by apply (Hlt u).
Qed.

Lemma insert_priorities (m : gmap Z TCB_t) t x y u : m !! t = Some x -> uxPriority y = uxPriority x ->
  uxPriority <$> <[t := y]> m !! u = uxPriority <$> m !! u.
Proof.
  intros Hx Hp. destruct (decide (t = u)) as [->|Hne]; [rewrite lookup_insert_eq, Hx; simpl; by rewrite Hp|by rewrite lookup_insert_ne].
Qed.

Lemma went_urgent l n t k k' : went_to_wait l n k k' -> most_urgent t k -> most_urgent t k'.
Proof.
  intros [_ _ _ _ _ _ _ (z & Hz & Et)]. apply priorities_urgent. intros u. rewrite Et. by eapply insert_priorities.
Qed.

Lemma dozed_urgent n t k k' : dozed n k k' -> most_urgent t k -> most_urgent t k'.
Proof.
  intros [_ _ _ _ _ _ (z & Hz & Et)]. apply priorities_urgent. intros u. rewrite Et. by eapply insert_priorities.
Qed.

Lemma same_urgent t k k' : tcbs (k_vars k') = tcbs (k_vars k) -> most_urgent t k -> most_urgent t k'.
Proof. unfold most_urgent. by intros ->. Qed.

Lemma system_most_urgent t y k : system k -> most_urgent t k -> tcbs (k_vars k) !! t = Some y ->
  cont_of (k_lists k) (StateItem t) = Some (Ready (uxPriority y)) -> pxCurrentTCB (k_vars k) = t.
Proof. intros Hs. eapply most_urgent_runs; [apply (rn_inv _ (qt_running _ (sy_quiet _ Hs)))|apply Hs]. Qed.

End Sleep.
