(* ===== verification/HandoverTheorems.v ===== *)
(** * A task waits for another

    A task that asks an empty queue for an item goes to sleep in the queue's
    list.  It sleeps through the ticks before its time-out; it runs again
    when another task sends, and its next round returns that item, or when
    its time is up, and its next round reports an empty queue. *)

From S2P Require Import Prelude Simulation History Config ListC ListSpec ListRefine ListObs ListProps Heap4 Kernel Tasks TaskApi TaskEvents Queue KernelRefine DriversRefine KernelInv Frames KernelSteps SchedProps ResumeProps KernelDemo SchedTheorems SuspendProps PriorityProps PriorityTheorems TimeoutTheorems EventProps QueueData QueueTheorems SemaphoreTheorems BlockProps WaitTheorems NotifyProps ControlProps System SystemTasks SystemTheorems SleepProps.

(** The locals of a blocking function at its entry. *)
Definition entering (n : Z) : q_locals := mkLocals n None pdFALSE.

Definition q_result : Type := q_locals + (Z * list Z).

Section Scripts.
Context {H : Type} `{!ListOps item list_id H}.
Notation K := (Kernel H).

(** The next round of xQueueReceive, if there is to be one. *)
Definition again (q : Z) (r : q_result) : M K q_result :=
  match r with inl l => run (xQueueReceive_iter q l) | inr _ => mret r end.

(** A task asks for an item; [m] ticks later whichever task then runs sends one. *)
Definition hand_over (q n : Z) (m : nat) (it : list Z) (l : q_locals) : M K ((q_locals + Z) * Z * q_result) :=
  r ← run (xQueueReceive_iter q (entering n)); interrupts m;;
  s ← run (xQueueGenericSend_iter q it queueSEND_TO_BACK l); t ← rdv pxCurrentTCB;
  r' ← again q r; mret (s, t, r').

(** A task asks for an item, and none comes. *)
Definition time_out (q n : Z) : M K (Z * q_result) :=
  r ← run (xQueueReceive_iter q (entering n)); interrupts (Z.to_nat n);; t ← rdv pxCurrentTCB; r' ← again q r; mret (t, r').
End Scripts.

Section Handover.
Implicit Types (k : KA) (c : CK) (x : Queue_t).

(** The running task may ask the empty queue [q] and wait [n] ticks for an
    item. *)
Record asks (q : Z) x (n : Z) k : Prop := {
  as_system : system k;
  as_not_idle : pxCurrentTCB (k_vars k) <> xIdleTaskHandle (k_vars k);
  as_queue : queues (k_vars k) !! q = Some x;
  as_items : 0 < uxItemSize x;
  as_empty : uxMessagesWaiting x = 0;
  as_fresh y : tcbs (k_vars k) !! pxCurrentTCB (k_vars k) = Some y -> ucDelayAborted y = pdFALSE;
  as_ticks : u32_range n /\ n <> 0;
  as_between : between_calls (k_vars k)
}.

Lemma empty_ring k q x : system k -> queues (k_vars k) !! q = Some x -> 0 < uxItemSize x -> uxMessagesWaiting x = 0 ->
  has_queue q x k /\ unlocked x /\ ring x [].
Proof.
  intros Hs Hx Hsz He. destruct (items_ring k q (fun _ => True) Hs) as (x' & xs & _ & Hq & Hu & Hr); [by exists x|].
  pose proof (hq_queue _ _ _ Hq) as Hx'. simplify_eq. pose proof (rg_count _ _ Hr). destruct xs; [done|simpl in *; lia].
Qed.

Lemma asks_wait q x n k : asks q x n k -> can_wait q x k /\ ring x [].
Proof.
  intros []. destruct (empty_ring k q x) as (Hq & Hu & Hr); [done..|]. split; [by eapply system_can_wait|done].
Qed.

(** The steps up to the look at a time-out that has just begun. *)
Lemma lock_and_check_now_wp {A} q x l (f : bool * q_locals -> prog KA A) (Q : A -> KA -> Prop) k : quiet k ->
  queues (k_vars k) !! q = Some x -> unlocked x -> u32_range (l_ticks l) -> l_ticks l <> 0 ->
  l_timeout l = Some (entry_time k) ->
  (forall y, tcbs (k_vars k) !! pxCurrentTCB (k_vars k) = Some y -> ucDelayAborted y = pdFALSE) ->
  wp (run (f (false, l))) Q (locked_at q x k) ->
  wp (run (atomic vTaskSuspendAll;; atomic (prvLockQueue q);; r ← atomic (check_timeout l); f r)) Q k.
Proof.
  intros Hq Hx Hu Hr Hn Hto Hab HQ. destruct (kc_cur _ _ (ki_core _ (rn_inv _ (qt_running _ Hq)))) as [y Hy].
  apply wp_run_bind, wp_run_atomic, suspend_wp; [apply Hq|].
  apply wp_run_bind, wp_run_atomic. eapply lock_wp; [exact Hx|done|]. apply wp_run_bind, wp_run_atomic.
  eapply wp_mono; [apply (check_now_wp _ y); [exact Hy|by apply Hab|done|done|exact Hto]|]. by intros r kc [-> ->].
Qed.

Lemma receive_blocks_wp q x n k : asks q x n k -> wp (run (xQueueReceive_iter q (entering n)))
  (fun r k' => r = inl (started (entering n) k) /\ went_to_wait (xTasksWaitingToReceive q) n k k') k.
Proof.
  intros Ha. destruct (asks_wait _ _ _ _ Ha) as [[Hq Hhi Hcur Hoth Hx Hu Hval] Hr]. pose proof Ha as [_ _ _ _ He Hab [Hn Hn0] _].
  unfold xQueueReceive_iter. apply wp_run_bind, wp_run_atomic. unfold receive_try. wstep. eapply wp_rd_queue; [apply Hx|].
  rewrite He. cbn [Z.ltb Z.compare]. apply receive_or_wait_wp; [done|]. intros _. cbn [started entering].
  apply (lock_and_check_now_wp q x); [done|apply Hx|done|done|done|done|exact Hab|].
  eapply wp_run_read; [eapply is_empty_wp, lookup_with_queue|].
  change (uxMessagesWaiting (locked x)) with (uxMessagesWaiting x). rewrite He. cbn [Z.eqb].
  apply (block_wp q x _ _ _ k); try done; apply Hx.
Qed.

Lemma asks_system q x n k k' : asks q x n k -> went_to_wait (xTasksWaitingToReceive q) n k k' -> system k'.
Proof.
  intros Ha Hw. apply (unsuccessful_system (xTasksWaitingToReceive q) (errQUEUE_EMPTY, @nil Z) k (inl (started (entering n) k)));
    [apply Ha..|]. apply round_waits; [exact Hw|]. apply started_waits; apply Ha.
Qed.

(** ** Sleeping *)

(** After the first round and the ticks. *)
Record slept q n m k k' : Prop := {
  sp_system : system k';
  sp_frame : frame k k';
  sp_urgent : most_urgent (pxCurrentTCB (k_vars k)) k';
  sp_sleeps : sleeps (pxCurrentTCB (k_vars k)) (xTasksWaitingToReceive q) (ticks_left n m) k'
}.

Lemma asked_and_slept {A} q x n m (f : q_result -> M KA A) Q k : asks q x n k -> items_of (k_lists k) (xTasksWaitingToReceive q) = [] ->
  most_urgent (pxCurrentTCB (k_vars k)) k -> n = portMAX_DELAY \/ Z.of_nat m < n ->
  (forall k', slept q n m k k' -> wp (f (inl (started (entering n) k))) Q k') ->
  wp (r ← run (xQueueReceive_iter q (entering n)); interrupts m;; f r) Q k.
Proof.
  intros Ha He Hu Hm HQ. wstep. eapply wp_mono; [by apply (receive_blocks_wp q x)|]. intros r k1 [-> Hw].
  pose proof (asks_system _ _ _ _ _ Ha Hw) as Hs1. pose proof (went_sleeps (xTasksWaitingToReceive q) _ _ _ (sy_quiet _ Hs1) ltac:(done) (proj1 (as_ticks _ _ _ _ Ha)) (proj2 (as_ticks _ _ _ _ Ha)) He Hw) as Hsl.
  wstep. eapply wp_mono; [exact (sleeps_through _ (xTasksWaitingToReceive q) m eq_refl _ _ Hs1 Hsl Hm)|]. intros [] k2 (Hs2 & Hf2 & Ht2 & Hsl2 & _). apply HQ.
  split; [done|etrans; [exact (ww_frame _ _ _ _ Hw)|done]|by eapply same_urgent, went_urgent|done].
Qed.

(** What the sender leaves behind, and the next round of the receiver. *)
Lemma sent_and_received q x l0 k : system k -> pxCurrentTCB (k_vars k) <> xIdleTaskHandle (k_vars k) -> forall y xs,
  queues (k_vars k) !! q = Some x -> ring x (y :: xs) -> unlocked x -> u32_range (l_ticks l0) ->
  wp (run (xQueueReceive_iter q l0)) (fun r k' => r = inr (pdPASS, y) /\ system k' /\
    exists x', queues (k_vars k') !! q = Some x' /\ ring x' xs) k.
Proof.
  intros Hs Hni y xs Hx Hr Hu Hl. assert (Hq : has_queue q x k) by by apply (sy_queues _ _ _ Hs).
  eapply wp_mono; [apply (receive_round_wp q x (y :: xs)); [by eapply system_can_wait|done|done]|].
  intros r k' (-> & x' & Hsq & Hr' & Hsv). split; [done|]. split; [by eapply served_system; [| | | |left; eauto| |exact Hsv]|].
  exists x'. split; [|done]. by eapply hq_queue, served_has, with_queue_has.
Qed.

Lemma frame_queue q x k k' : frame k k' -> has_queue q x k -> has_queue q x k'.
Proof. intros [[Hl _] [Eq _ _ _]] []. split; [by rewrite Eq|by apply Hl|by apply Hl]. Qed.

Lemma hand_over_wp q x n m it l k : asks q x n k -> items_of (k_lists k) (xTasksWaitingToReceive q) = [] ->
  most_urgent (pxCurrentTCB (k_vars k)) k -> n = portMAX_DELAY \/ Z.of_nat m < n -> uxItemSize x <= Z.of_nat (length it) ->
  wp (hand_over q n m it l) (fun r k' =>
    r = (inr pdPASS, pxCurrentTCB (k_vars k), inr (pdPASS, take (Z.to_nat (uxItemSize x)) it)) /\ system k' /\
    exists x', queues (k_vars k') !! q = Some x' /\ ring x' []) k.
Proof.
  intros Ha He Hu Hm Hit. destruct (asks_wait _ _ _ _ Ha) as [Hcw Hr]. unfold hand_over.
  apply (asked_and_slept q x n m); [done..|]. intros k2 [Hs2 Hf2 Hu2 Hsl2]. set (t := pxCurrentTCB (k_vars k)) in *.
  pose proof (rn_inv _ (qt_running _ (sy_quiet _ Hs2))) as Hinv2.
  pose proof (frame_queue _ _ _ _ Hf2 (cw_queue _ _ _ Hcw)) as Hq2. pose proof (alone_items _ _ _ Hinv2 (sl_alone _ _ _ _ Hsl2)) as Hi2.
  wstep. apply wp_run_bind, wp_run_atomic. eapply wp_mono.
  { apply (send_room_wp q x []); [apply (qt_running _ (sy_quiet _ Hs2))|done|done| |done].
    left. split; [by left|]. apply (rg_n _ _ Hr). }
  intros s k3 (-> & x3 & Hsq3 & Hr3 & Hsv3). apply wp_run_ret. apply wp_bind, wp_rdv, wp_bind. cbn [again].
  assert (Hs3 : system k3) by (eapply (served_system k2 q x x3 (xTasksWaitingToReceive q)); [done|done|apply Hcw|done|left; eauto|reflexivity|exact Hsv3]).
  destruct Hu2 as (y & Hy & Hlt). destruct (sv_wakes _ _ _ Hsv3 t [] y Hi2 Hy) as [Hc3 _].
  destruct (sv_vars _ _ _ Hsv3) as (cur & yp & b & Ev3).
  assert (Ht3 : pxCurrentTCB (k_vars k3) = t).
  { eapply system_most_urgent; [done| | |exact Hc3]; rewrite ?Ev3; [|exact Hy]. exists y. by rewrite Ev3. }
  rewrite Ht3. change (put _ ?it []) with [it] in Hr3. eapply wp_mono; [eapply (sent_and_received q x3); [done| | |exact Hr3| |]|].
  - rewrite Ht3, Ev3. destruct Hf2 as [_ [_ _ _ Ei _ _]]. simpl. rewrite Ei. apply Ha.
  - by rewrite Ev3; simpl; apply lookup_insert_eq.
  - eapply same_unlocked; [done|apply Hcw].
  - apply Ha.
  - intros r k4 (-> & Hs4 & Hx4). wstep. split_and!; done.
Qed.

(** A round that finds its time-out expired. *)
Lemma receive_expired_wp q x y n i T0 T1 k : quiet k -> runs_highest k -> has_queue q x k -> unlocked x -> uxMessagesWaiting x = 0 ->
  tcbs (k_vars k) !! pxCurrentTCB (k_vars k) = Some y -> ucDelayAborted y = pdFALSE -> clock k T1 ->
  T0 + n <= T1 < T0 + u32_modulus -> 0 < n < portMAX_DELAY ->
  wp (run (xQueueReceive_iter q (mkLocals n (Some (timeout_at T0)) i))) (fun r k' =>
    r = inr (errQUEUE_EMPTY, []) /\ gave_up k k') k.
Proof.
  intros Hq Hhi Hx Hu He Hy Ha Hclk HT Hn. unfold xQueueReceive_iter. apply wp_run_bind, wp_run_atomic. unfold receive_try.
  wstep. eapply wp_rd_queue; [apply Hx|]. rewrite He. cbn [Z.ltb Z.compare]. apply receive_or_wait_wp; [intros E; cbn in E; lia|].
  intros _. cbn [started l_ticks l_timeout l_inherited from_option id].
  apply wp_run_bind, wp_run_atomic, suspend_wp; [apply Hq|]. apply wp_run_bind, wp_run_atomic.
  eapply lock_wp; [apply Hx|done|]. apply wp_run_bind, wp_run_atomic. unfold check_timeout. wstep. apply wp_lift_opt with (a := timeout_at T0); [done|].
  wstep. eapply wp_mono; [apply (check_timeout_wp _ y T0 T1); [exact Hy|exact Ha|exact Hclk|lia|cbn; lia]|].
  intros r kc [-> ->]. cbn [started l_ticks]. replace (n <=? T1 - T0) with true by (symmetry; apply Z.leb_le; lia). cbn beta iota. wstep. cbn [negb pdTRUE pdFALSE Z.eqb Pos.eqb].
  apply (give_up_wp q x _ _ k); [done|done|apply Hx|done|by left|]. intros k' Hg.
  eapply wp_run_read; [apply is_empty_wp, (gave_up_queue _ _ _ _ Hg Hx)|]. rewrite He. cbn. by apply wp_ret.
Qed.

Lemma time_out_wp q x n T k : asks q x n k -> items_of (k_lists k) (xTasksWaitingToReceive q) = [] ->
  most_urgent (pxCurrentTCB (k_vars k)) k -> clock k T -> n < portMAX_DELAY ->
  wp (time_out q n) (fun r k' => r = (pxCurrentTCB (k_vars k), inr (errQUEUE_EMPTY, [])) /\ system k' /\
    queues (k_vars k') !! q = Some x) k.
Proof.
  intros Ha He Hu Hclk Hm. destruct (asks_wait _ _ _ _ Ha) as [Hcw Hr]. set (t := pxCurrentTCB (k_vars k)) in *.
  pose proof (as_ticks _ _ _ _ Ha) as [Hn Hn0]. unfold time_out.
  wstep. eapply wp_mono; [by apply (receive_blocks_wp q x)|]. intros r k1 [-> Hw].
  pose proof (asks_system _ _ _ _ _ Ha Hw) as Hs1. pose proof (went_sleeps (xTasksWaitingToReceive q) _ _ _ (sy_quiet _ Hs1) ltac:(done) (proj1 (as_ticks _ _ _ _ Ha)) (proj2 (as_ticks _ _ _ _ Ha)) He Hw) as Hsl.
  assert (Hclk1 : clock k1 T) by (destruct Hclk, (ww_time _ _ _ _ Hw) as (E1 & E2 & _); by split; [rewrite E1|rewrite E2]).
  assert (En : n = Z.of_nat (S (Z.to_nat (n - 1)))) by u32_lia. replace (Z.to_nat n) with (S (Z.to_nat (n - 1))) by lia.
  rewrite En in Hsl. wstep. eapply wp_mono; [apply (asleep_until t _ k1 T Hs1 (sl_time _ _ _ _ Hsl) ltac:(lia) Hclk1)|].
  intros [] k2 (Hs2 & Hf2 & Et2 & Hclk2 & y & Hy & Hc). rewrite <- En in Hclk2.
  assert (Ht2 : pxCurrentTCB (k_vars k2) = t).
  { eapply system_most_urgent; [done| |exact Hy|done]. eapply same_urgent; [done|]. by eapply went_urgent. }
  assert (Ha2 : ucDelayAborted y = pdFALSE).
  { destruct (ww_tcbs _ _ _ _ Hw) as (z & Hz & Ez). rewrite Et2, Ez in Hy. unfold t in Hy. rewrite lookup_insert_eq in Hy. by injection Hy as <-. }
  assert (Hq2 : has_queue q x k2).
  { eapply frame_queue; [exact Hf2|]. eapply frame_queue; [exact (ww_frame _ _ _ _ Hw)|apply Hcw]. }
  apply wp_bind, wp_rdv, wp_bind. cbn [again]. rewrite Ht2.
  replace (started (entering n) k) with (mkLocals n (Some (timeout_at T)) pdFALSE)
    by (unfold started, entering, entry_time, timeout_at; cbn; by destruct Hclk as [-> ->]).
  eapply wp_mono; [apply (receive_expired_wp q x y n pdFALSE T (T + n)); [apply Hs2|apply Hs2|done|apply Hcw|apply Ha|by rewrite Ht2|done|done|..]|].
  - unfold portMAX_DELAY in *. u32_lia.
  - u32_lia.
  - intros r k3 [-> Hg]. wstep. split; [done|]. split.
    + by eapply gave_up_system.
    + by eapply hq_queue, gave_up_queue.
Qed.

(** Asking an empty queue puts the caller to sleep: the first round of
    xQueueReceive, with a time-out of [n] ticks, ends with the caller in the
    list of tasks that wait to receive, behind those at least as urgent, and
    to be woken at tick [n] from now (or not at all for portMAX_DELAY); the
    queue is unlocked and as it was, the scheduler runs again, and a most
    urgent of the other tasks has the processor. *)
Theorem queue_receive_blocks c k q x n : RK rep c k -> asks q x n k ->
  on_code (run (xQueueReceive_iter q (entering n))) (fun r k' =>
    r = inl (mkLocals n (Some (mkTimeOut (xNumOfOverflows (k_vars k)) (xTickCount (k_vars k)))) pdFALSE) /\ system k' /\
    went_to_wait (xTasksWaitingToReceive q) n k k' /\ pxCurrentTCB (k_vars k') <> pxCurrentTCB (k_vars k)) c.
Proof.
  intros HR Ha. eapply wp_transfer; [apply psim_run, psim_xQueueReceive_iter, list_c_refines|exact HR|].
  eapply wp_mono; [by apply (receive_blocks_wp q x)|]. intros r k' [-> Hw]. pose proof (asks_system _ _ _ _ _ Ha Hw) as Hs.
  split; [done|]. split; [done|]. split; [done|]. intros E. destruct (system_current _ Hs) as (y & _ & Hc).
  rewrite E, (ww_cont _ _ _ _ Hw), decide_False, decide_True in Hc by done. unfold wait_list in Hc.
  pose proof (kc_delayed _ _ (ki_core _ (rn_inv _ (qt_running _ (sy_quiet _ (as_system _ _ _ _ Ha)))))) as [[E1 E2]|[E1 E2]];
    rewrite E1, E2 in Hc; by repeat case_match.
Qed.

Lemma again_sim q r : sim (RK rep) (again (H := lheap item list_id) q r) (again (H := AH) q r).
Proof. destruct r; [apply psim_run, psim_xQueueReceive_iter, list_c_refines|apply sim_ret]. Qed.

(** C2: what one task sends another receives: a task more urgent than all
    others asks an empty queue for an item and sleeps; after any number of
    ticks within its time-out, whichever task is then running sends one.
    The sender's call succeeds, the receiver takes the processor from it
    within that call, and its next round returns the bytes sent and leaves the
    queue empty. *)
Theorem queue_handover c k q x n m it l : RK rep c k -> asks q x n k ->
  items_of (k_lists k) (xTasksWaitingToReceive q) = [] -> most_urgent (pxCurrentTCB (k_vars k)) k ->
  n = portMAX_DELAY \/ Z.of_nat m < n -> uxItemSize x <= Z.of_nat (length it) ->
  on_code (hand_over q n m it l) (fun r k' =>
    r = (inr pdPASS, pxCurrentTCB (k_vars k), inr (pdPASS, take (Z.to_nat (uxItemSize x)) it)) /\ system k' /\
    exists x', queues (k_vars k') !! q = Some x' /\ ring x' []) c.
Proof.
  intros HR Ha He Hu Hm Hit. eapply wp_transfer; [|exact HR|by apply hand_over_wp]. unfold hand_over.
  repeat sim_step; try apply interrupts_sim; try apply sim_rdv; try apply again_sim; apply psim_run;
    [apply psim_xQueueReceive_iter|apply psim_xQueueGenericSend_iter]; apply list_c_refines.
Qed.

(** C19: a wait ends in time: if the task that waits is more urgent than all
    others and nobody sends, it has the processor after exactly [n] ticks,
    wrap-around of the tick count included, and its next round reports
    errQUEUE_EMPTY and leaves the queue as it was. *)
Theorem queue_receive_times_out c k q x n T : RK rep c k -> asks q x n k ->
  items_of (k_lists k) (xTasksWaitingToReceive q) = [] -> most_urgent (pxCurrentTCB (k_vars k)) k ->
  clock k T -> n < portMAX_DELAY ->
  on_code (time_out q n) (fun r k' => r = (pxCurrentTCB (k_vars k), inr (errQUEUE_EMPTY, [])) /\ system k' /\
    queues (k_vars k') !! q = Some x) c.
Proof.
  intros HR Ha He Hu Hclk Hm. eapply wp_transfer; [|exact HR|by eapply time_out_wp]. unfold time_out.
  repeat sim_step; try apply interrupts_sim; try apply sim_rdv; try apply again_sim. apply psim_run, psim_xQueueReceive_iter, list_c_refines.
Qed.

End Handover.

(** ** Instances *)

Definition asking_abs : KA := ends queue_setup (mkKernel (mkAheap ∅ ∅) vars0).
Definition asking_ptr : CK := ends queue_setup (mkKernel (mkLheap ∅ ∅) vars0).

Lemma asking_related : RK rep asking_ptr asking_abs.
Proof. apply ends_related; [apply queue_setup_sim|apply start_related|by vm_compute]. Qed.

Lemma asking_system : system asking_abs.
Proof.
  apply checked_system; [by vm_compute|..].
  - eapply entries_forall; [vm_compute; reflexivity|].
    constructor; [|constructor; [|constructor]]; cbn [fst snd]; (split; [|split; vm_compute; eauto]).
    + split; [by split|]. right. left. exists 0. split; simpl; unfold u32_modulus; try lia; discriminate.
    + split; [by split|]. left. exists []. exact empty_queue_ring.
  - eapply entries_forall; [vm_compute; reflexivity|]. constructor.
Qed.

Lemma checked_between v : from_option (fun p => negb (p.2 =? taskWAITING_NOTIFICATION)) true (note_of v (pxCurrentTCB v)) = true ->
  between_calls v.
Proof. intros Hc n E. by rewrite E in Hc. Qed.

Lemma asking_asks n : u32_range n -> n <> 0 -> asks 9000 empty_queue n asking_abs.
Proof.
  intros Hn Hn0. split.
  - exact asking_system.
  - vm_compute. discriminate.
  - vm_compute. reflexivity.
  - vm_compute. reflexivity.
  - vm_compute. reflexivity.
  - assert (Hy : from_option ucDelayAborted pdFALSE (tcbs (k_vars asking_abs) !! pxCurrentTCB (k_vars asking_abs)) = pdFALSE)
      by (vm_compute; reflexivity).
    intros y E. rewrite E in Hy. exact Hy.
  - split; assumption.
  - apply checked_between. vm_compute. reflexivity.
Qed.

Lemma checked_urgent t p (k : KA) : (uxPriority <$> tcbs (k_vars k) !! t) = Some p ->
  forallb (fun u => (u.1 =? t) || (uxPriority u.2 <? p)) (map_to_list (tcbs (k_vars k))) = true -> most_urgent t k.
Proof.
  intros (y & Hy & ->)%fmap_Some Hall. exists y. split; [done|]. intros u z Hu Hz.
  pose proof (forallb_map (fun u z => (u =? t) || (uxPriority z <? uxPriority y)) _ Hall u z Hz) as Hz'.
  apply orb_true_iff in Hz' as [E|E]; [by apply Z.eqb_eq in E|by apply Z.ltb_lt].
Qed.

Lemma asking_urgent : most_urgent (pxCurrentTCB (k_vars asking_abs)) asking_abs.
Proof. apply (checked_urgent _ 5); vm_compute; reflexivity. Qed.

Lemma queue_receive_blocks_witness : on_code (run (xQueueReceive_iter 9000 (entering 10)))
  (fun _ k' => pxCurrentTCB (k_vars k') <> 4000) asking_ptr.
Proof.
  eapply wp_mono; [apply (queue_receive_blocks asking_ptr asking_abs 9000 empty_queue 10 asking_related)|].
  - apply asking_asks; [unfold u32_range, u32_modulus; lia|lia].
  - intros r c' (k' & HR & _ & _ & _ & Hne). exists k'. split; [exact HR|exact Hne].
Defined.

(** The receiver waits for ever; the item is sent three ticks later. *)
Lemma queue_handover_witness : on_code (hand_over 9000 portMAX_DELAY 3 [1; 2; 3; 4] (entering 0)) (fun r _ =>
  r = (inr pdPASS, 4000, inr (pdPASS, [1; 2; 3; 4]))) asking_ptr.
Proof.
  eapply wp_mono; [apply (queue_handover asking_ptr asking_abs 9000 empty_queue portMAX_DELAY 3 [1; 2; 3; 4] (entering 0) asking_related)|].
  - apply asking_asks; [unfold u32_range, portMAX_DELAY, u32_modulus; lia|discriminate].
  - vm_compute. reflexivity.
  - exact asking_urgent.
  - left. reflexivity.
  - simpl. lia.
  - intros r c' (k' & HR & E & _). exists k'. split; [exact HR|exact E].
Defined.

Lemma queue_receive_times_out_witness : on_code (time_out 9000 10) (fun r _ => r = (4000, inr (errQUEUE_EMPTY, []))) asking_ptr.
Proof.
  eapply wp_mono; [apply (queue_receive_times_out asking_ptr asking_abs 9000 empty_queue 10 0 asking_related)|].
  - apply asking_asks; [unfold u32_range, u32_modulus; lia|lia].
  - vm_compute. reflexivity.
  - exact asking_urgent.
  - split; vm_compute; reflexivity.
  - unfold portMAX_DELAY. lia.
  - intros r c' (k' & HR & E & _). exists k'. split; [exact HR|exact E].
Defined.
