(* ===== verification/WindowTheorems.v ===== *)
(** * No wake-up is lost

    Between the moment a receiver finds its queue empty and the moment it
    sleeps lie several blocks, and an interrupt may add an item before each.
    The lock of the queue is there for this: the interrupt counts the item, and
    the unlocking wakes a task for it. *)

From S2P Require Import Prelude Simulation History Config ListC ListSpec ListRefine ListObs ListProps Heap4 Kernel Tasks TaskApi TaskEvents Queue KernelRefine DriversRefine KernelInv Frames KernelSteps SchedProps ResumeProps KernelDemo SchedTheorems SuspendProps Interrupts PriorityProps PriorityTheorems EventProps QueueData QueueTheorems SemaphoreTheorems BlockProps WaitTheorems NotifyProps ControlProps System SystemTasks SystemTheorems SleepProps HandoverTheorems.

Section Script.
Context {H : Type} `{!ListOps item list_id H}.

(** An interrupt handler that sends [it] to the queue. *)
Definition arrival (q : Z) (it : list Z) : M (Kernel H) unit :=
  r ← xQueueGenericSendFromISR q it queueSEND_TO_BACK; portEND_SWITCHING_ISR r.2.

(** A task asks for an item, which an interrupt sends before block [i] of the
    round; then whichever task runs, and the next round. *)
Definition receive_during (i : nat) (q n : Z) (it : list Z) : M (Kernel H) (Z * q_result) :=
  r ← interleave (at_block i (arrival q it)) (xQueueReceive_iter q (entering n));
  t ← rdv pxCurrentTCB; r' ← again q r; mret (t, r').
End Script.

Section Window.
Implicit Types (k : KA) (x : Queue_t) (l : q_locals).
Variables (q t : Z) (it : list Z) (sz : Z).
Hypothesis Hit : sz <= Z.of_nat (length it).
Notation waiting := (xTasksWaitingToReceive q).
Notation item := (take (Z.to_nat sz) it).

(** The queue before and after the item has come; [c] and [d] are the locks. *)
Record vacant (c d : Z) x : Prop := { va_tx : cTxLock x = c; va_rx : cRxLock x = d; va_size : uxItemSize x = sz; va_ring : ring x [] }.
Record filled (c d : Z) x : Prop := { fi_tx : cTxLock x = c; fi_rx : cRxLock x = d; fi_ring : ring x [item] }.

Lemma ring_locks c d x xs : ring x xs -> ring (set_cTxLock c (set_cRxLock d x)) xs.
Proof. intros []. by split. Qed.
Lemma ring_tx c x xs : ring x xs -> ring (set_cTxLock c x) xs.
Proof. intros []. by split. Qed.
Lemma ring_rx c x xs : ring x xs -> ring (set_cRxLock c x) xs.
Proof. intros []. by split. Qed.

(** ** The interrupt *)

(** The item is stored; what follows depends on the lock. *)
Lemma arrival_stores c d x k (Q : unit -> KA -> Prop) : has_queue q x k -> vacant c d x ->
  (forall x', filled c d x' -> wp (b ← after_isr_send q c; portEND_SWITCHING_ISR b) Q (with_queue q x' k)) ->
  wp (arrival q it) Q k.
Proof.
  intros Hq [Ec Ed Es Hr] HQ. pose proof (rg_n _ _ Hr) as Hn.
  destruct (copy_to_back x [] it Hr ltac:(simpl; lia) ltac:(lia)) as (x' & E & Hsame & Hr'). cbn [app] in Hr'. rewrite Es in Hr'.
  pose proof Hsame as (_ & _ & _ & _ & Erx & Etx). assert (Hx' : filled c d x') by (split; congruence || exact Hr').
  unfold arrival, xQueueGenericSendFromISR. wstep. wstep. eapply wp_rd_queue; [apply Hq|]. wstep. eapply wp_rd_queue; [apply Hq|].
  rewrite (rg_count _ _ Hr). cbn [length Z.of_nat]. rewrite (proj2 (Z.ltb_lt _ _)) by done. cbn [orb]. wstep. eapply wp_rd_queue; [apply Hq|].
  rewrite Ec. wstep. eapply copy_data_wp; [apply Hq|pose proof (rg_sz _ _ Hr); lia|exact E|]. apply wp_bind.
  eapply wp_mono; [exact (wp_bind_inv _ _ _ _ (HQ x' Hx'))|]. cbv beta. intros b k' Hb. by wstep.
Qed.

(** The queue is locked: the item is counted. *)
Lemma arrival_counts d x k (Q : unit -> KA -> Prop) : has_queue q x k -> vacant 0 d x ->
  (forall x', filled 1 d x' -> Q tt (with_queue q x' k)) -> wp (arrival q it) Q k.
Proof.
  intros Hq Hx HQ. apply (arrival_stores 0 d x); [done..|]. intros x' [Ec Ed Hr]. unfold after_isr_send. cbn [Z.eqb queueUNLOCKED].
  wstep. wstep. eapply wp_wr_queue; [apply lookup_with_queue|]. wsteps. rewrite with_queue_twice. cbn [portEND_SWITCHING_ISR when]. wstep. apply HQ. split; [done|done|by apply ring_tx].
Qed.

(** It is not, and nobody waits. *)
Lemma arrival_unheard d x k (Q : unit -> KA -> Prop) : has_queue q x k -> items_of (k_lists k) waiting = [] -> vacant queueUNLOCKED d x ->
  (forall x', filled queueUNLOCKED d x' -> Q tt (with_queue q x' k)) -> wp (arrival q it) Q k.
Proof.
  intros Hq He Hx HQ. apply (arrival_stores queueUNLOCKED d x); [done..|]. intros x' Hx'. unfold after_isr_send, wake_first.
  rewrite Z.eqb_refl. wsteps. apply wp_listIS_EMPTY; [apply Hq|]. cbn [with_queue k_lists]. rewrite He, bool_decide_true by done. wsteps.
  cbn [portEND_SWITCHING_ISR when]. wstep. by apply HQ.
Qed.
(** ** Unlocking *)

(** Nothing to do, or nobody to wake. *)
Lemma unlock_tx_idle c x k (Q : unit -> KA -> Prop) : has_queue q x k -> cTxLock x = c -> c <= 0 \/ items_of (k_lists k) waiting = [] ->
  Q tt (with_queue q (set_cTxLock queueUNLOCKED x) k) -> wp (unlock_tx q) Q k.
Proof.
  intros Hq <- Hc HQ. unfold unlock_tx. wstep. eapply wp_rd_queue; [apply Hq|]. wstep.
  destruct (Z.to_nat (cTxLock x)) as [|n] eqn:En; cbn [unlock_loop]; [|destruct Hc as [Hc|He]; [lia|]].
  - wstep. eapply wp_wr_queue; [apply Hq|exact HQ].
  - wsteps. destruct k as [h v]. apply wp_listIS_EMPTY; [apply Hq|]. cbn [k_lists] in He. rewrite He, bool_decide_true by done. wstep. eapply wp_wr_queue; [apply Hq|exact HQ].
Qed.

Lemma unlock_rx_idle x k (Q : unit -> KA -> Prop) : has_queue q x k -> cRxLock x = 0 ->
  Q tt (with_queue q (set_cRxLock queueUNLOCKED x) k) -> wp (unlock_rx q) Q k.
Proof.
  intros Hq Hc HQ. unfold unlock_rx. wstep. eapply wp_rd_queue; [apply Hq|]. rewrite Hc. simpl unlock_loop. wsteps.
  eapply wp_wr_queue; [apply Hq|exact HQ].
Qed.

Lemma filled_tx c d c' x : filled c d x -> filled c' d (set_cTxLock c' x).
Proof. intros []. by split; [..|apply ring_tx]. Qed.
Lemma filled_rx c d d' x : filled c d x -> filled c d' (set_cRxLock d' x).
Proof. intros []. by split; [..|apply ring_rx]. Qed.
Lemma vacant_tx c d c' x : vacant c d x -> vacant c' d (set_cTxLock c' x).
Proof. intros []. by split; [..|apply ring_tx]. Qed.
Lemma vacant_rx c d d' x : vacant c d x -> vacant c d' (set_cRxLock d' x).
Proof. intros []. by split; [..|apply ring_rx]. Qed.

(** ** Asleep, and woken *)

(** The end: [t] can run, and the item waits for it in the queue. *)
Record arrived k : Prop := {
  ad_running : running k;
  ad_highest : runs_highest k;
  ad_urgent : most_urgent t k;
  ad_ready : exists p, cont_of (k_lists k) (StateItem t) = Some (Ready p);
  ad_queue : exists x, has_queue q x k /\ filled queueUNLOCKED queueUNLOCKED x
}.

(** [t], the running task, is alone in the queue's list; the scheduler is
    suspended. *)
Record parked x k : Prop := {
  pk_rest : at_rest k;
  pk_current : pxCurrentTCB (k_vars k) = t;
  pk_items : items_of (k_lists k) waiting = [EventItem t];
  pk_queue : has_queue q x k;
  pk_urgent : most_urgent t k
}.

(** [t] has been taken from the queue's list, for xTaskResumeAll to make it
    ready. *)
Record summoned x k : Prop := {
  sm_inv : kinv k;
  sm_pend : kpend k;
  sm_ready : some_ready k;
  sm_suspended : uxSchedulerSuspended (k_vars k) = 1;
  sm_pended : xPendedTicks (k_vars k) = 0;
  sm_tasks : 0 < uxCurrentNumberOfTasks (k_vars k);
  sm_event : cont_of (k_lists k) (EventItem t) = Some xPendingReadyList;
  sm_queue : has_queue q x k;
  sm_urgent : most_urgent t k
}.

Lemma parked_with x x' k : parked x k -> parked x' (with_queue q x' k).
Proof. intros []. split; [by apply with_queue_rest|done|done|by eapply with_queue_has|done]. Qed.

Lemma summoned_with x x' k : summoned x k -> summoned x' (with_queue q x' k).
Proof.
  intros []. split; try done; [|by eapply with_queue_has]. destruct k as [h v]. by apply (kinv_vars h v).
Qed.

(** The task that waits is woken. *)
Lemma summon_wp x k : parked x k -> wp (xTaskRemoveFromEventList waiting) (fun r k' => r = pdFALSE /\ summoned x k') k.
Proof.
  intros [Hr Hc Hi Hq (y & Hy & Hlt)]. pose proof Hr as [Hinv Hp (u & p & Hu) Hs Hpd He Hn].
  eapply wp_mono; [apply (remove_suspended_wp k waiting t y y []); [done|done|by rewrite Hs|done|done|done|by rewrite Hc]|].
  cbv beta. intros r k' (a' & -> & -> & Hinv' & Hp' & Hd). rewrite Z.ltb_irrefl. split; [done|].
  destruct (note_higher_shape (k_vars k) y y) as [z Ez]. rewrite Ez in *. split; try done.
  - exists u, p. cbn [k_lists]. by rewrite (df_cont _ _ _ Hd), decide_False.
  - cbn [k_lists]. by rewrite (df_cont _ _ _ Hd), decide_True.
  - destruct Hq. split; [done|by apply (df_lists _ _ _ Hd)|by apply (df_lists _ _ _ Hd)].
  - by exists y.
Qed.

Lemma unlock_tx_wakes x k : parked x k -> cTxLock x = 1 ->
  wp (unlock_tx q) (fun _ k' => summoned (set_cTxLock queueUNLOCKED x) k') k.
Proof.
  intros Hk Hc. pose proof Hk as [_ _ Hi Hq _]. unfold unlock_tx. wstep. eapply wp_rd_queue; [apply Hq|]. rewrite Hc. change (Z.to_nat 1) with 1%nat.
  cbn [unlock_loop]. wsteps. destruct k as [h v]. apply wp_listIS_EMPTY; [apply Hq|]. cbn [k_lists] in Hi. rewrite Hi, bool_decide_false by done. wstep.
  eapply wp_mono; [by apply (summon_wp x)|]. cbv beta. intros r k' [-> Hk']. wsteps. change (negb (pdFALSE =? pdFALSE)) with false. cbn [when]. wsteps.
  eapply wp_wr_queue; [apply (hq_queue _ _ _ (sm_queue _ _ Hk'))|]. by eapply summoned_with.
Qed.

(** The interrupt wakes it itself. *)
Lemma arrival_wakes d x k : parked x k -> vacant queueUNLOCKED d x ->
  wp (arrival q it) (fun _ k' => exists x', filled queueUNLOCKED d x' /\ summoned x' k') k.
Proof.
  intros Hk Hx. apply (arrival_stores queueUNLOCKED d x); [apply Hk|done|]. intros x' Hx'. unfold after_isr_send, wake_first.
  pose proof (parked_with _ x' _ Hk) as Hk'. rewrite Z.eqb_refl. wsteps. apply wp_listIS_EMPTY; [apply (pk_queue _ _ Hk')|].
  cbn [with_queue k_lists]. rewrite (pk_items _ _ Hk), bool_decide_false by done. wsteps.
  eapply wp_mono; [by apply (summon_wp x')|]. cbv beta. intros r k' [-> Hk2]. wsteps. change (negb (pdFALSE =? pdFALSE)) with false. cbn [portEND_SWITCHING_ISR when]. wsteps.
  by exists x'.
Qed.

(** The end of the round: the task that was woken runs, and so does one that was
    never put to sleep. *)
Lemma summoned_arrives x l k : summoned x k -> filled queueUNLOCKED queueUNLOCKED x ->
  wp (run (resume_and_yield;; mret (inl l : q_result))) (fun r k' => r = inl l /\ arrived k') k.
Proof.
  intros [Hinv Hp Hsome Hs Hpd Hn He Hq Hu] Hx. unfold resume_and_yield. apply wp_run_bind, wp_run_bind, wp_run_atomic.
  eapply wp_mono; [apply wp_keeps; [apply keeps_resume_all|apply resume_all_wp; [done|done|done|by rewrite Hpd|done|done]]|].
  cbv beta. intros r k1 [[Hi1 Hp1 (Hs1 & _ & _) [Et1 _] _ _ Hw1 _ _ Hsw] Hf1]. destruct (Hw1 t He) as [p Hr1].
  assert (Hq1 : has_queue q x k1) by by eapply frame_queue.
  assert (Hu1 : most_urgent t k1) by by eapply same_urgent.
  assert (Hend : runs_highest k1 -> arrived k1) by (intros Hh; split; [split; [done|done|by exists t, p|done]|done|done|by exists p|by exists x]).
  destruct Hsw as [[-> Hh1]|(-> & _ & _)]; cbn [Z.eqb pdTRUE pdFALSE Pos.eqb].
  - apply wp_run_ret, wp_run_ret. auto.
  - apply wp_run_atomic. unfold portYIELD. eapply wp_mono; [apply wp_keeps; [apply keeps_switch|apply switch_wp; [apply Hi1|by exists t, p|done]]|].
    cbv beta. intros [] k2 [Hsw Hf2]. apply wp_run_ret. split; [done|].
    pose proof (switched_inv _ _ Hi1 Hsw) as Hi2. pose proof (switched_pend _ _ Hp1 Hsw) as Hp2. pose proof (fun i => switched_cont _ _ i Hsw) as Hc2.
    assert (Hr2 : cont_of (k_lists k2) (StateItem t) = Some (Ready p)) by by rewrite Hc2.
    assert (Hq2 : has_queue q x k2) by by eapply frame_queue. destruct Hsw as (h2 & cur & pr & -> & _ & _ & Hh2 & _).
    split; [split; [done|done|by exists t, p|done]|done|by eapply same_urgent|by exists p|by exists x].
Qed.

(** ** The steps of a round *)

Variables (k0 : KA) (x0 : Queue_t) (n : Z).
Hypotheses (Hasks : asks q x0 n k0) (Hempty : items_of (k_lists k0) waiting = []) (Hurgent : most_urgent t k0)
  (Ht : pxCurrentTCB (k_vars k0) = t) (Hsz : uxItemSize x0 = sz).
Notation l0 := (started (entering n) k0).
Notation at_queue x := (with_queue q x (suspended k0)).
Notation done_with l := (fun (r : q_result) k' => r = inl l /\ arrived k').

Lemma asks_vacant : vacant queueUNLOCKED queueUNLOCKED x0 /\ has_queue q x0 k0.
Proof. destruct (asks_wait _ _ _ _ Hasks) as [[_ _ _ _ Hx [Hr Hc] _] Hring]. by split. Qed.
Lemma locked_vacant : vacant 0 0 (locked x0).
Proof. destruct asks_vacant as [Hv _]. by eapply vacant_tx, vacant_rx. Qed.
Lemma at_has x : has_queue q x (at_queue x).
Proof. destruct asks_vacant as [_ []]. split; [apply lookup_with_queue|done|done]. Qed.

(** The queue is not empty any more: the task does not sleep. *)
Lemma stays_awake c x l : filled c 0 x -> wp (run (prvUnlockQueue q;; atomic xTaskResumeAll;; mret (inl l))) (done_with l) (at_queue x).
Proof.
  intros Hx. destruct (asks_wait _ _ _ _ Hasks) as [[Hq Hh _ _ Hx0 _ _] _].
  apply wp_run_bind, wp_run_bind, wp_run_atomic. eapply unlock_tx_idle; [apply at_has|done|by right|]. rewrite with_queue_twice.
  apply wp_run_atomic. eapply unlock_rx_idle; [apply at_has|apply Hx|]. rewrite with_queue_twice. set (x2 := set_cRxLock _ _).
  apply wp_run_bind, wp_run_atomic. eapply wp_mono; [apply resume_settles; [by apply with_queue_rest, quiet_suspended|right; by apply with_queue_highest]|].
  cbv beta. intros r k' ([Sc _ _ Sl (cur & y & b & Ev)] & Hq' & Hh'). apply wp_run_ret. split; [done|].
  assert (Et : tcbs (k_vars k') = tcbs (k_vars k0)) by by rewrite Ev. destruct Hh as (z & Hz & Hc & _). rewrite Ht in Hc.
  split; [apply Hq'|done|by eapply same_urgent|exists (uxPriority z); by rewrite Sc|]. exists x2. split; [|by eapply filled_rx, filled_tx].
  destruct Hx0. split; [rewrite Ev; apply lookup_insert_eq|by apply Sl|by apply Sl].
Qed.

Lemma from_test c x l : filled c 0 x -> wp (run (empty ← atomic (prvIsQueueEmpty q);
    if empty : bool then atomic (vTaskPlaceOnEventList waiting (l_ticks l));; prvUnlockQueue q;; resume_and_yield;; mret (inl l)
    else prvUnlockQueue q;; atomic xTaskResumeAll;; mret (inl l))) (done_with l) (at_queue x).
Proof.
  intros Hx. eapply wp_run_read; [eapply is_empty_wp, lookup_with_queue|]. rewrite (rg_count _ _ (fi_ring _ _ _ Hx)). by eapply stays_awake.
Qed.

Lemma check_passes x : wp (check_timeout l0) (fun r k' => r = (false, l0) /\ k' = at_queue x) (at_queue x).
Proof.
  destruct (kc_cur _ _ (ki_core _ (rn_inv _ (qt_running _ (sy_quiet _ (as_system _ _ _ _ Hasks)))))) as [y Hy].
  apply (check_now_wp _ y); [exact Hy|by apply (as_fresh _ _ _ _ Hasks)|apply (as_ticks _ _ _ _ Hasks)|apply (as_ticks _ _ _ _ Hasks)|done].
Qed.

(** It is: the task is put into the list. *)
Lemma parks x : wp (vTaskPlaceOnEventList waiting (l_ticks l0)) (fun _ k' => parked x k') (at_queue x).
Proof.
  destruct (asks_wait _ _ _ _ Hasks) as [[Hq Hh Hcur Hoth Hx0 _ Hval] _]. pose proof (as_ticks _ _ _ _ Hasks) as [Hn Hn0].
  eapply wp_mono; [apply place_wp; [by apply with_queue_rest, quiet_suspended|done|done|done|done|apply Hx0|done|done|done]|].
  cbv beta. intros _ k' [Hr' [_ _ Hi Hl (y & nx & b & Hy & Ev)]]. cbn [with_queue suspended k_lists k_vars] in *.
  assert (Hi' : items_of (k_lists k') waiting = [EventItem (pxCurrentTCB (k_vars k0))]) by (rewrite Hi, Hempty; done). rewrite Ht in Hi'.
  assert (Hy' : tcbs (k_vars k0) !! pxCurrentTCB (k_vars k0) = Some y) by exact Hy.
  split; [done|rewrite Ev; exact Ht|done| |].
  - destruct Hx0. split; [rewrite Ev; apply lookup_insert_eq|by apply Hl|by apply Hl].
  - eapply priorities_urgent; [|exact Hurgent]. intros u. rewrite Ev. by eapply insert_priorities.
Qed.

Lemma wakes_up x l k : parked x k -> filled 1 0 x -> wp (run (prvUnlockQueue q;; resume_and_yield;; mret (inl l))) (done_with l) k.
Proof.
  intros Hk Hx. apply wp_run_bind, wp_run_bind, wp_run_atomic. eapply wp_mono; [apply (unlock_tx_wakes x); [done|apply Hx]|].
  cbv beta. intros _ k1 Hk1. apply wp_run_atomic. eapply unlock_rx_idle; [apply (sm_queue _ _ Hk1)|apply Hx|].
  eapply summoned_arrives; [by eapply summoned_with|]. by eapply filled_rx, filled_tx.
Qed.

(** ** The item comes at some moment of the round *)

Notation coming := (arrival q it).
Notation after_check := (fun r : bool * q_locals => let '(expired, l) := r in
  if expired : bool then
    prvUnlockQueue q;; atomic xTaskResumeAll;; empty ← atomic (prvIsQueueEmpty q);
    mret (if empty : bool then inr (errQUEUE_EMPTY, []) else inl l)
  else
    empty ← atomic (prvIsQueueEmpty q);
    if empty : bool then atomic (vTaskPlaceOnEventList waiting (l_ticks l));; prvUnlockQueue q;; resume_and_yield;; mret (inl l)
    else prvUnlockQueue q;; atomic xTaskResumeAll;; mret (inl l : q_result)).

(** Before the queue is locked. *)
Lemma comes_unlocked x : filled queueUNLOCKED queueUNLOCKED x ->
  wp (run (atomic (prvLockQueue q);; r ← atomic (check_timeout l0); after_check r)) (done_with l0) (at_queue x).
Proof.
  intros Hx. apply wp_run_bind, wp_run_atomic. eapply lock_wp; [apply lookup_with_queue|by destruct Hx|]. rewrite with_queue_twice.
  apply wp_run_bind, wp_run_atomic. eapply wp_mono; [apply check_passes|]. cbv beta. intros r k' [-> ->].
  eapply (from_test 0). destruct Hx. split; [done|done|by apply ring_locks].
Qed.

(** While it is locked and the task is not in its list. *)
Lemma comes_locked {A} (m : M KA A) (f : A -> prog KA q_result) :
  (forall x, filled 1 0 x -> wp (run (atomic m ≫= f)) (done_with l0) (at_queue x)) ->
  wp (interleave [coming] (atomic m ≫= f)) (done_with l0) (at_queue (locked x0)).
Proof.
  intros H. apply interleave_last. eapply (arrival_counts 0); [apply at_has|apply locked_vacant|]. intros x Hx. rewrite with_queue_twice. by apply H.
Qed.


(** When the task is in the list. *)
Lemma comes_parked i k : (i < 3)%nat -> parked (locked x0) k ->
  wp (interleave (at_block i coming) (atomic (unlock_tx q);; atomic (unlock_rx q);; resume_and_yield;; mret (inl l0))) (done_with l0) k.
Proof.
  intros Hi Hk. pose proof locked_vacant as Hv. destruct i as [|i]; cbn [at_block replicate app].
  { apply interleave_last. eapply (arrival_counts 0); [apply Hk|done|]. intros x Hx. apply (wakes_up x); [by eapply parked_with|done]. }
  apply interleave_skip. eapply unlock_tx_idle; [apply Hk|done|by left|]. set (x1 := set_cTxLock _ _).
  assert (Hk1 : parked x1 (with_queue q x1 k)) by by eapply parked_with. assert (Hv1 : vacant queueUNLOCKED 0 x1) by by eapply vacant_tx.
  destruct i as [|i]; cbn [replicate app].
  { apply interleave_last. eapply wp_mono; [by eapply arrival_wakes|]. cbv beta. intros _ k2 (x & Hx & Hk2).
    apply wp_run_bind, wp_run_atomic. eapply unlock_rx_idle; [apply (sm_queue _ _ Hk2)|apply Hx|].
    eapply summoned_arrives; [by eapply summoned_with|by eapply filled_rx]. }
  apply interleave_skip. eapply unlock_rx_idle; [apply (pk_queue _ _ Hk1)|apply Hv1|]. set (x2 := set_cRxLock _ _).
  assert (Hk2 : parked x2 (with_queue q x2 (with_queue q x1 k))) by by eapply parked_with.
  assert (Hv2 : vacant queueUNLOCKED queueUNLOCKED x2) by by eapply vacant_rx.
  destruct i as [|i]; [|lia]. cbn [replicate app]. unfold resume_and_yield. apply interleave_last.
  eapply wp_mono; [by eapply arrival_wakes|]. cbv beta. intros _ k3 (x & Hx & Hk3). by apply (summoned_arrives x).
Qed.

(** Every moment between the two looks, and until the scheduler is resumed. *)
Lemma comes_in_window i : (i < 8)%nat -> wp (interleave (at_block i coming) (receive_wait q l0)) (done_with l0) k0.
Proof.
  intros Hi. destruct asks_vacant as [Hv Hx0]. pose proof (qt_running _ (sy_quiet _ (as_system _ _ _ _ Hasks))) as Hrun.
  unfold receive_wait. destruct i as [|i]; cbn [at_block replicate app].
  { apply interleave_last. eapply arrival_unheard; [done|done|done|]. intros x Hx. apply wp_run_bind, wp_run_atomic, suspend_wp; [apply Hrun|].
    by apply comes_unlocked. }
  apply interleave_skip, suspend_wp; [apply Hrun|]. destruct i as [|i]; cbn [replicate app].
  { apply interleave_last. eapply arrival_unheard; [by destruct Hx0|done|done|]. intros x Hx. by apply comes_unlocked. }
  apply interleave_skip. eapply lock_wp; [apply Hx0|by destruct Hv|]. destruct i as [|i]; cbn [replicate app].
  { apply comes_locked. intros x Hx. apply wp_run_bind, wp_run_atomic. eapply wp_mono; [apply check_passes|].
    cbv beta. intros r k' [-> ->]. by eapply from_test. }
  apply interleave_skip. eapply wp_mono; [apply check_passes|]. cbv beta. intros r k' [-> ->]. destruct i as [|i]; cbn [replicate app].
  { apply comes_locked. intros x Hx. by eapply from_test. }
  apply interleave_skip. eapply wp_mono; [eapply is_empty_wp, lookup_with_queue|]. cbv beta. intros b k' [-> ->].
  rewrite (rg_count _ _ (va_ring _ _ _ locked_vacant)). cbn [length Z.of_nat Z.eqb]. destruct i as [|i]; cbn [replicate app].
  { apply comes_locked. intros x Hx. apply wp_run_bind, wp_run_atomic. eapply wp_mono; [apply parks|]. cbv beta. intros _ k1 Hk1. by apply (wakes_up x). }
  apply interleave_skip. eapply wp_mono; [apply parks|]. cbv beta. intros _ k1 Hk1. apply comes_parked; [lia|done].
Qed.

(** The next round takes the item. *)
Lemma takes_item l k : arrived k -> wp (run (xQueueReceive_iter q l)) (fun r k' => r = inr (pdPASS, item) /\ running k' /\
  exists x, queues (k_vars k') !! q = Some x /\ unlocked x /\ ring x []) k.
Proof.
  intros [Hrun _ _ _ (x & Hx & [Ec Ed Hr])]. apply wp_run_bind, wp_run_atomic.
  eapply wp_mono; [by apply (receive_item_wp q x item [])|]. cbv beta. intros r k' (-> & x' & Hs & Hr' & Hsv).
  apply wp_run_ret. split; [done|]. split; [apply Hsv|]. exists x'. split; [by eapply hq_queue, served_has, with_queue_has|].
  split; [|done]. by eapply same_unlocked.
Qed.

Lemma receive_during_wp i : (1 <= i <= 8)%nat -> wp (receive_during i q n it) (fun r k' => r = (t, inr (pdPASS, item)) /\ running k' /\
  exists x, queues (k_vars k') !! q = Some x /\ unlocked x /\ ring x []) k0.
Proof.
  intros Hi. destruct asks_vacant as [Hv Hx0]. unfold receive_during. apply wp_bind. destruct i as [|i]; [lia|].
  unfold xQueueReceive_iter at 1. cbn [at_block replicate app]. apply interleave_skip. unfold receive_try. apply wp_bind. eapply wp_rd_queue; [apply Hx0|].
  rewrite (as_empty _ _ _ _ Hasks). cbn [Z.ltb Z.compare]. apply receive_or_wait_wp; [intros E; destruct (as_ticks _ _ _ _ Hasks); contradiction|]. intros _.
  eapply wp_mono; [apply comes_in_window; lia|]. cbv beta. intros r k1 [-> Hk1]. apply wp_bind, wp_rdv, wp_bind. cbn [again].
  assert (Hc : pxCurrentTCB (k_vars k1) = t).
  { destruct Hk1 as [[Hinv _ _ _] Hh Hu [p Hp] _]. pose proof Hu as (y & Hy & _). eapply most_urgent_runs; [done|done|done|exact Hy|].
    by rewrite (kc_ready _ _ (ki_core _ Hinv) _ _ _ Hp Hy). }
  rewrite Hc. eapply wp_mono; [by apply takes_item|]. cbv beta. intros r k2 (-> & Hend). by apply wp_ret.
Qed.
End Window.

(** C11: no wake-up is lost: if an interrupt handler sends an item at any moment
    after a receiver has found its queue empty and before it has resumed the
    scheduler, be the queue locked or not and the task in the queue's list or
    not yet, then the receiver, if it is more urgent than all others, has the
    processor at the end of its round, and its next round returns the item. *)
Theorem item_in_window_is_received c k q x n it i : RK rep c k -> asks q x n k ->
  items_of (k_lists k) (xTasksWaitingToReceive q) = [] -> most_urgent (pxCurrentTCB (k_vars k)) k ->
  uxItemSize x <= Z.of_nat (length it) -> (1 <= i <= 8)%nat ->
  on_code (receive_during i q n it) (fun r k' =>
    r = (pxCurrentTCB (k_vars k), inr (pdPASS, take (Z.to_nat (uxItemSize x)) it)) /\ running k' /\
    exists x', queues (k_vars k') !! q = Some x' /\ unlocked x' /\ ring x' []) c.
Proof.
  intros HR Ha He Hu Hit Hi. eapply wp_transfer; [|exact HR|by eapply (receive_during_wp q (pxCurrentTCB (k_vars k)) it (uxItemSize x) Hit k x n)].
  unfold receive_during, arrival. apply sim_bind; [|intros r; repeat sim_step; [apply sim_rdv|apply again_sim]].
  apply sim_interleave; [|apply psim_xQueueReceive_iter, list_c_refines]. apply sim_at_block. repeat sim_step; [apply sim_xQueueGenericSendFromISR, list_c_refines|].
  unfold portEND_SWITCHING_ISR. repeat sim_step. apply sim_switch; apply _.
Qed.

(** ** Instances *)

(** The item comes while the task is in the list and the queue is locked. *)
Lemma item_in_window_is_received_witness : on_code (receive_during 6 9000 10 [1; 2; 3; 4])
  (fun r _ => r = (4000, inr (pdPASS, [1; 2; 3; 4]))) asking_ptr.
Proof.
  eapply wp_mono; [apply (item_in_window_is_received asking_ptr asking_abs 9000 empty_queue 10 [1; 2; 3; 4] 6 asking_related)|].
  - apply asking_asks; [unfold u32_range, u32_modulus; lia|lia].
  - vm_compute. reflexivity.
  - exact asking_urgent.
  - simpl. lia.
  - lia.
  - intros r c' (k' & HR & E & _). exists k'. split; [exact HR|exact E].
Defined.
