(* ===== verification/NotifyTheorems.v ===== *)
(** * Notifications and suspension

    A notification reaches the task that waits for it, which runs at once if
    it is the most urgent one, and a wait without one ends on time.  A
    suspended task does not run until it is resumed, whatever else happens. *)

From S2P Require Import Prelude Simulation History Config ListC ListSpec ListRefine ListObs ListProps Heap4 Kernel Tasks TaskApi TaskEvents Queue KernelRefine DriversRefine KernelInv Frames KernelSteps SchedProps ResumeProps KernelDemo SchedTheorems SuspendProps PriorityProps PriorityTheorems TimeoutTheorems EventProps QueueData QueueTheorems SemaphoreTheorems BlockProps WaitTheorems NotifyProps ControlProps System SystemTasks SystemTheorems SleepProps HandoverTheorems.

Section Scripts.
Context {H : Type} `{!ListOps item list_id H}.
Notation K := (Kernel H).

(** A task waits for a notification; [m] ticks later whichever task then runs
    sends it one; the task that runs then goes on with the first one's call.
    The results: who notified, what that call returned, who ran then, and what
    its call returned. *)
Definition hand_note (n : Z) (m : nat) (value : Z) (act : eNotifyAction) (clear : Z) : M K (Z * Z * Z * Z) :=
  t ← rdv pxCurrentTCB; notify_take_wait n;; interrupts m;;
  g ← rdv pxCurrentTCB; r ← xTaskGenericNotify t value act;
  t' ← rdv pxCurrentTCB; v ← notify_take_finish clear; mret (g, r.1, t', v).

(** A task waits for a notification, and none comes. *)
Definition note_times_out (n clear : Z) : M K (Z * Z) :=
  notify_take_wait n;; interrupts (Z.to_nat n);; t ← rdv pxCurrentTCB; v ← notify_take_finish clear; mret (t, v).
(** A task waits for a notification for ever; [m] ticks later whichever task then
    runs resumes it, though it is not suspended. *)
Definition resume_waiting (m : nat) (clear : Z) : M K (Z * Z * Z) :=
  t ← rdv pxCurrentTCB; notify_take_wait portMAX_DELAY;; interrupts m;;
  g ← rdv pxCurrentTCB; vTaskResume t;; t' ← rdv pxCurrentTCB; v ← notify_take_finish clear; mret (g, t', v).
End Scripts.

Section Notes.
Implicit Types (k : KA) (c : CK) (x y : TCB_t).

(** The running task, the most urgent one, may wait [n] ticks for a
    notification, and has none. *)
Record wants_note (n : Z) k : Prop := {
  wn_system : system k;
  wn_not_idle : pxCurrentTCB (k_vars k) <> xIdleTaskHandle (k_vars k);
  wn_empty : exists s, note_of (k_vars k) (pxCurrentTCB (k_vars k)) = Some (0, s);
  wn_ticks : u32_range n /\ n <> 0;
  wn_urgent : most_urgent (pxCurrentTCB (k_vars k)) k
}.

(** What is known while it sleeps. *)
Record noteless (t : Z) (n : Z) k : Prop := {
  nl_system : system k;
  nl_asleep : asleep t n k;
  nl_note : note_of (k_vars k) t = Some (0, taskWAITING_NOTIFICATION);
  nl_urgent : most_urgent t k
}.

Lemma note_tcb_inv v t n s : note_of v t = Some (n, s) -> exists x, tcbs v !! t = Some x /\ ulNotifiedValue x = n /\ ucNotifyState x = s.
Proof. unfold note_of. destruct (tcbs v !! t) as [x|]; [|done]. intros [= <- <-]. by exists x. Qed.

Lemma wait_for_note_wp n k : wants_note n k ->
  wp (notify_take_wait n) (fun _ k' => noteless (pxCurrentTCB (k_vars k)) n k' /\
    xTickCount (k_vars k') = xTickCount (k_vars k) /\ xNumOfOverflows (k_vars k') = xNumOfOverflows (k_vars k)) k.
Proof.
  intros [Hs Hni [s0 Hnt] [Hn Hn0] Hu]. destruct (note_tcb_inv _ _ _ _ Hnt) as (x & Hx & Hv & _).
  destruct (current_waits (D := nobody) _ Hs Hni).
  eapply wp_mono; [apply (take_wait_wp n x); [apply Hs|done..]|]. intros [] k' [?|? ?|k2 _ _ Hd]; [done|done|].
  set (t := pxCurrentTCB (k_vars k)) in *. set (k1 := with_tcb t (set_ucNotifyState taskWAITING_NOTIFICATION x) k) in *.
  assert (Hs1 : system k1) by by eapply own_tcb_system.
  assert (Hn1 : note_of (k_vars k1) t = Some (0, taskWAITING_NOTIFICATION)).
  { unfold note_of. simpl. rewrite lookup_insert_eq. simpl. by rewrite Hv. }
  destruct (dz_time _ _ _ Hd) as (Et & Eo & _). split; [|done]. split.
  - by eapply (slept_system n k1).
  - apply (dozed_asleep n k1); [by apply (current_event (D := nobody))|done..].
  - by rewrite (so_notes _ _ (fr_vars _ _ (dz_frame _ _ _ Hd))).
  - eapply dozed_urgent; [exact Hd|]. eapply priorities_urgent; [|exact Hu]. intros u. by eapply insert_priorities.
Qed.

Lemma noteless_through t n m k : noteless t n k -> n = portMAX_DELAY \/ Z.of_nat m < n ->
  wp (interrupts m) (fun _ k' => noteless t (ticks_left n m) k') k.
Proof.
  intros [Hs Ha Hn Hu] Hm. eapply wp_mono; [by eapply asleep_through|]. intros [] k' (Hs' & Hf & Et & Ha' & _).
  split; [done|done|by rewrite (so_notes _ _ (fr_vars _ _ Hf))|by eapply same_urgent].
Qed.

(** Somebody else is running. *)
Lemma asleep_other t n k : system k -> asleep t n k -> pxCurrentTCB (k_vars k) <> t.
Proof.
  intros Hs Ha <-. destruct (system_current _ Hs) as (x & _ & Hc). destruct Ha as [[_ Hw]|[_ [[Hw _] _]]].
  - congruence.
  - rewrite Hc in Hw. destruct (kc_delayed _ _ (ki_core _ (rn_inv _ (qt_running _ (sy_quiet _ Hs))))) as [[E1 E2]|[E1 E2]];
      rewrite E1, E2 in Hw; by destruct Hw.
Qed.

(** What a task whose notification value was 0 is sent. *)
Definition delivered (value : Z) (act : eNotifyAction) : Z :=
  match act with
  | eNoAction => 0
  | eIncrement => 1
  | eSetBits | eSetValueWithOverwrite | eSetValueWithoutOverwrite => value
  end.

Lemma note_arrives_wp t n value act k : noteless t n k ->
  wp (xTaskGenericNotify t value act) (fun r k' => r.1 = pdPASS /\ system k' /\ pxCurrentTCB (k_vars k') = t /\
    note_of (k_vars k') t = Some (delivered value act, taskNOTIFICATION_RECEIVED)) k.
Proof.
  intros [Hs Ha Hn Hu]. destruct (note_tcb_inv _ _ _ _ Hn) as (x & Hx & Ev & Es).
  eapply wp_mono; [apply wp_conj; [apply (notify_wp k t x); [apply Hs|apply (tasks_notifiable (D := nobody)); [apply Hs|done]]|by eapply notify_system]|].
  cbv beta. intros r k' [[-> Hr] Hs']. unfold awaits_note in Hr. rewrite Es, Z.eqb_refl in Hr. rewrite Ev, Es.
  split; [by destruct act|]. split; [done|]. set (x1 := notified value act x) in *. set (k1 := with_tcb t x1 k) in *.
  assert (Hx1 : tcbs (k_vars k1) !! t = Some x1) by apply lookup_insert_eq.
  destruct (rs_vars _ _ _ Hr) as (cur & yp & b & Ek). assert (Et : tcbs (k_vars k') = tcbs (k_vars k1)) by by rewrite Ek.
  split.
  - eapply (system_most_urgent t x1); [done| |by rewrite Et|by apply (rs_wakes _ _ _ Hr)].
    eapply priorities_urgent; [|exact Hu]. intros u. rewrite Et. by eapply insert_priorities.
  - unfold note_of. rewrite Et, Hx1. unfold x1, notified. simpl. rewrite Ev, Es. by destruct act.
Qed.

(** The call that waited goes on. *)
Lemma take_ends_wp clear n s k : system k -> note_of (k_vars k) (pxCurrentTCB (k_vars k)) = Some (n, s) ->
  wp (notify_take_finish clear) (fun v k' => v = n /\ system k' /\ note_of (k_vars k') (pxCurrentTCB (k_vars k)) =
    Some (if n =? 0 then 0 else if clear =? pdFALSE then n -u 1 else 0, taskNOT_WAITING_NOTIFICATION)) k.
Proof.
  intros Hs Hn. destruct (note_tcb_inv _ _ _ _ Hn) as (x & Hx & Ev & Es).
  eapply wp_mono; [apply wp_conj; [by apply take_finish_wp|by apply (take_end_system (D := nobody))]|]. cbv beta. intros v k' [[-> ->] Hs'].
  split; [done|]. split; [done|]. unfold note_of. simpl. rewrite lookup_insert_eq. unfold taken. simpl. by rewrite Ev.
Qed.

Lemma hand_note_wp n m value act clear k : wants_note n k -> n = portMAX_DELAY \/ Z.of_nat m < n ->
  wp (hand_note n m value act clear) (fun r k' => let v := delivered value act in
    (exists g, g <> pxCurrentTCB (k_vars k) /\ r = (g, pdPASS, pxCurrentTCB (k_vars k), v)) /\ system k' /\
    note_of (k_vars k') (pxCurrentTCB (k_vars k)) =
      Some (if v =? 0 then 0 else if clear =? pdFALSE then v -u 1 else 0, taskNOT_WAITING_NOTIFICATION)) k.
Proof.
  intros Hw Hm. unfold hand_note. set (t := pxCurrentTCB (k_vars k)) in *. wstep. apply wp_rdv.
  wstep. eapply wp_mono; [by apply (wait_for_note_wp n)|]. intros [] k1 [Hn1 _].
  wstep. eapply wp_mono; [by apply (noteless_through t n m)|]. intros [] k2 Hn2. apply wp_bind, wp_rdv.
  pose proof (asleep_other _ _ _ (nl_system _ _ _ Hn2) (nl_asleep _ _ _ Hn2)) as Hne.
  wstep. eapply wp_mono; [by eapply note_arrives_wp|]. intros r k3 (Hr & Hs3 & Hc3 & Hnote). apply wp_bind, wp_rdv.
  wstep. eapply wp_mono; [eapply take_ends_wp; [exact Hs3|by rewrite Hc3]|]. intros v k4 (-> & Hs4 & Hn4). wstep.
  rewrite Hc3 in Hn4 |- *. rewrite Hr. split; [eauto|done].
Qed.

Lemma note_times_out_wp n clear k T : wants_note n k -> n < portMAX_DELAY -> clock k T ->
  wp (note_times_out n clear) (fun r k' => r = (pxCurrentTCB (k_vars k), 0) /\ system k' /\ clock k' (T + n) /\
    note_of (k_vars k') (pxCurrentTCB (k_vars k)) = Some (0, taskNOT_WAITING_NOTIFICATION)) k.
Proof.
  intros Hw Hm Hclk. pose proof (wn_ticks _ _ Hw) as [Hn Hn0]. unfold note_times_out. set (t := pxCurrentTCB (k_vars k)) in *.
  wstep. eapply wp_mono; [by apply (wait_for_note_wp n)|]. intros [] k1 [[Hs1 Ha1 Hn1 Hu1] [Et Eo]].
  assert (Hclk1 : clock k1 T) by (destruct Hclk; split; by rewrite ?Et, ?Eo).
  assert (En : n = Z.of_nat (S (Z.to_nat (n - 1)))) by u32_lia. replace (Z.to_nat n) with (S (Z.to_nat (n - 1))) by lia.
  rewrite En in Ha1. wstep. eapply wp_mono; [apply (asleep_until t _ k1 T Hs1 Ha1); [lia|done]|].
  intros [] k2 (Hs2 & Hf2 & Et2 & Hclk2 & y & Hy & Hc). rewrite <- En in Hclk2.
  assert (Ht2 : pxCurrentTCB (k_vars k2) = t) by (eapply system_most_urgent; [done|by eapply same_urgent|done|done]).
  rewrite <- (so_notes _ _ (fr_vars _ _ Hf2)) in Hn1. apply wp_bind, wp_rdv. rewrite Ht2.
  wstep. destruct (note_tcb_inv _ _ _ _ Hn1) as (z & Hz & Ez & _).
  eapply wp_mono; [apply wp_conj; [eapply (take_ends_wp clear 0); [exact Hs2|by rewrite Ht2]|apply (take_finish_wp clear z); by rewrite Ht2]|].
  cbv beta. intros v k3 [(-> & Hs3 & Hn3) (_ & ->)]. wstep. rewrite Ht2 in Hn3.
  split; [done|]. split; [done|]. split; [by destruct Hclk2|]. rewrite Ht2. exact Hn3.
Qed.

(** vTaskResume on a task that waits for a notification without a time-out. *)
Lemma resume_noteless_wp t k : noteless t portMAX_DELAY k -> t <> NULL ->
  wp (vTaskResume t) (fun _ k' => system k' /\ pxCurrentTCB (k_vars k') = t /\
    note_of (k_vars k') t = Some (0, taskWAITING_NOTIFICATION)) k.
Proof.
  intros [Hs Ha Hn Hu] Hnull. destruct (note_tcb_inv _ _ _ _ Hn) as (x & Hx & _).
  pose proof (asleep_other _ _ _ Hs Ha) as Hne.
  assert (Hcan : can_resume t k = true).
  { unfold can_resume, looks_suspended. destruct (sd_tasks _ (sy_sound _ Hs) _ _ _ Hn) as (_ & He & _).
    destruct Ha as [[_ Hw]|[Ha _]]; [|unfold portMAX_DELAY in Ha; lia].
    rewrite Hw, He, !bool_decide_true by done. destruct (Z.eqb_spec t (pxCurrentTCB (k_vars k))); [congruence|].
    by destruct (Z.eqb_spec t NULL). }
  eapply wp_mono; [apply wp_conj; [by apply (resume_task_wp t x); [apply Hs|]|by apply (resume_system (D := nobody)); [|intros []|exists x]]|].
  cbv beta. intros [] k' [Hr Hs']. rewrite Hcan in Hr. split; [done|].
  destruct (rs_vars _ _ _ Hr) as (cur & yp & b & Ek). assert (Et : tcbs (k_vars k') = tcbs (k_vars k)) by by rewrite Ek.
  split; [|unfold note_of; by rewrite Et].
  eapply (system_most_urgent t x); [done|by eapply same_urgent|by rewrite Et|by apply (rs_wakes _ _ _ Hr)].
Qed.

Lemma resume_waiting_wp m clear k : wants_note portMAX_DELAY k -> pxCurrentTCB (k_vars k) <> NULL ->
  wp (resume_waiting m clear) (fun r k' => (exists g, g <> pxCurrentTCB (k_vars k) /\ r = (g, pxCurrentTCB (k_vars k), 0)) /\ system k') k.
Proof.
  intros Hw Hnull. unfold resume_waiting. set (t := pxCurrentTCB (k_vars k)) in *. wstep. apply wp_rdv.
  wstep. eapply wp_mono; [by apply wait_for_note_wp|]. intros [] k1 [Hn1 _].
  wstep. eapply wp_mono; [apply (noteless_through t portMAX_DELAY m); [done|by left]|]. intros [] k2 Hn2. apply wp_bind, wp_rdv.
  pose proof (asleep_other _ _ _ (nl_system _ _ _ Hn2) (nl_asleep _ _ _ Hn2)) as Hne.
  wstep. eapply wp_mono; [by apply resume_noteless_wp|]. intros [] k3 (Hs3 & Hc3 & Hnote). apply wp_bind, wp_rdv.
  wstep. eapply wp_mono; [eapply take_ends_wp; [exact Hs3|by rewrite Hc3]|]. intros v k4 (-> & Hs4 & _). wstep. rewrite Hc3. eauto.
Qed.

(** ** On the code *)

(** C9: a notification reaches the task that waits for it: if that task is more
    urgent than all others and waits long enough, then any other task's
    xTaskGenericNotify, [m] ticks later, succeeds and is preempted by it, and its
    ulTaskNotifyTake returns the value that was sent: the bits or the value given,
    1 for an increment, 0 for no action.  The task's notification value is then
    one less, or 0 if it was to be cleared. *)
Theorem notification_handover c k n m value act clear : RK rep c k -> wants_note n k ->
  n = portMAX_DELAY \/ Z.of_nat m < n ->
  on_code (hand_note n m value act clear) (fun r k' => let v := delivered value act in
    (exists g, g <> pxCurrentTCB (k_vars k) /\ r = (g, pdPASS, pxCurrentTCB (k_vars k), v)) /\ system k' /\
    note_of (k_vars k') (pxCurrentTCB (k_vars k)) =
      Some (if v =? 0 then 0 else if clear =? pdFALSE then v -u 1 else 0, taskNOT_WAITING_NOTIFICATION)) c.
Proof.
  intros HR Hw Hm. eapply wp_transfer; [|exact HR|by eapply hand_note_wp]. unfold hand_note.
  repeat sim_step; try apply interrupts_sim; try apply sim_rdv; [apply sim_notify_take_wait|apply sim_xTaskGenericNotify|apply sim_notify_take_finish]; apply _.
Qed.

(** A wait for a notification ends in time: a most urgent task that nobody
    notifies runs again after exactly [n] ticks, wrap-around of the tick count
    included, and its call returns 0 and leaves no trace. *)
Theorem notification_times_out c k n clear T : RK rep c k -> wants_note n k -> n < portMAX_DELAY -> clock k T ->
  on_code (note_times_out n clear) (fun r k' => r = (pxCurrentTCB (k_vars k), 0) /\ system k' /\ clock k' (T + n) /\
    note_of (k_vars k') (pxCurrentTCB (k_vars k)) = Some (0, taskNOT_WAITING_NOTIFICATION)) c.
Proof.
  intros HR Hw Hm Hclk. eapply wp_transfer; [|exact HR|by eapply note_times_out_wp]. unfold note_times_out.
  repeat sim_step; try apply interrupts_sim; try apply sim_rdv; [apply sim_notify_take_wait|apply sim_notify_take_finish]; apply _.
Qed.

(** C37: a wait for a notification without a time-out need not end with one: if
    another task resumes the waiting task, which is not suspended, it runs and its
    ulTaskNotifyTake returns 0. *)
Theorem resume_ends_notification_wait c k m clear : RK rep c k -> wants_note portMAX_DELAY k ->
  pxCurrentTCB (k_vars k) <> NULL ->
  on_code (resume_waiting m clear) (fun r k' =>
    (exists g, g <> pxCurrentTCB (k_vars k) /\ r = (g, pxCurrentTCB (k_vars k), 0)) /\ system k') c.
Proof.
  intros HR Hw Hnull. eapply wp_transfer; [|exact HR|by eapply resume_waiting_wp]. unfold resume_waiting.
  repeat sim_step; try apply interrupts_sim; try apply sim_rdv; [apply sim_notify_take_wait|apply sim_vTaskResume|apply sim_notify_take_finish]; apply _.
Qed.

(** C10: a suspended task stays suspended, and does not run, whatever happens next
    (ticks, messages, notifications, waits that are ended, ...), until it is
    resumed. *)
Theorem suspended_stays_suspended c k t c1 c2 : let t' := handle_task (k_vars c) t in
  RK rep c k -> system k -> allowed (k_vars c) (Suspend t) -> perform (Suspend t) c = Some (tt, c1) ->
  rtc (step_sparing (eq t')) c1 c2 ->
  exists k2, RK rep c2 k2 /\ system k2 /\ shelved t' k2 /\ pxCurrentTCB (k_vars k2) <> t'.
Proof.
  intros t' HR Hs [Ht Hni] E Hst. pose proof (proj2 HR) as Ek. unfold t' in *. rewrite Ek in *.
  set (u := handle_task (k_vars k) t) in *.
  pose proof (perform_sim (Suspend t)) as Hsim. pose proof (suspend_system (D := nobody) k t Hs Ht Hni) as Hw.
  destruct (wp_transfer _ _ _ _ _ _ Hsim HR Hw) as ([] & c1' & E' & k1 & HR1 & Hs1). rewrite E in E'. simplify_eq.
  apply (system_weaken (eq u)) in Hs1; [|intros ? <-; by right].
  destruct (reachable_sparing _ _ _ _ HR1 Hs1 Hst) as (k2 & HR2 & Hs2). exists k2. split; [done|].
  destruct (sd_known _ (sy_sound _ Hs2) u eq_refl) as [x Hx].
  destruct (sd_tasks _ (sy_sound _ Hs2) u _ _ (note_of_tcb _ _ _ Hx)) as (_ & _ & Hd). destruct (Hd eq_refl) as [_ Hsh].
  split; [|split; [done|]].
  - eapply system_weaken; [|exact Hs2]. intros ? [].
  - intros Hc. destruct (system_current _ Hs2) as (y & _ & Hy). rewrite Hc in Hy. destruct Hsh. congruence.
Qed.

End Notes.

(** ** Instances *)

Lemma asking_wants n : u32_range n -> n <> 0 -> wants_note n asking_abs.
Proof.
  intros Hn Hn0. split.
  - exact asking_system.
  - vm_compute. discriminate.
  - exists taskNOT_WAITING_NOTIFICATION. vm_compute. reflexivity.
  - split; assumption.
  - exact asking_urgent.
Qed.

(** The task waits for ever; three ticks later another one sends 7, which
    overwrites its value. *)
Lemma notification_handover_witness : on_code (hand_note portMAX_DELAY 3 7 eSetValueWithOverwrite pdTRUE)
  (fun r _ => exists g, r = (g, pdPASS, 4000, 7)) asking_ptr.
Proof.
  eapply wp_mono; [apply (notification_handover asking_ptr asking_abs portMAX_DELAY 3 7 eSetValueWithOverwrite pdTRUE asking_related)|].
  - apply asking_wants; [unfold u32_range, portMAX_DELAY, u32_modulus; lia|discriminate].
  - left. reflexivity.
  - intros r c' (k' & HR & (g & _ & E) & _). exists k'. split; [exact HR|exists g; exact E].
Defined.

Lemma notification_times_out_witness : on_code (note_times_out 10 pdTRUE) (fun r _ => r = (4000, 0)) asking_ptr.
Proof.
  eapply wp_mono; [apply (notification_times_out asking_ptr asking_abs 10 pdTRUE 0 asking_related)|].
  - apply asking_wants; [unfold u32_range, u32_modulus; lia|lia].
  - unfold portMAX_DELAY. lia.
  - split; vm_compute; reflexivity.
  - intros r c' (k' & HR & E & _). exists k'. split; [exact HR|exact E].
Defined.

Lemma resume_ends_notification_wait_witness : on_code (resume_waiting 2 pdTRUE) (fun r _ => exists g, g <> 4000 /\ r = (g, 4000, 0)) asking_ptr.
Proof.
  eapply wp_mono; [apply (resume_ends_notification_wait asking_ptr asking_abs 2 pdTRUE asking_related)|].
  - apply asking_wants; [unfold u32_range, portMAX_DELAY, u32_modulus; lia|discriminate].
  - vm_compute. discriminate.
  - intros r c' (k' & HR & E & _). exists k'. split; [exact HR|exact E].
Defined.

(** The most urgent task suspends itself; another one notifies it, and two ticks
    come. *)
Definition demo_suspended : CK := ends (perform (Suspend NULL)) asking_ptr.
Definition demo_notified : CK := ends (perform (Notify 4000 7 eSetBits)) demo_suspended.
Definition demo_later : CK := ends (perform Tick) demo_notified.

Lemma performed_sparing D ev (c : CK) : allowed (k_vars c) ev -> spares D ev -> bool_decide (is_Some (perform ev c)) = true ->
  step_sparing D c (ends (perform ev) c).
Proof.
  intros Ha Hsp [[[] c'] E]%bool_decide_eq_true. exists ev. split; [done|]. split; [done|]. unfold ends. by rewrite E.
Qed.

Lemma suspended_steps : rtc (step_sparing (eq 4000)) demo_suspended demo_later.
Proof.
  eapply rtc_l; [|eapply rtc_l; [|apply rtc_refl]].
  - apply (performed_sparing _ (Notify 4000 7 eSetBits)); [|exact I|vm_compute; reflexivity]. vm_compute. eauto.
  - apply (performed_sparing _ Tick); [exact I|exact I|vm_compute; reflexivity].
Qed.

Lemma suspended_stays_suspended_witness : exists k2, RK rep demo_later k2 /\ shelved 4000 k2 /\ pxCurrentTCB (k_vars k2) <> 4000.
Proof.
  destruct (suspended_stays_suspended asking_ptr asking_abs NULL demo_suspended demo_later asking_related asking_system) as (k2 & HR & _ & Hsh & Hc).
  - split; vm_compute; [eauto|discriminate].
  - vm_compute. reflexivity.
  - exact suspended_steps.
  - exists k2. split; [exact HR|]. split; [exact Hsh|exact Hc].
Defined.
