(* ===== verification/MutexTheorems.v ===== *)
(** * A mutex changes hands

    A task that asks for a mutex another task holds gives the holder its
    priority and goes to sleep.  The holder runs, whatever else becomes
    ready; when it gives the mutex back it has its own priority again, and
    the task that waited runs and takes the mutex. *)

From S2P Require Import Prelude Simulation History Config ListC ListSpec ListRefine ListObs ListProps Heap4 Kernel Tasks TaskApi TaskEvents Queue KernelRefine DriversRefine KernelInv Frames KernelSteps SchedProps ResumeProps KernelDemo SchedTheorems SuspendProps PriorityProps PriorityTheorems TimeoutTheorems EventProps QueueData QueueTheorems SemaphoreTheorems BlockProps WaitTheorems NotifyProps ControlProps System SystemTasks SystemTheorems SleepProps HandoverTheorems.

Section Scripts.
Context {H : Type} `{!ListOps item list_id H}.
Notation K := (Kernel H).

Definition take_again (q : Z) (r : q_locals + Z) : M K (q_locals + Z) :=
  match r with inl l => run (xQueueSemaphoreTake_iter q l) | inr _ => mret r end.

(** A task asks for the mutex; [m] ticks later the task that then runs gives
    it back; the task that runs then goes on with the first one's call. *)
Definition change_hands (q n : Z) (m : nat) (l : q_locals) : M K (Z * (q_locals + Z) * Z * (q_locals + Z)) :=
  r ← run (xQueueSemaphoreTake_iter q (entering n)); interrupts m;;
  t1 ← rdv pxCurrentTCB; s ← run (xQueueGenericSend_iter q [] queueSEND_TO_BACK l);
  t2 ← rdv pxCurrentTCB; r' ← take_again q r; mret (t1, s, t2, r').
End Scripts.

Section Mutex.
Implicit Types (k : KA) (c : CK) (x : Queue_t) (y z : TCB_t).

Record mutex x : Prop := {
  mx_size : uxItemSize x = 0;
  mx_type : uxQueueType x = queueQUEUE_IS_MUTEX;
  mx_length : uxLength x = 1
}.

(** ** Taking a free mutex *)

Definition taken_by (t : Z) x : Queue_t := set_xMutexHolder t (set_uxMessagesWaiting 0 x).
Definition one_more y : TCB_t := set_uxMutexesHeld (uxMutexesHeld y +u 1) y.

Lemma take_free_wp q x y l k : running k -> has_queue q x k -> mutex x -> uxMessagesWaiting x = 1 ->
  tcbs (k_vars k) !! pxCurrentTCB (k_vars k) = Some y -> pxCurrentTCB (k_vars k) <> NULL ->
  wp (take_try q l) (fun r k' => r = inr pdPASS /\
    served (xTasksWaitingToSend q) (with_queue q (taken_by (pxCurrentTCB (k_vars k)) x)
      (mkKernel (k_lists k) (put_tcb (pxCurrentTCB (k_vars k)) (one_more y) (k_vars k)))) k') k.
Proof.
  intros Hrun Hq [Hsz Hty Hlen] Hc Hy Hn. unfold take_try. wstep. eapply wp_rd_queue; [apply Hq|]. rewrite Hc.
  cbn [Z.ltb Z.compare]. wstep. eapply wp_wr_queue; [apply Hq|]. change (1 -u 1) with 0. wstep.
  eapply wp_rd_queue; [apply lookup_with_queue|]. change (uxQueueType (set_uxMessagesWaiting 0 x)) with (uxQueueType x).
  rewrite Hty. wstep. unfold pvTaskIncrementMutexHeldCount. apply wp_bind. wsteps. rewrite (proj2 (Z.eqb_neq _ NULL)) by done. cbn [negb].
  eapply wp_wr_tcb; [exact Hy|]. wsteps. eapply wp_wr_queue; [apply lookup_insert_eq|].
  match goal with |- wp _ _ ?k0 => replace k0 with (with_queue q (taken_by (pxCurrentTCB (k_vars k)) x)
      (mkKernel (k_lists k) (put_tcb (pxCurrentTCB (k_vars k)) (one_more y) (k_vars k)))) end.
  2: { unfold with_queue. cbn [k_lists k_vars]. simpl. by rewrite insert_insert_eq. }
  apply wp_bind2. eapply wp_mono; [apply wake_and_yield_wp; [|done|apply Hq]|].
  - apply with_queue_running. by eapply (with_tcb_running k).
  - intros [] k' Hsv. by wstep.
Qed.

(** ** Waiting for a held mutex *)

(** The running task may ask for the mutex [q], which the task [t] holds, and
    wait [n] ticks for it; nobody else waits. *)
Record asks_held (q : Z) x (t : Z) y (n : Z) k : Prop := {
  ah_system : system k;
  ah_not_idle : pxCurrentTCB (k_vars k) <> xIdleTaskHandle (k_vars k);
  ah_queue : queues (k_vars k) !! q = Some x;
  ah_mutex : mutex x;
  ah_held : uxMessagesWaiting x = 0 /\ xMutexHolder x = t;
  ah_holder : tcbs (k_vars k) !! t = Some y;
  ah_only : uxMutexesHeld y = 1 /\ uxBasePriority y <= uxPriority y;
  ah_ready : cont_of (k_lists k) (StateItem t) = Some (Ready (uxPriority y));
  ah_tasks : t <> NULL /\ t <> pxCurrentTCB (k_vars k) /\ pxCurrentTCB (k_vars k) <> NULL;
  ah_waiters : items_of (k_lists k) (xTasksWaitingToReceive q) = [];
  ah_fresh z : tcbs (k_vars k) !! pxCurrentTCB (k_vars k) = Some z -> ucDelayAborted z = pdFALSE;
  ah_ticks : u32_range n /\ n <> 0;
  ah_urgent : most_urgent (pxCurrentTCB (k_vars k)) k;
  ah_between : between_calls (k_vars k)
}.

Lemma asks_held_wait q x t y n k : asks_held q x t y n k -> can_wait q x k.
Proof.
  intros []. destruct (sy_queues _ _ _ ah_system0 ah_queue0) as [[Hu _] Hq]. by eapply system_can_wait.
Qed.

(** The holder has the priority of the task that asks. *)
Definition lent (t : Z) y (p : Z) k k' : Prop := exists h' b,
  k' = mkKernel h' (set_uxTopReadyPriority b (put_tcb t (set_uxPriority p y) (k_vars k))) /\
  relocated t (set_uxPriority p y) (k_lists k) h' /\ list_frame (k_lists k) h' /\ kinv k'.

Lemma keeps_inherit t : keeps (xTaskPriorityInherit t).
Proof. unfold xTaskPriorityInherit. solve_keeps. Qed.
Lemma keeps_disinherit t : keeps (xTaskPriorityDisinherit t).
Proof. unfold xTaskPriorityDisinherit. solve_keeps. Qed.

(** Lending happens while the scheduler is suspended and the queue locked. *)
Lemma lend_wp q x t y z n k : asks_held q x t y n k -> tcbs (k_vars k) !! pxCurrentTCB (k_vars k) = Some z -> uxPriority y < uxPriority z ->
  wp (xTaskPriorityInherit t) (fun r k' => exists k3, k' = locked_at q x k3 /\ lent t y (uxPriority z) k k3) (locked_at q x k).
Proof.
  intros Ha Hz Hlt. pose proof (locked_rest q x k (sy_quiet _ (ah_system _ _ _ _ _ _ Ha))) as Hr.
  eapply wp_mono; [apply wp_keeps; [apply keeps_inherit|apply (inherit_wp _ t y z); [apply Hr|apply Ha|apply Ha|exact Hz]]|].
  intros r k'. rewrite (proj2 (Z.ltb_lt _ _)) by done. intros [[_ (h' & b & -> & Hinv & Hrel)] [Hf _]].
  cbn [k_lists k_vars locked_at with_queue suspended] in *. exists (mkKernel h' (set_uxTopReadyPriority b (put_tcb t (set_uxPriority (uxPriority z) y) (k_vars k)))).
  split.
  - unfold locked_at, with_queue, suspended. cbn [k_lists k_vars]. reflexivity.
  - exists h', b. split_and!; try done. eapply kinv_vars; [..|exact Hinv]; by destruct (k_vars k).
Qed.

(** What stays when a task lends its priority. *)
Lemma lent_items l t y p k k3 : kinv k -> is_event_list l = true -> lent t y p k k3 -> items_of (k_lists k) l = [] -> items_of (k_lists k3) l = [].
Proof.
  intros Hinv Hl (h' & b & -> & [Ho _] & _ & Hinv3) He. apply no_item_empty; [done|]. intros i. cbn [k_lists].
  destruct (decide (i = StateItem t)) as [->|Hne].
  - intros Hc. apply (kc_state _ _ (ki_core _ Hinv3)) in Hc as [_ Hc]. by destruct l.
  - rewrite Ho by done. intros Hc%(awf_mem _ (kc_wf _ _ (ki_core _ Hinv))). rewrite He in Hc. set_solver.
Qed.

Lemma lent_frame t y p k k3 : tcbs (k_vars k) !! t = Some y -> lent t y p k k3 -> frame k k3.
Proof. intros Hy (h' & b & -> & _ & Hl & _). split; [done|]. split; try done. intros u. by eapply note_of_insert. Qed.

Lemma lent_stay t y p k k3 : lent t y p k k3 -> tasks_stay nobody k k3.
Proof. intros (h' & b & -> & Hr & _). by eapply relocated_stay. Qed.

Lemma lent_holder t y p k k3 : lent t y p k k3 -> cont_of (k_lists k) (StateItem t) = Some (Ready (uxPriority y)) ->
  cont_of (k_lists k3) (StateItem t) = Some (Ready p).
Proof. intros (h' & b & -> & [_ [[_ Hc]|[Hno _]]] & _) Ht; [exact Hc|by destruct (Hno (uxPriority y))]. Qed.

Lemma lent_quiet t y p k k3 : quiet k -> tcbs (k_vars k) !! t = Some y -> lent t y p k k3 ->
  cont_of (k_lists k) (StateItem t) = Some (Ready (uxPriority y)) -> quiet k3.
Proof.
  intros Hq Hy Hl Ht. pose proof (lent_holder _ _ _ _ _ Hl Ht) as Hc. destruct Hl as (h' & b & -> & Hrel & _ & Hinv).
  eapply relocated_quiet; [done|exact Hy|exact Hinv|exact Hrel|]. by exists t, p.
Qed.

Lemma lent_idle t y p k k3 : lent t y p k k3 -> idle_ready k -> idle_ready k3.
Proof. intros (h' & b & -> & Hrel & _) [q Hi]. by eapply relocated_ready. Qed.

Lemma put_urgent H t y z k k' : tcbs (k_vars k') = <[t := z]> (tcbs (k_vars k)) -> tcbs (k_vars k) !! t = Some y -> t <> H ->
  most_urgent H k -> exists w, tcbs (k_vars k') !! H = Some w /\ tcbs (k_vars k) !! H = Some w /\
  forall u v, u <> H -> u <> t -> tcbs (k_vars k') !! u = Some v -> uxPriority v < uxPriority w.
Proof.
  intros E Hy Hne (w & Hw & Hlt). exists w. rewrite E. split; [by rewrite lookup_insert_ne|]. split; [done|].
  intros u v Hu Hut. rewrite lookup_insert_ne by done. by apply Hlt.
Qed.

(** The state in which the holder runs for the waiting task. *)
Record lent_to (q : Z) x (H t : Z) y z (n : Z) k : Prop := {
  lt_system : system k;
  lt_queue : has_queue q x k;
  lt_sleeps : sleeps H (xTasksWaitingToReceive q) n k;
  lt_waiter : tcbs (k_vars k) !! H = Some (set_ucDelayAborted pdFALSE z);
  lt_holder : tcbs (k_vars k) !! t = Some (set_uxPriority (uxPriority z) y);
  lt_ready : cont_of (k_lists k) (StateItem t) = Some (Ready (uxPriority z));
  lt_others u v : u <> H -> u <> t -> tcbs (k_vars k) !! u = Some v -> uxPriority v < uxPriority z;
  lt_idle : xIdleTaskHandle (k_vars k) <> H
}.

(** It does run. *)
Lemma sleeps_not_ready t l n k p : kinv k -> sleeps t l n k -> cont_of (k_lists k) (StateItem t) <> Some (Ready p).
Proof.
  intros Hinv [_ [[_ E]|[_ [[[E|E] _] _]]]]; rewrite E; [done|..];
    by destruct (kc_delayed _ _ (ki_core _ Hinv)) as [[E1 E2]|[E1 E2]]; rewrite ?E1, ?E2.
Qed.

Lemma lent_to_runs q x H t y z n k : lent_to q x H t y z n k -> pxCurrentTCB (k_vars k) = t.
Proof.
  intros [Hs _ Hsl _ Ht Hc Ho _]. destruct (sy_highest _ Hs) as (v & Hz & Hcz & Hmax).
  pose proof (rn_inv _ (qt_running _ (sy_quiet _ Hs))) as Hinv.
  destruct (decide (pxCurrentTCB (k_vars k) = t)) as [|Hne]; [done|].
  destruct (decide (pxCurrentTCB (k_vars k) = H)) as [E|Hne2]; [rewrite E in Hcz; by apply (sleeps_not_ready _ _ _ _ _ Hinv Hsl) in Hcz|].
  pose proof (Ho _ _ Hne2 Hne Hz). pose proof (Hmax _ _ Hc). lia.
Qed.

(** Ticks within the time-out change nothing about that. *)
Lemma lent_to_ticks q x H t y z n m k : lent_to q x H t y z n k -> n = portMAX_DELAY \/ Z.of_nat m < n ->
  wp (interrupts m) (fun _ k' => lent_to q x H t y z (ticks_left n m) k') k.
Proof.
  intros [Hs Hq Hsl Hw Ht Hc Ho Hid] Hm. eapply wp_mono; [apply (sleeps_through H (xTasksWaitingToReceive q) m eq_refl k n Hs Hsl Hm)|].
  intros [] k' (Hs' & Hf & Et & Hsl' & Hr). split; try done; rewrite ?Et; try done.
  - by eapply frame_queue.
  - by apply Hr.
  - destruct Hf as [_ [_ _ _ -> _ _]]. done.
Qed.

(** ** The first round *)

Lemma take_blocks_wp q x t y z n k : asks_held q x t y n k -> tcbs (k_vars k) !! pxCurrentTCB (k_vars k) = Some z ->
  wp (run (xQueueSemaphoreTake_iter q (entering n))) (fun r k' => (exists i, r = inl (mkLocals n (Some (entry_time k)) i)) /\
    lent_to q x (pxCurrentTCB (k_vars k)) t y z n k') k.
Proof.
  intros Ha Hz. pose proof (asks_held_wait _ _ _ _ _ _ Ha) as [Hq Hhi Hcur Hoth Hx Hu Hval].
  pose proof Ha as [Hs Hni Hqx [Hsz Hty Hlen] [Hc Hho] Hy _ Hrdy (Hn0 & Hne & _) Hno Hab [Hn Hnn] Hurg].
  assert (Hlt : uxPriority y < uxPriority z) by (destruct Hurg as (z' & Hz' & Hlt); rewrite Hz in Hz'; injection Hz' as <-; by apply (Hlt t)).
  unfold xQueueSemaphoreTake_iter. apply wp_run_bind, wp_run_atomic. unfold take_try. wstep. eapply wp_rd_queue; [apply Hx|].
  rewrite Hc. cbn [Z.ltb Z.compare]. apply or_wait_wp; [done|]. intros _.
  apply (lock_and_check_now_wp q x); [done|apply Hx|done|done|done|done|exact Hab|].
  eapply wp_run_read; [eapply is_empty_wp, lookup_with_queue|].
  change (uxMessagesWaiting (locked x)) with (uxMessagesWaiting x). rewrite Hc. cbn [Z.eqb].
  apply wp_run_bind, wp_run_atomic. unfold inherit_for_mutex. wstep. eapply wp_rd_queue; [apply lookup_with_queue|].
  change (uxQueueType (locked x)) with (uxQueueType x). rewrite Hty, Z.eqb_refl. wstep. eapply wp_rd_queue; [apply lookup_with_queue|].
  change (xMutexHolder (locked x)) with (xMutexHolder x). rewrite Hho. wstep.
  eapply wp_mono; [by eapply lend_wp|]. intros i kc (k3 & -> & Hl). wstep. cbn [started entering l_ticks l_timeout from_option id].
  destruct (lent_frame _ _ _ _ _ Hy Hl) as [[Hls Hvs] Hobj]. pose proof (lent_quiet _ _ _ _ _ Hq Hy Hl Hrdy) as Hq3.
  pose proof (lent_holder _ _ _ _ _ Hl Hrdy) as Hc3. pose proof (lent_items (xTasksWaitingToReceive q) _ _ _ _ _ (rn_inv _ (qt_running _ Hq)) eq_refl Hl Hno) as Hit3.
  pose proof (lent_idle _ _ _ _ _ Hl (sy_idle _ Hs)) as [pi Hidle]. pose proof (lent_frame _ _ _ _ _ Hy Hl) as Hf3. pose proof (lent_stay _ _ _ _ _ Hl) as Hst3.
  destruct Hl as (h' & b & -> & [Ho _] & _ & _). set (k3 := mkKernel h' _) in *. cbn [k_lists k_vars] in *.
  assert (Hcr3 : current_ready k3).
  { destruct Hcur as (w & p & Hw & Hcw & Hew). exists z, p. subst k3. cbn [k_lists k_vars]. simpl. by rewrite lookup_insert_ne, !Ho by congruence. }
  eapply wp_mono; [apply (block_wp q x (xTasksWaitingToReceive q) n _ k3)|].
  - done.
  - done.
  - exists t, (uxPriority z). done.
  - done.
  - done.
  - apply Hls, Hx.
  - intros u. destruct (Hvs u) as [?| ->]; [done|apply Hval].
  - done.
  - done.
  - apply Hx.
  - done.
  - intros r k4 [-> Hw]. split; [by exists i|]. pose proof Hw as [Hq4 Hh4 Hf4 Hc4 _ _ _ (z' & Hz' & Et4)].
    change (pxCurrentTCB (k_vars k3)) with (pxCurrentTCB (k_vars k)) in *. pose proof (transitivity Hf3 Hf4) as Hf.
    assert (Hid : xIdleTaskHandle (k_vars k4) = xIdleTaskHandle (k_vars k)) by apply (fr_vars _ _ Hf).
    subst k3. set (k3 := mkKernel h' _) in *. cbn [k_lists k_vars] in *. simpl in Hz'. rewrite lookup_insert_ne in Hz' by congruence. simplify_eq.
    assert (Hu4 : forall u, u <> pxCurrentTCB (k_vars k) -> u <> xMutexHolder x -> tcbs (k_vars k4) !! u = tcbs (k_vars k) !! u).
    { intros u H1 H2. rewrite Et4, lookup_insert_ne by congruence. simpl. by rewrite lookup_insert_ne by congruence. }
    split.
    + eapply system_frame; [exact Hs|exact Hf|done|done| |].
      * exists pi. rewrite Hid, Hc4, !decide_False by congruence. exact Hidle.
      * eapply stay_trans; [exact Hf3|exact Hst3|]. eapply (waited_stay (D := nobody)); [| |exact Hw]; [done|].
        intros m E. apply (ah_between _ _ _ _ _ _ Ha m). by rewrite <- (so_notes _ _ (fr_vars _ _ Hf3)).
    + by eapply frame_queue.
    + by apply (went_sleeps (xTasksWaitingToReceive q) n k3 k4).
    + by rewrite Et4, lookup_insert_eq.
    + rewrite Et4, lookup_insert_ne by congruence. simpl. by rewrite lookup_insert_eq.
    + rewrite Hc4, !decide_False by congruence. exact Hc3.
    + intros u v H1 H2 Hv. rewrite Hu4 in Hv by done. destruct Hurg as (z2 & Hz2 & Hl2). simplify_eq. by apply (Hl2 u).
    + rewrite Hid. congruence.
Qed.

(** ** Giving it back *)

Definition returned x : Queue_t := set_uxMessagesWaiting 1 (set_xMutexHolder NULL x).
Definition restored y : TCB_t := set_uxPriority (uxBasePriority y) (set_uxMutexesHeld 0 y).

(** The holder with its own priority again, before the wake-up. *)
Lemma restore_wp q x H t y z n k : lent_to q x H t y z n k -> t <> NULL -> uxMutexesHeld y = 1 -> uxBasePriority y < uxPriority z ->
  wp (xTaskPriorityDisinherit t) (fun r k' => sound k' /\ frame k k' /\ pxCurrentTCB (k_vars k') = t /\
    tcbs (k_vars k') = <[t := restored y]> (tcbs (k_vars k)) /\
    forall i, cont_of (k_lists k') i = Some (xTasksWaitingToReceive q) <-> i = EventItem H) k.
Proof.
  intros Hl Hn Hh Hb. pose proof (lent_to_runs _ _ _ _ _ _ _ _ Hl) as Hcur. destruct Hl as [Hs Hq Hsl _ Ht Hc _ _].
  pose proof (sy_quiet _ Hs) as Hqt. pose proof (rn_inv _ (qt_running _ Hqt)) as Hinv.
  eapply wp_mono; [apply wp_keeps; [apply keeps_disinherit|apply (disinherit_wp k t (set_uxPriority (uxPriority z) y)); done]|].
  intros r k'. cbv zeta. change (uxPriority (set_uxPriority (uxPriority z) y)) with (uxPriority z). change (uxBasePriority (set_uxPriority (uxPriority z) y)) with (uxBasePriority y).
  change (uxMutexesHeld (set_uxPriority (uxPriority z) y)) with (uxMutexesHeld y). rewrite Hh, (proj2 (Z.eqb_neq (uxPriority z) _)) by lia.
  change (1 -u 1) with 0. cbn [negb andb Z.eqb].
  intros [[_ (h' & b & -> & Hinv' & Hrel)] Hf]. split_and!; [|done|exact Hcur|done|].
  - eapply sound_frame; [apply Hs|exact Hf| | |by eapply relocated_stay].
    + eapply relocated_quiet; [done|exact Ht|exact Hinv'|exact Hrel|]. destruct Hrel as [_ [[_ Hr]|[Hno _]]]; [by do 2 eexists|by destruct (Hno (uxPriority z))].
    + destruct (sy_idle _ Hs) as [pi Hi]. by eapply relocated_ready.
  - intros i. cbn [k_lists]. rewrite <- (sl_alone _ _ _ _ Hsl). destruct (decide (i = StateItem t)) as [->|Hne].
    + rewrite Hc. split; [|done]. intros E. by apply (kc_state _ _ (ki_core _ Hinv')) in E as [_ ?].
    + by rewrite (proj1 Hrel).
Qed.

Lemma give_wp q x H t y z n l k : lent_to q x H t y z n k -> mutex x -> uxMessagesWaiting x = 0 -> xMutexHolder x = t -> unlocked x ->
  t <> NULL -> t <> H -> uxMutexesHeld y = 1 -> uxBasePriority y < uxPriority z ->
  wp (send_try q [] queueSEND_TO_BACK l) (fun r k' => r = inr pdPASS /\ system k' /\ pxCurrentTCB (k_vars k') = H /\
    queues (k_vars k') !! q = Some (returned x) /\ tcbs (k_vars k') = <[t := restored y]> (tcbs (k_vars k)) /\
    xIdleTaskHandle (k_vars k') <> H) k.
Proof.
  intros Hl [Hsz Hty Hlen] Hc Hho Hu Hn Hne Hh Hb. pose proof Hl as [Hs Hq _ Hw Ht _ Ho Hid]. set (w := set_ucDelayAborted pdFALSE z) in *. unfold send_try.
  wstep. eapply wp_rd_queue; [apply Hq|]. wstep. eapply wp_rd_queue; [apply Hq|]. rewrite Hc, Hlen. cbn [Z.ltb Z.compare orb].
  unfold prvCopyDataToQueue. apply wp_bind, wp_bind. eapply wp_rd_queue; [apply Hq|]. cbn [id]. rewrite Hsz, Hty. cbn [Z.eqb].
  rewrite Z.eqb_refl. apply wp_bind, wp_bind. rewrite Hho. eapply wp_mono; [by eapply restore_wp|].
  intros r k1 (Hs1 & Hf1 & Hcur1 & Et1 & Ha1). pose proof (frame_queue _ _ _ _ Hf1 Hq) as Hq1.
  apply wp_bind. eapply wp_wr_queue; [apply Hq1|]. apply wp_ret. apply wp_bind. eapply wp_wr_queue; [apply lookup_with_queue|].
  apply wp_ret. rewrite with_queue_twice, Hc. change (set_uxMessagesWaiting (0 +u 1) _) with (returned x).
  pose proof (sd_quiet _ Hs1) as Hqt1. set (k2 := with_queue q (returned x) k1).
  pose proof (with_queue_running q (returned x) k1 (qt_running _ Hqt1)) as Hrun2. fold k2 in Hrun2.
  pose proof (alone_items H (xTasksWaitingToReceive q) k2 (rn_inv _ Hrun2) Ha1) as Hi2.
  apply wp_bind. apply (wp_listIS_EMPTY _ (k_lists k1) (k_vars k2)); [apply Hq1|].
  change (items_of (k_lists k1) (xTasksWaitingToReceive q)) with (items_of (k_lists k2) (xTasksWaitingToReceive q)).
  rewrite Hi2, bool_decide_false by done. cbn [negb]. change (mkKernel (k_lists k1) (k_vars k2)) with k2.
  apply wp_bind. eapply wp_mono; [apply (wake_and_yield_wp (xTasksWaitingToReceive q)); [done|done|apply Hq1]|].
  intros [] k3 Hsv. apply wp_ret. split; [done|].
  assert (Et2 : tcbs (k_vars k2) = <[t := restored y]> (tcbs (k_vars k))) by done.
  assert (Hw2 : tcbs (k_vars k2) !! H = Some w) by (by rewrite Et2, lookup_insert_ne).
  assert (Hhi3 : runs_highest k3).
  { eapply (sv_preempts _ _ _ Hsv H [] w (restored y) Hi2 Hw2).
    - change (pxCurrentTCB (k_vars k2)) with (pxCurrentTCB (k_vars k1)). by rewrite Hcur1, Et2, lookup_insert_eq.
    - exact Hb. }
  destruct (sv_wakes _ _ _ Hsv H [] w Hi2 Hw2) as [Hc3 _]. destruct (sv_vars _ _ _ Hsv) as (cur & yp & b & Ev3).
  assert (Et3 : tcbs (k_vars k3) = tcbs (k_vars k2)) by (by rewrite Ev3).
  assert (Hs3 : sound k3).
  { eapply (served_sound q x (returned x) (xTasksWaitingToReceive q)); [exact Hs1|apply Hq1| |done|exact Hsv|by eapply served_has, with_queue_has].
    split; [exact Hu|]. right. right. done. }
  split; [by split|]. split.
  { apply (most_urgent_runs H w k3 (rn_inv _ (qt_running _ (sd_quiet _ Hs3))) Hhi3); [|by rewrite Et3|done].
    exists w. split; [by rewrite Et3|]. intros u v Hu1 Hv. rewrite Et3, Et2 in Hv. destruct (decide (u = t)) as [->|Hut].
    - rewrite lookup_insert_eq in Hv. injection Hv as <-. exact Hb.
    - rewrite lookup_insert_ne in Hv by done. by apply (Ho u). }
  split_and!; [by rewrite Ev3; simpl; apply lookup_insert_eq|by rewrite Et3, Et2|].
  rewrite Ev3. simpl. destruct Hf1 as [_ [_ _ _ -> _ _]]. exact Hid.
Qed.

(** ** The whole exchange *)

Lemma change_hands_wp q x t y n m l k : asks_held q x t y n k -> n = portMAX_DELAY \/ Z.of_nat m < n ->
  wp (change_hands q n m l) (fun r k' => r = (t, inr pdPASS, pxCurrentTCB (k_vars k), inr pdPASS) /\ system k' /\
    (exists x', queues (k_vars k') !! q = Some x' /\ mutex x' /\ uxMessagesWaiting x' = 0 /\ xMutexHolder x' = pxCurrentTCB (k_vars k)) /\
    exists z, tcbs (k_vars k) !! pxCurrentTCB (k_vars k) = Some z /\
      tcbs (k_vars k') !! pxCurrentTCB (k_vars k) = Some (one_more (set_ucDelayAborted pdFALSE z)) /\
      tcbs (k_vars k') !! t = Some (set_uxPriority (uxBasePriority y) (set_uxMutexesHeld 0 y))) k.
Proof.
  intros Ha Hm. destruct (ah_urgent _ _ _ _ _ _ Ha) as (z & Hz & Hlt). unfold change_hands.
  pose proof (asks_held_wait _ _ _ _ _ _ Ha) as Hcw. pose proof Ha as [Hs _ _ Hmx [Hc Hho] Hy [Hh Hb] _ (Hn0 & Hne & Hcn) _ _ _ _].
  set (H := pxCurrentTCB (k_vars k)) in *. assert (Hbp : uxBasePriority y < uxPriority z) by (pose proof (Hlt t y Hne Hy); lia).
  wstep. eapply wp_mono; [by eapply take_blocks_wp|]. intros r k1 [[i ->] Hl1]. fold H in Hl1.
  wstep. eapply wp_mono; [by apply lent_to_ticks|]. intros [] k2 Hl2. apply wp_bind, wp_rdv.
  rewrite (lent_to_runs _ _ _ _ _ _ _ _ Hl2). wstep. apply wp_run_bind, wp_run_atomic.
  eapply wp_mono; [by eapply give_wp; [exact Hl2|exact Hmx|exact Hc|exact Hho|apply Hcw|..]|].
  intros s k3 (-> & Hs3 & Hcur3 & Hx3 & Et3 & Hid3). apply wp_run_ret. apply wp_bind, wp_rdv. rewrite Hcur3. wstep. cbn [take_again].
  assert (Hq3 : has_queue q (returned x) k3) by by apply (sy_queues _ _ _ Hs3).
  assert (Hz3 : tcbs (k_vars k3) !! H = Some (set_ucDelayAborted pdFALSE z)) by (rewrite Et3, lookup_insert_ne by done; apply Hl2).
  apply wp_run_bind, wp_run_atomic.
  eapply wp_mono; [apply (take_free_wp q (returned x) (set_ucDelayAborted pdFALSE z)); [apply (qt_running _ (sy_quiet _ Hs3))|done| |done|by rewrite Hcur3|by rewrite Hcur3]|].
  { by destruct Hmx. }
  rewrite Hcur3. intros r k4 [-> Hsv4]. apply wp_run_ret. apply wp_ret. split; [done|].
  set (kt := mkKernel (k_lists k3) _) in Hsv4. destruct (sv_vars _ _ _ Hsv4) as (cur & yp & b & Ev4).
  assert (Hst : system kt) by (apply (with_tcb_system H (set_ucDelayAborted pdFALSE z) (one_more (set_ucDelayAborted pdFALSE z)) k3); [done|exact Hz3|done|rewrite <- Hcur3; intros _; split; [by apply (current_event (D := nobody))|by intros []]]).
  split; [split|split].
  - eapply (served_sound q (returned x) (taken_by H (returned x)) (xTasksWaitingToSend q)); [apply Hst|apply Hq3| |done|exact Hsv4|].
    + split; [by destruct Hcw as [_ _ _ _ _ [? ?] _]|]. right. right. by destruct Hmx.
    + eapply served_has; [exact Hsv4|]. eapply with_queue_has. exact (Build_has_queue _ _ kt (hq_queue _ _ _ Hq3) (hq_send _ _ _ Hq3) (hq_receive _ _ _ Hq3)).
  - apply (sv_highest _ _ _ Hsv4). apply with_queue_highest, Hst.
  - exists (taken_by H (returned x)). rewrite Ev4. simpl. rewrite lookup_insert_eq. split_and!; [done|by destruct Hmx|done|done].
  - exists z. split; [done|]. rewrite Ev4. simpl. rewrite lookup_insert_eq. split; [done|].
    rewrite lookup_insert_ne, Et3, lookup_insert_eq by done. done.
Qed.

Lemma take_again_sim q r : sim (RK rep) (take_again (H := lheap item list_id) q r) (take_again (H := AH) q r).
Proof. destruct r; [apply psim_run, psim_xQueueSemaphoreTake_iter, list_c_refines|apply sim_ret]. Qed.

(** C3: priority inheritance bounds the wait for a mutex: when the most urgent
    task asks for a mutex another task holds, the holder runs next, and keeps
    the processor through any number of ticks within the time-out, whatever
    tasks of priorities between the two become ready.  When it gives the
    mutex back it has its base priority again, the task that waited runs
    within that call, and its next round of xQueueSemaphoreTake takes the
    mutex: it is the holder, and counts one more mutex. *)
Theorem mutex_changes_hands c k q x t y n m l : RK rep c k -> asks_held q x t y n k ->
  n = portMAX_DELAY \/ Z.of_nat m < n ->
  on_code (change_hands q n m l) (fun r k' => r = (t, inr pdPASS, pxCurrentTCB (k_vars k), inr pdPASS) /\ system k' /\
    (exists x', queues (k_vars k') !! q = Some x' /\ mutex x' /\ uxMessagesWaiting x' = 0 /\ xMutexHolder x' = pxCurrentTCB (k_vars k)) /\
    exists z, tcbs (k_vars k) !! pxCurrentTCB (k_vars k) = Some z /\
      tcbs (k_vars k') !! pxCurrentTCB (k_vars k) = Some (one_more (set_ucDelayAborted pdFALSE z)) /\
      tcbs (k_vars k') !! t = Some (set_uxPriority (uxBasePriority y) (set_uxMutexesHeld 0 y))) c.
Proof.
  intros HR Ha Hm. eapply wp_transfer; [|exact HR|by apply (change_hands_wp q x)]. unfold change_hands.
  repeat sim_step; try apply interrupts_sim; try apply sim_rdv; try apply take_again_sim; apply psim_run;
    [apply psim_xQueueSemaphoreTake_iter|apply psim_xQueueGenericSend_iter]; apply list_c_refines.
Qed.

End Mutex.

(** ** Instance *)

(** The task at 2000, of priority 1, holds the mutex at 9000; the one at 3000,
    of priority 3, runs; one of priority 2, at 4000, is ready too. *)
Definition crowd_setup {H} `{!ListOps item list_id H} : M (Kernel H) unit := mutex_setup;; create 4000 2.

Definition crowd_abs : KA := ends crowd_setup (mkKernel (mkAheap ∅ ∅) vars0).
Definition crowd_ptr : CK := ends crowd_setup (mkKernel (mkLheap ∅ ∅) vars0).

Lemma crowd_related : RK rep crowd_ptr crowd_abs.
Proof.
  apply ends_related; [|apply start_related|by vm_compute]. apply sim_bind; [apply mutex_setup_sim|intros []].
  unfold create. apply sim_bind; [apply sim_prvInitialiseNewTask|intros ?; apply sim_add_new_task]; apply list_c_refines.
Qed.

Definition crowd_mutex : Queue_t := default empty_queue (queues (k_vars crowd_abs) !! 9000).
Lemma crowd_queue : queues (k_vars crowd_abs) !! 9000 = Some crowd_mutex.
Proof. vm_compute. reflexivity. Qed.
Lemma crowd_is_mutex : mutex crowd_mutex.
Proof. split; vm_compute; reflexivity. Qed.

Lemma crowd_system : system crowd_abs.
Proof.
  apply checked_system; [by vm_compute| |].
  - eapply entries_forall; [vm_compute; reflexivity|]. constructor; [|constructor]. cbn [fst snd].
    split; [|split; vm_compute; eauto]. split; [by split|]. right. right. done.
  - eapply entries_forall; [vm_compute; reflexivity|constructor].
Qed.

Lemma crowd_asks : asks_held 9000 crowd_mutex 2000 holder_tcb 10 crowd_abs.
Proof.
  split.
  - exact crowd_system.
  - vm_compute. discriminate.
  - exact crowd_queue.
  - exact crowd_is_mutex.
  - split; vm_compute; reflexivity.
  - vm_compute. reflexivity.
  - split; [reflexivity|vm_compute; discriminate].
  - vm_compute. reflexivity.
  - split_and!; vm_compute; discriminate.
  - vm_compute. reflexivity.
  - assert (Hy : from_option ucDelayAborted pdFALSE (tcbs (k_vars crowd_abs) !! pxCurrentTCB (k_vars crowd_abs)) = pdFALSE)
      by (vm_compute; reflexivity).
    intros z E. rewrite E in Hy. exact Hy.
  - split; [unfold u32_range, u32_modulus; lia|lia].
  - apply (checked_urgent _ 3); vm_compute; reflexivity.
  - apply checked_between. vm_compute. reflexivity.
Qed.

Lemma mutex_changes_hands_witness : on_code (change_hands 9000 10 4 (entering 0)) (fun r k' =>
  r = (2000, inr pdPASS, 3000, inr pdPASS) /\ tcbs (k_vars k') !! 2000 = Some (set_uxMutexesHeld 0 holder_tcb)) crowd_ptr.
Proof.
  eapply wp_mono; [apply (mutex_changes_hands crowd_ptr crowd_abs 9000 crowd_mutex 2000 holder_tcb 10 4 (entering 0) crowd_related crowd_asks)|].
  - right. lia.
  - intros r c' (k' & HR & E & _ & _ & z & _ & _ & Ht). exists k'. split; [exact HR|]. split; [exact E|exact Ht].
Defined.
