(* ===== verification/TaskInfoTheorems.v ===== *)
(** * The list of all tasks

    uxTaskGetSystemState visits every list a task can be in and describes
    each task once.  What it says of a task's state is compared with what
    eTaskGetState says. *)

From S2P Require Import Prelude Simulation Config ListC ListSpec ListRefine ListObs ListProps Heap4 Kernel Tasks TaskApi TaskEvents TaskInfo Queue KernelRefine KernelInv Frames KernelSteps SchedProps ResumeProps KernelDemo SchedTheorems SuspendProps PriorityProps PriorityTheorems EventProps QueueData QueueTheorems SemaphoreTheorems BlockProps WaitTheorems NotifyProps ControlProps System SystemTasks SystemTheorems.

(** ** On pointer lists *)

Section TraceSim.
Context {H1 H2 : Type} `{!ListOps item list_id H1, !ListOps item list_id H2}.
Context (R : H1 -> H2 -> Prop) `{!ListRefines R}.
Variable mem : Z -> list Z.

Lemma sim_check_stack a : sim (RK R) (prvTaskCheckFreeStackSpace mem a) (prvTaskCheckFreeStackSpace mem a).
Proof. unfold prvTaskCheckFreeStackSpace. solve_sim. Qed.
Lemma sim_info_state t e : sim (RK R) (info_state t e) (info_state t e).
Proof. unfold info_state. solve_sim. Qed.
#[local] Hint Resolve sim_check_stack sim_info_state : sim.
Lemma sim_vTaskGetInfo t b e : sim (RK R) (vTaskGetInfo mem t b e) (vTaskGetInfo mem t b e).
Proof. unfold vTaskGetInfo. solve_sim. Qed.
Lemma sim_put_status n out s : sim (RK R) (put_status n out s) (put_status n out s).
Proof. unfold put_status. solve_sim. Qed.
#[local] Hint Resolve sim_vTaskGetInfo sim_put_status : sim.
Lemma sim_list_tasks_loop fuel n l e t : forall out, sim (RK R) (list_tasks_loop mem fuel n out l e t) (list_tasks_loop mem fuel n out l e t).
Proof. induction fuel as [|fuel IH]; intros out; cbn [list_tasks_loop]; solve_sim. Qed.
#[local] Hint Resolve sim_list_tasks_loop : sim.
Lemma sim_list_single n out l e : sim (RK R) (prvListTasksWithinSingleList mem n out l e) (prvListTasksWithinSingleList mem n out l e).
Proof. unfold prvListTasksWithinSingleList. solve_sim. Qed.
#[local] Hint Resolve sim_list_single : sim.
Lemma sim_list_ready m n : forall out, sim (RK R) (list_ready_tasks mem m n out) (list_ready_tasks mem m n out).
Proof. induction m as [|m IH]; intros out; cbn [list_ready_tasks]; solve_sim. Qed.
#[local] Hint Resolve sim_list_ready : sim.
Lemma sim_system_state n b : sim (RK R) (system_state_suspended mem n b) (system_state_suspended mem n b).
Proof. unfold system_state_suspended. solve_sim. Qed.
#[local] Hint Resolve sim_system_state : sim.
Lemma psim_uxTaskGetSystemState n b : psim (RK R) (uxTaskGetSystemState mem n b) (uxTaskGetSystemState mem n b).
Proof. unfold uxTaskGetSystemState. solve_sim. Qed.
Lemma sim_tag_from_isr t : sim (RK R) (xTaskGetApplicationTaskTagFromISR t) (xTaskGetApplicationTaskTagFromISR t).
Proof. unfold xTaskGetApplicationTaskTagFromISR. solve_sim. Qed.
Lemma psim_hook h1 h2 t a : (forall f a, psim (RK R) (h1 f a) (h2 f a)) ->
  psim (RK R) (xTaskCallApplicationTaskHook h1 t a) (xTaskCallApplicationTaskHook h2 t a).
Proof. intros Hh. unfold xTaskCallApplicationTaskHook. solve_sim. Qed.
Lemma vTaskEndScheduler_never_returns (n : nat) (k : Kernel H1) : run (vTaskEndScheduler n) k = None.
Proof. cbn. unfold mbind, M_bind. simpl. by induction n. Qed.
End TraceSim.

(** ** One turn of a list *)

Section Turn.
Context {A : Type} `{!EqDecision A}.

(** The cursor, at [c], visits [ys] in turn. *)
Fixpoint visits (xs : list A) (c : option A) (ys : list A) : Prop :=
  match ys with [] => True | y :: ys' => cursor_next c xs = Some y /\ visits xs (Some y) ys' end.

Lemma visits_app xs ys zs : forall c, visits xs c ys -> visits xs (if decide (ys = []) then c else last ys) zs -> visits xs c (ys ++ zs).
Proof.
  induction ys as [|y ys IH]; intros c; [done|]. intros [Hy Hys]. rewrite decide_False by done. intros Hzs.
  split; [done|]. apply IH; [done|]. by destruct ys.
Qed.

Lemma visits_segment pre ys post : NoDup (pre ++ ys ++ post) -> visits (pre ++ ys ++ post) (last pre) ys.
Proof.
  revert pre. induction ys as [|y ys IH]; intros pre Hnd; [done|]. cbn [visits]. split.
  - pose proof (ring_succ_last pre ((y :: ys) ++ post) Hnd) as Hs. destruct pre as [|x pre _] using rev_ind; [done|].
    rewrite last_snoc in *. simpl in Hs. simpl. by rewrite Hs.
  - pose proof (IH (pre ++ [y])) as IH'. rewrite last_snoc in IH'. rewrite <- (assoc_L (++)) in IH'. by apply IH'.
Qed.

(** From an item back to it. *)
Lemma visits_turn pre y post : NoDup (pre ++ y :: post) -> visits (pre ++ y :: post) (Some y) (post ++ pre ++ [y]).
Proof.
  intros Hnd. set (xs := pre ++ y :: post) in *. apply visits_app.
  - pose proof (visits_segment (pre ++ [y]) post []) as Hv. rewrite last_snoc, app_nil_r, <- (assoc_L (++)) in Hv. by apply Hv.
  - assert (Hl : (if decide (post = []) then Some y else last post) = last xs).
    { unfold xs. case_decide; subst; [by rewrite last_snoc|]. destruct post; [done|]. by rewrite last_app_cons. }
    rewrite Hl. pose proof (visits_segment [] (pre ++ [y]) post) as Hv. simpl in Hv. rewrite <- (assoc_L (++)) in Hv. simpl in Hv.
    specialize (Hv Hnd). fold xs in Hv. assert (Hn : cursor_next (last xs) xs = cursor_next None xs).
    { destruct (last xs) as [z|] eqn:E; [|done]. pose proof (ring_succ_last xs []) as Hs. rewrite app_nil_r, E in Hs.
      simpl in *. by rewrite Hs. }
    destruct (pre ++ [y]) as [|z zs]; [done|]. destruct Hv as [Hz Hzs]. split; [by rewrite Hn|done].
Qed.
End Turn.

(** ** What is said of a task *)

Section Listing.
Implicit Types (h : AH) (v : Vars) (k : KA).
Variable mem : Z -> list Z.

(** The state an entry shows for a task found in a list of the state [e]. *)
Definition shown k (t : Z) (e : eTaskState) : eTaskState :=
  if t =? pxCurrentTCB (k_vars k) then eRunning
  else match e, cont_of (k_lists k) (EventItem t) with eSuspended, Some _ => eBlocked | _, _ => e end.

Definition describes k (t : Z) (e : eTaskState) (s : TaskStatus_t) : Prop := exists x c,
  tcbs (k_vars k) !! t = Some x /\ count_fill (mem (pxStack x)) 0 = Some c /\
  s = mkTaskStatus t t (uxTCBNumber x) (shown k t e) (uxPriority x) (uxBasePriority x) 0 (pxStack x) ((c / sizeof_StackType_t) mod 65536).

(** Only cursors have moved. *)
Record turned k k' : Prop := {
  tu_vars : k_vars k' = k_vars k;
  tu_lists : same_but_cursors (k_lists k) (k_lists k');
  tu_wf : awf (k_lists k')
}.

Lemma turned_trans k1 k2 k3 : turned k1 k2 -> turned k2 k3 -> turned k1 k3.
Proof.
  intros [E1 (I1 & A1 & L1) _] [E2 (I2 & A2 & L2) W]. split; [congruence| |done].
  split; [|split]; [intros l; by rewrite I2|congruence|intros l; by rewrite L2].
Qed.

Lemma turned_cont k k' i : turned k k' -> cont_of (k_lists k') i = cont_of (k_lists k) i.
Proof. intros [_ (_ & Ei & _) _]. unfold cont_of. by rewrite Ei. Qed.

Lemma turned_items k k' l : turned k k' -> items_of (k_lists k') l = items_of (k_lists k) l.
Proof. intros [_ (Hi & _) _]. apply Hi. Qed.

Lemma describes_turned k k' t e s : turned k k' -> describes k' t e s -> describes k t e s.
Proof.
  intros Ht (x & c & Hx & Hc & ->). exists x, c. rewrite (tu_vars _ _ Ht) in Hx. split; [done|]. split; [done|].
  unfold shown. by rewrite (tu_vars _ _ Ht), (turned_cont _ _ _ Ht).
Qed.

(** The state in which tasks are listed: the scheduler is suspended once, and
    every stack has been written to. *)
Record listing k : Prop := {
  li_core : kcore none k;
  li_suspended : uxSchedulerSuspended (k_vars k) = 1;
  li_null : tcbs (k_vars k) !! NULL = None;
  li_stacks t x : tcbs (k_vars k) !! t = Some x -> is_Some (count_fill (mem (pxStack x)) 0)
}.

Lemma listing_turned k k' : turned k k' -> listing k -> listing k'.
Proof.
  intros [Ev Hs Hwf] [HK ? ? ?]. destruct k as [h v], k' as [h' v']. simpl in *. subst v'. split; simpl; try done.
  by eapply same_cursors_core.
Qed.

Lemma info_state_wp (Q : eTaskState -> KA -> Prop) k t e : listing k -> is_Some (tcbs (k_vars k) !! t) -> e <> eInvalid ->
  Q (shown k t e) k -> wp (info_state t e) Q k.
Proof.
  intros [HK Hs _ _] Ht He HQ. unfold info_state, shown in *. rewrite decide_True by done. wstep. wstep.
  destruct (t =? pxCurrentTCB (k_vars k)); [by wstep|]. destruct (kc_item _ _ HK t Ht) as (_ & Hi & _).
  destruct (decide (e = eSuspended)) as [->|Hne]; [|wstep; by destruct e].
  destruct k as [h v]. simpl in *. wstep. unfold vTaskSuspendAll. wstep. wstep. apply wp_container; [done|]. wstep.
  unfold xTaskResumeAll. wsteps. rewrite Hs. simpl. wsteps.
  replace (set_uxSchedulerSuspended _ _) with v; [exact HQ|]. change (1 +u 1 -u 1) with 1. destruct v. simpl in *. by subst.
Qed.

Lemma info_wp k t e : listing k -> is_Some (tcbs (k_vars k) !! t) -> e <> eInvalid ->
  wp (vTaskGetInfo mem t pdTRUE e) (fun s k' => describes k t e s /\ k' = k) k.
Proof.
  intros Hli [x Hx] He. unfold vTaskGetInfo. wstep. apply wp_handle. unfold handle_task.
  assert (t <> NULL) by (intros ->; pose proof (li_null _ Hli); congruence). rewrite (proj2 (Z.eqb_neq t NULL)) by done.
  wstep. eapply wp_rd_tcb; [exact Hx|]. wstep. apply info_state_wp; [done|eauto|done|]. cbn [id negb pdTRUE pdFALSE Z.eqb].
  destruct (li_stacks _ Hli t x Hx) as [c Hc]. unfold prvTaskCheckFreeStackSpace. wsteps. eapply wp_lift_opt; [exact Hc|].
  wsteps. split; [|done]. by exists x, c.
Qed.

(** ** One list *)

Lemma next_owner_wp (Q : Z -> KA -> Prop) k l t : listing k -> is_Some (tcbs (k_vars k) !! t) ->
  cursor_next (index_of (k_lists k) l) (items_of (k_lists k) l) = Some (StateItem t) ->
  (forall k', turned k k' -> index_of (k_lists k') l = Some (StateItem t) -> Q t k') -> wp (onlist (loNextOwner l)) Q k.
Proof.
  intros [HK _ _ _] Ht Hc HQ. destruct (kc_item _ _ HK t Ht) as (_ & _ & How & _).
  destruct (aNextOwner_run _ _ _ (kc_wf _ _ HK) Hc) as (h' & Hrun & Hwf & Hit & Eit & Hls & Hidx & _). rewrite How in Hrun.
  eapply wp_onlist; [exact Hrun|]. apply HQ; [|done]. by split.
Qed.

Lemma loop_wp l e n first ys : e <> eInvalid -> first ∉ ys -> forall k fuel out, listing k ->
  Forall (fun t => is_Some (tcbs (k_vars k) !! t)) (ys ++ [first]) ->
  visits (items_of (k_lists k) l) (index_of (k_lists k) l) (StateItem <$> (ys ++ [first])) ->
  (length ys <= fuel)%nat -> Z.of_nat (length out + length (ys ++ [first])) <= n ->
  wp (list_tasks_loop mem fuel n out l e first) (fun out' k' => turned k k' /\
    exists ss, out' = out ++ ss /\ Forall2 (fun t s => describes k t e s) (ys ++ [first]) ss) k.
Proof.
  intros He. induction ys as [|y ys IH]; intros Hf k fuel out Hli Hall Hv Hfuel Hn; simpl in Hall, Hv; destruct Hv as [Hc Hv];
    apply Forall_cons in Hall as [Ht Hall].
  - destruct fuel; cbn [list_tasks_loop]; (wstep; apply (next_owner_wp _ _ _ first); [done..|]); intros k1 Ht1 Hi1;
      (assert (Hx1 : is_Some (tcbs (k_vars k1) !! first)) by (by rewrite (tu_vars _ _ Ht1)));
      wstep; (eapply wp_mono; [by apply info_wp; [eapply listing_turned|..]|]); intros s k2 [Hd ->]; wstep; unfold put_status;
      simpl in Hn; rewrite (proj2 (Z.ltb_lt _ _)) by lia; wstep; rewrite Z.eqb_refl; simpl; wstep;
      (split; [done|]); exists [s]; (split; [done|]); apply Forall2_cons; (split; [by eapply describes_turned|apply Forall2_nil; done]).
  - apply not_elem_of_cons in Hf as [Hne Hf]. destruct fuel as [|fuel]; simpl in Hfuel; [lia|]. cbn [list_tasks_loop].
    wstep. apply (next_owner_wp _ _ _ y); [done..|]. intros k1 Ht1 Hi1. pose proof (listing_turned _ _ Ht1 Hli) as Hli1.
    wstep. eapply wp_mono; [apply info_wp; [done|by rewrite (tu_vars _ _ Ht1)|done]|]. intros s k2 [Hd ->]. wstep. unfold put_status.
    simpl in Hn. rewrite (proj2 (Z.ltb_lt _ _)) by lia. wstep. rewrite (proj2 (Z.eqb_neq y first)) by congruence. simpl.
    eapply wp_mono; [apply (IH Hf k1 fuel (out ++ [s]) Hli1)|].
    + by rewrite (tu_vars _ _ Ht1).
    + rewrite (turned_items _ _ _ Ht1), Hi1. exact Hv.
    + lia.
    + rewrite length_app. simpl. lia.
    + intros out' k3 [Ht3 (ss & -> & Hss)]. split; [by eapply turned_trans|]. exists (s :: ss). rewrite <- (assoc_L (++)).
      split; [done|]. apply Forall2_cons. split; [by eapply describes_turned|]. eapply Forall2_impl; [exact Hss|].
      intros t s' Hd'. by eapply describes_turned.
Qed.

(** The tasks of state items. *)
Lemma as_tasks (P : Z -> Prop) (xs : list item) : (forall i, i ∈ xs -> exists t, i = StateItem t /\ P t) ->
  exists us, xs = StateItem <$> us /\ Forall P us.
Proof.
  induction xs as [|i xs IH]; intros Hall; [by exists []|].
  destruct (Hall i) as (t & -> & Ht); [set_solver|]. destruct IH as (us & -> & Hus); [set_solver|].
  exists (t :: us). split; [done|]. by constructor.
Qed.

Lemma state_items k l : kcore none k -> is_state_list l = true ->
  exists us, items_of (k_lists k) l = StateItem <$> us /\ Forall (fun t => is_Some (tcbs (k_vars k) !! t)) us.
Proof.
  intros HK Hl. apply as_tasks. intros i Hi. destruct (state_list_item _ _ _ i HK Hl Hi) as (t & x & -> & Hx). eauto.
Qed.

Lemma fmap_split us i pre post : StateItem <$> us = pre ++ i :: post ->
  exists us1 t us2, us = us1 ++ t :: us2 /\ pre = StateItem <$> us1 /\ i = StateItem t /\ post = StateItem <$> us2.
Proof.
  intros (us1 & us' & -> & E & ->)%fmap_app_inv. symmetry in E. apply fmap_cons_inv in E as (t & us2 & -> & -> & ->). by exists us1, t, us2.
Qed.

Lemma single_wp l e n out k : e <> eInvalid -> is_state_list l = true -> listing k ->
  Z.of_nat (length out + length (items_of (k_lists k) l)) <= n ->
  wp (prvListTasksWithinSingleList mem n out l e) (fun out' k' => turned k k' /\
    exists ts ss, out' = out ++ ss /\ Forall2 (fun t s => describes k t e s) ts ss /\ StateItem <$> ts ≡ₚ items_of (k_lists k) l) k.
Proof.
  intros He Hl Hli Hn. pose proof (li_core _ Hli) as HK. pose proof (awf_nodup _ (kc_wf _ _ HK) l) as Hnd.
  destruct (state_items k l HK Hl) as (us & Hus & Hall). unfold prvListTasksWithinSingleList. wstep.
  destruct k as [h v]. cbn [k_lists k_vars] in *. apply wp_length; [apply (kc_lists _ _ HK); by apply orb_true_iff; left|].
  destruct (items_of h l) as [|i0 xs] eqn:El.
  { simpl. wstep. split; [by split; [| |apply HK]|]. exists [], []. rewrite app_nil_r. split_and!; [done|by apply Forall2_nil|done]. }
  rewrite (proj2 (Z.ltb_lt _ _)) by (simpl; lia). rewrite <- El in *.
  destruct (cursor_next_some (index_of h l) (items_of h l)) as [i Hi]; [by rewrite El|].
  pose proof (elem_of_cursor_next _ _ _ Hi) as (pre & post & Eis)%list_elem_of_split.
  rewrite Eis in Hus. destruct (fmap_split us i pre post) as (us1 & first & us2 & -> & -> & -> & ->); [done|]. clear Hus.
  assert (Hts : Forall (fun t => is_Some (tcbs v !! t)) (us2 ++ us1 ++ [first])).
  { apply Forall_app in Hall as [H1 [H2 H3]%Forall_cons]. by rewrite !Forall_app, Forall_singleton. }
  wstep. apply (next_owner_wp _ _ l first); [done| |exact Hi|].
  { apply Forall_app in Hall as [_ [H2 _]%Forall_cons]. exact H2. }
  intros k1 Ht1 Hi1. rewrite Eis in Hn, Hnd. rewrite length_app in Hn. cbn [length] in Hn. rewrite !length_fmap in Hn.
  assert (Hf : first ∉ us2 ++ us1).
  { change (StateItem first :: (StateItem <$> us2)) with (StateItem <$> (first :: us2)) in Hnd. rewrite <- fmap_app in Hnd.
    apply NoDup_fmap_1, NoDup_notin_app in Hnd as [? ?]. rewrite elem_of_app. tauto. }
  eapply wp_mono; [apply (loop_wp l e n first (us2 ++ us1) He Hf k1 _ out (listing_turned _ _ Ht1 Hli))|].
  - rewrite (tu_vars _ _ Ht1), <- (assoc_L (++)). exact Hts.
  - rewrite (turned_items _ _ _ Ht1), Hi1, <- (assoc_L (++)), !fmap_app. cbn [k_lists]. rewrite Eis. by apply visits_turn.
  - rewrite Eis, !length_app. cbn [length]. rewrite !length_fmap. lia.
  - rewrite !length_app. cbn [length]. lia.
  - intros out' k2 [Ht2 (ss & -> & Hss)]. split; [by eapply turned_trans|]. exists ((us2 ++ us1) ++ [first]), ss.
    split; [done|]. split; [eapply Forall2_impl; [exact Hss|]; intros ? ? Hd; by eapply describes_turned|].
    rewrite Eis, !fmap_app. simpl. solve_Permutation.
Qed.

(** ** All lists *)

(** The state given to the tasks of a list. *)
Definition list_state (l : list_id) : eTaskState :=
  match l with
  | pxReadyTasksLists _ => eReady
  | xTasksWaitingTermination => eDeleted
  | xSuspendedTaskList => eSuspended
  | _ => eBlocked
  end.

(** The entries describe the tasks of the lists [ls], each once. *)
Definition report k (ls : list list_id) (out : list TaskStatus_t) : Prop := exists ps : list (Z * list_id),
  Forall2 (fun p s => describes k p.1 (list_state p.2) s) ps out /\
  (StateItem <$> ps.*1) ≡ₚ (ls ≫= items_of (k_lists k)) /\
  Forall (fun p => cont_of (k_lists k) (StateItem p.1) = Some p.2) ps.

Definition room k (ls : list list_id) (n : Z) : Prop := Z.of_nat (length ((ls ≫= items_of (k_lists k)))) <= n.

Lemma room_app k ls ls' n : room k (ls ++ ls') n -> room k ls n.
Proof. unfold room. rewrite bind_app, length_app. lia. Qed.

Lemma report_step l ls n out k0 k : is_state_list l = true -> listing k0 -> turned k0 k -> report k0 ls out -> room k0 (ls ++ [l]) n ->
  wp (prvListTasksWithinSingleList mem n out l (list_state l)) (fun out' k' => turned k0 k' /\ report k0 (ls ++ [l]) out') k.
Proof.
  intros Hl Hli Ht (ps & Hps & Hperm & Hc) Hroom. assert (Hlen : length out = length ((ls ≫= items_of (k_lists k0)))).
  { rewrite <- (Permutation_length Hperm), !length_fmap. symmetry. by eapply Forall2_length. }
  unfold room in Hroom. rewrite bind_app, bind_singleton, length_app, <- Hlen in Hroom.
  eapply wp_mono; [apply single_wp; [by destruct l|done|by eapply listing_turned|by rewrite (turned_items _ _ _ Ht)]|].
  intros out' k' [Ht' (ts & ss & -> & Hss & Hts)]. split; [by eapply turned_trans|]. rewrite (turned_items _ _ _ Ht) in Hts.
  assert (Efst : ((fun t => (t, l)) <$> ts).*1 = ts) by (clear; induction ts; f_equal/=; auto).
  exists (ps ++ ((fun t => (t, l)) <$> ts)). rewrite !fmap_app, bind_app, bind_singleton, Efst.
  split; [|split].
  - apply Forall2_app; [done|]. apply Forall2_fmap_l. eapply Forall2_impl; [exact Hss|]. intros t s. by apply describes_turned.
  - by f_equiv.
  - apply Forall_app. split; [done|]. apply Forall_fmap, Forall_forall. intros t Hin. simpl.
    apply (awf_mem _ (kc_wf _ _ (li_core _ Hli))). rewrite <- Hts. by apply list_elem_of_fmap_2.
Qed.

Fixpoint ready_down (m : nat) : list list_id :=
  match m with O => [] | S m' => Ready (Z.of_nat m') :: ready_down m' end.

Lemma ready_lists_wp n k0 : listing k0 -> forall m ls out k, Z.of_nat m <= configMAX_PRIORITIES -> turned k0 k -> report k0 ls out ->
  room k0 (ls ++ ready_down m) n ->
  wp (list_ready_tasks mem m n out) (fun out' k' => turned k0 k' /\ report k0 (ls ++ ready_down m) out') k.
Proof.
  intros Hli. induction m as [|m IH]; intros ls out k Hm Ht Hr Hroom; cbn [list_ready_tasks ready_down].
  - wstep. by rewrite app_nil_r.
  - cbn [ready_down] in Hroom. replace (ls ++ Ready (Z.of_nat m) :: ready_down m) with ((ls ++ [Ready (Z.of_nat m)]) ++ ready_down m) in *
      by (by rewrite <- (assoc_L (++))).
    wstep. eapply wp_mono.
    { apply (report_step (Ready (Z.of_nat m)) ls n out k0 k); [|done|done|done|by eapply room_app].
      apply is_ready_list. unfold prio_ok. lia. }
    intros out1 k1 [Ht1 Hr1]. apply IH; [lia|done|done|done].
Qed.

Definition task_lists v : list list_id :=
  ready_down (Z.to_nat configMAX_PRIORITIES) ++
  [pxDelayedTaskList v; pxOverflowDelayedTaskList v; xTasksWaitingTermination; xSuspendedTaskList].

Lemma delayed_lists k : kcore none k ->
  is_state_list (pxDelayedTaskList (k_vars k)) = true /\ list_state (pxDelayedTaskList (k_vars k)) = eBlocked /\
  is_state_list (pxOverflowDelayedTaskList (k_vars k)) = true /\ list_state (pxOverflowDelayedTaskList (k_vars k)) = eBlocked.
Proof. intros HK. by destruct (kc_delayed _ _ HK) as [[-> ->]|[-> ->]]. Qed.

Lemma system_state_wp n b k : listing k -> room k (task_lists (k_vars k)) n -> uxCurrentNumberOfTasks (k_vars k) <= n ->
  wp (system_state_suspended mem n b) (fun r k' => turned k k' /\ report k (task_lists (k_vars k)) r.1 /\
    r.2 = if b then Some 0 else None) k.
Proof.
  intros Hli Hroom Hn. pose proof (li_core _ Hli) as HK. destruct (delayed_lists k HK) as (D1 & D2 & D3 & D4).
  assert (Ht : turned k k) by (by split; [| |apply HK]). unfold task_lists in *. set (rs := ready_down _) in *.
  set (d1 := pxDelayedTaskList (k_vars k)) in *. set (d2 := pxOverflowDelayedTaskList (k_vars k)) in *.
  unfold system_state_suspended. apply wp_bind, wp_rdv. rewrite (proj2 (Z.leb_le _ _)) by done. apply wp_bind.
  eapply wp_mono.
  { apply (ready_lists_wp n k Hli _ [] [] k); [done|done|by exists []; split_and!; [apply Forall2_nil| |]|]. by eapply room_app. }
  intros out1 k1 [Ht1 Hr1]. simpl in Hr1. fold rs in Hr1. apply wp_bind, wp_rdv. rewrite (tu_vars _ _ Ht1). fold d1.
  apply wp_bind. rewrite <- D2. eapply wp_mono.
  { apply (report_step d1 rs n out1 k k1); [done..|]. eapply (room_app _ _ [d2; xTasksWaitingTermination; xSuspendedTaskList]). by rewrite <- (assoc_L (++)). }
  intros out2 k2 [Ht2 Hr2]. apply wp_bind, wp_rdv. rewrite (tu_vars _ _ Ht2). fold d2. apply wp_bind. rewrite D2, <- D4. eapply wp_mono.
  { apply (report_step d2 (rs ++ [d1]) n out2 k k2); [done..|]. eapply (room_app _ _ [xTasksWaitingTermination; xSuspendedTaskList]).
    by rewrite <- !(assoc_L (++)). }
  intros out3 k3 [Ht3 Hr3]. apply wp_bind. eapply wp_mono.
  { apply (report_step xTasksWaitingTermination ((rs ++ [d1]) ++ [d2]) n out3 k k3); [done..|].
    eapply (room_app _ _ [xSuspendedTaskList]). by rewrite <- !(assoc_L (++)). }
  intros out4 k4 [Ht4 Hr4]. apply wp_bind. eapply wp_mono.
  { apply (report_step xSuspendedTaskList (((rs ++ [d1]) ++ [d2]) ++ [xTasksWaitingTermination]) n out4 k k4); [done..|].
    by rewrite <- !(assoc_L (++)). }
  intros out5 k5 [Ht5 Hr5]. apply wp_ret. rewrite <- !(assoc_L (++)) in Hr5. done.
Qed.

(** ** Every task, once *)

Lemma task_lists_state k l : kcore none k -> l ∈ task_lists (k_vars k) <-> is_state_list l = true.
Proof.
  intros HK. assert (Hr : forall m, l ∈ ready_down m <-> exists p, 0 <= p < Z.of_nat m /\ l = Ready p).
  { induction m as [|m IH]; cbn [ready_down]; [split; [set_solver|intros (p & Hp & _); simpl in Hp; lia]|]. rewrite elem_of_cons, IH. split.
    - intros [->|(p & ? & ->)]; [exists (Z.of_nat m)|exists p]; (split; [lia|done]).
    - intros (p & Hp & ->). destruct (decide (p = Z.of_nat m)) as [->|]; [by left|right]. exists p. split; [|done]. lia. }
  unfold task_lists. rewrite elem_of_app, Hr, !elem_of_cons, elem_of_nil. split.
  - destruct (delayed_lists k HK) as (D1 & _ & D3 & _). intros [(p & Hp & ->)|[->|[->|[->|[->|[]]]]]]; try done.
    apply is_ready_list. rewrite Z2Nat.id in Hp by done. exact Hp.
  - destruct l as [p| | | | | | | | | |]; try done; intros Hl; [left|right..].
    + exists p. split; [|done]. apply is_ready_list in Hl. by rewrite Z2Nat.id.
    + destruct (kc_delayed _ _ HK) as [[-> ->]|[-> ->]]; tauto.
    + destruct (kc_delayed _ _ HK) as [[-> ->]|[-> ->]]; tauto.
    + tauto.
    + tauto.
Qed.

Lemma task_lists_nodup k : kcore none k -> NoDup (task_lists (k_vars k)).
Proof.
  intros HK. unfold task_lists. destruct (kc_delayed _ _ HK) as [[-> ->]|[-> ->]]; apply (bool_decide_unpack _); by vm_compute.
Qed.

(** The lists hold every task that is in a list, once. *)
Lemma listed_tasks k : kcore none k -> exists us, task_lists (k_vars k) ≫= items_of (k_lists k) = StateItem <$> us /\
  NoDup us /\ (forall t, t ∈ us <-> is_Some (cont_of (k_lists k) (StateItem t))) /\ (length us <= size (tcbs (k_vars k)))%nat.
Proof.
  intros HK. pose proof (kc_wf _ _ HK) as Hwf.
  assert (Hmem : forall i, i ∈ task_lists (k_vars k) ≫= items_of (k_lists k) <-> exists l, is_state_list l = true /\ cont_of (k_lists k) i = Some l).
  { intros i. rewrite list_elem_of_bind. split; intros (l & H1 & H2); exists l.
    - split; [by apply (task_lists_state k)|by apply (awf_mem _ Hwf)].
    - split; [by apply (awf_mem _ Hwf)|by apply (task_lists_state k)]. }
  destruct (as_tasks (fun t => is_Some (tcbs (k_vars k) !! t)) (task_lists (k_vars k) ≫= items_of (k_lists k))) as (us & E & Hus).
  { intros i (l & Hl & Hi)%Hmem. apply (awf_mem _ Hwf) in Hi. destruct (state_list_item _ _ _ i HK Hl Hi) as (t & x & -> & Hx). eauto. }
  assert (Hnd : NoDup us).
  { apply (NoDup_fmap_1 StateItem). rewrite <- E. apply NoDup_bind; [|intros l _; apply (awf_nodup _ Hwf)|by apply task_lists_nodup].
    intros l1 l2 i _ _ H1%(awf_mem _ Hwf) H2%(awf_mem _ Hwf). congruence. }
  exists us. split; [done|]. split; [done|]. split.
  - intros t. rewrite E in Hmem. specialize (Hmem (StateItem t)). rewrite list_elem_of_fmap in Hmem. split.
    + intros Ht. destruct (proj1 Hmem) as (l & _ & Hc); [by exists t|]. eauto.
    + intros [l Hc]. destruct (proj2 Hmem) as (t' & [= <-] & Ht); [|done]. exists l. split; [by apply (kc_state _ _ HK) in Hc as [_ ?]|done].
  - rewrite <- (size_list_to_set (C := gset Z)) by done. rewrite <- (size_dom (D := gset Z)). apply subseteq_size.
    intros t Ht%elem_of_list_to_set. apply elem_of_dom. by eapply Forall_forall in Hus.
Qed.

(** A task that waits for a notification, without a time-out. *)
Definition awaits_notification k (t : Z) : Prop :=
  t <> pxCurrentTCB (k_vars k) /\ cont_of (k_lists k) (StateItem t) = Some xSuspendedTaskList /\
  cont_of (k_lists k) (EventItem t) = None /\
  exists x, tcbs (k_vars k) !! t = Some x /\ ucNotifyState x = taskWAITING_NOTIFICATION.

Lemma get_state_wp k t l : kcore none k -> cont_of (k_lists k) (StateItem t) = Some l ->
  wp (eTaskGetState t) (fun st k' => k' = k /\
    (awaits_notification k t -> st = eBlocked /\ shown k t (list_state l) = eSuspended) /\
    (~ awaits_notification k t -> shown k t (list_state l) = st)) k.
Proof.
  intros HK Hc. destruct (kc_state _ _ HK _ _ Hc) as [[x Hx] Hl]. destruct (kc_item _ _ HK t) as (Hi & He & _); [eauto|].
  unfold eTaskGetState, shown, awaits_notification. destruct k as [h v]. cbn [k_lists k_vars] in *. wstep. wstep.
  destruct (Z.eqb_spec t (pxCurrentTCB v)) as [->|Hne]; [wstep; split; [done|]; split; [by intros []|done]|].
  wstep. apply wp_container; [done|]. rewrite Hc. wstep. wstep. wstep. wstep.
  case_decide as Hd.
  { wstep. split; [done|]. destruct (kc_delayed _ _ HK) as [[E1 E2]|[E1 E2]]; simpl in E1, E2; rewrite E1, E2 in Hd;
      destruct Hd as [[= ->]|[= ->]]; (split; [intros (_ & [=] & _)|done]). }
  case_decide as Hs; [injection Hs as ->|].
  { wstep. apply wp_container; [done|]. simpl. destruct (cont_of h (EventItem t)) as [le|] eqn:Ee.
    - wstep. split; [done|]. split; [by intros (_ & _ & [=] & _)|done].
    - wstep. eapply wp_rd_tcb; [exact Hx|]. wstep. split; [done|]. destruct (Z.eqb_spec (ucNotifyState x) taskWAITING_NOTIFICATION) as [E|E].
      + split; [done|]. intros Hno. exfalso. apply Hno. split_and!; try done. by exists x.
      + split; [|done]. intros (_ & _ & _ & y & Hy & E'). simplify_eq. }
  assert (Hn : ~ (t <> pxCurrentTCB v /\ Some l = Some xSuspendedTaskList /\ cont_of h (EventItem t) = None /\
     exists x, tcbs v !! t = Some x /\ ucNotifyState x = taskWAITING_NOTIFICATION)) by naive_solver.
  case_decide as Ht; [destruct Ht as [[= ->]|[=]]|]; (wstep; split; [done|]; split; [done|]); [done|]. intros _.
  destruct l; try done; destruct (kc_delayed _ _ HK) as [[E1 E2]|[E1 E2]]; simpl in E1, E2; rewrite E1, E2 in Hd; naive_solver.
Qed.

(** What an entry says of its task: eTaskGetState would say the same, but of a
    task that waits for a notification without a time-out. *)
Definition faithful k (s : TaskStatus_t) : Prop := exists x, tcbs (k_vars k) !! xHandle s = Some x /\
  uxCurrentPriority s = uxPriority x /\ ts_uxBasePriority s = uxBasePriority x /\ xTaskNumber s = uxTCBNumber x /\
  pxStackBase s = pxStack x /\
  wp (eTaskGetState (xHandle s)) (fun st k' => k' = k /\
    (awaits_notification k (xHandle s) -> st = eBlocked /\ eCurrentState s = eSuspended) /\
    (~ awaits_notification k (xHandle s) -> eCurrentState s = st)) k.

Lemma report_complete k out : kcore none k -> report k (task_lists (k_vars k)) out ->
  NoDup (xHandle <$> out) /\ (forall t, t ∈ xHandle <$> out <-> is_Some (cont_of (k_lists k) (StateItem t))) /\
  Forall (faithful k) out.
Proof.
  intros HK (ps & Hps & Hperm & Hc). destruct (listed_tasks k HK) as (us & E & Hnd & Hmem & _). rewrite E in Hperm.
  assert (Ex : xHandle <$> out = ps.*1).
  { clear -Hps. induction Hps as [|p s ps out (x & c & _ & _ & ->) _ IH]; [done|]. by rewrite !fmap_cons, IH. }
  assert (Inj (=) (=) StateItem) by (by intros ? ? [=]).
  apply (Permutation_map_inv StateItem) in Hperm as (us' & E' & Hp). apply (inj (fmap StateItem)) in E' as <-. symmetry in Hp.
  rewrite Ex. split; [by rewrite Hp|]. split; [intros t; by rewrite Hp|].
  clear -HK Hps Hc. induction Hps as [|[t l] s ps out (x & c & Hx & Hf & ->) _ IH]; [constructor|].
  apply Forall_cons in Hc as [Hc Hcs]. constructor; [|by apply IH]. exists x. split_and!; try done. by apply get_state_wp.
Qed.

Lemma suspended_listing k : quiet k -> tcbs (k_vars k) !! NULL = None ->
  (forall t x, tcbs (k_vars k) !! t = Some x -> is_Some (count_fill (mem (pxStack x)) 0)) -> listing (suspended k).
Proof. intros Hq Hn Hst. split; try done. apply (ar_inv _ (quiet_suspended _ Hq)). Qed.

Lemma turned_rest k k' : turned k k' -> at_rest k -> runs_highest k -> at_rest k' /\ runs_highest k'.
Proof.
  intros Ht [[HK HT] Hp (t & p & Hr) Hs Hpd He Hn] (x & Hx & Hc & Hm).
  pose proof (fun i => turned_cont _ _ i Ht) as Hco. pose proof (fun l => turned_items _ _ l Ht) as Hit.
  destruct Ht as [Ev Hl Hwf]. destruct k as [h v], k' as [h' v']. cbn [k_lists k_vars] in *. subst v'. split.
  - split; cbn [k_lists k_vars]; try done.
    + split; [by eapply same_cursors_core|by eapply same_cursors_time].
    + intros u l. simpl. rewrite !Hco. apply Hp.
    + exists t, p. simpl. by rewrite Hco.
    + by rewrite Hit.
  - exists x. cbn [k_lists k_vars]. rewrite Hco. split; [done|]. split; [done|]. intros u q. rewrite Hco. apply Hm.
Qed.

(** The call as a whole. *)
Lemma system_state_call_wp n b k : quiet k -> runs_highest k -> tcbs (k_vars k) !! NULL = None ->
  (forall t x, tcbs (k_vars k) !! t = Some x -> is_Some (count_fill (mem (pxStack x)) 0)) ->
  uxCurrentNumberOfTasks (k_vars k) = Z.of_nat (size (tcbs (k_vars k))) -> uxCurrentNumberOfTasks (k_vars k) <= n ->
  wp (run (uxTaskGetSystemState mem n b)) (fun r k' => quiet k' /\ runs_highest k' /\
    (forall i, cont_of (k_lists k') i = cont_of (k_lists k) i) /\ report k (task_lists (k_vars k)) r.1 /\
    r.2 = if b then Some 0 else None) k.
Proof.
  intros Hq Hhi Hnull Hst Hsz Hn. pose proof (suspended_listing _ Hq Hnull Hst) as Hli. pose proof (quiet_suspended _ Hq) as Hr.
  unfold uxTaskGetSystemState. apply wp_run_bind, wp_run_atomic, suspend_wp; [apply Hq|]. apply wp_run_bind, wp_run_atomic.
  eapply wp_mono; [apply system_state_wp; [done| |exact Hn]|].
  { destruct (listed_tasks _ (li_core _ Hli)) as (us & E & _ & _ & Hlen). unfold room. rewrite E, length_fmap.
    change (tcbs (k_vars (suspended k))) with (tcbs (k_vars k)) in Hlen. lia. }
  intros r k1 (Ht & Hrep & Hr2). destruct (turned_rest _ _ Ht Hr Hhi) as [Hr1 Hh1]. apply wp_run_bind, wp_run_atomic.
  eapply wp_mono; [apply resume_settles; [done|by right]|]. intros z k2 ([Hc _ _ _ _] & Hq2 & Hh2). apply wp_run_ret.
  split_and!; try done. intros i. rewrite Hc. by apply (turned_cont _ _ _ Ht).
Qed.

(** C36: uxTaskGetSystemState, given an array with room for all tasks, fills it
    with one entry for each task that is in a list, and no other: with its
    priorities, its number and its stack, and the state eTaskGetState gives
    for it, except that a task that waits for a notification without a
    time-out is reported as suspended where eTaskGetState says blocked.
    No list loses a task, and a most urgent task still runs. *)
Theorem system_state_lists_every_task c k n b : RK rep c k -> quiet k -> runs_highest k ->
  tcbs (k_vars k) !! NULL = None ->
  (forall t x, tcbs (k_vars k) !! t = Some x -> is_Some (count_fill (mem (pxStack x)) 0)) ->
  uxCurrentNumberOfTasks (k_vars k) = Z.of_nat (size (tcbs (k_vars k))) -> uxCurrentNumberOfTasks (k_vars k) <= n ->
  on_code (run (uxTaskGetSystemState mem n b)) (fun r k' => quiet k' /\ runs_highest k' /\
    (forall i, cont_of (k_lists k') i = cont_of (k_lists k) i) /\ r.2 = (if b then Some 0 else None) /\
    NoDup (xHandle <$> r.1) /\ (forall t, t ∈ xHandle <$> r.1 <-> is_Some (cont_of (k_lists k) (StateItem t))) /\
    Forall (faithful k) r.1) c.
Proof.
  intros HR Hq Hhi Hnull Hst Hsz Hn. eapply wp_transfer; [apply psim_run, psim_uxTaskGetSystemState, list_c_refines|exact HR|].
  eapply wp_mono; [by apply system_state_call_wp|]. intros r k' (Hq' & Hh' & Hc & Hrep & Hr2).
  split_and!; try done; by apply (report_complete k); [apply Hq|].
Qed.

End Listing.

(** ** Instances *)

(** The most urgent task waits for a notification, for ever; every stack has
    eight bytes that have never been written to. *)
Definition notified_setup {H} `{!ListOps item list_id H} : M (Kernel H) unit := boot;; notify_take_wait portMAX_DELAY.

Definition notified_abs : KA := ends notified_setup (mkKernel (mkAheap ∅ ∅) vars0).
Definition notified_ptr : CK := ends notified_setup (mkKernel (mkLheap ∅ ∅) vars0).
Definition demo_stacks (a : Z) : list Z := replicate 8 tskSTACK_FILL_BYTE ++ [0].

Lemma notified_related : RK rep notified_ptr notified_abs.
Proof.
  apply ends_related; [|apply start_related|by vm_compute]. apply sim_bind; [apply boot_sim|intros []].
  apply sim_notify_take_wait, list_c_refines.
Qed.

Lemma boxed_system : system notified_abs.
Proof.
  apply checked_system; [by vm_compute| |]; (eapply entries_forall; [vm_compute; reflexivity|constructor]).
Qed.

Lemma system_state_lists_every_task_witness : on_code (run (uxTaskGetSystemState demo_stacks 6 true)) (fun r _ =>
  NoDup (xHandle <$> r.1) /\ 4000 ∈ xHandle <$> r.1 /\ r.2 = Some 0) notified_ptr.
Proof.
  eapply wp_mono; [apply (system_state_lists_every_task demo_stacks notified_ptr notified_abs 6 true notified_related)|].
  - exact (sy_quiet _ boxed_system).
  - exact (sy_highest _ boxed_system).
  - vm_compute. reflexivity.
  - intros t x _. exists 8. vm_compute. reflexivity.
  - vm_compute. reflexivity.
  - vm_compute. discriminate.
  - intros r c' (k' & HR & _ & _ & _ & E & Hnd & Hmem & _). exists k'. split; [exact HR|]. split; [exact Hnd|].
    split; [|exact E]. apply Hmem. exists xSuspendedTaskList. vm_compute. reflexivity.
Defined.

(** The exception shows: the list of all tasks says that the waiting task is
    suspended, eTaskGetState that it is blocked. *)
Theorem notified_task_reported_suspended :
  from_option (fun r => filter (fun s => xHandle s = 4000) (fst (fst r))) [] (run (uxTaskGetSystemState demo_stacks 6 true) notified_ptr) =
    [mkTaskStatus 4000 4000 4 eSuspended 5 5 0 4500 2] /\
  fst <$> eTaskGetState 4000 notified_ptr = Some eBlocked.
Proof. split; vm_compute; reflexivity. Qed.
